(* ===== verification/_CoqProject ===== *)
-Q . S2P
Prelude.v
Ord.v
Str.v
Ints.v
DateTime.v
Rotation.v
LogFiles.v
Rolling.v
RollingThreads.v
NonBlocking.v
Levels.v
Fields.v
Meta.v
Interests.v
FilterIds.v
Callsites.v
Register.v
SpanStack.v
Extensions.v
Registry.v
Pools.v
Contexts.v
Filters.v
Layers.v
Writers.v
LogBridge.v
InterestCache.v
Stacks.v
SpanLife.v
SpanHandles.v
Spin.v
Dispatchers.v
Directives.v
Targets.v
Float.v
EnvField.v
EnvDirective.v
EnvParse.v
EnvFilter.v
Escape.v
Format.v
FormatEvent.v
FmtLayer.v
Reload.v
RebuildThreads.v
Instrument.v
MacroFields.v
Macros.v
SpanMacros.v
MacroCalls.v
JournalFormat.v
Journald.v
MockExpect.v
Mock.v
MockLayer.v
Pretty.v
FmtBuilder.v
Flame.v
FieldVisitors.v
SpanTraces.v
Serde.v
Json.v
Futures.v
Tower.v
AttrArgs.v
AttrExpand.v
AttrRun.v
LogOutput.v
Subscribers.v
Install.v
TestFutures.v
