(* ===== verification/Prelude.v ===== *)
(** * tracing: a verification library for the filtering and dispatch core

    This library models the core of the [tracing] repository in Rocq and proves what
    makes it correct.  The program decides, for every span and event of an
    instrumented application, which parts of a subscriber see it; most of it is
    caching and composing these decisions so that they can be made early, and keeping
    the spans alive as long as somebody may look at them.

    ** The parts, and where they are modelled

    - [Levels] ([tracing-core/src/metadata.rs]): levels, level filters, their
      comparisons on inverted discriminants, parsers, printers, [MAX_LEVEL].
    - [Fields], [Meta] ([field.rs], [metadata.rs], [span.rs], [event.rs] of
      tracing-core): field sets, value sets and visitors; metadata, span identifiers,
      attributes, events.
    - [Interests], [Callsites], [Register] ([subscriber.rs], [callsite.rs]): interests,
      the contract that a subscriber owes to the callsite cache, the rebuild of the
      cache, and the lock-free registration of callsites, one atomic operation at a
      time.
    - [Dispatchers] ([dispatcher.rs]): the global default and its race, the scoped
      defaults of each thread, re-entrancy.
    - [FilterIds], [SpanStack], [Extensions], [Registry], [Pools], [Contexts]
      ([filter/layer_filters/mod.rs], [registry/*.rs], [layer/context.rs] of
      tracing-subscriber): the bitmap of the per-layer filters and its thread-local
      state, the stack of entered spans, the type map of a span, the span store with
      its reference counts and closing, and the view that layers get of it.
    - [Filters], [Layers], [Stacks], [SpanLife] ([layer/mod.rs], [layer/layered.rs],
      [filter/layer_filters/*.rs], [filter/filter_fn.rs]): the [Filter] and [Layer]
      traits as records of operations, their implementations and compositions, and
      the behaviour of a whole stack of layers on a [Registry].
    - [Directives], [Targets] ([filter/directive.rs], [filter/targets.rs]): ordered
      sets of static directives and the filter made of them.
    - [Float], [EnvField], [EnvDirective], [EnvParse], [EnvFilter]
      ([filter/env/*.rs]): the dynamic filter: value patterns, directives, their
      parser, and the filter's callbacks.
    - [SpanHandles] ([tracing/src/span.rs], the [span!] macro): the handles of an
      instrumented program, their guards, clones and drops.
    - [Spin] ([tracing-core/src/spin/*.rs]): the [Once] and the [Mutex] of builds
      without the standard library, one atomic operation at a time.
    - [Writers], [DateTime] ([fmt/writer.rs], [fmt/time/datetime.rs]): the combinators of
      [MakeWriter], and the civil date of a timestamp.
    - [Rotation], [LogFiles], [Rolling], [RollingThreads] ([tracing-appender/src/rolling.rs],
      [rolling/builder.rs]): periods, file names, pruning and opening of files, the
      rolling appender as a writer, and its [make_writer] called by many threads.
    - [NonBlocking] ([non_blocking.rs], [worker.rs]): the writers, the guard and the worker
      of the non-blocking appender around a bounded channel.
    - [LogBridge], [InterestCache] ([tracing-log/src/*.rs]): records of the [log] crate as
      events and back, and the per-thread cache of the dispatcher's answers for them.
    - [Escape], [Format], [FormatEvent], [FmtLayer] ([fmt/format/escape.rs],
      [fmt/format/mod.rs], [fmt/fmt_layer.rs], [fmt/time/mod.rs]): the escaping of terminal
      sequences, the field formatters, the full and the compact line of an event, and the
      layer that stores formatted fields and timings with the spans and writes the lines.
    - [Reload], [RebuildThreads] ([reload.rs], [callsite.rs]): layers and filters behind a
      lock and the handles that replace them, and what a rebuild of the interest cache
      leaves behind while other threads register callsites.
    - [Instrument] ([tracing/src/instrument.rs]): futures that are polled and dropped inside
      a span or under a dispatcher.
    - [MacroFields], [Macros], [SpanMacros], [MacroCalls] ([tracing/src/macros.rs], [FieldName]
      in [tracing/src/lib.rs]): the rules of the macros on token lists: the lists of fields,
      the macros for events and spans with their variants for each level, [enabled!].
    - [JournalFormat], [Journald] ([tracing-journald/src/*.rs]): the encoding of fields and
      metadata in the journal's native protocol, the layer, and the sending of a payload as
      a datagram or in a sealed file.
    - [MockExpect], [Mock], [MockLayer] ([tracing-mock/src/*.rs]): expectations of tests, and
      the subscriber and the layer that check them against what happens.
    - [Pretty], [FmtBuilder], [FieldVisitors] ([fmt/format/pretty.rs], [fmt/mod.rs], the
      builder in [fmt/fmt_layer.rs], [field/*.rs]): the multi-line format, the builders of the
      fmt layer and the fmt subscriber, and the combinators of visitors.
    - [Flame] ([tracing-flame/src/*.rs]): the layer that writes folded stacks with times.
    - [SpanTraces] ([tracing-error/src/*.rs]): the layer that stores the fields for span
      traces, the traces and the errors that carry one.
    - [Serde], [Json] ([tracing-serde/src/*.rs], [fmt/format/json.rs]): what a serializer is
      given for levels, metadata, events and spans, and the format that writes events as
      JSON objects with the fields that are stored with the spans.
    - [Futures], [Tower] ([tracing-futures/src/*.rs], [tracing-tower/src/*.rs]): futures,
      streams, sinks and executors of two versions of [futures] in a span or under a
      dispatcher, and the services whose requests run in spans.
    - [AttrArgs], [AttrExpand], [AttrRun] ([tracing-attributes/src/*.rs]): the arguments of
      [#[instrument]], read from token trees, the tokens that it makes of a function, and
      what the generated body does with its span when it runs.
    - [Subscribers], [LogOutput], [Install] ([subscriber.rs] of tracing-core; the feature [log]
      in [tracing/src/lib.rs], [span.rs] and [macros.rs]; [tracing-subscriber/src/util.rs] and
      [tracing-log/src/log_tracer.rs]): the implementations of [Subscriber] in the core, the
      records that events and spans write to the [log] crate, and the installation of a
      subscriber and of the logger as the defaults.
    - [TestFutures] ([tracing-test/src/lib.rs]): the future and the loop of the tests.
    - [Ord], [Str], [Ints] and this file: Rust's comparisons, [str] operations on bytes, and
      the conventions of the library.

    A struct is a [Record] with the source's fields, an enum an [Inductive] with its
    variants, a method a [Definition] with the source's name in a [Module] named after
    the type.  A computation that may panic has type [outcome]; one that also changes
    state has type [M] ([Registry.M], [Dispatchers.M]), a state monad over a [World]
    that holds the thread-locals and the statics.  Traits are records of operations
    ([Filter], [Layer], [DynSubscriber]) and the promises between components are type
    classes ([SubscriberContract], [FilterContract], [PoolLaws], [Match], [TimeLaws], [IoLaws],
    [CrossbeamLaws], [LruLaws], [Outputs], [FmtCratesLaws], [LayerEnvLaws],
    [FutureLaws], [ExprLaws], [OsLaws], [FlameLaws], [SerdeJsonLaws], [ExecutorLaws],
    [GetSpanLaws], [ServiceLaws], [SynLaws], [QuoteLaws], [LogCrateLaws]), which the clients' theorems assume and the
    implementations, or small concrete instances, discharge.  Concurrent code is a state
    with a program counter per thread, a step function, and runs over arbitrary traces.

    ** What the theorems show

    - The cache: [Callsites.rebuild_never_hides] (the two checks of the macros' fast
      path never hide an enabled callsite), [Register.registration_safe] (registration
      is safe and traversals are snapshots, for all interleavings),
      [Reload.reload_takes_effect] (after a reload everything goes by the new value),
      [RebuildThreads.rebuild_settles] (one traversal settles every callsite that nobody is
      still registering).
    - Dispatching: [Dispatchers.scoped_defaults_refine], [global_default_once],
      [default_scopes_unwind].
    - A stack of layers: what an event and a span reach ([Stacks.stack_event_pass],
      [stack_span_pass]), that the interest and the maximum level it gives may be
      cached ([stack_interest_sound], [stack_hint_sound]), that combinations of
      filters keep the filters' contract ([Filters.filter_combinators]).
    - Spans: they stay in the registry exactly as long as they are held
      ([SpanLife.spans_open_while_held]); scopes are the enabled ancestors
      ([Contexts.scope_is_enabled_ancestors]); the span stack, the filter bitmap and
      the type map refine a list, a set and a partial map.
    - Handles: a program that keeps to the rules of ownership never panics and its spans
      live exactly as long as its handles ([SpanHandles.handles_keep_spans]).
    - Futures: an instrumented future runs, and is dropped, inside its span and nowhere
      else, on any executor ([Instrument.tasks_run_in_their_spans]); an instrumented executor
      hands the future over with one handle of its span or takes it back without one
      ([Futures.executor_hands_over]); a request runs in its own span inside that of its
      service, and its future carries the span on ([Tower.request_runs_in_its_spans]).
    - Span traces: a trace visits its span and all its ancestors, which stay in the registry
      ([SpanTraces.span_trace_complete]).
    - The macros: the names and the values of a field list agree
      ([MacroFields.fields_and_values_agree]); an event or a span has the parts that its
      macro was given ([Macros.level_macro_events], [SpanMacros.span_macros_agree]); and the
      expansion ends ([MacroCalls.macros_terminate]).
    - The attribute: its arguments are read in any order, duplicates are refused and the
      parse ends ([AttrArgs.attribute_args_read]); the span that it writes expands to one
      with the parameters that are not skipped and the custom fields
      ([AttrExpand.attribute_span]); a function runs its block and its events in that span,
      which is closed when it is over ([AttrRun.instrumented_fn_runs]), and so does every
      poll of an [async] function ([instrumented_async_runs]).
    - Synchronization without the standard library: [Spin.once_initializes_once],
      [mutex_excludes].
    - Output: [Writers.writer_routing] (which outputs a composed writer reaches),
      [DateTime.datetime_is_gregorian] (no overflow, the right day),
      [Rolling.rolling_refines] (every byte to the file of its period),
      [RollingThreads.threads_roll_over_once] (one rollover for each boundary, whatever
      the interleaving), [LogFiles.Inner.prune_keeps_newest],
      [NonBlocking.nonblocking_fifo], [guard_flushes], [worker_drains] (order, loss,
      flushing and end of the background writer).
    - Formatting: [FmtLayer.fmt_layer_writes_line] (one line for an event, and which),
      [span_fields_accumulate] (what is stored with a span), [timings_add_up] (busy and
      idle times), [Escape.escape_is_harmless] (no escape sequence gets through).
    - The formats: [Pretty.pretty_format_lines] (the lines of an event),
      [FmtBuilder.fmt_subscriber_writes_lines] (a built subscriber writes an event once when
      its filter lets it through), [FieldVisitors.delimited_writes] (delimiters stand between
      the fields and nowhere else), [Json.json_span_latest] (a span is shown with the last
      value of each of its fields), [json_event_line] (the line of an event).
    - The journal: [Journald.journald_reads_event] (a reader of the protocol gets back
      the fields), [send_all_or_nothing].
    - Profiles: [Flame.flame_accounts_time] (the times of a folded stack add up to the time
      that passed).
    - Tests: [MockExpect.fields_checked], [Mock.mock_sound] (a run that passes met its
      expectations, in order), [MockLayer.event_scope_checked].
    - The bridge: [LogBridge.log_record_roundtrip],
      [InterestCache.interest_cache_transparent]; [LogOutput.log_values_shown] (the fields
      that a record shows), [log_output_off] (when none is written),
      [Install.try_init_branches] (what an installation changes, and when it fails).
    - The loop of the tests: [TestFutures.block_on_instrumented] (it ends at the poll that was
      asked for, with the span left and its handle given back).
    - Filters from text: directive sets and [Targets] refine maps with a
      longest-prefix lookup; printing and parsing are inverse; the directive parser
      reads its grammar; [EnvFilter] keeps the contract of a filter
      ([EnvFilter.env_filter_contract]) and its per-thread scope is the list of the
      levels of the entered spans ([env_scope_balanced], [dynamic_span_level]).
    - Findings: theorems that state what the code does where it differs from its
      documentation or from its other parts, such as
      [NonBlocking.flush_error_spins], [RollingThreads.late_refresh_reopens_old_file],
      [Stacks.vetoed_event_loses_next], [Stacks.tree_hint_too_low],
      [Fields.contains_one_past_end], [EnvParse.directive_parse_leading_space],
      [Serde.event_struct_announced], [Json.JsonExample.explicit_parent_spans],
      [AttrExpand.async_block_no_warnings], [Subscribers.boxed_registers_nothing],
      [Install.second_init_disables_cache].

    ** Bounds and fuel

    Machine integers are [Z] with the wrap-around or the panic of the source written
    out ([U64]).  Five recursions take fuel: the expansion of the macros ([Macros.expand],
    [MacroFields.expand_rules], the number of calls), the arguments of the attribute
    ([AttrArgs.parse_args], [parse_terminated], one more than the tokens), walking the ancestors of a span
    ([Contexts.scope_iter_next], enough when it exceeds the depth of the span), closing
    a span and its ancestors ([SpanLife.close_span], enough when it exceeds the number
    of live spans) and walking the callsite list ([Callsites.list_from], enough at the
    length of the list); the theorems prove that this much is enough.  The scopes in
    [Pretty], [Flame], [Json], [SpanTraces] and [MockLayer] take the fuel of
    [Contexts.scope_iter_next] or more than the number of live spans, and the reader
    of the journal protocol ([JournalFormat.read_fields]) takes the length of its input.  [TestFutures.block_on_future] takes
    the number of polls.  Resolving symbolic
    links of the modelled file system takes fuel that bounds the length of a chain of
    links, as the system does.

    ** What is not modelled

    - Memory orderings weaker than sequential consistency; in [Registry] threads
      interleave at whole operations.
    - [sharded_slab::Pool], [matchers::Pattern], the crates [time], [symlink],
      [crossbeam_channel] and [lru] (parameters with laws that concrete instances meet),
      the destruction of thread-locals, lock poisoning.
    - Unsafe downcasting: the questions that the code asks through it (is there a
      per-layer filter, a [None] layer, a [Registry]) are flags of the records.
    - A formatter that itself emits an event through the same layer; the output of
      [nu_ansi_term] and of the [Debug] of floats and strings (parameters).
    - The parsing of expressions by the compiler (a parameter with laws), and the text of
      panics.
    - The parsers, printers and visitors of the crate [syn], on whose syntax trees
      [#[instrument]] works (parameters with laws).
    - The crates [serde], [serde_json], [futures], [tokio], [tower] and [http]: what is written
      through them or wrapped is a class with laws. *)

From stdpp Require Export base tactics decidable option list strings gmap
  fin_maps sets sorting.
From Stdlib Require Export ZArith Lia.

(** ** Panicking computations

    A Rust expression that may panic (an [assert!], an out-of-bounds slice, an
    [expect]) is modelled by a value of type [outcome]. *)

Inductive outcome (A : Type) : Type :=
  | Done (a : A)
  | Panic.
Arguments Done {A} a.
Arguments Panic {A}.

#[export] Instance outcome_ret : MRet outcome := fun A a => Done a.
#[export] Instance outcome_bind : MBind outcome :=
  fun A B f o => match o with Done a => f a | Panic => Panic end.

#[export] Instance outcome_fmap : FMap outcome :=
  fun A B f o => match o with Done a => Done (f a) | Panic => Panic end.

(** Rust's [Result]. *)
Inductive result (T E : Type) : Type :=
  | Ok (v : T)
  | Err (e : E).
Arguments Ok {T E} v.
Arguments Err {T E} e.

(** [outcome] of an [Option::expect]. *)
Definition expect {A} (o : option A) : outcome A :=
  match o with Some a => Done a | None => Panic end.

(** A boolean [assert!]. *)
Definition assert (b : bool) : outcome unit := if b then Done tt else Panic.

(** ** 64-bit words

    [u64] and [usize] values are integers [0 <= x < 2^64]; the modelled target
    is a 64-bit one. *)
Module U64.

Definition MAX : Z := 18446744073709551615.

Definition not (x : Z) : Z := Z.lxor x MAX.

Definition wrap (x : Z) : Z := (x mod 2 ^ 64)%Z.

Definition valid (x : Z) : Prop := (0 <= x <= MAX)%Z.

End U64.

(** ** Automation *)

Create HintDb tracing.

(** Splits the boolean conditionals and matches of the goal and of the
    hypotheses, discharging the contradictory branches. *)
Ltac split_ifs :=
  repeat (case_match || case_decide); simplify_eq/=; try done.

(** Turns boolean equations into propositions. *)
Ltac bool_to_prop :=
  repeat match goal with
  | H : (_ && _)%bool = true |- _ => apply andb_true_iff in H; destruct H
  | H : (_ || _)%bool = false |- _ => apply orb_false_iff in H; destruct H
  | H : negb _ = true |- _ => apply negb_true_iff in H
  | H : negb _ = false |- _ => apply negb_false_iff in H
  | H : (_ =? _)%Z = true |- _ => apply Z.eqb_eq in H
  | H : (_ =? _)%Z = false |- _ => apply Z.eqb_neq in H
  | H : (_ <? _)%Z = true |- _ => apply Z.ltb_lt in H
  | H : (_ <? _)%Z = false |- _ => apply Z.ltb_ge in H
  | H : (_ <=? _)%Z = true |- _ => apply Z.leb_le in H
  | H : (_ <=? _)%Z = false |- _ => apply Z.leb_gt in H
  | H : bool_decide _ = true |- _ => apply bool_decide_eq_true in H
  | H : bool_decide _ = false |- _ => apply bool_decide_eq_false in H
  end.

(** ** Lists *)

(** The first element that satisfies a boolean predicate ([Iterator::find]). *)
Fixpoint find_first {A} (p : A -> bool) (l : list A) : option A :=
  match l with
  | [] => None
  | x :: l => if p x then Some x else find_first p l
  end.

(** The position of the first such element ([Iterator::position]). *)
Fixpoint position {A} (p : A -> bool) (l : list A) : option nat :=
  match l with
  | [] => None
  | x :: l => if p x then Some 0 else S <$> position p l
  end.

Section list_lemmas.
Context {A : Type}.
Implicit Types (p : A -> bool) (l : list A).

Lemma find_first_Some p l x :
  find_first p l = Some x <->
  exists l1 l2, l = l1 ++ x :: l2 /\ p x = true /\ Forall (fun y => p y = false) l1.
Proof.
  split.
  - induction l as [|y l IH]; simpl; [done|].
    destruct (p y) eqn:Hy; intros H; simplify_eq.
    + by exists [], l.
    + destruct (IH H) as (l1 & l2 & -> & Hx & Hl1).
      exists (y :: l1), l2. by repeat constructor.
  - intros (l1 & l2 & -> & Hx & Hl1).
    induction Hl1 as [|y l1 Hy Hl1 IH]; simpl; [by rewrite Hx | by rewrite Hy].
Qed.

Lemma find_first_None p l :
  find_first p l = None <-> Forall (fun y => p y = false) l.
Proof.
  induction l as [|y l IH]; simpl; [by split|].
  rewrite Forall_cons, <- IH. destruct (p y); intuition congruence.
Qed.

Lemma find_first_elem p l x : find_first p l = Some x -> x ∈ l /\ p x = true.
Proof. rewrite find_first_Some. intros (l1 & l2 & -> & ? & ?). set_solver. Qed.

Lemma position_Some p l i :
  position p l = Some i <->
  exists x, l !! i = Some x /\ p x = true /\
    forall j y, (j < i)%nat -> l !! j = Some y -> p y = false.
Proof.
  revert i. induction l as [|y l IH]; intros i; simpl.
  { split; [done|]. intros (x & Hx & _). by rewrite lookup_nil in Hx. }
  destruct (p y) eqn:Hy.
  - split; [intros ?; simplify_eq; exists y; split_and!; auto with lia|].
    intros (x & Hx & Hp & Hlt). destruct i as [|i]; [done|].
    specialize (Hlt 0 y ltac:(lia) eq_refl). congruence.
  - rewrite fmap_Some. setoid_rewrite IH. split.
    + intros (i' & (x & Hx & Hp & Hlt) & ->). exists x. split_and!; [done..|].
      intros [|j] z Hj Hz; simplify_eq/=; [done|]. apply (Hlt j); [lia|done].
    + intros (x & Hx & Hp & Hlt). destruct i as [|i]; simpl in Hx; [congruence|].
      exists i. split; [|done]. exists x. split_and!; [done..|].
      intros j z Hj Hz. apply (Hlt (S j)); [lia|done].
Qed.

Lemma position_None p l : position p l = None <-> Forall (fun y => p y = false) l.
Proof.
  induction l as [|y l IH]; simpl; [by split|].
  rewrite Forall_cons, <- IH. destruct (p y); [intuition congruence|].
  rewrite fmap_None. intuition.
Qed.

End list_lemmas.

#[export] Hint Resolve find_first_elem : tracing.

(** Replacing an element of a list in a sum over it. *)
Lemma sum_list_with_insert {A} (f : A -> nat) (l : list A) (i : nat) (x y : A) :
  l !! i = Some x -> sum_list_with f (<[i := y]> l) + f x = sum_list_with f l + f y.
Proof.
  revert i. induction l as [|z l IH]; intros [|i]; [done..| |]; cbn.
  - intros [= ->]. lia.
  - intros H%IH. change (<[S i:=y]> (z :: l)) with (z :: <[i:=y]> l). cbn.
    rewrite <- !Nat.add_assoc. by f_equal.
Qed.
