(* ===== verification/Ord.v ===== *)
(** * Ord: Rust's [Ord] and [PartialOrd] comparisons

    [Ordering] is the standard [comparison] ([Less = Lt], [Equal = Eq],
    [Greater = Gt]); [then_with], [Ordering::reverse] and the comparisons of the
    standard library ([Option], slices, strings, integers, booleans) are defined
    here, with the laws the sorted containers of the program rely on.  The laws
    are stated on a subset [P] of the type, because some comparisons of the
    program are total orders only on a part of their type. *)

From S2P Require Import Prelude.

Class RustOrd (A : Type) := cmp : A -> A -> comparison.

Definition then_with (a b : comparison) : comparison :=
  match a with Eq => b | _ => a end.

Definition reverse (a : comparison) : comparison := CompOpp a.

Definition is_eq (c : comparison) : bool := match c with Eq => true | _ => false end.
Definition is_lt (c : comparison) : bool := match c with Lt => true | _ => false end.
Definition is_gt (c : comparison) : bool := match c with Gt => true | _ => false end.

(** [cmp::max] and [cmp::min]: [max] returns the second argument on a tie,
    [min] the first. *)
Definition ord_max {A} `{RustOrd A} (x y : A) : A :=
  match cmp x y with Gt => x | _ => y end.
Definition ord_min {A} `{RustOrd A} (x y : A) : A :=
  match cmp x y with Gt => y | _ => x end.

(** ** Comparisons of the standard library *)

#[export] Instance ord_nat : RustOrd nat := Nat.compare.
#[export] Instance ord_Z : RustOrd Z := Z.compare.
#[export] Instance ord_bool : RustOrd bool := Bool.compare.
#[export] Instance ord_string : RustOrd string := String.compare.

(** [None] is less than every [Some]. *)
#[export] Instance ord_option {A} `{RustOrd A} : RustOrd (option A) :=
  fun x y =>
    match x, y with
    | None, None => Eq
    | None, Some _ => Lt
    | Some _, None => Gt
    | Some a, Some b => cmp a b
    end.

(** Slices compare lexicographically. *)
Fixpoint list_cmp {A} (c : A -> A -> comparison) (xs ys : list A) : comparison :=
  match xs, ys with
  | [], [] => Eq
  | [], _ :: _ => Lt
  | _ :: _, [] => Gt
  | x :: xs, y :: ys => then_with (c x y) (list_cmp c xs ys)
  end.
#[export] Instance ord_list {A} `{RustOrd A} : RustOrd (list A) := list_cmp cmp.

(** ** Laws *)

(** [c] is a total preorder on the elements that satisfy [P]. *)
Record preorder_on {A} (P : A -> Prop) (c : A -> A -> comparison) : Prop := {
  po_opp x y : P x -> P y -> c y x = CompOpp (c x y);
  po_eq x y z : P x -> P y -> P z -> c x y = Eq -> c x z = c y z;
  po_lt x y z : P x -> P y -> P z -> c x y = Lt -> c y z = Lt -> c x z = Lt;
}.

(** [c] is a total order on them: [Equal] is equality. *)
Record order_on {A} (P : A -> Prop) (c : A -> A -> comparison) : Prop := {
  oo_pre : preorder_on P c;
  oo_eq x y : P x -> P y -> c x y = Eq -> x = y;
}.

Definition everything {A} (_ : A) : Prop := True.

Lemma everything_I {A} (x : A) : everything x.
Proof. done. Qed.
#[export] Hint Resolve everything_I : tracing.

Section preorder_facts.
Context {A : Type} {P : A -> Prop} {c : A -> A -> comparison}.
Context (Hc : preorder_on P c).

Lemma po_refl x : P x -> c x x = Eq.
Proof.
  intros Hx. pose proof (po_opp _ _ Hc x x Hx Hx) as H.
  by destruct (c x x).
Qed.

Lemma po_gt_lt x y : P x -> P y -> c x y = Gt <-> c y x = Lt.
Proof.
  intros Hx Hy. rewrite (po_opp _ _ Hc x y) by done.
  by destruct (c x y).
Qed.

Lemma po_eq_sym x y : P x -> P y -> c x y = Eq -> c y x = Eq.
Proof. intros Hx Hy H. by rewrite (po_opp _ _ Hc x y), H. Qed.

(** [Equal] elements are indistinguishable on the right as well. *)
Lemma po_eq_r x y z : P x -> P y -> P z -> c x y = Eq -> c z x = c z y.
Proof.
  intros Hx Hy Hz H.
  rewrite (po_opp _ _ Hc x z), (po_opp _ _ Hc y z) by done.
  f_equal. by apply (po_eq _ _ Hc).
Qed.

(** [<=] is transitive. *)
Lemma po_le_trans x y z :
  P x -> P y -> P z -> c x y <> Gt -> c y z <> Gt -> c x z <> Gt.
Proof.
  intros Hx Hy Hz H1 H2. destruct (c x y) eqn:E1; [|clear H1|done].
  - by rewrite (po_eq _ _ Hc x y z).
  - destruct (c y z) eqn:E2; [|clear H2|done].
    + rewrite <- (po_eq_r y z x) by done. by rewrite E1.
    + by rewrite (po_lt _ _ Hc x y z).
Qed.

End preorder_facts.

(** Comparing through a key. *)
Lemma preorder_on_key {A B} (f : A -> B) (P : B -> Prop) c :
  preorder_on P c -> preorder_on (fun x => P (f x)) (fun x y => c (f x) (f y)).
Proof.
  intros Hc. split.
  - intros x y. apply (po_opp _ _ Hc).
  - intros x y z. apply (po_eq _ _ Hc).
  - intros x y z. apply (po_lt _ _ Hc).
Qed.

Lemma preorder_on_weaken {A} (P Q : A -> Prop) c :
  preorder_on Q c -> (forall x, P x -> Q x) -> preorder_on P c.
Proof.
  intros Hc HPQ. split.
  - intros x y Hx Hy. apply (po_opp _ _ Hc); auto.
  - intros x y z Hx Hy Hz. apply (po_eq _ _ Hc); auto.
  - intros x y z Hx Hy Hz. apply (po_lt _ _ Hc); auto.
Qed.

(** Comparing through a key that always satisfies the condition. *)
Lemma preorder_by {A B} (f : A -> B) (P : B -> Prop) c :
  preorder_on P c -> (forall x, P (f x)) -> preorder_on everything (fun x y => c (f x) (f y)).
Proof.
  intros Hc Hf. eapply preorder_on_weaken; [by apply preorder_on_key|]. intros x _. apply Hf.
Qed.

Lemma preorder_on_ext {A} (P : A -> Prop) c c' :
  preorder_on P c -> (forall x y, P x -> P y -> c' x y = c x y) -> preorder_on P c'.
Proof.
  intros Hc Hext. split.
  - intros x y Hx Hy. rewrite !Hext by done. by apply (po_opp _ _ Hc).
  - intros x y z Hx Hy Hz. rewrite !Hext by done. by apply (po_eq _ _ Hc).
  - intros x y z Hx Hy Hz. rewrite !Hext by done. by apply (po_lt _ _ Hc).
Qed.

(** [Ordering::then_with]: the lexicographic combination. *)
Lemma preorder_on_then {A} (P : A -> Prop) c1 c2 :
  preorder_on P c1 -> preorder_on P c2 ->
  preorder_on P (fun x y => then_with (c1 x y) (c2 x y)).
Proof.
  intros H1 H2. split.
  - intros x y Hx Hy. rewrite (po_opp _ _ H1 x y), (po_opp _ _ H2 x y) by done.
    by destruct (c1 x y).
  - intros x y z Hx Hy Hz. unfold then_with.
    destruct (c1 x y) eqn:E; intros E2; try done.
    rewrite (po_eq _ _ H1 x y z), (po_eq _ _ H2 x y z) by done. done.
  - intros x y z Hx Hy Hz. unfold then_with. intros Hxy Hyz.
    destruct (c1 x y) eqn:E1; [| |done].
    + rewrite (po_eq _ _ H1 x y z) by done.
      destruct (c1 y z); [|done..]. by apply (po_lt _ _ H2 x y z).
    + destruct (c1 y z) eqn:E2; [| |done].
      * by rewrite <- (po_eq_r H1 y z x), E1 by done.
      * by rewrite (po_lt _ _ H1 x y z).
Qed.

Lemma preorder_on_reverse {A} (P : A -> Prop) c :
  preorder_on P c -> preorder_on P (fun x y => reverse (c x y)).
Proof.
  intros Hc. split; unfold reverse.
  - intros x y Hx Hy. by rewrite (po_opp _ _ Hc x y).
  - intros x y z Hx Hy Hz H. f_equal. apply (po_eq _ _ Hc); [done..|].
    by destruct (c x y).
  - intros x y z Hx Hy Hz Hxy Hyz.
    assert (c y x = Lt) as H1 by (rewrite (po_opp _ _ Hc x y); by destruct (c x y)).
    assert (c z y = Lt) as H2 by (rewrite (po_opp _ _ Hc y z); by destruct (c y z)).
    rewrite (po_opp _ _ Hc z x) by done.
    by rewrite (po_lt _ _ Hc z y x).
Qed.

(** ** The standard comparisons are total orders *)

Lemma order_nat : order_on everything (cmp (A:=nat)).
Proof.
  unfold cmp, ord_nat. split; [split|]; intros *; intros.
  - by rewrite Nat.compare_antisym.
  - by apply Nat.compare_eq in H2 as ->.
  - rewrite !Nat.compare_lt_iff in *. lia.
  - by apply Nat.compare_eq.
Qed.

Lemma order_Z : order_on everything (cmp (A:=Z)).
Proof.
  unfold cmp, ord_Z. split; [split|]; intros *; intros.
  - by rewrite Z.compare_antisym.
  - by apply Z.compare_eq in H2 as ->.
  - rewrite !Z.compare_lt_iff in *. lia.
  - by apply Z.compare_eq.
Qed.

Lemma order_bool : order_on everything (cmp (A:=bool)).
Proof.
  split; [split|].
  - by intros [] [].
  - by intros [] [] [].
  - by intros [] [] [].
  - by intros [] [].
Qed.

Lemma ascii_compare_N a b :
  Ascii.compare a b = N.compare (Ascii.N_of_ascii a) (Ascii.N_of_ascii b).
Proof. done. Qed.

Lemma N_of_ascii_inj a b : Ascii.N_of_ascii a = Ascii.N_of_ascii b -> a = b.
Proof.
  intros H. by rewrite <- (Ascii.ascii_N_embedding a), H, Ascii.ascii_N_embedding.
Qed.

Lemma string_compare_cons a b s t :
  String.compare (String a s) (String b t) =
  then_with (N.compare (Ascii.N_of_ascii a) (Ascii.N_of_ascii b)) (String.compare s t).
Proof. simpl. rewrite ascii_compare_N. by destruct (N.compare _ _). Qed.

Lemma string_compare_opp s t : String.compare t s = CompOpp (String.compare s t).
Proof. by rewrite String.compare_antisym. Qed.

Lemma string_compare_lt_trans s t u :
  String.compare s t = Lt -> String.compare t u = Lt -> String.compare s u = Lt.
Proof.
  revert t u. induction s as [|a s IH]; intros [|b t] [|c u]; try done.
  rewrite !string_compare_cons. unfold then_with.
  destruct (N.compare_spec (Ascii.N_of_ascii a) (Ascii.N_of_ascii b)) as [E|E|E];
  destruct (N.compare_spec (Ascii.N_of_ascii b) (Ascii.N_of_ascii c)) as [F|F|F];
  destruct (N.compare_spec (Ascii.N_of_ascii a) (Ascii.N_of_ascii c)) as [G|G|G];
    try done; try (intros; exfalso; lia).
  apply IH.
Qed.

Lemma order_string : order_on everything (cmp (A:=string)).
Proof.
  unfold cmp, ord_string. split; [split|]; intros *; intros.
  - apply string_compare_opp.
  - by apply String.compare_eq_iff in H2 as ->.
  - by eapply string_compare_lt_trans.
  - by apply String.compare_eq_iff.
Qed.

Definition on_option {A} (P : A -> Prop) (o : option A) : Prop :=
  match o with None => True | Some x => P x end.

Lemma on_option_everything {A} (o : option A) : on_option everything o.
Proof. by destruct o. Qed.
Lemma Forall_everything {A} (l : list A) : Forall everything l.
Proof. by apply Forall_forall. Qed.
#[export] Hint Resolve on_option_everything Forall_everything : tracing.

Lemma preorder_option {A} `{RustOrd A} (P : A -> Prop) :
  preorder_on P cmp -> preorder_on (on_option P) (cmp (A:=option A)).
Proof.
  intros Hc. split.
  - intros [x|] [y|]; simpl; try done. apply (po_opp _ _ Hc).
  - intros [x|] [y|] [z|]; simpl; try done. by apply (po_eq _ _ Hc).
  - intros [x|] [y|] [z|]; unfold cmp, ord_option; simpl; try done.
    apply (po_lt _ _ Hc).
Qed.

Lemma order_option {A} `{RustOrd A} (P : A -> Prop) :
  order_on P cmp -> order_on (on_option P) (cmp (A:=option A)).
Proof.
  intros [Hp He]. split; [by apply preorder_option|].
  intros [x|] [y|]; simpl; try done. intros Px Py E. f_equal. by apply He.
Qed.

Lemma preorder_list {A} (P : A -> Prop) c :
  preorder_on P c -> preorder_on (Forall P) (list_cmp c).
Proof.
  intros Hc. split.
  - intros xs ys Hx. revert ys. induction Hx as [|x xs Px Hx IH];
      intros [|y ys] Hy; try done; inversion_clear Hy; simpl.
    rewrite (po_opp _ _ Hc x y), IH by done. by destruct (c x y).
  - intros xs ys zs Hx. revert ys zs. induction Hx as [|x xs Px Hx IH];
      intros [|y ys] [|z zs] Hy Hz; try done; inversion_clear Hy; inversion_clear Hz; simpl.
    unfold then_with. destruct (c x y) eqn:E; try done. intros Heq.
    rewrite (po_eq _ _ Hc x y z) by done. by rewrite (IH ys zs).
  - intros xs ys zs Hx. revert ys zs. induction Hx as [|x xs Px Hx IH];
      intros [|y ys] [|z zs] Hy Hz; try done; inversion_clear Hy; inversion_clear Hz; simpl.
    unfold then_with. destruct (c x y) eqn:E1; intros L1; try done.
    + rewrite (po_eq _ _ Hc x y z) by done.
      destruct (c y z); try done. intros. by apply (IH ys zs).
    + destruct (c y z) eqn:E2; intros L2; try done.
      * by rewrite <- (po_eq_r Hc y z x), E1 by done.
      * by rewrite (po_lt _ _ Hc x y z).
Qed.

Lemma list_cmp_Eq {A} (c : A -> A -> comparison) xs ys :
  list_cmp c xs ys = Eq <-> Forall2 (fun x y => c x y = Eq) xs ys.
Proof.
  revert ys. induction xs as [|x xs IH]; intros [|y ys]; simpl.
  - split; [constructor|done].
  - split; [done|]. inversion 1.
  - split; [done|]. inversion 1.
  - rewrite Forall2_cons, <- IH. unfold then_with. destruct (c x y); intuition congruence.
Qed.

Lemma order_list {A} (P : A -> Prop) c :
  order_on P c -> order_on (Forall P) (list_cmp c).
Proof.
  intros [Hp He]. split; [by apply preorder_list|].
  intros xs ys Hx. revert ys. induction Hx as [|x xs Px Hx IH];
    intros [|y ys] Hy; try done; inversion_clear Hy; simpl.
  unfold then_with. destruct (c x y) eqn:E; try done.
  intros Heq. f_equal; [by apply He | by apply IH].
Qed.

#[export] Hint Resolve order_nat order_Z order_bool order_string order_option
  order_list oo_pre preorder_option preorder_list preorder_on_then
  preorder_on_reverse : tracing.
