(* ===== verification/Str.v ===== *)
(** * Str: the standard library's [str] operations

    A [str] is its UTF-8 bytes, a Stdlib [string] whose characters are bytes.
    Lengths and indices are byte lengths and byte indices, as in Rust.  Slicing
    panics outside the string and off a character boundary. *)

From S2P Require Import Prelude.
From Stdlib Require Import Ascii.
From stdpp Require Import pretty.

Local Open Scope string_scope.

Abbreviation str_len := String.length.

Definition byte_of (a : ascii) : Z := Z.of_N (N_of_ascii a).

(** ** Searching *)

(** [s.starts_with(pat)] *)
Fixpoint starts_with (s pat : string) : bool :=
  match pat, s with
  | EmptyString, _ => true
  | String _ _, EmptyString => false
  | String p pat, String c s => Ascii.eqb c p && starts_with s pat
  end.

Fixpoint str_drop (n : nat) (s : string) : string :=
  match n, s with
  | S n, String _ s => str_drop n s
  | _, _ => s
  end.

Fixpoint str_take (n : nat) (s : string) : string :=
  match n, s with
  | S n, String c s => String c (str_take n s)
  | _, _ => EmptyString
  end.

(** [s.ends_with(pat)] *)
Definition ends_with (s pat : string) : bool :=
  (str_len pat <=? str_len s)%nat &&
  String.eqb (str_drop (str_len s - str_len pat) s) pat.

(** [s.trim_end_matches(pat)] for a non-empty [pat]: every strip shortens the
    string, so its length bounds the number of strips. *)
Fixpoint trim_end_go (fuel : nat) (s pat : string) : string :=
  match fuel with
  | O => s
  | S fuel =>
      if ends_with s pat then trim_end_go fuel (str_take (str_len s - str_len pat) s) pat
      else s
  end.
Definition trim_end_matches (s pat : string) : string := trim_end_go (str_len s) s pat.

(** [s.split(c)] for an ASCII character: the pieces between the occurrences, at
    least one. *)
Fixpoint split_char (c : ascii) (s : string) : list string :=
  match s with
  | EmptyString => [EmptyString]
  | String a s =>
      if Ascii.eqb a c then EmptyString :: split_char c s
      else match split_char c s with
           | p :: ps => String a p :: ps
           | [] => [String a EmptyString]
           end
  end.

(** [s.split(pat)] for a non-empty string: left-to-right, non-overlapping
    occurrences.  [skip] counts the bytes of a matched occurrence that are still
    to be passed over. *)
Fixpoint split_str_go (pat : string) (skip : nat) (s : string) : list string :=
  match s with
  | EmptyString => [EmptyString]
  | String a s' =>
      match skip with
      | S skip => split_str_go pat skip s'
      | O =>
          if starts_with s pat then
            EmptyString :: split_str_go pat (str_len pat - 1) s'
          else match split_str_go pat 0 s' with
               | p :: ps => String a p :: ps
               | [] => [String a EmptyString]
               end
      end
  end.
Definition split_str (pat s : string) : list string := split_str_go pat 0 s.

(** Joins strings with a separator, as the [Display] loops of the program do. *)
Fixpoint join (sep : string) (l : list string) : string :=
  match l with
  | [] => ""
  | [x] => x
  | x :: l => x ++ sep ++ join sep l
  end.

(** ** ASCII case *)

Definition ascii_lower (a : ascii) : ascii :=
  if ((65 <=? byte_of a) && (byte_of a <=? 90))%Z
  then ascii_of_N (N_of_ascii a + 32) else a.

(** [s.eq_ignore_ascii_case(t)] *)
Fixpoint eq_ignore_ascii_case (s t : string) : bool :=
  match s, t with
  | EmptyString, EmptyString => true
  | String a s, String b t =>
      Ascii.eqb (ascii_lower a) (ascii_lower b) && eq_ignore_ascii_case s t
  | _, _ => false
  end.

(** ** Integer and boolean parsing *)

Definition digit_of (a : ascii) : option Z :=
  if ((48 <=? byte_of a) && (byte_of a <=? 57))%Z then Some (byte_of a - 48)%Z else None.

(** The digits of a number, in the order read; any other byte is an error, and so
    is a value above [hi] or below [lo] at any step ([checked_mul],
    [checked_add]/[checked_sub]). *)
Fixpoint parse_digits (neg : bool) (lo hi : Z) (acc : Z) (s : string) : option Z :=
  match s with
  | EmptyString => Some acc
  | String a s =>
      match digit_of a with
      | None => None
      | Some d =>
          let acc' := (if neg then acc * 10 - d else acc * 10 + d)%Z in
          if ((lo <=? acc') && (acc' <=? hi))%Z then parse_digits neg lo hi acc' s
          else None
      end
  end.

(** [s.parse::<uN>()]: an optional [+], then at least one digit. *)
Definition parse_unsigned (hi : Z) (s : string) : option Z :=
  match s with
  | EmptyString => None
  | String "+" EmptyString => None
  | String "-" EmptyString => None
  | String "+" s => parse_digits false 0 hi 0 s
  | _ => parse_digits false 0 hi 0 s
  end.

(** [s.parse::<iN>()]: an optional sign, then at least one digit. *)
Definition parse_signed (lo hi : Z) (s : string) : option Z :=
  match s with
  | EmptyString => None
  | String "+" EmptyString => None
  | String "-" EmptyString => None
  | String "+" s => parse_digits false lo hi 0 s
  | String "-" s => parse_digits true lo hi 0 s
  | _ => parse_digits false lo hi 0 s
  end.

Definition parse_u64 : string -> option Z := parse_unsigned U64.MAX.
Definition parse_usize : string -> option Z := parse_unsigned U64.MAX.
Definition parse_i64 : string -> option Z :=
  parse_signed (-9223372036854775808) 9223372036854775807.

(** [s.parse::<bool>()] *)
Definition parse_bool (s : string) : option bool :=
  if String.eqb s "true" then Some true
  else if String.eqb s "false" then Some false
  else None.

(** ** UTF-8 *)

(** A continuation byte is [10xxxxxx]. *)
Definition is_continuation (a : ascii) : bool :=
  ((128 <=? byte_of a) && (byte_of a <? 192))%Z.

Definition byte_at (s : string) (i : nat) : option ascii := String.get i s.

(** [s.is_char_boundary(i)] *)
Definition is_char_boundary (s : string) (i : nat) : bool :=
  if (i =? 0)%nat then true
  else if (str_len s <? i)%nat then false
  else match byte_at s i with
       | None => true
       | Some a => negb (is_continuation a)
       end.

(** [&s[a..b]] and [&s[a..]] *)
Definition slice (s : string) (a b : nat) : outcome string :=
  if (a <=? b)%nat && is_char_boundary s a && is_char_boundary s b
  then Done (String.substring a (b - a) s) else Panic.
Definition slice_from (s : string) (a : nat) : outcome string := slice s a (str_len s).

(** The length and the value of the encoded character that starts with [a]. *)
Definition utf8_width (a : ascii) : nat :=
  if (byte_of a <? 128)%Z then 1
  else if (byte_of a <? 224)%Z then 2
  else if (byte_of a <? 240)%Z then 3
  else 4.

Definition cont_bits (s : string) (i : nat) : Z :=
  match byte_at s i with Some a => Z.land (byte_of a) 63 | None => 0%Z end.

Definition utf8_value (a : ascii) (rest : string) : Z :=
  match utf8_width a with
  | 1 => byte_of a
  | 2 => Z.lor (Z.shiftl (Z.land (byte_of a) 31) 6) (cont_bits rest 0)
  | 3 => Z.lor (Z.shiftl (Z.land (byte_of a) 15) 12)
           (Z.lor (Z.shiftl (cont_bits rest 0) 6) (cont_bits rest 1))
  | _ => Z.lor (Z.shiftl (Z.land (byte_of a) 7) 18)
           (Z.lor (Z.shiftl (cont_bits rest 0) 12)
             (Z.lor (Z.shiftl (cont_bits rest 1) 6) (cont_bits rest 2)))
  end.

(** [s.char_indices()]: the byte index and the code point of each character. *)
Fixpoint char_indices_go (i skip : nat) (s : string) : list (nat * Z) :=
  match s with
  | EmptyString => []
  | String a s =>
      match skip with
      | S skip => char_indices_go (S i) skip s
      | O => (i, utf8_value a s) :: char_indices_go (S i) (utf8_width a - 1) s
      end
  end.
Definition char_indices (s : string) : list (nat * Z) := char_indices_go 0 0 s.

(** The UTF-8 encodings of the [White_Space] characters ([char::is_whitespace]). *)
Definition bytes (l : list nat) : string :=
  fold_right (fun n s => String (ascii_of_nat n) s) EmptyString l.
Definition whitespace : list string :=
  map bytes
    ([[9]; [10]; [11]; [12]; [13]; [32]; [194; 133]; [194; 160]; [225; 154; 128];
      [226; 128; 168]; [226; 128; 169]; [226; 128; 175]; [226; 129; 159];
      [227; 128; 128]] ++ map (fun n => [226; 128; n]) (seq 128 11))%list.

(** [s.trim_start()], [s.trim_end()], [s.trim()] *)
Fixpoint trim_start_go (fuel : nat) (s : string) : string :=
  match fuel with
  | O => s
  | S fuel =>
      match find_first (starts_with s) whitespace with
      | Some w => trim_start_go fuel (str_drop (str_len w) s)
      | None => s
      end
  end.
Definition trim_start (s : string) : string := trim_start_go (str_len s) s.
Fixpoint trim_end_ws_go (fuel : nat) (s : string) : string :=
  match fuel with
  | O => s
  | S fuel =>
      match find_first (ends_with s) whitespace with
      | Some w => trim_end_ws_go fuel (str_take (str_len s - str_len w) s)
      | None => s
      end
  end.
Definition trim_end (s : string) : string := trim_end_ws_go (str_len s) s.
Definition trim (s : string) : string := trim_end (trim_start s).

Example trim_nbsp : trim (bytes [194; 160; 97; 32; 98; 32]) = "a b".
Proof. reflexivity. Qed.
Example split_str_ex : split_str "[{" "foo[{bar}]" = ["foo"; "bar}]"].
Proof. reflexivity. Qed.
Example parse_u64_ex : parse_u64 "18446744073709551615" = Some U64.MAX /\
  parse_u64 "18446744073709551616" = None /\ parse_u64 "+7" = Some 7%Z /\
  parse_u64 "-7" = None /\ parse_i64 "-7" = Some (-7)%Z.
Proof. split_and!; reflexivity. Qed.
Example char_indices_ex : char_indices (bytes [97; 226; 130; 172; 98]) = [(0, 97%Z); (1, 8364%Z); (4, 98%Z)].
Proof. reflexivity. Qed.

(** ** Splitting what was joined *)

(** [s] does not contain [c]. *)
Fixpoint no_char (c : ascii) (s : string) : bool :=
  match s with EmptyString => true | String a s => negb (Ascii.eqb a c) && no_char c s end.

Lemma no_char_app c s t : no_char c (s ++ t) = no_char c s && no_char c t.
Proof. induction s as [|a s IH]; simpl; [done|]. by rewrite IH, andb_assoc. Qed.

Lemma split_char_none c s : no_char c s = true -> split_char c s = [s].
Proof.
  induction s as [|a s IH]; simpl; [done|]. intros [Ha%negb_true_iff Hs]%andb_true_iff.
  by rewrite Ha, IH.
Qed.

Lemma split_char_sep c s t :
  no_char c s = true -> split_char c (s ++ String c t) = s :: split_char c t.
Proof.
  induction s as [|a s IH]; simpl.
  - by rewrite Ascii.eqb_refl.
  - intros [Ha%negb_true_iff Hs]%andb_true_iff. by rewrite Ha, IH.
Qed.

Lemma starts_with_app s t : starts_with (s ++ t) s = true.
Proof. induction s as [|a s IH]; simpl; [by destruct t|]. by rewrite Ascii.eqb_refl. Qed.

(** The pattern [a :: pat] occurs only where its first character does. *)
Lemma starts_with_first a pat s : no_char a s = true -> starts_with s (String a pat) = false.
Proof.
  destruct s as [|b s]; simpl; [done|]. intros [Hb%negb_true_iff _]%andb_true_iff. by rewrite Hb.
Qed.

Lemma split_str_none a pat s :
  no_char a s = true -> split_str_go (String a pat) 0 s = [s].
Proof.
  induction s as [|b s IH]; [done|]. intros H. cbn -[starts_with].
  rewrite starts_with_first by done. simpl in H. apply andb_true_iff in H as [_ H].
  by rewrite IH.
Qed.

Lemma split_str_skip pat s t : split_str_go pat (str_len s) (s ++ t) = split_str_go pat 0 t.
Proof. induction s as [|a s IH]; simpl; [done|]. apply IH. Qed.

Lemma split_str_sep a pat s t :
  no_char a s = true ->
  split_str_go (String a pat) 0 (s ++ String a pat ++ t) =
  s :: split_str_go (String a pat) 0 t.
Proof.
  induction s as [|b s IH]; intros H.
  - pose proof (starts_with_app (String a pat) t) as Hp. simpl in Hp. simpl.
    rewrite Hp, Nat.sub_0_r. f_equal. apply split_str_skip.
  - simpl in H. apply andb_true_iff in H as [Hb H].
    change (String b s ++ String a pat ++ t) with (String b (s ++ String a pat ++ t)).
    cbn -[starts_with String.append].
    assert (starts_with (String b (s ++ String a pat ++ t)) (String a pat) = false) as ->.
    { simpl. apply negb_true_iff in Hb. by rewrite Hb. }
    by rewrite (IH H).
Qed.

Lemma str_len_app s t : str_len (s ++ t) = (str_len s + str_len t)%nat.
Proof. induction s as [|a s IH]; simpl; [done|]. by rewrite IH. Qed.

Lemma str_drop_app s t : str_drop (str_len s) (s ++ t) = t.
Proof. induction s as [|a s IH]; simpl; [by destruct t|done]. Qed.

Lemma str_take_app s t : str_take (str_len s) (s ++ t) = s.
Proof. induction s as [|a s IH]; simpl; [by destruct t|by rewrite IH]. Qed.

Lemma str_take_drop n s : str_take n s ++ str_drop n s = s.
Proof.
  revert s. induction n as [|n IH]; intros [|a s]; simpl; [done..|]. exact (f_equal (String a) (IH s)).
Qed.

Lemma append_assoc (s t u : string) : (s ++ t) ++ u = s ++ t ++ u.
Proof. induction s as [|a s IH]; [done|]. exact (f_equal (String a) IH). Qed.

Lemma append_nil_r (s : string) : s ++ "" = s.
Proof. induction s as [|a s IH]; [done|]. exact (f_equal (String a) IH). Qed.

Lemma ends_with_app s pat : ends_with (s ++ pat) pat = true.
Proof.
  unfold ends_with. rewrite str_len_app, (proj2 (Nat.leb_le _ _)) by lia.
  replace (str_len s + str_len pat - str_len pat)%nat with (str_len s) by lia.
  by rewrite str_drop_app, String.eqb_refl.
Qed.

Lemma ends_with_no_char c pat s :
  no_char c s = true -> no_char c pat = false -> ends_with s pat = false.
Proof.
  intros Hs Hp. unfold ends_with. destruct (_ <=? _)%nat; [|done]. simpl.
  apply String.eqb_neq. intros Heq.
  rewrite <- (str_take_drop (str_len s - str_len pat) s), Heq, no_char_app, Hp in Hs.
  by rewrite andb_false_r in Hs.
Qed.

(** One occurrence of the pattern at the end is trimmed. *)
Lemma trim_end_matches_app c pat s :
  no_char c s = true -> no_char c pat = false -> trim_end_matches (s ++ pat) pat = s.
Proof.
  intros Hs Hp. unfold trim_end_matches.
  assert (exists n, str_len (s ++ pat) = S n) as [n ->].
  { rewrite str_len_app. destruct pat; [done|]. simpl. eexists. apply Nat.add_succ_r. }
  simpl. rewrite ends_with_app, str_len_app.
  replace (str_len s + str_len pat - str_len pat)%nat with (str_len s) by lia.
  rewrite str_take_app. destruct n; [done|]. simpl. by rewrite (ends_with_no_char c).
Qed.

Lemma append_inj_l s t u : s ++ t = s ++ u -> t = u.
Proof. intros H. by rewrite <- (str_drop_app s t), H, str_drop_app. Qed.

(** ** Printed numbers *)

Lemma no_char_pretty_N c (n : N) :
  (forall d, Ascii.eqb (pretty_N_char d) c = false) -> no_char c (pretty n) = true.
Proof.
  intros Hc. unfold pretty, pretty_N. case_decide.
  { change (negb (Ascii.eqb (pretty_N_char 0) c) && true = true). by rewrite Hc. }
  assert (forall s, no_char c s = true -> no_char c (pretty_N_go n s) = true) as Hgo; [|by apply Hgo].
  clear -Hc. induction (N.lt_wf_0 n) as [x _ IH]. intros s Hs.
  destruct (decide (0 < x)%N) as [Hx|Hx].
  - rewrite pretty_N_go_step by done. apply IH; [apply N.div_lt; lia|]. cbn. by rewrite Hs, Hc.
  - assert (x = 0%N) as -> by lia. by rewrite pretty_N_go_0.
Qed.

Lemma no_char_pretty_Z c (z : Z) :
  (forall d, Ascii.eqb (pretty_N_char d) c = false) -> Ascii.eqb "-"%char c = false ->
  no_char c (pretty z) = true.
Proof.
  intros Hc Hd. destruct z as [|p|p].
  - apply (no_char_pretty_N c 0%N Hc).
  - apply (no_char_pretty_N c (N.pos p) Hc).
  - change (pretty (Z.neg p)) with (String "-"%char (pretty (N.pos p))). cbn [no_char].
    by rewrite Hd, no_char_pretty_N.
Qed.
