(* ===== verification/Ints.v ===== *)
(** * Ints: the machine integers

    Values are in [Z]; an operation that leaves the range of its type panics in a
    build with debug assertions and wraps in a release build; a cast ([as]) always
    wraps. *)

From S2P Require Import Prelude.

Local Open Scope Z_scope.

(** [fits_s w], [fits_u w]: the ranges of the signed and unsigned [w]-bit integers. *)
Definition fits_s (w z : Z) : bool := (- 2 ^ (w - 1) <=? z) && (z <? 2 ^ (w - 1)).
Definition fits_u (w z : Z) : bool := (0 <=? z) && (z <? 2 ^ w).

(** [as iW] and [as uW] *)
Definition as_s (w z : Z) : Z := (z + 2 ^ (w - 1)) mod 2 ^ w - 2 ^ (w - 1).
Definition as_u (w z : Z) : Z := z mod 2 ^ w.

(** The result of an arithmetic operation at a type. *)
Definition arith_s (debug : bool) (w z : Z) : outcome Z :=
  if fits_s w z then Done z else if debug then Panic else Done (as_s w z).
Definition arith_u (debug : bool) (w z : Z) : outcome Z :=
  if fits_u w z then Done z else if debug then Panic else Done (as_u w z).

Lemma arith_s_fits debug w z :
  - 2 ^ (w - 1) <= z < 2 ^ (w - 1) -> arith_s debug w z = Done z.
Proof.
  intros H. unfold arith_s, fits_s.
  destruct (Z.leb_spec (- 2 ^ (w - 1)) z), (Z.ltb_spec z (2 ^ (w - 1))); (done || lia).
Qed.

Lemma arith_u_fits debug w z : 0 <= z < 2 ^ w -> arith_u debug w z = Done z.
Proof.
  intros H. unfold arith_u, fits_u.
  destruct (Z.leb_spec 0 z), (Z.ltb_spec z (2 ^ w)); (done || lia).
Qed.

Lemma as_s_fits w z : 0 < w -> - 2 ^ (w - 1) <= z < 2 ^ (w - 1) -> as_s w z = z.
Proof.
  intros Hw H. unfold as_s.
  assert (2 ^ w = 2 * 2 ^ (w - 1)) as Hp.
  { rewrite <- Z.pow_succ_r by lia. f_equal. lia. }
  rewrite Z.mod_small by lia. lia.
Qed.

Lemma as_u_fits w z : 0 <= z < 2 ^ w -> as_u w z = z.
Proof. intros H. by apply Z.mod_small. Qed.

(** Discharges the range checks of a computation whose bounds [lia] finds. *)
Ltac int_step :=
  first
    [ rewrite arith_s_fits by (cbn; lia)
    | rewrite arith_u_fits by (cbn; lia)
    | rewrite as_s_fits by (cbn; lia)
    | rewrite as_u_fits by (cbn; lia) ].
