(* ===== verification/DateTime.v ===== *)
(** * DateTime: [tracing-subscriber/src/fmt/time/datetime.rs]

    The conversion of a [SystemTime] into a date and a time of day, at the machine's
    integer widths, against the proleptic Gregorian calendar. *)

From S2P Require Import Prelude.
From S2P Require Import Str.
From S2P Require Import Ints.
From stdpp Require Import pretty.

Local Open Scope Z_scope.

(** [SystemTime]: seconds (an [i64]) and nanoseconds since the epoch. *)
Record SystemTime := { tv_sec : Z; tv_nsec : Z }.
Definition valid_time (t : SystemTime) : Prop :=
  - 2 ^ 63 <= tv_sec t < 2 ^ 63 /\ 0 <= tv_nsec t < 1000000000.

(** [Duration] *)
Record Duration := { as_secs : Z; subsec_nanos : Z }.

(** [SystemTime::duration_since(UNIX_EPOCH)]: the error holds the distance. *)
Definition duration_since_epoch (t : SystemTime) : result Duration Duration :=
  if 0 <=? tv_sec t then Ok {| as_secs := tv_sec t; subsec_nanos := tv_nsec t |}
  else if tv_nsec t =? 0 then Err {| as_secs := - tv_sec t; subsec_nanos := 0 |}
  else Err {| as_secs := - tv_sec t - 1; subsec_nanos := 1000000000 - tv_nsec t |}.

(** [struct DateTime] *)
Record DateTime := {
  year : Z; month : Z; day : Z; hour : Z; minute : Z; second : Z; nanos : Z;
}.

Section convert.
Variable debug : bool.

#[local] Abbreviation i64 := (arith_s debug 64).
#[local] Abbreviation i32 := (arith_s debug 32).

(** The seconds since the epoch, rounded down, and the nanoseconds above them. *)
Definition split_timestamp (timestamp : SystemTime) : outcome (Z * Z) :=
  match duration_since_epoch timestamp with
  | Ok duration =>
      _ ← (if debug then assert (as_secs duration <=? 2 ^ 63 - 1) else Done tt);
      Done (as_s 64 (as_secs duration), subsec_nanos duration)
  | Err duration =>
      _ ← (if debug then assert (as_secs duration <=? 2 ^ 63 - 1) else Done tt);
      let secs := as_s 64 (as_secs duration) in
      let nanos := subsec_nanos duration in
      if nanos =? 0 then neg ← i64 (- secs); Done (neg, 0)
      else neg ← i64 (- secs); neg ← i64 (neg - 1); Done (neg, 1000000000 - nanos)
  end.

Definition LEAPOCH : Z := 946684800 + 86400 * (31 + 29).
Definition DAYS_PER_400Y : Z := 365 * 400 + 97.
Definition DAYS_PER_100Y : Z := 365 * 100 + 24.
Definition DAYS_PER_4Y : Z := 365 * 4 + 1.
Definition DAYS_IN_MONTH : list Z := [31; 30; 31; 30; 31; 31; 30; 31; 30; 31; 31; 29].

(** The loop over the months; an index past the array panics. *)
Fixpoint month_loop (days_in_month : list Z) (months remdays : Z) : outcome (Z * Z) :=
  match days_in_month with
  | [] => Panic
  | d :: days_in_month =>
      if d <=? remdays then
        remdays ← i32 (remdays - d);
        months ← i32 (months + 1);
        month_loop days_in_month months remdays
      else Done (months, remdays)
  end.

(** The cycles of 100, 4 and 1 years in the days of a cycle of 400 years. *)
Definition cycles (remdays : Z) : outcome (Z * Z * Z * Z) :=
  c_cycles ← i32 (Z.quot remdays DAYS_PER_100Y);
  c_cycles ← (if c_cycles =? 4 then i32 (c_cycles - 1) else Done c_cycles);
  p ← i32 (c_cycles * DAYS_PER_100Y);
  remdays ← i32 (remdays - p);
  q_cycles ← i32 (Z.quot remdays DAYS_PER_4Y);
  q_cycles ← (if q_cycles =? 25 then i32 (q_cycles - 1) else Done q_cycles);
  p ← i32 (q_cycles * DAYS_PER_4Y);
  remdays ← i32 (remdays - p);
  remyears ← i32 (Z.quot remdays 365);
  remyears ← (if remyears =? 4 then i32 (remyears - 1) else Done remyears);
  p ← i32 (remyears * 365);
  remdays ← i32 (remdays - p);
  Done (c_cycles, q_cycles, remyears, remdays).

(** [impl From<SystemTime> for DateTime] *)
Definition from (timestamp : SystemTime) : outcome DateTime :=
  '(t, nanos) ← split_timestamp timestamp;
  days ← i64 (Z.quot t 86400 - Z.quot LEAPOCH 86400);
  let remsecs := as_s 32 (Z.rem t 86400) in
  '(remsecs, days) ← (if remsecs <? 0 then
                        remsecs ← i32 (remsecs + 86400);
                        days ← i64 (days - 1);
                        Done (remsecs, days)
                      else Done (remsecs, days));
  let qc_cycles := as_s 32 (Z.quot days DAYS_PER_400Y) in
  let remdays := as_s 32 (Z.rem days DAYS_PER_400Y) in
  '(remdays, qc_cycles) ← (if remdays <? 0 then
                             remdays ← i32 (remdays + DAYS_PER_400Y);
                             qc_cycles ← i32 (qc_cycles - 1);
                             Done (remdays, qc_cycles)
                           else Done (remdays, qc_cycles));
  '(c_cycles, q_cycles, remyears, remdays) ← cycles remdays;
  p4 ← i64 (4 * q_cycles);
  years ← i64 (remyears + p4);
  p100 ← i64 (100 * c_cycles);
  years ← i64 (years + p100);
  p400 ← i64 (400 * qc_cycles);
  years ← i64 (years + p400);
  '(months, remdays) ← month_loop DAYS_IN_MONTH 0 remdays;
  '(months, years) ← (if 10 <=? months then
                        months ← i32 (months - 12);
                        years ← i64 (years + 1);
                        Done (months, years)
                      else Done (months, years));
  year ← i64 (years + 2000);
  month ← i32 (months + 3);
  day ← i32 (remdays + 1);
  Done {| year := year; month := as_u 8 month; day := as_u 8 day;
          hour := as_u 8 (Z.quot remsecs 3600);
          minute := as_u 8 (Z.rem (Z.quot remsecs 60) 60);
          second := as_u 8 (Z.rem remsecs 60);
          nanos := nanos |}.

End convert.

(** ** Printing *)

Definition show (n : Z) : string := pretty (Z.to_N n).

(** [{:0w}]: the sign counts towards the width. *)
Definition zeros (n : nat) : string := String.concat "" (repeat "0"%string n).
Definition pad (w : nat) (n : Z) : string :=
  if n <? 0 then "-" +:+ zeros (w - 1 - str_len (show (- n))) +:+ show (- n)
  else zeros (w - str_len (show n)) +:+ show n.

(** [impl Display for DateTime] *)
Definition fmt (self : DateTime) : string :=
  (if 9999 <? year self then "+" +:+ pad 0 (year self)
   else if year self <? 0 then pad 5 (year self)
   else pad 4 (year self)) +:+
  "-" +:+ pad 2 (month self) +:+ "-" +:+ pad 2 (day self) +:+ "T" +:+ pad 2 (hour self) +:+
  ":" +:+ pad 2 (minute self) +:+ ":" +:+ pad 2 (second self) +:+
  "." +:+ pad 6 (Z.quot (nanos self) 1000) +:+ "Z".

(** The cases of the source's own test. *)
Definition printed (secs micros : Z) : outcome string :=
  fmt <$> from true {| tv_sec := secs; tv_nsec := micros * 1000 |}.

Example prints_epoch : printed 0 1 = Done "1970-01-01T00:00:00.000001Z".
Proof. reflexivity. Qed.
Example prints_before_epoch : printed (-61) 1 = Done "1969-12-31T23:58:59.000001Z".
Proof. reflexivity. Qed.
Example prints_max : printed (2 ^ 63 - 1) 0 = Done "+292277026596-12-04T15:30:07.000000Z".
Proof. reflexivity. Qed.
Example prints_min : printed (- 2 ^ 63 + 1) 0 = Done "-292277022657-01-27T08:29:53.000000Z".
Proof. reflexivity. Qed.
Example prints_year_zero : printed (-62167219200) 0 = Done "0000-01-01T00:00:00.000000Z".
Proof. reflexivity. Qed.
Example prints_negative_year : printed (-62167219201) 0 = Done "-0001-12-31T23:59:59.000000Z".
Proof. reflexivity. Qed.

(** ** The calendar

    The proleptic Gregorian calendar: month lengths, leap years and the day after a
    date. *)

Definition leap (y : Z) : bool :=
  (y mod 4 =? 0) && (negb (y mod 100 =? 0) || (y mod 400 =? 0)).

Definition month_days (y m : Z) : Z :=
  if m =? 2 then (if leap y then 29 else 28)
  else if (m =? 4) || (m =? 6) || (m =? 9) || (m =? 11) then 30 else 31.

Definition date := (Z * Z * Z)%type.

Definition valid_date (x : date) : Prop :=
  let '(y, m, d) := x in 1 <= m <= 12 /\ 1 <= d <= month_days y m.

Definition next_date (x : date) : date :=
  let '(y, m, d) := x in
  if d <? month_days y m then (y, m, d + 1)
  else if m <? 12 then (y, m + 1, 1) else (y + 1, 1, 1).

Definition EPOCH : date := (1970, 1, 1).

(** [x] is the date [n] days after the epoch (before it, for a negative [n]). *)
Definition days_after_epoch (n : Z) (x : date) : Prop :=
  valid_date x /\
  (if 0 <=? n then x = Nat.iter (Z.to_nat n) next_date EPOCH
   else Nat.iter (Z.to_nat (- n)) next_date x = EPOCH).

(** *** Day numbers

    The days since 2000-03-01, in years that begin in March. *)

Definition march_year (y m : Z) : Z := if m <? 3 then y - 2001 else y - 2000.
Definition march_month (m : Z) : Z := if m <? 3 then m + 9 else m - 3.
Definition year_start (y : Z) : Z := 365 * y + y / 4 - y / 100 + y / 400.
Definition month_start (m : Z) : Z := (153 * m + 2) / 5.
Definition day_number (x : date) : Z :=
  let '(y, m, d) := x in
  year_start (march_year y m) + month_start (march_month m) + d - 1.

Ltac div_lia := Z.div_mod_to_equations; lia.

Lemma leap_year_start y :
  year_start (y - 2000) = year_start (y - 2001) + (if leap y then 366 else 365).
Proof.
  unfold leap, year_start.
  destruct (Z.eqb_spec (y mod 4) 0), (Z.eqb_spec (y mod 100) 0), (Z.eqb_spec (y mod 400) 0);
    cbn; div_lia.
Qed.

Lemma month_cases (m : Z) (Q : Z -> Prop) :
  1 <= m <= 12 ->
  Q 1 -> Q 2 -> Q 3 -> Q 4 -> Q 5 -> Q 6 -> Q 7 -> Q 8 -> Q 9 -> Q 10 -> Q 11 -> Q 12 -> Q m.
Proof.
  intros Hm. intros.
  assert (m = 1 \/ m = 2 \/ m = 3 \/ m = 4 \/ m = 5 \/ m = 6 \/ m = 7 \/ m = 8 \/ m = 9 \/
          m = 10 \/ m = 11 \/ m = 12) as Hc by lia.
  destruct_or! Hc; by subst.
Qed.

Lemma next_date_valid x : valid_date x -> valid_date (next_date x).
Proof.
  destruct x as [[y m] d]. intros [Hm Hd]. unfold next_date.
  destruct (Z.ltb_spec d (month_days y m)); [split; lia|].
  assert (forall y m, 1 <= month_days y m) as H1.
  { intros y' m'. unfold month_days. repeat case_match; lia. }
  destruct (Z.ltb_spec m 12); (split; [lia|]); split; try lia; apply H1.
Qed.

Lemma next_date_number x : valid_date x -> day_number (next_date x) = day_number x + 1.
Proof.
  destruct x as [[y m] d]. intros [Hm Hd]. unfold next_date.
  destruct (Z.ltb_spec d (month_days y m)); [cbn; lia|].
  assert (d = month_days y m) as -> by lia. clear Hd H.
  pose proof (leap_year_start y) as Hleap.
  assert (year_start (y + 1 - 2001) = year_start (y - 2000)) as Hy by (f_equal; lia).
  pattern m. apply month_cases; [done|..]; cbn -[year_start march_year march_month];
    unfold march_year, march_month, month_start;
    repeat match goal with |- context [?a <? ?b] => destruct (Z.ltb_spec a b); [|] end;
    try lia; destruct (leap y); rewrite ?Hy, ?Hleap; div_lia.
Qed.

(** A day number determines the date: the years, and within a year the months, have
    disjoint ranges. *)
Lemma month_range y m d :
  valid_date (y, m, d) ->
  0 <= march_month m <= 11 /\ 1 <= d /\
  (march_month m < 11 -> month_start (march_month m) + d <= month_start (march_month m + 1)) /\
  (march_month m = 11 -> d <= 28 \/ d = 29 /\ leap y = true).
Proof.
  intros [Hm Hd]. revert Hd. unfold month_start, march_month.
  pattern m. apply month_cases; [done|..]; cbn; intros Hd.
  all: split_and!; [lia..|lia|div_lia|].
  all: destruct (leap y); lia || (intros; first [by left; lia | right; split; [lia|done]]).
Qed.

Lemma year_range y m d :
  valid_date (y, m, d) ->
  0 <= month_start (march_month m) + d - 1 <
    year_start (march_year y m + 1) - year_start (march_year y m).
Proof.
  intros Hv. destruct (month_range _ _ _ Hv) as (Hm & Hd & Hlt & H11).
  assert (0 <= month_start (march_month m)) by (unfold month_start; div_lia).
  split; [lia|]. destruct (decide (march_month m = 11)) as [E11|].
  - assert (m = 2) as ->. { unfold march_month in E11. destruct (Z.ltb_spec m 3); destruct Hv; lia. }
    destruct Hv as [_ Hd2]. cbn in Hd2. pose proof (leap_year_start y) as Hl.
    change (month_start (march_month 2)) with 337. change (march_year y 2) with (y - 2001).
    replace (y - 2001 + 1) with (y - 2000) by lia. destruct (leap y); lia.
  - assert (month_start (march_month m + 1) <= 337) by (unfold month_start; div_lia).
    assert (365 <= year_start (march_year y m + 1) - year_start (march_year y m)).
    { unfold year_start. div_lia. }
    lia.
Qed.

Lemma year_start_mono a b : a <= b -> year_start a <= year_start b.
Proof. unfold year_start. intros. div_lia. Qed.

Lemma day_number_inj x x' :
  valid_date x -> valid_date x' -> day_number x = day_number x' -> x = x'.
Proof.
  destruct x as [[y m] d], x' as [[y' m'] d']. intros Hv Hv' Heq. cbn in Heq.
  pose proof (year_range _ _ _ Hv). pose proof (year_range _ _ _ Hv').
  destruct (month_range _ _ _ Hv) as (Hm & Hd & Hlt & _).
  destruct (month_range _ _ _ Hv') as (Hm' & Hd' & Hlt' & _).
  assert (march_year y m = march_year y' m') as Hy.
  { destruct (Z.lt_trichotomy (march_year y m) (march_year y' m')) as [Hc|[Hc|Hc]]; [|done|].
    - pose proof (year_start_mono (march_year y m + 1) (march_year y' m') ltac:(lia)). lia.
    - pose proof (year_start_mono (march_year y' m' + 1) (march_year y m) ltac:(lia)). lia. }
  rewrite Hy in Heq.
  assert (forall a b, a <= b -> month_start a <= month_start b) as Hmono.
  { unfold month_start. intros. div_lia. }
  assert (march_month m = march_month m') as Hmm.
  { destruct (Z.lt_trichotomy (march_month m) (march_month m')) as [Hc|[Hc|Hc]]; [|done|].
    - pose proof (Hmono (march_month m + 1) (march_month m') ltac:(lia)). lia.
    - pose proof (Hmono (march_month m' + 1) (march_month m) ltac:(lia)). lia. }
  rewrite Hmm in Heq. destruct Hv as [Hv _], Hv' as [Hv' _].
  unfold march_year, march_month in Hy, Hmm. 
  destruct (Z.ltb_spec m 3), (Z.ltb_spec m' 3); assert (m = m') as <- by lia;
    assert (d = d') as <- by lia; (by assert (y = y') as <- by lia) || lia.
Qed.

Lemma iter_next_date n x :
  valid_date x ->
  valid_date (Nat.iter n next_date x) /\
  day_number (Nat.iter n next_date x) = day_number x + Z.of_nat n.
Proof.
  intros Hx. induction n as [|n [IH1 IH2]]; [split; [done|cbn; lia]|].
  change (Nat.iter (S n) next_date x) with (next_date (Nat.iter n next_date x)).
  split; [by apply next_date_valid|]. rewrite next_date_number by done. lia.
Qed.

Lemma days_after_epoch_iff n x :
  days_after_epoch n x <-> valid_date x /\ day_number x = day_number EPOCH + n.
Proof.
  assert (valid_date EPOCH) as He by (cbn; lia). unfold days_after_epoch.
  destruct (Z.leb_spec 0 n) as [Hn|Hn].
  - destruct (iter_next_date (Z.to_nat n) EPOCH He) as [Hv Hd].
    split; intros [Hx Hi]; (split; [done|]); [subst; lia|]. apply day_number_inj; [done|done|lia].
  - split; intros [Hx Hi]; (split; [done|]); destruct (iter_next_date (Z.to_nat (- n)) x Hx) as [Hv Hd].
    + rewrite Hi in Hd. lia.
    + apply day_number_inj; [done|done|lia].
Qed.

(** ** Correctness of the conversion *)

Lemma split_timestamp_spec debug t :
  valid_time t ->
  split_timestamp debug t =
    if debug && (tv_sec t =? - 2 ^ 63) && (tv_nsec t =? 0) then Panic
    else Done (tv_sec t, tv_nsec t).
Proof.
  destruct t as [s n]. intros [Hs Hn]. cbn [tv_sec tv_nsec] in *.
  unfold split_timestamp, duration_since_epoch. cbn [tv_sec tv_nsec].
  destruct (Z.leb_spec 0 s) as [H0|H0].
  { cbn [as_secs subsec_nanos]. rewrite as_s_fits by (cbn; lia).
    destruct (Z.eqb_spec s (- 2 ^ 63)); [lia|]. rewrite andb_false_r. cbn [andb].
    destruct debug; [|done]. destruct (Z.leb_spec s (2 ^ 63 - 1)); [done|lia]. }
  destruct (Z.eqb_spec n 0) as [->|Hn0]; cbn [as_secs subsec_nanos].
  - destruct (Z.eqb_spec s (- 2 ^ 63)) as [->|Hmin].
    + by destruct debug.
    + rewrite andb_false_r. cbn [andb]. rewrite (as_s_fits 64) by (cbn; lia).
      destruct debug; [|cbn; by rewrite arith_s_fits, Z.opp_involutive by (cbn; lia)].
      destruct (Z.leb_spec (- s) (2 ^ 63 - 1)); [|lia]. cbn.
      by rewrite arith_s_fits, Z.opp_involutive by (cbn; lia).
  - rewrite andb_false_r. rewrite (as_s_fits 64) by (cbn; lia).
    assert ((if debug then assert (- s - 1 <=? 2 ^ 63 - 1) else Done ()) = Done ()) as ->.
    { destruct debug; [|done]. destruct (Z.leb_spec (- s - 1) (2 ^ 63 - 1)); [done|lia]. }
    cbn. destruct (Z.eqb_spec (1000000000 - n) 0); [lia|].
    rewrite arith_s_fits by (cbn; lia). cbn. rewrite arith_s_fits by (cbn; lia).
    cbn. do 2 f_equal; lia.
Qed.

(** The adjustment that makes a truncating division a flooring one. *)
Lemma floor_step debug w a b c :
  0 < b < 2 ^ 31 -> - 2 ^ (w - 1) <= a / b - c < 2 ^ (w - 1) -> Z.quot a b - c < 2 ^ (w - 1) ->
  (if as_s 32 (Z.rem a b) <? 0 then
     r ← arith_s debug 32 (as_s 32 (Z.rem a b) + b);
     q ← arith_s debug w (Z.quot a b - c - 1);
     Done (r, q)
   else Done (as_s 32 (Z.rem a b), Z.quot a b - c)) = Done (a mod b, a / b - c).
Proof.
  intros Hb Hr Hq.
  assert (Z.abs (Z.rem a b) < b) by (pose proof (Z.rem_bound_abs a b); lia).
  rewrite as_s_fits by (cbn; lia). pose proof (Z.quot_rem' a b) as Hd.
  destruct (Z.ltb_spec (Z.rem a b) 0) as [Hneg|Hpos].
  - assert (a / b = Z.quot a b - 1 /\ a mod b = Z.rem a b + b) as [Eq Er].
    { split; symmetry; [apply Z.div_unique with (r := Z.rem a b + b)
                       |apply Z.mod_unique with (q := Z.quot a b - 1)]; lia. }
    rewrite arith_s_fits by (cbn; lia). cbn. rewrite arith_s_fits by lia. cbn.
    do 2 f_equal; lia.
  - assert (a / b = Z.quot a b /\ a mod b = Z.rem a b) as [Eq Er].
    { split; symmetry; [apply Z.div_unique with (r := Z.rem a b)
                       |apply Z.mod_unique with (q := Z.quot a b)]; lia. }
    do 2 f_equal; lia.
Qed.

(** A quotient capped at [n]: the last period may be one day longer than the others. *)
Lemma capped_quotient debug r b n :
  0 < b -> 0 < n < 2 ^ 31 - 1 -> 0 <= r <= n * b -> b < 2 ^ 31 ->
  exists c q, arith_s debug 32 (Z.quot r b) = Done c /\
    (if c =? n then arith_s debug 32 (c - 1) else Done c) = Done q /\
    0 <= q < n /\ 0 <= r - q * b /\ (r - q * b < b \/ q = n - 1 /\ r = n * b).
Proof.
  intros Hb Hn Hr Hb'.
  assert (Z.quot r b = r / b) as -> by (apply Z.quot_div_nonneg; lia).
  assert (0 <= r / b <= n) by (split; [apply Z.div_pos; lia|apply Z.div_le_upper_bound; lia]).
  pose proof (Z.div_mod r b ltac:(lia)). pose proof (Z.mod_pos_bound r b Hb).
  rewrite arith_s_fits by (cbn; lia). exists (r / b).
  destruct (Z.eqb_spec (r / b) n) as [Heq|Hne].
  - rewrite arith_s_fits by (cbn; lia). exists (r / b - 1). split; [done|]. split; [done|]. nia.
  - exists (r / b). do 2 (split; [done|]). split; [lia|]. nia.
Qed.

Ltac month_step :=
  match goal with
  | |- context [month_loop ?db (?d :: ?l) ?m ?r] =>
      change (month_loop db (d :: l) m r) with
        (if d <=? r then r1 ← arith_s db 32 (r - d); m1 ← arith_s db 32 (m + 1); month_loop db l m1 r1
         else Done (m, r));
      destruct (Z.leb_spec d r);
      [cbn [mbind outcome_bind]; rewrite !arith_s_fits by (cbn; lia); cbn [mbind outcome_bind];
       rewrite ?arith_s_fits by (cbn; lia); cbn [mbind outcome_bind]; try lia
      |exists m; split; [do 2 f_equal; div_lia|]; split_and!; div_lia]
  end.

Lemma month_loop_spec debug r :
  0 <= r < 366 ->
  exists m, month_loop debug DAYS_IN_MONTH 0 r = Done (m, r - month_start m) /\
    0 <= m <= 11 /\ 0 <= r - month_start m /\
    (m < 11 -> r < month_start (m + 1)) /\ (m = 11 -> r - month_start m < 29).
Proof. intros Hr. unfold DAYS_IN_MONTH, month_start. do 12 month_step. Qed.

Lemma year_start_cycles qc c q y :
  0 <= c <= 3 -> 0 <= q <= 24 -> 0 <= y <= 3 ->
  year_start (y + 4 * q + 100 * c + 400 * qc) = 146097 * qc + 36524 * c + 1461 * q + 365 * y.
Proof.
  intros. unfold year_start.
  assert ((y + 4 * q + 100 * c + 400 * qc) / 4 = q + 25 * c + 100 * qc) as -> by div_lia.
  assert ((y + 4 * q + 100 * c + 400 * qc) / 100 = c + 4 * qc) as -> by div_lia.
  assert ((y + 4 * q + 100 * c + 400 * qc) / 400 = qc) as -> by div_lia. lia.
Qed.

(** The date of a day number: the cycles of 400, 100, 4 and 1 years. *)
Lemma date_of_cycles qc c q y m r :
  0 <= c <= 3 -> 0 <= q <= 24 -> 0 <= y <= 3 -> 0 <= m <= 11 -> 0 <= r - month_start m ->
  (m < 11 -> r < month_start (m + 1)) -> (m = 11 -> r - month_start m < 29) ->
  (r < 365 \/ r = 365 /\ y = 3 /\ (q < 24 \/ c = 3)) ->
  let years := y + 4 * q + 100 * c + 400 * qc in
  let x := (if 10 <=? m then years + 2001 else years + 2000,
            if 10 <=? m then m - 9 else m + 3, r - month_start m + 1) in
  valid_date x /\ day_number x = 146097 * qc + 36524 * c + 1461 * q + 365 * y + r.
Proof.
  intros Hc Hq Hy Hm Hr Hlt H11 Hleap years x.
  pose proof (year_start_cycles qc c q y Hc Hq Hy) as Hys. fold years in Hys.
  split.
  - unfold x. destruct (Z.leb_spec 10 m) as [H10|H10].
    + split; [lia|]. split; [lia|]. unfold month_days.
      destruct (Z.eqb_spec (m - 9) 2) as [E2|E2].
      2:{ assert (m = 10) as -> by lia. change (10 - 9) with 1. cbn. change (month_start (10 + 1)) with 337 in Hlt.
          change (month_start 10) with 306. lia. }
      assert (m = 11) as -> by lia. change (month_start 11) with 337 in *.
      assert (leap (years + 2001) = true \/ r < 365) as [Hl|Hl].
      { destruct Hleap as [|(-> & -> & Hqc)]; [by right|]. left. unfold leap, years.
        destruct (Z.eqb_spec ((3 + 4 * q + 100 * c + 400 * qc + 2001) mod 4) 0); [|div_lia].
        destruct (Z.eqb_spec ((3 + 4 * q + 100 * c + 400 * qc + 2001) mod 100) 0); [|done].
        destruct (Z.eqb_spec ((3 + 4 * q + 100 * c + 400 * qc + 2001) mod 400) 0); [done|].
        exfalso. div_lia. }
      * rewrite Hl. lia.
      * destruct (leap _); lia.
    + split; [lia|]. split; [lia|]. specialize (Hlt ltac:(lia)).
      assert (m = 0 \/ m = 1 \/ m = 2 \/ m = 3 \/ m = 4 \/ m = 5 \/ m = 6 \/ m = 7 \/ m = 8 \/ m = 9)
        as Hms by lia.
      unfold month_start, month_days in *. destruct_or! Hms; subst m;
        repeat match goal with |- context [?a =? ?b] => destruct (Z.eqb_spec a b); try lia end;
        cbn [orb]; div_lia.
  - unfold x, day_number, march_year, march_month.
    destruct (Z.leb_spec 10 m) as [H10|H10].
    + destruct (Z.ltb_spec (m - 9) 3); [|lia].
      replace (years + 2001 - 2001) with years by lia. replace (m - 9 + 9) with m by lia. lia.
    + destruct (Z.ltb_spec (m + 3) 3); [lia|].
      replace (years + 2000 - 2000) with years by lia. replace (m + 3 - 3) with m by lia. lia.
Qed.

Ltac range :=
  change (2 ^ (64 - 1)) with 9223372036854775808; change (2 ^ (32 - 1)) with 2147483648; lia.

(** Runs the first operation of a computation. *)
Ltac arith_head :=
  match goal with
  | |- context [arith_s ?d ?w ?z ≫= _] =>
      rewrite (arith_s_fits d w z) by range; cbn [mbind outcome_bind]
  end.

Lemma cycles_spec debug r :
  0 <= r < 146097 ->
  exists c q y r', cycles debug r = Done (c, q, y, r') /\
    0 <= c <= 3 /\ 0 <= q <= 24 /\ 0 <= y <= 3 /\ 0 <= r' < 366 /\
    r = 36524 * c + 1461 * q + 365 * y + r' /\
    (r' < 365 \/ r' = 365 /\ y = 3 /\ (q < 24 \/ c = 3)).
Proof.
  intros Hr. unfold cycles, DAYS_PER_100Y, DAYS_PER_4Y.
  destruct (capped_quotient debug r (365 * 100 + 24) 4) as (c' & c & Hc & Hc' & Hc1 & Hc2 & Hc3);
    [lia..|].
  rewrite Hc. cbn [mbind outcome_bind]. rewrite Hc'. cbn [mbind outcome_bind]. clear c' Hc Hc'.
  do 2 arith_head.
  set (r1 := r - c * (365 * 100 + 24)) in *.
  destruct (capped_quotient debug r1 (365 * 4 + 1) 25) as (q' & q & Hq1 & Hq' & Hq2 & Hq3 & Hq5);
    [lia..|].
  rewrite Hq1. cbn [mbind outcome_bind]. rewrite Hq'. cbn [mbind outcome_bind]. clear q' Hq1 Hq'.
  do 2 arith_head.
  set (r2 := r1 - q * (365 * 4 + 1)) in *.
  destruct (capped_quotient debug r2 365 4) as (y' & y & Hy1 & Hy' & Hy2 & Hy3 & Hy5); [lia..|].
  rewrite Hy1. cbn [mbind outcome_bind]. rewrite Hy'. cbn [mbind outcome_bind]. clear y' Hy1 Hy'.
  do 2 arith_head. exists c, q, y, (r2 - y * 365). split; [done|]. lia.
Qed.

(** The time of day of the seconds of a day. *)
Lemma time_of_day r :
  0 <= r < 86400 ->
  let h := as_u 8 (Z.quot r 3600) in
  let m := as_u 8 (Z.rem (Z.quot r 60) 60) in
  let s := as_u 8 (Z.rem r 60) in
  0 <= h < 24 /\ 0 <= m < 60 /\ 0 <= s < 60 /\ 3600 * h + 60 * m + s = r.
Proof.
  intros Hr. cbn zeta.
  rewrite !as_u_fits by (change (2 ^ 8) with 256; Z.quot_rem_to_equations; lia).
  Z.quot_rem_to_equations; lia.
Qed.

(** C36: for every timestamp that [SystemTime] can represent, in debug and in release
    builds, the conversion does not overflow (except, in a debug build, for the very
    first second of the range, whose distance from the epoch is not an [i64]), and
    gives the Gregorian date that lies as many days after (or before) 1970-01-01 as the
    timestamp counts whole days, with the time of day of the remaining seconds. *)
Theorem datetime_is_gregorian (debug : bool) (t : SystemTime) (Hvalid : valid_time t) :
  if debug && (tv_sec t =? - 2 ^ 63) && (tv_nsec t =? 0) then from debug t = Panic
  else exists dt, from debug t = Done dt /\
    days_after_epoch (tv_sec t / 86400) (year dt, month dt, day dt) /\
    0 <= hour dt < 24 /\ 0 <= minute dt < 60 /\ 0 <= second dt < 60 /\
    3600 * hour dt + 60 * minute dt + second dt = tv_sec t mod 86400 /\
    nanos dt = tv_nsec t.
Proof.
  unfold from. rewrite split_timestamp_spec by done.
  destruct (debug && _ && _); [done|]. destruct Hvalid as [Hs Hn].
  cbn [mbind outcome_bind].
  remember (tv_sec t) as s eqn:Es. clear Es. 
  assert (Z.abs (Z.quot s 86400) <= 2 ^ 47) as Hqs by (Z.quot_rem_to_equations; lia).
  assert (- 2 ^ 47 <= s / 86400 <= 2 ^ 47) as Hd by div_lia.
  change (Z.quot LEAPOCH 86400) with 11017.
  arith_head.
  rewrite (floor_step debug 64 s 86400 11017) by range.
  cbn [mbind outcome_bind].
  set (days := s / 86400 - 11017).
  assert (- 2 ^ 48 <= days <= 2 ^ 48) as Hdays by lia.
  assert (Z.abs (Z.quot days DAYS_PER_400Y) < 2 ^ 31 - 1) as Hq4.
  { unfold DAYS_PER_400Y. clearbody days. Z.quot_rem_to_equations; lia. }
  assert (- (2 ^ 31 - 1) < days / DAYS_PER_400Y < 2 ^ 31 - 1) as Hd4.
  { unfold DAYS_PER_400Y. clearbody days. div_lia. }
  rewrite (as_s_fits 32 (Z.quot _ _)) by range.
  pose proof (floor_step debug 32 days DAYS_PER_400Y 0) as Hf.
  rewrite !Z.sub_0_r in Hf. rewrite Hf by (unfold DAYS_PER_400Y in *; range). clear Hf.
  cbn [mbind outcome_bind].
  set (qc := days / DAYS_PER_400Y). set (r0 := days mod DAYS_PER_400Y).
  assert (0 <= r0 < 146097 /\ days = 146097 * qc + r0) as [Hr0 Hdq].
  { unfold r0, qc, DAYS_PER_400Y. clearbody days. div_lia. }
  destruct (cycles_spec debug r0 Hr0) as (c & q & y & r3 & -> & Hc & Hq' & Hy & Hr3 & Hsum & Hleap).
  cbn [mbind outcome_bind]. do 6 arith_head.

  destruct (month_loop_spec debug r3) as (m & -> & Hm & Hm1 & Hm2 & Hm3); [lia|].
  cbn [mbind outcome_bind].
  destruct (date_of_cycles qc c q y m r3) as [Hv Hnum]; try lia.
  assert (1 <= r3 - month_start m + 1 <= 31) as Hday.
  { destruct Hv as [_ Hv]. unfold month_days in Hv. repeat case_match; lia. }
  assert ((if 10 <=? m then
             months0 ← arith_s debug 32 (m - 12);
             years ← arith_s debug 64 (y + 4 * q + 100 * c + 400 * qc + 1);
             Done (months0, years)
           else Done (m, y + 4 * q + 100 * c + 400 * qc)) =
          Done (if 10 <=? m then m - 12 else m,
                if 10 <=? m then y + 4 * q + 100 * c + 400 * qc + 1
                else y + 4 * q + 100 * c + 400 * qc)) as ->.
  { destruct (Z.leb_spec 10 m); [|done]. by do 2 arith_head. }
  cbn [mbind outcome_bind].
  destruct (Z.leb_spec 10 m); do 3 arith_head; eexists; (split; [reflexivity|]);
    cbn [year month day hour minute second nanos];
    rewrite !(as_u_fits 8 (_ + _)) by (change (2 ^ 8) with 256; lia);
    destruct (time_of_day (s mod 86400)) as (? & ? & ? & ?);
    [div_lia|split; [|done]|div_lia|split; [|done]]; apply days_after_epoch_iff;
    change (day_number EPOCH) with (-11017).
  - replace (m - 12 + 3) with (m - 9) by lia.
    replace (y + 4 * q + 100 * c + 400 * qc + 1 + 2000) with (y + 4 * q + 100 * c + 400 * qc + 2001) by lia.
    split; [done|]. rewrite Hnum. lia.
  - split; [done|]. rewrite Hnum. lia.
Qed.

(** A leap day, in a debug build. *)
Definition leap_day : SystemTime := {| tv_sec := 951827696; tv_nsec := 5 |}.

Lemma datetime_is_gregorian_witness :
  valid_time leap_day /\
  from true leap_day =
    Done {| year := 2000; month := 2; day := 29; hour := 12; minute := 34; second := 56;
            nanos := 5 |} /\
  days_after_epoch 11016 (2000, 2, 29).
Proof.
  assert (valid_time leap_day) as Hv by (unfold valid_time, leap_day; cbn [tv_sec tv_nsec]; lia).
  destruct (datetime_is_gregorian true leap_day Hv) as (dt & Hdt & Hdays & _).
  split; [done|]. split; [reflexivity|].
  assert (Done dt = from true leap_day) as Heq by done. vm_compute in Heq.
  injection Heq as ->. exact Hdays.
Defined.
