(* ===== verification/Rotation.v ===== *)
(** * Rotation: the periods of [tracing-appender/src/rolling.rs]

    [Rotation], its rounding of dates and the next date at which a log file is rolled
    over.  The [time] crate is the class [TimeCrate], with what the code relies on in
    [TimeLaws]; dates are in UTC, as [OffsetDateTime::now_utc] gives them. *)

From S2P Require Import Prelude.
From S2P Require Import Str.
From S2P Require Import Ints.
From S2P Require Import DateTime.

Local Open Scope Z_scope.

(** ** The [time] crate *)

Class TimeCrate := {
  OffsetDateTime : Type;
  Time : Type;
  FormatItems : Type;
  unix_timestamp : OffsetDateTime -> Z;
  (** [date + Duration], [date - Duration], in seconds: panics out of range *)
  add_seconds : OffsetDateTime -> Z -> option OffsetDateTime;
  dt_hour : OffsetDateTime -> Z;
  dt_minute : OffsetDateTime -> Z;
  (** [date.weekday().number_days_from_sunday()] *)
  days_from_sunday : OffsetDateTime -> Z;
  from_hms : Z -> Z -> Z -> option Time;
  replace_time : OffsetDateTime -> Time -> OffsetDateTime;
  (** [format_description::parse] and [OffsetDateTime::format] *)
  format_parse : string -> option FormatItems;
  format : OffsetDateTime -> FormatItems -> option string;
  (** [Date::parse] (at midnight) and [PrimitiveDateTime::parse], as [SystemTime]s *)
  date_parse : string -> FormatItems -> option Z;
  datetime_parse : string -> FormatItems -> option Z;
}.

(** The range of the crate: the years -9999 to 9999. *)
Definition MIN_TIMESTAMP : Z := -377705116800.
Definition MAX_TIMESTAMP : Z := 253402300799.

Definition date_descriptions : list string :=
  ["[year]-[month]-[day]-[hour]-[minute]"; "[year]-[month]-[day]-[hour]"; "[year]-[month]-[day]"].

Class TimeLaws (T : TimeCrate) := {
  add_seconds_ok d s :
    MIN_TIMESTAMP <= unix_timestamp d + s <= MAX_TIMESTAMP ->
    exists d', add_seconds d s = Some d' /\ unix_timestamp d' = unix_timestamp d + s;
  dt_hour_ok d : dt_hour d = (unix_timestamp d / 3600) mod 24;
  dt_minute_ok d : dt_minute d = (unix_timestamp d / 60) mod 60;
  (** the epoch is a Thursday *)
  days_from_sunday_ok d : days_from_sunday d = (unix_timestamp d / 86400 + 4) mod 7;
  replace_time_ok d h m s :
    0 <= h < 24 -> 0 <= m < 60 -> 0 <= s < 60 ->
    exists t, from_hms h m s = Some t /\
      unix_timestamp (replace_time d t) =
        86400 * (unix_timestamp d / 86400) + 3600 * h + 60 * m + s;
  (** The formats of the appender are valid, and have no component below a second. *)
  format_ok items :
    items ∈ date_descriptions ->
    exists f, format_parse items = Some f /\
      (forall d, is_Some (format d f)) /\
      (forall d d', unix_timestamp d = unix_timestamp d' -> format d f = format d' f);
}.

(** ** [struct Rotation], [enum RotationKind] *)

Inductive RotationKind := Minutely | Hourly | Daily | Weekly | Never.

#[export] Instance RotationKind_eq_dec : EqDecision RotationKind.
Proof. solve_decision. Defined.

Section rotation.
Context `{T : TimeCrate}.

(** [Rotation::round_date]; the [expect]s and the [unreachable!] panic. *)
Definition round_date (self : RotationKind) (date : OffsetDateTime) : outcome OffsetDateTime :=
  match self with
  | Minutely =>
      time ← expect (from_hms (dt_hour date) (dt_minute date) 0);
      Done (replace_time date time)
  | Hourly =>
      time ← expect (from_hms (dt_hour date) 0 0);
      Done (replace_time date time)
  | Daily =>
      time ← expect (from_hms 0 0 0);
      Done (replace_time date time)
  | Weekly =>
      zero_time ← expect (from_hms 0 0 0);
      let days_since_sunday := days_from_sunday date in
      date ← expect (add_seconds date (- (86400 * days_since_sunday)));
      Done (replace_time date zero_time)
  | Never => Panic
  end.

(** [Rotation::next_date] *)
Definition next_date (self : RotationKind) (current_date : OffsetDateTime) :
    outcome (option OffsetDateTime) :=
  match self with
  | Never => Done None
  | _ =>
      unrounded_next_date ← expect (add_seconds current_date
        (match self with
         | Minutely => 60
         | Hourly => 60 * 60
         | Daily => 24 * 60 * 60
         | _ => 7 * 24 * 60 * 60
         end));
      rounded ← round_date self unrounded_next_date;
      Done (Some rounded)
  end.

(** [Rotation::date_format] *)
Definition date_format (self : RotationKind) : outcome FormatItems :=
  expect (format_parse (match self with
    | Minutely => "[year]-[month]-[day]-[hour]-[minute]"
    | Hourly => "[year]-[month]-[day]-[hour]"
    | Daily | Weekly | Never => "[year]-[month]-[day]"
    end)).

(** ** Periods *)

(** The length of a period and the start of the period that holds the second [s];
    weeks start on Sunday, the first of them three days after the epoch. *)
Definition period (r : RotationKind) : Z :=
  match r with
  | Minutely => 60 | Hourly => 3600 | Daily => 86400 | Weekly => 604800 | Never => 0
  end.
Definition period_start (r : RotationKind) (s : Z) : Z :=
  match r with
  | Weekly => 604800 * ((s - 259200) / 604800) + 259200
  | Never => s
  | _ => period r * (s / period r)
  end.

Context `{!TimeLaws T}.

Lemma round_date_start r d :
  r <> Never -> 0 <= unix_timestamp d <= MAX_TIMESTAMP ->
  exists d', round_date r d = Done d' /\ unix_timestamp d' = period_start r (unix_timestamp d).
Proof.
  intros Hr Hd. unfold MAX_TIMESTAMP in Hd. destruct r; try done; cbn [round_date period_start period].
  - rewrite dt_hour_ok, dt_minute_ok.
    destruct (replace_time_ok d ((unix_timestamp d / 3600) mod 24) ((unix_timestamp d / 60) mod 60) 0)
      as (t & -> & Ht); [div_lia..|]. cbn. eexists; split; [done|]. rewrite Ht. div_lia.
  - rewrite dt_hour_ok.
    destruct (replace_time_ok d ((unix_timestamp d / 3600) mod 24) 0 0)
      as (t & -> & Ht); [div_lia..|]. cbn. eexists; split; [done|]. rewrite Ht. div_lia.
  - destruct (replace_time_ok d 0 0 0) as (t & -> & Ht); [lia..|]. cbn.
    eexists; split; [done|]. rewrite Ht. div_lia.
  - rewrite days_from_sunday_ok. set (n := (unix_timestamp d / 86400 + 4) mod 7).
    destruct (add_seconds_ok d (- (86400 * n))) as (d1 & Hd1 & Ht1).
    { unfold MIN_TIMESTAMP, MAX_TIMESTAMP. subst n. div_lia. }
    destruct (replace_time_ok d1 0 0 0) as (t & Ht & Ht2); [lia..|].
    rewrite Ht. cbn [expect mbind outcome_bind]. rewrite Hd1. cbn [expect mbind outcome_bind].
    eexists; split; [done|]. rewrite Ht2, Ht1. subst n. div_lia.
Qed.

Lemma next_date_start r d :
  r <> Never -> 0 <= unix_timestamp d <= MAX_TIMESTAMP - period r ->
  exists d', next_date r d = Done (Some d') /\
    unix_timestamp d' = period_start r (unix_timestamp d) + period r.
Proof.
  intros Hr Hd.
  assert (0 <= period r) by by destruct r.
  destruct (add_seconds_ok d (period r)) as (d1 & Hd1 & Ht1).
  { unfold MIN_TIMESTAMP. lia. }
  destruct (round_date_start r d1 Hr) as (d2 & Hd2 & Ht2); [lia|].
  exists d2. split.
  - destruct r; try done; cbn [next_date period] in *;
      change (60 * 60) with 3600; change (24 * 60 * 60) with 86400;
      change (7 * 24 * 60 * 60) with 604800;
      rewrite Hd1; cbn [expect mbind outcome_bind]; by rewrite Hd2.
  - rewrite Ht2, Ht1. destruct r; try done; cbn [period_start period] in *; div_lia.
Qed.

Lemma period_bounds r s : r <> Never -> period_start r s <= s < period_start r s + period r.
Proof. intros Hr. destruct r; try done; cbn [period_start period]; div_lia. Qed.

(** Two instants are in the same period exactly when they round to the same date. *)
Lemma period_start_same r s s' :
  r <> Never -> period_start r s <= s' < period_start r s + period r ->
  period_start r s' = period_start r s.
Proof. intros Hr. destruct r; try done; cbn [period_start period]; div_lia. Qed.

Lemma period_start_mono r s s' : r <> Never -> s <= s' -> period_start r s <= period_start r s'.
Proof. intros Hr. destruct r; try done; cbn [period_start period]; div_lia. Qed.

End rotation.

(** ** A clock that meets the laws

    A date is its timestamp, printed with the conversion of [DateTime]; names are not
    parsed. *)

Module Utc.

Inductive Format := ToMinute | ToHour | ToDay.

Definition in_range (d : Z) : bool := (MIN_TIMESTAMP <=? d) && (d <=? MAX_TIMESTAMP).

(** [2020-02-01T10:01:00Z] as [2020-02-01-10-01] and its prefixes. *)
Definition format (d : Z) (f : Format) : option string :=
  Some (match DateTime.from true {| tv_sec := d; tv_nsec := 0 |} with
        | Panic => ""
        | Done t =>
            (pad 4 (year t) ++ "-" ++ pad 2 (month t) ++ "-" ++ pad 2 (day t) ++
             match f with
             | ToDay => ""
             | ToHour => "-" ++ pad 2 (hour t)
             | ToMinute => "-" ++ pad 2 (hour t) ++ "-" ++ pad 2 (minute t)
             end)%string
        end).

Definition format_parse (s : string) : option Format :=
  if String.eqb s "[year]-[month]-[day]-[hour]-[minute]" then Some ToMinute
  else if String.eqb s "[year]-[month]-[day]-[hour]" then Some ToHour
  else if String.eqb s "[year]-[month]-[day]" then Some ToDay
  else None.

#[export] Instance utc : TimeCrate := {|
  OffsetDateTime := Z;
  Time := Z;
  FormatItems := Format;
  unix_timestamp := fun d => d;
  add_seconds := fun d s => if in_range (d + s) then Some (d + s) else None;
  dt_hour := fun d => (d / 3600) mod 24;
  dt_minute := fun d => (d / 60) mod 60;
  days_from_sunday := fun d => (d / 86400 + 4) mod 7;
  from_hms := fun h m s =>
    if (0 <=? h) && (h <? 24) && (0 <=? m) && (m <? 60) && (0 <=? s) && (s <? 60)
    then Some (3600 * h + 60 * m + s) else None;
  replace_time := fun d t => 86400 * (d / 86400) + t;
  Rotation.format_parse := format_parse;
  Rotation.format := format;
  date_parse := fun _ _ => None;
  datetime_parse := fun _ _ => None;
|}.

#[export] Instance utc_laws : TimeLaws utc.
Proof.
  split; cbn; try done.
  - intros d s [H1%Z.leb_le H2%Z.leb_le]. unfold in_range. rewrite H1, H2. eauto.
  - intros d h m s Hh Hm Hs. exists (3600 * h + 60 * m + s). split; [|lia].
    repeat match goal with
    | |- context [?a <=? ?b] => destruct (Z.leb_spec a b); [|lia]
    | |- context [?a <? ?b] => destruct (Z.ltb_spec a b); [|lia]
    end. done.
  - intros items Hi. unfold date_descriptions in Hi.
    repeat (rewrite elem_of_cons in Hi; destruct Hi as [->|Hi]); [..|by apply elem_of_nil in Hi];
      (eexists; split; [done|]); (split; [by eexists|by intros ?? ->]).
Qed.

End Utc.

(** The dates of the source's own tests: [2020-02-01 10:01:00] is a Saturday. *)
Example next_week : next_date (T := Utc.utc) Weekly 1580551260 = Done (Some 1580601600).
Proof. reflexivity. Qed.
Example next_hour : next_date (T := Utc.utc) Hourly 1580551260 = Done (Some 1580554800).
Proof. reflexivity. Qed.
Example date_of_hour : Utc.format 1580551260 Utc.ToHour = Some "2020-02-01-10".
Proof. reflexivity. Qed.
