(* ===== verification/LogFiles.v ===== *)
(** * LogFiles: the files of a rolling appender

    The part of the file system that [tracing-appender/src/rolling.rs] uses, the names
    of the log files, the removal of old ones and the opening of a new one
    ([struct Inner], [join_date], [prune_old_logs], [create_writer],
    [parse_date_from_filename]), and [rolling/builder.rs]. *)

From S2P Require Import Prelude.
From S2P Require Import Str.
From S2P Require Import Ints.
From S2P Require Import Rotation.
From Stdlib Require Import Ascii.

Local Open Scope string_scope.
Local Open Scope Z_scope.

(** ** [std::fs] and [std::path]

    Paths are strings; a name in a directory has no separator. *)

(** [Path::join] *)
Definition path_join (dir name : string) : string :=
  if starts_with name "/" then name
  else if String.eqb dir "" || ends_with dir "/" then dir ++ name
  else dir ++ "/" ++ name.

(** [Path::parent]: what is before the last separator. *)
Fixpoint last_sep (s : string) : option nat :=
  match s with
  | EmptyString => None
  | String c s =>
      match last_sep s with
      | Some i => Some (S i)
      | None => if Ascii.eqb c "/"%char then Some O else None
      end
  end.
Definition parent (path : string) : option string :=
  match last_sep path with
  | Some O => if String.eqb path "/" then None else Some "/"
  | Some i => Some (str_take i path)
  | None => if String.eqb path "" then None else Some ""
  end.

(** A file is named by its inode: an open [File] outlives its name. *)
Inductive Node := Regular (inode : nat) | Symlink (target : string).

#[export] Instance Node_eq_dec : EqDecision Node.
Proof. solve_decision. Defined.

Record Fs := {
  nodes : gmap string Node;
  dirs : gset string;
  data : gmap nat string;
  fresh : nat;
}.
Definition with_nodes (ns : gmap string Node) (fs : Fs) : Fs :=
  {| nodes := ns; dirs := dirs fs; data := data fs; fresh := fresh fs |}.
Definition with_data (d : gmap nat string) (fs : Fs) : Fs :=
  {| nodes := nodes fs; dirs := dirs fs; data := d; fresh := fresh fs |}.

Abbreviation File := nat.

Definition contents (fs : Fs) (f : File) : string := default "" (data fs !! f).

(** [fs::metadata] and [fs::DirEntry]: what can be read of an entry of a directory. *)
Record Metadata := { is_file : bool; created : option Z }.
Record DirEntry := { file_name : option string; metadata : option Metadata }.

(** What the operating system decides, and the crate [symlink]. *)
Class Io := {
  open_fails : Fs -> string -> bool;
  create_dir_fails : Fs -> string -> bool;
  remove_fails : Fs -> string -> bool;
  read_dir : Fs -> string -> option (list (option DirEntry));
  (** the number of bytes that a [write] takes *)
  accepts : Fs -> File -> string -> option nat;
  remove_symlink_file : Fs -> string -> Fs;
  symlink_file : Fs -> string -> string -> option Fs;
}.

(** A directory lists each regular file at most once, under its name. *)
Class IoLaws (I : Io) := {
  read_dir_regular fs dir l e n m :
    read_dir fs dir = Some l -> Some e ∈ l -> file_name e = Some n ->
    metadata e = Some m -> is_file m = true ->
    exists i, nodes fs !! path_join dir n = Some (Regular i);
  read_dir_nodup fs dir l :
    read_dir fs dir = Some l -> NoDup (omap (fun o => e ← o; file_name e) l);
  (** No separator in the name of an entry. *)
  read_dir_names fs dir l e n :
    read_dir fs dir = Some l -> Some e ∈ l -> file_name e = Some n -> no_char "/"%char n = true;
  accepts_le fs f buf n : accepts fs f buf = Some n -> (n <= str_len buf)%nat;
}.

Section files.
Context `{I : Io}.

(** Follows the symbolic links of a path, at most 40 of them. *)
Fixpoint resolve (fuel : nat) (fs : Fs) (path : string) : option string :=
  match nodes fs !! path with
  | Some (Symlink target) =>
      match fuel with
      | O => None
      | S fuel => resolve fuel fs (path_join (default "" (parent path)) target)
      end
  | _ => Some path
  end.

(** [OpenOptions::new().append(true).create(true).open(path)] *)
Definition open (fs : Fs) (path : string) : Fs * option File :=
  if open_fails fs path then (fs, None)
  else
    match resolve 40 fs path with
    | None => (fs, None)
    | Some path =>
        match nodes fs !! path with
        | Some (Regular i) => (fs, Some i)
        | Some (Symlink _) => (fs, None)
        | None =>
            if decide (default "" (parent path) ∈ dirs fs /\ path ∉ dirs fs) then
              ({| nodes := <[path := Regular (fresh fs)]> (nodes fs); dirs := dirs fs;
                  data := <[fresh fs := ""]> (data fs); fresh := S (fresh fs) |},
               Some (fresh fs))
            else (fs, None)
        end
    end.

(** [fs::create_dir_all]; the ancestors of a directory that is created are not
    observed by the appender. *)
Definition create_dir_all (fs : Fs) (path : string) : Fs * bool :=
  if create_dir_fails fs path then (fs, false)
  else ({| nodes := nodes fs; dirs := {[path]} ∪ dirs fs; data := data fs; fresh := fresh fs |},
        true).

(** [fs::remove_file] *)
Definition remove_file (fs : Fs) (path : string) : Fs * bool :=
  if remove_fails fs path then (fs, false)
  else
    match nodes fs !! path with
    | Some _ => (with_nodes (delete path (nodes fs)) fs, true)
    | None => (fs, false)
    end.

(** [<File as io::Write>::write] of a file that was opened to append. *)
Definition file_write (fs : Fs) (f : File) (buf : string) : Fs * option nat :=
  match accepts fs f buf with
  | None => (fs, None)
  | Some n => (with_data (<[f := contents fs f ++ str_take n buf]> (data fs)) fs, Some n)
  end.

End files.

(** ** [str::strip_prefix], [str::strip_suffix] and [sort_by_key] *)

Definition strip_prefix (s pat : string) : option string :=
  if starts_with s pat then Some (str_drop (str_len pat) s) else None.
Definition strip_suffix (s pat : string) : option string :=
  if ends_with s pat then Some (str_take (str_len s - str_len pat) s) else None.

(** The stable sort of [slice::sort_by_key], for an integer key. *)
Fixpoint insert_by_key {A} (key : A -> Z) (x : A) (l : list A) : list A :=
  match l with
  | [] => [x]
  | y :: l => if key x <=? key y then x :: y :: l else y :: insert_by_key key x l
  end.
Definition sort_by_key {A} (key : A -> Z) (l : list A) : list A :=
  foldr (insert_by_key key) [] l.

Lemma insert_by_key_perm {A} (key : A -> Z) x l : insert_by_key key x l ≡ₚ x :: l.
Proof.
  induction l as [|y l IH]; [done|]. cbn. case_match; [done|]. rewrite IH. by constructor.
Qed.

Lemma sort_by_key_perm {A} (key : A -> Z) l : sort_by_key key l ≡ₚ l.
Proof. induction l as [|x l IH]; [done|]. cbn. by rewrite insert_by_key_perm, IH. Qed.

Lemma insert_by_key_sorted {A} (key : A -> Z) x l :
  StronglySorted (fun x y => key x <= key y) l ->
  StronglySorted (fun x y => key x <= key y) (insert_by_key key x l).
Proof.
  induction l as [|y l IH]; cbn; intros Hl; [by repeat constructor|].
  pose proof Hl as [Hl' Hy]%StronglySorted_inv.
  destruct (Z.leb_spec (key x) (key y)).
  - constructor; [done|]. constructor; [done|].
    eapply Forall_impl; [exact Hy|]. cbn. lia.
  - constructor; [by apply IH|]. rewrite insert_by_key_perm. constructor; [lia|done].
Qed.

Lemma sort_by_key_sorted {A} (key : A -> Z) l :
  StronglySorted (fun x y => key x <= key y) (sort_by_key key l).
Proof. induction l as [|x l IH]; [constructor|]. by apply insert_by_key_sorted. Qed.

(** ** [struct Builder] ([rolling/builder.rs]) *)

Inductive InitError := ctx (context : string).

Module Builder.

Record Builder := {
  rotation : RotationKind;
  prefix : option string;
  suffix : option string;
  latest_symlink : option string;
  max_files : option Z;
}.

Definition new : Builder :=
  {| rotation := Never; prefix := None; suffix := None; latest_symlink := None;
     max_files := None |}.

Definition with_rotation (r : RotationKind) (self : Builder) : Builder :=
  {| rotation := r; prefix := prefix self; suffix := suffix self;
     latest_symlink := latest_symlink self; max_files := max_files self |}.

Definition filename_prefix (p : string) (self : Builder) : Builder :=
  let p := if String.eqb p "" then None else Some p in
  {| rotation := rotation self; prefix := p; suffix := suffix self;
     latest_symlink := latest_symlink self; max_files := max_files self |}.

Definition filename_suffix (s : string) (self : Builder) : Builder :=
  let s := if String.eqb s "" then None else Some s in
  {| rotation := rotation self; prefix := prefix self; suffix := s;
     latest_symlink := latest_symlink self; max_files := max_files self |}.

Definition max_log_files (n : Z) (self : Builder) : Builder :=
  {| rotation := rotation self; prefix := prefix self; suffix := suffix self;
     latest_symlink := latest_symlink self;
     max_files := if 0 <? n then Some n else None |}.

Definition with_latest_symlink (name : string) (self : Builder) : Builder :=
  let l := if String.eqb name "" then None else Some name in
  {| rotation := rotation self; prefix := prefix self; suffix := suffix self;
     latest_symlink := l; max_files := max_files self |}.

(** The calls of the builder's methods. *)
Inductive Call :=
  | Rotation (r : RotationKind)
  | FilenamePrefix (p : string)
  | FilenameSuffix (s : string)
  | MaxLogFiles (n : Z)
  | LatestSymlink (name : string).

Definition call (self : Builder) (c : Call) : Builder :=
  match c with
  | Rotation r => with_rotation r self
  | FilenamePrefix p => filename_prefix p self
  | FilenameSuffix s => filename_suffix s self
  | MaxLogFiles n => max_log_files n self
  | LatestSymlink name => with_latest_symlink name self
  end.

(** What the rest of the appender relies on. *)
Definition valid (b : Builder) : Prop :=
  prefix b <> Some "" /\ suffix b <> Some "" /\
  match max_files b with Some n => 0 < n | None => True end.

Lemma valid_calls cs : valid (foldl call new cs).
Proof.
  assert (forall b, valid b -> valid (foldl call b cs)) as H; [|by apply H].
  induction cs as [|c cs IH]; intros b (Hp & Hs & Hm); [done|]. apply IH.
  destruct c; cbn; unfold valid; cbn; split_and!; try done.
  - destruct (String.eqb_spec p ""); congruence.
  - destruct (String.eqb_spec s ""); congruence.
  - by destruct (Z.ltb_spec 0 n).
Qed.

End Builder.

(** ** [struct Inner] *)

Module Inner.

Section inner.
Context `{T : TimeCrate} `{I : Io}.

Record Inner := {
  log_directory : string;
  log_filename_prefix : option string;
  log_filename_suffix : option string;
  log_latest_symlink_name : option string;
  date_format : FormatItems;
  rotation : RotationKind;
  next_date : Z;
  max_files : option Z;
}.

(** A [format!] of the parts of a name, with dots between them. *)
Definition with_date (prefix suffix : option string) (date : string) : string :=
  match prefix, suffix with
  | Some filename, Some suffix => filename ++ "." ++ date ++ "." ++ suffix
  | Some filename, None => filename ++ "." ++ date
  | None, Some suffix => date ++ "." ++ suffix
  | None, None => date
  end.

(** [Inner::join_date] *)
Definition join_date (self : Inner) (date : OffsetDateTime) : outcome string :=
  date ← (match rotation self with
          | Never => expect (format date (date_format self))
          | r => d ← round_date r date; expect (format d (date_format self))
          end);
  Done (match rotation self, log_filename_prefix self, log_filename_suffix self with
        | Never, Some filename, None => filename
        | Never, Some filename, Some suffix => filename ++ "." ++ suffix
        | Never, None, Some suffix => suffix
        | _, prefix, suffix => with_date prefix suffix date
        end).

(** [parse_date_from_filename] *)
Definition parse_date_from_filename (filename : string) (date_format : FormatItems)
    (prefix suffix : option string) : option Z :=
  datetime ← (match prefix with
              | Some prefix => d ← strip_prefix filename prefix; strip_prefix d "."
              | None => Some filename
              end);
  datetime ← (match suffix with
              | Some suffix => d ← strip_suffix datetime suffix; strip_suffix d "."
              | None => Some datetime
              end);
  match datetime_parse datetime date_format with
  | Some t => Some t
  | None => date_parse datetime date_format
  end.

(** The closure of the [filter_map] of [prune_old_logs]. *)
Definition prune_candidate (self : Inner) (entry : option DirEntry) : option (string * Z) :=
  entry ← entry;
  metadata ← metadata entry;
  if negb (is_file metadata) then None
  else
    filename ← file_name entry;
    if match log_filename_prefix self with
       | Some prefix => negb (starts_with filename prefix)
       | None => false
       end then None
    else if match log_filename_suffix self with
            | Some suffix => negb (ends_with filename suffix)
            | None => false
            end then None
    else if match log_filename_prefix self, log_filename_suffix self with
            | None, None =>
                match date_parse filename (date_format self) with None => true | Some _ => false end
            | _, _ => false
            end then None
    else
      created ← (match created metadata with
                 | Some t => Some t
                 | None => parse_date_from_filename filename (date_format self)
                             (log_filename_prefix self) (log_filename_suffix self)
                 end);
      Some (filename, created).

(** The loop that removes files: an error is printed, and the loop goes on. *)
Fixpoint remove_files (dir : string) (files : list (string * Z)) (fs : Fs) : Fs :=
  match files with
  | [] => fs
  | (name, _) :: files => remove_files dir files (remove_file fs (path_join dir name)).1
  end.

(** [Inner::prune_old_logs]; [debug] says whether the subtractions are checked. *)
Definition prune_old_logs (debug : bool) (self : Inner) (max_files : Z) (fs : Fs) : outcome Fs :=
  match read_dir fs (log_directory self) with
  | None => Done fs
  | Some entries =>
      let files := omap (prune_candidate self) entries in
      if Z.of_nat (length files) <? max_files then Done fs
      else
        let files := sort_by_key snd files in
        keep ← arith_u debug 64 (max_files - 1);
        n ← arith_u debug 64 (Z.of_nat (length files) - keep);
        Done (remove_files (log_directory self) (take (Z.to_nat n) files) fs)
  end.

(** [create_writer] *)
Definition create_writer (directory filename : string) (latest_symlink_name : option string)
    (fs : Fs) : Fs * result File InitError :=
  let path := path_join directory filename in
  let '(fs, new_file) :=
    match open fs path with
    | (fs, Some f) => (fs, Ok f)
    | (fs, None) =>
        let '(fs, created) :=
          match parent path with
          | Some parent => create_dir_all fs parent
          | None => (fs, true)
          end in
        if created then
          match open fs path with
          | (fs, Some f) => (fs, Ok f)
          | (fs, None) => (fs, Err (ctx "failed to create log file"))
          end
        else (fs, Err (ctx "failed to create log directory"))
    end in
  match new_file with
  | Err e => (fs, Err e)
  | Ok new_file =>
      match latest_symlink_name with
      | None => (fs, Ok new_file)
      | Some symlink_name =>
          let symlink_path := path_join directory symlink_name in
          let fs := remove_symlink_file fs symlink_path in
          match symlink_file fs path symlink_path with
          | Some fs => (fs, Ok new_file)
          | None => (fs, Err (ctx "failed to create symlink to latest log file"))
          end
      end
  end.

(** The timestamp in [next_date]: [date.unix_timestamp() as usize], 0 when there is none. *)
Definition next_timestamp (rotation : RotationKind) (now : OffsetDateTime) : outcome Z :=
  next ← Rotation.next_date rotation now;
  Done (match next with Some date => as_u 64 (unix_timestamp date) | None => 0 end).

(** [Inner::new], from the fields of a [Builder]. *)
Definition new (debug : bool) (now : OffsetDateTime) (b : Builder.Builder) (directory : string)
    (fs : Fs) : outcome (Fs * result (Inner * File) InitError) :=
  date_format ← Rotation.date_format (Builder.rotation b);
  next_date ← next_timestamp (Builder.rotation b) now;
  let inner :=
    {| log_directory := directory;
       log_filename_prefix := Builder.prefix b;
       log_filename_suffix := Builder.suffix b;
       log_latest_symlink_name := Builder.latest_symlink b;
       date_format := date_format;
       rotation := Builder.rotation b;
       next_date := next_date;
       max_files := Builder.max_files b |} in
  fs ← (match Builder.max_files b with
        | Some max_files => prune_old_logs debug inner max_files fs
        | None => Done fs
        end);
  filename ← join_date inner now;
  match create_writer directory filename (Builder.latest_symlink b) fs with
  | (fs, Ok writer) => Done (fs, Ok (inner, writer))
  | (fs, Err e) => Done (fs, Err e)
  end.

(** [Inner::refresh_writer]: the file that is written from now on. *)
Definition refresh_writer (debug : bool) (self : Inner) (now : OffsetDateTime) (file : File)
    (fs : Fs) : outcome (Fs * File) :=
  filename ← join_date self now;
  fs ← (match max_files self with
        | Some max_files => prune_old_logs debug self max_files fs
        | None => Done fs
        end);
  Done (match create_writer (log_directory self) filename (log_latest_symlink_name self) fs with
        | (fs, Ok new_file) => (fs, new_file)
        | (fs, Err _) => (fs, file)
        end).

(** [Inner::should_rollover] *)
Definition should_rollover (self : Inner) (date : OffsetDateTime) : option Z :=
  if next_date self =? 0 then None
  else if next_date self <=? as_u 64 (unix_timestamp date) then Some (next_date self)
  else None.

(** [Inner::advance_date]: the compare-and-exchange, and whether it succeeded. *)
Definition with_next_date (n : Z) (self : Inner) : Inner :=
  {| log_directory := log_directory self; log_filename_prefix := log_filename_prefix self;
     log_filename_suffix := log_filename_suffix self;
     log_latest_symlink_name := log_latest_symlink_name self;
     date_format := date_format self; rotation := rotation self; next_date := n;
     max_files := max_files self |}.

Definition advance_date (self : Inner) (now : OffsetDateTime) (current : Z) :
    outcome (Inner * bool) :=
  next ← next_timestamp (rotation self) now;
  Done (if next_date self =? current then (with_next_date next self, true) else (self, false)).

(** *** The removal of old files *)

(** The names that the appender may remove. *)
Definition may_prune (self : Inner) (name : string) : Prop :=
  match log_filename_prefix self, log_filename_suffix self with
  | None, None => is_Some (date_parse name (date_format self))
  | prefix, suffix =>
      match prefix with Some p => starts_with name p = true | None => True end /\
      match suffix with Some s => ends_with name s = true | None => True end
  end.

Lemma prune_candidate_Some self entry name t :
  prune_candidate self entry = Some (name, t) ->
  exists e m, entry = Some e /\ file_name e = Some name /\ metadata e = Some m /\
    is_file m = true /\ may_prune self name.
Proof.
  unfold prune_candidate. destruct entry as [e|]; [|done]. cbn.
  destruct (metadata e) as [m|] eqn:Hm; [|done]. cbn.
  destruct (is_file m) eqn:Hf; [|done]. cbn.
  destruct (file_name e) as [n|] eqn:Hn; [|done]. cbn.
  unfold may_prune. intros H.
  destruct (log_filename_prefix self) as [p|], (log_filename_suffix self) as [s|];
    cbn in H; repeat (case_match; cbn in H; try done); simplify_option_eq; try done;
    repeat match goal with
    | H : negb ?b = false |- _ => apply negb_false_iff in H
    end; exists e, m; split_and!; try done; by eexists.
Qed.

Lemma candidates_nodup self l :
  NoDup (omap (fun o => e ← o; file_name e) l) ->
  NoDup (omap (prune_candidate self) l).*1.
Proof.
  induction l as [|o l IH]; cbn; [done|]. intros Hl.
  assert (NoDup (omap (prune_candidate self) l).*1) as Hl'.
  { apply IH. by destruct (o ≫= file_name); [apply NoDup_cons in Hl as [_ Hl]|]. }
  destruct (prune_candidate self o) as [[n t]|] eqn:Hc; [|done].
  apply prune_candidate_Some in Hc as (e & m & -> & Hn & _). cbn in *. rewrite Hn in Hl.
  constructor; [|done]. apply NoDup_cons in Hl as [Hin _]. contradict Hin.
  apply list_elem_of_fmap in Hin as ([n' t'] & -> & Hin).
  apply list_elem_of_omap in Hin as (o & Ho & Hin).
  apply prune_candidate_Some in Hin as (e' & m' & -> & Hn' & _).
  apply list_elem_of_omap. by exists (Some e').
Qed.

Lemma path_join_inj dir n n' :
  no_char "/"%char n = true -> no_char "/"%char n' = true ->
  path_join dir n = path_join dir n' -> n = n'.
Proof.
  assert (forall s, no_char "/"%char s = true -> starts_with s "/" = false) as Hs.
  { intros [|c s]; cbn; [done|]. by destruct (Ascii.eqb c "/"). }
  intros Hn Hn'. unfold path_join. rewrite (Hs n), (Hs n') by done.
  case_match; intros Heq; [by eapply append_inj_l|].
  apply append_inj_l in Heq. by injection Heq.
Qed.

(** Removing one file. *)
Lemma remove_file_spec fs path :
  let fs' := (remove_file fs path).1 in
  dirs fs' = dirs fs /\ data fs' = data fs /\ fresh fs' = fresh fs /\
  (forall p, nodes fs' !! p = nodes fs !! p \/ p = path /\ nodes fs' !! p = None) /\
  (remove_fails fs path = false -> nodes fs' !! path = None).
Proof.
  unfold remove_file. case_match; [by split_and!; [..|left|]|].
  case_match eqn:Hp; cbn; [|by split_and!; [..|left|]]. split_and!; try done.
  - intros p. destruct (decide (p = path)) as [->|]; [right|left].
    + by rewrite lookup_delete_eq.
    + by rewrite lookup_delete_ne.
  - intros _. apply lookup_delete_eq.
Qed.

(** The loop takes only names of the list away, and all of them unless a removal
    fails. *)
Lemma remove_files_spec dir files fs :
  let fs' := remove_files dir files fs in
  let named p := p ∈ path_join dir <$> files.*1 in
  dirs fs' = dirs fs /\ data fs' = data fs /\ fresh fs' = fresh fs /\
  (forall p, nodes fs' !! p = nodes fs !! p \/ nodes fs' !! p = None /\ named p) /\
  ((forall fs p, named p -> remove_fails fs p = false) ->
   forall p, named p -> nodes fs' !! p = None).
Proof.
  revert fs. induction files as [|[n t] files IH]; intros fs; cbn.
  { split_and!; try done; [by left|]. by intros _ p ?%elem_of_nil. }
  destruct (remove_file_spec fs (path_join dir n)) as (Hd1 & Hda1 & Hf1 & Hn1 & Hall1).
  destruct (IH (remove_file fs (path_join dir n)).1) as (Hd & Hda & Hf & Hn & Hall).
  split_and!; try congruence.
  - intros p. rewrite elem_of_cons.
    destruct (Hn p) as [->|[-> ?]]; [|by right; eauto].
    destruct (Hn1 p) as [->|[-> ->]]; [by left|right; eauto].
  - intros Hok p Hp. rewrite elem_of_cons in Hp. destruct Hp as [->|Hp].
    + destruct (Hn (path_join dir n)) as [->|[-> _]]; [|done].
      apply Hall1, Hok, elem_of_cons. by left.
    + apply Hall; [|done]. intros ???. apply Hok, elem_of_cons. by right.
Qed.

(** The sorted list is cut after its [k] oldest elements. *)
Lemma sorted_cut (l : list (string * Z)) k :
  Forall (fun r => Forall (fun x => r.2 <= x.2) (drop k (sort_by_key snd l)))
    (take k (sort_by_key snd l)).
Proof.
  generalize (sort_by_key_sorted snd l). generalize (sort_by_key snd l) as s. clear l.
  intros s. revert k. induction s as [|x s IH]; intros k Hs; [by destruct k; constructor|].
  destruct k as [|k]; [constructor|]. cbn. apply StronglySorted_inv in Hs as [Hs Hx].
  constructor; [by apply Forall_drop|by apply IH].
Qed.

(** The removal computes the cut. *)
Lemma prune_old_logs_cut debug self n fs entries :
  0 < n <= U64.MAX -> read_dir fs (log_directory self) = Some entries ->
  Z.of_nat (length entries) <= U64.MAX ->
  let files := omap (prune_candidate self) entries in
  let k := Z.to_nat (if Z.of_nat (length files) <? n then 0
                     else Z.of_nat (length files) - (n - 1)) in
  prune_old_logs debug self n fs =
    Done (remove_files (log_directory self) (take k (sort_by_key snd files)) fs).
Proof.
  intros Hn Hr Hl files k. unfold prune_old_logs. rewrite Hr. fold files.
  assert (length files <= length entries)%nat.
  { subst files. clear. induction entries as [|e l IH]; cbn; [lia|].
    destruct (prune_candidate self e); cbn; lia. }
  unfold U64.MAX in *. subst k.
  rewrite (Permutation_length (sort_by_key_perm snd files)).
  destruct (Z.ltb_spec (Z.of_nat (length files)) n); [done|].
  rewrite arith_u_fits by lia. cbn [mbind outcome_bind].
  rewrite arith_u_fits by lia. done.
Qed.

(** Pruning with a limit of [n] files never panics; it divides the regular files of
    the directory whose names match the appender into those it removes and those it
    keeps: the kept ones are fewer than [n] (exactly [n - 1] when something is removed),
    no removed file is newer than a kept one, every name that disappears is that of a
    removed file, a matching regular file, and when no removal fails they all do; the
    kept files, every other name and the contents of every open file stay. *)
Theorem prune_keeps_newest `{!IoLaws I} debug self n fs entries :
  0 < n <= U64.MAX -> read_dir fs (log_directory self) = Some entries ->
  Z.of_nat (length entries) <= U64.MAX ->
  let path name := path_join (log_directory self) name in
  exists fs' removed kept,
    prune_old_logs debug self n fs = Done fs' /\
    omap (prune_candidate self) entries ≡ₚ removed ++ kept /\
    Z.of_nat (length kept) < n /\
    (removed <> [] -> Z.of_nat (length kept) = n - 1) /\
    Forall (fun r => Forall (fun k => r.2 <= k.2) kept) removed /\
    Forall (fun r => may_prune self r.1 /\
                     exists i, nodes fs !! path r.1 = Some (Regular i)) removed /\
    Forall (fun k => nodes fs' !! path k.1 = nodes fs !! path k.1) kept /\
    (forall p, nodes fs' !! p = nodes fs !! p \/
               nodes fs' !! p = None /\ p ∈ path <$> removed.*1) /\
    ((forall fs p, p ∈ path <$> removed.*1 -> remove_fails fs p = false) ->
     forall p, p ∈ path <$> removed.*1 -> nodes fs' !! p = None) /\
    dirs fs' = dirs fs /\ data fs' = data fs /\ fresh fs' = fresh fs.
Proof.
  intros Hn Hr Hl path. rewrite (prune_old_logs_cut debug self n fs entries) by done.
  set (files := omap (prune_candidate self) entries). cbn zeta.
  set (k := Z.to_nat _). set (s := sort_by_key snd files).
  pose proof (sort_by_key_perm snd files) as Hs. fold s in Hs.
  assert (length s = length files) as Hlen by by rewrite Hs.
  destruct (remove_files_spec (log_directory self) (take k s) fs) as (Hd & Hda & Hf & Hno & Hall).
  assert (forall r, r ∈ s -> exists e m, Some e ∈ entries /\ file_name e = Some r.1 /\
    metadata e = Some m /\ is_file m = true /\ may_prune self r.1) as Hin.
  { intros [x t] Hx. rewrite Hs in Hx. apply list_elem_of_omap in Hx as (o & Ho & Hx).
    apply prune_candidate_Some in Hx as (e & m & -> & ?). by exists e, m. }
  eexists _, (take k s), (drop k s). split_and!; try done.
  - by rewrite take_drop.
  - rewrite length_drop, Hlen. subst k. case_match; bool_to_prop; lia.
  - rewrite length_drop, Hlen. subst k. case_match; bool_to_prop; [done|lia].
  - apply sorted_cut.
  - apply Forall_forall. intros r Hr'.
    destruct (Hin r) as (e & m & He & Hfn & Hm & Hfile & Hmay).
    { eapply (subseteq_take k). done. }
    split; [done|]. by eapply read_dir_regular.
  - apply Forall_forall. intros r Hr'.
    destruct (Hno (path r.1)) as [->|[_ Hrm]]; [done|exfalso].
    apply list_elem_of_fmap in Hrm as (x & Hx & Hxs).
    assert (NoDup s.*1) as Hnd.
    { rewrite Hs. by eapply candidates_nodup, read_dir_nodup. }
    rewrite <- (take_drop k s), fmap_app in Hnd. apply NoDup_app in Hnd as (_ & Hnd & _).
    apply (Hnd x Hxs). apply list_elem_of_fmap in Hxs as (y & -> & Hy).
    destruct (Hin r) as (e & m & He & Hfn & _); [by eapply (subseteq_drop k)|].
    destruct (Hin y) as (e' & m' & He' & Hfn' & _); [by eapply (subseteq_take k)|].
    apply path_join_inj in Hx; [|exact (read_dir_names _ _ _ _ _ Hr He Hfn)|exact (read_dir_names _ _ _ _ _ Hr He' Hfn')].
    rewrite <- Hx. by apply list_elem_of_fmap_2.
Qed.

End inner.

Arguments Inner {T}.

End Inner.

(** ** A file system in memory

    No operation fails, a write takes the whole buffer, and the creation time of a file
    is its inode; the target of a symbolic link is stored as it is given. *)

Module MemIo.

Definition entry_of (dir : string) (x : string * Node) : option DirEntry :=
  let '(p, node) := x in
  n ← strip_prefix p (path_join dir "");
  if no_char "/"%char n && String.eqb (path_join dir n) p then
    Some {| file_name := Some n;
            metadata := Some (match node with
              | Regular i => {| is_file := true; created := Some (Z.of_nat i) |}
              | Symlink _ => {| is_file := false; created := None |}
              end) |}
  else None.

Definition list_dir (fs : Fs) (dir : string) : list DirEntry :=
  omap (entry_of dir) (map_to_list (nodes fs)).

#[export] Instance mem : Io := {|
  open_fails := fun _ _ => false;
  create_dir_fails := fun _ _ => false;
  remove_fails := fun _ _ => false;
  read_dir := fun fs dir => Some (Some <$> list_dir fs dir);
  accepts := fun _ _ buf => Some (str_len buf);
  remove_symlink_file := fun fs p => (remove_file (I := {|
    open_fails := fun _ _ => false; create_dir_fails := fun _ _ => false;
    remove_fails := fun _ _ => false; read_dir := fun _ _ => None;
    accepts := fun _ _ _ => None; remove_symlink_file := fun fs _ => fs;
    symlink_file := fun _ _ _ => None |}) fs p).1;
  symlink_file := fun fs target p => Some (with_nodes (<[p := Symlink target]> (nodes fs)) fs);
|}.

Lemma entry_of_Some dir p node e :
  entry_of dir (p, node) = Some e ->
  exists n, file_name e = Some n /\ p = path_join dir n /\ no_char "/"%char n = true /\
    forall m, metadata e = Some m -> is_file m = true -> exists i, node = Regular i.
Proof.
  unfold entry_of. destruct (strip_prefix p (path_join dir "")) as [n|]; cbn; [|discriminate].
  destruct (no_char "/" n) eqn:Hn; cbn; [|discriminate].
  destruct (String.eqb_spec (path_join dir n) p) as [<-|]; [|discriminate].
  intros [= <-]. exists n. cbn. split_and!; try done.
  intros m [= <-]. destruct node; [by eexists|done].
Qed.

Lemma list_dir_elem fs dir e :
  Some e ∈ Some <$> list_dir fs dir -> exists p node, nodes fs !! p = Some node /\
    entry_of dir (p, node) = Some e.
Proof.
  intros (x & [= <-] & Hx)%list_elem_of_fmap.
  apply list_elem_of_omap in Hx as ([p node] & Hx & He). exists p, node.
  split; [by apply elem_of_map_to_list in Hx|done].
Qed.

#[export] Instance mem_laws : IoLaws mem.
Proof.
  split.
  - intros fs dir l e n m [= <-] (p & node & Hp & He)%list_dir_elem Hn Hm Hf.
    apply entry_of_Some in He as (n' & Hn' & -> & _ & Hi).
    destruct (Hi m Hm Hf) as [i ->]. simplify_eq. by exists i.
  - intros fs dir l [= <-]. unfold list_dir.
    generalize (NoDup_fst_map_to_list (nodes fs)).
    induction (map_to_list (nodes fs)) as [|[p node] l IH]; [by constructor|].
    intros [Hp Hl]%NoDup_cons. specialize (IH Hl). cbn [omap list_omap].
    destruct (entry_of dir (p, node)) as [e|] eqn:He; [|done].
    apply entry_of_Some in He as (n & Hn & -> & _). cbn. rewrite Hn. constructor; [|done].
    intros Hin. apply Hp. apply list_elem_of_omap in Hin as (o & Ho & Hin).
    apply list_elem_of_fmap in Ho as (e' & -> & Ho). cbn in Hin.
    apply list_elem_of_omap in Ho as ([p' node'] & Hx & He').
    apply entry_of_Some in He' as (n' & Hn' & -> & _). simplify_eq.
    by apply (list_elem_of_fmap_2 fst) in Hx.
  - intros fs dir l e n [= <-] (p & node & Hp & He)%list_dir_elem Hn.
    apply entry_of_Some in He as (n' & Hn' & _ & Hc & _). by simplify_eq.
  - intros fs f buf n [= <-]. done.
Qed.

(** A directory with three log files, another file and a link. *)
Definition sample : Fs := {|
  nodes := list_to_map
    [("log/app.2020-02-01-10", Regular 0); ("log/app.2020-02-01-11", Regular 1);
     ("log/app.2020-02-01-12", Regular 2); ("log/other", Regular 3);
     ("log/latest", Symlink "app.2020-02-01-12")];
  dirs := {["log"]};
  data := list_to_map [(0%nat, "a"); (1%nat, "b"); (2%nat, "c"); (3%nat, "d")];
  fresh := 4;
|}.

Definition hourly : Inner.Inner (T := Utc.utc) := {|
  Inner.log_directory := "log"; Inner.log_filename_prefix := Some "app";
  Inner.log_filename_suffix := None; Inner.log_latest_symlink_name := None;
  Inner.date_format := (Utc.ToHour : @FormatItems Utc.utc); Inner.rotation := Hourly;
  Inner.next_date := 1580558400; Inner.max_files := Some 2;
|}.

(** Of the three files, the two oldest go: with the next one there are two. *)
Example prune_sample :
  (fun fs => (map_to_list (nodes fs)).*1) <$> Inner.prune_old_logs true hourly 2 sample
  = Done ["log/other"; "log/app.2020-02-01-12"; "log/latest"].
Proof. vm_compute. reflexivity. Qed.

End MemIo.

Import MemIo.

Lemma prune_keeps_newest_witness :
  exists fs' removed kept,
    Inner.prune_old_logs true MemIo.hourly 2 MemIo.sample = Done fs' /\
    omap (Inner.prune_candidate MemIo.hourly) (Some <$> MemIo.list_dir MemIo.sample "log")
      ≡ₚ removed ++ kept /\
    Z.of_nat (length kept) < 2.
Proof.
  destruct (Inner.prune_keeps_newest true MemIo.hourly 2 MemIo.sample
    (Some <$> MemIo.list_dir MemIo.sample "log"))
    as (fs' & removed & kept & H1 & H2 & H3 & _);
    [unfold U64.MAX; lia|reflexivity|vm_compute; discriminate|].
  exists fs', removed, kept. exact (conj H1 (conj H2 H3)).
Defined.
