(* ===== verification/Rolling.v ===== *)
(** * Rolling: the rolling file appender

    [struct RollingFileAppender] of [tracing-appender/src/rolling.rs]: its construction,
    [io::Write] through an exclusive reference, and [MakeWriter], whose calls from
    several threads are interleaved. *)

From S2P Require Import Prelude.
From S2P Require Import Str.
From S2P Require Import Ints.
From S2P Require Import DateTime.
From S2P Require Import Rotation.
From S2P Require Import LogFiles.
From stdpp Require Import pretty.
From Stdlib Require Import Ascii.

Local Open Scope Z_scope.

Import Inner.

(** [struct RollingFileAppender] *)
Record RollingFileAppender `{T : TimeCrate} := { state : Inner; writer : File }.

Section rolling.
Context `{T : TimeCrate} `{I : Io}.

(** [RollingFileAppender::from_builder], at the time [now]. *)
Definition from_builder (debug : bool) (b : Builder.Builder) (directory : string)
    (now : OffsetDateTime) (fs : Fs) : outcome (Fs * result RollingFileAppender InitError) :=
  '(fs, r) ← new debug now b directory fs;
  Done (fs, match r with
            | Ok (state, writer) => Ok {| state := state; writer := writer |}
            | Err e => Err e
            end).

(** [io::Write::write], at the time [now]. *)
Definition write (debug : bool) (self : RollingFileAppender) (now : OffsetDateTime)
    (buf : string) (fs : Fs) : outcome (RollingFileAppender * Fs * option nat) :=
  '(self, fs) ← (match should_rollover (state self) now with
                 | Some current_time =>
                     '(st, did_cas) ← advance_date (state self) now current_time;
                     _ ← (if debug then assert did_cas else Done tt);
                     '(fs, file) ← refresh_writer debug st now (writer self) fs;
                     Done ({| state := st; writer := file |}, fs)
                 | None => Done (self, fs)
                 end);
  let '(fs, n) := file_write fs (writer self) buf in
  Done (self, fs, n).

(** A sequence of writes, each at the time it is made, and their results. *)
Fixpoint write_all (debug : bool) (self : RollingFileAppender)
    (ws : list (OffsetDateTime * string)) (fs : Fs) :
    outcome (RollingFileAppender * Fs * list (option nat)) :=
  match ws with
  | [] => Done (self, fs, [])
  | (now, buf) :: ws =>
      '(self, fs, r) ← write debug self now buf fs;
      '(self, fs, rs) ← write_all debug self ws fs;
      Done (self, fs, r :: rs)
  end.

(** ** The dates of the appender *)

Context `{!TimeLaws T}.

(** The instants at which the next date is in the range of the [time] crate. *)
Definition in_domain (r : RotationKind) (d : OffsetDateTime) : Prop :=
  0 <= unix_timestamp d <= MAX_TIMESTAMP - period r.

(** The format of a state is that of its rotation. *)
Definition formatted (st : Inner) : Prop :=
  Rotation.date_format (rotation st) = Done (date_format st).

Lemma formatted_ok st :
  formatted st ->
  (forall d, is_Some (format d (date_format st))) /\
  (forall d d', unix_timestamp d = unix_timestamp d' ->
    format d (date_format st) = format d' (date_format st)).
Proof.
  unfold formatted, Rotation.date_format. intros H.
  destruct (format_parse _) as [f|] eqn:Hf; [|done]. injection H as <-.
  edestruct format_ok as (f' & Hf' & Hok); [|rewrite Hf in Hf'; injection Hf' as <-; exact Hok].
  unfold date_descriptions. destruct (rotation st); set_solver.
Qed.

Lemma next_timestamp_ok r d :
  in_domain r d ->
  next_timestamp r d =
    Done (if decide (r = Never) then 0 else period_start r (unix_timestamp d) + period r).
Proof.
  intros Hd. unfold next_timestamp. case_decide as Hr; [by subst|].
  destruct (next_date_start r d Hr Hd) as (d' & -> & Ht). cbn. rewrite Ht, as_u_fits; [done|].
  unfold in_domain, MAX_TIMESTAMP in Hd.
  pose proof (period_bounds r (unix_timestamp d) Hr). lia.
Qed.

Lemma join_date_ok st d :
  formatted st -> in_domain (rotation st) d -> exists name, join_date st d = Done name.
Proof.
  intros [Hf _]%formatted_ok Hd. unfold join_date.
  destruct (decide (rotation st = Never)) as [Hr|Hr].
  - rewrite Hr. destruct (Hf d) as [s ->]. cbn. by eexists.
  - destruct (round_date_start (rotation st) d Hr) as (d' & Hd' & _).
    { unfold in_domain in Hd. destruct (rotation st); cbn in Hd; lia. }
    destruct (Hf d') as [s Hs]. revert Hr Hd'.
    destruct (rotation st); intros Hr Hd'; try done; rewrite Hd'; cbn; rewrite Hs; by eexists.
Qed.

(** Within a period the name does not change. *)
Lemma join_date_period st d d' :
  formatted st -> rotation st <> Never -> in_domain (rotation st) d ->
  in_domain (rotation st) d' ->
  period_start (rotation st) (unix_timestamp d) = period_start (rotation st) (unix_timestamp d') ->
  join_date st d = join_date st d'.
Proof.
  intros [_ Hf]%formatted_ok Hr Hd Hd' Hp.
  assert (0 <= period (rotation st)) by by destruct (rotation st).
  unfold in_domain in *.
  destruct (round_date_start (rotation st) d Hr) as (e & He & Ht); [lia|].
  destruct (round_date_start (rotation st) d' Hr) as (e' & He' & Ht'); [lia|].
  assert (format e (date_format st) = format e' (date_format st)) as Hs by (apply Hf; congruence).
  unfold join_date. revert Hr He He'.
  destruct (rotation st); intros Hr He He'; try done; rewrite He, He'; cbn; by rewrite Hs.
Qed.

Lemma join_date_with_next n st d : join_date (with_next_date n st) d = join_date st d.
Proof. done. Qed.

(** ** The files

    [text fs p] is what a reader of the path [p] finds; every file has one name. *)

Definition text (fs : Fs) (p : string) : string :=
  match nodes fs !! p with Some (Regular i) => contents fs i | _ => "" end.

Record fs_ok (fs : Fs) : Prop := {
  inode_inj p q i :
    nodes fs !! p = Some (Regular i) -> nodes fs !! q = Some (Regular i) -> p = q;
  inode_fresh p i : nodes fs !! p = Some (Regular i) -> (i < LogFiles.fresh fs)%nat;
}.

(** New empty files. *)
Record grows (fs fs' : Fs) : Prop := {
  grows_ok : fs_ok fs';
  grows_text p : text fs' p = text fs p;
  grows_nodes p i : nodes fs !! p = Some (Regular i) -> nodes fs' !! p = Some (Regular i);
  grows_links p t : nodes fs' !! p = Some (Symlink t) -> nodes fs !! p = Some (Symlink t);
}.

Lemma resolve_plain n fs p : (forall t, nodes fs !! p <> Some (Symlink t)) -> resolve n fs p = Some p.
Proof.
  intros H. destruct n; cbn; destruct (nodes fs !! p) as [[i|t]|] eqn:Hp; try done;
    by destruct (H t).
Qed.

Lemma open_ok fs p :
  fs_ok fs -> open_fails fs p = false -> (forall t, nodes fs !! p <> Some (Symlink t)) ->
  p ∉ dirs fs ->
  default "" (parent p) ∈ dirs fs \/ is_Some (nodes fs !! p) ->
  exists fs' f, open fs p = (fs', Some f) /\ dirs fs' = dirs fs /\
    nodes fs' !! p = Some (Regular f) /\ grows fs fs'.
Proof.
  intros Hok Hf Hl Hp Hpar. unfold open. rewrite Hf, resolve_plain by done.
  destruct (nodes fs !! p) as [[i|t]|] eqn:Hn; [|by destruct (Hl t)|].
  { by exists fs, i. }
  rewrite decide_True; [|by destruct Hpar as [|[? ?]]].
  eexists _, _. split_and!; [done|done|by cbn; rewrite lookup_insert_eq|].
  destruct Hok as [Hinj Hfr]. split; [split|..]; cbn.
  - intros q r i. rewrite !lookup_insert. repeat case_decide; subst; try done.
    + intros [= <-] Hr%Hfr. lia.
    + intros Hr%Hfr [= <-]. lia.
    + apply Hinj.
  - intros q i. rewrite lookup_insert. case_decide; [by intros [= <-]; lia|].
    intros Hq%Hfr. lia.
  - intros q. unfold text. cbn. rewrite lookup_insert. case_decide as Hq.
    + subst. rewrite Hn. unfold contents. cbn. by rewrite lookup_insert_eq.
    + destruct (nodes fs !! q) as [[i|]|] eqn:Hi; try done.
      unfold contents. cbn. rewrite lookup_insert_ne; [done|].
      apply Hfr in Hi. lia.
  - intros q i. rewrite lookup_insert. case_decide; [subst|done]. by rewrite Hn.
  - intros q t. rewrite lookup_insert. by case_decide.
Qed.

(** [path_of st d] is the file of the instant [d]. *)
Definition path_of (st : Inner) (d : OffsetDateTime) : string :=
  match join_date st d with
  | Done name => path_join (log_directory st) name
  | Panic => ""
  end.

(** The paths of the appender can be created: none is a directory or a link, or is the
    parent of another. *)
Definition usable (st : Inner) (fs : Fs) : Prop :=
  forall d, in_domain (rotation st) d ->
    (path_of st d ∉ dirs fs) /\
    (forall t, nodes fs !! path_of st d <> Some (Symlink t)) /\
    exists q, parent (path_of st d) = Some q /\
      forall d', in_domain (rotation st) d' -> path_of st d' <> q.

(** No operation on a file fails. *)
Class NoErrors : Prop := {
  no_open_error fs p : open_fails fs p = false;
  no_dir_error fs p : create_dir_fails fs p = false;
}.

Context `{!NoErrors}.

Lemma create_writer_ok st d name fs :
  in_domain (rotation st) d -> join_date st d = Done name -> fs_ok fs -> usable st fs ->
  exists fs' f, create_writer (log_directory st) name None fs = (fs', Ok f) /\
    nodes fs' !! path_of st d = Some (Regular f) /\ grows fs fs' /\ usable st fs'.
Proof.
  intros Hd Hname Hok Hu. destruct (Hu d Hd) as (Hdir & Hlink & q & Hq & Hqd).
  unfold create_writer. assert (path_join (log_directory st) name = path_of st d) as ->.
  { unfold path_of. by rewrite Hname. }
  assert (forall fs fs', grows fs fs' -> dirs fs' = dirs fs -> usable st fs -> usable st fs') as Hstep.
  { intros fs1 fs2 Hg Hds Hu1 d1 Hd1. destruct (Hu1 d1 Hd1) as (? & Hl1 & ?).
    split_and!; [by rewrite Hds| |done]. intros t Ht%(grows_links _ _ Hg). by eapply Hl1. }
  destruct (decide (default "" (parent (path_of st d)) ∈ dirs fs \/
                    is_Some (nodes fs !! path_of st d))) as [Hp|Hp].
  - destruct (open_ok fs (path_of st d)) as (fs' & f & -> & Hds & Hf & Hg); try done.
    { apply no_open_error. }
    exists fs', f. split_and!; eauto.
  - assert (open fs (path_of st d) = (fs, None)) as ->.
    { unfold open. rewrite no_open_error, resolve_plain by done.
      destruct (nodes fs !! path_of st d) as [n|] eqn:Hn; [by contradict Hp; right|].
      rewrite decide_False; [done|]. intros [? _]. apply Hp. by left. }
    rewrite Hq. unfold create_dir_all. rewrite no_dir_error.
    set (fs1 := {| nodes := _; dirs := _ |}).
    assert (usable st fs1) as Hu1.
    { intros d' Hd'. destruct (Hu d' Hd') as (? & ? & q' & ? & ?). cbn. split_and!; try done; eauto.
      apply not_elem_of_union. split; [|done]. rewrite elem_of_singleton. eauto. }
    destruct (open_ok fs1 (path_of st d)) as (fs' & f & -> & Hds & Hf & Hg); try done.
    { destruct Hok. by split. }
    { apply no_open_error. }
    { apply Hu1, Hd. }
    { left. rewrite Hq. cbn. set_solver. }
    exists fs', f. split_and!; eauto. destruct Hg. by split.
Qed.

(** A write appends to the one path of its file. *)
Lemma file_write_text fs p f buf :
  fs_ok fs -> nodes fs !! p = Some (Regular f) ->
  exists n, (file_write fs f buf).2 = n /\ nodes (file_write fs f buf).1 = nodes fs /\
    dirs (file_write fs f buf).1 = dirs fs /\ fs_ok (file_write fs f buf).1 /\
    forall q, text (file_write fs f buf).1 q =
      (text fs q ++ if decide (q = p) then str_take (default O n) buf else "")%string.
Proof.
  intros Hok Hp. unfold file_write.
  destruct (accepts fs f buf) as [n|]; eexists; cbn; split_and!; try done.
  - destruct Hok. by split.
  - intros q. unfold text at 1. cbn. case_decide as Hq.
    + subst. unfold text. rewrite Hp. unfold contents at 1. cbn. by rewrite lookup_insert_eq.
    + rewrite append_nil_r. unfold text. destruct (nodes fs !! q) as [[i|]|] eqn:Hi; try done.
      unfold contents. cbn. rewrite lookup_insert_ne; [done|]. intros ->.
      by apply Hq, (inode_inj _ Hok q p i).
  - intros q. case_decide; [|by rewrite append_nil_r]. destruct buf; by rewrite append_nil_r.
Qed.

(** ** What the appender does

    The file of a write is that of the latest instant that the appender has seen: a clock
    that goes back does not reopen a file. *)

Definition later (r : RotationKind) (m now : OffsetDateTime) : OffsetDateTime :=
  if decide (r = Never) then m
  else if unix_timestamp m <=? unix_timestamp now then now else m.

Fixpoint logged (st : Inner) (m : OffsetDateTime) (ws : list (OffsetDateTime * string))
    (rs : list (option nat)) (p : string) : string :=
  match ws, rs with
  | (now, buf) :: ws, r :: rs =>
      let m := later (rotation st) m now in
      ((if decide (p = path_of st m) then str_take (default O r) buf else "") ++
       logged st m ws rs p)%string
  | _, _ => ""
  end.

Record appender_ok (st : Inner) (m : OffsetDateTime) (app : RollingFileAppender) (fs : Fs) :
    Prop := {
  ok_state : state app = with_next_date
    (if decide (rotation st = Never) then 0
     else period_start (rotation st) (unix_timestamp m) + period (rotation st)) st;
  ok_domain : in_domain (rotation st) m;
  ok_file : nodes fs !! path_of st m = Some (Regular (writer app));
  ok_fs : fs_ok fs;
  ok_usable : usable st fs;
}.

(** The rollover of a write. *)
Lemma refresh_ok debug st now n f fs :
  formatted st -> max_files st = None -> log_latest_symlink_name st = None ->
  in_domain (rotation st) now -> fs_ok fs -> usable st fs ->
  exists fs' f', refresh_writer debug (with_next_date n st) now f fs = Done (fs', f') /\
    nodes fs' !! path_of st now = Some (Regular f') /\ grows fs fs' /\ usable st fs'.
Proof.
  intros Hf Hmax Hsym Hd Hok Hu. destruct (join_date_ok st now Hf Hd) as [name Hname].
  destruct (create_writer_ok st now name fs) as (fs' & f' & Hc & ? & ? & ?); try done.
  exists fs', f'. split; [|done]. unfold refresh_writer. rewrite join_date_with_next, Hname.
  cbn. rewrite Hmax. cbn. rewrite Hsym. by rewrite Hc.
Qed.

Lemma later_same_period r m now :
  r <> Never -> in_domain r m ->
  unix_timestamp now < period_start r (unix_timestamp m) + period r ->
  period_start r (unix_timestamp (later r m now)) = period_start r (unix_timestamp m).
Proof.
  intros Hr Hm Hnow. unfold later. rewrite decide_False by done.
  destruct (Z.leb_spec (unix_timestamp m) (unix_timestamp now)); [|done].
  apply period_start_same; [done|]. pose proof (period_bounds r (unix_timestamp m) Hr). lia.
Qed.

Lemma should_rollover_ok st m now :
  rotation st <> Never -> in_domain (rotation st) m -> in_domain (rotation st) now ->
  let next := period_start (rotation st) (unix_timestamp m) + period (rotation st) in
  should_rollover (with_next_date next st) now =
    if next <=? unix_timestamp now then Some next else None.
Proof.
  intros Hr Hm Hnow next. unfold should_rollover. cbn.
  pose proof (period_bounds (rotation st) (unix_timestamp m) Hr) as Hb. fold next in Hb.
  unfold in_domain, MAX_TIMESTAMP in *.
  destruct (Z.eqb_spec next 0); [lia|]. rewrite as_u_fits; [done|].
  assert (0 <= period (rotation st)) by by destruct (rotation st). lia.
Qed.

(** A write when nothing rolls over. *)
Lemma write_append debug st m app now buf fs :
  appender_ok st m app fs -> in_domain (rotation st) (later (rotation st) m now) ->
  should_rollover (state app) now = None ->
  path_of st (later (rotation st) m now) = path_of st m ->
  (rotation st <> Never ->
   period_start (rotation st) (unix_timestamp (later (rotation st) m now)) =
   period_start (rotation st) (unix_timestamp m)) ->
  exists app' fs' n, write debug app now buf fs = Done (app', fs', n) /\
    appender_ok st (later (rotation st) m now) app' fs' /\
    forall p, text fs' p =
      (text fs p ++ if decide (p = path_of st (later (rotation st) m now))
                    then str_take (default O n) buf else "")%string.
Proof.
  intros Ha Hl Hs Hp Hst. unfold write. rewrite Hs. cbn.
  destruct Ha as [H1 H2 H3 H4 H5].
  destruct (file_write_text fs (path_of st m) (writer app) buf H4 H3)
    as (n & Hn & Hnodes & Hdirs & Hok & Htext).
  destruct (file_write fs (writer app) buf) as [fs' n']. cbn in *. subst n'.
  exists app, fs', n. split_and!; [done| |by rewrite Hp].
  split; [|done|by rewrite Hp, Hnodes|done|].
  - rewrite H1. case_decide; [done|]. by rewrite Hst.
  - intros d Hd. rewrite Hnodes, Hdirs. by apply H5.
Qed.

Lemma write_ok debug st m app now buf fs :
  formatted st -> max_files st = None -> log_latest_symlink_name st = None ->
  appender_ok st m app fs -> in_domain (rotation st) now ->
  exists app' fs' n, write debug app now buf fs = Done (app', fs', n) /\
    appender_ok st (later (rotation st) m now) app' fs' /\
    forall p, text fs' p =
      (text fs p ++ if decide (p = path_of st (later (rotation st) m now))
                    then str_take (default O n) buf else "")%string.
Proof.
  intros Hf Hmax Hsym Ha Hnow. pose proof Ha as [H1 H2 H3 H4 H5].
  assert (in_domain (rotation st) (later (rotation st) m now)) as Hl.
  { unfold later. by repeat case_match. }
  destruct (decide (rotation st = Never)) as [Hr|Hr].
  { apply write_append; try done; [by rewrite H1|].
    unfold later. by rewrite decide_True. }
  set (next := period_start (rotation st) (unix_timestamp m) + period (rotation st)) in *.
  pose proof (should_rollover_ok st m now Hr H2 Hnow) as Hs. fold next in Hs. cbn zeta in Hs.
  rewrite <- H1 in Hs. destruct (Z.leb_spec next (unix_timestamp now)) as [Hle|Hlt].
  - assert (later (rotation st) m now = now) as Hlater.
    { unfold later. rewrite decide_False by done.
      pose proof (period_bounds (rotation st) (unix_timestamp m) Hr).
      destruct (Z.leb_spec (unix_timestamp m) (unix_timestamp now)); [done|lia]. }
    rewrite Hlater in *. unfold write. rewrite Hs. cbn [mbind outcome_bind].
    unfold advance_date. rewrite H1. cbn [rotation with_next_date next_date].
    rewrite next_timestamp_ok, decide_False, Z.eqb_refl by done. cbn [mbind outcome_bind].
    assert ((if debug then assert true else Done tt) = Done tt) as -> by by destruct debug.
    cbn [mbind outcome_bind].
    set (next' := _ + _).
    destruct (refresh_ok debug st now next' (writer app) fs) as (fs1 & f & Href & Hf1 & Hg & Hu);
      try done.
    change (with_next_date next' (with_next_date next st)) with (with_next_date next' st).
    rewrite Href. cbn [mbind outcome_bind state writer].
    destruct (file_write_text fs1 (path_of st now) f buf (grows_ok _ _ Hg) Hf1)
      as (n & Hn & Hnodes & Hdirs & Hok & Htext).
    destruct (file_write fs1 f buf) as [fs' n']. cbn in *. subst n'.
    eexists _, fs', n. split_and!; [done| |].
    + split; cbn; [by rewrite decide_False|done|by rewrite Hnodes|done|].
      intros d Hd. rewrite Hnodes, Hdirs. by apply Hu.
    + intros p. by rewrite Htext, (grows_text _ _ Hg).
  - pose proof (later_same_period (rotation st) m now Hr H2 Hlt) as Hp.
    apply write_append; try done. unfold path_of.
    by rewrite (join_date_period st _ m).
Qed.

Lemma write_all_ok debug st m app ws fs :
  formatted st -> max_files st = None -> log_latest_symlink_name st = None ->
  appender_ok st m app fs -> Forall (fun w => in_domain (rotation st) w.1) ws ->
  exists app' fs' rs, write_all debug app ws fs = Done (app', fs', rs) /\
    length rs = length ws /\
    forall p, text fs' p = (text fs p ++ logged st m ws rs p)%string.
Proof.
  intros Hf Hmax Hsym. revert m app fs.
  induction ws as [|[now buf] ws IH]; intros m app fs Ha Hws.
  { exists app, fs, []. split_and!; try done. intros p. by rewrite append_nil_r. }
  apply Forall_cons in Hws as [Hnow Hws]. cbn.
  destruct (write_ok debug st m app now buf fs) as (app1 & fs1 & n & -> & Ha1 & Ht1); try done.
  cbn. destruct (IH (later (rotation st) m now) app1 fs1) as (app2 & fs2 & rs & -> & Hl & Ht2); try done.
  exists app2, fs2, (n :: rs). split_and!; [done|cbn; by rewrite Hl|].
  intros p. by rewrite Ht2, Ht1, append_assoc.
Qed.

(** The state of a new appender, but for its next date. *)
Definition config (b : Builder.Builder) (directory : string) (f : FormatItems) : Inner :=
  {| log_directory := directory;
     log_filename_prefix := Builder.prefix b; log_filename_suffix := Builder.suffix b;
     log_latest_symlink_name := Builder.latest_symlink b; date_format := f;
     rotation := Builder.rotation b; next_date := 0; max_files := Builder.max_files b |}.

Lemma from_builder_ok debug b directory f now0 fs :
  Rotation.date_format (Builder.rotation b) = Done f ->
  Builder.max_files b = None -> Builder.latest_symlink b = None ->
  in_domain (Builder.rotation b) now0 -> fs_ok fs -> usable (config b directory f) fs ->
  exists app fs1,
    from_builder debug b directory now0 fs = Done (fs1, Ok app) /\
    appender_ok (config b directory f) now0 app fs1 /\ grows fs fs1.
Proof.
  intros Hf Hmax Hsym Hd Hok Hu. set (st := config b directory f) in *.
  destruct (join_date_ok st now0 Hf Hd) as [name Hname].
  destruct (create_writer_ok st now0 name fs) as (fs1 & w & Hc & Hw & Hg & Hu1); try done.
  set (app := {| state := with_next_date
    (if decide (rotation st = Never) then 0
     else period_start (rotation st) (unix_timestamp now0) + period (rotation st)) st;
    writer := w |}).
  exists app, fs1. split_and!; [|split; try done; by apply grows_ok in Hg|done].
  unfold from_builder, new. rewrite Hf. cbn [mbind outcome_bind].
  rewrite next_timestamp_ok by done. cbn [mbind outcome_bind]. rewrite Hmax.
  cbn [mbind outcome_bind]. set (n := if decide _ then _ else _).
  match goal with |- context [join_date ?s now0] =>
    change (join_date s now0) with (join_date st now0) end.
  rewrite Hname. cbn [mbind outcome_bind]. rewrite Hsym. cbn in Hc. rewrite Hc.
  cbn. subst app st. unfold config, with_next_date. cbn. by rewrite Hsym, Hmax.
Qed.

(** C20: an appender without a limit of files and without a link to the latest file, that is
    built on a file system where no operation fails, and any sequence of writes through it,
    never panic; afterwards each path holds what it held followed by the bytes accepted by
    exactly those writes whose
    file it is, in their order: the file of a write is named by the period of the latest
    instant seen so far, so no write is lost, repeated or put in another period's file,
    nothing already written is truncated, and a clock that goes back does not reopen the
    file of an earlier period. *)
Theorem rolling_refines debug b directory f now0 ws fs :
  Rotation.date_format (Builder.rotation b) = Done f ->
  Builder.max_files b = None -> Builder.latest_symlink b = None ->
  in_domain (Builder.rotation b) now0 ->
  Forall (fun w => in_domain (Builder.rotation b) w.1) ws ->
  fs_ok fs -> usable (config b directory f) fs ->
  exists app fs1 app' fs' rs,
    from_builder debug b directory now0 fs = Done (fs1, Ok app) /\
    write_all debug app ws fs1 = Done (app', fs', rs) /\
    length rs = length ws /\
    forall p, text fs' p = (text fs p ++ logged (config b directory f) now0 ws rs p)%string.
Proof.
  intros Hf Hmax Hsym Hd Hws Hok Hu.
  destruct (from_builder_ok debug b directory f now0 fs) as (app & fs1 & Hnew & Ha & Hg); try done.
  destruct (write_all_ok debug (config b directory f) now0 app ws fs1)
    as (app' & fs' & rs & Hall & Hl & Ht); try done.
  exists app, fs1, app', fs', rs. split_and!; try done.
  intros p. by rewrite Ht, (grows_text _ _ Hg).
Qed.

End rolling.

(** ** An appender on the file system in memory *)

#[local] Existing Instances Utc.utc Utc.utc_laws MemIo.mem.

#[export] Instance mem_no_errors : NoErrors (I := MemIo.mem).
Proof. by split. Qed.

Lemma show_no_sep n : no_char "/"%char (show n) = true.
Proof.
  unfold show. apply no_char_pretty_N. intros d. unfold pretty_N_char. by repeat case_match.
Qed.

Lemma pad_no_sep w n : no_char "/"%char (pad w n) = true.
Proof.
  assert (forall k, no_char "/"%char (zeros k) = true) as Hz.
  { unfold zeros. intros k. induction k as [|[|k] IH]; [done|done|].
    cbn in *. exact IH. }
  unfold pad. case_match; rewrite !no_char_app, ?Hz, !show_no_sep; done.
Qed.

Lemma utc_format_no_sep d f s : Utc.format d f = Some s -> no_char "/"%char s = true.
Proof.
  unfold Utc.format. intros [= <-]. case_match; [|done].
  destruct f; rewrite !no_char_app, !pad_no_sep; done.
Qed.

(** Log files [log/app.<hour>]. *)
Definition sample_builder : Builder.Builder :=
  Builder.call (Builder.call Builder.new (Builder.Rotation Hourly)) (Builder.FilenamePrefix "app").

Definition sample_config : Inner.Inner (T := Utc.utc) :=
  config sample_builder "log" (Utc.ToHour : @FormatItems Utc.utc).

Definition empty_fs : Fs := {| nodes := ∅; dirs := {["log"]}; data := ∅; LogFiles.fresh := 0 |}.

Lemma sample_usable :
  usable sample_config empty_fs.
Proof.
  intros d Hd. assert (forall d, in_domain Hourly d ->
    exists s, path_of sample_config d
      = ("log/app." ++ s)%string /\ no_char "/"%char s = true) as Hp.
  { intros e He. unfold path_of, join_date. cbn -[round_date Utc.format].
    unfold in_domain in He. cbn in He.
    destruct (round_date_start (T := Utc.utc) Hourly e) as (e' & -> & _); [done|cbn; lia|].
    cbn -[Utc.format]. destruct (Utc.format e' Utc.ToHour) as [s|] eqn:Hs; [|done].
    exists s. split; [done|by eapply utc_format_no_sep]. }
  destruct (Hp d Hd) as (s & -> & Hs). split_and!.
  - cbn. intros H%elem_of_singleton. done.
  - done.
  - assert (forall s, no_char "/"%char s = true -> last_sep s = None) as Hl.
    { clear. induction s as [|c s IH]; cbn; [done|]. intros [Hc Hs]%andb_true_iff.
      rewrite IH by done. by destruct (Ascii.eqb c "/"). }
    exists "log". split; [unfold parent, String.append; cbn; by rewrite (Hl s Hs)|].
    intros d' Hd'. by destruct (Hp d' Hd') as (s' & -> & _).
Qed.

(** Writes at 10:01, 11:01, and 10:02 again after the clock went back. *)
Definition sample_writes : list (Z * string) :=
  [(1580551260, "a"); (1580554860, "b"); (1580551320, "c")].

Definition final_files : outcome (list (string * string)) :=
  '(fs, r) ← from_builder (T := Utc.utc) (I := MemIo.mem) true sample_builder "log" 1580551260
               empty_fs;
  match r with
  | Err _ => Panic
  | Ok app =>
      '(_, fs, _) ← write_all (T := Utc.utc) (I := MemIo.mem) true app sample_writes fs;
      Done ((fun p => (p, text fs p)) <$> (map_to_list (nodes fs)).*1)
  end.

Example sample_final :
  final_files = Done [("log/app.2020-02-01-11", "bc"); ("log/app.2020-02-01-10", "a")].
Proof. vm_compute. reflexivity. Qed.

Lemma rolling_refines_witness :
  exists app fs1 app' fs' rs,
    from_builder (T := Utc.utc) (I := MemIo.mem) true sample_builder "log" 1580551260 empty_fs =
      Done (fs1, Ok app) /\
    write_all (T := Utc.utc) (I := MemIo.mem) true app sample_writes fs1 = Done (app', fs', rs) /\
    length rs = 3%nat /\
    forall p, text fs' p = (text empty_fs p ++
      logged sample_config 1580551260 sample_writes rs p)%string.
Proof.
  apply (rolling_refines (T := Utc.utc) (I := MemIo.mem) true sample_builder "log" Utc.ToHour
    1580551260 sample_writes empty_fs).
  - reflexivity.
  - reflexivity.
  - reflexivity.
  - unfold in_domain, MAX_TIMESTAMP. cbn. lia.
  - unfold in_domain, MAX_TIMESTAMP, sample_writes. repeat constructor; cbn; lia.
  - split; done.
  - apply sample_usable.
Defined.
