(* ===== verification/RollingThreads.v ===== *)
(** * RollingThreads: concurrent use of a rolling appender

    [make_writer] of [tracing-appender/src/rolling.rs] called by several threads: the load
    of the next date, the compare-and-exchange, the refresh under the write lock and the
    acquisition of the read lock are the atomic steps, interleaved in any order. *)

From S2P Require Import Prelude.
From S2P Require Import Str.
From S2P Require Import Ints.
From S2P Require Import Rotation.
From S2P Require Import LogFiles.
From S2P Require Import Rolling.

Local Open Scope Z_scope.

Import Inner.

Section threads.
Context `{T : TimeCrate} `{I : Io}.

(** Where a thread is in [make_writer]: before it, before the compare-and-exchange, before
    the refresh, before [self.writer.read()], and holding a [RollingWriter]. *)
Inductive Pc :=
  | Idle
  | Advance (now : OffsetDateTime) (current : Z)
  | Refresh (now : OffsetDateTime)
  | Lock
  | Guard.

Record Sys := {
  app : RollingFileAppender;
  fs : Fs;
  threads : list Pc;
  (** the exchanges that succeeded, the number of refreshes, and what was written *)
  rolled : list (Z * Z);
  refreshed : nat;
  written : list (File * string);
}.

Definition start (n : nat) (app : RollingFileAppender) (fs : Fs) : Sys :=
  {| app := app; fs := fs; threads := replicate n Idle; rolled := []; refreshed := 0;
     written := [] |}.

(** What a thread does next: call [make_writer] at a time, go on in it, write through the
    writer, or drop it. *)
Inductive Action := Call (now : OffsetDateTime) | Go | Write (buf : string) | Drop.

Definition with_thread (t : nat) (pc : Pc) (s : Sys) : Sys :=
  {| app := app s; fs := fs s; threads := <[t := pc]> (threads s); rolled := rolled s;
     refreshed := refreshed s; written := written s |}.
Definition with_app (a : RollingFileAppender) (f : Fs) (s : Sys) : Sys :=
  {| app := a; fs := f; threads := threads s; rolled := rolled s;
     refreshed := refreshed s; written := written s |}.

Definition is_guard (pc : Pc) : bool := match pc with Guard => true | _ => false end.

(** One step of the thread [t]; a thread that cannot make the step waits. *)
Definition step (debug : bool) (s : Sys) (t : nat) (a : Action) : outcome Sys :=
  match threads s !! t, a with
  | Some Idle, Call now =>
      Done (with_thread t (match should_rollover (state (app s)) now with
                           | Some current_time => Advance now current_time
                           | None => Lock
                           end) s)
  | Some (Advance now current_time), Go =>
      '(st, did_cas) ← advance_date (state (app s)) now current_time;
      Done (if did_cas : bool then
              {| app := {| state := st; writer := writer (app s) |}; fs := fs s;
                 threads := <[t := Refresh now]> (threads s);
                 rolled := rolled s ++ [(current_time, next_date st)];
                 refreshed := refreshed s; written := written s |}
            else with_thread t Lock s)
  | Some (Refresh now), Go =>
      if existsb is_guard (threads s) then Done s
      else
        '(f, file) ← refresh_writer debug (state (app s)) now (writer (app s)) (fs s);
        Done {| app := {| state := state (app s); writer := file |}; fs := f;
                threads := <[t := Lock]> (threads s); rolled := rolled s;
                refreshed := S (refreshed s); written := written s |}
  | Some Lock, Go => Done (with_thread t Guard s)
  | Some Guard, Write buf =>
      let '(f, n) := file_write (fs s) (writer (app s)) buf in
      Done {| app := app s; fs := f; threads := threads s; rolled := rolled s;
              refreshed := refreshed s;
              written := written s ++ [(writer (app s), str_take (default O n) buf)] |}
  | Some Guard, Drop => Done (with_thread t Idle s)
  | _, _ => Done s
  end.

Fixpoint run (debug : bool) (s : Sys) (trace : list (nat * Action)) : outcome Sys :=
  match trace with
  | [] => Done s
  | (t, a) :: trace => s ← step debug s t a; run debug s trace
  end.

(** ** Rollovers *)

(** Exchanges from [a] to [b], each from the value that the one before has stored to a
    larger one. *)
Fixpoint chain (a : Z) (l : list (Z * Z)) (b : Z) : Prop :=
  match l with
  | [] => a = b
  | (current, next) :: l => current = a /\ current < next /\ chain next l b
  end.

Lemma chain_snoc a l b c : chain a l b -> b < c -> chain a (l ++ [(b, c)]) c.
Proof.
  revert a. induction l as [|[x y] l IH]; intros a; cbn; [by intros ->|].
  intros (? & ? & ?) ?. eauto.
Qed.

Lemma chain_le a l b : chain a l b -> a <= b.
Proof.
  revert a. induction l as [|[x y] l IH]; intros a; cbn; [lia|].
  intros (-> & Hlt & Hc%IH). lia.
Qed.

Lemma chain_elem a l b x y : chain a l b -> (x, y) ∈ l -> a <= x /\ x < y /\ y <= b.
Proof.
  revert a. induction l as [|[x' y'] l IH]; intros a; [by intros _ ?%elem_of_nil|].
  cbn. intros (-> & Hlt & Hc) Hin. rewrite elem_of_cons in Hin. destruct Hin as [Heq|Hin].
  - injection Heq as -> ->. apply chain_le in Hc. lia.
  - destruct (IH y' Hc Hin) as (? & ? & ?). lia.
Qed.

(** No value is exchanged twice. *)
Lemma chain_nodup a l b : chain a l b -> NoDup l.*1.
Proof.
  revert a. induction l as [|[x y] l IH]; intros a; [by constructor|].
  intros (-> & Hlt & Hc). constructor; [|by eapply IH].
  intros ([x' y'] & Hx & Hin)%list_elem_of_fmap. cbn in Hx. subst.
  destruct (chain_elem _ _ _ _ _ Hc Hin). lia.
Qed.

Definition refreshing (pc : Pc) : nat := match pc with Refresh _ => 1 | _ => 0 end.
Definition pending (l : list Pc) : nat := sum_list_with refreshing l.
#[local] Arguments pending : simpl never.

Lemma pending_insert l t x y :
  l !! t = Some x -> (pending (<[t := y]> l) + refreshing x = pending l + refreshing y)%nat.
Proof. apply sum_list_with_insert. Qed.

Lemma pending_idle n : pending (replicate n Idle) = O.
Proof. induction n; [done|]. by cbn. Qed.

(** ** The invariant *)

(** What was written to the file that a path names. *)
Definition flow (node : option Node) (ws : list (File * string)) : string :=
  match node with
  | Some (Regular i) =>
      foldr (fun w acc => ((if decide (w.1 = i) then w.2 else "") ++ acc)%string) "" ws
  | _ => ""
  end.

Lemma flow_snoc node ws f b :
  flow node (ws ++ [(f, b)]) =
    (flow node ws ++ if decide (node = Some (Regular f)) then b else "")%string.
Proof.
  destruct node as [[i|t]|]; [|by rewrite decide_False..]. cbn.
  induction ws as [|w ws IH]; cbn.
  - rewrite append_nil_r. destruct (decide (f = i)) as [->|].
    + by rewrite decide_True.
    + rewrite decide_False; [done|congruence].
  - by rewrite IH, append_assoc.
Qed.

Lemma flow_nil i ws : Forall (fun w => w.1 <> i) ws -> flow (Some (Regular i)) ws = "".
Proof.
  induction 1 as [|w ws Hw _ IH]; [done|]. cbn in *. rewrite IH. by rewrite decide_False.
Qed.

Context `{!TimeLaws T} `{!NoErrors (I := I)}.

Record sys_ok (st : Inner) (next0 : Z) (fs0 : Fs) (s : Sys) : Prop := {
  sys_state : state (app s) = with_next_date (next_date (state (app s))) st;
  sys_chain : chain next0 (rolled s) (next_date (state (app s)));
  sys_never : rotation st = Never -> next_date (state (app s)) = 0;
  sys_pending : (refreshed s + pending (threads s) = length (rolled s))%nat;
  sys_threads t pc :
    threads s !! t = Some pc ->
    match pc with
    | Advance now current =>
        in_domain (rotation st) now /\ rotation st <> Never /\ current <= unix_timestamp now
    | Refresh now => in_domain (rotation st) now
    | _ => True
    end;
  sys_fs : fs_ok (fs s);
  sys_usable : usable st (fs s);
  sys_file : exists d, in_domain (rotation st) d /\
    nodes (fs s) !! path_of st d = Some (Regular (writer (app s)));
  sys_text p : text (fs s) p = (text fs0 p ++ flow (nodes (fs s) !! p) (written s))%string;
  sys_written : Forall (fun w => exists d, in_domain (rotation st) d /\
    nodes (fs s) !! path_of st d = Some (Regular w.1)) (written s);
}.

(** A step that moves one thread only. *)
Lemma with_thread_ok st next0 fs0 s t x y :
  sys_ok st next0 fs0 s -> threads s !! t = Some x -> refreshing x = refreshing y ->
  match y with
  | Advance now current =>
      in_domain (rotation st) now /\ rotation st <> Never /\ current <= unix_timestamp now
  | Refresh now => in_domain (rotation st) now
  | _ => True
  end ->
  sys_ok st next0 fs0 (with_thread t y s).
Proof.
  intros [] Hx Hr Hy. split; cbn; try done.
  - pose proof (pending_insert (threads s) t x y Hx). lia.
  - intros u pc [[-> [<- _]]|[_ Hu]]%list_lookup_insert_Some; [done|]. by eapply sys_threads0.
Qed.

(** The file system of a refresh. *)
Lemma flow_grows st fs fs' ws p :
  fs_ok fs -> grows fs fs' ->
  Forall (fun w : File * string => exists d, in_domain (rotation st) d /\
    nodes fs !! path_of st d = Some (Regular w.1)) ws ->
  flow (nodes fs' !! p) ws = flow (nodes fs !! p) ws.
Proof.
  intros Hok Hg Hws.
  destruct (nodes fs !! p) as [[i|t]|] eqn:Hp; [by rewrite (grows_nodes _ _ Hg p i)|..];
    (destruct (nodes fs' !! p) as [[j|t']|] eqn:Hp'; try done; cbn [flow];
     apply flow_nil; eapply Forall_impl; [exact Hws|];
     intros w (d & _ & Hd) <-; pose proof (grows_nodes _ _ Hg _ _ Hd) as Hd';
     pose proof (inode_inj _ (grows_ok _ _ Hg) _ _ _ Hp' Hd') as ->; congruence).
Qed.

Lemma roll_step_ok debug st next0 fs0 s t a :
  formatted st -> max_files st = None -> log_latest_symlink_name st = None ->
  sys_ok st next0 fs0 s ->
  match a with Call now => in_domain (rotation st) now | _ => True end ->
  exists s', step debug s t a = Done s' /\ sys_ok st next0 fs0 s'.
Proof.
  intros Hf Hmax Hsym Hs Ha. pose proof Hs as [H1 H2 H3 H4 H5 H6 H7 H8 H9 H10].
  unfold step. destruct (threads s !! t) as [pc|] eqn:Ht; [|by eexists].
  pose proof (H5 t pc Ht) as Hpc.
  destruct pc as [|now current|now| |], a as [now'| |buf|]; try by eexists.
  - eexists; split; [done|]. eapply with_thread_ok; try done; [by case_match|].
    destruct (should_rollover (state (app s)) now') as [c|] eqn:Hc; [|done].
    unfold should_rollover in Hc. destruct (Z.eqb_spec (next_date (state (app s))) 0); [done|].
    case_match eqn:Hle; [|done]. injection Hc as <-. apply Z.leb_le in Hle.
    assert (0 <= period (rotation st)) by by destruct (rotation st).
    unfold in_domain, MAX_TIMESTAMP in *. rewrite as_u_fits in Hle by lia.
    split_and!; [lia..| |done]. intros Hr. by apply H3 in Hr.
  - destruct Hpc as (Hnow & Hr & Hcur). unfold advance_date.
    rewrite H1. cbn [rotation with_next_date next_date].
    rewrite next_timestamp_ok, decide_False by done. cbn [mbind outcome_bind].
    destruct (Z.eqb_spec (next_date (state (app s))) current) as [Heq|]; cbn.
    + eexists; split; [done|]. split; cbn; try done.
      * apply chain_snoc; [by rewrite <- Heq|].
        pose proof (period_bounds (rotation st) (unix_timestamp now) Hr). lia.
      * rewrite length_app. cbn. pose proof (pending_insert (threads s) t _ (Refresh now) Ht) as Hp.
        cbn in Hp. lia.
      * intros u pc [[-> [<- _]]|[_ Hu]]%list_lookup_insert_Some; [done|]. by eapply H5.
    + eexists; split; [done|]. by eapply with_thread_ok.
  - case_match; [by eexists|].
    destruct (refresh_ok debug st now (next_date (state (app s))) (writer (app s)) (fs s))
      as (fs' & f' & Href & Hn & Hg & Hu); try done.
    rewrite H1. rewrite Href. cbn. eexists; split; [done|]. split; cbn; try done.
    + pose proof (pending_insert (threads s) t _ Lock Ht) as Hp. cbn in Hp. lia.
    + intros u pc [[-> [<- _]]|[_ Hu']]%list_lookup_insert_Some; [done|]. by eapply H5.
    + by apply grows_ok in Hg.
    + by exists now.
    + intros p. rewrite (grows_text _ _ Hg), H9. f_equal. symmetry. by eapply flow_grows.
    + eapply Forall_impl; [exact H10|]. intros w (d & ? & ?). exists d. split; [done|].
      by apply (grows_nodes _ _ Hg).
  - eexists; split; [done|]. by eapply with_thread_ok.
  - destruct H8 as (d & Hd & Hw).
    destruct (file_write_text (fs s) (path_of st d) (writer (app s)) buf H6 Hw)
      as (n & Hn & Hnodes & Hdirs & Hok & Htext).
    destruct (file_write (fs s) (writer (app s)) buf) as [f n'] eqn:Hfw. cbn in Hn, Hnodes, Hdirs, Hok, Htext.
    subst n'. eexists; split; [done|]. split; cbn; try done.
    + intros e He. rewrite Hnodes, Hdirs. by apply H7.
    + exists d. by rewrite Hnodes.
    + intros p. rewrite Htext, H9, Hnodes, flow_snoc, append_assoc. do 2 f_equal.
      destruct (decide (p = path_of st d)) as [->|Hp]; [by rewrite decide_True|].
      rewrite decide_False; [done|]. intros Hp'. by apply Hp, (inode_inj _ H6 _ _ _ Hp' Hw).
    + apply Forall_app. split; [|constructor; [|done]].
      * eapply Forall_impl; [exact H10|]. intros w (e & ? & ?). exists e. by rewrite Hnodes.
      * exists d. by rewrite Hnodes.
  - eexists; split; [done|]. by eapply with_thread_ok.
Qed.

Lemma roll_run_ok debug st next0 fs0 s trace :
  formatted st -> max_files st = None -> log_latest_symlink_name st = None ->
  sys_ok st next0 fs0 s ->
  Forall (fun x => match x.2 with Call now => in_domain (rotation st) now | _ => True end) trace ->
  exists s', run debug s trace = Done s' /\ sys_ok st next0 fs0 s'.
Proof.
  intros Hf Hmax Hsym. revert s.
  induction trace as [|[t a] trace IH]; intros s Hs Htr; [by exists s|].
  apply Forall_cons in Htr as [Ha Htr]. cbn.
  destruct (roll_step_ok debug st next0 fs0 s t a) as (s' & -> & Hs'); try done. by apply IH.
Qed.

Lemma roll_start_ok st m a fs0 fs1 n :
  appender_ok st m a fs1 -> grows fs0 fs1 ->
  sys_ok st (next_date (state a)) fs0 (start n a fs1).
Proof.
  intros [H1 H2 H3 H4 H5] Hg. split; cbn; try done.
  - by rewrite H1.
  - intros Hr. rewrite H1. by rewrite decide_True.
  - by rewrite pending_idle.
  - intros t pc [-> _]%lookup_replicate. done.
  - by exists m.
  - intros p. rewrite (grows_text _ _ Hg). by destruct (nodes fs1 !! p) as [[]|];
      rewrite append_nil_r.
Qed.

(** While a thread holds a writer, the file is not replaced. *)
Lemma guard_keeps_file debug s t a s' u :
  threads s !! u = Some Guard -> step debug s t a = Done s' ->
  writer (app s') = writer (app s).
Proof.
  intros Hu. unfold step.
  destruct (threads s !! t) as [[|now current|now| |]|], a; try (by intros [= <-]).
  - destruct (advance_date _ _ _) as [[st []]|]; cbn; [by intros [= <-]..|done].
  - assert (existsb is_guard (threads s) = true) as ->; [|by intros [= <-]].
    apply existsb_exists. exists Guard. split; [|done].
    apply list_elem_of_In. by eapply list_elem_of_lookup_2.
  - destruct (file_write _ _ _). by intros [= <-].
Qed.

(** C22: an appender without a limit of files and without a link to the latest file, that is
    built where no operation on a file fails and its paths can be files: any number of
    threads that call [make_writer], write and drop their writers in any interleaving, with
    any clocks, never make the appender panic; the next dates that are
    exchanged successfully form a strictly increasing chain, so no boundary is rolled over
    by two threads; each successful exchange is matched by one refresh, done or still
    pending; no byte written through a writer is lost or moved: each path holds its
    original text followed by what was written to its file, in order, and only files of
    the appender are written; and the file does not change while a writer is held. *)
Theorem threads_roll_over_once debug b directory f now0 n trace fs0 :
  Rotation.date_format (Builder.rotation b) = Done f ->
  Builder.max_files b = None -> Builder.latest_symlink b = None ->
  in_domain (Builder.rotation b) now0 ->
  Forall (fun x => match x.2 with
                   | Call now => in_domain (Builder.rotation b) now
                   | _ => True
                   end) trace ->
  fs_ok fs0 -> usable (config b directory f) fs0 ->
  exists a fs1 s,
    from_builder debug b directory now0 fs0 = Done (fs1, Ok a) /\
    run debug (start n a fs1) trace = Done s /\
    chain (next_date (state a)) (rolled s) (next_date (state (app s))) /\
    NoDup (rolled s).*1 /\
    (refreshed s + pending (threads s) = length (rolled s))%nat /\
    (forall p, text (fs s) p = (text fs0 p ++ flow (nodes (fs s) !! p) (written s))%string) /\
    Forall (fun w => exists d, in_domain (Builder.rotation b) d /\
      nodes (fs s) !! path_of (config b directory f) d = Some (Regular w.1)) (written s) /\
    (forall t act s' u, threads s !! u = Some Guard -> step debug s t act = Done s' ->
      writer (app s') = writer (app s)).
Proof.
  intros Hf Hmax Hsym Hd Htr Hok Hu.
  destruct (from_builder_ok debug b directory f now0 fs0) as (a & fs1 & Hnew & Ha & Hg); try done.
  destruct (roll_run_ok debug (config b directory f) (next_date (state a)) fs0 (start n a fs1) trace)
    as (s & Hrun & Hs); try done; [by eapply roll_start_ok|].
  exists a, fs1, s. destruct Hs. split_and!; try done.
  - by eapply chain_nodup.
  - intros t act s' u. apply guard_keeps_file.
Qed.

End threads.

(** ** A refresh that comes late

    One thread crosses the boundary of an hour and waits for the write lock; an hour later
    another one crosses the next boundary and opens the newer file, before the first one
    gets the lock. *)

#[local] Existing Instances Utc.utc Utc.utc_laws MemIo.mem.

Definition late_trace : list (nat * Action) :=
  [(0%nat, Call (1580554860 : @OffsetDateTime Utc.utc)); (0%nat, Go);
   (1%nat, Call (1580558460 : @OffsetDateTime Utc.utc)); (1%nat, Go);
   (1%nat, Go); (1%nat, Go); (1%nat, Write "noon"); (1%nat, Drop);
   (0%nat, Go); (0%nat, Go); (0%nat, Drop);
   (1%nat, Call (1580558520 : @OffsetDateTime Utc.utc)); (1%nat, Go); (1%nat, Write "later");
   (1%nat, Drop)].

Definition late_files : outcome (list (string * string) * Z) :=
  '(fs1, r) ← from_builder true sample_builder "log" (1580551260 : @OffsetDateTime Utc.utc) empty_fs;
  match r with
  | Err _ => Panic
  | Ok a =>
      s ← run true (start 2 a fs1) late_trace;
      Done ((fun p => (p, text (fs s) p)) <$> (map_to_list (nodes (fs s))).*1,
            next_date (state (app s)))
  end.

(** A refresh that waits for the write lock while another thread rolls over to the
    following period puts the file of its own, older period back: here an event of 12:02 is
    written to the file of 11 o'clock, and the next rollover is due at 13:00 only. *)
Theorem late_refresh_reopens_old_file :
  late_files =
    Done ([("log/app.2020-02-01-11", "later"); ("log/app.2020-02-01-12", "noon");
           ("log/app.2020-02-01-10", "")], 1580562000).
Proof. vm_compute. reflexivity. Qed.

Lemma threads_roll_over_once_witness :
  exists a fs1 s,
    from_builder true sample_builder "log" (1580551260 : @OffsetDateTime Utc.utc) empty_fs =
      Done (fs1, Ok a) /\
    run true (start 2 a fs1) late_trace = Done s /\
    (refreshed s + pending (threads s) = length (rolled s))%nat.
Proof.
  destruct (threads_roll_over_once true sample_builder "log" (Utc.ToHour : @FormatItems Utc.utc)
    (1580551260 : @OffsetDateTime Utc.utc) 2 late_trace empty_fs)
    as (a & fs1 & s & H1 & H2 & _ & _ & H3 & _).
  - reflexivity.
  - reflexivity.
  - reflexivity.
  - unfold in_domain, MAX_TIMESTAMP. cbn. lia.
  - unfold in_domain, MAX_TIMESTAMP, late_trace. repeat constructor; cbn; lia.
  - split; done.
  - apply sample_usable.
  - exists a, fs1, s. exact (conj H1 (conj H2 H3)).
Defined.
