(* ===== verification/NonBlocking.v ===== *)
(** * NonBlocking: the background writer

    [tracing-appender/src/non_blocking.rs] and [worker.rs]: writers that put lines into a
    bounded channel, the worker thread that takes them out, and the guard whose drop asks
    the worker to stop.  The channel is that of the crate [crossbeam_channel], the class
    [Crossbeam]; the results of the writer under the worker are inputs of the model. *)

From S2P Require Import Prelude.
From S2P Require Import Str.

Local Open Scope Z_scope.

(** [enum Msg] *)
Inductive Msg := Line (buf : string) | Shutdown.

(** ** The channel *)

Inductive SendStatus := Sent | Full | SendDisconnected.
Inductive RecvStatus := Got (m : Msg) | Empty | RecvDisconnected.

(** What a bounded channel holds: its capacity, the messages, the number of senders, and
    whether its receiver is there. *)
Record Buffer := { cap : nat; msgs : list Msg; senders : nat; receiving : bool }.

(** A blocking [send] ([recv]) is a [try_send] ([try_recv]) that is retried as long as the
    channel is full (empty). *)
Class Crossbeam := {
  Chan : Type;
  bounded : nat -> Chan;
  try_send : Chan -> Msg -> Chan * SendStatus;
  try_recv : Chan -> Chan * RecvStatus;
  clone_sender : Chan -> Chan;
  drop_sender : Chan -> Chan;
  drop_receiver : Chan -> Chan;
}.

(** The documented behaviour, for a capacity that is not 0: first in, first out. *)
Class CrossbeamLaws (X : Crossbeam) := {
  buffer : Chan -> Buffer;
  bounded_ok n :
    (0 < n)%nat -> buffer (bounded n) = {| cap := n; msgs := []; senders := 1; receiving := true |};
  try_send_ok c m :
    (0 < cap (buffer c))%nat ->
    let b := buffer c in
    if receiving b then
      if (length (msgs b) <? cap b)%nat then
        (try_send c m).2 = Sent /\
        buffer (try_send c m).1 =
          {| cap := cap b; msgs := msgs b ++ [m]; senders := senders b; receiving := true |}
      else (try_send c m).2 = Full /\ buffer (try_send c m).1 = b
    else (try_send c m).2 = SendDisconnected /\ buffer (try_send c m).1 = b;
  try_recv_ok c :
    (0 < cap (buffer c))%nat ->
    let b := buffer c in
    match msgs b with
    | m :: ms =>
        (try_recv c).2 = Got m /\
        buffer (try_recv c).1 =
          {| cap := cap b; msgs := ms; senders := senders b; receiving := receiving b |}
    | [] =>
        (try_recv c).2 = (if (senders b =? 0)%nat then RecvDisconnected else Empty) /\
        buffer (try_recv c).1 = b
    end;
  clone_sender_ok c :
    buffer (clone_sender c) = {| cap := cap (buffer c); msgs := msgs (buffer c);
      senders := S (senders (buffer c)); receiving := receiving (buffer c) |};
  drop_sender_ok c :
    buffer (drop_sender c) = {| cap := cap (buffer c); msgs := msgs (buffer c);
      senders := pred (senders (buffer c)); receiving := receiving (buffer c) |};
  (** the messages are discarded *)
  drop_receiver_ok c :
    buffer (drop_receiver c) = {| cap := cap (buffer c); msgs := [];
      senders := senders (buffer c); receiving := false |};
}.

(** ** The builder *)

Definition DEFAULT_BUFFERED_LINES_LIMIT : Z := 128000.

Record NonBlockingBuilder := {
  buffered_lines_limit : Z;
  is_lossy : bool;
  thread_name : string;
}.
Definition default_builder : NonBlockingBuilder :=
  {| buffered_lines_limit := DEFAULT_BUFFERED_LINES_LIMIT; is_lossy := true;
     thread_name := "tracing-appender" |}.
Definition with_buffered_lines_limit (n : Z) (self : NonBlockingBuilder) : NonBlockingBuilder :=
  {| buffered_lines_limit := n; is_lossy := is_lossy self; thread_name := thread_name self |}.
Definition lossy (b : bool) (self : NonBlockingBuilder) : NonBlockingBuilder :=
  {| buffered_lines_limit := buffered_lines_limit self; is_lossy := b;
     thread_name := thread_name self |}.
Definition with_thread_name (n : string) (self : NonBlockingBuilder) : NonBlockingBuilder :=
  {| buffered_lines_limit := buffered_lines_limit self; is_lossy := is_lossy self;
     thread_name := n |}.

(** ** The threads *)

(** [enum WorkerState] *)
Inductive WorkerState := WEmpty | WDisconnected | WContinue | WShutdown.

(** A thread with a [NonBlocking]: between calls, in the blocking [send], in
    [incr_saturating] before its load and before a compare-and-exchange; its last result. *)
Inductive WriterPc :=
  | Ready (result : option (result nat unit))
  | Sending (buf : string)
  | IncrLoad (len : nat)
  | IncrCas (len : nat) (curr : Z)
  | Dropped.

(** The worker: in [recv], in [write_all] of a line, before [try_recv], in the [flush] of
    [work] with the state that [work] will return, in [shutdown.recv()], in the last
    [flush], and after its end. *)
Inductive WorkerPc :=
  | Recv
  | Writing (buf : string)
  | TryRecv
  | Flush (st : WorkerState)
  | WaitShutdown
  | FinalFlush
  | Stopped.

(** The guard: alive, in the two [send_timeout]s of its [drop], and dropped; [flushed] says
    that both succeeded. *)
Inductive GuardPc := Held | SendShutdown | SendUnit | GuardDropped (flushed : bool).

Section system.
Context `{X : Crossbeam}.

Record Sys := {
  channel : Chan;
  lossy_writers : bool;
  counter : Z;
  writers : list WriterPc;
  worker : WorkerPc;
  guard : GuardPc;
  (** the messages sent and received, the lines handed to the writer under the worker,
      how many of them its last successful flush covers, and the lines dropped *)
  sent : list Msg;
  taken : list Msg;
  wrote : list string;
  flushed : nat;
  lost : nat;
}.

(** [NonBlocking::create]: one sender for the guard, one for the returned writer. *)
Definition create (b : NonBlockingBuilder) : Sys :=
  {| channel := clone_sender (bounded (Z.to_nat (buffered_lines_limit b))); lossy_writers := is_lossy b;
     counter := 0; writers := [Ready None]; worker := Recv; guard := Held;
     sent := []; taken := []; wrote := []; flushed := 0; lost := 0 |}.

Definition with_channel (c : Chan) (s : Sys) : Sys :=
  {| channel := c; lossy_writers := lossy_writers s; counter := counter s; writers := writers s;
     worker := worker s; guard := guard s; sent := sent s; taken := taken s; wrote := wrote s;
     flushed := flushed s; lost := lost s |}.
Definition with_sent (c : Chan) (m : Msg) (s : Sys) : Sys :=
  {| channel := c; lossy_writers := lossy_writers s; counter := counter s; writers := writers s;
     worker := worker s; guard := guard s; sent := sent s ++ [m]; taken := taken s;
     wrote := wrote s; flushed := flushed s; lost := lost s |}.
Definition with_writer (i : nat) (pc : WriterPc) (s : Sys) : Sys :=
  {| channel := channel s; lossy_writers := lossy_writers s; counter := counter s;
     writers := <[i := pc]> (writers s); worker := worker s; guard := guard s; sent := sent s;
     taken := taken s; wrote := wrote s; flushed := flushed s; lost := lost s |}.
Definition with_guard (g : GuardPc) (s : Sys) : Sys :=
  {| channel := channel s; lossy_writers := lossy_writers s; counter := counter s;
     writers := writers s; worker := worker s; guard := g; sent := sent s;
     taken := taken s; wrote := wrote s; flushed := flushed s; lost := lost s |}.
Definition with_worker (w : WorkerPc) (s : Sys) : Sys :=
  {| channel := channel s; lossy_writers := lossy_writers s; counter := counter s;
     writers := writers s; worker := w; guard := guard s; sent := sent s;
     taken := taken s; wrote := wrote s; flushed := flushed s; lost := lost s |}.
Definition with_taken (c : Chan) (m : Msg) (s : Sys) : Sys :=
  {| channel := c; lossy_writers := lossy_writers s; counter := counter s;
     writers := writers s; worker := worker s; guard := guard s; sent := sent s;
     taken := taken s ++ [m]; wrote := wrote s; flushed := flushed s; lost := lost s |}.
Definition with_wrote (l : list string) (s : Sys) : Sys :=
  {| channel := channel s; lossy_writers := lossy_writers s; counter := counter s;
     writers := writers s; worker := worker s; guard := guard s; sent := sent s;
     taken := taken s; wrote := l; flushed := flushed s; lost := lost s |}.
Definition with_flushed (n : nat) (s : Sys) : Sys :=
  {| channel := channel s; lossy_writers := lossy_writers s; counter := counter s;
     writers := writers s; worker := worker s; guard := guard s; sent := sent s;
     taken := taken s; wrote := wrote s; flushed := n; lost := lost s |}.
Definition with_lost (s : Sys) : Sys :=
  {| channel := channel s; lossy_writers := lossy_writers s; counter := counter s;
     writers := writers s; worker := worker s; guard := guard s; sent := sent s;
     taken := taken s; wrote := wrote s; flushed := flushed s; lost := S (lost s) |}.
Definition with_counter (c : Z) (s : Sys) : Sys :=
  {| channel := channel s; lossy_writers := lossy_writers s; counter := c;
     writers := writers s; worker := worker s; guard := guard s; sent := sent s;
     taken := taken s; wrote := wrote s; flushed := flushed s; lost := lost s |}.

(** [<NonBlocking as io::Write>::write] up to where it may wait. *)
Definition write (i : nat) (buf : string) (s : Sys) : Sys :=
  match writers s !! i with
  | Some (Ready _) =>
      if lossy_writers s then
        match try_send (channel s) (Line buf) with
        | (c, Sent) => with_writer i (Ready (Some (Ok (str_len buf)))) (with_sent c (Line buf) s)
        | (c, _) => with_writer i (IncrLoad (str_len buf)) (with_lost (with_channel c s))
        end
      else with_writer i (Sending buf) s
  | _ => s
  end.

(** [ErrorCounter::incr_saturating]: the load, and one turn of the loop. *)
Definition incr_load (i len : nat) (s : Sys) : Sys :=
  if counter s =? U64.MAX then with_writer i (Ready (Some (Ok len))) s
  else with_writer i (IncrCas len (counter s)) s.
Definition incr_cas (i len : nat) (curr : Z) (s : Sys) : Sys :=
  let val := Z.min (curr + 1) U64.MAX in
  if counter s =? curr then with_writer i (Ready (Some (Ok len))) (with_counter val s)
  else with_writer i (IncrCas len (counter s)) s.

(** The rest of a [write]. *)
Definition write_step (i : nat) (s : Sys) : Sys :=
  match writers s !! i with
  | Some (Sending buf) =>
      match try_send (channel s) (Line buf) with
      | (c, Sent) => with_writer i (Ready (Some (Ok (str_len buf)))) (with_sent c (Line buf) s)
      | (c, Full) => with_channel c s
      | (c, SendDisconnected) => with_writer i (Ready (Some (Err tt))) (with_channel c s)
      end
  | Some (IncrLoad len) => incr_load i len s
  | Some (IncrCas len curr) => incr_cas i len curr s
  | _ => s
  end.

(** [MakeWriter::make_writer], which is [clone], and the drop of a [NonBlocking]. *)
Definition make_writer (i : nat) (s : Sys) : Sys :=
  match writers s !! i with
  | Some (Ready _) =>
      {| channel := clone_sender (channel s); lossy_writers := lossy_writers s;
         counter := counter s; writers := writers s ++ [Ready None]; worker := worker s;
         guard := guard s; sent := sent s; taken := taken s; wrote := wrote s;
         flushed := flushed s; lost := lost s |}
  | _ => s
  end.
Definition drop_writer (i : nat) (s : Sys) : Sys :=
  match writers s !! i with
  | Some (Ready _) => with_writer i Dropped (with_channel (drop_sender (channel s)) s)
  | _ => s
  end.

(** [<WorkerGuard as Drop>::drop], then the drop of its fields.  A [send_timeout] may time
    out ([timeout]); the second one, on a channel without capacity, succeeds when the
    worker is in its [recv]. *)
Definition finish_guard (flushed : bool) (s : Sys) : Sys :=
  with_guard (GuardDropped flushed) (with_channel (drop_sender (channel s)) s).
Definition guard_step (timeout : bool) (s : Sys) : Sys :=
  match guard s with
  | Held => with_guard SendShutdown s
  | SendShutdown =>
      if timeout then finish_guard false s
      else
        match try_send (channel s) Shutdown with
        | (c, Sent) => with_guard SendUnit (with_sent c Shutdown s)
        | (c, Full) => with_channel c s
        | (c, SendDisconnected) => finish_guard false (with_channel c s)
        end
  | SendUnit =>
      if timeout then finish_guard false s
      else
        match worker s with
        | WaitShutdown => finish_guard true (with_worker FinalFlush s)
        | Stopped => finish_guard false s
        | _ => s
        end
  | GuardDropped _ => s
  end.

(** [handle_recv], [handle_try_recv]: what the worker does with what it received. *)
Definition handle_recv (result : RecvStatus) : WorkerPc :=
  match result with
  | Got (Line msg) => Writing msg
  | Got Shutdown => Flush WShutdown
  | Empty => Recv
  | RecvDisconnected => Flush WDisconnected
  end.
Definition handle_try_recv (result : RecvStatus) : WorkerPc :=
  match result with
  | Got (Line msg) => Writing msg
  | Got Shutdown => Flush WShutdown
  | Empty => Flush WEmpty
  | RecvDisconnected => Flush WDisconnected
  end.

Definition receive (handle : RecvStatus -> WorkerPc) (s : Sys) : Sys :=
  match try_recv (channel s) with
  | (c, Got m) => with_worker (handle (Got m)) (with_taken c m s)
  | (c, r) => with_worker (handle r) (with_channel c s)
  end.

(** A step of [work] and of the loop around it; [ok] is the result of the writer's call, if
    the step makes one. *)
Definition worker_step (ok : bool) (s : Sys) : Sys :=
  match worker s with
  | Recv => receive handle_recv s
  | TryRecv => receive handle_try_recv s
  | Writing buf =>
      with_worker (if ok then TryRecv else Recv) (with_wrote (wrote s ++ [buf]) s)
  | Flush st =>
      if ok then
        with_worker (match st with
                     | WShutdown | WDisconnected => WaitShutdown
                     | WEmpty | WContinue => Recv
                     end) (with_flushed (length (wrote s)) s)
      else with_worker Recv s
  | WaitShutdown =>
      match guard s with GuardDropped _ => with_worker FinalFlush s | _ => s end
  | FinalFlush =>
      with_worker Stopped (with_channel (drop_receiver (channel s))
        (if ok then with_flushed (length (wrote s)) s else s))
  | Stopped => s
  end.

Inductive Action :=
  | Write (i : nat) (buf : string)
  | WriteStep (i : nat)
  | MakeWriter (i : nat)
  | DropWriter (i : nat)
  | GuardStep (timeout : bool)
  | WorkerStep (ok : bool).

Definition step (s : Sys) (a : Action) : Sys :=
  match a with
  | Write i buf => write i buf s
  | WriteStep i => write_step i s
  | MakeWriter i => make_writer i s
  | DropWriter i => drop_writer i s
  | GuardStep timeout => guard_step timeout s
  | WorkerStep ok => worker_step ok s
  end.

Definition run (s : Sys) (trace : list Action) : Sys := foldl step s trace.

(** ** The invariant *)

Definition lines (l : list Msg) : list string :=
  omap (fun m => match m with Line b => Some b | Shutdown => None end) l.
Definition shutdowns (l : list Msg) : nat :=
  sum_list_with (fun m => match m with Shutdown => 1%nat | Line _ => 0%nat end) l.
#[local] Arguments shutdowns : simpl never.
#[local] Arguments lines : simpl never.
Definition alive (pc : WriterPc) : nat := (match pc with Dropped => 0 | _ => 1 end)%nat.
Definition incrementing (pc : WriterPc) : nat :=
  (match pc with IncrLoad _ | IncrCas _ _ => 1 | _ => 0 end)%nat.
Definition guard_alive (g : GuardPc) : nat := (match g with GuardDropped _ => 0 | _ => 1 end)%nat.
Definition in_hand (w : WorkerPc) : list string := match w with Writing b => [b] | _ => [] end.

Lemma lines_app l k : lines (l ++ k) = lines l ++ lines k.
Proof. apply omap_app. Qed.

Lemma shutdowns_app l k : shutdowns (l ++ k) = (shutdowns l + shutdowns k)%nat.
Proof. apply sum_list_with_app. Qed.

Context `{!CrossbeamLaws X}.

(** The messages that were sent and that the worker has not received; nobody can take them
    any more when the worker has stopped. *)
Definition unread (s : Sys) (rest : list Msg) : Prop :=
  receiving (buffer (channel s)) = true -> msgs (buffer (channel s)) = rest.

(** What the worker is in the middle of. *)
Definition worker_ok (s : Sys) : Prop :=
  match worker s with
  | Flush WShutdown => exists t, taken s = t ++ [Shutdown]
  | Flush WDisconnected => senders (buffer (channel s)) = O
  | WaitShutdown =>
      senders (buffer (channel s)) = O \/
      flushed s = length (wrote s) /\ exists t, taken s = t ++ [Shutdown]
  | _ => True
  end.

Definition guard_ok (s : Sys) : Prop :=
  match guard s with
  | Held | SendShutdown => shutdowns (sent s) = O
  | SendUnit => shutdowns (sent s) = 1%nat
  | GuardDropped fl =>
      (shutdowns (sent s) <= 1)%nat /\
      (fl = true -> exists before after, sent s = before ++ Shutdown :: after /\
        lines before `prefix_of` wrote s /\ (length (lines before) <= flushed s)%nat)
  end.

Record sys_ok (s : Sys) : Prop := {
  ok_cap : (0 < cap (buffer (channel s)))%nat;
  ok_full : (length (msgs (buffer (channel s))) <= cap (buffer (channel s)))%nat;
  ok_receiving : receiving (buffer (channel s)) = true <-> worker s <> Stopped;
  ok_senders : senders (buffer (channel s)) =
    (sum_list_with alive (writers s) + guard_alive (guard s))%nat;
  ok_fifo : exists rest, sent s = taken s ++ rest /\ unread s rest;
  ok_lines : lines (taken s) = wrote s ++ in_hand (worker s);
  ok_flushed : (flushed s <= length (wrote s))%nat;
  ok_lost : (sum_list_with incrementing (writers s) <= lost s)%nat;
  ok_counter : counter s =
    Z.min U64.MAX (Z.of_nat (lost s) - Z.of_nat (sum_list_with incrementing (writers s)));
  ok_lossless : lossy_writers s = false -> lost s = O;
  ok_worker : worker_ok s;
  ok_guard : guard_ok s;
}.

(** A step that only moves a writer and is not the drop of one. *)
Lemma with_writer_ok s i x y :
  sys_ok s -> writers s !! i = Some x -> alive x = alive y -> incrementing x = incrementing y ->
  sys_ok (with_writer i y s).
Proof.
  intros [] Hx Ha Hi.
  pose proof (sum_list_with_insert alive (writers s) i x y Hx).
  pose proof (sum_list_with_insert incrementing (writers s) i x y Hx).
  split; cbn; try done; try lia.
Qed.

(** A step of the worker that neither receives nor writes. *)
Lemma with_worker_ok w s :
  sys_ok s -> worker s <> Stopped -> w <> Stopped -> in_hand w = in_hand (worker s) ->
  worker_ok (with_worker w s) -> sys_ok (with_worker w s).
Proof.
  intros [] H1 H2 Hh Hok. split; cbn; rewrite ?Hh; try done. by rewrite ok_receiving0.
Qed.

(** A send that succeeds, and one that does not. *)
Lemma try_send_cases s m :
  sys_ok s ->
  match try_send (channel s) m with
  | (c, Sent) =>
      buffer c = {| cap := cap (buffer (channel s)); msgs := msgs (buffer (channel s)) ++ [m];
                    senders := senders (buffer (channel s)); receiving := true |} /\
      receiving (buffer (channel s)) = true /\
      (length (msgs (buffer (channel s))) < cap (buffer (channel s)))%nat
  | (c, _) => buffer c = buffer (channel s)
  end.
Proof.
  intros [Hcap _ _ _ _ _ _ _ _ _ _ _]. pose proof (try_send_ok (channel s) m Hcap) as H.
  cbn zeta in H. destruct (try_send (channel s) m) as [c st]. cbn [fst snd] in H.
  destruct (receiving (buffer (channel s))) eqn:Hr; [|by destruct H as [-> ->]].
  revert H. destruct (Nat.ltb_spec (length (msgs (buffer (channel s)))) (cap (buffer (channel s))));
    by intros [-> ->].
Qed.

Lemma with_channel_ok s c :
  sys_ok s -> buffer c = buffer (channel s) -> sys_ok (with_channel c s).
Proof.
  intros [] Hc. split; cbn; rewrite ?Hc; try done.
  - destruct ok_fifo0 as (rest & ? & ?). exists rest. split; [done|]. by unfold unread; cbn; rewrite Hc.
  - unfold worker_ok in *. cbn. by rewrite Hc.
Qed.

(** A line that is put into the channel. *)
Lemma with_sent_line_ok s c buf :
  sys_ok s -> try_send (channel s) (Line buf) = (c, Sent) -> sys_ok (with_sent c (Line buf) s).
Proof.
  intros Hs Hc. pose proof (try_send_cases s (Line buf) Hs) as H. rewrite Hc in H.
  destruct H as (Hb & Hr & Hl). destruct Hs. split; cbn; rewrite ?Hb; cbn; try done.
  - rewrite length_app. cbn. lia.
  - by rewrite Hr in ok_receiving0.
  - destruct ok_fifo0 as (rest & -> & Hu). exists (rest ++ [Line buf]).
    split; [by rewrite app_assoc|]. unfold unread. cbn. rewrite Hb. cbn. by rewrite (Hu Hr).
  - unfold worker_ok in *. cbn. by rewrite Hb.
  - unfold guard_ok in *. cbn. rewrite shutdowns_app. cbn. rewrite Nat.add_0_r.
    destruct (guard s); try done. destruct ok_guard0 as [? Hfl]. split; [done|].
    intros (before & after & -> & ?)%Hfl. exists before, (after ++ [Line buf]). by rewrite <- app_assoc.
Qed.

Lemma nb_write_ok i buf s : sys_ok s -> sys_ok (write i buf s).
Proof.
  intros Hs. unfold write. destruct (writers s !! i) as [[r| | | |]|] eqn:Hi; try done.
  destruct (lossy_writers s) eqn:Hl; [|by eapply with_writer_ok].
  assert (forall c, buffer c = buffer (channel s) ->
    sys_ok (with_writer i (IncrLoad (str_len buf)) (with_lost (with_channel c s)))) as Hlost.
  { intros c Hc. pose proof (with_channel_ok s c Hs Hc) as Hs'.
    pose proof (sum_list_with_insert alive (writers s) i _ (IncrLoad (str_len buf)) Hi).
    pose proof (sum_list_with_insert incrementing (writers s) i _ (IncrLoad (str_len buf)) Hi).
    destruct Hs'. cbn in *. split; cbn; try done; try lia. by rewrite Hl. }
  pose proof (try_send_cases s (Line buf) Hs) as Hc.
  destruct (try_send (channel s) (Line buf)) as [c []] eqn:Hsend; [|by apply Hlost..].
  eapply with_writer_ok; [by apply with_sent_line_ok|done..].
Qed.

(** The end of an increment: the counter follows the number of dropped lines until it
    saturates. *)
Lemma incr_done_ok i x len c s :
  sys_ok s -> writers s !! i = Some x -> alive x = 1%nat -> incrementing x = 1%nat ->
  c = Z.min U64.MAX (counter s + 1) ->
  sys_ok (with_writer i (Ready (Some (Ok len))) (with_counter c s)).
Proof.
  intros Hs Hi Ha Hinc ->.
  pose proof (sum_list_with_insert alive (writers s) i _ (Ready (Some (Ok len))) Hi).
  pose proof (sum_list_with_insert incrementing (writers s) i _ (Ready (Some (Ok len))) Hi).
  destruct Hs. cbn in *. split; cbn; try done; lia.
Qed.

Lemma with_counter_same s : with_counter (counter s) s = s.
Proof. by destruct s. Qed.

Lemma write_step_ok i s : sys_ok s -> sys_ok (write_step i s).
Proof.
  intros Hs. unfold write_step.
  destruct (writers s !! i) as [[r|buf|len|len curr|]|] eqn:Hi; try done.
  - pose proof (try_send_cases s (Line buf) Hs) as Hc.
    destruct (try_send (channel s) (Line buf)) as [c []] eqn:Hsend.
    + eapply with_writer_ok; [by apply with_sent_line_ok|done..].
    + by apply with_channel_ok.
    + eapply with_writer_ok; [by apply with_channel_ok|done..].
  - unfold incr_load. destruct (Z.eqb_spec (counter s) U64.MAX) as [Hmax|].
    + rewrite <- (with_counter_same s) at 1. eapply incr_done_ok; try done. lia.
    + by eapply with_writer_ok.
  - unfold incr_cas. destruct (Z.eqb_spec (counter s) curr) as [<-|].
    + eapply incr_done_ok; try done. lia.
    + by eapply with_writer_ok.
Qed.

Lemma make_writer_ok i s : sys_ok s -> sys_ok (make_writer i s).
Proof.
  intros Hs. unfold make_writer. destruct (writers s !! i) as [[r| | | |]|] eqn:Hi; try done.
  assert (1 <= sum_list_with alive (writers s))%nat as Hone.
  { pose proof (sum_list_with_insert alive (writers s) i _ Dropped Hi). cbn in *. lia. }
  pose proof (clone_sender_ok (channel s)) as Hc.
  destruct Hs. split; cbn; rewrite ?Hc; cbn; try done.
  - rewrite sum_list_with_app. cbn. lia.
  - destruct ok_fifo0 as (rest & ? & ?). exists rest. split; [done|]. by unfold unread; cbn; rewrite Hc.
  - rewrite sum_list_with_app. cbn. lia.
  - rewrite sum_list_with_app. cbn. rewrite ok_counter0. f_equal. lia.
  - unfold worker_ok in *. cbn. rewrite Hc. cbn.
    destruct (worker s) as [| | |[]| | |]; try done; [lia|].
    destruct ok_worker0 as [|]; [lia|by right].
Qed.

(** Dropping a sender. *)
Lemma worker_ok_drop s s' :
  worker_ok s -> worker s' = worker s -> flushed s' = flushed s -> wrote s' = wrote s ->
  taken s' = taken s ->
  (senders (buffer (channel s)) = O -> senders (buffer (channel s')) = O) -> worker_ok s'.
Proof.
  unfold worker_ok. intros Hw -> -> -> -> Hse.
  destruct (worker s) as [| | |[]| | |]; try done; [auto|]. destruct Hw; auto.
Qed.

Lemma drop_writer_ok i s : sys_ok s -> sys_ok (drop_writer i s).
Proof.
  intros Hs. unfold drop_writer. destruct (writers s !! i) as [[r| | | |]|] eqn:Hi; try done.
  pose proof (sum_list_with_insert alive (writers s) i _ Dropped Hi).
  pose proof (sum_list_with_insert incrementing (writers s) i _ Dropped Hi).
  pose proof (drop_sender_ok (channel s)) as Hc.
  destruct Hs. split; cbn in *; rewrite ?Hc; cbn; try done; try lia.
  - destruct ok_fifo0 as (rest & ? & Hu). exists rest. split; [done|].
    unfold unread in *. cbn. by rewrite Hc.
  - eapply worker_ok_drop; try done. cbn. rewrite Hc. cbn. lia.
Qed.

(** The guard gives its sender up. *)
Lemma finish_guard_ok fl s :
  sys_ok s -> guard_alive (guard s) = 1%nat ->
  guard_ok (finish_guard fl s) -> sys_ok (finish_guard fl s).
Proof.
  intros Hs Hg Hok. pose proof (drop_sender_ok (channel s)) as Hc.
  destruct Hs. split; cbn in *; rewrite ?Hc; cbn; try done; try lia.
  - destruct ok_fifo0 as (rest & ? & Hu). exists rest. split; [done|].
    unfold unread in *. cbn. by rewrite Hc.
  - eapply worker_ok_drop; try done. cbn. rewrite Hc. cbn. lia.
Qed.

Lemma guard_failed_ok s : sys_ok s -> guard_alive (guard s) = 1%nat -> guard_ok (finish_guard false s).
Proof.
  intros Hs Hg. unfold guard_ok. cbn. split; [|done].
  pose proof (ok_guard s Hs) as H. unfold guard_ok in H. destruct (guard s); try done; lia.
Qed.

Lemma shutdowns_snoc l : shutdowns (l ++ [Shutdown]) = S (shutdowns l).
Proof. rewrite shutdowns_app. unfold shutdowns. cbn. lia. Qed.

Lemma guard_step_ok timeout s : sys_ok s -> sys_ok (guard_step timeout s).
Proof.
  intros Hs. pose proof (ok_guard s Hs) as Hg. unfold guard_ok in Hg. unfold guard_step.
  destruct (guard s) as [| | |fl] eqn:Hgs; [| | |done].
  - destruct Hs. split; cbn; rewrite ?Hgs in *; try done.
  - destruct timeout.
    { apply finish_guard_ok; [done|by rewrite Hgs|]. apply guard_failed_ok; [done|by rewrite Hgs]. }
    pose proof (try_send_cases s Shutdown Hs) as Hc.
    destruct (try_send (channel s) Shutdown) as [c []] eqn:Hsend.
    + destruct Hc as (Hb & Hr & Hl). destruct Hs.
      split; cbn; rewrite ?Hb; cbn; rewrite ?Hgs in *; try done.
      * rewrite length_app. cbn. lia.
      * by rewrite Hr in ok_receiving0.
      * destruct ok_fifo0 as (rest & -> & Hu). exists (rest ++ [Shutdown]).
        split; [by rewrite app_assoc|]. unfold unread. cbn. rewrite Hb. cbn. by rewrite (Hu Hr).
      * unfold worker_ok in *. cbn. by rewrite Hb.
      * unfold guard_ok. cbn. by rewrite shutdowns_snoc, Hg.
    + by apply with_channel_ok.
    + pose proof (with_channel_ok s c Hs Hc). apply finish_guard_ok; [done|cbn; by rewrite Hgs|].
      apply guard_failed_ok; [done|cbn; by rewrite Hgs].
  - destruct timeout.
    { apply finish_guard_ok; [done|by rewrite Hgs|]. apply guard_failed_ok; [done|by rewrite Hgs]. }
    destruct (worker s) eqn:Hw; try done.
    + assert (sys_ok (with_worker FinalFlush s)) as Hs'.
      { by apply with_worker_ok; rewrite ?Hw. }
      apply finish_guard_ok; [done|cbn; by rewrite Hgs|]. unfold guard_ok. cbn.
      split; [lia|]. intros _. destruct Hs. unfold worker_ok in ok_worker0. rewrite Hw in ok_worker0.
      destruct ok_worker0 as [Hz|[Hfl [t Ht]]]; [rewrite Hgs in ok_senders0; cbn in *; lia|].
      destruct ok_fifo0 as (rest & Hsent & _). exists t, rest.
      rewrite Ht, Hw in ok_lines0. rewrite lines_app in ok_lines0. cbn in ok_lines0.
      rewrite !app_nil_r in ok_lines0. rewrite ok_lines0. split_and!; [|done|lia].
      rewrite Hsent, Ht. by rewrite <- app_assoc.
    + apply finish_guard_ok; [done|by rewrite Hgs|]. apply guard_failed_ok; [done|by rewrite Hgs].
Qed.

(** Receiving a message or finding none. *)
Lemma receive_ok handle s :
  sys_ok s -> worker s <> Stopped -> in_hand (worker s) = [] ->
  (forall b, handle (Got (Line b)) = Writing b) -> handle (Got Shutdown) = Flush WShutdown ->
  (handle Empty = Recv \/ handle Empty = Flush WEmpty) ->
  handle RecvDisconnected = Flush WDisconnected ->
  sys_ok (receive handle s).
Proof.
  intros Hs Hw Hh Hline Hshut Hempty Hdis. unfold receive.
  pose proof Hs as [Hcap Hfull Hrec Hsend (rest & Hfifo & Hu) Hlines Hfl Hlost Hcount Hless Hwok Hgok].
  assert (receiving (buffer (channel s)) = true) as Hr by by apply Hrec.
  specialize (Hu Hr). subst rest.
  pose proof (try_recv_ok (channel s) Hcap) as H. cbn zeta in H.
  destruct (try_recv (channel s)) as [c r]. cbn [fst snd] in H.
  destruct (msgs (buffer (channel s))) as [|m ms] eqn:Hm.
  - destruct H as [-> Hc]. pose proof (with_channel_ok s c Hs Hc) as Hs'.
    destruct (Nat.eqb_spec (senders (buffer (channel s))) 0) as [Hz|Hz].
    + rewrite Hdis. apply with_worker_ok; try done. unfold worker_ok. cbn. by rewrite Hc.
    + destruct Hempty as [-> | ->]; by apply with_worker_ok.
  - destruct H as [-> Hc].
    assert (lines (taken s ++ [m]) = wrote s ++ in_hand (handle (Got m))) as Hl.
    { rewrite lines_app, Hlines, Hh, app_nil_r. by destruct m; rewrite ?Hline, ?Hshut. }
    assert (handle (Got m) <> Stopped) as Hns by by destruct m; rewrite ?Hline, ?Hshut.
    split; cbn in *; rewrite ?Hc; cbn; try done.
    + lia.
    + exists ms. split; [by rewrite <- app_assoc|]. unfold unread. cbn. by rewrite Hc.
    + unfold worker_ok. cbn. destruct m; rewrite ?Hline, ?Hshut; [done|by eexists].
Qed.

Lemma guard_ok_wrote s s' :
  guard_ok s -> guard s' = guard s -> sent s' = sent s -> wrote s `prefix_of` wrote s' ->
  (flushed s <= flushed s')%nat -> guard_ok s'.
Proof.
  unfold guard_ok. intros Hg -> -> Hp Hf. destruct (guard s); try done.
  destruct Hg as [? Hg]. split; [done|]. intros (before & after & ? & Hpre & ?)%Hg.
  exists before, after. split_and!; [done|by trans (wrote s)|lia].
Qed.

Lemma worker_step_ok ok s : sys_ok s -> sys_ok (worker_step ok s).
Proof.
  intros Hs. unfold worker_step. destruct (worker s) as [|buf| |st| | |] eqn:Hw; try done.
  - apply receive_ok; rewrite ?Hw; try done. by left.
  - destruct Hs. split; cbn; rewrite ?Hw in *; try done.
    + rewrite ok_receiving0. by destruct ok.
    + cbn in *. rewrite ok_lines0. destruct ok; cbn; by rewrite app_nil_r.
    + rewrite length_app. lia.
    + unfold worker_ok. cbn. by destruct ok.
    + eapply guard_ok_wrote; try done. cbn. by apply prefix_app_r.
  - apply receive_ok; rewrite ?Hw; try done. by right.
  - destruct ok.
    + destruct Hs. split; cbn; rewrite ?Hw in *; try done.
      * rewrite ok_receiving0. by destruct st.
      * cbn in *. rewrite ok_lines0. by destruct st.
      * unfold worker_ok in *. rewrite Hw in *. cbn. destruct st; try done; [by left|by right].
      * eapply guard_ok_wrote; try done.
    + apply with_worker_ok; rewrite ?Hw; try done.
  - destruct (guard s) eqn:Hg; try done. by apply with_worker_ok; rewrite ?Hw.
  - pose proof (drop_receiver_ok (channel s)) as Hc. destruct Hs.
    split; cbn; rewrite ?Hc, ?Hw in *; cbn; try by destruct ok; try done.
    + destruct ok; cbn; lia.
    + destruct ok_fifo0 as (rest & ? & _). exists rest. split; [by destruct ok|].
      unfold unread. cbn. by rewrite Hc.
    + destruct ok; eapply guard_ok_wrote; try done.
Qed.

Lemma nb_step_ok s a : sys_ok s -> sys_ok (step s a).
Proof.
  intros Hs. destruct a; cbn; [by apply nb_write_ok|by apply write_step_ok|by apply make_writer_ok|
    by apply drop_writer_ok|by apply guard_step_ok|by apply worker_step_ok].
Qed.

Lemma create_ok b : 0 < buffered_lines_limit b -> sys_ok (create b).
Proof.
  intros Hb. pose proof (clone_sender_ok (bounded (Z.to_nat (buffered_lines_limit b)))) as Hc.
  rewrite bounded_ok in Hc by lia. cbn in Hc.
  split; cbn; rewrite ?Hc; cbn; try done; try lia.
  exists []. split; [done|]. unfold unread. cbn. by rewrite Hc.
Qed.

Lemma nb_run_ok s trace : sys_ok s -> sys_ok (run s trace).
Proof. revert s. induction trace; intros s Hs; [done|]. cbn. by apply IHtrace, nb_step_ok. Qed.

(** The capacity does not change. *)
Lemma try_send_cap s m :
  sys_ok s -> cap (buffer (try_send (channel s) m).1) = cap (buffer (channel s)).
Proof.
  intros Hs. pose proof (try_send_cases s m Hs) as H.
  destruct (try_send (channel s) m) as [c []]; cbn; [destruct H as [H _]|..]; by rewrite H.
Qed.

Lemma receive_cap handle s :
  sys_ok s -> cap (buffer (channel (receive handle s))) = cap (buffer (channel s)).
Proof.
  intros [Hcap _ _ _ _ _ _ _ _ _ _ _]. pose proof (try_recv_ok (channel s) Hcap) as H.
  unfold receive. cbn zeta in H. destruct (try_recv (channel s)) as [c r]. cbn [fst snd] in H.
  destruct (msgs (buffer (channel s))); destruct H as [-> Hc]; [|by cbn; rewrite Hc].
  destruct (_ =? _)%nat; cbn; by rewrite Hc.
Qed.

Lemma step_cap s a : sys_ok s -> cap (buffer (channel (step s a))) = cap (buffer (channel s)).
Proof.
  intros Hs. pose proof (try_send_cap s) as Hsend. destruct a; cbn.
  - unfold write. destruct (writers s !! i) as [[]|]; try done.
    destruct (lossy_writers s); [|done]. rewrite <- (Hsend (Line buf) Hs).
    by destruct (try_send _ _) as [c []].
  - unfold write_step, incr_load, incr_cas.
    destruct (writers s !! i) as [[|buf| | |]|]; try done; [|by case_match..].
    rewrite <- (Hsend (Line buf) Hs). by destruct (try_send _ _) as [c []].
  - unfold make_writer. destruct (writers s !! i) as [[]|]; try done. cbn. by rewrite clone_sender_ok.
  - unfold drop_writer. destruct (writers s !! i) as [[]|]; try done. cbn. by rewrite drop_sender_ok.
  - unfold guard_step. destruct (guard s); try done; destruct timeout; cbn;
      rewrite ?drop_sender_ok; try done.
    + rewrite <- (Hsend Shutdown Hs). destruct (try_send _ _) as [c []]; cbn; try done.
      by rewrite drop_sender_ok.
    + destruct (worker s); cbn; by rewrite ?drop_sender_ok.
  - unfold worker_step. destruct (worker s); try by apply receive_cap; try done.
    all: repeat case_match; cbn; by rewrite ?drop_receiver_ok.
Qed.

Lemma run_cap s trace : sys_ok s -> cap (buffer (channel (run s trace))) = cap (buffer (channel s)).
Proof.
  revert s. induction trace as [|a trace IH]; intros s Hs; [done|]. cbn.
  unfold run in IH. rewrite IH by by apply nb_step_ok. by apply step_cap.
Qed.

(** C21: whatever the interleaving of the writers, the guard and the worker and whatever the
    results of the underlying writer, lines reach that writer once each and in the order
    in which they entered the channel: the messages sent are those received followed by
    those in the channel, which never exceed the configured limit, and the lines received
    are those handed to the writer, with the one in hand; the error counter is the number
    of dropped lines, saturated, less the increments that are not finished, and without
    lossy mode no line is dropped. *)
Theorem nonblocking_fifo b trace :
  0 < buffered_lines_limit b ->
  let s := run (create b) trace in
  (exists rest, sent s = taken s ++ rest /\
    (worker s <> Stopped -> msgs (buffer (channel s)) = rest)) /\
  Z.of_nat (length (msgs (buffer (channel s)))) <= buffered_lines_limit b /\
  lines (taken s) = wrote s ++ in_hand (worker s) /\
  counter s =
    Z.min U64.MAX (Z.of_nat (lost s) - Z.of_nat (sum_list_with incrementing (writers s))) /\
  (lossy_writers s = false -> lost s = O /\ counter s = 0).
Proof.
  intros Hb s. pose proof (run_cap (create b) trace (create_ok b Hb)) as Hcap.
  pose proof (nb_run_ok _ trace (create_ok b Hb)) as Hs. fold s in Hs, Hcap.
  cbn in Hcap. rewrite clone_sender_ok, bounded_ok in Hcap by lia. cbn in Hcap.
  destruct Hs. split_and!; try done.
  - destruct ok_fifo0 as (rest & ? & Hu). exists rest. split; [done|]. intros ?. by apply Hu, ok_receiving0.
  - lia.
  - intros Hl%ok_lossless0. split; [done|]. rewrite ok_counter0. unfold U64.MAX. lia.
Qed.

(** C28: when the drop of the guard sees both of its messages taken, every line that entered
    the channel before the guard's message has been handed to the underlying writer, in
    order, and a successful flush came after it. *)
Theorem guard_flushes b trace :
  0 < buffered_lines_limit b ->
  let s := run (create b) trace in
  guard s = GuardDropped true ->
  exists before after, sent s = before ++ Shutdown :: after /\
    shutdowns before = O /\ lines before `prefix_of` wrote s /\
    (length (lines before) <= flushed s <= length (wrote s))%nat.
Proof.
  intros Hb s Hg. pose proof (nb_run_ok _ trace (create_ok b Hb)) as Hs. fold s in Hs.
  destruct Hs. unfold guard_ok in ok_guard0. rewrite Hg in ok_guard0.
  destruct ok_guard0 as [Hone Hfl]. destruct (Hfl eq_refl) as (before & after & Hsent & Hp & Hle).
  exists before, after. split_and!; try done. rewrite Hsent, shutdowns_app in Hone.
  change (shutdowns (Shutdown :: after)) with (S (shutdowns after)) in Hone. lia.
Qed.

(** When the last writer and the guard are gone but the underlying writer's flush keeps
    failing, the worker never ends: it finds the channel disconnected, fails to flush,
    forgets that it was disconnected and starts over. *)
Theorem flush_error_spins b trace n :
  0 < buffered_lines_limit b ->
  let s := run (create b) trace in
  worker s = Recv -> sent s = taken s -> senders (buffer (channel s)) = O ->
  worker (run s (replicate n (WorkerStep false))) <> Stopped.
Proof.
  intros Hb s Hw Hsent Hse. pose proof (nb_run_ok _ trace (create_ok b Hb)) as Hs. fold s in Hs.
  clearbody s. assert (msgs (buffer (channel s)) = []) as Hm.
  { destruct Hs. destruct ok_fifo0 as (rest & Hrest & Hu).
    assert (rest = []) as -> by (apply (app_inv_head (taken s)); rewrite app_nil_r; congruence).
    apply Hu, ok_receiving0. by rewrite Hw. }
  assert (forall n s, sys_ok s -> msgs (buffer (channel s)) = [] -> senders (buffer (channel s)) = O ->
    worker s = Recv \/ worker s = Flush WDisconnected ->
    worker (run s (replicate n (WorkerStep false))) <> Stopped) as H; [|by apply H; auto].
  clear. induction n as [|n IH]; intros s Hs Hm Hse Hw; [by cbn; destruct Hw as [-> | ->]|].
  cbn [replicate run foldl step]. pose proof (nb_step_ok s (WorkerStep false) Hs) as Hs'.
  cbn [step] in Hs'. revert Hs'. unfold worker_step. destruct Hw as [-> | ->]; intros Hs'.
  - pose proof (try_recv_ok (channel s) (ok_cap s Hs)) as H. cbn zeta in H. rewrite Hm in H.
    revert Hs'. unfold receive. destruct (try_recv (channel s)) as [c r]. cbn [fst snd] in H.
    rewrite Hse in H. destruct H as [-> Hc]. intros Hs'.
    apply IH; [done|cbn; by rewrite Hc..|by right].
  - apply IH; try done. by left.
Qed.

(** *** Draining *)

(** The lines that the worker still takes from the messages [ms] if nothing fails. *)
Fixpoint until_shutdown (ms : list Msg) : list string :=
  match ms with
  | Line b :: ms => b :: until_shutdown ms
  | Shutdown :: _ | [] => []
  end.
Definition ending (w : WorkerPc) : bool :=
  match w with
  | Flush WShutdown | Flush WDisconnected | WaitShutdown | FinalFlush | Stopped => true
  | _ => false
  end.
Definition to_write (s : Sys) : list string :=
  if ending (worker s) then [] else in_hand (worker s) ++ until_shutdown (msgs (buffer (channel s))).

(** How many steps the worker needs at most. *)
Definition steps_left (s : Sys) : nat :=
  match worker s with
  | Stopped => 0
  | FinalFlush => 1
  | WaitShutdown => 2
  | Flush WShutdown | Flush WDisconnected => 3
  | Recv | TryRecv => 4 + 2 * length (msgs (buffer (channel s)))
  | Writing _ | Flush _ => 5 + 2 * length (msgs (buffer (channel s)))
  end.

Lemma receive_drains handle s :
  sys_ok s -> senders (buffer (channel s)) = O -> handle = handle_recv \/ handle = handle_try_recv ->
  let s' := receive handle s in
  senders (buffer (channel s')) = O /\
  (steps_left s' < 4 + 2 * length (msgs (buffer (channel s))))%nat /\ worker s' <> Stopped /\
  wrote s' ++ to_write s' = wrote s ++ until_shutdown (msgs (buffer (channel s))).
Proof.
  intros Hs Hse Hh. pose proof (try_recv_ok (channel s) (ok_cap s Hs)) as H. cbn zeta in H.
  unfold receive, to_write, steps_left. destruct (try_recv (channel s)) as [c r]. cbn [fst snd] in H.
  rewrite Hse in H. destruct (msgs (buffer (channel s))) as [|[b|] ms]; destruct H as [-> Hc].
  all: destruct Hh as [-> | ->]; cbn; rewrite ?Hc; cbn; split_and!; try done; lia.
Qed.

Lemma worker_step_drains s :
  sys_ok s -> senders (buffer (channel s)) = O -> worker s <> Stopped ->
  let s' := worker_step true s in
  senders (buffer (channel s')) = O /\ (steps_left s' < steps_left s)%nat /\
  wrote s' ++ to_write s' = wrote s ++ to_write s /\
  (worker s' = Stopped -> flushed s' = length (wrote s')).
Proof.
  intros Hs Hse Hw. cbn zeta.
  assert (exists fl, guard s = GuardDropped fl) as [fl Hg].
  { pose proof (ok_senders s Hs) as Hsum. rewrite Hse in Hsum.
    destruct (guard s); cbn in Hsum; try lia. by eexists. }
  pose proof (fun h => receive_drains h s Hs Hse) as Hr. cbn zeta in Hr.
  unfold worker_step, to_write in *. unfold steps_left at 2.
  destruct (worker s) as [|b| |[]| | |] eqn:Hpc; try done.
  - destruct (Hr handle_recv) as (H1 & H2 & H3 & H4); [by left|]. by split_and!.
  - cbn. split_and!; try done; [unfold steps_left; cbn; lia|by rewrite <- app_assoc].
  - destruct (Hr handle_try_recv) as (H1 & H2 & H3 & H4); [by right|]. by split_and!.
  - cbn. split_and!; try done. unfold steps_left; cbn; lia.
  - cbn. split_and!; try done. unfold steps_left; cbn; lia.
  - cbn. split_and!; try done. unfold steps_left; cbn; lia.
  - cbn. split_and!; try done. unfold steps_left; cbn; lia.
  - rewrite Hg. cbn. split_and!; try done. unfold steps_left; cbn; lia.
  - cbn. rewrite drop_receiver_ok. split_and!; try done. unfold steps_left; cbn; lia.
Qed.

Lemma drains n s :
  sys_ok s -> senders (buffer (channel s)) = O -> worker s <> Stopped -> (steps_left s <= n)%nat ->
  let s' := run s (replicate n (WorkerStep true)) in
  worker s' = Stopped /\ wrote s' = wrote s ++ to_write s /\ flushed s' = length (wrote s').
Proof.
  cbn zeta. revert s. induction n as [|n IH]; intros s Hs Hse Hw Hn.
  { unfold steps_left in Hn. destruct (worker s) as [| | |[]| | |]; cbn in Hn; try lia. done. }
  destruct (worker_step_drains s Hs Hse Hw) as (Hse' & Hlt & Hwr & Hfl).
  pose proof (nb_step_ok s (WorkerStep true) Hs) as Hs'.
  cbn [replicate run foldl step] in *. set (s1 := worker_step true s) in *.
  assert (worker s1 = Stopped \/ worker s1 <> Stopped) as [Hst|Hst]
    by (destruct (worker s1); try (by right); by left).
  - assert (run s1 (replicate n (WorkerStep true)) = s1) as Hrest.
    { clear -Hst. induction n as [|n IHn]; [done|]. cbn [replicate run foldl step].
      unfold worker_step. by rewrite Hst. }
    unfold run in Hrest. rewrite Hrest. split_and!; [done| |auto].
    rewrite <- Hwr. unfold to_write. rewrite Hst. by rewrite app_nil_r.
  - unfold run in IH. destruct (IH s1) as (H1 & H2 & H3); try done; [lia|].
    split_and!; [done| |done]. by rewrite H2.
Qed.

(** C29: when the guard and all writers have been dropped and the underlying writer works,
    the worker ends: within two steps for each message in the channel and six more it has
    written the line in hand and those in the channel up to a shutdown message, has
    flushed them all, and has stopped. *)
Theorem worker_drains b trace :
  0 < buffered_lines_limit b ->
  let s := run (create b) trace in
  senders (buffer (channel s)) = O -> worker s <> Stopped ->
  let s' := run s (replicate (2 * length (msgs (buffer (channel s))) + 6) (WorkerStep true)) in
  worker s' = Stopped /\ wrote s' = wrote s ++ to_write s /\ flushed s' = length (wrote s').
Proof.
  intros Hb s Hse Hw. apply drains; try done; [by apply nb_run_ok, create_ok|].
  unfold steps_left. destruct (worker s) as [| | |[]| | |]; lia.
Qed.

End system.

(** ** A channel *)

Module Fifo.

Definition try_send (c : Buffer) (m : Msg) : Buffer * SendStatus :=
  if receiving c then
    if (length (msgs c) <? cap c)%nat then
      ({| cap := cap c; msgs := msgs c ++ [m]; senders := senders c; receiving := true |}, Sent)
    else (c, Full)
  else (c, SendDisconnected).
Definition try_recv (c : Buffer) : Buffer * RecvStatus :=
  match msgs c with
  | m :: ms =>
      ({| cap := cap c; msgs := ms; senders := senders c; receiving := receiving c |}, Got m)
  | [] => (c, if (senders c =? 0)%nat then RecvDisconnected else Empty)
  end.

#[export] Instance fifo : Crossbeam := {|
  Chan := Buffer;
  bounded := fun n => {| cap := n; msgs := []; senders := 1; receiving := true |};
  NonBlocking.try_send := try_send;
  NonBlocking.try_recv := try_recv;
  clone_sender := fun c => {| cap := cap c; msgs := msgs c; senders := S (senders c);
                              receiving := receiving c |};
  drop_sender := fun c => {| cap := cap c; msgs := msgs c; senders := pred (senders c);
                             receiving := receiving c |};
  drop_receiver := fun c => {| cap := cap c; msgs := []; senders := senders c;
                               receiving := false |};
|}.

#[export] Instance fifo_laws : CrossbeamLaws fifo.
Proof.
  refine {| buffer := fun c : @Chan fifo => (c : Buffer) |}; try done.
  - intros c m _. cbn -[Nat.ltb]. unfold try_send. destruct (receiving c); [|done].
    by destruct (length (msgs c) <? cap c)%nat.
  - intros c _. cbn. unfold try_recv. destruct c as [n [|m ms] k r]; done.
Defined.

End Fifo.

Import Fifo.

(** Two lines, the shutdown, and a worker that ends properly. *)
Definition clean_trace : list Action :=
  [Write 0 "a"; WorkerStep true; Write 0 "b"; GuardStep false; GuardStep false;
   WorkerStep true; WorkerStep true; WorkerStep true; WorkerStep true; WorkerStep true;
   GuardStep false; WorkerStep true; DropWriter 0].

(** The guard and the writer are dropped, and the flush fails after the shutdown. *)
Definition failing_trace : list Action :=
  [GuardStep false; GuardStep false; WorkerStep true; WorkerStep false; GuardStep true;
   DropWriter 0].

Example clean_run :
  (fun s => (wrote s, flushed s, worker s, guard s)) (run (create default_builder) clean_trace)
  = (["a"; "b"], 2%nat, Stopped, GuardDropped true).
Proof. vm_compute. reflexivity. Qed.

Lemma nonblocking_fifo_witness :
  0 < buffered_lines_limit default_builder /\
  lines (taken (run (create default_builder) clean_trace)) =
    wrote (run (create default_builder) clean_trace) ++
    in_hand (worker (run (create default_builder) clean_trace)).
Proof.
  split; [done|]. by destruct (nonblocking_fifo default_builder clean_trace) as (_ & _ & H & _).
Defined.

Lemma guard_flushes_witness :
  exists before after, sent (run (create default_builder) clean_trace) = before ++ Shutdown :: after /\
    shutdowns before = O /\ lines before `prefix_of` wrote (run (create default_builder) clean_trace) /\
    (length (lines before) <= flushed (run (create default_builder) clean_trace)
      <= length (wrote (run (create default_builder) clean_trace)))%nat.
Proof. apply (guard_flushes default_builder clean_trace); [done|vm_compute; reflexivity]. Defined.

(** Three lines in the channel, two of them before the shutdown, and nobody left. *)
Definition abandoned_trace : list Action :=
  [Write 0 "a"; Write 0 "b"; WorkerStep true; GuardStep false; MakeWriter 0; GuardStep false;
   GuardStep true; Write 1 "c"; DropWriter 0; DropWriter 1].

Definition small : NonBlockingBuilder := with_buffered_lines_limit 8 default_builder.

Lemma worker_drains_witness :
  let s := run (run (create small) abandoned_trace) (replicate 12 (WorkerStep true)) in
  worker s = Stopped /\ wrote s = ["a"; "b"] /\ flushed s = 2%nat.
Proof.
  assert (senders (buffer (channel (run (create small) abandoned_trace))) = O)
    as Hse by (vm_compute; reflexivity).
  assert (worker (run (create small) abandoned_trace) <> Stopped)
    as Hw by (vm_compute; discriminate).
  pose proof (worker_drains small abandoned_trace eq_refl Hse Hw) as H.
  assert (2 * length (msgs (buffer (channel (run (create small) abandoned_trace)))) + 6 = 12)%nat
    as Hn by (vm_compute; reflexivity).
  cbv zeta in H. rewrite Hn in H. destruct H as (H1 & H2 & H3).
  assert (wrote (run (create small) abandoned_trace) ++
    to_write (run (create small) abandoned_trace) = ["a"; "b"]) as Hwr by (vm_compute; reflexivity).
  rewrite Hwr in H2. rewrite H2 in H3. exact (conj H1 (conj H2 H3)).
Defined.

Lemma flush_error_spins_witness :
  worker (run (run (create default_builder) failing_trace) (replicate 1000 (WorkerStep false)))
    <> Stopped.
Proof.
  apply (flush_error_spins default_builder failing_trace 1000);
    [done|vm_compute; reflexivity|vm_compute; reflexivity|vm_compute; reflexivity].
Defined.
