(* ===== verification/Levels.v ===== *)
(** * Levels: [tracing-core/src/metadata.rs], [Level] and [LevelFilter]

    The verbosity levels, the level filters, their hand-written inverted
    comparisons on [usize] discriminants, their parsers and printers, and the
    global maximum level [MAX_LEVEL]. *)

From S2P Require Import Prelude.
From S2P Require Import Ord.
From S2P Require Import Str.
From Stdlib Require Import Ascii.

Local Open Scope Z_scope.

(** ** [enum LevelInner], [struct Level(LevelInner)] *)

Module Level.

Inductive LevelInner :=
  | Trace | Debug | Info | Warn | Error.

#[global] Instance inner_eq_dec : EqDecision LevelInner.
Proof. solve_decision. Defined.

Record t := Level { inner : LevelInner }.

#[global] Instance eq_dec : EqDecision t.
Proof. solve_decision. Defined.

(** [level as usize], the declared discriminants. *)
Definition as_usize (i : LevelInner) : Z :=
  match i with Trace => 0 | Debug => 1 | Info => 2 | Warn => 3 | Error => 4 end.

Definition ERROR : t := Level Error.
Definition WARN : t := Level Warn.
Definition INFO : t := Level Info.
Definition DEBUG : t := Level Debug.
Definition TRACE : t := Level Trace.

(** [Level::as_str] *)
Definition as_str (l : t) : string :=
  match inner l with
  | Trace => "TRACE" | Debug => "DEBUG" | Info => "INFO" | Warn => "WARN" | Error => "ERROR"
  end.

(** [impl Display for Level] (without padding) *)
Definition fmt (l : t) : string :=
  match inner l with
  | Trace => "TRACE" | Debug => "DEBUG" | Info => "INFO" | Warn => "WARN" | Error => "ERROR"
  end.

Inductive ParseLevelError := parse_level_error.

(** [impl FromStr for Level] *)
Definition from_str (s : string) : result t ParseLevelError :=
  let by_number :=
    match parse_usize s with
    | None => Err parse_level_error
    | Some num =>
        if num =? 1 then Ok ERROR
        else if num =? 2 then Ok WARN
        else if num =? 3 then Ok INFO
        else if num =? 4 then Ok DEBUG
        else if num =? 5 then Ok TRACE
        else Err parse_level_error
    end in
  match by_number with
  | Ok l => Ok l
  | Err _ =>
      if eq_ignore_ascii_case s "error" then Ok ERROR
      else if eq_ignore_ascii_case s "warn" then Ok WARN
      else if eq_ignore_ascii_case s "info" then Ok INFO
      else if eq_ignore_ascii_case s "debug" then Ok DEBUG
      else if eq_ignore_ascii_case s "trace" then Ok TRACE
      else Err parse_level_error
  end.

(** [impl Ord for Level] and the operators of [impl PartialOrd for Level]: the
    arguments are swapped, since [TRACE] has the lowest discriminant. *)
#[global] Instance cmp : RustOrd t :=
  fun self other => Z.compare (as_usize (inner other)) (as_usize (inner self)).
Definition lt (self other : t) : bool := as_usize (inner other) <? as_usize (inner self).
Definition le (self other : t) : bool := as_usize (inner other) <=? as_usize (inner self).
Definition gt (self other : t) : bool := as_usize (inner other) >? as_usize (inner self).
Definition ge (self other : t) : bool := as_usize (inner other) >=? as_usize (inner self).


End Level.

(** ** [struct LevelFilter(Option<Level>)] *)

Module LevelFilter.

Record t := LevelFilter { inner : option Level.t }.

#[global] Instance eq_dec : EqDecision t.
Proof. solve_decision. Defined.

Definition from_level (level : Level.t) : t := LevelFilter (Some level).
Definition into_level (self : t) : option Level.t := inner self.

(** [impl From<Option<Level>> for LevelFilter] and the other conversions *)
Definition from_option (level : option Level.t) : t := LevelFilter level.
Definition from (level : Level.t) : t := from_level level.
Definition to_option (filter : t) : option Level.t := into_level filter.

Definition OFF : t := LevelFilter None.
Definition ERROR : t := from_level Level.ERROR.
Definition WARN : t := from_level Level.WARN.
Definition INFO : t := from_level Level.INFO.
Definition DEBUG : t := from_level Level.DEBUG.
Definition TRACE : t := LevelFilter (Some Level.TRACE).

Definition ERROR_USIZE : Z := Level.as_usize Level.Error.
Definition WARN_USIZE : Z := Level.as_usize Level.Warn.
Definition INFO_USIZE : Z := Level.as_usize Level.Info.
Definition DEBUG_USIZE : Z := Level.as_usize Level.Debug.
Definition TRACE_USIZE : Z := Level.as_usize Level.Trace.
Definition OFF_USIZE : Z := Level.as_usize Level.Error + 1.

(** [fn filter_as_usize(x: &Option<Level>) -> usize] *)
Definition filter_as_usize (x : option Level.t) : Z :=
  match x with
  | Some f => Level.as_usize (Level.inner f)
  | None => OFF_USIZE
  end.

(** [impl Display for LevelFilter] and [impl Debug for LevelFilter] *)
Definition fmt (self : t) : string :=
  match inner self with
  | None => "off"
  | Some l =>
      match Level.inner l with
      | Level.Error => "error" | Level.Warn => "warn" | Level.Info => "info"
      | Level.Debug => "debug" | Level.Trace => "trace"
      end
  end.
Definition fmt_debug (self : t) : string :=
  match inner self with
  | None => "LevelFilter::OFF"
  | Some l =>
      match Level.inner l with
      | Level.Error => "LevelFilter::ERROR" | Level.Warn => "LevelFilter::WARN"
      | Level.Info => "LevelFilter::INFO" | Level.Debug => "LevelFilter::DEBUG"
      | Level.Trace => "LevelFilter::TRACE"
      end
  end.

Inductive ParseLevelFilterError := parse_level_filter_error.

(** [impl FromStr for LevelFilter] *)
Definition from_str (s : string) : result t ParseLevelFilterError :=
  let by_number :=
    match parse_usize s with
    | None => None
    | Some num =>
        if num =? 0 then Some OFF
        else if num =? 1 then Some ERROR
        else if num =? 2 then Some WARN
        else if num =? 3 then Some INFO
        else if num =? 4 then Some DEBUG
        else if num =? 5 then Some TRACE
        else None
    end in
  let by_name :=
    if String.eqb s "" then Some ERROR
    else if eq_ignore_ascii_case s "error" then Some ERROR
    else if eq_ignore_ascii_case s "warn" then Some WARN
    else if eq_ignore_ascii_case s "info" then Some INFO
    else if eq_ignore_ascii_case s "debug" then Some DEBUG
    else if eq_ignore_ascii_case s "trace" then Some TRACE
    else if eq_ignore_ascii_case s "off" then Some OFF
    else None in
  match by_number with
  | Some l => Ok l
  | None => match by_name with Some l => Ok l | None => Err parse_level_filter_error end
  end.

(** [impl Ord for LevelFilter] and the operators of its [PartialOrd] *)
#[global] Instance cmp : RustOrd t :=
  fun self other =>
    Z.compare (filter_as_usize (inner other)) (filter_as_usize (inner self)).
Definition lt (self other : t) : bool :=
  filter_as_usize (inner other) <? filter_as_usize (inner self).
Definition le (self other : t) : bool :=
  filter_as_usize (inner other) <=? filter_as_usize (inner self).
Definition gt (self other : t) : bool :=
  filter_as_usize (inner other) >? filter_as_usize (inner self).
Definition ge (self other : t) : bool :=
  filter_as_usize (inner other) >=? filter_as_usize (inner self).

(** [impl PartialEq<Level> for LevelFilter], [impl PartialOrd<Level> for
    LevelFilter] *)
Definition eq_level (self : t) (other : Level.t) : bool :=
  filter_as_usize (inner self) =? Level.as_usize (Level.inner other).
Definition cmp_level (self : t) (other : Level.t) : comparison :=
  Z.compare (Level.as_usize (Level.inner other)) (filter_as_usize (inner self)).
Definition lt_level (self : t) (other : Level.t) : bool :=
  Level.as_usize (Level.inner other) <? filter_as_usize (inner self).
Definition le_level (self : t) (other : Level.t) : bool :=
  Level.as_usize (Level.inner other) <=? filter_as_usize (inner self).
Definition gt_level (self : t) (other : Level.t) : bool :=
  Level.as_usize (Level.inner other) >? filter_as_usize (inner self).
Definition ge_level (self : t) (other : Level.t) : bool :=
  Level.as_usize (Level.inner other) >=? filter_as_usize (inner self).

(** [impl PartialEq<LevelFilter> for Level], [impl PartialOrd<LevelFilter> for
    Level] *)
Definition level_eq (self : Level.t) (other : t) : bool :=
  Level.as_usize (Level.inner self) =? filter_as_usize (inner other).
Definition level_cmp (self : Level.t) (other : t) : comparison :=
  Z.compare (filter_as_usize (inner other)) (Level.as_usize (Level.inner self)).
Definition level_lt (self : Level.t) (other : t) : bool :=
  filter_as_usize (inner other) <? Level.as_usize (Level.inner self).
Definition level_le (self : Level.t) (other : t) : bool :=
  filter_as_usize (inner other) <=? Level.as_usize (Level.inner self).
Definition level_gt (self : Level.t) (other : t) : bool :=
  filter_as_usize (inner other) >? Level.as_usize (Level.inner self).
Definition level_ge (self : Level.t) (other : t) : bool :=
  filter_as_usize (inner other) >=? Level.as_usize (Level.inner self).

(** ** The global maximum level

    [static MAX_LEVEL: AtomicUsize], initially [OFF_USIZE]. *)
Definition MAX_LEVEL_init : Z := OFF_USIZE.

(** [LevelFilter::current()]; the last arm is [unreachable!] in a debug build and
    undefined behaviour in a release build. *)
Definition current (max_level : Z) : outcome t :=
  if max_level =? ERROR_USIZE then Done ERROR
  else if max_level =? WARN_USIZE then Done WARN
  else if max_level =? INFO_USIZE then Done INFO
  else if max_level =? DEBUG_USIZE then Done DEBUG
  else if max_level =? TRACE_USIZE then Done TRACE
  else if max_level =? OFF_USIZE then Done OFF
  else Panic.

(** [LevelFilter::set_max()]: the value stored by the atomic swap. *)
Definition set_max (self : t) : Z :=
  match inner self with
  | Some level => Level.as_usize (Level.inner level)
  | None => OFF_USIZE
  end.

End LevelFilter.

(** ** Verbosity rank

    The specification of the order: [OFF < ERROR < ... < TRACE] by the number
    that the parsers also accept. *)
Definition level_rank (l : Level.t) : Z :=
  match Level.inner l with
  | Level.Error => 1 | Level.Warn => 2 | Level.Info => 3 | Level.Debug => 4 | Level.Trace => 5
  end.
Definition filter_rank (f : LevelFilter.t) : Z :=
  match LevelFilter.inner f with None => 0 | Some l => level_rank l end.

Lemma level_as_usize_rank l : Level.as_usize (Level.inner l) = 5 - level_rank l.
Proof. by destruct l as [[]]. Qed.

Lemma filter_as_usize_rank f :
  LevelFilter.filter_as_usize (LevelFilter.inner f) = 5 - filter_rank f.
Proof. by destruct f as [[[[]]|]]. Qed.

Lemma filter_rank_inj f g : filter_rank f = filter_rank g -> f = g.
Proof. by destruct f as [[[[]]|]], g as [[[[]]|]]. Qed.

Lemma level_rank_inj l m : level_rank l = level_rank m -> l = m.
Proof. by destruct l as [[]], m as [[]]. Qed.

Lemma compare_swap_sub (c a b : Z) : Z.compare (c - b) (c - a) = Z.compare a b.
Proof.
  destruct (Z.compare_spec a b), (Z.compare_spec (c - b) (c - a)); (done || lia).
Qed.

Lemma filter_cmp_rank f g : cmp f g = Z.compare (filter_rank f) (filter_rank g).
Proof.
  unfold cmp, LevelFilter.cmp. rewrite !filter_as_usize_rank. apply compare_swap_sub.
Qed.

Lemma ge_level_rank f l : LevelFilter.ge_level f l = (level_rank l <=? filter_rank f).
Proof.
  unfold LevelFilter.ge_level. rewrite level_as_usize_rank, filter_as_usize_rank.
  apply eq_bool_prop_intro. rewrite Z.geb_leb, !Is_true_true, !Z.leb_le. lia.
Qed.

Lemma filter_gt_rank f g : LevelFilter.gt f g = (filter_rank g <? filter_rank f).
Proof.
  unfold LevelFilter.gt. rewrite !filter_as_usize_rank.
  apply eq_bool_prop_intro. rewrite Z.gtb_ltb, !Is_true_true, !Z.ltb_lt. lia.
Qed.

Lemma level_rank_bounds l : 1 <= level_rank l <= 5.
Proof. by destruct l as [[]]. Qed.

Lemma filter_rank_bounds f : 0 <= filter_rank f <= 5.
Proof. by destruct f as [[[[]]|]]. Qed.

Lemma order_filter : order_on everything (cmp (A:=LevelFilter.t)).
Proof.
  split.
  - eapply preorder_on_ext; [apply (preorder_on_key filter_rank everything), (oo_pre _ _ order_Z)|].
    intros f g _ _. apply filter_cmp_rank.
  - intros f g _ _. rewrite filter_cmp_rank. intros H%Z.compare_eq. by apply filter_rank_inj.
Qed.

Create Rewrite HintDb rank.
#[export] Hint Rewrite ge_level_rank filter_gt_rank filter_cmp_rank : rank.
#[export] Hint Resolve order_filter : tracing.

(** ** The comparison operators

    [ops c lt le gt ge x y]: the results of [cmp], [<], [<=], [>] and [>=] are
    the comparisons of [x] with [y]. *)
Definition ops (c : comparison) (lt le gt ge : bool) (x y : Z) : Prop :=
  c = Z.compare x y /\ lt = (x <? y) /\ le = (x <=? y) /\ gt = (y <? x) /\ ge = (y <=? x).

Lemma ops_swap x y a b :
  a = 5 - x -> b = 5 - y ->
  ops (Z.compare b a) (b <? a) (b <=? a) (b >? a) (b >=? a) x y.
Proof.
  intros -> ->. unfold ops. rewrite compare_swap_sub.
  rewrite Z.gtb_ltb, Z.geb_leb.
  split_and!; try done; apply eq_bool_prop_intro;
    rewrite !Is_true_true, ?Z.leb_le, ?Z.ltb_lt; lia.
Qed.

(** All four families of hand-written comparisons ([Level] with [Level],
    [LevelFilter] with [LevelFilter] and both mixed directions, [cmp] and the four
    operators of each) are the one total order
    [OFF < ERROR < WARN < INFO < DEBUG < TRACE], although every one of them
    compares the inverted [usize] discriminants; and two filters that compare
    equal are the same filter. *)
Theorem comparisons_are_verbosity (f g : LevelFilter.t) (l m : Level.t) :
  ops (Level.cmp l m) (Level.lt l m) (Level.le l m) (Level.gt l m) (Level.ge l m)
    (level_rank l) (level_rank m) /\
  ops (LevelFilter.cmp f g) (LevelFilter.lt f g) (LevelFilter.le f g)
    (LevelFilter.gt f g) (LevelFilter.ge f g) (filter_rank f) (filter_rank g) /\
  ops (LevelFilter.cmp_level f l) (LevelFilter.lt_level f l) (LevelFilter.le_level f l)
    (LevelFilter.gt_level f l) (LevelFilter.ge_level f l) (filter_rank f) (level_rank l) /\
  ops (LevelFilter.level_cmp l f) (LevelFilter.level_lt l f) (LevelFilter.level_le l f)
    (LevelFilter.level_gt l f) (LevelFilter.level_ge l f) (level_rank l) (filter_rank f) /\
  (LevelFilter.cmp f g = Eq <-> f = g) /\
  (LevelFilter.eq_level f l = true <-> f = LevelFilter.from_level l) /\
  (LevelFilter.level_eq l f = true <-> f = LevelFilter.from_level l).
Proof.
  pose proof (level_as_usize_rank l) as Hl. pose proof (level_as_usize_rank m) as Hm.
  pose proof (filter_as_usize_rank f) as Hf. pose proof (filter_as_usize_rank g) as Hg.
  repeat (split; [by apply ops_swap|]).
  split; [|split].
  - split; [apply (oo_eq _ _ order_filter); done | intros ->; apply Z.compare_refl].
  - destruct f as [[[[]]|]], l as [[]]; cbn; split; (discriminate || done).
  - destruct f as [[[[]]|]], l as [[]]; cbn; split; (discriminate || done).
Qed.

(** ** Parsing *)

(** The first byte of a number is a digit or [+]. *)
Definition number_start (s : string) : bool :=
  match s with
  | EmptyString => false
  | String a _ => bool_decide (a = "+"%char) || bool_decide (is_Some (digit_of a))
  end.

Lemma parse_unsigned_start hi s n : parse_unsigned hi s = Some n -> number_start s = true.
Proof.
  destruct s as [|a s]; [done|]. unfold number_start.
  destruct (bool_decide_reflect (a = "+"%char)) as [|Ha]; [done|].
  intros H. rewrite orb_false_l. apply bool_decide_eq_true.
  assert (parse_digits false 0 hi 0 (String a s) = Some n) as H'.
  { destruct a as [[] [] [] [] [] [] [] []]; (exact H || (by destruct s)). }
  simpl in H'. by destruct (digit_of a).
Qed.

Lemma number_start_not_name s t :
  number_start s = true -> number_start t = false ->
  (forall a u, t = String a u -> digit_of (ascii_lower a) = None /\ ascii_lower a <> "+"%char) ->
  eq_ignore_ascii_case s t = false.
Proof.
  destruct s as [|a s]; [done|]. destruct t as [|b t]; [done|]. intros Ha _ Hb.
  destruct (Hb b t eq_refl) as [Hb1 Hb2]. simpl.
  destruct (Ascii.eqb_spec (ascii_lower a) (ascii_lower b)) as [E|]; [|done].
  exfalso. unfold number_start in Ha. apply orb_true_iff in Ha as [Ha|Ha];
    apply bool_decide_eq_true in Ha.
  - subst a. by rewrite <- E in Hb2.
  - assert (ascii_lower a = a) as Hlow.
    { unfold digit_of in Ha. unfold ascii_lower.
      destruct ((48 <=? byte_of a) && (byte_of a <=? 57)) eqn:D; [|by destruct Ha].
      bool_to_prop. destruct ((65 <=? byte_of a) && _) eqn:E'; [|done]. bool_to_prop. lia. }
    rewrite <- E, Hlow in Hb1. rewrite Hb1 in Ha. by destruct Ha.
Qed.

Lemma number_is_no_name s n (f : LevelFilter.t) :
  parse_usize s = Some n -> eq_ignore_ascii_case s (LevelFilter.fmt f) = false.
Proof.
  intros H%parse_unsigned_start. apply number_start_not_name; [done|..];
    destruct f as [[[[]]|]]; try done; intros a u [= <- <-]; done.
Qed.

Lemma number_is_no_level_name s n (l : Level.t) :
  parse_usize s = Some n -> eq_ignore_ascii_case s (Level.fmt l) = false.
Proof.
  intros H%parse_unsigned_start. apply number_start_not_name; [done|..];
    destruct l as [[]]; try done; intros a u [= <- <-]; done.
Qed.

Lemma eq_ignore_ascii_case_refl s : eq_ignore_ascii_case s s = true.
Proof. induction s as [|a s IH]; [done|]. simpl. by rewrite Ascii.eqb_refl. Qed.

Lemma eq_ignore_ascii_case_trans s t u :
  eq_ignore_ascii_case s t = true -> eq_ignore_ascii_case s u = true ->
  eq_ignore_ascii_case t u = true.
Proof.
  revert t u. induction s as [|a s IH]; intros [|b t] [|c u]; try done. simpl.
  intros [<-%Ascii.eqb_eq H1]%andb_true_iff [->%Ascii.eqb_eq H2]%andb_true_iff.
  by rewrite Ascii.eqb_refl, (IH t u).
Qed.

Lemma eq_ignore_ascii_case_r s t u :
  eq_ignore_ascii_case t u = true -> eq_ignore_ascii_case s t = eq_ignore_ascii_case s u.
Proof.
  revert t u. induction s as [|a s IH]; intros [|b t] [|c u]; try done. simpl.
  intros [->%Ascii.eqb_eq H]%andb_true_iff. by rewrite (IH t u).
Qed.

Lemma level_names_distinct (l m : Level.t) :
  eq_ignore_ascii_case (Level.fmt l) (Level.fmt m) = true -> l = m.
Proof. by destruct l as [[]], m as [[]]. Qed.

Lemma filter_names_distinct (f g : LevelFilter.t) :
  eq_ignore_ascii_case (LevelFilter.fmt f) (LevelFilter.fmt g) = true -> f = g.
Proof. by destruct f as [[[[]]|]], g as [[[[]]|]]. Qed.

(** The accepted spellings of a filter and of a level. *)
Definition spells_filter (s : string) (f : LevelFilter.t) : Prop :=
  parse_usize s = Some (filter_rank f) \/
  eq_ignore_ascii_case s (LevelFilter.fmt f) = true \/
  (s = ""%string /\ f = LevelFilter.ERROR).
Definition spells_level (s : string) (l : Level.t) : Prop :=
  parse_usize s = Some (level_rank l) \/ eq_ignore_ascii_case s (Level.fmt l) = true.

Lemma spells_filter_from_str s f : LevelFilter.from_str s = Ok f -> spells_filter s f.
Proof.
  unfold LevelFilter.from_str, spells_filter. intros H.
  repeat match type of H with
  | context [parse_usize s] => destruct (parse_usize s) eqn:?
  | context [if ?b then _ else _] => destruct b eqn:?
  end; simplify_eq; bool_to_prop; subst; auto.
  all: match goal with E : String.eqb _ _ = true |- _ => apply String.eqb_eq in E; auto end.
Qed.

Lemma spells_level_from_str s l : Level.from_str s = Ok l -> spells_level s l.
Proof.
  unfold Level.from_str, spells_level. intros H.
  rewrite (eq_ignore_ascii_case_r s "error" (Level.fmt Level.ERROR)),
    (eq_ignore_ascii_case_r s "warn" (Level.fmt Level.WARN)),
    (eq_ignore_ascii_case_r s "info" (Level.fmt Level.INFO)),
    (eq_ignore_ascii_case_r s "debug" (Level.fmt Level.DEBUG)),
    (eq_ignore_ascii_case_r s "trace" (Level.fmt Level.TRACE)) in H by done.
  repeat match type of H with
  | context [parse_usize s] => destruct (parse_usize s) eqn:?
  | context [if ?b then _ else _] => destruct b eqn:?
  end; simplify_eq; bool_to_prop; subst; auto.
Qed.

Lemma from_str_spells_filter s f : spells_filter s f -> LevelFilter.from_str s = Ok f.
Proof.
  intros [Hn|[Hname|[-> ->]]]; [|..|done].
  - unfold LevelFilter.from_str. rewrite Hn. by destruct f as [[[[]]|]].
  - destruct (parse_usize s) as [n|] eqn:Hn.
    { by rewrite (number_is_no_name s n f) in Hname. }
    unfold LevelFilter.from_str. rewrite Hn.
    destruct (String.eqb_spec s "") as [->|_]; [by destruct f as [[[[]]|]]|].
    assert (forall g, eq_ignore_ascii_case s (LevelFilter.fmt g) = true -> f = g) as Huniq.
    { intros g Hg. by eapply filter_names_distinct, eq_ignore_ascii_case_trans. }
    pose proof (Huniq LevelFilter.ERROR) as U1. pose proof (Huniq LevelFilter.WARN) as U2.
    pose proof (Huniq LevelFilter.INFO) as U3. pose proof (Huniq LevelFilter.DEBUG) as U4.
    pose proof (Huniq LevelFilter.TRACE) as U5.
    cbn in U1, U2, U3, U4, U5.
    pose proof (Huniq LevelFilter.OFF) as U6. cbn in U6.
    repeat match goal with |- context [if ?b then _ else _] => destruct b eqn:? end;
      try (f_equal; symmetry; by auto).
    exfalso. destruct f as [[[[]]|]]; cbn in Hname; congruence.
Qed.

Lemma from_str_spells_level s l : spells_level s l -> Level.from_str s = Ok l.
Proof.
  intros [Hn|Hname].
  - unfold Level.from_str. rewrite Hn. by destruct l as [[]].
  - destruct (parse_usize s) as [n|] eqn:Hn.
    { by rewrite (number_is_no_level_name s n l) in Hname. }
    unfold Level.from_str. rewrite Hn.
    assert (forall m, eq_ignore_ascii_case s (Level.fmt m) = true -> l = m) as Huniq.
    { intros g Hg. by eapply level_names_distinct, eq_ignore_ascii_case_trans. }
    rewrite (eq_ignore_ascii_case_r s "error" (Level.fmt Level.ERROR)),
      (eq_ignore_ascii_case_r s "warn" (Level.fmt Level.WARN)),
      (eq_ignore_ascii_case_r s "info" (Level.fmt Level.INFO)),
      (eq_ignore_ascii_case_r s "debug" (Level.fmt Level.DEBUG)),
      (eq_ignore_ascii_case_r s "trace" (Level.fmt Level.TRACE)) by done.
    pose proof (Huniq Level.ERROR) as U1. pose proof (Huniq Level.WARN) as U2.
    pose proof (Huniq Level.INFO) as U3. pose proof (Huniq Level.DEBUG) as U4.
    pose proof (Huniq Level.TRACE) as U5.
    repeat match goal with |- context [if ?b then _ else _] => destruct b eqn:? end;
      try (f_equal; symmetry; by auto).
    exfalso. destruct l as [[]]; cbn in *; congruence.
Qed.

(** The parsers accept exactly the decimal number of the level (with the
    leading zeros and the [+] that [usize] parsing allows), its name in any case,
    and, for [LevelFilter] only, the empty string for [ERROR]; every printed level
    and filter parses back to itself. *)
Theorem from_str_spec (s : string) (f : LevelFilter.t) (l : Level.t) :
  (LevelFilter.from_str s = Ok f <-> spells_filter s f) /\
  (Level.from_str s = Ok l <-> spells_level s l) /\
  LevelFilter.from_str (LevelFilter.fmt f) = Ok f /\
  LevelFilter.from_str (Level.fmt l) = Ok (LevelFilter.from_level l) /\
  Level.from_str (Level.fmt l) = Ok l.
Proof.
  split; [split; [apply spells_filter_from_str|apply from_str_spells_filter]|].
  split; [split; [apply spells_level_from_str|apply from_str_spells_level]|].
  split_and!; [by destruct f as [[[[]]|]] | by destruct l as [[]] | by destruct l as [[]]].
Qed.
