(* ===== verification/Fields.v ===== *)
(** * Fields: [tracing-core/src/field.rs]

    Field sets, fields, value sets, and the [Visit]/[Value] double dispatch
    through which the values of a span or an event are recorded. *)

From S2P Require Import Prelude.
From S2P Require Import Str.
From Stdlib Require Import SpecFloat.

(** [callsite::Identifier]: the address of the callsite, compared as a pointer. *)
Abbreviation Identifier := N.

(** An [f64]. *)
Abbreviation f64 := spec_float.

(** Indexing that panics out of range; the index is a [usize]. *)
Definition index {A} (l : list A) (i : Z) : outcome A :=
  if (0 <=? i)%Z && (i <? Z.of_nat (length l))%Z then expect (l !! Z.to_nat i) else Panic.

(** ** [struct FieldSet], [struct Field] *)

Record FieldSet := { fs_names : list string; fs_callsite : Identifier }.
Record Field := { field_i : Z; field_set : FieldSet }.

#[export] Instance FieldSet_eq_dec : EqDecision FieldSet.
Proof. solve_decision. Defined.
#[export] Instance Field_eq_dec : EqDecision Field.
Proof. solve_decision. Defined.

Module FieldSet.

Definition new (names : list string) (callsite : Identifier) : FieldSet :=
  {| fs_names := names; fs_callsite := callsite |}.

Definition callsite (self : FieldSet) : Identifier := fs_callsite self.

Definition len (self : FieldSet) : Z := Z.of_nat (length (fs_names self)).
Definition is_empty (self : FieldSet) : bool :=
  match fs_names self with [] => true | _ => false end.

(** [FieldSet::field]: the first field of that name. *)
Definition field (self : FieldSet) (name : string) : option Field :=
  (fun i => {| field_i := Z.of_nat i;
               field_set := {| fs_names := fs_names self; fs_callsite := callsite self |} |})
  <$> position (fun f => String.eqb f name) (fs_names self).

(** [FieldSet::contains] *)
Definition contains (self : FieldSet) (field : Field) : bool :=
  (fs_callsite (field_set field) =? callsite self)%N && (field_i field <=? len self)%Z.

(** [FieldSet::iter] and the items of its [Iter]: [idxs = 0..len]. *)
Definition iter (self : FieldSet) : list Field :=
  map (fun k => {| field_i := Z.of_nat k;
                   field_set := {| fs_names := fs_names self; fs_callsite := callsite self |} |})
    (seq 0 (length (fs_names self))).

(** [FieldSet::fake_field]: [usize::MAX] is no index of a field. *)
Definition fake_field (self : FieldSet) : Field :=
  {| field_i := U64.MAX; field_set := {| fs_names := fs_names self; fs_callsite := callsite self |} |}.

(** [impl PartialEq for FieldSet], in a debug and in a release build.  The
    [ptr::eq(&self, &other)] there compares the addresses of two distinct locals
    and is never true. *)
Definition eq (debug_assertions : bool) (self other : FieldSet) : bool :=
  if negb debug_assertions then (fs_callsite self =? fs_callsite other)%N
  else (fs_callsite self =? fs_callsite other)%N && bool_decide (fs_names self = fs_names other).

End FieldSet.

Module Field.

Definition callsite (self : Field) : Identifier := FieldSet.callsite (field_set self).

(** [Field::name]: an array access. *)
Definition name (self : Field) : outcome string := index (fs_names (field_set self)) (field_i self).

Definition index (self : Field) : Z := field_i self.

(** [impl PartialEq for Field] *)
Definition eq (self other : Field) : bool :=
  (callsite self =? callsite other)%N && (field_i self =? field_i other)%Z.

(** What [impl Hash for Field] hashes: equal fields have equal keys, and a
    [HashMap<Field, _>] is a map on these keys. *)
Definition hash_key (self : Field) : Identifier * Z := (callsite self, field_i self).

Definition clone (self : Field) : Field :=
  {| field_i := field_i self;
     field_set := {| fs_names := fs_names (field_set self); fs_callsite := callsite self |} |}.

End Field.

(** ** [Value] and [Visit]

    The values of the program, by the [Visit] method that records them.  A
    [fmt::Debug] value is seen through the sequence of strings that it writes. *)

Inductive DebugValue :=
  | DebugF64 (v : f64)
  | DebugInt (v : Z)
  | DebugBool (v : bool)
  | DebugStr (v : string)
  | HexBytes (v : list Z)
  | DisplayValue (chunks : list string)
  | DebugChunks (chunks : list string).

(** A [dyn Error]: the strings that its [Display] writes, and those of its [source], of
    the source of that, and so on. *)
Record ErrorValue := { error_display : list string; error_sources : list (list string) }.

Inductive Value :=
  | VF64 (v : f64)
  | VI64 (v : Z)
  | VU64 (v : Z)
  | VI128 (v : Z)
  | VU128 (v : Z)
  | VBool (v : bool)
  | VStr (v : string)
  | VBytes (v : list Z)
  | VError (v : ErrorValue)
  | VDebug (v : DebugValue)
  | VEmpty
  | VNone
  | VSome (v : Value).

(** [trait Visit], a record of its methods acting on the visitor's state. *)
Record Visit (V : Type) := {
  record_f64 : Field -> f64 -> V -> V;
  record_i64 : Field -> Z -> V -> V;
  record_u64 : Field -> Z -> V -> V;
  record_i128 : Field -> Z -> V -> V;
  record_u128 : Field -> Z -> V -> V;
  record_bool : Field -> bool -> V -> V;
  record_str : Field -> string -> V -> V;
  record_bytes : Field -> list Z -> V -> V;
  record_error : Field -> ErrorValue -> V -> V;
  record_debug : Field -> DebugValue -> V -> V;
}.
Arguments record_f64 {V}. Arguments record_i64 {V}. Arguments record_u64 {V}.
Arguments record_i128 {V}. Arguments record_u128 {V}. Arguments record_bool {V}.
Arguments record_str {V}. Arguments record_bytes {V}. Arguments record_error {V}.
Arguments record_debug {V}.

(** The default methods: every typed method forwards to [record_debug]. *)
Definition default_visit {V} (debug : Field -> DebugValue -> V -> V) : Visit V := {|
  record_f64 := fun f v => debug f (DebugF64 v);
  record_i64 := fun f v => debug f (DebugInt v);
  record_u64 := fun f v => debug f (DebugInt v);
  record_i128 := fun f v => debug f (DebugInt v);
  record_u128 := fun f v => debug f (DebugInt v);
  record_bool := fun f v => debug f (DebugBool v);
  record_str := fun f v => debug f (DebugStr v);
  record_bytes := fun f v => debug f (HexBytes v);
  record_error := fun f v => debug f (DisplayValue (error_display v));
  record_debug := debug;
|}.

(** [Value::record] for every implementor: the method its type dispatches to. *)
Fixpoint value_record {V} (v : Value) (key : Field) (visitor : Visit V) (st : V) : V :=
  match v with
  | VF64 v => record_f64 visitor key v st
  | VI64 v => record_i64 visitor key v st
  | VU64 v => record_u64 visitor key v st
  | VI128 v => record_i128 visitor key v st
  | VU128 v => record_u128 visitor key v st
  | VBool v => record_bool visitor key v st
  | VStr v => record_str visitor key v st
  | VBytes v => record_bytes visitor key v st
  | VError v => record_error visitor key v st
  | VDebug v => record_debug visitor key v st
  | VEmpty => st
  | VNone => st
  | VSome v => value_record v key visitor st
  end.

(** [impl Debug for HexBytes] *)
Definition hex_digit (n : Z) : string :=
  match String.get (Z.to_nat n) "0123456789abcdef" with
  | Some a => String a EmptyString
  | None => EmptyString
  end.
Definition hex_byte (b : Z) : string := hex_digit (b / 16) +:+ hex_digit (b mod 16).
Definition hex_bytes_fmt (bytes : list Z) : string :=
  "[" +:+
  match bytes with
  | [] => ""
  | byte :: bytes =>
      hex_byte byte +:+ foldr (fun b acc => " " +:+ hex_byte b +:+ acc) "" bytes
  end +:+ "]".

(** ** [struct ValueSet], [enum Values] *)

Inductive Values :=
  | Explicit (values : list (Field * option Value))
  | All (values : list (option Value)).
Record ValueSet := { values : Values; vs_fields : FieldSet }.

Module ValueSet.

Definition callsite (self : ValueSet) : Identifier := FieldSet.callsite (vs_fields self).
Definition fields (self : ValueSet) : FieldSet := vs_fields self.

(** [FieldSet::value_set]; [FieldSet::value_set_all] checks the length in a debug
    build. *)
Definition value_set (fs : FieldSet) (vals : list (Field * option Value)) : ValueSet :=
  {| values := Explicit vals; vs_fields := fs |}.
Definition value_set_all (debug_assertions : bool) (fs : FieldSet)
    (vals : list (option Value)) : outcome ValueSet :=
  if debug_assertions && negb (Z.of_nat (length vals) =? FieldSet.len fs)%Z then Panic
  else Done {| values := All vals; vs_fields := fs |}.

(** [ValueSet::record] *)
Definition record_explicit {V} (my_callsite : Identifier) (visitor : Visit V) (st : V)
    (vals : list (Field * option Value)) : V :=
  fold_left (fun st '(field, value) =>
    if negb (Field.callsite field =? my_callsite)%N then st
    else match value with
         | Some value => value_record value field visitor st
         | None => st
         end) vals st.
Definition record_all {V} (fs : FieldSet) (visitor : Visit V) (st : V)
    (vals : list (option Value)) : V :=
  fold_left (fun st '(field, value) =>
    match value with
    | Some value => value_record value field visitor st
    | None => st
    end) (combine (FieldSet.iter fs) vals) st.
Definition record {V} (self : ValueSet) (visitor : Visit V) (st : V) : V :=
  match values self with
  | Explicit vals => record_explicit (callsite self) visitor st vals
  | All vals => record_all (vs_fields self) visitor st vals
  end.

(** [ValueSet::len] *)
Definition len (self : ValueSet) : nat :=
  match values self with
  | Explicit vals =>
      length (List.filter (fun '(field, _) => (Field.callsite field =? callsite self)%N) vals)
  | All vals => length vals
  end.

(** [ValueSet::contains]; the [All] branch is an array access. *)
Definition contains (self : ValueSet) (field : Field) : outcome bool :=
  if negb (Field.callsite field =? callsite self)%N then Done false
  else match values self with
       | Explicit vals =>
           Done (existsb (fun '(key, val) => Field.eq key field && bool_decide (is_Some val)) vals)
       | All vals => v ← index vals (field_i field); mret (bool_decide (is_Some v))
       end.

(** [ValueSet::is_empty] *)
Definition is_empty (self : ValueSet) : bool :=
  match values self with
  | All vals => forallb (fun v => negb (bool_decide (is_Some v))) vals
  | Explicit vals =>
      forallb (fun '(key, val) =>
        negb (bool_decide (is_Some val)) || negb (Field.callsite key =? callsite self)%N) vals
  end.

End ValueSet.

(** ** Properties *)

Section index_lemmas.
Context {A : Type}.
Implicit Types (l : list A).

Lemma index_nat l k : index l (Z.of_nat k) = expect (l !! k).
Proof.
  unfold index. rewrite Nat2Z.id.
  destruct (decide (k < length l)%nat) as [H|H].
  - by rewrite (proj2 (Z.leb_le _ _)), (proj2 (Z.ltb_lt _ _)) by lia.
  - rewrite (proj2 (Z.ltb_ge _ _)), andb_false_r by lia.
    by rewrite lookup_ge_None_2 by lia.
Qed.

Lemma index_Done l k x : index l k = Done x <-> (0 <= k)%Z /\ l !! Z.to_nat k = Some x.
Proof.
  unfold index, expect. split.
  - destruct ((0 <=? k)%Z && _) eqn:E; [|done]. bool_to_prop.
    destruct (l !! Z.to_nat k); [by intros [= ->]|done].
  - intros [H1 H2]. pose proof (lookup_lt_Some _ _ _ H2).
    by rewrite (proj2 (Z.leb_le _ _)), (proj2 (Z.ltb_lt _ _)), H2 by lia.
Qed.

Lemma index_Panic l k : (Z.of_nat (length l) <= k)%Z -> index l k = Panic.
Proof. intros H. unfold index. by rewrite (proj2 (Z.ltb_ge _ _)), andb_false_r by lia. Qed.

End index_lemmas.

(** The field number [k] of a set. *)
Definition nth_field (fs : FieldSet) (k : nat) : Field :=
  {| field_i := Z.of_nat k; field_set := fs |}.

Lemma FieldSet_eta fs : {| fs_names := fs_names fs; fs_callsite := FieldSet.callsite fs |} = fs.
Proof. by destruct fs. Qed.

Lemma iter_nth_field fs : FieldSet.iter fs = map (nth_field fs) (seq 0 (length (fs_names fs))).
Proof.
  unfold FieldSet.iter. apply map_ext. intros k. unfold nth_field. by rewrite FieldSet_eta.
Qed.

Lemma elem_of_iter fs f :
  f ∈ FieldSet.iter fs <-> exists k, (k < length (fs_names fs))%nat /\ f = nth_field fs k.
Proof.
  rewrite iter_nth_field, list_elem_of_In, in_map_iff.
  split; intros (k & H1 & H2); exists k.
  - apply in_seq in H2. split; [lia|done].
  - subst. split; [done|]. apply in_seq. lia.
Qed.

(** Looking a field up by name returns the first field that bears the name: it
    belongs to the set's iterator, [Field::name] gives the name back without
    panicking, [contains] accepts it and no earlier field bears the name; and the
    lookup fails exactly on the names that the set does not declare. *)
Theorem field_lookup (fs : FieldSet) (nm : string) :
  match FieldSet.field fs nm with
  | Some f =>
      f ∈ FieldSet.iter fs /\ Field.name f = Done nm /\ FieldSet.contains fs f = true /\
      forall g, g ∈ FieldSet.iter fs -> Field.name g = Done nm -> (field_i f <= field_i g)%Z
  | None => nm ∉ fs_names fs
  end.
Proof.
  unfold FieldSet.field. destruct (position _ _) as [k|] eqn:E; simpl.
  - apply position_Some in E as (x & Hx & Heq & Hfirst).
    apply String.eqb_eq in Heq as ->. pose proof (lookup_lt_Some _ _ _ Hx).
    split_and!.
    + apply elem_of_iter. exists k. split; [done|]. unfold nth_field. by rewrite FieldSet_eta.
    + unfold Field.name. simpl. by rewrite index_nat, Hx.
    + unfold FieldSet.contains, FieldSet.len. simpl. rewrite N.eqb_refl. apply Z.leb_le. lia.
    + intros g (j & Hj & ->)%elem_of_iter. unfold Field.name. simpl. rewrite index_nat.
      destruct (fs_names fs !! j) as [y|] eqn:Hy; [|done]. intros [= ->].
      apply Z.ge_le, Znot_lt_ge. intros Hlt.
      specialize (Hfirst j nm ltac:(lia) Hy). by rewrite String.eqb_refl in Hfirst.
  - apply position_None in E. rewrite Forall_forall in E. intros Hin.
    specialize (E _ Hin). simpl in E. by rewrite String.eqb_refl in E.
Qed.

(** [FieldSet::contains] is off by one: it accepts, besides the fields of the
    set, the index one past the last field, whose name access panics. *)
Theorem contains_one_past_end (fs : FieldSet) (f : Field) :
  (FieldSet.contains fs f = true <->
     Field.callsite f = FieldSet.callsite fs /\ (field_i f <= FieldSet.len fs)%Z) /\
  FieldSet.contains fs (nth_field fs (length (fs_names fs))) = true /\
  Field.name (nth_field fs (length (fs_names fs))) = Panic.
Proof.
  unfold FieldSet.contains, Field.callsite, FieldSet.callsite, FieldSet.len. split_and!.
  - by rewrite andb_true_iff, N.eqb_eq, Z.leb_le.
  - simpl. by rewrite N.eqb_refl, Z.leb_refl.
  - apply index_Panic. simpl. lia.
Qed.

(** *** A value set is a list of recorded values

    The fields of the set's callsite that have a value, with the values, in the
    order in which a visitor sees them. *)
Definition entries (vs : ValueSet) : list (Field * option Value) :=
  match values vs with
  | Explicit l => l
  | All l => combine (FieldSet.iter (vs_fields vs)) l
  end.
Definition recorded (vs : ValueSet) : list (Field * Value) :=
  omap (fun '(f, v) =>
    if (Field.callsite f =? ValueSet.callsite vs)%N then (f,.) <$> v else None) (entries vs).

(** The length that [value_set_all] asserts. *)
Definition valid_value_set (vs : ValueSet) : Prop :=
  match values vs with
  | Explicit _ => True
  | All l => length l = length (fs_names (vs_fields vs))
  end.

Lemma combine_iter_callsite fs (l : list (option Value)) f v :
  (f, v) ∈ combine (FieldSet.iter fs) l -> Field.callsite f = FieldSet.callsite fs.
Proof.
  rewrite list_elem_of_In. intros H%in_combine_l.
  rewrite <- list_elem_of_In, elem_of_iter in H. by destruct H as (k & _ & ->).
Qed.

Lemma entries_All_callsite vs l f v :
  values vs = All l -> (f, v) ∈ entries vs -> Field.callsite f = ValueSet.callsite vs.
Proof. unfold entries. intros ->. apply combine_iter_callsite. Qed.

Lemma length_iter fs : length (FieldSet.iter fs) = length (fs_names fs).
Proof. unfold FieldSet.iter. by rewrite length_map, length_seq. Qed.

Lemma elem_of_recorded vs f v :
  (f, v) ∈ recorded vs <->
  (f, Some v) ∈ entries vs /\ Field.callsite f = ValueSet.callsite vs.
Proof.
  unfold recorded. rewrite list_elem_of_omap. split.
  - intros ([g [w|]] & Hin & H); destruct (N.eqb_spec (Field.callsite g) (ValueSet.callsite vs));
      simpl in H; simplify_eq; done.
  - intros [Hin Hc]. exists (f, Some v). split; [done|]. by rewrite Hc, N.eqb_refl.
Qed.

Lemma record_recorded {V} vs (visitor : Visit V) st :
  ValueSet.record vs visitor st =
  fold_left (fun st '(f, v) => value_record v f visitor st) (recorded vs) st.
Proof.
  unfold ValueSet.record, recorded, entries. destruct (values vs) as [l|l] eqn:E.
  - clear E. unfold ValueSet.record_explicit. revert st. induction l as [|[f v] l IH]; intros st; [done|].
    simpl. rewrite IH. destruct (N.eqb_spec (Field.callsite f) (ValueSet.callsite vs)); [|done].
    simpl. by destruct v.
  - unfold ValueSet.record_all.
    assert (forall f v, (f, v) ∈ combine (FieldSet.iter (vs_fields vs)) l ->
              Field.callsite f = ValueSet.callsite vs) as Hc by apply combine_iter_callsite.
    revert st Hc. generalize (combine (FieldSet.iter (vs_fields vs)) l). clear E l.
    intros l. induction l as [|[f v] l IH]; intros st Hc; [done|].
    simpl. rewrite IH by (intros; eapply Hc; by right).
    rewrite (Hc f v) by by left. rewrite N.eqb_refl. by destruct v.
Qed.

Lemma recorded_nil vs :
  recorded vs = [] <->
  forall f v, (f, v) ∈ entries vs -> Field.callsite f = ValueSet.callsite vs -> v = None.
Proof.
  split.
  - intros H f [v|] Hin Hc; [|done]. exfalso.
    assert ((f, v) ∈ recorded vs) as Hr by by apply elem_of_recorded.
    rewrite H in Hr. by apply not_elem_of_nil in Hr.
  - intros H. destruct (recorded vs) as [|[f v] r] eqn:E; [done|].
    assert ((f, v) ∈ recorded vs) as (Hin & Hc)%elem_of_recorded by (rewrite E; by left).
    by specialize (H _ _ Hin Hc).
Qed.

Lemma is_empty_entries vs :
  valid_value_set vs ->
  ValueSet.is_empty vs = true <->
  forall f v, (f, v) ∈ entries vs -> Field.callsite f = ValueSet.callsite vs -> v = None.
Proof.
  unfold ValueSet.is_empty, valid_value_set, entries. destruct (values vs) as [l|l] eqn:E.
  - intros _. rewrite forallb_forall. split.
    + intros H f v Hin Hc. specialize (H (f, v)). rewrite <- list_elem_of_In in H.
      specialize (H Hin). simpl in H. rewrite Hc, N.eqb_refl, orb_false_r in H.
      bool_to_prop. by apply eq_None_not_Some.
    + intros H [f v] Hin. rewrite <- list_elem_of_In in Hin. simpl.
      destruct (N.eqb_spec (Field.callsite f) (ValueSet.callsite vs)) as [Hc|Hc];
        [|by rewrite orb_true_r].
      by rewrite (H f v Hin Hc).
  - intros Hlen. rewrite forallb_forall. split.
    + intros H f v Hin _. rewrite list_elem_of_In in Hin. apply in_combine_r in Hin.
      specialize (H v Hin). bool_to_prop. by apply eq_None_not_Some.
    + intros H v Hin. rewrite <- list_elem_of_In in Hin.
      apply list_elem_of_lookup in Hin as [k Hk].
      assert (Hlt := lookup_lt_Some _ _ _ Hk).
      assert ((nth_field (vs_fields vs) k, v) ∈ combine (FieldSet.iter (vs_fields vs)) l) as Hin'.
      { apply list_elem_of_lookup. exists k. apply lookup_zip_with_Some.
        exists (nth_field (vs_fields vs) k), v. split_and!; [done| |done].
        rewrite iter_nth_field, list_lookup_fmap, lookup_seq_lt by lia. done. }
      by rewrite (H _ _ Hin' (combine_iter_callsite _ _ _ _ Hin')).
Qed.

Lemma field_eq_same_set vs f g :
  f ∈ FieldSet.iter (vs_fields vs) -> g ∈ FieldSet.iter (vs_fields vs) ->
  Field.eq g f = true <-> g = f.
Proof.
  intros (j & _ & ->)%elem_of_iter (k & _ & ->)%elem_of_iter. unfold Field.eq, nth_field. simpl.
  unfold Field.callsite. simpl. rewrite N.eqb_refl, andb_true_l, Z.eqb_eq.
  split; [by intros ->%Nat2Z.inj | congruence].
Qed.

Lemma contains_Explicit vs l f :
  values vs = Explicit l -> Field.callsite f = ValueSet.callsite vs ->
  exists b, ValueSet.contains vs f = Done b /\
    (b = true <-> exists g v, (g, v) ∈ recorded vs /\ Field.eq g f = true).
Proof.
  intros E Hc. unfold ValueSet.contains. rewrite Hc, N.eqb_refl, E. simpl.
  setoid_rewrite elem_of_recorded. unfold entries. rewrite E.
  eexists. split; [done|]. rewrite existsb_exists. split.
  - intros ([g v] & Hin & [Heq Hv]%andb_true_iff).
    apply bool_decide_eq_true in Hv as [v' ->].
    exists g, v'. rewrite list_elem_of_In. split_and!; [done| |done].
    rewrite <- Hc. apply andb_true_iff in Heq as [Heq _]. by apply N.eqb_eq.
  - intros (g & v & [Hin _] & Heq). exists (g, Some v).
    rewrite <- list_elem_of_In, Heq. split; [done|]. by rewrite bool_decide_true by eauto.
Qed.

Lemma elem_of_combine_iter fs (l : list (option Value)) k v :
  length l = length (fs_names fs) ->
  (nth_field fs k, v) ∈ combine (FieldSet.iter fs) l <-> l !! k = Some v.
Proof.
  intros Hlen. rewrite list_elem_of_lookup. split.
  - intros (j & Hj). apply lookup_zip_with_Some in Hj as (g & w & [= Hg Hv] & Hgj & Hw).
    rewrite iter_nth_field, list_lookup_fmap in Hgj.
    apply fmap_Some in Hgj as (j' & Hj' & Hjk). apply lookup_seq in Hj' as [-> _].
    rewrite Hjk in Hg. injection Hg as Hg. apply Nat2Z.inj in Hg. simpl in Hg. by subst.
  - intros Hv. exists k. apply lookup_zip_with_Some. exists (nth_field fs k), v.
    split_and!; [done| |done]. pose proof (lookup_lt_Some _ _ _ Hv).
    by rewrite iter_nth_field, list_lookup_fmap, lookup_seq_lt by lia.
Qed.

Lemma contains_All vs l f :
  values vs = All l -> valid_value_set vs -> f ∈ FieldSet.iter (vs_fields vs) ->
  exists b, ValueSet.contains vs f = Done b /\
    (b = true <-> exists g v, (g, v) ∈ recorded vs /\ Field.eq g f = true).
Proof.
  unfold valid_value_set. intros E Hlen Hf. rewrite E in Hlen.
  pose proof Hf as (k & Hk & ->)%elem_of_iter.
  assert (exists v, l !! k = Some v) as [v Hv] by (apply lookup_lt_is_Some; lia).
  unfold ValueSet.contains. rewrite E, N.eqb_refl. simpl. rewrite index_nat, Hv. simpl.
  eexists. split; [done|]. setoid_rewrite elem_of_recorded. unfold entries. rewrite E.
  rewrite bool_decide_eq_true. split.
  - intros [w ->]. exists (nth_field (vs_fields vs) k), w.
    rewrite elem_of_combine_iter by done. split; [done|].
    by apply field_eq_same_set with (vs := vs).
  - intros (g & w & [Hin _] & Heq).
    assert (g ∈ FieldSet.iter (vs_fields vs)) as Hg.
    { apply list_elem_of_In. apply list_elem_of_In in Hin. by eapply in_combine_l. }
    apply (field_eq_same_set vs) in Heq; [|done..]. subst g.
    rewrite elem_of_combine_iter in Hin by done. exists w. congruence.
Qed.

(** Whatever its representation ([Explicit] pairs, possibly with foreign
    fields, or [All] positional values), a value set behaves as its list of
    recorded values: recording visits exactly these, in order; the set is empty
    exactly when there is none; and for a field of the set [contains] does not
    panic and tells whether the field has a recorded value. *)
Theorem value_set_refines (vs : ValueSet) (Hvalid : valid_value_set vs) :
  (forall V (visitor : Visit V) st,
     ValueSet.record vs visitor st =
     fold_left (fun st '(f, v) => value_record v f visitor st) (recorded vs) st) /\
  (ValueSet.is_empty vs = true <-> recorded vs = []) /\
  (forall f, f ∈ FieldSet.iter (vs_fields vs) ->
     exists b, ValueSet.contains vs f = Done b /\
       (b = true <-> exists g v, (g, v) ∈ recorded vs /\ Field.eq g f = true)).
Proof.
  split; [intros; apply record_recorded|].
  split; [by rewrite is_empty_entries, recorded_nil|].
  intros f Hf. destruct (values vs) as [l|l] eqn:E.
  - apply contains_Explicit with (l := l); [done|].
    by apply elem_of_iter in Hf as (k & _ & ->).
  - by apply contains_All with (l := l).
Qed.

(** ** A concrete instance *)

Definition example_fields : FieldSet := FieldSet.new ["a"; "b"; "c"] 7%N.
Definition example_values : ValueSet :=
  {| values := All [Some (VBool true); None; Some (VU64 3)]; vs_fields := example_fields |}.

Lemma value_set_refines_witness :
  length (recorded example_values) = 2%nat /\
  ValueSet.is_empty example_values = false /\
  ValueSet.contains example_values (nth_field example_fields 1) = Done false.
Proof.
  destruct (value_set_refines example_values eq_refl) as (_ & He & Hc).
  split; [reflexivity|]. split.
  - apply not_true_is_false. intros E. apply He in E. discriminate E.
  - destruct (Hc (nth_field example_fields 1)) as (b & Hb & _).
    + apply elem_of_iter. exists 1%nat. split; [simpl; lia|reflexivity].
    + rewrite Hb. vm_compute in Hb. injection Hb as <-. reflexivity.
Defined.
