(* ===== verification/Meta.v ===== *)
(** * Meta: [Metadata] and [Kind] of [tracing-core/src/metadata.rs], the span
    identifiers and attributes of [tracing-core/src/span.rs], and the events of
    [tracing-core/src/event.rs] *)

From S2P Require Import Prelude.
From S2P Require Import Str.
From S2P Require Import Levels.
From S2P Require Import Fields.

(** ** [struct Kind(u8)] *)

Record Kind := { kind_bits : Z }.

#[export] Instance Kind_eq_dec : EqDecision Kind.
Proof. solve_decision. Defined.

Module Kind.

Definition EVENT_BIT : Z := Z.shiftl 1 0.
Definition SPAN_BIT : Z := Z.shiftl 1 1.
Definition HINT_BIT : Z := Z.shiftl 1 2.

Definition EVENT : Kind := {| kind_bits := EVENT_BIT |}.
Definition SPAN : Kind := {| kind_bits := SPAN_BIT |}.
Definition HINT : Kind := {| kind_bits := HINT_BIT |}.

Definition is_span (self : Kind) : bool := (Z.land (kind_bits self) SPAN_BIT =? SPAN_BIT)%Z.
Definition is_event (self : Kind) : bool := (Z.land (kind_bits self) EVENT_BIT =? EVENT_BIT)%Z.
Definition is_hint (self : Kind) : bool := (Z.land (kind_bits self) HINT_BIT =? HINT_BIT)%Z.

(** [Kind::hint]: or-s the hint bit in. *)
Definition hint (self : Kind) : Kind := {| kind_bits := Z.lor (kind_bits self) HINT_BIT |}.

End Kind.

(** ** [struct Metadata] *)

Record Metadata := {
  meta_name : string;
  meta_target : string;
  meta_level : Level.t;
  meta_module_path : option string;
  meta_file : option string;
  meta_line : option Z;
  meta_fields : FieldSet;
  meta_kind : Kind;
}.

Module Metadata.

Definition new (name target : string) (level : Level.t) (file : option string)
    (line : option Z) (module_path : option string) (fields : FieldSet) (kind : Kind) :
    Metadata := {|
  meta_name := name; meta_target := target; meta_level := level;
  meta_module_path := module_path; meta_file := file; meta_line := line;
  meta_fields := fields; meta_kind := kind;
|}.

Definition fields (self : Metadata) : FieldSet := meta_fields self.
Definition level (self : Metadata) : Level.t := meta_level self.
Definition name (self : Metadata) : string := meta_name self.
Definition target (self : Metadata) : string := meta_target self.
Definition module_path (self : Metadata) : option string := meta_module_path self.
Definition file (self : Metadata) : option string := meta_file self.
Definition line (self : Metadata) : option Z := meta_line self.
Definition callsite (self : Metadata) : Identifier := FieldSet.callsite (meta_fields self).
Definition is_event (self : Metadata) : bool := Kind.is_event (meta_kind self).
Definition is_span (self : Metadata) : bool := Kind.is_span (meta_kind self).

(** [impl PartialEq for Metadata]: [same_object] is the pointer comparison. *)
Definition eq (debug_assertions same_object : bool) (self other : Metadata) : bool :=
  if same_object then true
  else if negb debug_assertions then (callsite self =? callsite other)%N
  else
    (callsite self =? callsite other)%N &&
    String.eqb (meta_name self) (meta_name other) &&
    String.eqb (meta_target self) (meta_target other) &&
    bool_decide (meta_level self = meta_level other) &&
    bool_decide (meta_module_path self = meta_module_path other) &&
    bool_decide (meta_file self = meta_file other) &&
    bool_decide (meta_line self = meta_line other) &&
    FieldSet.eq debug_assertions (meta_fields self) (meta_fields other) &&
    bool_decide (meta_kind self = meta_kind other).

End Metadata.

(** ** [span::Id(NonZeroU64)] *)

Record Id := { id_u64 : N }.

#[export] Instance Id_eq_dec : EqDecision Id.
Proof. solve_decision. Defined.
#[export] Instance Id_countable : Countable Id.
Proof.
  refine (inj_countable' id_u64 (fun n => {| id_u64 := n |}) _). by intros [].
Defined.

Module Id.

(** [Id::from_u64] panics on zero. *)
Definition from_u64 (u : N) : outcome Id :=
  if (u =? 0)%N then Panic else Done {| id_u64 := u |}.
Definition into_u64 (self : Id) : N := id_u64 self.

End Id.

(** ** [enum Parent], [struct Attributes], [struct Event] *)

Inductive Parent :=
  | Root
  | Current
  | ParentExplicit (id : Id).

Record Attributes := {
  attr_metadata : Metadata;
  attr_values : ValueSet;
  attr_parent : Parent;
}.

Module Attributes.

Definition new (m : Metadata) (vs : ValueSet) : Attributes :=
  {| attr_metadata := m; attr_values := vs; attr_parent := Current |}.
Definition new_root (m : Metadata) (vs : ValueSet) : Attributes :=
  {| attr_metadata := m; attr_values := vs; attr_parent := Root |}.
Definition child_of (parent : Id) (m : Metadata) (vs : ValueSet) : Attributes :=
  {| attr_metadata := m; attr_values := vs; attr_parent := ParentExplicit parent |}.

Definition metadata (self : Attributes) : Metadata := attr_metadata self.
Definition values (self : Attributes) : ValueSet := attr_values self.
Definition is_root (self : Attributes) : bool :=
  match attr_parent self with Root => true | _ => false end.
Definition is_contextual (self : Attributes) : bool :=
  match attr_parent self with Current => true | _ => false end.
Definition parent (self : Attributes) : option Id :=
  match attr_parent self with ParentExplicit p => Some p | _ => None end.

Definition record {V} (self : Attributes) (visitor : Visit V) (st : V) : V :=
  ValueSet.record (attr_values self) visitor st.
Definition contains (self : Attributes) (field : Field) : outcome bool :=
  ValueSet.contains (attr_values self) field.
Definition is_empty (self : Attributes) : bool := ValueSet.is_empty (attr_values self).
Definition fields (self : Attributes) : FieldSet := ValueSet.fields (attr_values self).

End Attributes.

(** [struct Record]: the values of a [record] call. *)
Module Record_.

Definition new (vs : ValueSet) : ValueSet := vs.
Definition record {V} (self : ValueSet) (visitor : Visit V) (st : V) : V :=
  ValueSet.record self visitor st.
Definition len (self : ValueSet) : nat := ValueSet.len self.
Definition contains (self : ValueSet) (field : Field) : outcome bool :=
  ValueSet.contains self field.
Definition is_empty (self : ValueSet) : bool := ValueSet.is_empty self.

End Record_.

(** [struct Current], [enum CurrentInner] *)
Inductive CurrentInner :=
  | CurrentSpan (id : Id) (metadata : Metadata)
  | CurrentNone
  | CurrentUnknown.

Module CurrentSpans.

Definition new (id : Id) (m : Metadata) : CurrentInner := CurrentSpan id m.
Definition none : CurrentInner := CurrentNone.
Definition unknown : CurrentInner := CurrentUnknown.
Definition is_known (self : CurrentInner) : bool :=
  match self with CurrentUnknown => false | _ => true end.
Definition into_inner (self : CurrentInner) : option (Id * Metadata) :=
  match self with CurrentSpan id m => Some (id, m) | _ => None end.
Definition id (self : CurrentInner) : option Id :=
  match self with CurrentSpan id _ => Some id | _ => None end.
Definition metadata (self : CurrentInner) : option Metadata :=
  match self with CurrentSpan _ m => Some m | _ => None end.

End CurrentSpans.

Record Event := {
  event_fields : ValueSet;
  event_metadata : Metadata;
  event_parent : Parent;
}.

Module Event.

Definition new (m : Metadata) (vs : ValueSet) : Event :=
  {| event_fields := vs; event_metadata := m; event_parent := Current |}.
Definition new_child_of (parent : option Id) (m : Metadata) (vs : ValueSet) : Event :=
  {| event_fields := vs; event_metadata := m;
     event_parent := match parent with Some p => ParentExplicit p | None => Root end |}.
Definition record {V} (self : Event) (visitor : Visit V) (st : V) : V :=
  ValueSet.record (event_fields self) visitor st.
Definition fields (self : Event) : list Field :=
  FieldSet.iter (ValueSet.fields (event_fields self)).
Definition metadata (self : Event) : Metadata := event_metadata self.
Definition is_root (self : Event) : bool :=
  match event_parent self with Root => true | _ => false end.
Definition is_contextual (self : Event) : bool :=
  match event_parent self with Current => true | _ => false end.
Definition parent (self : Event) : option Id :=
  match event_parent self with ParentExplicit p => Some p | _ => None end.

End Event.

(** ** Properties *)

(** The kinds that the constructors can build. *)
Inductive built_kind : Kind -> Prop :=
  | built_event : built_kind Kind.EVENT
  | built_span : built_kind Kind.SPAN
  | built_only_hint : built_kind Kind.HINT
  | built_hint k : built_kind k -> built_kind (Kind.hint k).

Lemma kind_hint_flags k :
  Kind.is_span (Kind.hint k) = Kind.is_span k /\
  Kind.is_event (Kind.hint k) = Kind.is_event k /\
  Kind.is_hint (Kind.hint k) = true.
Proof.
  destruct k as [b]. unfold Kind.is_span, Kind.is_event, Kind.is_hint, Kind.hint. simpl.
  rewrite !Z.land_lor_distr_l.
  replace (Z.land Kind.HINT_BIT Kind.SPAN_BIT) with 0%Z by done.
  replace (Z.land Kind.HINT_BIT Kind.EVENT_BIT) with 0%Z by done.
  rewrite !Z.lor_0_r, Z.land_diag. split_and!; [done..|].
  apply Z.eqb_eq, Z.bits_inj'. intros n Hn. rewrite Z.lor_spec, Z.land_spec.
  by destruct (Z.testbit b n), (Z.testbit Kind.HINT_BIT n).
Qed.

Lemma built_kind_exclusive k :
  built_kind k -> Kind.is_span k && Kind.is_event k = false.
Proof.
  induction 1 as [| | |k _ IH]; [done..|].
  destruct (kind_hint_flags k) as (-> & -> & _). done.
Qed.

(** Metadata for the concrete instances of the theorems. *)
Definition example_metadata (callsite : Identifier) : Metadata :=
  Metadata.new "example" "app::db" Level.INFO None None None
    (FieldSet.new ["a"; "b"] callsite) Kind.SPAN.
