(* ===== verification/Interests.v ===== *)
(** * Interests: [Interest] of [tracing-core/src/subscriber.rs] and the interface
    of a subscriber towards the callsite registry *)

From S2P Require Import Prelude.
From S2P Require Import Ord.
From S2P Require Import Levels.
From S2P Require Import Fields.
From S2P Require Import Meta.

(** [struct Interest(InterestKind)] *)
Inductive Interest := Never | Sometimes | Always.

#[export] Instance Interest_eq_dec : EqDecision Interest.
Proof. solve_decision. Defined.

Module Interest.

Definition never : Interest := Never.
Definition sometimes : Interest := Sometimes.
Definition always : Interest := Always.
Definition is_never (self : Interest) : bool :=
  match self with Never => true | _ => false end.
Definition is_sometimes (self : Interest) : bool :=
  match self with Sometimes => true | _ => false end.
Definition is_always (self : Interest) : bool :=
  match self with Always => true | _ => false end.

(** [Interest::and] *)
Definition and (self rhs : Interest) : Interest :=
  if bool_decide (self = rhs) then self else sometimes.

End Interest.

(** ** What the registry of callsites sees of a [dyn Subscriber] *)

Record Subscriber := {
  sub_register_callsite : Metadata -> Interest;
  sub_enabled : Metadata -> bool;
  sub_max_level_hint : option LevelFilter.t;
}.

(** The default [Subscriber::register_callsite] and [max_level_hint]. *)
Definition default_register_callsite (enabled : Metadata -> bool) (metadata : Metadata) :
    Interest :=
  if enabled metadata then Interest.always else Interest.never.
Definition default_max_level_hint : option LevelFilter.t := None.

(** [impl Subscriber for NoSubscriber] *)
Definition NoSubscriber : Subscriber := {|
  sub_register_callsite := fun _ => Interest.never;
  sub_enabled := fun _ => false;
  sub_max_level_hint := default_max_level_hint;
|}.

(** The contract of [register_callsite] and [max_level_hint] in the trait's
    documentation: the answers may be cached instead of asking [enabled]. *)
Class SubscriberContract (s : Subscriber) : Prop := {
  contract_never m : sub_register_callsite s m = Never -> sub_enabled s m = false;
  contract_always m : sub_register_callsite s m = Always -> sub_enabled s m = true;
  contract_hint m f :
    sub_max_level_hint s = Some f -> sub_enabled s m = true ->
    LevelFilter.ge_level f (Metadata.level m) = true;
}.

#[export] Instance NoSubscriber_contract : SubscriberContract NoSubscriber.
Proof. by split. Qed.

#[export] Instance default_contract p :
  SubscriberContract {| sub_register_callsite := default_register_callsite p;
                        sub_enabled := p; sub_max_level_hint := default_max_level_hint |}.
Proof.
  split; simpl; [..|done]; intros m; unfold default_register_callsite;
    by destruct (p m).
Qed.

(** ** Combining interests *)

Lemma interest_and_comm a b : Interest.and a b = Interest.and b a.
Proof. by destruct a, b. Qed.

Lemma interest_and_assoc a b c :
  Interest.and a (Interest.and b c) = Interest.and (Interest.and a b) c.
Proof. by destruct a, b, c. Qed.

Lemma interest_and_unanimous a b x :
  x <> Sometimes -> Interest.and a b = x <-> a = x /\ b = x.
Proof. destruct a, b, x; vm_compute; intuition congruence. Qed.
