(* ===== verification/FilterIds.v ===== *)
(** * FilterIds: the per-layer filter bookkeeping of
    [tracing-subscriber/src/filter/layer_filters/mod.rs]

    [FilterId] masks, the [FilterMap] bitmap of the filters that disabled the span
    or event being recorded, and the thread-local [FilterState] that the [Filtered]
    layers and the [Registry] exchange it through. *)

From S2P Require Import Prelude.
From S2P Require Import Levels.
From S2P Require Import Fields.
From S2P Require Import Meta.
From S2P Require Import Interests.

Local Open Scope Z_scope.

(** ** [struct FilterId(u64)] *)

Module FilterId.

Record t := FilterId { mask : Z }.

#[global] Instance eq_dec : EqDecision t.
Proof. solve_decision. Defined.

Definition disabled : t := FilterId U64.MAX.
Definition none : t := FilterId 0.

(** [FilterId::new], of a [u8] *)
Definition new (id : Z) : outcome t :=
  _ ← assert (id <? 64);
  mret (FilterId (Z.shiftl 1 id)).

Definition and (self other : t) : t :=
  if mask self =? mask disabled then FilterId (mask other)
  else FilterId (Z.lor (mask self) (mask other)).

Definition is_disabled (self : t) : bool := mask self =? mask disabled.

End FilterId.

(** [FmtBitset]: the members that its [Debug] implementation lists. *)
Definition FmtBitset_entries (bits : Z) : list Z :=
  List.filter (fun bit => negb (Z.land bits (Z.shiftl 1 bit) =? 0)) (seqZ 0 64).

(** ** [struct FilterMap] *)

Module FilterMap.

Record t := FilterMap { bits : Z }.

#[global] Instance eq_dec : EqDecision t.
Proof. solve_decision. Defined.

Definition new : t := FilterMap 0.

Definition set (filter : FilterId.t) (enabled : bool) (self : t) : t :=
  let mask := FilterId.mask filter in
  if mask =? U64.MAX then self
  else if enabled then FilterMap (Z.land (bits self) (U64.not mask))
  else FilterMap (Z.lor (bits self) mask).

Definition is_enabled (filter : FilterId.t) (self : t) : bool :=
  Z.land (bits self) (FilterId.mask filter) =? 0.

Definition any_enabled (self : t) : bool := negb (bits self =? U64.MAX).

End FilterMap.

(** ** [struct FilterState]

    The counters exist only in a build with debug assertions; without them they stay
    at zero. *)

Record FilterState := {
  enabled_ : FilterMap.t;
  interest_ : option Interest;
  in_filter_pass : nat;
  in_interest_pass : nat;
}.

Module FilterState.

(** The interior mutability of the [Cell]s. *)
Definition set_enabled (map : FilterMap.t) (self : FilterState) : FilterState :=
  {| enabled_ := map; interest_ := interest_ self; in_filter_pass := in_filter_pass self;
     in_interest_pass := in_interest_pass self |}.
Definition set_interest (i : option Interest) (self : FilterState) : FilterState :=
  {| enabled_ := enabled_ self; interest_ := i; in_filter_pass := in_filter_pass self;
     in_interest_pass := in_interest_pass self |}.
Definition set_filter_pass (n : nat) (self : FilterState) : FilterState :=
  {| enabled_ := enabled_ self; interest_ := interest_ self; in_filter_pass := n;
     in_interest_pass := in_interest_pass self |}.
Definition set_interest_pass (n : nat) (self : FilterState) : FilterState :=
  {| enabled_ := enabled_ self; interest_ := interest_ self;
     in_filter_pass := in_filter_pass self; in_interest_pass := n |}.

Definition new : FilterState :=
  {| enabled_ := FilterMap.new; interest_ := None; in_filter_pass := 0; in_interest_pass := 0 |}.

Section ops.
(** [cfg(debug_assertions)] *)
Variable debug_assertions : bool.

(** [debug_assert!] and a [#[cfg(debug_assertions)]] block *)
Definition debug_assert (b : bool) : outcome unit :=
  if debug_assertions then assert b else Done tt.
Definition when_debug (f : FilterState -> FilterState) (self : FilterState) : FilterState :=
  if debug_assertions then f self else self.

Definition set (filter : FilterId.t) (enabled : bool) (self : FilterState) :
    outcome FilterState :=
  let in_current_pass := in_filter_pass self in
  _ ← debug_assert (negb (in_current_pass =? 0)%nat || bool_decide (enabled_ self = FilterMap.new));
  let self := when_debug (set_filter_pass (in_current_pass + 1)) self in
  _ ← debug_assert (in_interest_pass self =? 0)%nat;
  mret (set_enabled (FilterMap.set filter enabled (enabled_ self)) self).

Definition add_interest (interest : Interest) (self : FilterState) : outcome FilterState :=
  let in_current_pass := in_interest_pass self in
  _ ← debug_assert (negb (in_current_pass =? 0)%nat || bool_decide (interest_ self = None));
  let self := when_debug (set_interest_pass (in_current_pass + 1)) self in
  mret (match interest_ self with
        | Some curr_interest =>
            if (Interest.is_always curr_interest && negb (Interest.is_always interest))
               || (Interest.is_never curr_interest && negb (Interest.is_never interest))
            then set_interest (Some Interest.sometimes) self
            else self
        | None => set_interest (Some interest) self
        end).

(** [FilterState::event_enabled] (the thread-local is alive) *)
Definition event_enabled (self : FilterState) : outcome (bool * FilterState) :=
  let enabled := FilterMap.any_enabled (enabled_ self) in
  _ ← debug_assert (negb (in_filter_pass self =? 0)%nat || bool_decide (enabled_ self = FilterMap.new));
  mret (enabled, if negb enabled then when_debug (set_filter_pass 0) self else self).

(** [FilterState::did_enable] before and after the callback: whether the callback
    runs, and the debug checks that follow it. *)
Definition did_enable_before (filter : FilterId.t) (self : FilterState) : bool * FilterState :=
  let map := enabled_ self in
  if FilterMap.is_enabled filter map then (true, self)
  else (false, set_enabled (FilterMap.set filter true map) self).
Definition did_enable_after (self : FilterState) : outcome FilterState :=
  let in_current_pass := in_filter_pass self in
  _ ← debug_assert (negb (in_current_pass <=? 1)%nat || bool_decide (enabled_ self = FilterMap.new));
  let self := when_debug (set_filter_pass (pred in_current_pass)) self in
  _ ← debug_assert (in_interest_pass self =? 0)%nat;
  mret self.

(** [FilterState::and] after its callback answered [f] (which is only asked when the
    filter is enabled). *)
Definition and (filter : FilterId.t) (map : FilterMap.t) (enabled : bool) (self : FilterState) :
    FilterState :=
  set_enabled (FilterMap.set filter enabled map) self.

Definition clear_enabled (self : FilterState) : FilterState :=
  when_debug (set_filter_pass 0) (set_enabled FilterMap.new self).

Definition take_interest (self : FilterState) : outcome (option Interest * FilterState) :=
  _ ← debug_assert (negb (in_interest_pass self =? 0)%nat || bool_decide (interest_ self = None));
  let self := when_debug (set_interest_pass 0) self in
  mret (interest_ self, set_interest None self).

Definition filter_map (self : FilterState) : outcome FilterMap.t :=
  let map := enabled_ self in
  _ ← debug_assert (negb (in_filter_pass self =? 0)%nat || bool_decide (map = FilterMap.new));
  mret map.

End ops.

End FilterState.

(** ** Words as sets of filter indices *)

(** The set bits of a word. *)
Definition members (w : Z) : gset Z := list_to_set (FmtBitset_entries w).
Definition all_filters : gset Z := list_to_set (seqZ 0 64).

Lemma land_bit_testbit w i :
  0 <= i -> negb (Z.land w (Z.shiftl 1 i) =? 0) = Z.testbit w i.
Proof.
  intros Hi. apply eq_bool_prop_intro. rewrite !Is_true_true, negb_true_iff, Z.eqb_neq.
  assert (forall j, 0 <= j -> Z.testbit (Z.shiftl 1 i) j = (j =? i)) as Hbit.
  { intros j Hj. rewrite Z.shiftl_1_l, Z.pow2_bits_eqb by done. apply Z.eqb_sym. }
  split.
  - intros Hne. apply not_false_is_true. intros Hw. apply Hne, Z.bits_inj'. intros j Hj.
    rewrite Z.land_spec, Hbit, Z.bits_0 by done.
    destruct (Z.eqb_spec j i) as [->|]; [by rewrite Hw | apply andb_false_r].
  - intros Hw H0. assert (Z.testbit (Z.land w (Z.shiftl 1 i)) i = true) as H1.
    { by rewrite Z.land_spec, Hbit, Hw, Z.eqb_refl by done. }
    by rewrite H0, Z.bits_0 in H1.
Qed.

Lemma elem_members i w : i ∈ members w <-> 0 <= i < 64 /\ Z.testbit w i = true.
Proof.
  unfold members, FmtBitset_entries. rewrite elem_of_list_to_set, list_elem_of_In, filter_In,
    <- list_elem_of_In, elem_of_seqZ.
  split; intros [Hi Hb]; (split; [lia|]).
  - rewrite <- Hb. symmetry. apply land_bit_testbit. lia.
  - rewrite <- Hb. apply land_bit_testbit. lia.
Qed.

Lemma elem_all_filters i : i ∈ all_filters <-> 0 <= i < 64.
Proof. unfold all_filters. rewrite elem_of_list_to_set, elem_of_seqZ. lia. Qed.

Lemma max_ones : U64.MAX = Z.ones 64.
Proof. done. Qed.

Lemma valid_high w i : U64.valid w -> 64 <= i -> Z.testbit w i = false.
Proof.
  unfold U64.valid. rewrite max_ones, Z.ones_equiv. intros [H0 H1] Hi.
  destruct (Z.eqb_spec w 0) as [->|Hw]; [apply Z.bits_0|].
  apply Z.bits_above_log2; [done|]. enough (Z.log2 w < 64) by lia.
  apply Z.log2_lt_pow2; lia.
Qed.

Lemma valid_bits w : 0 <= w -> (forall i, 64 <= i -> Z.testbit w i = false) -> U64.valid w.
Proof.
  intros H0 Hb. split; [done|]. rewrite max_ones, Z.ones_equiv.
  enough (w < 2 ^ 64) by lia. destruct (Z.eqb_spec w 0) as [->|Hw]; [lia|].
  apply Z.log2_lt_pow2; [lia|]. destruct (Z.lt_ge_cases (Z.log2 w) 64) as [|Hl]; [done|].
  specialize (Hb _ Hl). by rewrite Z.bit_log2 in Hb by lia.
Qed.

Lemma members_inj v w : U64.valid v -> U64.valid w -> members v = members w -> v = w.
Proof.
  intros Hv Hw E. apply Z.bits_inj'. intros i Hi.
  destruct (Z.lt_ge_cases i 64) as [Hlt|Hge]; [|by rewrite !valid_high].
  pose proof (elem_members i v) as H1. pose proof (elem_members i w) as H2.
  rewrite E in H1. destruct (Z.testbit v i), (Z.testbit w i); intuition congruence.
Qed.

Lemma members_max : members U64.MAX = all_filters.
Proof.
  apply set_eq. intros i. rewrite elem_members, elem_all_filters, max_ones. split; [tauto|].
  intros Hi. split; [done|]. apply Z.ones_spec_low. lia.
Qed.

Lemma members_zero : members 0 = ∅.
Proof. apply set_eq. intros i. rewrite elem_members, Z.bits_0. set_solver. Qed.

Lemma members_lor v w : members (Z.lor v w) = members v ∪ members w.
Proof.
  apply set_eq. intros i. rewrite elem_of_union, !elem_members, Z.lor_spec, orb_true_iff. tauto.
Qed.

Lemma members_andnot v w : members (Z.land v (U64.not w)) = members v ∖ members w.
Proof.
  apply set_eq. intros i. rewrite elem_of_difference, !elem_members.
  unfold U64.not. rewrite Z.land_spec, Z.lxor_spec, andb_true_iff.
  split; [intros (Hi & H1 & H2)|intros [[Hi H1] H2]]; split_and!; try done; try lia.
  - intros [_ Hw]. rewrite Hw, max_ones, Z.ones_spec_low in H2; [done|lia].
  - rewrite max_ones, Z.ones_spec_low by lia. destruct (Z.testbit w i); [tauto|done].
Qed.

Lemma members_bit i : 0 <= i < 64 -> members (Z.shiftl 1 i) = {[ i ]}.
Proof.
  intros Hi. apply set_eq. intros j. rewrite elem_members, elem_of_singleton, Z.shiftl_1_l.
  split.
  - intros [Hj Hb]. rewrite Z.pow2_bits_eqb in Hb by lia. apply Z.eqb_eq in Hb. done.
  - intros ->. split; [done|]. rewrite Z.pow2_bits_eqb by lia. apply Z.eqb_refl.
Qed.

Lemma land_zero_members v w :
  U64.valid v -> (Z.land v w =? 0) = bool_decide (members v ## members w).
Proof.
  intros Hv. apply eq_bool_prop_intro. rewrite !Is_true_true, bool_decide_eq_true, Z.eqb_eq.
  split.
  - intros H0 i [Hi H1]%elem_members [_ H2]%elem_members.
    assert (Z.testbit (Z.land v w) i = true) as H3 by by rewrite Z.land_spec, H1, H2.
    by rewrite H0, Z.bits_0 in H3.
  - intros Hd. apply Z.bits_inj'. intros i Hi. rewrite Z.land_spec, Z.bits_0.
    destruct (Z.lt_ge_cases i 64) as [Hlt|Hge]; [|by rewrite valid_high].
    destruct (Z.testbit v i) eqn:H1, (Z.testbit w i) eqn:H2; try done.
    destruct (Hd i); apply elem_members; auto.
Qed.

Lemma valid_lor v w : U64.valid v -> U64.valid w -> U64.valid (Z.lor v w).
Proof.
  intros Hv Hw. apply valid_bits; [apply Z.lor_nonneg; split; [apply Hv|apply Hw]|].
  intros i Hi. by rewrite Z.lor_spec, !valid_high.
Qed.

Lemma valid_land v w : U64.valid v -> U64.valid (Z.land v w).
Proof.
  intros Hv. apply valid_bits; [apply Z.land_nonneg; left; apply Hv|].
  intros i Hi. by rewrite Z.land_spec, valid_high.
Qed.

Lemma valid_bit i : 0 <= i < 64 -> U64.valid (Z.shiftl 1 i).
Proof.
  intros Hi. apply valid_bits; [apply Z.shiftl_nonneg; lia|].
  intros j Hj. rewrite Z.shiftl_1_l. apply Z.pow2_bits_false. lia.
Qed.

Lemma bit_not_max i : 0 <= i < 64 -> (Z.shiftl 1 i =? U64.MAX) = false.
Proof.
  intros Hi. apply Z.eqb_neq. intros E. pose proof (members_bit i Hi) as Hm.
  rewrite E, members_max in Hm.
  assert (0 ∈ all_filters /\ 1 ∈ all_filters) as [H0 H1] by (rewrite !elem_all_filters; lia).
  rewrite Hm, elem_of_singleton in H0, H1. lia.
Qed.

Lemma valid_max : U64.valid U64.MAX.
Proof. done. Qed.

Lemma valid_zero : U64.valid 0.
Proof. done. Qed.

#[export] Hint Resolve valid_lor valid_land valid_bit valid_max valid_zero : tracing.
Create Rewrite HintDb members.
#[export] Hint Rewrite members_lor members_andnot members_zero members_max : members.

(** A [FilterMap] is a set of disabled filters and a [FilterId] a set of filters:
    [FilterId::new] accepts exactly the 64 indices and gives distinct singletons,
    [and] is the union (a disabled left operand counts as nothing), [set] adds or
    removes the id's filters and leaves all others alone (a disabled id changes
    nothing), [is_enabled] is disjointness, and [any_enabled] fails only when all 64
    indices are disabled, so never while fewer filters are registered. *)
Theorem filter_map_refines_sets (m : FilterMap.t) (a b : FilterId.t) (i : Z)
    (Hm : U64.valid (FilterMap.bits m)) (Ha : U64.valid (FilterId.mask a))
    (Hb : U64.valid (FilterId.mask b)) (Hi : 0 <= i <= 255) :
  let D := members (FilterMap.bits m) in
  let A := members (FilterId.mask a) in
  let B := members (FilterId.mask b) in
  FilterId.new i = (if i <? 64 then Done (FilterId.FilterId (Z.shiftl 1 i)) else Panic) /\
  (i < 64 -> members (Z.shiftl 1 i) = {[ i ]} /\
     FilterId.is_disabled (FilterId.FilterId (Z.shiftl 1 i)) = false) /\
  members (FilterId.mask (FilterId.and a b)) =
    (if FilterId.is_disabled a then B else A ∪ B) /\
  U64.valid (FilterId.mask (FilterId.and a b)) /\
  (forall enabled,
     U64.valid (FilterMap.bits (FilterMap.set a enabled m)) /\
     members (FilterMap.bits (FilterMap.set a enabled m)) =
       (if FilterId.is_disabled a then D else if enabled then D ∖ A else D ∪ A)) /\
  FilterMap.is_enabled a m = bool_decide (D ## A) /\
  FilterMap.any_enabled m = bool_decide (D <> all_filters) /\
  (FilterId.is_disabled a = false ->
     FilterMap.is_enabled (FilterId.and a b) m =
     FilterMap.is_enabled a m && FilterMap.is_enabled b m) /\
  FilterMap.is_enabled FilterId.none m = true /\
  members (FilterMap.bits FilterMap.new) = ∅.
Proof.
  intros D A B.
  assert (forall f, FilterMap.is_enabled f m = bool_decide (D ## members (FilterId.mask f))) as He.
  { intros f. apply land_zero_members, Hm. }
  split_and!.
  - unfold FilterId.new, assert. by destruct (i <? 64).
  - intros Hlt. split; [by apply members_bit; lia | by apply bit_not_max; lia].
  - unfold FilterId.and, FilterId.is_disabled. destruct (_ =? _); [done|]. apply members_lor.
  - unfold FilterId.and. destruct (_ =? _); simpl; auto with tracing.
  - intros enabled. unfold FilterMap.set, FilterId.is_disabled. simpl.
    destruct (_ =? U64.MAX); [done|]. destruct enabled; simpl; autorewrite with members;
      auto with tracing.
  - apply He.
  - unfold FilterMap.any_enabled. rewrite <- members_max.
    destruct (Z.eqb_spec (FilterMap.bits m) U64.MAX) as [E|E]; simpl.
    + symmetry. apply bool_decide_eq_false. subst D. rewrite E. tauto.
    + symmetry. apply bool_decide_eq_true. intros E'. by apply E, members_inj; auto with tracing.
  - intros Hd. rewrite !He. unfold FilterId.and. unfold FilterId.is_disabled in Hd.
    rewrite Hd. simpl. rewrite members_lor, <- bool_decide_and. apply bool_decide_ext.
    set_solver.
  - unfold FilterMap.is_enabled. simpl. by rewrite Z.land_0_r.
  - apply members_zero.
Qed.

Lemma filter_map_refines_sets_witness :
  FilterMap.is_enabled (FilterId.and (FilterId.FilterId 1) (FilterId.FilterId 4))
    (FilterMap.FilterMap 2) = true /\
  members (FilterMap.bits (FilterMap.set (FilterId.FilterId 4) false (FilterMap.FilterMap 2)))
    = {[ 1 ]} ∪ {[ 2 ]}.
Proof.
  destruct (filter_map_refines_sets (FilterMap.FilterMap 2) (FilterId.FilterId 4)
    (FilterId.FilterId 1) 3) as (_ & _ & _ & _ & Hset & _);
    [done|done|done|done|].
  split; [reflexivity|]. destruct (Hset false) as [_ ->]. vm_compute. reflexivity.
Defined.

(** ** Accumulated interests *)

(** [add_interest] for each of a list of filters *)
Fixpoint add_interests (debug_assertions : bool) (l : list Interest) (s : FilterState) :
    outcome FilterState :=
  match l with
  | [] => Done s
  | i :: l =>
      s ← FilterState.add_interest debug_assertions i s;
      add_interests debug_assertions l s
  end.

(** The sum of the interests of all filters. *)
Definition sum_interest (l : list Interest) : option Interest :=
  match l with
  | [] => None
  | i :: l => Some (fold_left Interest.and l i)
  end.

(** Between two passes nothing is left in the state. *)
Definition quiescent (s : FilterState) : Prop :=
  s = FilterState.new.

Lemma add_interest_and dbg i c s :
  interest_ s = Some c -> (dbg = false \/ in_interest_pass s <> 0%nat) ->
  FilterState.add_interest dbg i s =
  Done (FilterState.set_interest (Some (Interest.and c i))
    (FilterState.when_debug dbg (FilterState.set_interest_pass (in_interest_pass s + 1)) s)).
Proof.
  intros Hs Hd. unfold FilterState.add_interest, FilterState.debug_assert.
  destruct (in_interest_pass s =? 0)%nat eqn:E.
  - apply Nat.eqb_eq in E. destruct Hd as [->|]; [|done]. simpl. rewrite Hs.
    destruct s, c, i; simplify_eq/=; done.
  - simpl. destruct dbg; simpl; rewrite Hs; destruct s, c, i; simplify_eq/=; done.
Qed.
