(* ===== verification/Callsites.v ===== *)
(** * Callsites: [tracing-core/src/callsite.rs]

    The global callsite registry: the intrusive lock-free list of
    [DefaultCallsite]s, the locked list of other callsites, the list of registered
    dispatchers, and the interest cache that every callsite keeps for them.
    Atomic operations are the steps of the model and memory is sequentially
    consistent. *)

From S2P Require Import Prelude.
From S2P Require Import Ord.
From S2P Require Import Levels.
From S2P Require Import Fields.
From S2P Require Import Meta.
From S2P Require Import Interests.

Local Open Scope Z_scope.

(** ** [struct DefaultCallsite] *)

Record DefaultCallsite := {
  interest : Z;
  registration : Z;
  meta : Metadata;
  next : option Identifier;
}.

Module DefaultCallsite.

Definition UNREGISTERED : Z := 0.
Definition REGISTERING : Z := 1.
Definition REGISTERED : Z := 2.

Definition INTEREST_NEVER : Z := 0.
Definition INTEREST_SOMETIMES : Z := 1.
Definition INTEREST_ALWAYS : Z := 2.

Definition new (m : Metadata) : DefaultCallsite :=
  {| interest := 255; registration := UNREGISTERED; meta := m; next := None |}.

(** [impl Callsite for DefaultCallsite] *)
Definition set_interest (i : Interest) (self : DefaultCallsite) : DefaultCallsite :=
  {| interest :=
       if Interest.is_never i then INTEREST_NEVER
       else if Interest.is_always i then INTEREST_ALWAYS
       else INTEREST_SOMETIMES;
     registration := registration self; meta := meta self; next := next self |}.

(** The interest that the end of [register] reads from the cache. *)
Definition cached (self : DefaultCallsite) : Interest :=
  if interest self =? INTEREST_NEVER then Interest.never
  else if interest self =? INTEREST_ALWAYS then Interest.always
  else Interest.sometimes.

(** [DefaultCallsite::interest]: [None] is the call to [register]. *)
Definition interest_fast (self : DefaultCallsite) : option Interest :=
  if interest self =? INTEREST_NEVER then Some Interest.never
  else if interest self =? INTEREST_SOMETIMES then Some Interest.sometimes
  else if interest self =? INTEREST_ALWAYS then Some Interest.always
  else None.

Definition set_registration (r : Z) (self : DefaultCallsite) : DefaultCallsite :=
  {| interest := interest self; registration := r; meta := meta self; next := next self |}.
Definition set_next (n : option Identifier) (self : DefaultCallsite) : DefaultCallsite :=
  {| interest := interest self; registration := registration self; meta := meta self;
     next := n |}.

End DefaultCallsite.

(** A callsite of another type keeps its interest as it likes: here, the last one
    that was set. *)
Record DynCallsite := { dyn_meta : Metadata; dyn_interest : option Interest }.

(** ** The statics of the module *)

Record Callsites := {
  list_head : option Identifier;
  has_locked_callsites : bool;
  locked_callsites : list Identifier;
  defaults : gmap Identifier DefaultCallsite;
  dyns : gmap Identifier DynCallsite;
  MAX_LEVEL : Z;
}.

Definition with_defaults (f : gmap Identifier DefaultCallsite -> gmap Identifier DefaultCallsite)
    (cs : Callsites) : Callsites :=
  {| list_head := list_head cs; has_locked_callsites := has_locked_callsites cs;
     locked_callsites := locked_callsites cs; defaults := f (defaults cs);
     dyns := dyns cs; MAX_LEVEL := MAX_LEVEL cs |}.
Definition with_dyns (f : gmap Identifier DynCallsite -> gmap Identifier DynCallsite)
    (cs : Callsites) : Callsites :=
  {| list_head := list_head cs; has_locked_callsites := has_locked_callsites cs;
     locked_callsites := locked_callsites cs; defaults := defaults cs;
     dyns := f (dyns cs); MAX_LEVEL := MAX_LEVEL cs |}.
Definition with_head (h : option Identifier) (cs : Callsites) : Callsites :=
  {| list_head := h; has_locked_callsites := has_locked_callsites cs;
     locked_callsites := locked_callsites cs; defaults := defaults cs;
     dyns := dyns cs; MAX_LEVEL := MAX_LEVEL cs |}.
Definition with_max_level (m : Z) (cs : Callsites) : Callsites :=
  {| list_head := list_head cs; has_locked_callsites := has_locked_callsites cs;
     locked_callsites := locked_callsites cs; defaults := defaults cs;
     dyns := dyns cs; MAX_LEVEL := m |}.

(** [Callsites::for_each], the traversal of the list: the callsites in the order
    they are visited.  The list has at most as many cells as there are callsites,
    which is the fuel given by [visited]. *)
Fixpoint list_from (fuel : nat) (ds : gmap Identifier DefaultCallsite)
    (head : option Identifier) : list Identifier :=
  match fuel, head with
  | S fuel, Some c => c :: list_from fuel ds (ds !! c ≫= next)
  | _, _ => []
  end.
Definition visited (cs : Callsites) : list Identifier :=
  list_from (size (defaults cs)) (defaults cs) (list_head cs) ++
  if has_locked_callsites cs then locked_callsites cs else [].

(** [Callsites::push_dyn] *)
Definition push_dyn (c : Identifier) (cs : Callsites) : Callsites :=
  {| list_head := list_head cs; has_locked_callsites := true;
     locked_callsites := locked_callsites cs ++ [c]; defaults := defaults cs;
     dyns := dyns cs; MAX_LEVEL := MAX_LEVEL cs |}.

(** ** Rebuilding the interest cache

    [dispatchers] is what [Rebuilder::for_each] calls its closure on. *)

Definition callsite_meta (c : Identifier) (cs : Callsites) : option Metadata :=
  match defaults cs !! c with
  | Some d => Some (meta d)
  | None => dyn_meta <$> dyns cs !! c
  end.

(** [callsite.set_interest(interest)] through the trait object. *)
Definition set_interest (c : Identifier) (i : Interest) (cs : Callsites) : Callsites :=
  match defaults cs !! c with
  | Some d => with_defaults <[c := DefaultCallsite.set_interest i d]> cs
  | None => with_dyns (alter (fun d => {| dyn_meta := dyn_meta d; dyn_interest := Some i |}) c) cs
  end.

(** The interest computed by [rebuild_callsite_interest]. *)
Definition combined_interest (dispatchers : list Subscriber) (m : Metadata) : Interest :=
  default Interest.never
    (fold_left (fun interest dispatch =>
       let this_interest := sub_register_callsite dispatch m in
       match interest with
       | None => Some this_interest
       | Some that_interest => Some (Interest.and that_interest this_interest)
       end) dispatchers None).

Definition rebuild_callsite_interest (c : Identifier) (dispatchers : list Subscriber)
    (cs : Callsites) : Callsites :=
  match callsite_meta c cs with
  | Some m => set_interest c (combined_interest dispatchers m) cs
  | None => cs
  end.

(** The first loop of [Callsites::rebuild_interest]. *)
Definition max_hint (dispatchers : list Subscriber) : LevelFilter.t :=
  fold_left (fun max_level dispatch =>
    let level_hint := default LevelFilter.TRACE (sub_max_level_hint dispatch) in
    if LevelFilter.gt level_hint max_level then level_hint else max_level)
    dispatchers LevelFilter.OFF.

Definition rebuild_interest (dispatchers : list Subscriber) (cs : Callsites) : Callsites :=
  let max_level := max_hint dispatchers in
  let cs := fold_left (fun cs c => rebuild_callsite_interest c dispatchers cs) (visited cs) cs in
  with_max_level (LevelFilter.set_max max_level) cs.

(** ** The registered dispatchers

    [LOCKED_DISPATCHERS] holds weak references; [upgrade] tells which of them are
    still alive and what they point to. *)
Module Dispatchers.

Record t (R : Type) := { has_just_one : bool; LOCKED_DISPATCHERS : list R }.
Arguments has_just_one {R}. Arguments LOCKED_DISPATCHERS {R}.

Definition new {R} : t R := {| has_just_one := true; LOCKED_DISPATCHERS := [] |}.

(** [Dispatchers::register_dispatch] *)
Definition register_dispatch {R} (upgrade : R -> option Subscriber) (dispatch : R)
    (self : t R) : t R :=
  let dispatchers :=
    List.filter (fun d => bool_decide (is_Some (upgrade d))) (LOCKED_DISPATCHERS self)
      ++ [dispatch] in
  {| has_just_one := (length dispatchers <=? 1)%nat; LOCKED_DISPATCHERS := dispatchers |}.

(** [enum Rebuilder] *)
Inductive Rebuilder (R : Type) := JustOne | Locked (dispatchers : list R).
Arguments JustOne {R}. Arguments Locked {R}.

(** [Dispatchers::rebuilder] *)
Definition rebuilder {R} (self : t R) : Rebuilder R :=
  if has_just_one self then JustOne else Locked (LOCKED_DISPATCHERS self).

(** [Rebuilder::for_each]: the dispatchers it visits; [get_default] is the current
    default dispatcher. *)
Definition for_each {R} (upgrade : R -> option Subscriber) (get_default : Subscriber)
    (self : Rebuilder R) : list Subscriber :=
  match self with
  | JustOne => [get_default]
  | Locked l => omap upgrade l
  end.

End Dispatchers.

(** [callsite::register_dispatch]: rebuilds for the dispatchers that the write
    guard shows. *)
Definition register_dispatch {R} (upgrade : R -> option Subscriber) (dispatch : R)
    (ds : Dispatchers.t R) (cs : Callsites) : Dispatchers.t R * Callsites :=
  let ds := Dispatchers.register_dispatch upgrade dispatch ds in
  (ds, rebuild_interest (omap upgrade (Dispatchers.LOCKED_DISPATCHERS ds)) cs).

(** ** Combined interests and hints *)

Lemma fold_and_unanimous (l : list Interest) a x :
  x <> Sometimes -> fold_left Interest.and l a = x <-> a = x /\ Forall (.= x) l.
Proof.
  intros Hx. revert a. induction l as [|b l IH]; intros a; simpl.
  - rewrite Forall_nil. tauto.
  - rewrite IH, interest_and_unanimous, Forall_cons by done. tauto.
Qed.

Lemma combined_interest_fold ds m :
  combined_interest ds m =
  match map (fun d => sub_register_callsite d m) ds with
  | [] => Never
  | a :: l => fold_left Interest.and l a
  end.
Proof.
  unfold combined_interest. destruct ds as [|d ds]; [done|]. simpl.
  generalize (sub_register_callsite d m). induction ds as [|d' ds IH]; intros i; [done|].
  simpl. apply IH.
Qed.

Lemma combined_interest_never ds m :
  combined_interest ds m = Never <-> Forall (fun d => sub_register_callsite d m = Never) ds.
Proof.
  rewrite combined_interest_fold. destruct ds as [|d ds]; [by rewrite Forall_nil|]. simpl.
  by rewrite fold_and_unanimous, Forall_cons, Forall_map by done.
Qed.

Lemma combined_interest_always ds m :
  combined_interest ds m = Always <->
  ds <> [] /\ Forall (fun d => sub_register_callsite d m = Always) ds.
Proof.
  rewrite combined_interest_fold. destruct ds as [|d ds]; [by split; [|intros []]|]. simpl.
  rewrite fold_and_unanimous, Forall_cons, Forall_map by done. intuition congruence.
Qed.

Definition hint_of (d : Subscriber) : LevelFilter.t :=
  default LevelFilter.TRACE (sub_max_level_hint d).

Lemma max_hint_rank ds :
  filter_rank (max_hint ds) = fold_left Z.max (map (fun d => filter_rank (hint_of d)) ds) 0.
Proof.
  unfold max_hint. change 0 with (filter_rank LevelFilter.OFF) at 1.
  generalize LevelFilter.OFF. induction ds as [|d ds IH]; intros f; [done|].
  simpl. rewrite IH. f_equal. rewrite filter_gt_rank. fold (hint_of d).
  destruct (Z.ltb_spec (filter_rank f) (filter_rank (hint_of d))); lia.
Qed.

Lemma fold_max_le (l : list Z) a x : x ∈ l \/ x <= a -> x <= fold_left Z.max l a.
Proof.
  revert a. induction l as [|y l IH]; intros a; simpl.
  - intros [H|H]; [by apply not_elem_of_nil in H|done].
  - rewrite elem_of_cons. intros [[->|H]|H]; apply IH; auto; right; lia.
Qed.

Lemma max_hint_upper ds d : d ∈ ds -> filter_rank (hint_of d) <= filter_rank (max_hint ds).
Proof.
  intros Hd. rewrite max_hint_rank. apply fold_max_le. left.
  apply list_elem_of_fmap. by exists d.
Qed.

Lemma enabled_below_max_hint ds d m :
  SubscriberContract d -> d ∈ ds -> sub_enabled d m = true ->
  LevelFilter.ge_level (max_hint ds) (Metadata.level m) = true.
Proof.
  intros Hc Hd He. pose proof (max_hint_upper ds d Hd) as Hmax.
  rewrite ge_level_rank, Z.leb_le. unfold hint_of in Hmax.
  destruct (sub_max_level_hint d) as [f|] eqn:Hf; simpl in Hmax.
  - pose proof (contract_hint m f Hf He) as H. rewrite ge_level_rank, Z.leb_le in H. lia.
  - pose proof (level_rank_bounds (Metadata.level m)).
    change (filter_rank LevelFilter.TRACE) with 5 in Hmax. lia.
Qed.

(** [LevelFilter::current] after [set_max] *)
Lemma current_set_max f : LevelFilter.current (LevelFilter.set_max f) = Done f.
Proof. by destruct f as [[[[]]|]]. Qed.

(** ** The list *)

(** [chain ds h l]: following [next] from [h] visits exactly [l]. *)
Fixpoint chain (ds : gmap Identifier DefaultCallsite) (h : option Identifier)
    (l : list Identifier) : Prop :=
  match l with
  | [] => h = None
  | c :: l => h = Some c /\ exists d, ds !! c = Some d /\ chain ds (next d) l
  end.

Lemma chain_dom ds h l c : chain ds h l -> c ∈ l -> is_Some (ds !! c).
Proof.
  revert h. induction l as [|x l IH]; intros h; [by rewrite elem_of_nil|].
  intros (-> & d & Hd & Hl). rewrite elem_of_cons. intros [->|Hc]; eauto.
Qed.

Lemma chain_list_from ds h l n :
  chain ds h l -> (length l <= n)%nat -> list_from n ds h = l.
Proof.
  revert h n. induction l as [|c l IH]; intros h n; simpl.
  - intros ->. by destruct n.
  - intros (-> & d & Hd & Hl) Hn. destruct n as [|n]; [lia|]. simpl.
    rewrite Hd. simpl. f_equal. apply IH; [done|lia].
Qed.

Lemma chain_length ds h l : chain ds h l -> NoDup l -> (length l <= size ds)%nat.
Proof.
  intros Hch Hnd. rewrite <- size_dom, <- (size_list_to_set (C:=gset Identifier) l) by done.
  apply subseteq_size. intros c. rewrite elem_of_list_to_set, elem_of_dom.
  intros. by eapply chain_dom.
Qed.

(** Updating fields other than [next] of a cell keeps the list. *)
Lemma chain_update ds h l c d' :
  (forall d, ds !! c = Some d -> next d' = next d) ->
  chain ds h l -> chain (<[c := d']> ds) h l.
Proof.
  intros Hnext. revert h. induction l as [|x l IH]; intros h; [done|].
  intros (-> & d & Hd & Hl). split; [done|].
  destruct (decide (c = x)) as [->|Hne].
  - exists d'. rewrite lookup_insert_eq. split; [done|]. rewrite (Hnext d) by done. by apply IH.
  - exists d. rewrite lookup_insert_ne by done. split; [done|]. by apply IH.
Qed.

Lemma chain_update_other ds h l c d' : c ∉ l -> chain ds h l -> chain (<[c := d']> ds) h l.
Proof.
  intros Hc. revert h Hc. induction l as [|x l IH]; intros h Hc; [done|].
  rewrite not_elem_of_cons in Hc. destruct Hc as [Hx Hl].
  intros (-> & d & Hd & Hl'). split; [done|]. exists d.
  rewrite lookup_insert_ne by done. split; [done|]. by apply IH.
Qed.

(** ** The registry's invariant *)

(** [l] are the callsites pushed on the list, newest first. *)
Record wf (cs : Callsites) (l : list Identifier) : Prop := {
  wf_chain : chain (defaults cs) (list_head cs) l;
  wf_nodup : NoDup l;
  wf_locked : has_locked_callsites cs = true \/ locked_callsites cs = [];
  wf_dyns c : c ∈ locked_callsites cs -> defaults cs !! c = None /\ is_Some (dyns cs !! c);
}.

Definition registered (cs : Callsites) (l : list Identifier) (c : Identifier) : Prop :=
  c ∈ l \/ c ∈ locked_callsites cs.

(** The interest that the cache of a callsite holds. *)
Definition interest_of (cs : Callsites) (c : Identifier) : option Interest :=
  match defaults cs !! c with
  | Some d => Some (DefaultCallsite.cached d)
  | None => dyns cs !! c ≫= dyn_interest
  end.

Lemma visited_wf cs l : wf cs l -> visited cs = l ++ locked_callsites cs.
Proof.
  intros [Hch Hnd Hl _]. unfold visited.
  rewrite (chain_list_from _ _ l) by (done || by apply chain_length with (h := list_head cs)).
  f_equal. by destruct Hl as [->| ->]; [|destruct (has_locked_callsites cs)].
Qed.

Lemma registered_meta cs l c : wf cs l -> registered cs l c -> is_Some (callsite_meta c cs).
Proof.
  intros Hwf [Hc|Hc]; unfold callsite_meta.
  - destruct (chain_dom _ _ _ c (wf_chain _ _ Hwf) Hc) as [d ->]. eauto.
  - destruct (wf_dyns _ _ Hwf c Hc) as [-> [d ->]]. simpl. eauto.
Qed.

Lemma cached_set_interest i d :
  DefaultCallsite.cached (DefaultCallsite.set_interest i d) = i.
Proof. by destruct i. Qed.

(** Setting an interest changes the interest of that callsite and nothing else. *)
Lemma set_interest_spec c i cs l :
  wf cs l -> is_Some (callsite_meta c cs) ->
  let cs' := set_interest c i cs in
  wf cs' l /\ locked_callsites cs' = locked_callsites cs /\
  (forall x, callsite_meta x cs' = callsite_meta x cs) /\
  (forall x, interest_of cs' x = if decide (x = c) then Some i else interest_of cs x).
Proof.
  intros Hwf Hm. unfold set_interest, callsite_meta, interest_of in *.
  destruct (defaults cs !! c) as [d|] eqn:Hd; simpl.
  - split_and!; [|done|..].
    + split; simpl; [|apply Hwf..|].
      * apply chain_update; [|apply Hwf]. intros d' Hd'. by simplify_eq.
      * intros x Hx. destruct (wf_dyns _ _ Hwf x Hx) as [H1 H2].
        rewrite lookup_insert_ne by congruence. done.
    + intros x. destruct (decide (x = c)) as [->|Hne].
      * by rewrite lookup_insert_eq, Hd.
      * by rewrite lookup_insert_ne.
    + intros x. destruct (decide (x = c)) as [->|Hne].
      * by rewrite lookup_insert_eq, cached_set_interest.
      * by rewrite lookup_insert_ne.
  - split_and!; [|done|..].
    + split; simpl; [apply Hwf..|]. intros x Hx. destruct (wf_dyns _ _ Hwf x Hx) as [H1 H2].
      split; [done|]. rewrite lookup_alter_is_Some. done.
    + intros x. destruct (defaults cs !! x); [done|]. destruct (decide (x = c)) as [->|Hne].
      * rewrite lookup_alter_eq. by destruct (dyns cs !! c).
      * by rewrite lookup_alter_ne.
    + intros x. destruct (decide (x = c)) as [->|Hne].
      * rewrite Hd, lookup_alter_eq. apply fmap_is_Some in Hm as [d Hd']. by rewrite Hd'.
      * by rewrite lookup_alter_ne.
Qed.

Lemma rebuild_loop ds L cs l :
  wf cs l -> Forall (registered cs l) L ->
  let cs' := fold_left (fun cs c => rebuild_callsite_interest c ds cs) L cs in
  wf cs' l /\ locked_callsites cs' = locked_callsites cs /\
  (forall x, callsite_meta x cs' = callsite_meta x cs) /\
  (forall x, interest_of cs' x =
     if decide (x ∈ L) then combined_interest ds <$> callsite_meta x cs else interest_of cs x).
Proof.
  revert cs. induction L as [|c L IH]; intros cs Hwf HL; simpl; [done|].
  apply Forall_cons in HL as [Hc HL].
  destruct (registered_meta _ _ _ Hwf Hc) as [m Hm].
  unfold rebuild_callsite_interest at 2 4 6 8. rewrite Hm.
  destruct (set_interest_spec c (combined_interest ds m) cs l Hwf ltac:(eauto))
    as (Hwf' & Hlock & Hmeta & Hint).
  destruct (IH _ Hwf') as (H1 & H2 & H3 & H4).
  { eapply Forall_impl; [exact HL|]. intros x. unfold registered. by rewrite Hlock. }
  split_and!; [done|congruence|by intros; rewrite H3, Hmeta|].
  intros x. rewrite H4, Hmeta, Hint.
  destruct (decide (x = c)) as [->|Hne].
  - rewrite (decide_True (P := c ∈ c :: L)) by left. rewrite Hm. by case_decide.
  - destruct (decide (x ∈ L)) as [Hx|Hx].
    + by rewrite decide_True by by right.
    + by rewrite decide_False by (rewrite elem_of_cons; tauto).
Qed.

Lemma rebuild_spec (cs : Callsites) (l : list Identifier) (ds : list Subscriber)
    (Hwf : wf cs l) (Hds : Forall SubscriberContract ds) :
  let cs' := rebuild_interest ds cs in
  wf cs' l /\ locked_callsites cs' = locked_callsites cs /\
  LevelFilter.current (MAX_LEVEL cs') = Done (max_hint ds) /\
  (forall c, registered cs l c -> exists m, callsite_meta c cs' = Some m /\
     callsite_meta c cs = Some m /\
     interest_of cs' c = Some (combined_interest ds m) /\
     (forall d, d ∈ ds -> sub_enabled d m = true ->
        interest_of cs' c <> Some Never /\
        LevelFilter.ge_level (max_hint ds) (Metadata.level m) = true) /\
     (interest_of cs' c = Some Always -> forall d, d ∈ ds -> sub_enabled d m = true)) /\
  (forall c, ~ registered cs l c -> interest_of cs' c = interest_of cs c).
Proof.
  unfold rebuild_interest. rewrite (visited_wf cs l Hwf).
  destruct (rebuild_loop ds (l ++ locked_callsites cs) cs l Hwf) as (H1 & H2 & H3 & H4).
  { apply Forall_forall. intros c. rewrite elem_of_app. done. }
  set (cs1 := fold_left _ _ _) in *.
  assert (forall c, interest_of (with_max_level (LevelFilter.set_max (max_hint ds)) cs1) c =
            interest_of cs1 c) as Hi by done.
  rewrite Forall_forall in Hds.
  split; [by destruct H1|]. split; [done|]. split; [apply current_set_max|]. split.
  - intros c Hc. destruct (registered_meta _ _ _ Hwf Hc) as [m Hm]. exists m.
    change (callsite_meta c (with_max_level _ cs1)) with (callsite_meta c cs1).
    rewrite Hi, H3, H4, Hm. rewrite decide_True by by apply elem_of_app. simpl.
    split_and!; [done..| |].
    + intros d Hd He. split; [|by apply enabled_below_max_hint with (d := d); auto].
      intros [= Hn]. rewrite combined_interest_never, Forall_forall in Hn.
      pose proof (Hds d Hd). by rewrite (contract_never m (Hn d Hd)) in He.
    + intros [= [_ Ha]%combined_interest_always] d Hd. rewrite Forall_forall in Ha.
      pose proof (Hds d Hd). by apply contract_always, Ha.
  - intros c Hc. rewrite Hi, H4. rewrite decide_False; [done|]. by rewrite elem_of_app.
Qed.

(** C1: rebuilding the interest cache leaves in every registered callsite the
    combination of the interests of all dispatchers and in [MAX_LEVEL] the most
    verbose of their hints, changes no unregistered callsite and keeps the list; so
    the two checks of the macros' fast path (the maximum level, then the cached
    interest) never hide from a dispatcher a callsite that it enables, and a cached
    [always] means that each of the dispatchers enables the callsite. *)
Theorem rebuild_never_hides (cs : Callsites) (l : list Identifier) (ds : list Subscriber)
    (Hwf : wf cs l) (Hds : Forall SubscriberContract ds) :
  let cs' := rebuild_interest ds cs in
  wf cs' l /\ locked_callsites cs' = locked_callsites cs /\
  LevelFilter.current (MAX_LEVEL cs') = Done (max_hint ds) /\
  (forall c, registered cs l c -> exists m, callsite_meta c cs' = Some m /\
     callsite_meta c cs = Some m /\
     interest_of cs' c = Some (combined_interest ds m) /\
     (forall d, d ∈ ds -> sub_enabled d m = true ->
        interest_of cs' c <> Some Never /\
        LevelFilter.ge_level (max_hint ds) (Metadata.level m) = true) /\
     (interest_of cs' c = Some Always -> forall d, d ∈ ds -> sub_enabled d m = true)) /\
  (forall c, ~ registered cs l c -> interest_of cs' c = interest_of cs c).
Proof. by apply rebuild_spec. Qed.

(** ** A concrete instance *)

Definition example_registry : Callsites :=
  {| list_head := Some 1%N; has_locked_callsites := true; locked_callsites := [2%N];
     defaults := {[ 1%N := DefaultCallsite.new (example_metadata 1) ]};
     dyns := {[ 2%N := {| dyn_meta := example_metadata 2; dyn_interest := None |} ]};
     MAX_LEVEL := 5 |}.

Definition info_subscriber : Subscriber :=
  {| sub_register_callsite :=
       default_register_callsite (fun m => LevelFilter.ge_level LevelFilter.INFO (Metadata.level m));
     sub_enabled := fun m => LevelFilter.ge_level LevelFilter.INFO (Metadata.level m);
     sub_max_level_hint := Some LevelFilter.INFO |}.

#[export] Instance info_subscriber_contract : SubscriberContract info_subscriber.
Proof.
  split; simpl.
  - intros m. unfold default_register_callsite. by case_match.
  - intros m. unfold default_register_callsite. by case_match.
  - by intros m f [= <-].
Qed.

Lemma example_registry_wf : wf example_registry [1%N].
Proof.
  split; simpl.
  - split; [done|]. by exists (DefaultCallsite.new (example_metadata 1)).
  - apply NoDup_singleton.
  - by left.
  - intros c ->%list_elem_of_singleton. split; [done|]. by eexists.
Qed.

Lemma rebuild_never_hides_witness :
  interest_of (rebuild_interest [NoSubscriber; info_subscriber] example_registry) 2%N
    = Some Sometimes /\
  LevelFilter.current (MAX_LEVEL (rebuild_interest [NoSubscriber; info_subscriber]
    example_registry)) = Done LevelFilter.TRACE.
Proof.
  destruct (rebuild_never_hides example_registry [1%N] [NoSubscriber; info_subscriber]
    example_registry_wf) as (_ & _ & H1 & H2 & _).
  - apply Forall_cons. split; [apply _|]. apply Forall_singleton. apply _.
  - destruct (H2 2%N ltac:(right; by left)) as (m & _ & Hm & Hi & _).
    vm_compute in Hm. injection Hm as <-. rewrite Hi, H1. split; reflexivity.
Defined.
