(* ===== verification/Register.v ===== *)
(** * Registration: the lock-free part of [tracing-core/src/callsite.rs]

    Threads that run [DefaultCallsite::interest] (which falls through to
    [DefaultCallsite::register] and [Callsites::push_default]) interleaved with
    threads that run [Callsites::for_each] for a rebuild of the cache.  Every atomic
    operation is one step of a thread; memory is sequentially consistent, which is
    stronger than the orderings in the code. *)

From S2P Require Import Prelude.
From S2P Require Import Ord.
From S2P Require Import Levels.
From S2P Require Import Fields.
From S2P Require Import Meta.
From S2P Require Import Interests.
From S2P Require Import Callsites.

Local Open Scope Z_scope.

(** Where a thread that asks a callsite for its interest is: each constructor
    names the operation that it executes next. *)
Inductive pc :=
  | LoadInterestFast
  | CasRegistration
  | LoadHead
  | StoreNext (head : option Identifier)
  | AssertNe (head : option Identifier)
  | CasHead (head : option Identifier)
  | ForEachDispatcher
  | SetInterest (i : Interest)
  | StoreRegistered
  | LoadInterest
  | Returned (i : Interest)
  | Panicked.

(** Where a thread that traverses the list is. *)
Inductive walk_pc :=
  | WalkLoadHead
  | WalkVisit (head : option Identifier)
  | WalkSetInterest (c : Identifier) (i : Interest)
  | WalkLoadNext (c : Identifier)
  | WalkDone.

(** [seen] are the callsites visited so far. *)
Inductive thread :=
  | Reg (c : Identifier) (p : pc)
  | Walk (p : walk_pc) (seen : list Identifier).

Definition upd (c : Identifier) (f : DefaultCallsite -> DefaultCallsite) (cs : Callsites) :
    Callsites :=
  with_defaults (alter f c) cs.

(** One step of [DefaultCallsite::interest] and [register] on [c], where the
    callsite is [d]; [ds] is what the rebuilder's [for_each] visits. *)
Definition reg_step (ds : list Subscriber) (c : Identifier) (d : DefaultCallsite)
    (p : pc) (cs : Callsites) : option (pc * Callsites) :=
  match p with
  | LoadInterestFast =>
      Some (match DefaultCallsite.interest_fast d with
            | Some i => Returned i
            | None => CasRegistration
            end, cs)
  | CasRegistration =>
      if registration d =? DefaultCallsite.UNREGISTERED
      then Some (LoadHead, upd c (DefaultCallsite.set_registration DefaultCallsite.REGISTERING) cs)
      else if registration d =? DefaultCallsite.REGISTERED then Some (LoadInterest, cs)
      else if registration d =? DefaultCallsite.REGISTERING
      then Some (Returned Interest.sometimes, cs)
      else Some (Panicked, cs)
  | LoadHead => Some (StoreNext (list_head cs), cs)
  | StoreNext head => Some (AssertNe head, upd c (DefaultCallsite.set_next head) cs)
  | AssertNe head =>
      Some (if bool_decide (head = Some c) then Panicked else CasHead head, cs)
  | CasHead head =>
      if bool_decide (list_head cs = head)
      then Some (ForEachDispatcher, with_head (Some c) cs)
      else Some (StoreNext (list_head cs), cs)
  | ForEachDispatcher => Some (SetInterest (combined_interest ds (meta d)), cs)
  | SetInterest i => Some (StoreRegistered, upd c (DefaultCallsite.set_interest i) cs)
  | StoreRegistered =>
      Some (LoadInterest, upd c (DefaultCallsite.set_registration DefaultCallsite.REGISTERED) cs)
  | LoadInterest => Some (Returned (DefaultCallsite.cached d), cs)
  | Returned _ | Panicked => None
  end.

(** One step of [Callsites::for_each] with [rebuild_callsite_interest] as closure. *)
Definition walk_step (ds : list Subscriber) (p : walk_pc) (seen : list Identifier)
    (cs : Callsites) : option (thread * Callsites) :=
  match p with
  | WalkLoadHead => Some (Walk (WalkVisit (list_head cs)) seen, cs)
  | WalkVisit None => Some (Walk WalkDone seen, cs)
  | WalkVisit (Some c) =>
      d ← defaults cs !! c;
      Some (Walk (WalkSetInterest c (combined_interest ds (meta d))) (seen ++ [c]), cs)
  | WalkSetInterest c i =>
      Some (Walk (WalkLoadNext c) seen, upd c (DefaultCallsite.set_interest i) cs)
  | WalkLoadNext c =>
      d ← defaults cs !! c; Some (Walk (WalkVisit (next d)) seen, cs)
  | WalkDone => None
  end.

Definition thread_step (ds : list Subscriber) (t : thread) (cs : Callsites) :
    option (thread * Callsites) :=
  match t with
  | Reg c p =>
      d ← defaults cs !! c; '(p', cs') ← reg_step ds c d p cs; Some (Reg c p', cs')
  | Walk p seen => walk_step ds p seen cs
  end.

Definition state := (Callsites * gmap nat thread)%type.

(** Some thread takes a step. *)
Inductive step : state -> state -> Prop :=
  | step_thread ds i t t' cs cs' ts :
      ts !! i = Some t -> thread_step ds t cs = Some (t', cs') ->
      step (cs, ts) (cs', <[i := t']> ts).

(** The run of a schedule: which thread steps, and what its rebuilder visits. *)
Fixpoint run (schedule : list (nat * list Subscriber)) (s : state) : option state :=
  match schedule with
  | [] => Some s
  | (i, ds) :: schedule =>
      t ← s.2 !! i; '(t', cs') ← thread_step ds t s.1;
      run schedule (cs', <[i := t']> s.2)
  end.

(** At the start no callsite is registered, and every thread is at its beginning. *)
Definition fresh (t : thread) (cs : Callsites) : Prop :=
  match t with
  | Reg c p => p = LoadInterestFast /\ is_Some (defaults cs !! c)
  | Walk p seen => p = WalkLoadHead /\ seen = []
  end.
Definition initial (s : state) : Prop :=
  list_head s.1 = None /\
  (forall c d, defaults s.1 !! c = Some d -> d = DefaultCallsite.new (meta d)) /\
  (forall i t, s.2 !! i = Some t -> fresh t s.1).

(** ** The invariant *)

(** The callsite that a thread is registering: from its successful exchange of the
    registration state to the store of [REGISTERED]. *)
Definition owns (t : thread) : option Identifier :=
  match t with
  | Reg c (LoadHead | StoreNext _ | AssertNe _ | CasHead _ | ForEachDispatcher
          | SetInterest _ | StoreRegistered) => Some c
  | _ => None
  end.

Definition interest_set (d : DefaultCallsite) : Prop := 0 <= interest d <= 2.

Definition head_ok (l : list Identifier) (h : option Identifier) : Prop :=
  forall x, h = Some x -> x ∈ l.

Definition reg_ok (l : list Identifier) (c : Identifier) (d : DefaultCallsite) (p : pc) : Prop :=
  match p with
  | LoadInterestFast | CasRegistration | Returned _ => True
  | LoadHead => registration d = 1 /\ (c ∉ l)
  | StoreNext h => registration d = 1 /\ (c ∉ l) /\ head_ok l h
  | AssertNe h | CasHead h => registration d = 1 /\ (c ∉ l) /\ head_ok l h /\ next d = h
  | ForEachDispatcher | SetInterest _ => registration d = 1 /\ c ∈ l
  | StoreRegistered => registration d = 1 /\ c ∈ l /\ interest_set d
  | LoadInterest => registration d = 2 /\ c ∈ l
  | Panicked => False
  end.

(** A traversal has seen a prefix of a snapshot [w] of the list, and the rest of the
    snapshot is what it has before it. *)
Definition walk_ok (cs : Callsites) (l : list Identifier) (p : walk_pc)
    (seen : list Identifier) : Prop :=
  match p with
  | WalkLoadHead => seen = []
  | WalkVisit h => exists rest, chain (defaults cs) h rest /\ suffix (seen ++ rest) l
  | WalkSetInterest c _ | WalkLoadNext c =>
      exists seen' rest, seen = seen' ++ [c] /\ chain (defaults cs) (Some c) (c :: rest) /\
        suffix (seen ++ rest) l
  | WalkDone => suffix seen l
  end.

Definition thread_ok (cs : Callsites) (l : list Identifier) (t : thread) : Prop :=
  match t with
  | Reg c p => exists d, defaults cs !! c = Some d /\ reg_ok l c d p
  | Walk p seen => walk_ok cs l p seen
  end.

Definition cell_ok (l : list Identifier) (c : Identifier) (d : DefaultCallsite) : Prop :=
  0 <= registration d <= 2 /\
  (c ∈ l -> registration d <> 0) /\
  (registration d = 2 -> c ∈ l /\ interest_set d).

Record cells_ok (cs : Callsites) (l : list Identifier) : Prop := {
  ok_chain : chain (defaults cs) (list_head cs) l;
  ok_nodup : NoDup l;
  ok_cells c d : defaults cs !! c = Some d -> cell_ok l c d;
}.

Record Inv (s : state) (l : list Identifier) : Prop := {
  inv_cells : cells_ok s.1 l;
  inv_threads i t : s.2 !! i = Some t -> thread_ok s.1 l t;
  inv_owner i j t u c :
    s.2 !! i = Some t -> s.2 !! j = Some u -> owns t = Some c -> owns u = Some c -> i = j;
}.

(** What a step may change, [own] being the callsite that its thread owns. *)
Record evolves (own : option Identifier) (cs : Callsites) (l : list Identifier)
    (cs' : Callsites) (l' : list Identifier) : Prop := {
  ev_list : l' = l \/ exists c, own = Some c /\ l' = c :: l;
  ev_cell c d : defaults cs !! c = Some d ->
    exists d', defaults cs' !! c = Some d' /\ meta d' = meta d /\
      (c ∈ l -> next d' = next d) /\
      (own <> Some c -> next d' = next d /\ registration d' = registration d) /\
      (registration d = 2 -> registration d' = 2) /\
      (interest_set d -> interest_set d');
}.

Lemma ev_suffix own cs l cs' l' : evolves own cs l cs' l' -> suffix l l'.
Proof. intros [[->|(c & _ & ->)] _]; [done|]. by exists [c]. Qed.

Lemma ev_elem own cs l cs' l' c : evolves own cs l cs' l' -> c ∈ l -> c ∈ l'.
Proof. intros [[->|(? & _ & ->)] _]; set_solver. Qed.

Lemma ev_chain own cs l cs' l' h k :
  evolves own cs l cs' l' -> (forall c, c ∈ k -> c ∈ l) ->
  chain (defaults cs) h k -> chain (defaults cs') h k.
Proof.
  intros Hev. revert h. induction k as [|c k IH]; intros h Hk; [done|].
  intros (-> & d & Hd & Hk'). split; [done|].
  destruct (ev_cell _ _ _ _ _ Hev c d Hd) as (d' & Hd' & _ & Hn & _).
  exists d'. split; [done|]. rewrite Hn by (apply Hk; by left).
  apply IH; [|done]. intros x Hx. apply Hk. by right.
Qed.

Lemma ev_walk own cs l cs' l' h seen rest :
  evolves own cs l cs' l' -> chain (defaults cs) h rest /\ suffix (seen ++ rest) l ->
  chain (defaults cs') h rest /\ suffix (seen ++ rest) l'.
Proof.
  intros Hev [Hr Hs]. split.
  - eapply ev_chain; [done| |done]. intros c Hc. destruct Hs as [k ->].
    rewrite !elem_of_app. tauto.
  - etrans; [done|]. by eapply ev_suffix.
Qed.

(** Threads that do not own the callsite of the stepping thread keep their part of
    the invariant. *)
Lemma thread_ok_frame own cs l cs' l' t :
  evolves own cs l cs' l' -> (forall c, own = Some c -> owns t <> Some c) ->
  thread_ok cs l t -> thread_ok cs' l' t.
Proof.
  intros Hev Hown.
  assert (forall h, head_ok l h -> head_ok l' h) as Hh.
  { intros h Hh x Hx. eapply ev_elem; eauto. }
  destruct t as [c p|p seen]; simpl.
  - intros (d & Hd & Hp). destruct (ev_cell _ _ _ _ _ Hev c d Hd)
      as (d' & Hd' & _ & _ & Hframe & Hreg & Hint). exists d'. split; [done|].
    assert (owns (Reg c p) = Some c -> next d' = next d /\ registration d' = registration d)
      as Hf.
    { intros He. apply Hframe. intros Ho. by apply (Hown c). }
    assert (owns (Reg c p) = Some c -> c ∉ l -> c ∉ l') as Hni.
    { intros He Hc. destruct (ev_list _ _ _ _ _ Hev) as [->|(x & Hx & ->)]; [done|].
      intros [->|?]%elem_of_cons; [|done]. by apply (Hown x). }
    destruct p; simpl in *; try done;
      try (destruct (Hf eq_refl) as [Hn ->]; rewrite ?Hn; specialize (Hni eq_refl));
      repeat match goal with H : _ /\ _ |- _ => destruct H end; split_and!;
      eauto using ev_elem; try (by apply Hh).
  - destruct p; simpl; [done|..].
    + intros (rest & Hr & Hs). exists rest. by eapply ev_walk.
    + intros (seen' & rest & -> & Hr & Hs). exists seen', rest. split; [done|].
      rewrite <- (assoc_L (++)) in *.
      by apply (ev_walk own cs l cs' l' (Some c) seen' (c :: rest)).
    + intros (seen' & rest & -> & Hr & Hs). exists seen', rest. split; [done|].
      rewrite <- (assoc_L (++)) in *.
      by apply (ev_walk own cs l cs' l' (Some c) seen' (c :: rest)).
    + intros Hs. etrans; [done|]. by eapply ev_suffix.
Qed.

(** A step that updates the cell of [c] without touching the list. *)
Lemma evolves_upd own cs l c f :
  (forall d, defaults cs !! c = Some d ->
     meta (f d) = meta d /\ (c ∈ l -> next (f d) = next d) /\
     (own <> Some c -> next (f d) = next d /\ registration (f d) = registration d) /\
     (registration d = 2 -> registration (f d) = 2) /\
     (interest_set d -> interest_set (f d))) ->
  evolves own cs l (upd c f cs) l.
Proof.
  intros Hf. split; [by left|]. intros x d Hd. simpl.
  destruct (decide (x = c)) as [->|Hne].
  - rewrite lookup_alter_eq, Hd. simpl. exists (f d). split; [done|]. by apply Hf.
  - rewrite lookup_alter_ne by done. exists d. split_and!; auto.
Qed.

Lemma evolves_refl own cs l : evolves own cs l cs l.
Proof. split; [by left|]. intros c d Hd. exists d. split_and!; auto. Qed.

Lemma cells_ok_upd cs l c f :
  cells_ok cs l ->
  (forall d, defaults cs !! c = Some d -> (c ∈ l -> next (f d) = next d) /\ cell_ok l c (f d)) ->
  cells_ok (upd c f cs) l.
Proof.
  intros [Hch Hnd Hc] Hf.
  destruct (defaults cs !! c) as [d|] eqn:Hd.
  - destruct (Hf d eq_refl) as [Hn Hok].
    assert (defaults (upd c f cs) = <[c := f d]> (defaults cs)) as Heq.
    { simpl. apply map_eq. intros x. destruct (decide (x = c)) as [->|].
      - by rewrite lookup_alter_eq, lookup_insert_eq, Hd.
      - by rewrite lookup_alter_ne, lookup_insert_ne. }
    split; rewrite ?Heq; [|done|].
    + destruct (decide (c ∈ l)) as [Hin|Hin].
      * apply chain_update; [|done]. intros d' Hd'. simplify_eq. by apply Hn.
      * by apply chain_update_other.
    + intros x e. destruct (decide (x = c)) as [->|].
      * rewrite lookup_insert_eq. intros [= <-]. done.
      * rewrite lookup_insert_ne by done. apply Hc.
  - split; simpl; [|done|]; rewrite alter_id by congruence; done.
Qed.

(** ** Every step keeps the invariant *)


(** What a step establishes: the new list, the thread's own part of the invariant,
    and what it may have changed for the others. *)
Definition step_ok (t : thread) (cs : Callsites) (l : list Identifier) (t' : thread)
    (cs' : Callsites) : Prop :=
  exists l', cells_ok cs' l' /\ thread_ok cs' l' t' /\
    evolves (match owns t' with Some c => Some c | None => owns t end) cs l cs' l' /\
    (owns t' = owns t \/ owns t' = None \/
     exists c d, owns t' = Some c /\ defaults cs !! c = Some d /\ registration d = 0).

Lemma walk_step_ok ds p seen cs l t' cs' :
  cells_ok cs l -> walk_ok cs l p seen -> walk_step ds p seen cs = Some (t', cs') ->
  step_ok (Walk p seen) cs l t' cs'.
Proof.
  intros Hcs Hp Hstep. destruct p as [|[c|]|c i|c|]; simpl in *; simplify_eq/=.
  - exists l. split_and!; eauto using evolves_refl. exists l. split; [apply Hcs|done].
  - destruct (defaults cs !! c) as [d|] eqn:Hd; simplify_eq/=.
    exists l. split_and!; eauto using evolves_refl.
    destruct Hp as ([|x rest] & Hr & Hs); [done|]. pose proof Hr as [[= ->] _].
    exists seen, rest. split_and!; [done..|]. by rewrite <- (assoc_L (++)).
  - exists l. split_and!; eauto using evolves_refl.
    destruct Hp as ([|x rest] & Hr & Hs); [by rewrite app_nil_r in Hs|by destruct Hr].
  - assert (forall o, evolves o cs l (upd c (DefaultCallsite.set_interest i) cs) l) as Hev.
    { intros o. apply evolves_upd. intros d _. split_and!; try done. by destruct i. }
    exists l. split_and!; eauto.
    + apply cells_ok_upd; [done|]. intros d Hd. split; [done|].
      destruct (ok_cells _ _ Hcs c d Hd) as (H1 & H2 & H3). split_and!; try apply H1; [done|].
      intros H. split; [by apply H3|]. by destruct i.
    + apply (thread_ok_frame None cs l _ l (Walk (WalkSetInterest c i) seen)); auto.
  - destruct (defaults cs !! c) as [d|] eqn:Hd; simplify_eq/=.
    exists l. split_and!; eauto using evolves_refl.
    destruct Hp as (seen' & rest & -> & (_ & d' & Hd' & Hr) & Hs).
    simplify_eq. by exists rest.
Qed.

(** A step of the registering thread that updates the cell of [c]. *)
Lemma upd_step_ok cs l c d f p p' :
  cells_ok cs l -> defaults cs !! c = Some d ->
  meta (f d) = meta d -> (c ∈ l -> next (f d) = next d) ->
  (registration d = 2 -> registration (f d) = 2) -> (interest_set d -> interest_set (f d)) ->
  cell_ok l c (f d) -> reg_ok l c (f d) p' ->
  owns (Reg c p') = Some c \/ owns (Reg c p) = Some c /\ owns (Reg c p') = None ->
  owns (Reg c p) = Some c \/ registration d = 0 ->
  step_ok (Reg c p) cs l (Reg c p') (upd c f cs).
Proof.
  intros Hcs Hd H1 H2 H3 H4 H5 H6 H7 H8. exists l. split_and!.
  - apply cells_ok_upd; [done|]. intros d' Hd'. by simplify_eq.
  - exists (f d). split; [|done]. simpl. by rewrite lookup_alter_eq, Hd.
  - assert (match owns (Reg c p') with Some c0 => Some c0 | None => owns (Reg c p) end = Some c)
      as -> by by destruct H7 as [->|[-> ->]].
    apply evolves_upd. intros d' Hd'. by simplify_eq.
  - destruct H7 as [H7|[_ H7]]; [|by auto]. destruct H8 as [H8|H8]; [left; congruence|].
    right. right. by exists c, d.
Qed.

Lemma head_in_list cs l : cells_ok cs l -> head_ok l (list_head cs).
Proof.
  intros [Hch _ _] x Hx. destruct l as [|y l]; simpl in Hch; [congruence|].
  destruct Hch as [Hy _]. rewrite Hx in Hy. simplify_eq. by left.
Qed.

(** The successful exchange of the head. *)
Lemma push_ok cs l c d :
  cells_ok cs l -> defaults cs !! c = Some d -> registration d = 1 -> c ∉ l ->
  next d = list_head cs ->
  cells_ok (with_head (Some c) cs) (c :: l) /\
  evolves (Some c) cs l (with_head (Some c) cs) (c :: l).
Proof.
  intros [Hch Hnd Hc] Hd Hr Hin Hn. split.
  - split; simpl; [|by constructor|].
    + split; [done|]. exists d. by rewrite Hn.
    + intros x e He. destruct (Hc x e He) as (H1 & H2 & H3). split_and!; try apply H1.
      * intros [->|Hx]%elem_of_cons; [simplify_eq; lia|by apply H2].
      * intros H. destruct (H3 H). split; [by right|done].
  - split; [right; by exists c|]. intros x e He. exists e. split_and!; auto.
Qed.

Lemma reg_step_ok ds c d p cs l p' cs' :
  cells_ok cs l -> defaults cs !! c = Some d -> reg_ok l c d p ->
  reg_step ds c d p cs = Some (p', cs') ->
  step_ok (Reg c p) cs l (Reg c p') cs'.
Proof.
  intros Hcs Hd Hp Hstep. pose proof (ok_cells _ _ Hcs c d Hd) as (Hr & Hl & Hreg).
  pose proof (head_in_list _ _ Hcs) as Hhead.
  assert (forall q, owns (Reg c q) = owns (Reg c p) \/ owns (Reg c q) = None ->
            reg_ok l c d q -> step_ok (Reg c p) cs l (Reg c q) cs) as Hsame.
  { intros q Hq Hok. exists l. split_and!; [done|by exists d|apply evolves_refl|].
    destruct Hq; auto. }
  destruct p; simpl in Hp, Hstep; try done.
  - simplify_eq. apply Hsame; destruct (DefaultCallsite.interest_fast d); auto.
  - destruct (Z.eqb_spec (registration d) DefaultCallsite.UNREGISTERED) as [H0|H0].
    { simplify_eq. apply (upd_step_ok cs l c d); simpl; auto; [by rewrite H0| |].
      - split_and!; simpl; done.
      - split; [done|]. intros ?. by apply Hl. }
    destruct (Z.eqb_spec (registration d) DefaultCallsite.REGISTERED) as [H2|H2].
    { simplify_eq. apply Hsame; simpl; [auto|]. split; [done|]. by apply Hreg. }
    destruct (Z.eqb_spec (registration d) DefaultCallsite.REGISTERING) as [H1|H1].
    { simplify_eq. apply Hsame; simpl; auto. }
    unfold DefaultCallsite.UNREGISTERED, DefaultCallsite.REGISTERED,
      DefaultCallsite.REGISTERING in *. lia.
  - simplify_eq. apply Hsame; simpl; [auto|]. tauto.
  - simplify_eq. destruct Hp as (Hp & Hc & Hh).
    apply (upd_step_ok cs l c d); simpl; auto; [done|].
    split_and!; simpl; try done; intros; lia.
  - simplify_eq. destruct Hp as (Hp & Hc & Hh & Hn). case_bool_decide as E.
    + subst. rewrite E in Hh. exfalso. by apply Hc, Hh.
    + apply Hsame; simpl; auto.
  - destruct Hp as (Hp & Hc & Hh & Hn). case_bool_decide as E; simplify_eq.
    + destruct (push_ok cs l c d) as [H1 H2]; [done..|].
      exists (c :: l). split_and!; [done| |done|auto]. exists d. split; [done|].
      simpl. split; [done|by left].
    + apply Hsame; simpl; auto.
  - simplify_eq. apply Hsame; simpl; auto.
  - simplify_eq. destruct Hp as (Hp & Hc).
    assert (interest_set (DefaultCallsite.set_interest i d)) as Hi by by destruct i.
    apply (upd_step_ok cs l c d); simpl; auto.
    split_and!; simpl; try done; intros; lia.
  - simplify_eq. destruct Hp as (Hp & Hc & Hi).
    apply (upd_step_ok cs l c d); simpl; auto.
    by split_and!.
  - simplify_eq. apply Hsame; simpl; auto.
Qed.

Lemma thread_step_ok ds t cs l t' cs' :
  cells_ok cs l -> thread_ok cs l t -> thread_step ds t cs = Some (t', cs') ->
  step_ok t cs l t' cs'.
Proof.
  intros Hcs Ht Hstep. destruct t as [c p|p seen]; [|by eapply walk_step_ok].
  destruct Ht as (d & Hd & Hp). simpl in Hstep. rewrite Hd in Hstep. simpl in Hstep.
  destruct (reg_step ds c d p cs) as [[p' cs'']|] eqn:E; simplify_eq/=.
  by eapply reg_step_ok.
Qed.

(** An owned callsite is [REGISTERING]. *)
Lemma owns_registering cs l t c :
  thread_ok cs l t -> owns t = Some c -> exists d, defaults cs !! c = Some d /\ registration d = 1.
Proof.
  intros Ht Ho. destruct t as [c' p|]; [|done]. destruct Ht as (d & Hd & Hp).
  destruct p; simplify_eq/=; exists d; split; (done || apply Hp).
Qed.

Lemma step_inv s s' l : Inv s l -> step s s' -> exists l', Inv s' l'.
Proof.
  intros [Hcs Hts Hown] Hstep. destruct Hstep as [ds i t t' cs cs' ts Hi Hstep]. simpl in *.
  destruct (thread_step_ok ds t cs l t' cs' Hcs (Hts i t Hi) Hstep)
    as (l' & Hcs' & Ht' & Hev & Hnew).
  assert (forall j u c, j <> i -> ts !! j = Some u -> owns u = Some c -> owns t' <> Some c)
    as Hother.
  { intros j u c Hj Hu Hc Ht'c. destruct Hnew as [Hnew|[Hnew|(x & d & Hx & Hd & Hr)]].
    - rewrite Hnew in Ht'c. by apply Hj, (Hown j i u t c).
    - congruence.
    - destruct (owns_registering cs l u c (Hts j u Hu) Hc) as (d' & Hd' & Hr').
      simplify_eq. congruence. }
  exists l'. split; simpl; [done|..].
  - intros j u Hu. destruct (decide (j = i)) as [->|Hj].
    { rewrite lookup_insert_eq in Hu. by simplify_eq. }
    rewrite lookup_insert_ne in Hu by done. eapply thread_ok_frame; [done| |by eapply Hts].
    intros c Hc Hu'. destruct (owns t') eqn:Ht'o; simplify_eq.
    + by apply (Hother j u c).
    + by apply Hj, (Hown j i u t c).
  - intros j k u v c Hu Hv Hcu Hcv.
    destruct (decide (j = i)) as [->|Hj], (decide (k = i)) as [->|Hk]; [done|..];
      rewrite ?lookup_insert_eq, ?lookup_insert_ne in * by done; simplify_eq; eauto.
    + exfalso. by apply (Hother k v c).
    + exfalso. by apply (Hother j u c).
Qed.

Lemma initial_inv s : initial s -> Inv s [].
Proof.
  intros (Hh & Hd & Ht). split.
  - split; [done|constructor|]. intros c d Hc. rewrite (Hd c d Hc).
    split_and!; simpl; unfold DefaultCallsite.UNREGISTERED; try lia.
    by intros ?%elem_of_nil.
  - intros i t Hi. specialize (Ht i t Hi). destruct t as [c p|p seen]; simpl in *.
    + destruct Ht as [-> [d Hc]]. by exists d.
    + by destruct Ht as [-> ->].
  - intros i j t u c Hi Hj Ho. specialize (Ht i t Hi). destruct t; simpl in Ht; [|done].
    by destruct Ht as [-> _].
Qed.

(** A thread that has finished. *)
Definition finished (t : thread) : Prop :=
  match t with
  | Reg _ (Returned _) | Walk WalkDone _ => True
  | _ => False
  end.

Lemma thread_progress ds cs l t :
  thread_ok cs l t -> finished t \/ is_Some (thread_step ds t cs).
Proof.
  destruct t as [c p|p seen]; simpl.
  - intros (d & Hd & Hp). rewrite Hd. simpl.
    destruct p; simpl in *; eauto; repeat case_match; eauto; done.
  - destruct p as [|[c|]|c i|c|]; simpl; eauto.
    + intros ([|x rest] & Hr & _); [done|]. destruct Hr as ([= ->] & d & -> & _). eauto.
    + intros (? & rest & _ & (_ & d & -> & _) & _). eauto.
Qed.

(** C2: however the threads interleave, registration never panics (in particular
    the assertion of [push_default] holds) and no thread is ever blocked; the list
    is at all times a duplicate-free chain on which a traversal terminates, it holds
    every callsite that is [REGISTERED] (whose interest has been computed) and none
    that is still [UNREGISTERED]; and a traversal that runs concurrently visits
    exactly the callsites of a snapshot of the list, each once. *)
Theorem registration_safe (s0 s : state) (Hinit : initial s0) (Hsteps : rtc step s0 s) :
  exists l,
    chain (defaults s.1) (list_head s.1) l /\ NoDup l /\
    (forall n, (length l <= n)%nat -> list_from n (defaults s.1) (list_head s.1) = l) /\
    (forall c d, defaults s.1 !! c = Some d ->
       (registration d = DefaultCallsite.REGISTERED ->
          c ∈ l /\ is_Some (DefaultCallsite.interest_fast d)) /\
       (registration d = DefaultCallsite.UNREGISTERED -> c ∉ l)) /\
    (forall i t, s.2 !! i = Some t ->
       (forall c, t <> Reg c Panicked) /\
       (finished t \/ forall ds, is_Some (thread_step ds t s.1)) /\
       (forall seen, t = Walk WalkDone seen -> suffix seen l /\ NoDup seen)).
Proof.
  assert (exists l, Inv s l) as [l [[Hch Hnd Hcells] Hts _]].
  { assert (exists l, Inv s0 l) as H0 by eauto using initial_inv. clear Hinit.
    induction Hsteps as [|s0 s1 s Hs _ IH]; [done|]. destruct H0 as [l Hl].
    eauto using step_inv. }
  exists l. split_and!; [done|done| | |].
  - intros n Hn. by apply chain_list_from.
  - intros c d Hd. destruct (Hcells c d Hd) as (_ & Hl & Hr). split.
    + intros H. destruct (Hr H) as [Hc Hi]. split; [done|].
      assert (interest d = 0 \/ interest d = 1 \/ interest d = 2) as Hcase
        by (unfold interest_set in Hi; lia).
      unfold DefaultCallsite.interest_fast. destruct Hcase as [->|[->| ->]]; simpl; eauto.
    + intros H Hc. by apply (Hl Hc).
  - intros i t Hi. specialize (Hts i t Hi). split_and!.
    + intros c ->. by destruct Hts as (d & _ & []).
    + destruct (thread_progress [] _ _ _ Hts) as [Hf|_]; [by left|].
      destruct t as [c p|p seen]; [destruct p|destruct p]; try (by left);
        right; intros ds; by destruct (thread_progress ds _ _ _ Hts) as [[]|?].
    + intros seen ->. simpl in Hts. split; [done|]. destruct Hts as [k ->].
      by apply NoDup_app in Hnd as (_ & _ & ?).
Qed.

Lemma run_steps schedule s s' : run schedule s = Some s' -> rtc step s s'.
Proof.
  revert s. induction schedule as [|[i ds] schedule IH]; intros [cs ts] H; simpl in H.
  { by simplify_eq. }
  destruct (ts !! i) as [t|] eqn:Hi; simpl in H; [|done].
  destruct (thread_step ds t cs) as [[t' cs']|] eqn:E; simpl in H; [|done].
  eapply rtc_l; [by econstructor|]. by apply IH.
Qed.

(** ** A concrete run: two threads race to register one callsite, a third registers
    another one, and a traversal runs in between. *)

Definition race_start : state :=
  ({| list_head := None; has_locked_callsites := false; locked_callsites := [];
      defaults := <[1%N := DefaultCallsite.new (example_metadata 1)]>
        {[ 2%N := DefaultCallsite.new (example_metadata 2) ]};
      dyns := ∅; MAX_LEVEL := 0 |},
   <[0%nat := Reg 1%N LoadInterestFast]> (<[1%nat := Reg 1%N LoadInterestFast]>
     (<[2%nat := Reg 2%N LoadInterestFast]> {[ 3%nat := Walk WalkLoadHead [] ]}))).

Definition race_schedule : list (nat * list Subscriber) :=
  map (fun i => (i, [NoSubscriber]))
    [0; 1; 0; 1; 2; 2; 0; 2; 0; 2; 0; 2; 0; 2; 3; 2; 3; 2; 2; 3; 0; 3; 0; 0; 0; 2; 2; 2; 3]%nat.

Definition race_result : option (Identifier * list thread) :=
  '(cs, ts) ← run race_schedule race_start;
  h ← list_head cs;
  Some (h, omap (fun i => ts !! i) [0; 1; 2; 3]%nat).

Lemma race_initial : initial race_start.
Proof.
  split_and!; [done|..].
  - intros c d. simpl. rewrite lookup_insert_Some, lookup_singleton_Some.
    intros [[<- <-]|[_ [<- <-]]]; done.
  - intros i t. simpl. rewrite !lookup_insert_Some, lookup_singleton_Some.
    intros [[<- <-]|[_ [[<- <-]|[_ [[<- <-]|[_ [<- <-]]]]]]]; simpl; split; eauto.
Qed.

Definition race_end : state := default race_start (run race_schedule race_start).

Lemma registration_safe_witness :
  exists l, chain (defaults race_end.1) (list_head race_end.1) l /\ NoDup l.
Proof.
  destruct (registration_safe race_start race_end race_initial) as (l & H1 & H2 & _).
  - apply (run_steps race_schedule). vm_compute. reflexivity.
  - exists l. exact (conj H1 H2).
Defined.
