(* ===== verification/SpanStack.v ===== *)
(** * SpanStack: [tracing-subscriber/src/registry/stack.rs]

    The per-thread stack of the spans that are entered.  A span that is entered again
    while it is on the stack is marked as a duplicate, so that it is seen once. *)

From S2P Require Import Prelude.
From S2P Require Import Str.
From S2P Require Import Levels.
From S2P Require Import Fields.
From S2P Require Import Meta.

(** [struct ContextId] *)
Record ContextId := { ctx_id : Id; duplicate : bool }.

(** [struct SpanStack]; the last element of the vector is the innermost span. *)
Module SpanStack.

Abbreviation t := (list ContextId).

Definition default : t := [].

Definition push (id : Id) (self : t) : t :=
  let duplicate := existsb (fun i => bool_decide (ctx_id i = id)) self in
  self ++ [{| ctx_id := id; duplicate := duplicate |}].

(** The index found by [iter().enumerate().rev().find(..)] *)
Definition last_index (expected_id : Id) (self : t) : option nat :=
  (fun j => length self - 1 - j)%nat <$>
  position (fun c => bool_decide (ctx_id c = expected_id)) (rev self).

Definition pop (expected_id : Id) (self : t) : bool * t :=
  match last_index expected_id self with
  | Some idx =>
      match self !! idx with
      | Some c => (negb (duplicate c), delete idx self)
      | None => (false, self)
      end
  | None => (false, self)
  end.

Definition iter (self : t) : list Id :=
  omap (fun c => if negb (duplicate c) then Some (ctx_id c) else None) (rev self).

Definition current (self : t) : option Id := head (iter self).

End SpanStack.

(** ** Specification

    The entered spans without the marks, innermost first; leaving a span removes its
    innermost entry. *)

Fixpoint remove_first (id : Id) (l : list Id) : list Id :=
  match l with
  | [] => []
  | x :: l => if decide (x = id) then l else x :: remove_first id l
  end.

(** The spans to be seen: each at the place where it was entered first. *)
Fixpoint first_entries (l : list Id) : list Id :=
  match l with
  | [] => []
  | x :: l => if decide (x ∈ l) then first_entries l else x :: first_entries l
  end.

(** The stack whose entries, innermost first, are [l]. *)
Fixpoint marked (l : list Id) : SpanStack.t :=
  match l with
  | [] => []
  | x :: l => marked l ++ [{| ctx_id := x; duplicate := bool_decide (x ∈ l) |}]
  end.

Lemma marked_ids l : ctx_id <$> marked l = rev l.
Proof. induction l as [|x l IH]; [done|]. simpl. by rewrite fmap_app, IH. Qed.

Lemma marked_length l : length (marked l) = length l.
Proof. by rewrite <- (length_fmap ctx_id), marked_ids, length_rev. Qed.

Lemma push_marked x l : SpanStack.push x (marked l) = marked (x :: l).
Proof.
  unfold SpanStack.push. simpl. do 3 f_equal. apply eq_bool_prop_intro.
  rewrite !Is_true_true, existsb_exists, bool_decide_eq_true.
  rewrite (list_elem_of_In l), in_rev, <- marked_ids, <- list_elem_of_In, list_elem_of_fmap.
  setoid_rewrite bool_decide_eq_true. setoid_rewrite list_elem_of_In.
  split; intros (c & H); exists c; intuition.
Qed.

Lemma last_index_snoc id s c :
  SpanStack.last_index id (s ++ [c]) =
  if decide (ctx_id c = id) then Some (length s) else SpanStack.last_index id s.
Proof.
  unfold SpanStack.last_index. rewrite rev_unit, length_app. simpl.
  case_bool_decide; [rewrite decide_True by done; simpl; f_equal; lia|].
  rewrite decide_False by done. destruct (position _ (rev s)) as [j|]; simpl; [|done].
  f_equal. lia.
Qed.

Lemma last_index_lt id s i : SpanStack.last_index id s = Some i -> (i < length s)%nat.
Proof.
  revert i. induction s as [|c s IH] using rev_ind; intros i; [done|].
  rewrite last_index_snoc, length_app. simpl. destruct (decide _); intros H; simplify_eq; [lia|].
  specialize (IH _ H). lia.
Qed.

Lemma pop_snoc id s c :
  SpanStack.pop id (s ++ [c]) =
  if decide (ctx_id c = id) then (negb (duplicate c), s)
  else let '(b, s') := SpanStack.pop id s in (b, s' ++ [c]).
Proof.
  unfold SpanStack.pop. rewrite last_index_snoc. destruct (decide (ctx_id c = id)).
  - assert ((s ++ [c]) !! length s = Some c) as -> by by apply list_lookup_middle.
    by rewrite delete_middle, app_nil_r.
  - destruct (SpanStack.last_index id s) as [i|] eqn:Hi; [|done].
    pose proof (last_index_lt _ _ _ Hi). rewrite lookup_app_l by done.
    destruct (s !! i) as [d|] eqn:Hd; [|done].
    f_equal. rewrite !delete_take_drop, take_app_le, drop_app_le by lia.
    by rewrite app_assoc.
Qed.

Lemma elem_remove_first x id l : x <> id -> x ∈ remove_first id l <-> x ∈ l.
Proof.
  intros Hne. induction l as [|y l IH]; [done|]. simpl.
  destruct (decide (y = id)) as [->|]; rewrite !elem_of_cons; [intuition congruence|].
  rewrite IH. done.
Qed.

Lemma pop_marked id l :
  SpanStack.pop id (marked l) =
  (bool_decide (id ∈ l) && negb (bool_decide (id ∈ remove_first id l)), marked (remove_first id l)).
Proof.
  induction l as [|x l IH]; [done|]. cbn [marked remove_first]. rewrite pop_snoc. simpl.
  destruct (decide (x = id)) as [->|Hne].
  - f_equal. by rewrite (bool_decide_true (id ∈ id :: l)) by by left.
  - rewrite IH. simpl. rewrite (bool_decide_ext (id ∈ x :: l) (id ∈ l))
      by (rewrite elem_of_cons; intuition congruence).
    rewrite (bool_decide_ext (id ∈ x :: remove_first id l) (id ∈ remove_first id l))
      by (rewrite elem_of_cons; intuition congruence).
    do 5 f_equal. apply bool_decide_ext. symmetry. by apply elem_remove_first.
Qed.

Lemma iter_snoc s c :
  SpanStack.iter (s ++ [c]) =
  if duplicate c then SpanStack.iter s else ctx_id c :: SpanStack.iter s.
Proof. unfold SpanStack.iter. rewrite rev_unit. cbn. by destruct (duplicate c). Qed.

Lemma iter_marked l : SpanStack.iter (marked l) = first_entries l.
Proof.
  induction l as [|x l IH]; [done|]. cbn [marked first_entries]. rewrite iter_snoc. simpl.
  case_bool_decide; case_decide; by rewrite IH.
Qed.

Lemma elem_first_entries x l : x ∈ first_entries l <-> x ∈ l.
Proof.
  induction l as [|y l IH]; [done|]. simpl. rewrite elem_of_cons.
  destruct (decide (y ∈ l)); rewrite ?elem_of_cons, IH; [|done].
  split; [auto|]. intros [->|]; done.
Qed.

Lemma NoDup_first_entries l : NoDup (first_entries l).
Proof.
  induction l as [|y l IH]; [constructor|]. simpl. case_decide; [done|].
  constructor; [by rewrite elem_first_entries|done].
Qed.

(** The stack after a sequence of entries ([true]) and exits ([false]), and its
    specification. *)
Definition run_stack (ops : list (bool * Id)) : SpanStack.t :=
  fold_left (fun s op => if (op.1 : bool) then SpanStack.push op.2 s else (SpanStack.pop op.2 s).2)
    ops SpanStack.default.
Definition spec_stack (ops : list (bool * Id)) : list Id :=
  fold_left (fun l op => if (op.1 : bool) then op.2 :: l else remove_first op.2 l) ops [].

Lemma run_stack_marked ops : run_stack ops = marked (spec_stack ops).
Proof.
  unfold run_stack, spec_stack. change SpanStack.default with (marked []).
  generalize (@nil Id). induction ops as [|[[] x] ops IH]; intros l; [done|..]; simpl.
  - rewrite push_marked. apply (IH (x :: l)).
  - rewrite pop_marked. apply (IH (remove_first x l)).
Qed.

(** Whatever the order in which spans are entered and left (also spans left out of
    order, left without having been entered, or entered repeatedly), the span stack
    shows every entered span exactly once, the one entered last in front, and
    [current] is that span; [pop] answers true exactly when it leaves the last entry
    of the span. *)
Theorem span_stack_refines (ops : list (bool * Id)) (id : Id) :
  let s := run_stack ops in
  let l := spec_stack ops in
  SpanStack.iter s = first_entries l /\
  NoDup (SpanStack.iter s) /\
  (id ∈ SpanStack.iter s <-> id ∈ l) /\
  SpanStack.current s = head (first_entries l) /\
  (SpanStack.current s = None <-> l = []) /\
  (SpanStack.pop id s).1 = bool_decide (id ∈ l /\ id ∉ remove_first id l) /\
  (id ∉ l -> SpanStack.pop id s = (false, s)).
Proof.
  intros s l. subst s. rewrite run_stack_marked. fold l. unfold SpanStack.current.
  rewrite iter_marked, pop_marked. split_and!; try done.
  - apply NoDup_first_entries.
  - apply elem_first_entries.
  - split; [|by intros ->]. intros Hh%head_None. destruct l as [|x l']; [done|].
    pose proof (elem_first_entries x (x :: l')) as E. rewrite Hh in E.
    exfalso. apply (not_elem_of_nil x), E. by left.
  - simpl. repeat case_bool_decide; tauto.
  - intros Hn. f_equal; [by rewrite bool_decide_false|]. f_equal.
    clearbody l. induction l as [|x l IH]; [done|]. simpl.
    rewrite decide_False by set_solver. f_equal. apply IH. set_solver.
Qed.

Lemma span_stack_out_of_order :
  let id n := {| id_u64 := n |} in
  run_stack [(true, id 1); (true, id 2); (true, id 1); (false, id 1); (false, id 7);
             (false, id 1)]%N = [{| ctx_id := id 2%N; duplicate := false |}].
Proof. reflexivity. Qed.

(** A span that is entered again below another one does not become the current span: its
    new entry is a duplicate. *)
Lemma reentered_span_not_current a b :
  a <> b ->
  SpanStack.current (SpanStack.push a (SpanStack.push b (SpanStack.push a SpanStack.default))) = Some b.
Proof.
  intros Hne. change SpanStack.default with (marked []). rewrite !push_marked.
  unfold SpanStack.current. rewrite iter_marked. cbn.
  rewrite decide_True by (right; by left). rewrite decide_False by set_solver. done.
Qed.
