(* ===== verification/Extensions.v ===== *)
(** * Extensions: [tracing-subscriber/src/registry/extensions.rs]

    The type map of a span: a hash map from [TypeId]s to boxed values, read and
    written at a type. *)

From S2P Require Import Prelude.

(** [std::any::TypeId] *)
Definition TypeId := N.

(** The types that may be stored, by their [TypeId]. *)
Class ExtTypes := Val : TypeId -> Type.

Section boxes.
Context {types : ExtTypes}.

(** [Box<dyn Any>] and [downcast] *)
Definition AnyBox := {ty : TypeId & Val ty}.
Definition boxed (ty : TypeId) (val : Val ty) : AnyBox := existT ty val.
Definition downcast (ty : TypeId) (b : AnyBox) : option (Val ty) :=
  match decide (projT1 b = ty) with
  | left e => Some (eq_rect (projT1 b) Val (projT2 b) ty e)
  | right _ => None
  end.

(** [IdHasher] *)
Definition write_u64 (id : Z) : Z := id.
Definition finish (self : Z) : Z := self.

End boxes.

(** [struct ExtensionsInner] *)
Abbreviation ExtensionsInner := (gmap TypeId AnyBox).

Module ExtensionsInner.
Section ops.
Context {types : ExtTypes}.

Definition new : ExtensionsInner := ∅.
Definition insert (ty : TypeId) (val : Val ty) (self : ExtensionsInner) :
    option (Val ty) * ExtensionsInner :=
  (self !! ty ≫= downcast ty, <[ty := boxed ty val]> self).
Definition get (ty : TypeId) (self : ExtensionsInner) : option (Val ty) :=
  self !! ty ≫= downcast ty.

(** [get_mut]: the writes through the reference are those of [f]. *)
Definition get_mut (ty : TypeId) (f : Val ty -> Val ty) (self : ExtensionsInner) :
    option (Val ty) * ExtensionsInner :=
  match self !! ty ≫= downcast ty with
  | Some v => (Some v, <[ty := boxed ty (f v)]> self)
  | None => (None, self)
  end.
Definition remove (ty : TypeId) (self : ExtensionsInner) : option (Val ty) * ExtensionsInner :=
  (self !! ty ≫= downcast ty, delete ty self).
Definition clear (self : ExtensionsInner) : ExtensionsInner := ∅.

End ops.
End ExtensionsInner.

Module ExtensionsMut.
Section ops.
Context {types : ExtTypes}.

Definition replace (ty : TypeId) (val : Val ty) (self : ExtensionsInner) :
    option (Val ty) * ExtensionsInner := ExtensionsInner.insert ty val self.
Definition insert (ty : TypeId) (val : Val ty) (self : ExtensionsInner) :
    outcome ExtensionsInner :=
  let '(old, self) := replace ty val self in
  _ ← assert (bool_decide (old = None));
  mret self.
Definition get_mut (ty : TypeId) (f : Val ty -> Val ty) (self : ExtensionsInner) :
    option (Val ty) * ExtensionsInner := ExtensionsInner.get_mut ty f self.
Definition remove (ty : TypeId) (self : ExtensionsInner) : option (Val ty) * ExtensionsInner :=
  ExtensionsInner.remove ty self.

End ops.
End ExtensionsMut.

(** ** Properties *)

Section properties.
Context {types : ExtTypes}.

(** The operations on a type map. *)
Inductive ext_op :=
  | OpReplace (ty : TypeId) (val : Val ty)
  | OpUpdate (ty : TypeId) (f : Val ty -> Val ty)
  | OpRemove (ty : TypeId)
  | OpClear.

Definition ext_step (e : ExtensionsInner) (op : ext_op) : ExtensionsInner :=
  match op with
  | OpReplace ty v => (ExtensionsMut.replace ty v e).2
  | OpUpdate ty f => (ExtensionsMut.get_mut ty f e).2
  | OpRemove ty => (ExtensionsMut.remove ty e).2
  | OpClear => ExtensionsInner.clear e
  end.

(** The specification: for each type at most one value of that type. *)
Definition spec_exts := forall ty : TypeId, option (Val ty).
Definition set_at (ty : TypeId) (v : option (Val ty)) (s : spec_exts) : spec_exts := fun ty' =>
  match decide (ty = ty') with
  | left e => eq_rect ty (fun ty => option (Val ty)) v ty' e
  | right _ => s ty'
  end.
Definition spec_ext_step (s : spec_exts) (op : ext_op) : spec_exts :=
  match op with
  | OpReplace ty v => set_at ty (Some v) s
  | OpUpdate ty f => set_at ty (f <$> s ty) s
  | OpRemove ty => set_at ty None s
  | OpClear => fun _ => None
  end.

Lemma downcast_boxed ty v : downcast ty (boxed ty v) = Some v.
Proof.
  unfold downcast. destruct (decide _) as [e|]; [|done]. simpl in e.
  by rewrite (proof_irrel e eq_refl).
Qed.

Lemma set_at_eq ty v s : set_at ty v s ty = v.
Proof.
  unfold set_at. destruct (decide _) as [e|]; [|done]. by rewrite (proof_irrel e eq_refl).
Qed.

Lemma set_at_ne ty ty' v s : ty <> ty' -> set_at ty v s ty' = s ty'.
Proof. intros. unfold set_at. by destruct (decide _). Qed.

Lemma get_insert ty v e ty' :
  ExtensionsInner.get ty' (<[ty := boxed ty v]> e) =
  set_at ty (Some v) (fun ty => ExtensionsInner.get ty e) ty'.
Proof.
  unfold ExtensionsInner.get. destruct (decide (ty = ty')) as [<-|Hne].
  - rewrite lookup_insert_eq, set_at_eq. apply downcast_boxed.
  - by rewrite lookup_insert_ne, set_at_ne.
Qed.

Lemma get_delete ty e ty' :
  ExtensionsInner.get ty' (delete ty e) =
  set_at ty None (fun ty => ExtensionsInner.get ty e) ty'.
Proof.
  unfold ExtensionsInner.get. destruct (decide (ty = ty')) as [<-|Hne].
  - by rewrite lookup_delete_eq, set_at_eq.
  - by rewrite lookup_delete_ne, set_at_ne.
Qed.

Definition consistent (e : ExtensionsInner) : Prop :=
  forall ty b, e !! ty = Some b -> projT1 b = ty.

Lemma step_consistent e op : consistent e -> consistent (ext_step e op).
Proof.
  intros H ty b. destruct op as [ty' v|ty' f|ty'|]; simpl.
  - intros [[<- <-]|[_ Hb]]%lookup_insert_Some; [done|]. by apply H.
  - unfold ExtensionsMut.get_mut, ExtensionsInner.get_mut.
    destruct (e !! ty' ≫= downcast ty'); simpl; [|apply H].
    intros [[<- <-]|[_ Hb]]%lookup_insert_Some; [done|]. by apply H.
  - intros [_ Hb]%lookup_delete_Some. by apply H.
  - done.
Qed.

Lemma step_refines e s op ty :
  (forall ty, ExtensionsInner.get ty e = s ty) ->
  ExtensionsInner.get ty (ext_step e op) = spec_ext_step s op ty.
Proof.
  intros H. destruct op as [ty' v|ty' f|ty'|]; simpl; [| | |done].
  - rewrite get_insert. unfold set_at. destruct (decide _); auto.
  - unfold ExtensionsMut.get_mut, ExtensionsInner.get_mut.
    pose proof (H ty') as Hty'. unfold ExtensionsInner.get in Hty'.
    destruct (e !! ty' ≫= downcast ty') as [v|]; simpl.
    + rewrite get_insert. rewrite <- Hty'. unfold set_at. destruct (decide _); auto.
    + rewrite <- Hty'. simpl. destruct (decide (ty' = ty)) as [<-|Hne].
      * by rewrite set_at_eq, H.
      * by rewrite set_at_ne.
  - rewrite get_delete. unfold set_at. destruct (decide _); auto.
Qed.

Lemma run_refines ops e s :
  (forall ty, ExtensionsInner.get ty e = s ty) -> consistent e ->
  (forall ty, ExtensionsInner.get ty (fold_left ext_step ops e) =
     fold_left spec_ext_step ops s ty) /\
  consistent (fold_left ext_step ops e).
Proof.
  revert e s. induction ops as [|op ops IH]; intros e s H0 Hc0; [done|]. simpl. apply IH.
  - intros ty0. by apply step_refines.
  - by apply step_consistent.
Qed.

(** A span's extensions hold at most one value of each type, after any sequence of
    replacements, updates, removals and clears: [get] at a type returns what the last
    of them on that type left (the unchecked-looking downcasts of the boxes never
    fail), no operation on another type changes it, [replace] and [remove] return the
    previous value, and [insert] panics exactly when a value of the type is present. *)
Theorem extensions_typed (ops : list ext_op) (ty : TypeId) (v : Val ty) :
  let e := fold_left ext_step ops ExtensionsInner.new in
  let s := fold_left spec_ext_step ops (fun _ => None) in
  ExtensionsInner.get ty e = s ty /\
  (e !! ty = None <-> s ty = None) /\
  (ExtensionsMut.replace ty v e).1 = s ty /\
  (ExtensionsMut.remove ty e).1 = s ty /\
  (ExtensionsMut.insert ty v e = Panic <-> s ty <> None) /\
  (forall e', ExtensionsMut.insert ty v e = Done e' ->
     forall ty', ExtensionsInner.get ty' e' = set_at ty (Some v) s ty').
Proof.
  intros e s.
  assert ((forall ty, ExtensionsInner.get ty e = s ty) /\ consistent e) as [Hr Hc].
  { by apply run_refines. }
  pose proof (Hr ty) as Hty. split; [done|]. rewrite <- Hty.
  assert (e !! ty = None <-> ExtensionsInner.get ty e = None) as Hnone.
  { unfold ExtensionsInner.get. destruct (e !! ty) as [b|] eqn:Hb; [|done]. simpl.
    unfold downcast. rewrite (decide_True_pi (Hc _ _ Hb)). by split. }
  split_and!; [done|done|done|..]; unfold ExtensionsMut.insert, ExtensionsMut.replace,
    ExtensionsInner.insert; change (e !! ty ≫= downcast ty) with (ExtensionsInner.get ty e).
  - destruct (ExtensionsInner.get ty e); simpl; by split.
  - destruct (ExtensionsInner.get ty e); simpl; [done|]. intros e' [= <-] ty'.
    rewrite get_insert. unfold set_at. destruct (decide _); auto.
Qed.

End properties.
