(* ===== verification/Registry.v ===== *)
(** * Registry: [tracing-subscriber/src/registry/sharded.rs]

    The span registry: the pool of span data with their reference counts, the
    thread's stack of entered spans, the closing of spans (the [CloseGuard]s and
    their thread-local count, and the release of the parent when a span's data is
    cleared), and the answers that it gives for the per-layer filters.

    [sharded_slab::Pool] is the class [PoolOps], with its laws in [PoolLaws]; the
    current default dispatcher, to which the data of a closed span gives back its
    reference to the parent, is the parameter [default_try_close]. *)

From S2P Require Import Prelude.
From S2P Require Import Ord.
From S2P Require Import Str.
From S2P Require Import Levels.
From S2P Require Import Fields.
From S2P Require Import Meta.
From S2P Require Import Interests.
From S2P Require Import FilterIds.
From S2P Require Import SpanStack.
From S2P Require Import Extensions.

Local Open Scope Z_scope.

(** What a program supplies: the build configuration, the types stored in span
    extensions, and the state of its own layers and filters. *)
Class Env := {
  debug_assertions : bool;
  ext_types :: ExtTypes;
  UserState : Type;
}.

(** [struct DataInner] *)
Record DataInner `{Env} := {
  filter_map : FilterMap.t;
  metadata : Metadata;
  parent : option Id;
  ref_count : Z;
  extensions : ExtensionsInner;
}.

Definition set_ref_count `{Env} (n : Z) (d : DataInner) : DataInner :=
  {| filter_map := filter_map d; metadata := metadata d; parent := parent d;
     ref_count := n; extensions := extensions d |}.

(** [struct Data] *)
Record Data `{Env} := { key : Z; inner : DataInner }.

(** [impl Default for DataInner]: the metadata of the null callsite. *)
Definition NULL_METADATA : Metadata :=
  Metadata.new "" "" Level.TRACE None None None (FieldSet.new [] 0%N) Kind.SPAN.
Definition default_data `{Env} : DataInner :=
  {| filter_map := FilterMap.new; metadata := NULL_METADATA; parent := None; ref_count := 0;
     extensions := ExtensionsInner.new |}.

(** ** [sharded_slab::Pool]

    [create_with] is split into the reservation of a slot, with the value that the
    slot holds ([Default], or what was cleared there), and the publication of the
    value under its key; [clear] into the removal of the key and, after
    [Clear::clear], the return of the slot.  A [Ref] shares the value; an atomic
    update through it is [pool_set]. *)

Class PoolOps (D : Type) := {
  pool : Type;
  pool_new : pool;
  pool_get : Z -> pool -> option D;
  pool_set : Z -> D -> pool -> pool;
  pool_reserve : pool -> option (Z * D);
  pool_publish : Z -> D -> pool -> pool;
  pool_begin_clear : Z -> pool -> option (D * pool);
  pool_end_clear : D -> pool -> pool;
}.

(** [pool_spare d p]: a free slot may hold [d]. *)
Class PoolLaws {D} (dflt : D) (ops : PoolOps D) := {
  pool_keys : pool -> gset Z;
  pool_spare : D -> pool -> Prop;
  pool_keys_get k p : k ∈ pool_keys p <-> is_Some (pool_get k p);
  pool_get_new k : pool_get k pool_new = None;
  pool_get_set k k' d p :
    is_Some (pool_get k p) ->
    pool_get k' (pool_set k d p) = if decide (k' = k) then Some d else pool_get k' p;
  pool_reserve_fresh p k d :
    pool_reserve p = Some (k, d) -> 0 <= k /\ pool_get k p = None /\ pool_spare d p;
  pool_get_publish p k d0 d k' :
    pool_reserve p = Some (k, d0) ->
    pool_get k' (pool_publish k d p) = if decide (k' = k) then Some d else pool_get k' p;
  pool_begin_clear_get k p d :
    pool_get k p = Some d ->
    exists p', pool_begin_clear k p = Some (d, p') /\
      (forall k', pool_get k' p' = if decide (k' = k) then None else pool_get k' p) /\
      (forall d', pool_spare d' p' -> pool_spare d' p);
  pool_begin_clear_none k p : pool_get k p = None -> pool_begin_clear k p = None;
  pool_get_end_clear k d p : pool_get k (pool_end_clear d p) = pool_get k p;
  pool_spare_new d : pool_spare d pool_new -> d = dflt;
  pool_spare_set k d d' p : pool_spare d' (pool_set k d p) -> pool_spare d' p;
  pool_spare_publish k d d' p : pool_spare d' (pool_publish k d p) -> pool_spare d' p;
  pool_spare_end_clear d d' p : pool_spare d' (pool_end_clear d p) -> d' = d \/ pool_spare d' p;
}.

(** ** The state *)

Section world.
Context `{E : Env} {P : PoolOps DataInner}.

(** The thread-locals [FILTERING], [CLOSE_COUNT] and [current_spans] of the thread
    that runs and whether it is panicking; the pool and the next filter id of the
    [Registry]; and the state of the layers and filters. *)
Record World := {
  filtering : FilterState;
  close_count : Z;
  current_spans : option SpanStack.t;
  panicking : bool;
  spans : pool;
  next_filter_id : Z;
  user : UserState;
}.

Definition with_filtering (f : FilterState) (w : World) : World :=
  {| filtering := f; close_count := close_count w; current_spans := current_spans w;
     panicking := panicking w; spans := spans w; next_filter_id := next_filter_id w;
     user := user w |}.
Definition with_close_count (n : Z) (w : World) : World :=
  {| filtering := filtering w; close_count := n; current_spans := current_spans w;
     panicking := panicking w; spans := spans w; next_filter_id := next_filter_id w;
     user := user w |}.
Definition with_current_spans (s : option SpanStack.t) (w : World) : World :=
  {| filtering := filtering w; close_count := close_count w; current_spans := s;
     panicking := panicking w; spans := spans w; next_filter_id := next_filter_id w;
     user := user w |}.
Definition with_spans (p : pool) (w : World) : World :=
  {| filtering := filtering w; close_count := close_count w; current_spans := current_spans w;
     panicking := panicking w; spans := p; next_filter_id := next_filter_id w;
     user := user w |}.
Definition with_next_filter_id (n : Z) (w : World) : World :=
  {| filtering := filtering w; close_count := close_count w; current_spans := current_spans w;
     panicking := panicking w; spans := spans w; next_filter_id := n; user := user w |}.
Definition with_user (u : UserState) (w : World) : World :=
  {| filtering := filtering w; close_count := close_count w; current_spans := current_spans w;
     panicking := panicking w; spans := spans w; next_filter_id := next_filter_id w;
     user := u |}.

(** Computations: they update the state and return, or panic. *)
Definition M (A : Type) : Type := World -> outcome (A * World).

#[global] Instance M_ret : MRet M := fun A a w => Done (a, w).
#[global] Instance M_bind : MBind M := fun A B f m w =>
  match m w with Done (a, w) => f a w | Panic => Panic end.

Definition gets {A} (f : World -> A) : M A := fun w => Done (f w, w).
Definition modify (f : World -> World) : M unit := fun w => Done (tt, f w).
Definition lift {A} (o : outcome A) : M A := fun w => a ← o; Done (a, w).

(** An access to the thread-local [FILTERING]. *)
Definition with_filter_state (f : FilterState -> outcome FilterState) : M unit := fun w =>
  s ← f (filtering w); Done (tt, with_filtering s w).
Definition with_filter_state' {A} (f : FilterState -> outcome (A * FilterState)) : M A :=
  fun w => '(a, s) ← f (filtering w); Done (a, with_filtering s w).

(** [FilterState::did_enable], of [layer_filters/mod.rs] *)
Definition did_enable (filter : FilterId.t) (f : M unit) : M unit :=
  run ← with_filter_state' (fun s => Done (FilterState.did_enable_before filter s));
  _ ← (if (run : bool) then f else mret tt);
  with_filter_state (FilterState.did_enable_after debug_assertions).

(** [FilterState::and], of [layer_filters/mod.rs] *)
Definition filtering_and (filter : FilterId.t) (f : M bool) : M bool :=
  map ← gets (fun w => enabled_ (filtering w));
  enabled ← (if FilterMap.is_enabled filter map then f else mret false);
  _ ← with_filter_state (fun s => Done (FilterState.and filter map enabled s));
  mret enabled.

End world.

(** Runs the monadic operations of a goal. *)
Ltac mred :=
  cbv beta iota zeta delta
    [mbind M_bind mret M_ret gets modify lift with_filter_state with_filter_state'
     outcome_bind outcome_ret].

(** ** [struct Registry] *)

Definition idx_to_id (idx : Z) : Id := {| id_u64 := Z.to_N (idx + 1) |}.
Definition id_to_idx (id : Id) : Z := Z.of_N (Id.into_u64 id) - 1.

(** [struct CloseGuard] *)
Record CloseGuard := { guard_id : Id; is_closing : bool }.

Module CloseGuard.

Definition set_closing (self : CloseGuard) : CloseGuard :=
  {| guard_id := guard_id self; is_closing := true |}.

End CloseGuard.

Module Registry.
Section ops.
Context `{E : Env} {P : PoolOps DataInner}.

Definition get (id : Id) : M (option DataInner) :=
  gets (fun w => pool_get (id_to_idx id) (spans w)).

Definition start_close (id : Id) : M CloseGuard :=
  _ ← modify (fun w => with_close_count (close_count w + 1) w);
  mret {| guard_id := id; is_closing := false |}.

Definition has_per_layer_filters : M bool := gets (fun w => 0 <? next_filter_id w).

(** [self.current_spans.get_or_default()] *)
Definition span_stack : M SpanStack.t :=
  _ ← modify (fun w => with_current_spans
        (Some (default SpanStack.default (current_spans w))) w);
  gets (fun w => default SpanStack.default (current_spans w)).

(** *** [impl Subscriber for Registry] *)

Definition register_callsite (_ : Metadata) : M Interest :=
  plf ← has_per_layer_filters;
  if (plf : bool) then
    interest ← with_filter_state' (FilterState.take_interest debug_assertions);
    mret (default Interest.always interest)
  else mret Interest.always.

Definition enabled (_ : Metadata) : M bool :=
  plf ← has_per_layer_filters;
  if (plf : bool) then with_filter_state' (FilterState.event_enabled debug_assertions)
  else mret true.

Definition current_span : M CurrentInner :=
  spans ← gets current_spans;
  match spans ≫= SpanStack.current with
  | None => mret CurrentSpans.none
  | Some id =>
      span ← get id;
      mret (match span with
            | Some span => CurrentSpans.new id (metadata span)
            | None => CurrentSpans.none
            end)
  end.

Definition clone_span (id : Id) : M Id :=
  span ← get id;
  span ← lift (expect span);
  let refs := ref_count span in
  _ ← modify (fun w => with_spans
        (pool_set (id_to_idx id) (set_ref_count (U64.wrap (refs + 1)) span) (spans w)) w);
  _ ← lift (assert (negb (refs =? 0)));
  mret id.

(** The parent of a new span, of which [new_span] takes a reference. *)
Definition clone_parent (id : option Id) : M (option Id) :=
  match id with
  | Some id => id ← clone_span id; mret (Some id)
  | None => mret None
  end.
Definition new_span_parent (attrs : Attributes) : M (option Id) :=
  if Attributes.is_root attrs then mret None
  else if Attributes.is_contextual attrs then
    current ← current_span; clone_parent (CurrentSpans.id current)
  else clone_parent (Attributes.parent attrs).

Definition new_span (attrs : Attributes) : M Id :=
  parent ← new_span_parent attrs;
  slot ← gets (fun w => pool_reserve (spans w));
  '(k, data) ← lift (expect slot);
  map ← with_filter_state'
          (fun s => map ← FilterState.filter_map debug_assertions s; Done (map, s));
  plf ← has_per_layer_filters;
  _ ← lift (FilterState.debug_assert debug_assertions
              (bool_decide (map = FilterMap.new) || plf));
  _ ← lift (FilterState.debug_assert debug_assertions (ref_count data =? 0));
  _ ← modify (fun w => with_spans
        (pool_publish k
           {| filter_map := map; metadata := Attributes.metadata attrs; parent := parent;
              ref_count := 1; extensions := extensions data |} (spans w)) w);
  mret (idx_to_id k).

Definition record (_ : Id) (_ : ValueSet) : M unit := mret tt.
Definition record_follows_from (_ _ : Id) : M unit := mret tt.

Definition event_enabled (_ : Event) : M bool :=
  plf ← has_per_layer_filters;
  if (plf : bool) then with_filter_state' (FilterState.event_enabled debug_assertions)
  else mret true.

Definition event (_ : Event) : M unit := mret tt.

Definition enter (id : Id) : M unit :=
  modify (fun w => with_current_spans
    (Some (SpanStack.push id (default SpanStack.default (current_spans w)))) w).

Definition exit (id : Id) : M unit :=
  modify (fun w =>
    match current_spans w with
    | Some spans => with_current_spans (Some (SpanStack.pop id spans).2) w
    | None => w
    end).

Definition try_close (id : Id) : M bool :=
  span ← get id;
  is_panicking ← gets panicking;
  match span with
  | None => if (is_panicking : bool) then mret false else lift Panic
  | Some span =>
      let refs := ref_count span in
      _ ← modify (fun w => with_spans
            (pool_set (id_to_idx id) (set_ref_count (U64.wrap (refs - 1)) span) (spans w)) w);
      _ ← ((if (is_panicking : bool) then mret tt else lift (assert (refs <? U64.MAX))) : M unit);
      mret (negb (refs >? 1))
  end.

(** *** [impl LookupSpan for Registry] *)

Definition span_data (id : Id) : M (option Data) :=
  inner ← get id;
  mret ((fun inner => {| key := id_to_idx id; inner := inner |}) <$> inner).

Definition register_filter : M FilterId.t :=
  next ← gets next_filter_id;
  id ← lift (FilterId.new next);
  _ ← modify (fun w => with_next_filter_id (next + 1) w);
  mret id.

(** [impl SpanData for Data] *)
Definition data_id (self : Data) : Id := idx_to_id (key self).
Definition data_metadata (self : Data) : Metadata := metadata (inner self).
Definition data_parent (self : Data) : option Id := parent (inner self).
Definition is_enabled_for (filter : FilterId.t) (self : Data) : bool :=
  FilterMap.is_enabled filter (filter_map (inner self)).

(** [impl Clear for DataInner] *)
Definition clear_data (default_try_close : Id -> M bool) (data : DataInner) : M DataInner :=
  _ ← (match parent data with
       | Some parent => _ ← default_try_close parent; mret tt
       | None => mret tt
       end : M unit);
  mret {| filter_map := FilterMap.new; metadata := metadata data; parent := None;
          ref_count := ref_count data; extensions := ExtensionsInner.clear (extensions data) |}.

(** [Pool::clear], around [Clear::clear] *)
Definition clear_span (default_try_close : Id -> M bool) (idx : Z) : M unit :=
  taken ← gets (fun w => pool_begin_clear idx (spans w));
  match taken with
  | None => mret tt
  | Some (data, p) =>
      _ ← modify (with_spans p);
      data ← clear_data default_try_close data;
      modify (fun w => with_spans (pool_end_clear data (spans w)) w)
  end.

(** [impl Drop for CloseGuard] *)
Definition drop_guard (default_try_close : Id -> M bool) (self : CloseGuard) : M unit :=
  c ← gets close_count;
  _ ← modify (with_close_count (c - 1));
  if (c =? 1) && is_closing self then clear_span default_try_close (id_to_idx (guard_id self))
  else mret tt.

End ops.
End Registry.
