(* ===== verification/Pools.v ===== *)
(** * Pools: a pool that satisfies the laws of [PoolLaws]

    The laws of [sharded_slab::Pool] in [Registry] can be met: a map from keys to
    values with a list of cleared values, which are reused last in, first out.  The
    concrete instances of the theorems run on it. *)

From S2P Require Import Prelude.
From S2P Require Import Fields.
From S2P Require Import Meta.
From S2P Require Import FilterIds.
From S2P Require Import Extensions.
From S2P Require Import Registry.

Local Open Scope Z_scope.

Record MapPool (D : Type) := { live : gmap Z D; spare : list D }.
Arguments live {D}. Arguments spare {D}.

Definition next_key {D} (p : MapPool D) : Z := foldr Z.max (-1) (map_to_list (live p)).*1 + 1.

#[export] Instance map_pool {D} (dflt : D) : PoolOps D | 10 := {|
  pool := MapPool D;
  pool_new := {| live := ∅; spare := [] |};
  pool_get k p := live p !! k;
  pool_set k d p := {| live := <[k := d]> (live p); spare := spare p |};
  pool_reserve p := Some (next_key p, default dflt (head (spare p)));
  pool_publish k d p := {| live := <[k := d]> (live p); spare := tail (spare p) |};
  pool_begin_clear k p :=
    (fun d => (d, {| live := delete k (live p); spare := spare p |})) <$> live p !! k;
  pool_end_clear d p := {| live := live p; spare := d :: spare p |};
|}.

Lemma next_key_fresh {D} (p : MapPool D) : 0 <= next_key p /\ live p !! next_key p = None.
Proof.
  assert (forall l : list Z, -1 <= foldr Z.max (-1) l /\ forall x, x ∈ l -> x <= foldr Z.max (-1) l)
    as Hmax.
  { induction l as [|y l [IH1 IH2]]; simpl; [split; [lia|by intros x ?%elem_of_nil]|].
    split; [lia|]. intros x [->|Hx]%elem_of_cons; [lia|]. specialize (IH2 x Hx). lia. }
  unfold next_key. destruct (Hmax (map_to_list (live p)).*1) as [H1 H2]. split; [lia|].
  apply eq_None_not_Some. intros [d Hd].
  assert (foldr Z.max (-1) (map_to_list (live p)).*1 + 1 <= foldr Z.max (-1) (map_to_list (live p)).*1);
    [|lia].
  apply H2, list_elem_of_fmap. eexists (_, d). split; [reflexivity|].
  by apply elem_of_map_to_list.
Qed.

#[export] Instance map_pool_laws {D} (dflt : D) : PoolLaws dflt (map_pool dflt).
Proof.
  refine {| pool_keys := fun p : @pool _ (map_pool dflt) => dom (live p);
            pool_spare := fun d (p : @pool _ (map_pool dflt)) => d = dflt \/ d ∈ spare p |};
    simpl.
  - intros k p. by rewrite elem_of_dom.
  - done.
  - intros k k' d p _. case_decide; subst; [by rewrite lookup_insert_eq|by rewrite lookup_insert_ne].
  - intros p k d [= <- <-]. destruct (next_key_fresh p). split_and!; [done..|].
    destruct (spare p); [by left|]. right. left.
  - intros p k d0 d k' _. case_decide; subst; [by rewrite lookup_insert_eq|by rewrite lookup_insert_ne].
  - intros k p d Hd. rewrite Hd. simpl. eexists. split; [done|]. split; [|done].
    intros k'. simpl. case_decide; subst; [by rewrite lookup_delete_eq|by rewrite lookup_delete_ne].
  - intros k p Hk. by rewrite Hk.
  - done.
  - intros d [->|H]; [done|by apply elem_of_nil in H].
  - done.
  - intros k d d' p [->|H]; [by left|]. right. destruct (spare p); [done|by right].
  - intros d d' p [->|[->|H]%elem_of_cons]; auto.
Defined.

(** A build with debug assertions whose extensions hold integers and whose layers keep
    a log of numbered entries. *)
#[export] Instance example_env : Env :=
  {| debug_assertions := true; ext_types := fun _ => Z; UserState := list (nat * Id) |}.

#[export] Instance example_pool : PoolOps DataInner := map_pool default_data.

Definition example_world : World := {|
  filtering := FilterState.new; close_count := 0; current_spans := None; panicking := false;
  spans := pool_new; next_filter_id := 0; user := []
|}.
