(* ===== verification/Contexts.v ===== *)
(** * Contexts: [tracing-subscriber/src/registry/mod.rs] and
    [tracing-subscriber/src/layer/context.rs]

    The view of a subscriber that the layers above it get: looking up spans, walking
    the scope of a span or an event, and the per-layer filter of a context that hides
    spans from the walk. *)

From S2P Require Import Prelude.
From S2P Require Import Ord.
From S2P Require Import Str.
From S2P Require Import Levels.
From S2P Require Import Fields.
From S2P Require Import Meta.
From S2P Require Import Interests.
From S2P Require Import FilterIds.
From S2P Require Import SpanStack.
From S2P Require Import Extensions.
From S2P Require Import Registry.
From S2P Require Import Pools.

Section contexts.
Context `{E : Env} {P : PoolOps DataInner}.

(** ** A subscriber as its clients see it

    The methods of [dyn Subscriber] and [LookupSpan], and the answers of
    [downcast_raw] that the layers ask for: whether its type is [Registry], whether a
    [Registry] is at its root, whether it has per-layer filters and whether it
    contains a layer that is [None]. *)
Record DynSubscriber := {
  s_on_register_dispatch : M unit;
  s_register_callsite : Metadata -> M Interest;
  s_enabled : Metadata -> M bool;
  s_max_level_hint : option LevelFilter.t;
  s_new_span : Attributes -> M Id;
  s_record : Id -> ValueSet -> M unit;
  s_record_follows_from : Id -> Id -> M unit;
  s_event_enabled : Event -> M bool;
  s_event : Event -> M unit;
  s_enter : Id -> M unit;
  s_exit : Id -> M unit;
  s_clone_span : Id -> M Id;
  s_try_close : Id -> M bool;
  s_current_span : M CurrentInner;
  s_span_data : Id -> M (option Data);
  s_register_filter : M FilterId.t;
  s_is_registry : bool;
  s_downcast_registry : bool;
  s_has_plf : bool;
  s_is_none : bool;
}.

(** [Registry] as a subscriber *)
Definition registry_subscriber : DynSubscriber := {|
  s_on_register_dispatch := mret tt;
  s_register_callsite := Registry.register_callsite;
  s_enabled := Registry.enabled;
  s_max_level_hint := default_max_level_hint;
  s_new_span := Registry.new_span;
  s_record := Registry.record;
  s_record_follows_from := Registry.record_follows_from;
  s_event_enabled := Registry.event_enabled;
  s_event := Registry.event;
  s_enter := Registry.enter;
  s_exit := Registry.exit;
  s_clone_span := Registry.clone_span;
  s_try_close := Registry.try_close;
  s_current_span := Registry.current_span;
  s_span_data := Registry.span_data;
  s_register_filter := Registry.register_filter;
  s_is_registry := true;
  s_downcast_registry := true;
  s_has_plf := false;
  s_is_none := false;
|}.

(** ** [struct SpanRef] and [struct Scope]

    [registry] is the [LookupSpan] that they look spans up in.  The loops take fuel,
    one unit for each span that they look at. *)
Record SpanRef := { data : Data; span_filter : FilterId.t }.

Record Scope := { scope_next : option Id; scope_filter : FilterId.t }.

(** [LookupSpan::span] *)
Definition lookup_span (registry : DynSubscriber) (id : Id) : M (option SpanRef) :=
  d ← s_span_data registry id;
  mret ((fun d => {| data := d; span_filter := FilterId.none |}) <$> d).

Definition span_id (self : SpanRef) : Id := Registry.data_id (data self).
Definition span_metadata (self : SpanRef) : Metadata := Registry.data_metadata (data self).
Definition span_name (self : SpanRef) : string := Metadata.name (span_metadata self).
Definition span_fields (self : SpanRef) : FieldSet := Metadata.fields (span_metadata self).
Definition span_is_enabled_for (filter : FilterId.t) (self : SpanRef) : bool :=
  Registry.is_enabled_for filter (data self).
Definition span_with_filter (filter : FilterId.t) (self : SpanRef) : SpanRef :=
  {| data := data self; span_filter := filter |}.

(** [SpanRef::try_with_filter] *)
Definition try_with_filter (filter : FilterId.t) (self : SpanRef) : option SpanRef :=
  if span_is_enabled_for filter self then Some (span_with_filter filter self) else None.

(** [SpanRef::scope] *)
Definition span_scope_of (self : SpanRef) : Scope :=
  {| scope_next := Some (span_id self); scope_filter := span_filter self |}.

(** [Scope::next] *)
Fixpoint scope_iter_next (fuel : nat) (registry : DynSubscriber) (self : Scope) :
    M (option SpanRef * Scope) :=
  match fuel with
  | O => lift Panic
  | S fuel =>
      match scope_next self with
      | None => mret (None, self)
      | Some id =>
          curr ← lookup_span registry id;
          match curr with
          | None => mret (None, self)
          | Some curr =>
              let curr := span_with_filter (scope_filter self) curr in
              let self :=
                {| scope_next := Registry.data_parent (data curr);
                   scope_filter := scope_filter self |} in
              if negb (span_is_enabled_for (scope_filter self) curr)
              then scope_iter_next fuel registry self
              else mret (Some curr, self)
          end
      end
  end.

(** Collecting the iterator; [Scope::from_root] is the reverse. *)
Fixpoint scope_collect (fuel : nat) (registry : DynSubscriber) (self : Scope) :
    M (list SpanRef) :=
  match fuel with
  | O => lift Panic
  | S fuel' =>
      '(next, self) ← scope_iter_next fuel registry self;
      match next with
      | None => mret []
      | Some span => rest ← scope_collect fuel' registry self; mret (span :: rest)
      end
  end.
Definition from_root (fuel : nat) (registry : DynSubscriber) (self : Scope) :
    M (list SpanRef) :=
  spans ← scope_collect fuel registry self; mret (rev spans).

(** [SpanRef::parent] *)
Fixpoint parent_loop (fuel : nat) (registry : DynSubscriber) (filter : FilterId.t)
    (parent : option Id) : M (option SpanRef) :=
  match fuel with
  | O => lift Panic
  | S fuel =>
      match parent with
      | None => mret None
      | Some id =>
          d ← s_span_data registry id;
          match d with
          | None => mret None
          | Some d =>
              if Registry.is_enabled_for filter d
              then mret (Some {| data := d; span_filter := filter |})
              else parent_loop fuel registry filter (Registry.data_parent d)
          end
      end
  end.
Definition span_parent (fuel : nat) (registry : DynSubscriber) (self : SpanRef) :
    M (option SpanRef) :=
  parent_loop fuel registry (span_filter self) (Registry.data_parent (data self)).

End contexts.

(** ** [struct Context] *)

Record Context_ `{E : Env} {P : PoolOps DataInner} := {
  subscriber : option DynSubscriber;
  filter : FilterId.t;
}.

Module Context_.
Section ops.
Context `{E : Env} {P : PoolOps DataInner}.

Definition new (subscriber : DynSubscriber) : Context_ :=
  {| subscriber := Some subscriber; filter := FilterId.none |}.

Definition none : Context_ := {| subscriber := None; filter := FilterId.none |}.

Definition current_span (self : Context_) : M CurrentInner :=
  match subscriber self with
  | Some subscriber => s_current_span subscriber
  | None => mret CurrentSpans.none
  end.

Definition enabled (metadata : Metadata) (self : Context_) : M bool :=
  match subscriber self with
  | Some subscriber => s_enabled subscriber metadata
  | None => mret true
  end.

Definition event (event : Event) (self : Context_) : M unit :=
  match subscriber self with
  | Some subscriber => s_event subscriber event
  | None => mret tt
  end.

Definition span (id : Id) (self : Context_) : M (option SpanRef) :=
  match subscriber self with
  | None => mret None
  | Some subscriber =>
      span ← lookup_span subscriber id;
      mret (span ≫= try_with_filter (filter self))
  end.

Definition metadata (id : Id) (self : Context_) : M (option Metadata) :=
  span ← span id self; mret (span_metadata <$> span).

Definition exists_ (id : Id) (self : Context_) : M bool :=
  match subscriber self with
  | None => mret false
  | Some subscriber =>
      span ← lookup_span subscriber id; mret (bool_decide (is_Some span))
  end.

(** [find_map] over the ids of the registry's span stack. *)
Fixpoint find_map_span (subscriber : DynSubscriber) (filter : FilterId.t) (ids : list Id) :
    M (option SpanRef) :=
  match ids with
  | [] => mret None
  | id :: ids =>
      span ← lookup_span subscriber id;
      match span ≫= try_with_filter filter with
      | Some span => mret (Some span)
      | None => find_map_span subscriber filter ids
      end
  end.
Definition lookup_current_filtered (subscriber : DynSubscriber) (self : Context_) :
    M (option SpanRef) :=
  if negb (s_downcast_registry subscriber) then mret None
  else
    stack ← Registry.span_stack;
    find_map_span subscriber (filter self) (SpanStack.iter stack).

Definition lookup_current (self : Context_) : M (option SpanRef) :=
  match subscriber self with
  | None => mret None
  | Some subscriber =>
      current ← s_current_span subscriber;
      match CurrentSpans.id current with
      | None => mret None
      | Some id =>
          span ← lookup_span subscriber id;
          _ ← lift (FilterState.debug_assert debug_assertions (bool_decide (is_Some span)));
          match span with
          | None => mret None
          | Some span =>
              match try_with_filter (filter self) span with
              | Some span => mret (Some span)
              | None => lookup_current_filtered subscriber self
              end
          end
      end
  end.

Definition event_span (event : Event) (self : Context_) : M (option SpanRef) :=
  if Event.is_root event then mret None
  else if Event.is_contextual event then lookup_current self
  else match Event.parent event with
       | Some id => span id self
       | None => mret None
       end.

Definition span_scope (id : Id) (self : Context_) : M (option Scope) :=
  span ← span id self; mret (span_scope_of <$> span).
Definition event_scope (event : Event) (self : Context_) : M (option Scope) :=
  span ← event_span event self; mret (span_scope_of <$> span).

Definition with_filter (f : FilterId.t) (self : Context_) : Context_ :=
  {| subscriber := subscriber self; filter := FilterId.and (filter self) f |}.

Definition is_enabled_inner (id : Id) (f : FilterId.t) (self : Context_) : M (option bool) :=
  span ← span id self; mret (span_is_enabled_for f <$> span).
Definition is_enabled_for (id : Id) (f : FilterId.t) (self : Context_) : M bool :=
  enabled ← is_enabled_inner id f self; mret (default false enabled).
Definition if_enabled_for (id : Id) (f : FilterId.t) (self : Context_) : M (option Context_) :=
  enabled ← is_enabled_inner id f self;
  mret (match enabled with
        | Some true => Some (with_filter f self)
        | _ => None
        end).

End ops.
End Context_.

(** ** Walking the scope *)

Section walk.
Context `{E : Env} {P : PoolOps DataInner}.

(** [ancestry p start l]: following the parents from [start] through the pool [p]
    visits exactly the spans [l]. *)
Inductive ancestry (p : pool) : option Id -> list Data -> Prop :=
  | ancestry_none : ancestry p None []
  | ancestry_missing id : pool_get (id_to_idx id) p = None -> ancestry p (Some id) []
  | ancestry_cons id d l :
      pool_get (id_to_idx id) p = Some d -> ancestry p (parent d) l ->
      ancestry p (Some id) ({| key := id_to_idx id; inner := d |} :: l).

(** The stack is list-shaped: span data comes from the [Registry] at its root. *)
Definition looks_up_registry (s : DynSubscriber) : Prop :=
  (forall id w, s_span_data s id w = Registry.span_data id w) /\
  (forall w, s_current_span s w = Registry.current_span w) /\
  s_downcast_registry s = true.

Lemma registry_looks_up : looks_up_registry registry_subscriber.
Proof. done. Qed.

Definition enabled_data (f : FilterId.t) (l : list Data) : list Data :=
  List.filter (Registry.is_enabled_for f) l.
Definition as_span (f : FilterId.t) (d : Data) : SpanRef := {| data := d; span_filter := f |}.

Context (reg : DynSubscriber) (Hreg : looks_up_registry reg).

Lemma lookup_span_get id w :
  lookup_span reg id w =
  Done ((fun d => {| data := {| key := id_to_idx id; inner := d |};
                     span_filter := FilterId.none |}) <$> pool_get (id_to_idx id) (spans w), w).
Proof.
  unfold lookup_span. mred. rewrite (proj1 Hreg). unfold Registry.span_data, Registry.get.
  mred. by destruct (pool_get _ _).
Qed.

(** The rest of the chain after its first enabled span. *)
Fixpoint after_enabled (f : FilterId.t) (start : option Id) (l : list Data) : option Id * list Data :=
  match l with
  | [] => (start, [])
  | d :: l =>
      if Registry.is_enabled_for f d then (Registry.data_parent d, l)
      else after_enabled f (Registry.data_parent d) l
  end.

Lemma scope_next_spec f start l w fuel :
  ancestry (spans w) start l -> (length l < fuel)%nat ->
  scope_iter_next fuel reg {| scope_next := start; scope_filter := f |} w =
  Done (as_span f <$> head (enabled_data f l),
        {| scope_next := (after_enabled f start l).1; scope_filter := f |}, w).
Proof.
  intros H. revert fuel. induction H as [|id Hid|id d l Hid Hl IH]; intros [|fuel] Hf;
    simpl in Hf; try lia; cbn; [done|..].
  - mred. rewrite lookup_span_get, Hid. done.
  - mred. rewrite lookup_span_get, Hid. cbn.
    unfold span_is_enabled_for. cbn. destruct (Registry.is_enabled_for f _) eqn:He; cbn.
    + done.
    + rewrite IH by lia. done.
Qed.

Lemma after_enabled_ancestry f p start l :
  ancestry p start l ->
  ancestry p (after_enabled f start l).1 (after_enabled f start l).2 /\
  enabled_data f (after_enabled f start l).2 = tail (enabled_data f l) /\
  (length (after_enabled f start l).2 <= pred (length l))%nat.
Proof.
  intros H. induction H as [|id Hid|id d l Hid Hl IH]; cbn.
  - split_and!; [constructor|done|lia].
  - split_and!; [by constructor|done|lia].
  - destruct (Registry.is_enabled_for f _); cbn; [done|].
    destruct IH as (H1 & H2 & H3). split_and!; [done|done|]. etrans; [exact H3|lia].
Qed.

Lemma enabled_data_nil_after f start l :
  enabled_data f l = [] -> (after_enabled f start l).2 = [].
Proof.
  revert start. induction l as [|d l IH]; intros start; [done|]. cbn.
  destruct (Registry.is_enabled_for f d); [done|]. apply IH.
Qed.

Lemma scope_collect_spec f start l w fuel :
  ancestry (spans w) start l -> (length l < fuel)%nat ->
  scope_collect fuel reg {| scope_next := start; scope_filter := f |} w =
  Done (as_span f <$> enabled_data f l, w).
Proof.
  revert start l. induction fuel as [|fuel IH]; intros start l H Hf; [lia|].
  cbn [scope_collect]. mred.
  rewrite (scope_next_spec f start l) by done.
  destruct (after_enabled_ancestry f _ _ _ H) as (H1 & H2 & H3).
  destruct (enabled_data f l) as [|d l'] eqn:El; cbn -[after_enabled]; [done|].
  mred. rewrite (IH _ (after_enabled f start l).2); [|done|].
  - rewrite H2. done.
  - destruct l; [done|]. simpl in *. lia.
Qed.

Lemma parent_loop_spec f start l w fuel :
  ancestry (spans w) start l -> (length l < fuel)%nat ->
  parent_loop fuel reg f start w = Done (as_span f <$> head (enabled_data f l), w).
Proof.
  intros H. revert fuel. induction H as [|id Hid|id d l Hid Hl IH]; intros [|fuel] Hf;
    simpl in Hf; try lia; cbn; [done|..]; mred;
    rewrite (proj1 Hreg); unfold Registry.span_data, Registry.get; mred; rewrite Hid; cbn; [done|].
  destruct (Registry.is_enabled_for f _) eqn:He; cbn; [done|]. apply IH. lia.
Qed.

End walk.

(** C24: for a list-shaped stack, the scope of a span seen through a context with a
    per-layer filter terminates and consists exactly of the span and its ancestors
    that the filter did not disable, from the span outwards ([from_root]: inwards),
    skipping disabled spans in the middle of the chain; a span that the filter
    disabled has no scope; [SpanRef::parent] is the next span of that scope; and no
    lookup changes any state. *)
Theorem scope_is_enabled_ancestors `{E : Env} {P : PoolOps DataInner} (reg : DynSubscriber)
    (f : FilterId.t) (id : Id) (d : DataInner) (l : list Data) (w : World) (fuel : nat)
    (Hreg : looks_up_registry reg)
    (Hd : pool_get (id_to_idx id) (spans w) = Some d)
    (Hl : ancestry (spans w) (parent d) l)
    (Hid : idx_to_id (id_to_idx id) = id)
    (Hfuel : (S (length l) < fuel)%nat) :
  let cx := {| subscriber := Some reg; filter := f |} in
  let this := {| key := id_to_idx id; inner := d |} in
  let seen := as_span f <$> enabled_data f (this :: l) in
  (if Registry.is_enabled_for f this then
     exists scope, Context_.span_scope id cx w = Done (Some scope, w) /\
       scope_collect fuel reg scope w = Done (seen, w) /\
       from_root fuel reg scope w = Done (rev seen, w) /\
       span_parent fuel reg (as_span f this) w = Done (head (tail seen), w)
   else Context_.span_scope id cx w = Done (None, w)).
Proof.
  intros cx this seen.
  assert (ancestry (spans w) (Some id) (this :: l)) as Hanc by by constructor.
  assert (Context_.span id cx w =
    Done (if Registry.is_enabled_for f this then Some (as_span f this) else None, w)) as Hspan.
  { unfold Context_.span. cbn. mred. rewrite lookup_span_get by done.
    rewrite Hd. cbn. unfold try_with_filter, span_is_enabled_for. cbn.
    by destruct (Registry.is_enabled_for f _). }
  destruct (Registry.is_enabled_for f this) eqn:He.
  - exists {| scope_next := Some id; scope_filter := f |}. split_and!.
    + unfold Context_.span_scope. mred. rewrite Hspan. cbn.
      unfold span_scope_of, span_id, Registry.data_id. cbn. by rewrite Hid.
    + by apply scope_collect_spec.
    + unfold from_root, mbind, M_bind. by rewrite (scope_collect_spec reg Hreg f _ (this :: l)).
    + unfold span_parent. cbn. rewrite (parent_loop_spec reg Hreg f _ l) by (done || lia).
      unfold seen, enabled_data. cbn. rewrite He. cbn. by destruct (List.filter _ _).
  - unfold Context_.span_scope. mred. by rewrite Hspan.
Qed.

(** Three nested spans, the middle one disabled by filter 0. *)
Definition span_of (bits : Z) (up : option Id) : DataInner :=
  {| filter_map := FilterMap.FilterMap bits; metadata := NULL_METADATA; parent := up;
     ref_count := 1; extensions := ExtensionsInner.new |}.
Definition nested_world : World :=
  with_spans {| live := {[ 0%Z := span_of 0 None; 1%Z := span_of 1 (Some (idx_to_id 0));
                           2%Z := span_of 0 (Some (idx_to_id 1)) ]}; spare := [] |} example_world.

Lemma scope_is_enabled_ancestors_witness :
  exists scope,
    Context_.span_scope (idx_to_id 2)
      {| subscriber := Some registry_subscriber; filter := FilterId.FilterId 1 |} nested_world
      = Done (Some scope, nested_world) /\
    (map span_id <$> (p ← scope_collect 5 registry_subscriber scope nested_world; Done p.1))
      = Done [idx_to_id 2; idx_to_id 0].
Proof.
  pose proof (scope_is_enabled_ancestors registry_subscriber (FilterId.FilterId 1) (idx_to_id 2)
    (span_of 0 (Some (idx_to_id 1)))
    [{| key := 1; inner := span_of 1 (Some (idx_to_id 0)) |}; {| key := 0; inner := span_of 0 None |}]
    nested_world 5 registry_looks_up eq_refl) as H.
  destruct H as (scope & H1 & H2 & _).
  - apply (ancestry_cons _ (idx_to_id 1)); [reflexivity|].
    apply (ancestry_cons _ (idx_to_id 0)); [reflexivity|]. constructor.
  - reflexivity.
  - simpl. lia.
  - exists scope. split; [exact H1|]. rewrite H2. reflexivity.
Defined.
