(* ===== verification/Filters.v ===== *)
(** * Filters: the [Filter] trait and its implementations

    [tracing-subscriber/src/layer/mod.rs] ([trait Filter]),
    [filter/layer_filters/combinator.rs] ([And], [Or], [Not]),
    [filter/layer_filters/mod.rs] ([LevelFilter] and [Option] as filters) and
    [filter/filter_fn.rs] ([FilterFn], [DynFilterFn]). *)

From S2P Require Import Prelude.
From S2P Require Import Ord.
From S2P Require Import Str.
From S2P Require Import Levels.
From S2P Require Import Fields.
From S2P Require Import Meta.
From S2P Require Import Interests.
From S2P Require Import FilterIds.
From S2P Require Import SpanStack.
From S2P Require Import Registry.
From S2P Require Import Pools.
From S2P Require Import Contexts.

Section filters.
Context `{E : Env} {P : PoolOps DataInner}.

(** ** [trait Filter] *)
Record Filter := {
  f_enabled : Metadata -> Context_ -> M bool;
  f_callsite_enabled : Metadata -> M Interest;
  f_event_enabled : Event -> Context_ -> M bool;
  f_max_level_hint : option LevelFilter.t;
  f_on_new_span : Attributes -> Id -> Context_ -> M unit;
  f_on_record : Id -> ValueSet -> Context_ -> M unit;
  f_on_enter : Id -> Context_ -> M unit;
  f_on_exit : Id -> Context_ -> M unit;
  f_on_close : Id -> Context_ -> M unit;
}.

(** A filter that defines [enabled], [callsite_enabled] and [max_level_hint] and has
    the trait's default methods otherwise. *)
Definition default_callsite_enabled (_ : Metadata) : M Interest := mret Interest.sometimes.
Definition default_filter (enabled : Metadata -> Context_ -> M bool)
    (callsite_enabled : Metadata -> M Interest) (max_level_hint : option LevelFilter.t) : Filter := {|
  f_enabled := enabled;
  f_callsite_enabled := callsite_enabled;
  f_event_enabled _ _ := mret true;
  f_max_level_hint := max_level_hint;
  f_on_new_span _ _ _ := mret tt;
  f_on_record _ _ _ := mret tt;
  f_on_enter _ _ := mret tt;
  f_on_exit _ _ := mret tt;
  f_on_close _ _ := mret tt;
|}.

(** [impl Filter for LevelFilter] *)
Definition level_filter (self : LevelFilter.t) : Filter :=
  default_filter
    (fun meta _ => mret (LevelFilter.level_le (Metadata.level meta) self))
    (fun meta => mret (if LevelFilter.level_le (Metadata.level meta) self
                       then Interest.always else Interest.never))
    (Some self).

(** [impl Filter for Option<F>] *)
Definition option_filter (self : option Filter) : Filter := {|
  f_enabled meta ctx :=
    match self with Some inner => f_enabled inner meta ctx | None => mret true end;
  f_callsite_enabled meta :=
    match self with Some inner => f_callsite_enabled inner meta | None => mret Interest.always end;
  f_event_enabled event ctx :=
    match self with Some inner => f_event_enabled inner event ctx | None => mret true end;
  f_max_level_hint := self ≫= f_max_level_hint;
  f_on_new_span attrs id ctx :=
    match self with Some inner => f_on_new_span inner attrs id ctx | None => mret tt end;
  f_on_record id values ctx :=
    match self with Some inner => f_on_record inner id values ctx | None => mret tt end;
  f_on_enter id ctx := match self with Some inner => f_on_enter inner id ctx | None => mret tt end;
  f_on_exit id ctx := match self with Some inner => f_on_exit inner id ctx | None => mret tt end;
  f_on_close id ctx := match self with Some inner => f_on_close inner id ctx | None => mret tt end;
|}.

(** [And] *)
Definition And (a b : Filter) : Filter := {|
  f_enabled meta cx :=
    x ← f_enabled a meta cx; if (x : bool) then f_enabled b meta cx else mret false;
  f_callsite_enabled meta :=
    x ← f_callsite_enabled a meta;
    if Interest.is_never x then mret x
    else
      y ← f_callsite_enabled b meta;
      mret (if negb (Interest.is_always y) then y else x);
  f_event_enabled event cx :=
    x ← f_event_enabled a event cx; if (x : bool) then f_event_enabled b event cx else mret false;
  f_max_level_hint := ord_min (f_max_level_hint a) (f_max_level_hint b);
  f_on_new_span attrs id ctx :=
    _ ← f_on_new_span a attrs id ctx; f_on_new_span b attrs id ctx;
  f_on_record id values ctx := _ ← f_on_record a id values ctx; f_on_record b id values ctx;
  f_on_enter id ctx := _ ← f_on_enter a id ctx; f_on_enter b id ctx;
  f_on_exit id ctx := _ ← f_on_exit a id ctx; f_on_exit b id ctx;
  f_on_close id ctx := _ ← f_on_close a id ctx; f_on_close b id ctx;
|}.

(** [Or] *)
Definition Or (a b : Filter) : Filter := {|
  f_enabled meta cx :=
    x ← f_enabled a meta cx; if (x : bool) then mret true else f_enabled b meta cx;
  f_callsite_enabled meta :=
    x ← f_callsite_enabled a meta;
    y ← f_callsite_enabled b meta;
    if Interest.is_always x || Interest.is_always y then mret Interest.always
    else if Interest.is_sometimes x || Interest.is_sometimes y then mret Interest.sometimes
    else
      _ ← lift (FilterState.debug_assert debug_assertions
                  (Interest.is_never x && Interest.is_never y));
      mret Interest.never;
  f_event_enabled event cx :=
    x ← f_event_enabled a event cx; if (x : bool) then mret true else f_event_enabled b event cx;
  f_max_level_hint :=
    ha ← f_max_level_hint a; hb ← f_max_level_hint b; Some (ord_max ha hb);
  f_on_new_span attrs id ctx :=
    _ ← f_on_new_span a attrs id ctx; f_on_new_span b attrs id ctx;
  f_on_record id values ctx := _ ← f_on_record a id values ctx; f_on_record b id values ctx;
  f_on_enter id ctx := _ ← f_on_enter a id ctx; f_on_enter b id ctx;
  f_on_exit id ctx := _ ← f_on_exit a id ctx; f_on_exit b id ctx;
  f_on_close id ctx := _ ← f_on_close a id ctx; f_on_close b id ctx;
|}.

(** [Not] *)
Definition Not (a : Filter) : Filter := {|
  f_enabled meta cx := x ← f_enabled a meta cx; mret (negb x);
  f_callsite_enabled meta :=
    i ← f_callsite_enabled a meta;
    mret (if Interest.is_always i then Interest.never
          else if Interest.is_never i then Interest.always
          else Interest.sometimes);
  f_event_enabled _ _ := mret true;
  f_max_level_hint := None;
  f_on_new_span attrs id ctx := f_on_new_span a attrs id ctx;
  f_on_record id values ctx := f_on_record a id values ctx;
  f_on_enter id ctx := f_on_enter a id ctx;
  f_on_exit id ctx := f_on_exit a id ctx;
  f_on_close id ctx := f_on_close a id ctx;
|}.

(** [FilterExt::and], [or] and [not] *)
Definition filter_and (self other : Filter) : Filter := And self other.
Definition filter_or (self other : Filter) : Filter := Or self other.
Definition filter_not (self : Filter) : Filter := Not self.

(** ** [struct FilterFn] *)
Record FilterFn := {
  fn_enabled : Metadata -> bool;
  fn_max_level_hint : option LevelFilter.t;
}.

(** [fn is_below_max_level] *)
Definition is_below_max_level (hint : option LevelFilter.t) (metadata : Metadata) : bool :=
  match hint with
  | Some hint => LevelFilter.level_le (Metadata.level metadata) hint
  | None => true
  end.

Definition filter_fn (f : Metadata -> bool) : FilterFn :=
  {| fn_enabled := f; fn_max_level_hint := None |}.
Definition fn_with_max_level_hint (max_level_hint : LevelFilter.t) (self : FilterFn) : FilterFn :=
  {| fn_enabled := fn_enabled self; fn_max_level_hint := Some max_level_hint |}.

Definition fn_is_enabled (metadata : Metadata) (self : FilterFn) : outcome bool :=
  let enabled := fn_enabled self metadata in
  _ ← FilterState.debug_assert debug_assertions
        (negb enabled || is_below_max_level (fn_max_level_hint self) metadata);
  mret enabled.

Definition fn_is_callsite_enabled (metadata : Metadata) (self : FilterFn) : outcome Interest :=
  if fn_enabled self metadata then
    _ ← FilterState.debug_assert debug_assertions
          (is_below_max_level (fn_max_level_hint self) metadata);
    mret Interest.always
  else mret Interest.never.

(** [impl Filter for FilterFn] *)
Definition filter_fn_filter (self : FilterFn) : Filter :=
  default_filter
    (fun metadata _ => lift (fn_is_enabled metadata self))
    (fun metadata => lift (fn_is_callsite_enabled metadata self))
    (fn_max_level_hint self).

(** ** [struct DynFilterFn] *)
Record DynFilterFn := {
  dfn_enabled : Metadata -> Context_ -> M bool;
  dfn_register_callsite : option (Metadata -> M Interest);
  dfn_max_level_hint : option LevelFilter.t;
}.

Definition dynamic_filter_fn (f : Metadata -> Context_ -> M bool) : DynFilterFn :=
  {| dfn_enabled := f; dfn_register_callsite := None; dfn_max_level_hint := None |}.
Definition dfn_with_max_level_hint (max_level_hint : LevelFilter.t) (self : DynFilterFn) :
    DynFilterFn :=
  {| dfn_enabled := dfn_enabled self; dfn_register_callsite := dfn_register_callsite self;
     dfn_max_level_hint := Some max_level_hint |}.
Definition with_callsite_filter (callsite_enabled : Metadata -> M Interest) (self : DynFilterFn) :
    DynFilterFn :=
  {| dfn_enabled := dfn_enabled self; dfn_register_callsite := Some callsite_enabled;
     dfn_max_level_hint := dfn_max_level_hint self |}.

(** [DynFilterFn::default_callsite_enabled]; the debug assertion runs the closure
    without a subscriber. *)
Definition dfn_default_callsite_enabled (metadata : Metadata) (self : DynFilterFn) : M Interest :=
  if negb (is_below_max_level (dfn_max_level_hint self) metadata) then
    _ ← (if debug_assertions then
           enabled ← dfn_enabled self metadata Context_.none;
           lift (assert (negb enabled))
         else mret tt);
    mret Interest.never
  else mret Interest.sometimes.

Definition dfn_is_enabled (metadata : Metadata) (cx : Context_) (self : DynFilterFn) : M bool :=
  enabled ← dfn_enabled self metadata cx;
  _ ← lift (FilterState.debug_assert debug_assertions
              (negb enabled || is_below_max_level (dfn_max_level_hint self) metadata));
  mret enabled.

Definition dfn_is_callsite_enabled (metadata : Metadata) (self : DynFilterFn) : M Interest :=
  interest ← match dfn_register_callsite self with
             | Some callsite_enabled => callsite_enabled metadata
             | None => dfn_default_callsite_enabled metadata self
             end;
  _ ← lift (FilterState.debug_assert debug_assertions
              (Interest.is_never interest || is_below_max_level (dfn_max_level_hint self) metadata));
  mret interest.

(** [impl Filter for DynFilterFn] *)
Definition dyn_filter_fn_filter (self : DynFilterFn) : Filter :=
  default_filter
    (fun metadata cx => dfn_is_enabled metadata cx self)
    (fun metadata => dfn_is_callsite_enabled metadata self)
    (dfn_max_level_hint self).

(** ** The contract of a filter

    The documentation of [callsite_enabled] and [max_level_hint]: their answers hold
    for every later [enabled] on the same metadata, in whatever context and state. *)
Class FilterContract (f : Filter) : Prop := {
  filter_never m w w' cx v v' b :
    f_callsite_enabled f m w = Done (Never, w') -> f_enabled f m cx v = Done (b, v') -> b = false;
  filter_always m w w' cx v v' b :
    f_callsite_enabled f m w = Done (Always, w') -> f_enabled f m cx v = Done (b, v') -> b = true;
  filter_hint m l cx v v' :
    f_max_level_hint f = Some l -> f_enabled f m cx v = Done (true, v') ->
    LevelFilter.ge_level l (Metadata.level m) = true;
}.

(** A filter whose answers only read the state; [p] and [q] are the answers of
    [enabled] and [event_enabled]. *)
Record reads_only (f : Filter) (p : Metadata -> Context_ -> World -> bool)
    (q : Event -> Context_ -> World -> bool) : Prop := {
  ro_enabled m cx w : f_enabled f m cx w = Done (p m cx w, w);
  ro_event_enabled e cx w : f_event_enabled f e cx w = Done (q e cx w, w);
}.

End filters.

(** Splits a run of a computation at its first operation. *)
Ltac msplit H :=
  match type of H with
  | (match ?m ?w with Done _ => _ | Panic => _ end = _) =>
      let r := fresh "r" in let w' := fresh "w" in let e := fresh "Hrun" in
      destruct (m w) as [[r w']|] eqn:e; [|discriminate H]
  end.

Section contracts.
Context `{E : Env} {P : PoolOps DataInner}.

Lemma bind_Done {A B} (m : M A) (f : A -> M B) w r :
  (m ≫= f) w = Done r -> exists a w1, m w = Done (a, w1) /\ f a w1 = Done r.
Proof. mred. destruct (m w) as [[a w1]|]; [|done]. eauto. Qed.

Lemma ret_Done {A} (a : A) w r : (mret a : M A) w = Done r -> r = (a, w).
Proof. by intros [= <-]. Qed.

Lemma lift_Done {A} (o : outcome A) w r : lift o w = Done r -> exists a, o = Done a /\ r = (a, w).
Proof. unfold lift. destruct o; [|done]. intros [= <-]. eauto. Qed.

Lemma debug_assert_Done b u :
  FilterState.debug_assert debug_assertions b = Done u -> debug_assertions = true -> b = true.
Proof. intros H Hd. rewrite Hd in H. by destruct b. Qed.

(** Runs the computations in the hypotheses, splitting on the interests and booleans
    that they return, and applies the contracts of the filters that they ask. *)
#[local] Ltac run_hyps :=
  repeat match goal with
  | H : (_ ≫= _) _ = Done _ |- _ => apply bind_Done in H as (? & ? & ? & H)
  | H : mret _ _ = Done _ |- _ => apply ret_Done in H
  | H : lift _ _ = Done _ |- _ => apply lift_Done in H as (? & ? & H)
  | C : FilterContract ?f, H1 : f_callsite_enabled ?f ?m _ = Done (Never, _),
    H2 : f_enabled ?f ?m _ _ = Done (?b, _) |- _ =>
      first [is_var b | constr_eq b true];
      let e := fresh in
      assert (b = false) as e by exact (filter_never _ _ _ _ _ _ _ H1 H2); simplify_eq
  | C : FilterContract ?f, H1 : f_callsite_enabled ?f ?m _ = Done (Always, _),
    H2 : f_enabled ?f ?m _ _ = Done (?b, _) |- _ =>
      first [is_var b | constr_eq b false];
      let e := fresh in
      assert (b = true) as e by exact (filter_always _ _ _ _ _ _ _ H1 H2); simplify_eq
  | H : context [Interest.is_never ?i] |- _ => is_var i; destruct i
  | H : context [Interest.is_always ?i] |- _ => is_var i; destruct i
  | H : (if ?b then _ else _) _ = Done _ |- _ => is_var b; destruct b
  | _ => progress simplify_eq/=
  end.

Lemma level_le_ge l f : LevelFilter.level_le l f = LevelFilter.ge_level f l.
Proof. by destruct l as [[]], f as [[[[]]|]]. Qed.

Lemma ord_min_rank (f g : LevelFilter.t) :
  filter_rank (ord_min f g) = Z.min (filter_rank f) (filter_rank g).
Proof. by destruct f as [[[[]]|]], g as [[[[]]|]]. Qed.

Lemma ord_max_rank (f g : LevelFilter.t) :
  filter_rank (ord_max f g) = Z.max (filter_rank f) (filter_rank g).
Proof. by destruct f as [[[[]]|]], g as [[[[]]|]]. Qed.

Lemma ord_min_options (x y : option LevelFilter.t) l :
  ord_min x y = Some l <-> exists f g, x = Some f /\ y = Some g /\ l = ord_min f g.
Proof.
  destruct x as [f|], y as [g|]; unfold ord_min at 1; cbn.
  - split; [|intros (f' & g' & [= <-] & [= <-] & ->); unfold ord_min; by case_match].
    intros H. exists f, g. split_and!; [done..|]. unfold ord_min. by case_match; simplify_eq.
  - split; [done|by intros (f' & g' & _ & [=] & _)].
  - split; [done|by intros (f' & g' & [=] & _)].
  - split; [done|by intros (f' & g' & [=] & _)].
Qed.

#[export] Instance level_filter_contract l : FilterContract (level_filter l).
Proof.
  split; cbn; intros *; mred; rewrite ?level_le_ge;
    destruct (LevelFilter.ge_level _ _) eqn:Hl; intros; simplify_eq/=; done.
Qed.

#[export] Instance option_filter_contract o :
  (forall f, o = Some f -> FilterContract f) -> FilterContract (option_filter o).
Proof.
  intros Ho. destruct o as [f|]; [|by split; cbn; mred; intros; simplify_eq].
  destruct (Ho f eq_refl) as [H1 H2 H3]. by split.
Qed.

#[export] Instance And_contract a b :
  FilterContract a -> FilterContract b -> FilterContract (And a b).
Proof.
  intros Ca Cb. split; cbn.
  - intros m w w' cx v v' r Hc He. run_hyps; done.
  - intros m w w' cx v v' r Hc He. run_hyps; done.
  - intros m l cx v v' (f & g & Hf & Hg & ->)%ord_min_options He. run_hyps.
    pose proof (filter_hint _ _ _ _ _ Hf H) as H1.
    pose proof (filter_hint _ _ _ _ _ Hg He) as H2.
    rewrite ge_level_rank, Z.leb_le in *. rewrite ord_min_rank. lia.
Qed.

#[export] Instance Or_contract a b :
  FilterContract a -> FilterContract b -> FilterContract (Or a b).
Proof.
  intros Ca Cb. split; cbn.
  - intros m w w' cx v v' r Hc He. run_hyps; done.
  - intros m w w' cx v v' r Hc He. run_hyps; done.
  - intros m l cx v v' Hh He.
    destruct (f_max_level_hint a) as [f|] eqn:Hf; [|done].
    destruct (f_max_level_hint b) as [g|] eqn:Hg; [|done]. simplify_eq/=.
    rewrite ge_level_rank, Z.leb_le, ord_max_rank. run_hyps.
    + pose proof (filter_hint _ _ _ _ _ Hf H) as H1. rewrite ge_level_rank, Z.leb_le in H1. lia.
    + pose proof (filter_hint _ _ _ _ _ Hg He) as H1. rewrite ge_level_rank, Z.leb_le in H1. lia.
Qed.

#[export] Instance Not_contract a : FilterContract a -> FilterContract (Not a).
Proof.
  intros Ca. split; cbn; [..|done]; intros m w w' cx v v' r Hc He; run_hyps; done.
Qed.

(** A [FilterFn] that enables nothing above the level that it was given. *)
Definition fn_ok (f : FilterFn) : Prop :=
  forall m, fn_enabled f m = true -> is_below_max_level (fn_max_level_hint f) m = true.

Lemma fn_assert_ok f m :
  fn_ok f ->
  FilterState.debug_assert debug_assertions
    (negb (fn_enabled f m) || is_below_max_level (fn_max_level_hint f) m) = Done tt.
Proof.
  intros Hok. unfold FilterState.debug_assert, assert. destruct debug_assertions; [|done].
  destruct (fn_enabled f m) eqn:He; [|done]. by rewrite (Hok m He).
Qed.

#[export] Instance filter_fn_contract f : fn_ok f -> FilterContract (filter_fn_filter f).
Proof.
  intros Hok.
  assert (forall m, fn_is_enabled m f = Done (fn_enabled f m)) as Hen.
  { intros m. unfold fn_is_enabled. by rewrite fn_assert_ok. }
  assert (forall m, fn_is_callsite_enabled m f =
            Done (if fn_enabled f m then Always else Never)) as Hcs.
  { intros m. unfold fn_is_callsite_enabled. pose proof (fn_assert_ok f m Hok) as Ha.
    destruct (fn_enabled f m); [|done]. cbn in Ha. by rewrite Ha. }
  split; cbn; unfold lift.
  - intros m w w' cx v v' b. rewrite Hen, Hcs. cbn. by destruct (fn_enabled f m); intros; simplify_eq.
  - intros m w w' cx v v' b. rewrite Hen, Hcs. cbn. by destruct (fn_enabled f m); intros; simplify_eq.
  - intros m l cx v v' H1. rewrite Hen. cbn. intros [= H2 _].
    pose proof (Hok m H2) as Hm. rewrite H1 in Hm. cbn in Hm. by rewrite level_le_ge in Hm.
Qed.

(** ** Expressions of filters *)

Inductive filter_expr :=
  | EAtom (n : nat)
  | ELevel (l : LevelFilter.t)
  | EFn (f : FilterFn)
  | ENone
  | ESome (e : filter_expr)
  | EAnd (a b : filter_expr)
  | EOr (a b : filter_expr)
  | ENot (e : filter_expr).

Fixpoint build (atoms : nat -> Filter) (e : filter_expr) : Filter :=
  match e with
  | EAtom n => atoms n
  | ELevel l => level_filter l
  | EFn f => filter_fn_filter f
  | ENone => option_filter None
  | ESome e => option_filter (Some (build atoms e))
  | EAnd a b => filter_and (build atoms a) (build atoms b)
  | EOr a b => filter_or (build atoms a) (build atoms b)
  | ENot e => filter_not (build atoms e)
  end.

(** The boolean value of an expression on metadata, from the answers of the atoms. *)
Fixpoint eval (p : nat -> bool) (m : Metadata) (e : filter_expr) : bool :=
  match e with
  | EAtom n => p n
  | ELevel l => LevelFilter.ge_level l (Metadata.level m)
  | EFn f => fn_enabled f m
  | ENone => true
  | ESome e => eval p m e
  | EAnd a b => eval p m a && eval p m b
  | EOr a b => eval p m a || eval p m b
  | ENot e => negb (eval p m e)
  end.

(** And on an event; a negation does not look at the event. *)
Fixpoint eval_event (q : nat -> bool) (e : filter_expr) : bool :=
  match e with
  | EAtom n => q n
  | ELevel _ | EFn _ | ENone | ENot _ => true
  | ESome e => eval_event q e
  | EAnd a b => eval_event q a && eval_event q b
  | EOr a b => eval_event q a || eval_event q b
  end.

Fixpoint fns_ok (e : filter_expr) : Prop :=
  match e with
  | EFn f => fn_ok f
  | EAtom _ | ELevel _ | ENone => True
  | ESome e | ENot e => fns_ok e
  | EAnd a b | EOr a b => fns_ok a /\ fns_ok b
  end.

(** C40: every combination of filters with [and], [or], [not] and [Option], over atoms
    and function filters that keep the contract of [Filter], keeps the contract: an
    interest of [never] or [always] and a maximum level that the combination gives in
    advance agree with every later [enabled].  If the atoms only read the state, the
    combination answers [enabled] with the boolean value of the expression, answers
    [event_enabled] likewise (a negation always agrees to an event), changes nothing
    and does not panic. *)
Theorem filter_combinators (atoms : nat -> Filter) (e : filter_expr)
    (Hatoms : forall n, FilterContract (atoms n)) (Hfns : fns_ok e) :
  FilterContract (build atoms e) /\
  (forall p q, (forall n, reads_only (atoms n) (p n) (q n)) ->
     reads_only (build atoms e)
       (fun m cx w => eval (fun n => p n m cx w) m e)
       (fun ev cx w => eval_event (fun n => q n ev cx w) e)).
Proof.
  induction e as [n|l|f| |e IH|a IHa b IHb|a IHa b IHb|e IH]; cbn in Hfns |- *.
  - auto.
  - split; [apply _|]. intros p q _. split; cbn; intros; mred; by rewrite ?level_le_ge.
  - split; [by apply filter_fn_contract|]. intros p q _. split; cbn; intros; [|done].
    unfold fn_is_enabled. by rewrite fn_assert_ok.
  - split; [by apply option_filter_contract|]. done.
  - destruct (IH Hfns) as [H1 H2]. split; [apply option_filter_contract; by intros ? [= <-]|].
    intros p q Hpq. by destruct (H2 p q Hpq).
  - destruct (IHa (proj1 Hfns)) as [A1 A2], (IHb (proj2 Hfns)) as [B1 B2].
    split; [by apply And_contract|]. intros p q Hpq.
    destruct (A2 p q Hpq) as [Ae Aq], (B2 p q Hpq) as [Be Bq].
    split; cbn; intros; mred; rewrite ?Ae, ?Aq; destruct (_ : bool); by rewrite ?Be, ?Bq.
  - destruct (IHa (proj1 Hfns)) as [A1 A2], (IHb (proj2 Hfns)) as [B1 B2].
    split; [by apply Or_contract|]. intros p q Hpq.
    destruct (A2 p q Hpq) as [Ae Aq], (B2 p q Hpq) as [Be Bq].
    split; cbn; intros; mred; rewrite ?Ae, ?Aq; by case_match; rewrite ?Be, ?Bq.
  - destruct (IH Hfns) as [H1 H2]. split; [by apply Not_contract|]. intros p q Hpq.
    destruct (H2 p q Hpq) as [He _]. split; cbn; intros; mred; by rewrite ?He.
Qed.

(** [or] asks each filter about the metadata and about the event separately, so an
    event passes that one filter rejects by its metadata and the other by its
    content. *)
Lemma or_passes_event_wanted_by_neither (a b : Filter) p1 q1 p2 q2 e cx w :
  reads_only a p1 q1 -> reads_only b p2 q2 ->
  let m := Event.metadata e in
  p1 m cx w = false -> q1 e cx w = true -> p2 m cx w = true -> q2 e cx w = false ->
  f_enabled (Or a b) m cx w = Done (true, w) /\
  f_event_enabled (Or a b) e cx w = Done (true, w).
Proof.
  intros [A1 A2] [B1 B2] m P1 Q1 P2 Q2. split; cbn; mred.
  - by rewrite A1, P1, B1, P2.
  - by rewrite A2, Q1.
Qed.

End contracts.

Lemma filter_combinators_witness :
  let e := EAnd (EAtom 0) (ENot (EOr (ELevel LevelFilter.INFO) ENone)) in
  let atoms := fun _ : nat => level_filter LevelFilter.DEBUG in
  FilterContract (build atoms e) /\
  exists v, f_enabled (build atoms e) (example_metadata 1) Context_.none example_world
    = Done (v, example_world) /\ v = false.
Proof.
  intros e atoms.
  destruct (filter_combinators atoms e) as [H1 H2].
  - intros n. apply _.
  - repeat split.
  - split; [exact H1|].
    destruct (H2 (fun _ m _ _ => LevelFilter.level_le (Metadata.level m) LevelFilter.DEBUG)
                 (fun _ _ _ _ => true)) as [He _].
    + intros n. split; reflexivity.
    + eexists. split; [apply He|]. reflexivity.
Defined.
