(* ===== verification/Layers.v ===== *)
(** * Layers: [tracing-subscriber/src/layer/mod.rs], [layer/layered.rs], and the
    [Filtered] layer of [filter/layer_filters/mod.rs]

    The [Layer] trait and its implementations, the composition of a layer with a
    subscriber or with another layer, and the layers with their own filter. *)

From S2P Require Import Prelude.
From S2P Require Import Ord.
From S2P Require Import Str.
From S2P Require Import Levels.
From S2P Require Import Fields.
From S2P Require Import Meta.
From S2P Require Import Interests.
From S2P Require Import FilterIds.
From S2P Require Import SpanStack.
From S2P Require Import Registry.
From S2P Require Import Contexts.
From S2P Require Import Filters.

Section layers.
Context `{E : Env} {P : PoolOps DataInner}.

(** ** [trait Layer]

    The last two fields are the answers of [downcast_raw] that the composition asks
    for: the marker of per-layer filters and the marker of a [None] layer. *)
Record Layer := {
  l_on_register_dispatch : M unit;
  l_register_callsite : Metadata -> M Interest;
  l_enabled : Metadata -> Context_ -> M bool;
  l_max_level_hint : option LevelFilter.t;
  l_on_new_span : Attributes -> Id -> Context_ -> M unit;
  l_on_record : Id -> ValueSet -> Context_ -> M unit;
  l_on_follows_from : Id -> Id -> Context_ -> M unit;
  l_event_enabled : Event -> Context_ -> M bool;
  l_on_event : Event -> Context_ -> M unit;
  l_on_enter : Id -> Context_ -> M unit;
  l_on_exit : Id -> Context_ -> M unit;
  l_on_close : Id -> Context_ -> M unit;
  l_on_id_change : Id -> Id -> Context_ -> M unit;
  l_has_plf : bool;
  l_is_none : bool;
}.

(** The trait's default [register_callsite]. *)
Definition layer_default_register_callsite (enabled : Metadata -> Context_ -> M bool)
    (metadata : Metadata) : M Interest :=
  enabled ← enabled metadata Context_.none;
  mret (if (enabled : bool) then Interest.always else Interest.never).

(** A layer that only filters, and otherwise has the trait's default methods. *)
Definition filtering_layer (enabled : Metadata -> Context_ -> M bool)
    (register_callsite : Metadata -> M Interest) (max_level_hint : option LevelFilter.t) : Layer := {|
  l_on_register_dispatch := mret tt;
  l_register_callsite := register_callsite;
  l_enabled := enabled;
  l_max_level_hint := max_level_hint;
  l_on_new_span _ _ _ := mret tt;
  l_on_record _ _ _ := mret tt;
  l_on_follows_from _ _ _ := mret tt;
  l_event_enabled _ _ := mret true;
  l_on_event _ _ := mret tt;
  l_on_enter _ _ := mret tt;
  l_on_exit _ _ := mret tt;
  l_on_close _ _ := mret tt;
  l_on_id_change _ _ _ := mret tt;
  l_has_plf := false;
  l_is_none := false;
|}.

(** [impl Layer for Identity] *)
Definition identity_layer : Layer :=
  filtering_layer (fun _ _ => mret true)
    (layer_default_register_callsite (fun _ _ => mret true)) None.

(** [impl Layer for LevelFilter], of [filter/level.rs] *)
Definition level_layer (self : LevelFilter.t) : Layer :=
  filtering_layer
    (fun metadata _ => mret (LevelFilter.ge_level self (Metadata.level metadata)))
    (fun metadata => mret (if LevelFilter.ge_level self (Metadata.level metadata)
                           then Interest.always else Interest.never))
    (Some self).

(** [impl Layer for FilterFn] and [impl Layer for DynFilterFn] *)
Definition filter_fn_layer (self : FilterFn) : Layer :=
  filtering_layer
    (fun metadata _ => lift (fn_is_enabled metadata self))
    (fun metadata => lift (fn_is_callsite_enabled metadata self))
    (fn_max_level_hint self).
Definition dyn_filter_fn_layer (self : DynFilterFn) : Layer :=
  filtering_layer
    (fun metadata cx => dfn_is_enabled metadata cx self)
    (fun metadata => dfn_is_callsite_enabled metadata self)
    (dfn_max_level_hint self).

(** [impl Layer for Option<L>] *)
Definition option_layer (self : option Layer) : Layer := {|
  l_on_register_dispatch :=
    match self with Some layer => l_on_register_dispatch layer | None => mret tt end;
  l_register_callsite metadata :=
    match self with
    | Some inner => l_register_callsite inner metadata
    | None => mret Interest.always
    end;
  l_enabled metadata ctx :=
    match self with Some inner => l_enabled inner metadata ctx | None => mret true end;
  l_max_level_hint :=
    match self with Some inner => l_max_level_hint inner | None => Some LevelFilter.OFF end;
  l_on_new_span attrs id ctx :=
    match self with Some inner => l_on_new_span inner attrs id ctx | None => mret tt end;
  l_on_record span values ctx :=
    match self with Some inner => l_on_record inner span values ctx | None => mret tt end;
  l_on_follows_from span follows ctx :=
    match self with Some inner => l_on_follows_from inner span follows ctx | None => mret tt end;
  l_event_enabled event ctx :=
    match self with Some inner => l_event_enabled inner event ctx | None => mret true end;
  l_on_event event ctx :=
    match self with Some inner => l_on_event inner event ctx | None => mret tt end;
  l_on_enter id ctx := match self with Some inner => l_on_enter inner id ctx | None => mret tt end;
  l_on_exit id ctx := match self with Some inner => l_on_exit inner id ctx | None => mret tt end;
  l_on_close id ctx := match self with Some inner => l_on_close inner id ctx | None => mret tt end;
  l_on_id_change old new ctx :=
    match self with Some inner => l_on_id_change inner old new ctx | None => mret tt end;
  l_has_plf := match self with Some inner => l_has_plf inner | None => false end;
  l_is_none := match self with Some inner => l_is_none inner | None => true end;
|}.

(** ** [impl Layer for Vec<L>] *)

(** A [for] loop over the layers, and [Iterator::all]. *)
Fixpoint for_each (f : Layer -> M unit) (self : list Layer) : M unit :=
  match self with
  | [] => mret tt
  | l :: self => _ ← f l; for_each f self
  end.
Fixpoint all_layers (f : Layer -> M bool) (self : list Layer) : M bool :=
  match self with
  | [] => mret true
  | l :: self => b ← f l; if (b : bool) then all_layers f self else mret false
  end.

(** [Vec::register_callsite] from the interest accumulated so far. *)
Fixpoint vec_interest (metadata : Metadata) (interest : Interest) (self : list Layer) :
    M Interest :=
  match self with
  | [] => mret interest
  | l :: self =>
      new_interest ← l_register_callsite l metadata;
      vec_interest metadata
        (if (Interest.is_sometimes interest && Interest.is_always new_interest)
            || (Interest.is_never interest && negb (Interest.is_never new_interest))
         then new_interest else interest) self
  end.

Fixpoint vec_hint (max_level : LevelFilter.t) (self : list Layer) : option LevelFilter.t :=
  match self with
  | [] => Some max_level
  | l :: self => hint ← l_max_level_hint l; vec_hint (ord_max hint max_level) self
  end.

Definition vec_layer (self : list Layer) : Layer := {|
  l_on_register_dispatch := for_each l_on_register_dispatch self;
  l_register_callsite metadata := vec_interest metadata Interest.never self;
  l_enabled metadata ctx := all_layers (fun l => l_enabled l metadata ctx) self;
  l_max_level_hint := vec_hint LevelFilter.OFF self;
  l_on_new_span attrs id ctx := for_each (fun l => l_on_new_span l attrs id ctx) self;
  l_on_record span values ctx := for_each (fun l => l_on_record l span values ctx) self;
  l_on_follows_from span follows ctx := for_each (fun l => l_on_follows_from l span follows ctx) self;
  l_event_enabled event ctx := all_layers (fun l => l_event_enabled l event ctx) self;
  l_on_event event ctx := for_each (fun l => l_on_event l event ctx) self;
  l_on_enter id ctx := for_each (fun l => l_on_enter l id ctx) self;
  l_on_exit id ctx := for_each (fun l => l_on_exit l id ctx) self;
  l_on_close id ctx := for_each (fun l => l_on_close l id ctx) self;
  l_on_id_change _ _ _ := mret tt;
  l_has_plf := negb (existsb (fun l => negb (l_has_plf l)) self) && existsb l_has_plf self;
  l_is_none := existsb l_is_none self;
|}.

(** ** [struct Filtered]

    [id] is the id that [on_layer] gave to the layer. *)

(** [Filtered::id] *)
Definition filtered_id (id : FilterId.t) : M FilterId.t :=
  _ ← lift (FilterState.debug_assert debug_assertions (negb (FilterId.is_disabled id)));
  mret id.

(** [Filtered::did_enable] *)
Definition filtered_did_enable (id : FilterId.t) (f : M unit) : M unit :=
  id ← filtered_id id; did_enable id f.

(** The methods that only run if the span is enabled for the filter. *)
Definition filtered_if_enabled_for (id : FilterId.t) (span : Id) (cx : Context_)
    (f : Context_ -> M unit) : M unit :=
  id ← filtered_id id;
  cx ← Context_.if_enabled_for span id cx;
  match cx with Some cx => f cx | None => mret tt end.

(** [impl Layer for Filtered] *)
Definition filtered_layer (layer : Layer) (filter : Filter) (id : FilterId.t) : Layer := {|
  l_on_register_dispatch := l_on_register_dispatch layer;
  l_register_callsite metadata :=
    interest ← f_callsite_enabled filter metadata;
    _ ← (if negb (Interest.is_never interest)
         then _ ← l_register_callsite layer metadata; mret tt else mret tt);
    _ ← with_filter_state (FilterState.add_interest debug_assertions interest);
    mret Interest.always;
  l_enabled metadata cx :=
    id ← filtered_id id;
    let cx := Context_.with_filter id cx in
    enabled ← f_enabled filter metadata cx;
    _ ← with_filter_state (FilterState.set debug_assertions id enabled);
    if (enabled : bool) then l_enabled layer metadata cx else mret true;
  l_max_level_hint := f_max_level_hint filter;
  l_on_new_span attrs span cx :=
    filtered_did_enable id
      (id ← filtered_id id;
       let cx := Context_.with_filter id cx in
       _ ← f_on_new_span filter attrs span cx;
       l_on_new_span layer attrs span cx);
  l_on_record span values cx :=
    filtered_if_enabled_for id span cx (fun cx =>
      _ ← f_on_record filter span values cx; l_on_record layer span values cx);
  l_on_follows_from span follows cx :=
    id ← filtered_id id;
    x ← Context_.is_enabled_for span id cx;
    y ← (if (x : bool) then Context_.is_enabled_for follows id cx else mret false);
    if (y : bool) then l_on_follows_from layer span follows (Context_.with_filter id cx)
    else mret tt;
  l_event_enabled event cx :=
    id ← filtered_id id;
    let cx := Context_.with_filter id cx in
    enabled ← filtering_and id (f_event_enabled filter event cx);
    if (enabled : bool) then l_event_enabled layer event cx else mret true;
  l_on_event event cx :=
    filtered_did_enable id
      (id ← filtered_id id; l_on_event layer event (Context_.with_filter id cx));
  l_on_enter span cx :=
    filtered_if_enabled_for id span cx (fun cx =>
      _ ← f_on_enter filter span cx; l_on_enter layer span cx);
  l_on_exit span cx :=
    filtered_if_enabled_for id span cx (fun cx =>
      _ ← f_on_exit filter span cx; l_on_exit layer span cx);
  l_on_close span cx :=
    filtered_if_enabled_for id span cx (fun cx =>
      _ ← f_on_close filter span cx; l_on_close layer span cx);
  l_on_id_change old new cx :=
    filtered_if_enabled_for id old cx (fun cx => l_on_id_change layer old new cx);
  l_has_plf := true;
  l_is_none := l_is_none layer;
|}.

(** ** [struct Layered] *)

Record Flags := {
  inner_is_registry : bool;
  has_layer_filter : bool;
  inner_has_layer_filter : bool;
}.

(** [Layered::new]; [s_is_registry] tells whether the type parameter [S] is
    [Registry]. *)
Definition layered_new (layer : Layer) (s_is_registry inner_has_plf : bool) : Flags := {|
  inner_is_registry := s_is_registry;
  has_layer_filter := l_has_plf layer;
  inner_has_layer_filter := inner_has_plf || s_is_registry;
|}.

(** [Layered::pick_interest] *)
Definition pick_interest (self : Flags) (outer : Interest) (inner : M Interest) : M Interest :=
  if has_layer_filter self then inner
  else if Interest.is_never outer then
    _ ← with_filter_state' (FilterState.take_interest debug_assertions);
    mret outer
  else
    inner ← inner;
    if Interest.is_sometimes outer then mret outer
    else if Interest.is_never inner && inner_has_layer_filter self then mret Interest.sometimes
    else mret inner.

(** [Layered::pick_level_hint]; [layer_is_none] is the test on [self.layer]. *)
Definition pick_level_hint (self : Flags) (layer_is_none : bool)
    (outer_hint inner_hint : option LevelFilter.t) (inner_is_none : bool) :
    option LevelFilter.t :=
  if inner_is_registry self then outer_hint
  else if has_layer_filter self && inner_has_layer_filter self then
    outer_hint ← outer_hint; inner_hint ← inner_hint; Some (ord_max outer_hint inner_hint)
  else if has_layer_filter self && bool_decide (inner_hint = None) then None
  else if inner_has_layer_filter self && bool_decide (outer_hint = None) then None
  else if layer_is_none then
    inner_hint ← inner_hint; ord_max outer_hint (Some inner_hint)
  else if inner_is_none && bool_decide (inner_hint = Some LevelFilter.OFF) then outer_hint
  else ord_max outer_hint inner_hint.

Variable default_try_close : Id -> M bool.

(** [impl Subscriber for Layered<L, S>] *)
Definition layered_try_close (layer : Layer) (inner : DynSubscriber) (id : Id) : M bool :=
  guard ← (if s_downcast_registry inner
           then guard ← Registry.start_close id; mret (Some guard) else mret None);
  closed ← s_try_close inner id;
  _ ← (if (closed : bool) then l_on_close layer id (Context_.new inner) else mret tt);
  _ ← match guard with
      | Some guard =>
          Registry.drop_guard default_try_close (if (closed : bool) then CloseGuard.set_closing guard else guard)
      | None => mret tt
      end;
  mret closed.

Definition layered_subscriber (layer : Layer) (inner : DynSubscriber) (self : Flags) :
    DynSubscriber :=
  let ctx := Context_.new inner in {|
  s_on_register_dispatch := _ ← s_on_register_dispatch inner; l_on_register_dispatch layer;
  s_register_callsite metadata :=
    outer ← l_register_callsite layer metadata;
    pick_interest self outer (s_register_callsite inner metadata);
  s_enabled metadata :=
    enabled ← l_enabled layer metadata ctx;
    if (enabled : bool) then s_enabled inner metadata
    else
      _ ← with_filter_state (fun s => Done (FilterState.clear_enabled debug_assertions s));
      mret false;
  s_max_level_hint :=
    pick_level_hint self (l_is_none layer) (l_max_level_hint layer) (s_max_level_hint inner)
      (s_is_none inner);
  s_new_span attrs :=
    id ← s_new_span inner attrs; _ ← l_on_new_span layer attrs id ctx; mret id;
  s_record span values := _ ← s_record inner span values; l_on_record layer span values ctx;
  s_record_follows_from span follows :=
    _ ← s_record_follows_from inner span follows; l_on_follows_from layer span follows ctx;
  s_event_enabled event :=
    enabled ← l_event_enabled layer event ctx;
    if (enabled : bool) then s_event_enabled inner event else mret false;
  s_event event := _ ← s_event inner event; l_on_event layer event ctx;
  s_enter span := _ ← s_enter inner span; l_on_enter layer span ctx;
  s_exit span := _ ← s_exit inner span; l_on_exit layer span ctx;
  s_clone_span old :=
    new ← s_clone_span inner old;
    _ ← (if bool_decide (new <> old) then l_on_id_change layer old new ctx else mret tt);
    mret new;
  s_try_close id := layered_try_close layer inner id;
  s_current_span := s_current_span inner;
  s_span_data id := s_span_data inner id;
  s_register_filter := s_register_filter inner;
  s_is_registry := false;
  s_downcast_registry := s_downcast_registry inner;
  s_has_plf := l_has_plf layer || s_has_plf inner;
  s_is_none := l_is_none layer || s_is_none inner;
|}.

(** [impl Layer for Layered<A, B, S>] *)
Definition layered_layer (layer inner : Layer) (self : Flags) : Layer := {|
  l_on_register_dispatch := _ ← l_on_register_dispatch layer; l_on_register_dispatch inner;
  l_register_callsite metadata :=
    outer ← l_register_callsite layer metadata;
    pick_interest self outer (l_register_callsite inner metadata);
  l_enabled metadata ctx :=
    enabled ← l_enabled layer metadata ctx;
    if (enabled : bool) then l_enabled inner metadata ctx else mret false;
  l_max_level_hint :=
    pick_level_hint self (l_is_none layer) (l_max_level_hint layer) (l_max_level_hint inner)
      (l_is_none inner);
  l_on_new_span attrs id ctx :=
    _ ← l_on_new_span inner attrs id ctx; l_on_new_span layer attrs id ctx;
  l_on_record span values ctx :=
    _ ← l_on_record inner span values ctx; l_on_record layer span values ctx;
  l_on_follows_from span follows ctx :=
    _ ← l_on_follows_from inner span follows ctx; l_on_follows_from layer span follows ctx;
  l_event_enabled event ctx :=
    enabled ← l_event_enabled layer event ctx;
    if (enabled : bool) then l_event_enabled inner event ctx else mret false;
  l_on_event event ctx := _ ← l_on_event inner event ctx; l_on_event layer event ctx;
  l_on_enter id ctx := _ ← l_on_enter inner id ctx; l_on_enter layer id ctx;
  l_on_exit id ctx := _ ← l_on_exit inner id ctx; l_on_exit layer id ctx;
  l_on_close id ctx := _ ← l_on_close inner id ctx; l_on_close layer id ctx;
  l_on_id_change old new ctx :=
    _ ← l_on_id_change inner old new ctx; l_on_id_change layer old new ctx;
  l_has_plf := l_has_plf layer && l_has_plf inner;
  l_is_none := l_is_none layer || l_is_none inner;
|}.

(** ** Building a stack

    A layer before [on_layer] is the computation that attaches it to a subscriber. *)
Definition Unattached := DynSubscriber -> M Layer.

(** A layer with the trait's default [on_layer]. *)
Definition plain (layer : Layer) : Unattached := fun _ => mret layer.

(** [Layer::with_filter] and [Filtered::on_layer] *)
Definition with_filter (filter : Filter) (layer : Unattached) : Unattached := fun subscriber =>
  id ← s_register_filter subscriber;
  layer ← layer subscriber;
  mret (filtered_layer layer filter id).

(** [Layer::and_then] and [on_layer] of the [Layered] layer *)
Definition and_then (layer self : Unattached) : Unattached := fun subscriber =>
  layer ← layer subscriber;
  inner ← self subscriber;
  mret (layered_layer layer inner (layered_new layer (s_is_registry subscriber) (l_has_plf inner))).

(** [SubscriberExt::with] and [Layer::with_subscriber] *)
Definition with_layer (layer : Unattached) (inner : DynSubscriber) : M DynSubscriber :=
  let inner_has_layer_filter := s_has_plf inner in
  layer ← layer inner;
  mret (layered_subscriber layer inner
          (layered_new layer (s_is_registry inner) inner_has_layer_filter)).

(** [registry().with(l1).with(l2)...] *)
Fixpoint with_layers (layers : list Unattached) (inner : DynSubscriber) : M DynSubscriber :=
  match layers with
  | [] => mret inner
  | l :: layers => inner ← with_layer l inner; with_layers layers inner
  end.

End layers.
