(* ===== verification/Writers.v ===== *)
(** * Writers: the combinators of [tracing-subscriber/src/fmt/writer.rs]

    [MakeWriter], [MakeWriterExt] and the writers they make.  A writer is a handle; what
    its methods do to the outputs is a transition of a [World].  Closures, files, mutexes
    and the standard streams are the leaves of a composition. *)

From S2P Require Import Prelude.
From S2P Require Import Str.
From S2P Require Import Levels.
From S2P Require Import Fields.
From S2P Require Import Meta.

Local Open Scope Z_scope.

(** ** [io::Write] and [MakeWriter] *)

(** The methods of [io::Write]; [write_fmt] gets the formatted text. *)
Class IoWrite (World Error T : Type) := {
  write : T -> string -> World -> World * result Z Error;
  flush : T -> World -> World * result unit Error;
  write_vectored : T -> list string -> World -> World * result Z Error;
  write_all : T -> string -> World -> World * result unit Error;
  write_fmt : T -> string -> World -> World * result unit Error;
}.

Class MakeWriter (M : Type) (Writer : Type) := {
  make_writer : M -> Writer;
  make_writer_for : M -> Metadata -> Writer;
}.

(** The provided method of the trait. *)
Definition default_make_writer_for {M Writer} (make : M -> Writer) (self : M) (_ : Metadata) :
    Writer := make self.

Section writers.
Context {World Error : Type}.

Abbreviation Out A := (World -> World * result A Error).

(** ** [io::Sink] *)

Inductive Sink := sink.

#[export] Instance sink_write : IoWrite World Error Sink := {|
  write := fun _ buf w => (w, Ok (Z.of_nat (str_len buf)));
  flush := fun _ w => (w, Ok tt);
  write_vectored := fun _ bufs w => (w, Ok (Z.of_nat (sum_list_with str_len bufs)));
  write_all := fun _ _ w => (w, Ok tt);
  write_fmt := fun _ _ w => (w, Ok tt);
|}.

(** ** [EitherWriter], [OptionalWriter] *)

Inductive EitherWriter (A B : Type) := EitherA (a : A) | EitherB (b : B).
Arguments EitherA {A B} a.
Arguments EitherB {A B} b.

Definition OptionalWriter (T : Type) : Type := EitherWriter T Sink.
Definition none {T} : OptionalWriter T := EitherB sink.
Definition some {T} (t : T) : OptionalWriter T := EitherA t.
Definition from_option {T} (opt : option T) : OptionalWriter T :=
  match opt with Some writer => some writer | None => none end.

#[export] Instance either_write {A B} `{!IoWrite World Error A, !IoWrite World Error B} :
    IoWrite World Error (EitherWriter A B) := {|
  write := fun self buf => match self with EitherA a => write a buf | EitherB b => write b buf end;
  flush := fun self => match self with EitherA a => flush a | EitherB b => flush b end;
  write_vectored := fun self bufs =>
    match self with EitherA a => write_vectored a bufs | EitherB b => write_vectored b bufs end;
  write_all := fun self buf =>
    match self with EitherA a => write_all a buf | EitherB b => write_all b buf end;
  write_fmt := fun self s =>
    match self with EitherA a => write_fmt a s | EitherB b => write_fmt b s end;
|}.

(** ** [Tee] *)

Record Tee (A B : Type) := tee { tee_a : A; tee_b : B }.
Arguments tee {A B} _ _.
Arguments tee_a {A B} _.
Arguments tee_b {A B} _.

(** [impl_tee!]: both methods are called, then the errors are looked at. *)
Definition impl_tee {A B} (fa : Out A) (fb : Out B) : Out (A * B) := fun w =>
  let '(w, res_a) := fa w in
  let '(w, res_b) := fb w in
  (w, match res_a, res_b with
      | Err e, _ => Err e
      | Ok _, Err e => Err e
      | Ok a, Ok b => Ok (a, b)
      end).

Definition out_map {A B} (f : A -> B) (o : Out A) : Out B := fun w =>
  let '(w, r) := o w in (w, match r with Ok a => Ok (f a) | Err e => Err e end).

#[export] Instance tee_write {A B} `{!IoWrite World Error A, !IoWrite World Error B} :
    IoWrite World Error (Tee A B) := {|
  write := fun self buf =>
    out_map (fun '(a, b) => Z.max a b) (impl_tee (write (tee_a self) buf) (write (tee_b self) buf));
  flush := fun self => out_map (fun _ => tt) (impl_tee (flush (tee_a self)) (flush (tee_b self)));
  write_vectored := fun self bufs =>
    out_map (fun '(a, b) => Z.max a b)
      (impl_tee (write_vectored (tee_a self) bufs) (write_vectored (tee_b self) bufs));
  write_all := fun self buf =>
    out_map (fun _ => tt) (impl_tee (write_all (tee_a self) buf) (write_all (tee_b self) buf));
  write_fmt := fun self s =>
    out_map (fun _ => tt) (impl_tee (write_fmt (tee_a self) s) (write_fmt (tee_b self) s));
|}.

#[export] Instance tee_make {M1 W1 M2 W2} `{!MakeWriter M1 W1, !MakeWriter M2 W2} :
    MakeWriter (Tee M1 M2) (Tee W1 W2) := {|
  make_writer := fun self => tee (make_writer (tee_a self)) (make_writer (tee_b self));
  make_writer_for := fun self meta =>
    tee (make_writer_for (tee_a self) meta) (make_writer_for (tee_b self) meta);
|}.

(** ** [WithMaxLevel], [WithMinLevel], [WithFilter], [OrElse] *)

Record WithMaxLevel (M : Type) := with_max_level { max_make : M; max_level : Level.t }.
Record WithMinLevel (M : Type) := with_min_level { min_make : M; min_level : Level.t }.
Record WithFilter (M : Type) := with_filter { filter_make : M; filter_pred : Metadata -> bool }.
Record OrElse (A B : Type) := or_else { or_inner : A; or_other : B }.
Arguments with_max_level {M} _ _.
Arguments with_min_level {M} _ _.
Arguments with_filter {M} _ _.
Arguments or_else {A B} _ _.
Arguments max_make {M} _.
Arguments max_level {M} _.
Arguments min_make {M} _.
Arguments min_level {M} _.
Arguments filter_make {M} _.
Arguments filter_pred {M} _ _.
Arguments or_inner {A B} _.
Arguments or_other {A B} _.

#[export] Instance max_make_writer {M W} `{!MakeWriter M W} :
    MakeWriter (WithMaxLevel M) (OptionalWriter W) := {|
  make_writer := fun _ => none;
  make_writer_for := fun self meta =>
    if Level.le (meta_level meta) (max_level self)
    then some (make_writer_for (max_make self) meta) else none;
|}.

#[export] Instance min_make_writer {M W} `{!MakeWriter M W} :
    MakeWriter (WithMinLevel M) (OptionalWriter W) := {|
  make_writer := fun _ => none;
  make_writer_for := fun self meta =>
    if Level.ge (meta_level meta) (min_level self)
    then some (make_writer_for (min_make self) meta) else none;
|}.

#[export] Instance filter_make_writer {M W} `{!MakeWriter M W} :
    MakeWriter (WithFilter M) (OptionalWriter W) := {|
  make_writer := fun self => some (make_writer (filter_make self));
  make_writer_for := fun self meta =>
    if filter_pred self meta then some (make_writer_for (filter_make self) meta) else none;
|}.

#[export] Instance or_else_make_writer {A B WA WB}
    `{!MakeWriter A (OptionalWriter WA), !MakeWriter B WB} :
    MakeWriter (OrElse A B) (EitherWriter WA WB) := {|
  make_writer := fun self =>
    match make_writer (or_inner self) with
    | EitherA writer => EitherA writer
    | EitherB _ => EitherB (make_writer (or_other self))
    end;
  make_writer_for := fun self meta =>
    match make_writer_for (or_inner self) meta with
    | EitherA writer => EitherA writer
    | EitherB _ => EitherB (make_writer_for (or_other self) meta)
    end;
|}.

(** ** [TestWriter] *)

Record TestWriter := { use_stderr : bool }.
Definition test_writer_new : TestWriter := {| use_stderr := false |}.
Definition test_writer_with_stderr : TestWriter := {| use_stderr := true |}.

#[export] Instance test_make_writer : MakeWriter TestWriter TestWriter := {|
  make_writer := fun _ => test_writer_new;
  make_writer_for := default_make_writer_for (fun _ => test_writer_new);
|}.

(** [print!] and [eprint!], for text that is valid UTF-8. *)
Definition test_writer_write (print : bool -> string -> World -> World) :
    IoWrite World Error TestWriter := {|
  write := fun self buf w => (print (use_stderr self) buf w, Ok (Z.of_nat (str_len buf)));
  flush := fun _ w => (w, Ok tt);
  write_vectored := fun self bufs w =>
    let buf := default "" (find_first (fun b => negb (String.eqb b "")) bufs) in
    (print (use_stderr self) buf w, Ok (Z.of_nat (str_len buf)));
  write_all := fun self buf w => (print (use_stderr self) buf w, Ok tt);
  write_fmt := fun self s w => (print (use_stderr self) s w, Ok tt);
|}.

(** ** [BoxMakeWriter]: a maker and its writers, with their types erased *)

Inductive BoxWrite :=
  | box_write (T : Type) (impl : IoWrite World Error T) (t : T).
Arguments box_write {T} impl t.

#[export] Instance box_write_impl : IoWrite World Error BoxWrite := {|
  write := fun '(@box_write _ impl t) => write (IoWrite := impl) t;
  flush := fun '(@box_write _ impl t) => flush (IoWrite := impl) t;
  write_vectored := fun '(@box_write _ impl t) => write_vectored (IoWrite := impl) t;
  write_all := fun '(@box_write _ impl t) => write_all (IoWrite := impl) t;
  write_fmt := fun '(@box_write _ impl t) => write_fmt (IoWrite := impl) t;
|}.

Record BoxMakeWriter := {
  box_make : BoxWrite;
  box_make_for : Metadata -> BoxWrite;
}.
Definition box_new {M W} `{!MakeWriter M W} {impl : IoWrite World Error W} (m : M) :
    BoxMakeWriter :=
  {| box_make := box_write impl (make_writer m);
     box_make_for := fun meta => box_write impl (make_writer_for m meta) |}.
#[export] Instance box_make_writer : MakeWriter BoxMakeWriter BoxWrite := {|
  make_writer := box_make;
  make_writer_for := box_make_for;
|}.

(** ** What a writer writes to

    A writer stands for a list of outputs, the leaves; writing to it writes to each of
    them in order, whatever the others answer, and the first error is its result. *)

Context {Leaf : Type} `{!IoWrite World Error Leaf}.

Fixpoint all_of (op : Leaf -> Out unit) (ls : list Leaf) : Out unit := fun w =>
  match ls with
  | [] => (w, Ok tt)
  | l :: ls =>
      let '(w, r) := op l w in
      let '(w, rs) := all_of op ls w in
      (w, match r with Ok _ => rs | Err e => Err e end)
  end.

Lemma all_of_app op ls ks w :
  all_of op (ls ++ ks) w =
    let '(w, r) := all_of op ls w in
    let '(w, rs) := all_of op ks w in
    (w, match r with Ok _ => rs | Err e => Err e end).
Proof.
  revert w. induction ls as [|l ls IH]; intros w; cbn.
  { by destruct (all_of op ks w). }
  destruct (op l w) as [w1 r]. rewrite IH. destruct (all_of op ls w1) as [w2 rs].
  destruct (all_of op ks w2) as [w3 rk]. by destruct r.
Qed.

(** The promise of a writer, and of a maker. *)
Class Outputs (T : Type) `{!IoWrite World Error T} := {
  outputs : T -> list Leaf;
  outputs_write_all t buf w : write_all t buf w = all_of (fun l => write_all l buf) (outputs t) w;
  outputs_flush t w : flush t w = all_of flush (outputs t) w;
}.

#[export] Instance leaf_outputs : Outputs Leaf.
Proof.
  refine {| outputs := fun l => [l] |}; intros; cbn.
  - by destruct (write_all t buf w) as [w' [[]|]].
  - by destruct (flush t w) as [w' [[]|]].
Defined.

#[export] Instance sink_outputs : Outputs Sink.
Proof. by refine {| outputs := fun _ => [] |}. Defined.

#[export] Instance either_outputs {A B}
    `{!IoWrite World Error A, !Outputs A, !IoWrite World Error B, !Outputs B} :
    Outputs (EitherWriter A B).
Proof.
  refine {| outputs := fun t => match t with EitherA a => outputs a | EitherB b => outputs b end |}.
  - intros [a|b] buf w; [exact (outputs_write_all a buf w)|exact (outputs_write_all b buf w)].
  - intros [a|b] w; [exact (outputs_flush a w)|exact (outputs_flush b w)].
Defined.

Lemma impl_tee_all op (fa fb : Out unit) la lb w :
  (forall w, fa w = all_of op la w) -> (forall w, fb w = all_of op lb w) ->
  out_map (fun _ => tt) (impl_tee fa fb) w = all_of op (la ++ lb) w.
Proof.
  intros Ha Hb. unfold out_map, impl_tee. rewrite all_of_app, Ha.
  destruct (all_of op la w) as [w1 ra]. rewrite Hb.
  destruct (all_of op lb w1) as [w2 rb]. by destruct ra as [[]|], rb as [[]|].
Qed.

#[export] Instance tee_outputs {A B}
    `{!IoWrite World Error A, !Outputs A, !IoWrite World Error B, !Outputs B} :
    Outputs (Tee A B).
Proof.
  refine {| outputs := fun t => outputs (tee_a t) ++ outputs (tee_b t) |}.
  - intros. apply impl_tee_all; intros; apply outputs_write_all.
  - intros. apply impl_tee_all; intros; apply outputs_flush.
Defined.

(** What an event with the given metadata reaches through a maker. *)
Definition reached {M W} `{!MakeWriter M W, !IoWrite World Error W, !Outputs W} (m : M)
    (meta : Metadata) : list Leaf := outputs (make_writer_for m meta).

Definition deliver {M W} `{!MakeWriter M W, !IoWrite World Error W} (m : M) (meta : Metadata)
    (buf : string) : Out unit := write_all (make_writer_for m meta) buf.

(** A maker of one output: a closure, a file, a stream. *)
Definition leaf_make : MakeWriter Leaf Leaf :=
  {| make_writer := fun l => l; make_writer_for := default_make_writer_for (fun l => l) |}.

Lemma level_le_rank l m : Level.le l m = (level_rank l <=? level_rank m).
Proof. by destruct l as [[]], m as [[]]. Qed.
Lemma level_ge_rank l m : Level.ge l m = (level_rank m <=? level_rank l).
Proof. by destruct l as [[]], m as [[]]. Qed.

(** Writing a buffer for an event writes it once to every output that the composed
    maker selects for the event's metadata, in order and even when an earlier output
    fails, with the first error as the result.  [with_max_level] selects the outputs of its
    maker for the levels up to the given one in verbosity, [with_min_level] for those from
    it on, [with_filter] for the events its predicate accepts, [and] those of both makers,
    [or_else] those of the first maker if it is enabled and otherwise those of the second;
    boxing a maker changes nothing. *)
Theorem writer_routing {M1 W1 M2 W2}
    `{!MakeWriter M1 W1, !IoWrite World Error W1, !Outputs W1}
    `{!MakeWriter M2 W2, !IoWrite World Error W2, !Outputs W2}
    (m1 : M1) (m2 : M2) (l : Level.t) (f : Metadata -> bool) (meta : Metadata) :
  (forall buf w, deliver m1 meta buf w = all_of (fun l => write_all l buf) (reached m1 meta) w) /\
  reached (with_max_level m1 l) meta =
    (if level_rank (meta_level meta) <=? level_rank l then reached m1 meta else []) /\
  reached (with_min_level m1 l) meta =
    (if level_rank l <=? level_rank (meta_level meta) then reached m1 meta else []) /\
  reached (with_filter m1 f) meta = (if f meta then reached m1 meta else []) /\
  reached (tee m1 m2) meta = reached m1 meta ++ reached m2 meta /\
  reached (or_else (with_max_level m1 l) m2) meta =
    (if level_rank (meta_level meta) <=? level_rank l then reached m1 meta else reached m2 meta) /\
  reached (or_else (with_min_level m1 l) m2) meta =
    (if level_rank l <=? level_rank (meta_level meta) then reached m1 meta else reached m2 meta) /\
  reached (or_else (with_filter m1 f) m2) meta =
    (if f meta then reached m1 meta else reached m2 meta) /\
  (forall buf w, deliver (box_new m1) meta buf w = deliver m1 meta buf w).
Proof.
  unfold reached. cbn. rewrite level_le_rank, level_ge_rank. split_and!; try done.
  - intros. apply outputs_write_all.
  - by destruct (_ <=? _).
  - by destruct (_ <=? _).
  - by destruct (f meta).
  - by destruct (_ <=? _).
  - by destruct (_ <=? _).
  - by destruct (f meta).
Qed.

End writers.

Arguments EitherA {A B} a.
Arguments EitherB {A B} b.
Arguments tee {A B} _ _.
Arguments with_max_level {M} _ _.
Arguments with_min_level {M} _ _.
Arguments with_filter {M} _ _.
Arguments or_else {A B} _ _.

(** ** The standard streams *)

Module Streams.

Inductive Stream := Stdout | Stderr.

(** What was written, in order. *)
Definition Log : Type := list (Stream * string).

#[export] Instance stream_write : IoWrite Log Empty_set Stream := {|
  write := fun s buf w => (w ++ [(s, buf)], Ok (Z.of_nat (str_len buf)));
  flush := fun _ w => (w, Ok tt);
  write_vectored := fun s bufs w =>
    (w ++ ((fun b => (s, b)) <$> bufs), Ok (Z.of_nat (sum_list_with str_len bufs)));
  write_all := fun s buf w => (w ++ [(s, buf)], Ok tt);
  write_fmt := fun s buf w => (w ++ [(s, buf)], Ok tt);
|}.

#[export] Instance stream_make : MakeWriter Stream Stream := leaf_make.

Definition at_level (l : Level.t) : Metadata :=
  Metadata.new "event" "app" l None None None
    (FieldSet.new [] 0) Kind.EVENT.

(** The example in the documentation of [with_min_level]: "only write the DEBUG and INFO
    levels to stdout, write the WARN and ERROR levels to stderr". *)
Definition documented :=
  tee (with_min_level (with_max_level Stdout Level.DEBUG) Level.INFO)
    (with_min_level Stderr Level.WARN).

(** The example in the documentation of [with_max_level]: errors and warnings to stderr,
    everything else to stdout. *)
Definition split_streams := or_else (with_max_level Stderr Level.WARN) Stdout.

Definition streams_of {M W} `{!MakeWriter M W, !IoWrite Log Empty_set W} (m : M) :
    list (list Stream) :=
  (fun l => (deliver m (at_level l) "x" []).1.*1) <$>
    [Level.ERROR; Level.WARN; Level.INFO; Level.DEBUG; Level.TRACE].

Example split_streams_routes :
  streams_of split_streams = [[Stderr]; [Stderr]; [Stdout]; [Stdout]; [Stdout]].
Proof. reflexivity. Qed.

(** A [TestWriter] for the standard error that is used as a maker makes writers for the
    standard output. *)
Example test_writer_forgets_stderr :
  use_stderr (make_writer test_writer_with_stderr) = false.
Proof. reflexivity. Qed.

End Streams.

Import Streams.

(** The composition that the documentation of [with_min_level] gives for warnings and
    errors on the standard error writes errors nowhere, and everything else down to trace
    events to the standard error. *)
Theorem min_level_example :
  streams_of documented = [[]; [Stderr]; [Stdout; Stderr]; [Stdout; Stderr]; [Stderr]].
Proof. reflexivity. Qed.

Lemma writer_routing_witness :
  deliver documented (at_level Level.INFO) "x" [] =
    all_of (fun l => write_all l "x") (reached documented (at_level Level.INFO)) [] /\
  reached (with_filter Stdout (fun _ => false)) (at_level Level.INFO) = [].
Proof.
  split.
  - apply (writer_routing documented Stdout Level.INFO (fun _ => true) (at_level Level.INFO)).
  - apply (writer_routing Stdout Stdout Level.INFO (fun _ => false) (at_level Level.INFO)).
Defined.
