(* ===== verification/LogBridge.v ===== *)
(** * LogBridge: [tracing-log/src/lib.rs] and [log_tracer.rs]

    Records of the [log] crate as events of [tracing], and back: the conversions of levels
    and metadata, the event that is dispatched for a record, and the metadata that
    subscribers recover from it. *)

From S2P Require Import Prelude.
From S2P Require Import Str.
From S2P Require Import Ints.
From S2P Require Import Levels.
From S2P Require Import Fields.
From S2P Require Import Meta.

Local Open Scope Z_scope.

(** ** The [log] crate *)

Module Log.

Inductive Level := Error | Warn | Info | Debug | Trace.
Inductive LevelFilter := OffF | ErrorF | WarnF | InfoF | DebugF | TraceF.

(** [level as usize]; the levels are ordered by it. *)
Definition as_usize (l : Level) : Z :=
  match l with Error => 1 | Warn => 2 | Info => 3 | Debug => 4 | Trace => 5 end.
Definition filter_usize (f : LevelFilter) : Z :=
  match f with
  | OffF => 0 | ErrorF => 1 | WarnF => 2 | InfoF => 3 | DebugF => 4 | TraceF => 5
  end.
Definition lt (l m : Level) : bool := as_usize l <? as_usize m.

#[export] Instance Level_eq_dec : EqDecision Level.
Proof. solve_decision. Defined.

Record Metadata := { level : Level; target : string }.

(** The arguments are what their [Display] writes. *)
Record Record_ := {
  metadata : Metadata;
  args : list string;
  module_path : option string;
  file : option string;
  line : option Z;
}.

End Log.

(** ** [AsLog], [AsTrace] of levels *)

Definition level_as_log (l : Level.t) : Log.Level :=
  match Level.inner l with
  | Level.Error => Log.Error
  | Level.Warn => Log.Warn
  | Level.Info => Log.Info
  | Level.Debug => Log.Debug
  | Level.Trace => Log.Trace
  end.
Definition level_as_trace (l : Log.Level) : Level.t :=
  match l with
  | Log.Error => Level.ERROR
  | Log.Warn => Level.WARN
  | Log.Info => Level.INFO
  | Log.Debug => Level.DEBUG
  | Log.Trace => Level.TRACE
  end.
Definition filter_as_trace (f : Log.LevelFilter) : LevelFilter.t :=
  match f with
  | Log.OffF => LevelFilter.OFF
  | Log.ErrorF => LevelFilter.ERROR
  | Log.WarnF => LevelFilter.WARN
  | Log.InfoF => LevelFilter.INFO
  | Log.DebugF => LevelFilter.DEBUG
  | Log.TraceF => LevelFilter.TRACE
  end.
Definition filter_as_log (f : LevelFilter.t) : Log.LevelFilter :=
  match LevelFilter.inner f with
  | None => Log.OffF
  | Some l =>
      match level_as_log l with
      | Log.Error => Log.ErrorF
      | Log.Warn => Log.WarnF
      | Log.Info => Log.InfoF
      | Log.Debug => Log.DebugF
      | Log.Trace => Log.TraceF
      end
  end.

(** [AsLog for Metadata] *)
Definition metadata_as_log (self : Metadata) : Log.Metadata :=
  {| Log.level := level_as_log (Metadata.level self); Log.target := Metadata.target self |}.

Section bridge.
(** The identifiers of the five static callsites. *)
Variable cs_id : Level.t -> Identifier.

Definition FIELD_NAMES : list string :=
  ["message"; "log.target"; "log.module_path"; "log.file"; "log.line"].

(** [log_cs!]: the metadata of the callsite of a level. *)
Definition cs_meta (l : Level.t) : Metadata :=
  Metadata.new "log event" "log" l None None None (FieldSet.new FIELD_NAMES (cs_id l)) Kind.EVENT.

(** [struct Fields]; the [unwrap]s of [Fields::new] panic. *)
Record Fields := {
  f_message : Field; f_target : Field; f_module : Field; f_file : Field; f_line : Field;
}.
Definition fields_new (meta : Metadata) : outcome Fields :=
  let fieldset := Metadata.fields meta in
  message ← expect (FieldSet.field fieldset "message");
  target ← expect (FieldSet.field fieldset "log.target");
  module ← expect (FieldSet.field fieldset "log.module_path");
  file ← expect (FieldSet.field fieldset "log.file");
  line ← expect (FieldSet.field fieldset "log.line");
  Done {| f_message := message; f_target := target; f_module := module; f_file := file;
          f_line := line |}.

(** [level_to_cs], [loglevel_to_cs] *)
Definition level_to_cs (l : Level.t) : outcome (Identifier * Fields) :=
  fields ← fields_new (cs_meta l); Done (cs_id l, fields).
Definition loglevel_to_cs (l : Log.Level) : outcome (Identifier * Fields * Metadata) :=
  '(cs, fields) ← level_to_cs (level_as_trace l);
  Done (cs, fields, cs_meta (level_as_trace l)).

(** [AsTrace for log::Metadata] and [for log::Record] *)
Definition metadata_as_trace (self : Log.Metadata) : Metadata :=
  let level := level_as_trace (Log.level self) in
  Metadata.new "log record" (Log.target self) level None None None
    (FieldSet.new FIELD_NAMES (cs_id level)) Kind.EVENT.
Definition record_as_trace (self : Log.Record_) : Metadata :=
  let level := level_as_trace (Log.level (Log.metadata self)) in
  Metadata.new "log record" (Log.target (Log.metadata self)) level (Log.file self)
    (Log.line self) (Log.module_path self) (FieldSet.new FIELD_NAMES (cs_id level)) Kind.EVENT.

(** The event of [dispatch_record]. *)
Definition record_event (record : Log.Record_) : outcome Event :=
  '(_, keys, meta) ← loglevel_to_cs (Log.level (Log.metadata record));
  Done (Event.new meta (ValueSet.value_set (Metadata.fields meta)
    [(f_message keys, Some (VDebug (DisplayValue (Log.args record))));
     (f_target keys, Some (VStr (Log.target (Log.metadata record))));
     (f_module keys, VStr <$> Log.module_path record);
     (f_file keys, VStr <$> Log.file record);
     (f_line keys, VU64 <$> Log.line record)])).

(** [dispatch_record]: the event that the dispatcher gets, if any. *)
Definition dispatch_record (enabled : Metadata -> bool) (record : Log.Record_) :
    outcome (option Event) :=
  if enabled (record_as_trace record) then Some <$> record_event record else Done None.

(** ** [NormalizeEvent] *)

Record LogVisitor := {
  v_target : option string; v_module_path : option string; v_file : option string;
  v_line : option Z;
}.
Definition new_for : LogVisitor :=
  {| v_target := None; v_module_path := None; v_file := None; v_line := None |}.

Definition log_visitor (fields : Fields) : Visit LogVisitor :=
  let default := default_visit (fun _ _ (st : LogVisitor) => st) in {|
  record_f64 := record_f64 default;
  record_i64 := record_i64 default;
  record_u64 := fun field value st =>
    if Field.eq field (f_line fields) then
      {| v_target := v_target st; v_module_path := v_module_path st; v_file := v_file st;
         v_line := Some value |}
    else st;
  record_i128 := record_i128 default;
  record_u128 := record_u128 default;
  record_bool := record_bool default;
  record_str := fun field value st =>
    if Field.eq field (f_file fields) then
      {| v_target := v_target st; v_module_path := v_module_path st; v_file := Some value;
         v_line := v_line st |}
    else if Field.eq field (f_target fields) then
      {| v_target := Some value; v_module_path := v_module_path st; v_file := v_file st;
         v_line := v_line st |}
    else if Field.eq field (f_module fields) then
      {| v_target := v_target st; v_module_path := Some value; v_file := v_file st;
         v_line := v_line st |}
    else st;
  record_bytes := record_bytes default;
  record_error := record_error default;
  record_debug := record_debug default;
|}.

Definition is_log (self : Event) : bool :=
  (Metadata.callsite (Event.metadata self) =? cs_id (Metadata.level (Event.metadata self)))%N.

Definition normalized_metadata (self : Event) : outcome (option Metadata) :=
  let original := Event.metadata self in
  if is_log self then
    '(_, keys) ← level_to_cs (Metadata.level original);
    let fields := Event.record self (log_visitor keys) new_for in
    Done (Some (Metadata.new "log event" (default "log" (v_target fields))
      (Metadata.level original) (v_file fields) (as_u 32 <$> v_line fields)
      (v_module_path fields) (FieldSet.new ["message"] (Metadata.callsite original)) Kind.EVENT))
  else Done None.

(** ** [LogTracer] *)

Record LogTracer := { ignore_crates : list string }.

(** [<LogTracer as log::Log>::enabled]; [current] is [LevelFilter::current()], [cached] the
    interest cache around the dispatcher's answer. *)
Definition tracer_enabled (self : LogTracer) (current : LevelFilter.t)
    (cached : (unit -> bool) -> bool) (dispatcher_enabled : Metadata -> bool)
    (metadata : Log.Metadata) : bool :=
  if LevelFilter.level_gt (level_as_trace (Log.level metadata)) current then false
  else if existsb (fun ignored => starts_with (Log.target metadata) ignored) (ignore_crates self)
  then false
  else cached (fun _ => dispatcher_enabled (metadata_as_trace metadata)).

Definition tracer_log (self : LogTracer) (current : LevelFilter.t)
    (cached : (unit -> bool) -> bool) (dispatcher_enabled : Metadata -> bool)
    (record : Log.Record_) : outcome (option Event) :=
  if tracer_enabled self current cached dispatcher_enabled (Log.metadata record)
  then dispatch_record dispatcher_enabled record else Done None.

(** ** Properties *)

Lemma as_trace_as_log l : level_as_trace (level_as_log l) = l.
Proof. by destruct l as [[]]. Qed.
Lemma as_log_as_trace l : level_as_log (level_as_trace l) = l.
Proof. by destruct l. Qed.

(** The conversions of levels and of level filters between the crates are inverse to
    each other and keep the order of verbosity. *)
Theorem levels_roundtrip (l m : Level.t) (f g : LevelFilter.t) (k : Log.Level) (h : Log.LevelFilter) :
  level_as_trace (level_as_log l) = l /\ level_as_log (level_as_trace k) = k /\
  filter_as_trace (filter_as_log f) = f /\ filter_as_log (filter_as_trace h) = h /\
  Log.as_usize (level_as_log l) = level_rank l /\
  Log.filter_usize (filter_as_log f) = filter_rank f /\
  Log.lt (level_as_log l) (level_as_log m) = Level.lt l m.
Proof.
  split_and!; [apply as_trace_as_log|apply as_log_as_trace|by destruct f as [[[[]]|]]|by destruct h|
    by destruct l as [[]]|by destruct f as [[[[]]|]]|by destruct l as [[]], m as [[]]].
Qed.

Lemma field_eq_nat i j fs :
  Field.eq {| field_i := Z.of_nat i; field_set := fs |} {| field_i := Z.of_nat j; field_set := fs |}
    = (i =? j)%nat.
Proof.
  unfold Field.eq. rewrite N.eqb_refl. cbn.
  destruct (Nat.eqb_spec i j) as [->|]; [apply Z.eqb_refl|]. apply Z.eqb_neq. lia.
Qed.

(** The event that is dispatched for a record of the [log] crate never fails to be
    built and is recognized as coming from it; the metadata that a subscriber recovers
    from the event is the record's own: its target, level, file, line and module path. *)
Theorem log_record_roundtrip (r : Log.Record_) :
  (forall n, Log.line r = Some n -> 0 <= n < 2 ^ 32) ->
  exists e, record_event r = Done e /\ is_log e = true /\
    normalized_metadata e = Done (Some
      {| meta_name := "log event"; meta_target := Metadata.target (record_as_trace r);
         meta_level := Metadata.level (record_as_trace r);
         meta_module_path := Metadata.module_path (record_as_trace r);
         meta_file := Metadata.file (record_as_trace r);
         meta_line := Metadata.line (record_as_trace r);
         meta_fields := FieldSet.new ["message"] (Metadata.callsite (record_as_trace r));
         meta_kind := Kind.EVENT |}).
Proof.
  intros Hline. destruct r as [[level target] args mp file line].
  set (l := level_as_trace level).
  eexists. split; [reflexivity|]. unfold normalized_metadata.
  assert (forall e, Metadata.callsite (Event.metadata e) = cs_id (Metadata.level (Event.metadata e)) ->
    is_log e = true) as Hlog by (intros e He; unfold is_log; by apply N.eqb_eq).
  rewrite Hlog by done. split; [done|].
  unfold Event.record, ValueSet.record, ValueSet.record_explicit.
  cbn -[as_u]. rewrite N.eqb_refl. cbn -[as_u].
  destruct mp as [mp|], file as [file|], line as [line|]; cbn -[as_u Field.eq];
    rewrite ?N.eqb_refl; cbn -[as_u Field.eq]; rewrite ?field_eq_nat; cbn -[as_u];
    try rewrite (as_u_fits 32 line) by (by apply Hline); done.
Qed.

End bridge.

(** A record of the module [server] at line 144. *)
Definition sample_record : Log.Record_ := {|
  Log.metadata := {| Log.level := Log.Warn; Log.target := "myApp" |};
  Log.args := ["Error!"]; Log.module_path := Some "server"; Log.file := Some "server.rs";
  Log.line := Some 144 |}.

Definition sample_ids (l : Level.t) : Identifier := Z.to_N (level_rank l).

Lemma log_record_roundtrip_witness :
  exists e, record_event sample_ids sample_record = Done e /\ is_log sample_ids e = true /\
    normalized_metadata sample_ids e = Done (Some (Metadata.new "log event" "myApp" Level.WARN
      (Some "server.rs") (Some 144) (Some "server") (FieldSet.new ["message"] 2) Kind.EVENT)).
Proof.
  apply (log_record_roundtrip sample_ids sample_record). intros n [= <-]. lia.
Defined.
