(* ===== verification/InterestCache.v ===== *)
(** * InterestCache: [tracing-log/src/interest_cache.rs]

    The per-thread cache of the dispatcher's answers for records of the [log] crate.  The
    crate [lru] and the hash function are parameters; a target is a string with the
    address at which it is stored. *)

From S2P Require Import Prelude.
From S2P Require Import Str.
From S2P Require Import LogBridge.

Local Open Scope Z_scope.

(** ** Configuration *)

Record InterestCacheConfig := { min_verbosity : Log.Level; lru_cache_size : nat }.
Definition default_config : InterestCacheConfig :=
  {| min_verbosity := Log.Debug; lru_cache_size := 1024 |}.
Definition disabled_config : InterestCacheConfig :=
  {| min_verbosity := min_verbosity default_config; lru_cache_size := 0 |}.
Definition with_min_verbosity (level : Log.Level) (self : InterestCacheConfig) :=
  {| min_verbosity := level; lru_cache_size := lru_cache_size self |}.
Definition with_lru_cache_size (size : nat) (self : InterestCacheConfig) :=
  {| min_verbosity := min_verbosity self; lru_cache_size := size |}.

(** ** The crate [lru] *)

Record Key := { target_address : Z; level_and_length : Z }.

#[export] Instance Key_eq_dec : EqDecision Key.
Proof. solve_decision. Defined.
#[export] Instance Key_countable : Countable Key.
Proof.
  refine (inj_countable' (fun k => (target_address k, level_and_length k))
    (fun p => {| target_address := p.1; level_and_length := p.2 |}) _). by intros [].
Defined.

Class Lru := {
  LruCache : Type;
  lru_new : nat -> LruCache;
  lru_cap : LruCache -> nat;
  lru_get : Key -> LruCache -> LruCache * option Z;
  lru_put : Key -> Z -> LruCache -> LruCache;
}.

(** A cache holds some of the entries that were put into it, each key with its last one. *)
Class LruLaws (L : Lru) := {
  content : LruCache -> gmap Key Z;
  lru_new_ok n : content (lru_new n) = ∅;
  lru_get_ok k c : (lru_get k c).2 = content c !! k /\ content (lru_get k c).1 = content c;
  lru_put_ok k v c : content (lru_put k v c) ⊆ <[k := v]> (content c);
}.

(** A target: its text and where it is. *)
Record Target := { address : Z; text : string }.

Section cache.
Context `{L : Lru}.

(** [AHasher] on the bytes of the target, a [u64]. *)
Variable hash : string -> Z.

(** ** [struct State], [try_cache] *)

Record State := { epoch : Z; verbosity : Log.Level; cache : LruCache }.

Definition new (epoch : Z) (config : InterestCacheConfig) : State :=
  {| epoch := epoch; verbosity := min_verbosity config; cache := lru_new (lru_cache_size config) |}.

Definition INTEREST_MASK : Z := 1.
Definition HASH_MASK : Z := U64.not 1.

Definition target_hash (target : Target) : Z := Z.land (hash (text target)) HASH_MASK.

Definition key (level : Log.Level) (target : Target) : Key :=
  {| target_address := address target;
     level_and_length :=
       Z.lor (Log.as_usize level) (U64.wrap (Z.shiftl (Z.of_nat (str_len (text target))) 3)) |}.

(** [try_cache], with the current epoch and configuration; [callback] is the dispatcher's
    answer.  The result also says whether the dispatcher was asked. *)
Definition try_cache (current_epoch : Z) (config : InterestCacheConfig) (level : Log.Level)
    (target : Target) (callback : bool) (state : State) : State * bool * bool :=
  let state := if current_epoch =? epoch state then state else new current_epoch config in
  if (lru_cap (cache state) =? 0)%nat || Log.lt level (verbosity state) then
    (state, callback, true)
  else
    let h := target_hash target in
    let key := key level target in
    let '(c, cached) := lru_get key (cache state) in
    let state := {| epoch := epoch state; verbosity := verbosity state; cache := c |} in
    let miss :=
      ({| epoch := epoch state; verbosity := verbosity state;
          cache := lru_put key (Z.lor h (Z.b2z callback)) c |}, callback, true) in
    match cached with
    | Some cached =>
        if Z.land cached HASH_MASK =? h then
          (state, negb (Z.land cached INTEREST_MASK =? 0), false)
        else miss
    | None => miss
    end.

(** ** The statics and the threads

    [INTEREST_CACHE_EPOCH]; [CONFIG], a [Lazy] whose first use registers the sentinel
    callsite, which bumps the epoch; [STATE] of each thread, made at its first record.
    [generation] counts the changes of the dispatcher's filters: it is not in the code. *)

Record Sys := {
  sys_epoch : Z;
  config : option InterestCacheConfig;
  threads : gmap nat State;
  generation : nat;
}.

Definition init : Sys := {| sys_epoch := 0; config := None; threads := ∅; generation := 0 |}.

(** [fetch_add(1)] *)
Definition bump_epoch (sys : Sys) : Sys :=
  {| sys_epoch := U64.wrap (sys_epoch sys + 1); config := config sys; threads := threads sys;
     generation := generation sys |}.

(** [CONFIG.lock()] *)
Definition force_config (sys : Sys) : Sys * InterestCacheConfig :=
  match config sys with
  | Some config => (sys, config)
  | None =>
      let sys := bump_epoch sys in
      ({| sys_epoch := sys_epoch sys; config := Some disabled_config; threads := threads sys;
          generation := generation sys |}, disabled_config)
  end.

Definition configure (new_config : option InterestCacheConfig) (sys : Sys) : Sys :=
  let sys := (force_config sys).1 in
  bump_epoch
    {| sys_epoch := sys_epoch sys; config := Some (default disabled_config new_config);
       threads := threads sys; generation := generation sys |}.

(** The core rebuilds its interest cache: [SentinelCallsite::set_interest], once the
    sentinel is registered. *)
Definition rebuild (sys : Sys) : Sys :=
  let sys := match config sys with Some _ => bump_epoch sys | None => sys end in
  {| sys_epoch := sys_epoch sys; config := config sys; threads := threads sys;
     generation := S (generation sys) |}.

(** [STATE.with(|state| ..)] *)
Definition state_of (tid : nat) (sys : Sys) : Sys * State :=
  match threads sys !! tid with
  | Some state => (sys, state)
  | None => let '(sys, config) := force_config sys in (sys, new (sys_epoch sys) config)
  end.

(** What the dispatcher answers, by the generation of its filters. *)
Variable answer : nat -> Log.Level -> string -> bool.

Definition log_enabled (tid : nat) (level : Log.Level) (target : Target) (sys : Sys) :
    Sys * bool :=
  let '(sys, state) := state_of tid sys in
  let '(sys, config') := force_config sys in
  let '(state, interest, _) :=
    try_cache (sys_epoch sys) config' level target
      (answer (generation sys) level (text target)) state in
  ({| sys_epoch := sys_epoch sys; config := config sys;
      threads := <[tid := state]> (threads sys); generation := generation sys |}, interest).

Inductive op :=
  | Configure (new_config : option InterestCacheConfig)
  | Rebuild
  | Enabled (tid : nat) (level : Log.Level) (target : Target).

Fixpoint run (ops : list op) (sys : Sys) : list bool :=
  match ops with
  | [] => []
  | Configure c :: ops => run ops (configure c sys)
  | Rebuild :: ops => run ops (rebuild sys)
  | Enabled tid level target :: ops =>
      let '(sys, interest) := log_enabled tid level target sys in interest :: run ops sys
  end.

(** The same records without a cache. *)
Fixpoint uncached (ops : list op) (generation : nat) : list bool :=
  match ops with
  | [] => []
  | Configure _ :: ops => uncached ops generation
  | Rebuild :: ops => uncached ops (S generation)
  | Enabled _ level target :: ops =>
      answer generation level (text target) :: uncached ops generation
  end.

(** ** The entries *)

Context `{!LruLaws L}.

(** A hash with an interest in its lowest bit. *)
Lemma entry_bits t b :
  Z.land (Z.lor (target_hash t) (Z.b2z b)) HASH_MASK = target_hash t /\
  negb (Z.land (Z.lor (target_hash t) (Z.b2z b)) INTEREST_MASK =? 0) = b.
Proof.
  rewrite !Z.land_lor_distr_l. unfold target_hash. rewrite <- !Z.land_assoc, Z.land_diag. split.
  - replace (Z.land (Z.b2z b) HASH_MASK) with 0 by by destruct b. apply Z.lor_0_r.
  - change (Z.land HASH_MASK INTEREST_MASK) with 0. rewrite Z.land_0_r. by destruct b.
Qed.

(** The level and the length do not overlap in a key. *)
Lemma key_bits l n : 0 <= n < 2 ^ 61 ->
  Z.lor (Log.as_usize l) (U64.wrap (Z.shiftl n 3)) = Log.as_usize l + 8 * n.
Proof.
  intros Hn. unfold U64.wrap. rewrite Z.shiftl_mul_pow2 by lia.
  rewrite Z.mod_small by lia.
  rewrite <- Z.lxor_lor, <- Z.add_nocarry_lxor; [lia|..];
    (apply Z.bits_inj'; intros i Hi; rewrite Z.land_spec, Z.bits_0;
     destruct (Z_lt_ge_dec i 3);
       [by rewrite (Z.mul_pow2_bits_low n 3 i), andb_false_r by lia|
        rewrite (Z.bits_above_log2 (Log.as_usize l) i); [done|by destruct l|
          destruct l; cbn; lia]]).
Qed.

Lemma key_inj l t l' t' :
  Z.of_nat (str_len (text t)) < 2 ^ 61 -> Z.of_nat (str_len (text t')) < 2 ^ 61 ->
  key l t = key l' t' ->
  l = l' /\ address t = address t' /\ str_len (text t) = str_len (text t').
Proof.
  intros Ht Ht' [= Ha Hk]. rewrite !key_bits in Hk by lia.
  assert (1 <= Log.as_usize l <= 5) by (destruct l; cbn; lia).
  assert (1 <= Log.as_usize l' <= 5) by (destruct l'; cbn; lia).
  assert (Log.as_usize l = Log.as_usize l' /\
    Z.of_nat (str_len (text t)) = Z.of_nat (str_len (text t'))) as [Hl Hn] by lia.
  split_and!; [by destruct l, l'|done|lia].
Qed.

(** ** Transparency *)

(** Targets that share an address and a length have different hashes, up to the lowest
    bit, unless they are the same text. *)
Definition collision_free (targets : list Target) : Prop :=
  forall t t', t ∈ targets -> t' ∈ targets ->
    address t = address t' -> str_len (text t) = str_len (text t') ->
    target_hash t = target_hash t' -> text t = text t'.

(** A [str] is at most [isize::MAX] bytes; here less than an eighth of the address space,
    so that the length is not truncated in a key. *)
Definition short (t : Target) : Prop := Z.of_nat (str_len (text t)) < 2 ^ 61.

Definition targets_of (ops : list op) : list Target :=
  omap (fun o => match o with Enabled _ _ t => Some t | _ => None end) ops.

Section transparent.
Variable used : list Target.
Hypothesis used_free : collision_free used.
Hypothesis used_short : Forall short used.

(** Every entry of a cache is an answer of the generation. *)
Definition entries_ok (g : nat) (c : LruCache) : Prop :=
  forall k v, content c !! k = Some v -> exists l t, t ∈ used /\ k = key l t /\
    v = Z.lor (target_hash t) (Z.b2z (answer g l (text t))).

Definition state_ok (sys : Sys) (st : State) : Prop :=
  epoch st <= sys_epoch sys /\
  (epoch st = sys_epoch sys -> entries_ok (generation sys) (cache st)).

Definition sys_ok (sys : Sys) : Prop :=
  0 <= sys_epoch sys /\ (config sys = None -> threads sys = ∅) /\
  map_Forall (fun _ => state_ok sys) (threads sys).

Lemma entries_new g e c : entries_ok g (cache (new e c)).
Proof. intros k v. cbn. by rewrite lru_new_ok, lookup_empty. Qed.

Lemma try_cache_spec g e c l t st :
  t ∈ used -> (epoch st = e -> entries_ok g (cache st)) ->
  let r := try_cache e c l t (answer g l (text t)) st in
  epoch r.1.1 = e /\ entries_ok g (cache r.1.1) /\ r.1.2 = answer g l (text t).
Proof.
  intros Ht Hst. cbn zeta. unfold try_cache.
  set (st' := if e =? epoch st then st else new e c).
  assert (epoch st' = e /\ entries_ok g (cache st')) as [He Hok].
  { subst st'. destruct (Z.eqb_spec e (epoch st)); [by auto|split; [done|apply entries_new]]. }
  destruct (_ || _); [done|].
  destruct (lru_get_ok (key l t) (cache st')) as [Hget Hsame].
  destruct (lru_get (key l t) (cache st')) as [c' cached]. cbn in Hget, Hsame. subst cached.
  assert (entries_ok g c') as Hc' by (intros k v; rewrite Hsame; apply Hok).
  assert (entries_ok g
    (lru_put (key l t) (Z.lor (target_hash t) (Z.b2z (answer g l (text t)))) c')) as Hput.
  { intros k v Hk. pose proof (lookup_weaken _ _ _ _ Hk (lru_put_ok _ _ _)) as Hk'.
    apply lookup_insert_Some in Hk' as [[<- <-]|[_ Hk']]; [eauto|by apply Hc']. }
  destruct (content (cache st') !! key l t) as [v|] eqn:Hv; [|done].
  destruct (Z.eqb_spec (Z.land v HASH_MASK) (target_hash t)) as [Hv'|]; [|done].
  split_and!; [done..|cbn].
  destruct (Hok _ _ Hv) as (l' & t' & Ht' & Hk & ->).
  rewrite Forall_forall in used_short.
  destruct (key_inj l t l' t') as (<- & Ha & Hn); [by apply used_short..|done|].
  destruct (entry_bits t' (answer g l (text t'))) as [Hh Hb].
  rewrite Hb. f_equal. symmetry. apply used_free; congruence.
Qed.

(** A later epoch makes every cache stale. *)
Lemma sys_ok_bump sys : sys_epoch sys + 1 < 2 ^ 64 -> sys_ok sys ->
  forall cfg g, sys_ok
    {| sys_epoch := sys_epoch (bump_epoch sys); config := Some cfg; threads := threads sys;
       generation := g |}.
Proof.
  intros Hlt (H0 & _ & Hall) cfg g. cbn. unfold U64.wrap. rewrite Z.mod_small by lia.
  split_and!; [cbn; lia|done|]. intros tid st Hst. destruct (Hall tid st Hst) as [Hle _].
  split; cbn; [lia|intros ?; lia].
Qed.

Lemma force_config_spec sys : sys_epoch sys + 1 < 2 ^ 64 -> sys_ok sys ->
  let sys' := (force_config sys).1 in
  sys_ok sys' /\ config sys' = Some (force_config sys).2 /\ threads sys' = threads sys /\
  generation sys' = generation sys /\ sys_epoch sys <= sys_epoch sys' /\
  sys_epoch sys' <= sys_epoch sys + 1 /\ (is_Some (config sys) -> sys' = sys).
Proof.
  intros Hlt Hok. cbn zeta. unfold force_config. destruct (config sys) as [c|] eqn:Hc; cbn.
  - split_and!; try done; lia.
  - pose proof (sys_ok_bump sys Hlt Hok disabled_config (generation sys)) as Hok'.
    destruct Hok as (H0 & _). unfold U64.wrap.
    rewrite Z.mod_small by lia.
    split_and!; first [exact Hok'|done|lia|by intros [? ?]|idtac].
    all: unfold bump_epoch, U64.wrap in Hok'; by rewrite Z.mod_small in Hok' by lia.
Qed.

Lemma log_enabled_spec tid l t sys :
  t ∈ used -> sys_epoch sys + 1 < 2 ^ 64 -> sys_ok sys ->
  let r := log_enabled tid l t sys in
  sys_ok r.1 /\ generation r.1 = generation sys /\ sys_epoch r.1 <= sys_epoch sys + 1 /\
  r.2 = answer (generation sys) l (text t).
Proof.
  intros Ht Hlt Hok. cbn zeta.
  assert (exists sys' st, state_of tid sys = (sys', st) /\ sys_ok sys' /\
    is_Some (config sys') /\ generation sys' = generation sys /\
    sys_epoch sys' <= sys_epoch sys + 1 /\ state_ok sys' st)
    as (sys' & st & Heq & (H0 & Hnone & Hall) & [cfg Hcfg] & Hg & He & Hst).
  { unfold state_of. destruct (threads sys !! tid) as [st|] eqn:Hst.
    - exists sys, st. destruct Hok as (H0 & Hnone & Hall).
      split_and!; try done; [|lia|by eapply Hall].
      destruct (config sys); [done|]. by rewrite Hnone in Hst.
    - destruct (force_config_spec sys Hlt Hok) as (Hok' & Hcfg & _ & Hg & _ & He & _).
      destruct (force_config sys) as [sys' cfg]. cbn in *.
      eexists _, _. split; [done|]. split_and!; try done.
      split; [reflexivity|]. intros _. apply entries_new. }
  unfold log_enabled. rewrite Heq. unfold force_config. rewrite Hcfg.
  destruct (try_cache_spec (generation sys') (sys_epoch sys') cfg l t st Ht (proj2 Hst))
    as (Hepoch & Hentries & Hans).
  destruct (try_cache _ _ _ _ _ _) as [[st' interest] asked]. cbn in *.
  split_and!; try done; [|by rewrite Hans, Hg]. cbn.
  split_and!; [done|by rewrite Hcfg|]. apply map_Forall_insert_2; [split; cbn; [lia|done]|].
  exact Hall.
Qed.

Lemma run_uncached ops sys :
  targets_of ops ⊆ used -> sys_epoch sys + 2 * Z.of_nat (length ops) < 2 ^ 64 ->
  sys_ok sys -> run ops sys = uncached ops (generation sys).
Proof.
  revert sys. induction ops as [|[c| |tid l t] ops IH]; intros sys Hsub Hlt Hok; [done|..];
    pose proof (proj1 Hok); cbn [length] in Hlt;
    rewrite Nat2Z.inj_succ in Hlt; cbn [run uncached].
  - destruct (force_config_spec sys ltac:(lia) Hok) as (Hok' & _ & _ & Hg & _ & He & _).
    pose proof (sys_ok_bump (force_config sys).1 ltac:(lia) Hok'
      (default disabled_config c) (generation sys)) as Hok''.
    unfold configure. rewrite <- Hg. rewrite <- Hg in Hok''.
    rewrite IH; [done|done| |exact Hok'']. cbn. destruct Hok' as [H0 _].
    unfold U64.wrap. rewrite Z.mod_small by lia. lia.
  - assert (sys_ok (rebuild sys) /\ generation (rebuild sys) = S (generation sys) /\
      sys_epoch (rebuild sys) <= sys_epoch sys + 1) as (Hok' & Hg & He).
    { unfold rebuild. destruct (config sys) as [c|] eqn:Hc; cbn.
      - pose proof (sys_ok_bump sys ltac:(lia) Hok c (S (generation sys))) as Hok'.
        rewrite <- Hc in Hok'. split_and!; [exact Hok'|done|].
        unfold U64.wrap. rewrite Z.mod_small by lia. lia.
      - destruct Hok as (H0 & Hnone & _). rewrite (Hnone Hc), Hc.
        split_and!; [split_and!; [done..|apply map_Forall_empty]|done|lia]. }
    by rewrite <- Hg; apply IH; [|lia|].
  - destruct (log_enabled_spec tid l t sys) as (Hok' & Hg & He & Hans);
      [apply Hsub; left|lia|done|].
    destruct (log_enabled tid l t sys) as [sys' interest]. cbn in *. subst interest.
    rewrite IH; [by rewrite Hg|by intros x Hx; apply Hsub; right|lia|done].
Qed.

End transparent.

(** C37: The per-thread interest cache of tracing-log is transparent.  In any sequence of
    records on any threads, reconfigurations and rebuilds of the core's interest cache,
    every record gets the answer the dispatcher would give for its level and target with
    the filters in force, whatever entries the LRU cache has evicted and whatever sizes and
    verbosities were configured: a hit returns the interest bit of an entry that the current
    epoch stored for the same level and the same target text.  The hypotheses are what the
    code's comments rely on: targets that share an address and a length differ in the
    masked hash (otherwise a stale answer is possible), and fewer than 2^63 operations, so
    that the epoch does not wrap. *)
Theorem interest_cache_transparent ops :
  collision_free (targets_of ops) -> Forall short (targets_of ops) ->
  Z.of_nat (length ops) < 2 ^ 63 -> run ops init = uncached ops 0.
Proof.
  intros Hfree Hshort Hlen. apply (run_uncached _ Hfree Hshort); [done|cbn; lia|].
  split_and!; [done|done|]. apply map_Forall_empty.
Qed.

End cache.

(** ** A concrete cache *)

Module MapLru.

(** A cache that forgets everything when it is full. *)
Definition impl : Lru := {|
  LruCache := nat * gmap Key Z;
  lru_new n := (n, ∅);
  lru_cap c := c.1;
  lru_get k c := (c, c.2 !! k);
  lru_put k v c := (c.1, if decide (size (<[k := v]> c.2) <= c.1)%nat
                         then <[k := v]> c.2 else {[k := v]});
|}.

#[local] Existing Instance impl.

Lemma laws : LruLaws impl.
Proof.
  refine {| content := (snd : @LruCache impl -> gmap Key Z) |}; [done|done|].
  intros k v [n m]. cbn. case_decide; [done|].
  apply map_singleton_subseteq_l, lookup_insert_eq.
Defined.

Fixpoint hash (s : string) : Z :=
  match s with
  | EmptyString => 7
  | String c s => U64.wrap (31 * hash s + Z.of_nat (Ascii.nat_of_ascii c))
  end.

(** The second thread asks again in each generation; [ham] and [hamster] share an address. *)
Definition answer (g : nat) (l : Log.Level) (t : string) : bool :=
  bool_decide (t = "ham" /\ Nat.even g).

Definition trace : list op :=
  let ham := {| address := 4096; text := "ham" |} in
  let hamster := {| address := 4096; text := "hamster" |} in
  [Enabled 0 Log.Debug ham; Configure (Some (with_lru_cache_size 2 default_config));
   Enabled 0 Log.Debug ham; Enabled 0 Log.Debug ham; Enabled 1 Log.Debug ham;
   Enabled 0 Log.Debug hamster; Rebuild; Enabled 0 Log.Debug ham; Enabled 0 Log.Trace ham;
   Enabled 0 Log.Debug hamster; Rebuild; Enabled 0 Log.Debug ham].

(** The second question is answered from the cache, and not after a rebuild. *)
Example second_is_a_hit :
  let ham := {| address := 4096; text := "ham" |} in
  let ask e st := try_cache hash e default_config Log.Debug ham true st in
  let r := ask 1 (new 1 default_config) in
  (r.2, (ask 1 r.1.1).2, (ask 2 r.1.1).2) = (true, false, true).
Proof. vm_compute. reflexivity. Qed.

End MapLru.

#[local] Existing Instances MapLru.impl MapLru.laws.

Lemma interest_cache_transparent_witness :
  run MapLru.hash MapLru.answer MapLru.trace init =
    [true; true; true; true; false; false; false; false; true].
Proof.
  rewrite (interest_cache_transparent MapLru.hash MapLru.answer MapLru.trace).
  - vm_compute. reflexivity.
  - intros t t' Ht Ht' _ Hlen _.
    change (t ∈ targets_of MapLru.trace) in Ht. revert Hlen.
    assert (forall x, x ∈ targets_of MapLru.trace -> text x = "ham" \/ text x = "hamster") as H.
    { intros x Hx. unfold targets_of, MapLru.trace in Hx. cbn in Hx.
      repeat (apply elem_of_cons in Hx as [->|Hx]; [cbn; auto|]). by apply not_elem_of_nil in Hx. }
    destruct (H t Ht) as [-> | ->], (H t' Ht') as [-> | ->]; done.
  - repeat constructor.
  - vm_compute. reflexivity.
Defined.
