(* ===== verification/Stacks.v ===== *)
(** * Stacks: layers on a [Registry]

    The behaviour of a whole list-shaped stack of layers, some of them with filters of
    their own: a filtering pass ([enabled], [event_enabled], then the callbacks), the
    cached interest and the maximum level of the stack, and the cases in which the
    composition does not keep its promises. *)

From S2P Require Import Prelude.
From S2P Require Import Ord.
From S2P Require Import Str.
From S2P Require Import Levels.
From S2P Require Import Fields.
From S2P Require Import Meta.
From S2P Require Import Interests.
From S2P Require Import FilterIds.
From S2P Require Import SpanStack.
From S2P Require Import Registry.
From S2P Require Import Pools.
From S2P Require Import Contexts.
From S2P Require Import Filters.
From S2P Require Import Layers.

Local Open Scope Z_scope.

(** ** The bitmap of a set of filters *)

Definition to_bits (X : gset Z) : Z :=
  foldr (fun i b => Z.lor (Z.shiftl 1 i) b) 0 (elements X).
Definition map_of (X : gset Z) : FilterMap.t := FilterMap.FilterMap (to_bits X).
Definition fid (i : Z) : FilterId.t := FilterId.FilterId (Z.shiftl 1 i).

Lemma to_bits_spec X :
  X ⊆ all_filters -> U64.valid (to_bits X) /\ members (to_bits X) = X.
Proof.
  intros HX. unfold to_bits.
  assert (forall l : list Z, (forall i, i ∈ l -> 0 <= i < 64) ->
    let b := foldr (fun i b => Z.lor (Z.shiftl 1 i) b) 0 l in
    U64.valid b /\ members b = list_to_set l) as Hl.
  { induction l as [|i l IH]; intros Hi; [split; [done|apply members_zero]|]. simpl.
    destruct IH as [IH1 IH2]; [intros; apply Hi; by right|].
    assert (0 <= i < 64) by (apply Hi; by left).
    split; [auto with tracing|]. by rewrite members_lor, members_bit, IH2 by done. }
  destruct (Hl (elements X)) as [H1 H2].
  - intros i Hi%elem_of_elements. apply elem_all_filters. auto.
  - split; [done|]. by rewrite H2, list_to_set_elements_L.
Qed.

Lemma to_bits_inj b X :
  U64.valid b -> X ⊆ all_filters -> members b = X -> b = to_bits X.
Proof.
  intros Hb HX E. destruct (to_bits_spec X HX). apply members_inj; [done..|congruence].
Qed.

Section bits.
Context (X : gset Z) (i : Z) (HX : X ⊆ all_filters) (Hi : 0 <= i < 64).

Lemma set_map_of b :
  FilterMap.set (fid i) b (map_of X) = map_of (if (b : bool) then X ∖ {[ i ]} else X ∪ {[ i ]}).
Proof using HX Hi.
  clear - HX Hi. destruct (to_bits_spec X HX) as [Hv Hm].
  assert ({[ i ]} ⊆ all_filters).
  { intros j ->%elem_of_singleton. by apply elem_all_filters. }
  unfold FilterMap.set, fid. simpl. rewrite bit_not_max by done.
  destruct b; unfold map_of; f_equal; apply to_bits_inj; auto with tracing.
  - intros j [Hj _]%elem_of_difference. auto.
  - autorewrite with members. by rewrite Hm, members_bit.
  - by apply union_least.
  - autorewrite with members. by rewrite Hm, members_bit.
Qed.

Lemma is_enabled_map_of : FilterMap.is_enabled (fid i) (map_of X) = bool_decide (i ∉ X).
Proof using HX Hi.
  clear - HX Hi. destruct (to_bits_spec X HX) as [Hv Hm].
  unfold FilterMap.is_enabled, map_of, fid. simpl. rewrite land_zero_members by done.
  rewrite Hm, members_bit by done. apply bool_decide_ext.
  split; [intros Hd Hx; by apply (Hd i); [|apply elem_of_singleton]|].
  intros Hx j Hj ->%elem_of_singleton. done.
Qed.

Lemma any_enabled_map_of : FilterMap.any_enabled (map_of X) = bool_decide (X <> all_filters).
Proof using HX.
  clear - HX. destruct (to_bits_spec X HX) as [Hv Hm].
  unfold FilterMap.any_enabled, map_of. simpl.
  destruct (Z.eqb_spec (to_bits X) U64.MAX) as [E|E]; simpl; symmetry.
  - apply bool_decide_eq_false. rewrite <- Hm, E, members_max. tauto.
  - apply bool_decide_eq_true. intros E'. apply E, members_inj; auto with tracing.
    by rewrite Hm, E', members_max.
Qed.

End bits.

Lemma map_of_empty : map_of ∅ = FilterMap.new.
Proof. done. Qed.

Lemma map_of_inj X Y : X ⊆ all_filters -> Y ⊆ all_filters -> map_of X = map_of Y -> X = Y.
Proof.
  intros HX HY [= E]. destruct (to_bits_spec X HX) as [_ <-], (to_bits_spec Y HY) as [_ <-].
  by rewrite E.
Qed.

Lemma fid_not_disabled i : 0 <= i < 64 -> FilterId.is_disabled (fid i) = false.
Proof. apply bit_not_max. Qed.

(** The indices of the first [n] registered filters. *)
Definition below (n : nat) : gset Z := list_to_set (seqZ 0 (Z.of_nat n)).

Lemma elem_below n i : i ∈ below n <-> 0 <= i < Z.of_nat n.
Proof. unfold below. rewrite elem_of_list_to_set, elem_of_seqZ. lia. Qed.

Lemma below_zero : below 0 = ∅.
Proof. done. Qed.

Lemma below_all n : (n <= 64)%nat -> below n ⊆ all_filters.
Proof. intros Hn i. rewrite elem_below, elem_all_filters. lia. Qed.

(** ** The parts of a stack *)

Section stack.
Context `{E : Env} {P : PoolOps DataInner}.

(** A layer whose methods are described by functions of the user's state: whether it
    enables metadata and events globally, its interest, and what its callbacks do
    ([on_close] may look at the span's data, if the span is still there). *)
Record leaf := {
  leaf_layer : Layer;
  leaf_enabled : Metadata -> UserState -> bool;
  leaf_event_enabled : Event -> UserState -> bool;
  leaf_interest : Metadata -> Interest;
  leaf_on_event : Event -> UserState -> UserState;
  leaf_on_new_span : Attributes -> Id -> UserState -> UserState;
  leaf_on_enter : Id -> UserState -> UserState;
  leaf_on_close : Id -> option DataInner -> UserState -> UserState;
}.

Record leaf_ok (x : leaf) : Prop := {
  ok_enabled m cx w :
    l_enabled (leaf_layer x) m cx w = Done (leaf_enabled x m (user w), w);
  ok_event_enabled ev cx w :
    l_event_enabled (leaf_layer x) ev cx w = Done (leaf_event_enabled x ev (user w), w);
  ok_interest m w : exists u,
    l_register_callsite (leaf_layer x) m w = Done (leaf_interest x m, with_user u w);
  ok_on_event ev cx w :
    l_on_event (leaf_layer x) ev cx w = Done (tt, with_user (leaf_on_event x ev (user w)) w);
  ok_on_new_span attrs id cx w :
    l_on_new_span (leaf_layer x) attrs id cx w =
    Done (tt, with_user (leaf_on_new_span x attrs id (user w)) w);
  ok_on_enter id cx w :
    l_on_enter (leaf_layer x) id cx w = Done (tt, with_user (leaf_on_enter x id (user w)) w);
  ok_on_exit id cx w : exists u,
    l_on_exit (leaf_layer x) id cx w = Done (tt, with_user u w);
  ok_on_close id cx w :
    l_on_close (leaf_layer x) id cx w =
    Done (tt, with_user (leaf_on_close x id (pool_get (id_to_idx id) (spans w)) (user w)) w);
  ok_not_plf : l_has_plf (leaf_layer x) = false;
  ok_not_none : l_is_none (leaf_layer x) = false;
}.

(** A filter likewise. *)
Record fil := {
  fil_filter : Filter;
  fil_enabled : Metadata -> UserState -> bool;
  fil_event_enabled : Event -> UserState -> bool;
  fil_interest : Metadata -> Interest;
  fil_on_new_span : Attributes -> Id -> UserState -> UserState;
  fil_on_enter : Id -> UserState -> UserState;
  fil_on_close : Id -> UserState -> UserState;
}.

Record fil_ok (f : fil) : Prop := {
  okf_enabled m cx w :
    f_enabled (fil_filter f) m cx w = Done (fil_enabled f m (user w), w);
  okf_event_enabled ev cx w :
    f_event_enabled (fil_filter f) ev cx w = Done (fil_event_enabled f ev (user w), w);
  okf_interest m w : exists u,
    f_callsite_enabled (fil_filter f) m w = Done (fil_interest f m, with_user u w);
  okf_on_new_span attrs id cx w :
    f_on_new_span (fil_filter f) attrs id cx w =
    Done (tt, with_user (fil_on_new_span f attrs id (user w)) w);
  okf_on_enter id cx w :
    f_on_enter (fil_filter f) id cx w = Done (tt, with_user (fil_on_enter f id (user w)) w);
  okf_on_exit id cx w : exists u,
    f_on_exit (fil_filter f) id cx w = Done (tt, with_user u w);
  okf_on_close id cx w :
    f_on_close (fil_filter f) id cx w = Done (tt, with_user (fil_on_close f id (user w)) w);
}.

Inductive entry :=
  | Plain (x : leaf)
  | NoneEntry
  | WithFilter (x : leaf) (f : fil).

Definition entry_ok (e : entry) : Prop :=
  match e with
  | Plain x => leaf_ok x
  | NoneEntry => True
  | WithFilter x f => leaf_ok x /\ fil_ok f
  end.

(** The layer before and after it got the [n]-th filter id. *)
Definition unattached (e : entry) : Unattached :=
  match e with
  | Plain x => plain (leaf_layer x)
  | NoneEntry => plain (option_layer None)
  | WithFilter x f => with_filter (fil_filter f) (plain (leaf_layer x))
  end.
Definition layer_of (n : nat) (e : entry) : Layer :=
  match e with
  | Plain x => leaf_layer x
  | NoneEntry => option_layer None
  | WithFilter x f => filtered_layer (leaf_layer x) (fil_filter f) (fid (Z.of_nat n))
  end.

(** The number of filters of a stack; the outermost layer is the first of the list. *)
Fixpoint filters (es : list entry) : nat :=
  match es with
  | [] => 0
  | WithFilter _ _ :: es => S (filters es)
  | _ :: es => filters es
  end.

Variable dtc : Id -> M bool.

Fixpoint stack (es : list entry) : DynSubscriber :=
  match es with
  | [] => registry_subscriber
  | e :: rest =>
      let inner := stack rest in
      let layer := layer_of (filters rest) e in
      layered_subscriber dtc layer inner
        (layered_new layer (s_is_registry inner) (s_has_plf inner))
  end.

Lemma stack_register_filter es : s_register_filter (stack es) = Registry.register_filter.
Proof. induction es as [|e es IH]; [done|]. apply IH. Qed.

Lemma filters_app es es' : filters (es ++ es') = (filters es + filters es')%nat.
Proof. induction es as [|[] es IH]; simpl; lia. Qed.

(** Attaching the layers one after the other, innermost first, builds the stack and
    gives the filters the ids [0], [1], ...; the 65th filter panics. *)
Lemma with_layers_stack es done_ w :
  next_filter_id w = Z.of_nat (filters done_) ->
  (filters done_ <= 64)%nat ->
  with_layers dtc (map unattached es) (stack done_) w =
  if decide (filters es + filters done_ <= 64)%nat
  then Done (stack (rev es ++ done_),
             with_next_filter_id (Z.of_nat (filters es + filters done_)) w)
  else Panic.
Proof.
  revert done_ w. induction es as [|e es IH]; intros done_ w Hw H64.
  - simpl. rewrite decide_True by lia. mred. rewrite <- Hw. by destruct w.
  - simpl map. simpl rev. rewrite <- app_assoc.
    assert (forall layer w', layer = layer_of (filters done_) e ->
      next_filter_id w' = Z.of_nat (filters (e :: done_)) ->
      (filters (e :: done_) <= 64)%nat ->
      (forall n, with_next_filter_id n w' = with_next_filter_id n w) ->
      with_layers dtc (map unattached es)
        (layered_subscriber dtc layer (stack done_)
           (layered_new layer (s_is_registry (stack done_)) (s_has_plf (stack done_)))) w' =
      if decide (filters (e :: es) + filters done_ <= 64)%nat
      then Done (stack (rev es ++ [e] ++ done_),
                 with_next_filter_id (Z.of_nat (filters (e :: es) + filters done_)) w)
      else Panic) as Hstep.
    { intros layer w' -> Hn H64' Hw'.
      change (layered_subscriber _ _ _ _) with (stack (e :: done_)). rewrite IH by done.
      replace (filters es + filters (e :: done_))%nat with (filters (e :: es) + filters done_)%nat
        by (destruct e; simpl; lia).
      case_decide; [|done]. by rewrite Hw'. }
    destruct e as [x| |x f]; cbn [with_layers unattached]; unfold with_layer, plain, with_filter;
      mred; [by apply Hstep..|].
    rewrite stack_register_filter. unfold Registry.register_filter. mred. rewrite Hw.
    unfold FilterId.new. destruct (Z.ltb_spec (Z.of_nat (filters done_)) 64) as [Hlt|Hge]; cbn.
    + apply Hstep; [done|cbn; lia|cbn; lia|done].
    + rewrite decide_False; [done|]. lia.
Qed.

(** ** The state of the filters during a pass

    [fs X c]: the filters of [X] have disabled the span or event, and [c] of the
    filters have not yet been told what to do with it. *)
Definition fs (X : gset Z) (c : nat) : FilterState := {|
  enabled_ := map_of X; interest_ := None;
  in_filter_pass := if debug_assertions then c else 0; in_interest_pass := 0;
|}.

Definition at_pass (X : gset Z) (c : nat) (w : World) : World := with_filtering (fs X c) w.

Lemma fs_new : fs ∅ 0 = FilterState.new.
Proof. unfold fs, FilterState.new. rewrite map_of_empty. by destruct debug_assertions. Qed.

Lemma at_pass_twice X c Y d w : at_pass X c (at_pass Y d w) = at_pass X c w.
Proof. done. Qed.

Lemma pass_assert (X : gset Z) (c : nat) :
  (c = 0%nat -> X = ∅) ->
  FilterState.debug_assert debug_assertions
    (negb (in_filter_pass (fs X c) =? 0)%nat || bool_decide (enabled_ (fs X c) = FilterMap.new))
  = Done tt.
Proof.
  intros H. unfold FilterState.debug_assert. cbn. destruct debug_assertions; [|done].
  destruct c as [|c]; [|done]. rewrite H by done. by rewrite bool_decide_true.
Qed.

Lemma fs_set X c i b :
  X ⊆ all_filters -> 0 <= i < 64 -> (c = 0%nat -> X = ∅) ->
  FilterState.set debug_assertions (fid i) b (fs X c) =
  Done (fs (if (b : bool) then X ∖ {[ i ]} else X ∪ {[ i ]}) (S c)).
Proof.
  intros HX Hi Hc. unfold FilterState.set. rewrite pass_assert by done. mred.
  cbn [enabled_ fs]. unfold FilterState.debug_assert, FilterState.when_debug.
  destruct debug_assertions eqn:D; cbn; rewrite set_map_of by done; unfold fs; rewrite D.
  - unfold FilterState.set_enabled, FilterState.set_filter_pass. cbn. by rewrite Nat.add_1_r.
  - done.
Qed.

Lemma filtered_id_fid i w : 0 <= i < 64 -> filtered_id (fid i) w = Done (fid i, w).
Proof.
  intros Hi. unfold filtered_id. rewrite fid_not_disabled by done.
  unfold FilterState.debug_assert. mred. by destruct debug_assertions.
Qed.

(** [FilterState::did_enable] in the middle of a pass. *)
Lemma did_enable_pass X c i f g w :
  X ⊆ all_filters -> 0 <= i < 64 -> ((c <= 1)%nat -> X ∖ {[ i ]} = ∅) ->
  (forall w, f w = Done (tt, with_user (g (user w)) w)) ->
  filtered_did_enable (fid i) f (at_pass X c w) =
  Done (tt, with_user (if decide (i ∈ X) then user w else g (user w))
              (at_pass (X ∖ {[ i ]}) (pred c) w)).
Proof.
  intros HX Hi Hc Hf. unfold filtered_did_enable. mred. rewrite filtered_id_fid by done.
  unfold did_enable. mred. unfold FilterState.did_enable_before. cbn [filtering at_pass with_filtering enabled_ fs].
  rewrite is_enabled_map_of by done.
  assert (forall u, with_filter_state (FilterState.did_enable_after debug_assertions)
    (with_user u (at_pass (X ∖ {[ i ]}) c w)) =
    Done (tt, with_user u (at_pass (X ∖ {[ i ]}) (pred c) w))) as Hafter.
  { intros u. unfold with_filter_state, FilterState.did_enable_after. mred.
    unfold FilterState.debug_assert, FilterState.when_debug. cbn.
    destruct debug_assertions eqn:D; cbn; rewrite ?D; cbn.
    - destruct (c <=? 1)%nat eqn:Hle; cbn.
      + apply Nat.leb_le in Hle. rewrite Hc by done. rewrite map_of_empty. cbn.
        unfold at_pass, fs, with_user, with_filtering, FilterState.set_filter_pass. cbn.
        rewrite D. by rewrite map_of_empty.
      + unfold at_pass, fs, with_user, with_filtering, FilterState.set_filter_pass. cbn. by rewrite D.
    - unfold at_pass, fs, with_user, with_filtering. cbn. by rewrite D. }
  destruct (decide (i ∈ X)) as [Hin|Hin].
  - rewrite bool_decide_false by tauto. cbn. rewrite set_map_of by done.
    apply (Hafter (user w)).
  - rewrite bool_decide_true by done. cbn. rewrite Hf.
    rewrite <- (Hafter (g (user w))).
    replace (X ∖ {[ i ]}) with X; [done|]. apply set_eq. intros j.
    rewrite elem_of_difference, elem_of_singleton. split; [|tauto]. intros; split; [done|].
    by intros ->.
Qed.

(** ** What a pass does, by the entries of the stack *)

(** No layer disables the metadata globally. *)
Fixpoint globally_enabled (m : Metadata) (u : UserState) (es : list entry) : bool :=
  match es with
  | [] => true
  | Plain x :: es => leaf_enabled x m u && globally_enabled m u es
  | NoneEntry :: es => globally_enabled m u es
  | WithFilter x f :: es =>
      (if fil_enabled f m u then leaf_enabled x m u else true) && globally_enabled m u es
  end.

(** The filters that disable the metadata, and those that then reject the event. *)
Fixpoint disabled_by (m : Metadata) (u : UserState) (es : list entry) : gset Z :=
  match es with
  | [] => ∅
  | WithFilter x f :: es =>
      if fil_enabled f m u then disabled_by m u es
      else {[ Z.of_nat (filters es) ]} ∪ disabled_by m u es
  | _ :: es => disabled_by m u es
  end.
Fixpoint rejected_by (ev : Event) (u : UserState) (es : list entry) : gset Z :=
  match es with
  | [] => ∅
  | WithFilter x f :: es =>
      if fil_event_enabled f ev u then rejected_by ev u es
      else {[ Z.of_nat (filters es) ]} ∪ rejected_by ev u es
  | _ :: es => rejected_by ev u es
  end.

(** No layer that would get the event vetoes it; [X] are the filters that disabled its
    metadata. *)
Fixpoint no_veto (X : gset Z) (ev : Event) (u : UserState) (es : list entry) : bool :=
  match es with
  | [] => true
  | Plain x :: es => leaf_event_enabled x ev u && no_veto X ev u es
  | NoneEntry :: es => no_veto X ev u es
  | WithFilter x f :: es =>
      (if bool_decide (Z.of_nat (filters es) ∉ X) && fil_event_enabled f ev u
       then leaf_event_enabled x ev u else true) && no_veto X ev u es
  end.

(** The callbacks of an event and of a new span, innermost first. *)
Fixpoint notify_event (X : gset Z) (ev : Event) (u : UserState) (es : list entry) : UserState :=
  match es with
  | [] => u
  | Plain x :: es => leaf_on_event x ev (notify_event X ev u es)
  | NoneEntry :: es => notify_event X ev u es
  | WithFilter x f :: es =>
      let u := notify_event X ev u es in
      if decide (Z.of_nat (filters es) ∈ X) then u else leaf_on_event x ev u
  end.
Fixpoint notify_span (X : gset Z) (attrs : Attributes) (id : Id) (u : UserState)
    (es : list entry) : UserState :=
  match es with
  | [] => u
  | Plain x :: es => leaf_on_new_span x attrs id (notify_span X attrs id u es)
  | NoneEntry :: es => notify_span X attrs id u es
  | WithFilter x f :: es =>
      let u := notify_span X attrs id u es in
      if decide (Z.of_nat (filters es) ∈ X) then u
      else leaf_on_new_span x attrs id (fil_on_new_span f attrs id u)
  end.
Fixpoint notify_enter (X : gset Z) (id : Id) (u : UserState) (es : list entry) : UserState :=
  match es with
  | [] => u
  | Plain x :: es => leaf_on_enter x id (notify_enter X id u es)
  | NoneEntry :: es => notify_enter X id u es
  | WithFilter x f :: es =>
      let u := notify_enter X id u es in
      if decide (Z.of_nat (filters es) ∈ X) then u else leaf_on_enter x id (fil_on_enter f id u)
  end.

Lemma disabled_by_below m u es : disabled_by m u es ⊆ below (filters es).
Proof.
  induction es as [|[x| |x f] es IH]; simpl; [apply empty_subseteq|done..|].
  assert (disabled_by m u es ⊆ below (S (filters es))).
  { intros i Hi%IH. rewrite elem_below in *. lia. }
  destruct (fil_enabled f m u); [done|]. apply union_least; [|done].
  intros i ->%elem_of_singleton. apply elem_below. lia.
Qed.

Lemma rejected_by_below ev u es : rejected_by ev u es ⊆ below (filters es).
Proof.
  induction es as [|[x| |x f] es IH]; simpl; [apply empty_subseteq|done..|].
  assert (rejected_by ev u es ⊆ below (S (filters es))).
  { intros i Hi%IH. rewrite elem_below in *. lia. }
  destruct (fil_event_enabled f ev u); [done|]. apply union_least; [|done].
  intros i ->%elem_of_singleton. apply elem_below. lia.
Qed.

(** The filters from [n] on. *)
Definition from (n : nat) (X : gset Z) : Prop := forall i, i ∈ X -> Z.of_nat n <= i < 64.

Lemma from_all n X : from n X -> X ⊆ all_filters.
Proof. intros H i Hi%H. apply elem_all_filters. lia. Qed.

Lemma not_all_filters n X : (n < 64)%nat -> X ⊆ below n -> X <> all_filters.
Proof.
  intros Hn HX ->. assert (63 ∈ below n) as H by (apply HX, elem_all_filters; lia).
  rewrite elem_below in H. lia.
Qed.

(** The first [enabled] pass, from the outermost layer inwards. *)
Lemma stack_enabled es X c total m w :
  Forall entry_ok es ->
  next_filter_id w = Z.of_nat total -> (total < 64)%nat ->
  (c + filters es = total)%nat -> X ⊆ below total -> from (filters es) X ->
  (c = 0%nat -> X = ∅) ->
  s_enabled (stack es) m (at_pass X c w) =
  Done (globally_enabled m (user w) es,
        if globally_enabled m (user w) es
        then at_pass (X ∪ disabled_by m (user w) es) total w else at_pass ∅ 0 w).
Proof.
  intros Hok. revert X c. induction Hok as [|e es He Hes IH]; intros X c Hn H64 Hc HX HXf Hc0.
  - simpl in Hc. rewrite Nat.add_0_r in Hc. subst c. simpl globally_enabled. cbn [disabled_by].
    rewrite union_empty_r_L. cbn [s_enabled stack registry_subscriber].
    unfold Registry.enabled, Registry.has_per_layer_filters. mred.
    cbn [next_filter_id at_pass with_filtering]. rewrite Hn.
    destruct (Z.ltb_spec 0 (Z.of_nat total)) as [Ht|Ht]; [|done].
    unfold FilterState.event_enabled. cbn [filtering at_pass with_filtering].
    rewrite pass_assert by done. mred. cbn [enabled_ fs].
    rewrite any_enabled_map_of by by eapply from_all.
    rewrite bool_decide_true by by eapply not_all_filters. done.
  - assert (forall Y d, FilterState.clear_enabled debug_assertions (fs Y d) = fs ∅ 0) as Hfs.
    { intros Y d. unfold FilterState.clear_enabled, FilterState.when_debug, fs.
      rewrite map_of_empty. by destruct debug_assertions. }
    destruct e as [x| |x f]; cbn [stack layer_of layered_subscriber s_enabled globally_enabled
      disabled_by filters] in *; mred.
    + rewrite (ok_enabled _ He). cbn [user at_pass with_filtering].
      destruct (leaf_enabled x m (user w)); [by apply IH|].
      mred. cbn [filtering at_pass with_filtering]. by rewrite Hfs.
    + cbn [option_layer l_enabled]. mred. by apply IH.
    + destruct He as [Hx Hf]. cbn [filtered_layer l_enabled]. mred.
      assert (0 <= Z.of_nat (filters es) < 64) as Hid by lia.
      rewrite filtered_id_fid by done. rewrite (okf_enabled _ Hf).
      cbn [user filtering at_pass with_filtering].
      rewrite fs_set; [|by eapply from_all|done|done].
      set (i := Z.of_nat (filters es)) in *.
      assert (i ∉ X) as HiX by (intros Hi%HXf; lia).
      destruct (fil_enabled f m (user w)) eqn:Hfe.
      * replace (X ∖ {[ i ]}) with X
          by (apply set_eq; intros j; rewrite elem_of_difference, elem_of_singleton;
              split; [intros; split; [done|by intros ->]|tauto]).
        change (with_filtering (fs X (S c)) (at_pass X c w)) with (at_pass X (S c) w).
        rewrite (ok_enabled _ Hx). cbn [user at_pass with_filtering].
        destruct (leaf_enabled x m (user w)).
        -- apply IH; try done; [lia|]. intros j Hj%HXf. lia.
        -- cbn [andb]. mred. cbn [filtering at_pass with_filtering]. by rewrite Hfs.
      * cbn [andb]. mred.
        change (with_filtering (fs ?Y (S c)) (at_pass X c w)) with (at_pass Y (S c) w).
        rewrite IH; try done; [|lia|..].
        -- by rewrite <- (assoc_L (∪)).
        -- apply union_least; [done|]. intros j ->%elem_of_singleton. apply elem_below. lia.
        -- intros j [Hj%HXf| ->%elem_of_singleton]%elem_of_union; lia.
Qed.


Lemma difference_singleton (X : gset Z) i : i ∉ X -> X ∖ {[ i ]} = X.
Proof.
  intros Hi. apply set_eq. intros j. rewrite elem_of_difference, elem_of_singleton.
  split; [tauto|]. intros; split; [done|by intros ->].
Qed.

Lemma union_singleton (X : gset Z) i : i ∈ X -> X ∪ {[ i ]} = X.
Proof.
  intros Hi. apply set_eq. intros j. rewrite elem_of_union, elem_of_singleton.
  split; [by intros [?| ->]|tauto].
Qed.

(** [FilterState::and] in the middle of a pass. *)
Lemma filtering_and_pass X c i f b w :
  X ⊆ all_filters -> 0 <= i < 64 -> f (at_pass X c w) = Done (b, at_pass X c w) ->
  filtering_and (fid i) f (at_pass X c w) =
  Done (bool_decide (i ∉ X) && b, at_pass (if (b : bool) then X else X ∪ {[ i ]}) c w).
Proof.
  intros HX Hi Hf. unfold filtering_and. mred. cbn [filtering at_pass with_filtering enabled_ fs].
  rewrite is_enabled_map_of by done.
  destruct (decide (i ∈ X)) as [Hin|Hin].
  - rewrite bool_decide_false by tauto. cbn [andb].
    cbn [filtering at_pass with_filtering]. unfold FilterState.and. rewrite set_map_of by done.
    rewrite union_singleton by done. by destruct b.
  - rewrite bool_decide_true by done. cbn [andb]. rewrite Hf.
    cbn [filtering at_pass with_filtering]. unfold FilterState.and. rewrite set_map_of by done.
    rewrite difference_singleton by done. by destruct b.
Qed.

Lemma stack_event_enabled es X D total ev w :
  Forall entry_ok es ->
  next_filter_id w = Z.of_nat total -> (total < 64)%nat ->
  (filters es <= total)%nat -> X ⊆ below total ->
  (forall i, i < Z.of_nat (filters es) -> i ∈ X <-> i ∈ D) ->
  exists Y,
    s_event_enabled (stack es) ev (at_pass X total w) =
      Done (no_veto D ev (user w) es, at_pass Y total w) /\
    (no_veto D ev (user w) es = true -> Y = X ∪ rejected_by ev (user w) es).
Proof.
  intros Hok. revert X. induction Hok as [|e es He Hes IH]; intros X Hn H64 Hle HX HD.
  - exists X. split; [|intros _; cbn [rejected_by]; by rewrite union_empty_r_L].
    cbn [s_event_enabled stack registry_subscriber no_veto].
    unfold Registry.event_enabled, Registry.has_per_layer_filters. mred.
    cbn [next_filter_id at_pass with_filtering]. rewrite Hn.
    destruct (Z.ltb_spec 0 (Z.of_nat total)) as [Ht|Ht]; [|done].
    unfold FilterState.event_enabled. cbn [filtering at_pass with_filtering].
    rewrite pass_assert by lia. mred. cbn [enabled_ fs].
    rewrite any_enabled_map_of by (etrans; [exact HX|apply below_all; lia]).
    rewrite bool_decide_true by by eapply not_all_filters. done.
  - destruct e as [x| |x f]; cbn [stack layer_of layered_subscriber s_event_enabled no_veto
      rejected_by filters] in *; mred.
    + rewrite (ok_event_enabled _ He). cbn [user at_pass with_filtering].
      destruct (leaf_event_enabled x ev (user w)); [by apply IH|].
      exists X. by split.
    + cbn [option_layer l_event_enabled]. mred. by apply IH.
    + destruct He as [Hx Hf]. cbn [filtered_layer l_event_enabled]. mred.
      assert (0 <= Z.of_nat (filters es) < 64) as Hid by lia.
      rewrite filtered_id_fid by done. set (i := Z.of_nat (filters es)) in *.
      rewrite (filtering_and_pass _ _ _ _ (fil_event_enabled f ev (user w)));
        [|etrans; [exact HX|apply below_all; lia]|done|exact (okf_event_enabled _ Hf ev _ (at_pass X total w))].
      rewrite (bool_decide_ext (i ∉ D) (i ∉ X)) by (rewrite HD by lia; done).
      set (X' := if fil_event_enabled f ev (user w) then X else X ∪ {[ i ]}).
      destruct (IH X') as (Y & HY1 & HY2); try done; [lia|..].
      { subst X'. destruct (fil_event_enabled f ev (user w)); [done|].
        apply union_least; [done|]. intros j ->%elem_of_singleton. apply elem_below. lia. }
      { intros j Hj. rewrite <- HD by lia. subst X'. destruct (fil_event_enabled _ _ _); [done|].
        rewrite elem_of_union, elem_of_singleton. split; [intros [?| ->]; [done|lia]|tauto]. }
      assert (no_veto D ev (user w) es = true ->
        Y = X ∪ (if fil_event_enabled f ev (user w) then rejected_by ev (user w) es
                 else {[ i ]} ∪ rejected_by ev (user w) es)) as HY2'.
      { intros Hv. rewrite HY2 by done. subst X'. destruct (fil_event_enabled _ _ _); [done|].
        by rewrite (assoc_L (∪)). }
      destruct (bool_decide (i ∉ X) && fil_event_enabled f ev (user w)).
      * rewrite (ok_event_enabled _ Hx). cbn [user at_pass with_filtering].
        destruct (leaf_event_enabled x ev (user w)); cbn [andb]; [by exists Y|].
        eexists. by split.
      * mred. cbn [andb]. by exists Y.
Qed.

(** The filter whose turn it is consumes its bit. *)
Lemma did_enable_next X total n f g w :
  (S n <= total)%nat -> (total <= 64)%nat -> X ⊆ below total ->
  (forall w, f w = Done (tt, with_user (g (user w)) w)) ->
  filtered_did_enable (fid (Z.of_nat n)) f (at_pass (X ∖ below n) (total - n) w) =
  Done (tt, with_user (if decide (Z.of_nat n ∈ X) then user w else g (user w))
              (at_pass (X ∖ below (S n)) (total - S n) w)).
Proof.
  intros Hle H64 HX Hf. rewrite did_enable_pass with (g := g).
  - assert (X ∖ below n ∖ {[ Z.of_nat n ]} = X ∖ below (S n)) as ->.
    { apply set_eq. intros j. rewrite !elem_of_difference, elem_of_singleton, !elem_below.
      split; intros; split_and!; try tauto; lia. }
    replace (pred (total - n)) with (total - S n)%nat by lia.
    do 3 f_equal. destruct (decide (Z.of_nat n ∈ X)) as [Hi|Hi].
    + rewrite decide_True; [done|]. rewrite elem_of_difference, elem_below. split; [done|lia].
    + rewrite decide_False; [done|]. rewrite elem_of_difference. tauto.
  - intros j [Hj _]%elem_of_difference. eapply below_all; [exact H64|]. auto.
  - lia.
  - intros Hc. apply set_eq. intros j.
    rewrite !elem_of_difference, elem_of_singleton, elem_below.
    split; [|by intros ?%elem_of_empty]. intros [[Hj Hj'] Hne]. apply HX, elem_below in Hj. lia.
  - done.
Qed.

(** Outside of a pass every filter is enabled. *)
Lemma did_enable_always n f g w :
  (n < 64)%nat -> (forall w, f w = Done (tt, with_user (g (user w)) w)) ->
  filtered_did_enable (fid (Z.of_nat n)) f (at_pass ∅ 0 w) =
  Done (tt, with_user (g (user w)) (at_pass ∅ 0 w)).
Proof.
  intros Hn Hf. rewrite did_enable_pass with (g := g); [|apply empty_subseteq|lia| |done].
  - rewrite decide_False by (by intros ?%elem_of_empty).
    by replace (∅ ∖ {[ Z.of_nat n ]} : gset Z) with (∅ : gset Z) by set_solver.
  - intros _. set_solver.
Qed.

Lemma below_none X n : X ⊆ below n -> n = 0%nat -> X = ∅.
Proof.
  intros HX ->. apply set_eq. intros j. split; [|by intros ?%elem_of_empty].
  intros Hj%HX%elem_below. lia.
Qed.

(** The callbacks of an event and of a new span, innermost first. *)
Lemma stack_event es X total ev w :
  Forall entry_ok es -> (total <= 64)%nat -> (filters es <= total)%nat -> X ⊆ below total ->
  s_event (stack es) ev (at_pass X total w) =
  Done (tt, with_user (notify_event X ev (user w) es)
              (at_pass (X ∖ below (filters es)) (total - filters es) w)).
Proof.
  intros Hok H64 Hle HX. induction Hok as [|e es He Hes IH].
  - cbn [filters notify_event]. rewrite below_zero, difference_empty_L, Nat.sub_0_r. by destruct w.
  - destruct e as [x| |x f]; cbn [stack layer_of layered_subscriber s_event notify_event
      filters] in *; mred; rewrite IH by lia.
    + by rewrite (ok_on_event _ He).
    + done.
    + destruct He as [Hx Hf]. cbn [filtered_layer l_on_event].
      change (with_user ?u (at_pass ?Y ?c w)) with (at_pass Y c (with_user u w)).
      rewrite did_enable_next with (g := fun u => leaf_on_event x ev u); [done|lia|done|done|].
      intros w'. mred. rewrite filtered_id_fid by lia. apply (ok_on_event _ Hx).
Qed.

Lemma stack_new_span es X total attrs id w w1 :
  Forall entry_ok es -> (total <= 64)%nat -> (filters es <= total)%nat -> X ⊆ below total ->
  Registry.new_span attrs (at_pass X total w) = Done (id, at_pass X total w1) ->
  s_new_span (stack es) attrs (at_pass X total w) =
  Done (id, with_user (notify_span X attrs id (user w1) es)
              (at_pass (X ∖ below (filters es)) (total - filters es) w1)).
Proof.
  intros Hok H64 Hle HX Hreg. induction Hok as [|e es He Hes IH].
  - cbn [filters notify_span]. rewrite below_zero, difference_empty_L, Nat.sub_0_r.
    cbn [stack s_new_span registry_subscriber]. rewrite Hreg. by destruct w1.
  - destruct e as [x| |x f]; cbn [stack layer_of layered_subscriber s_new_span notify_span
      filters] in *; mred; rewrite IH by lia.
    + by rewrite (ok_on_new_span _ He).
    + done.
    + destruct He as [Hx Hf]. cbn [filtered_layer l_on_new_span].
      change (with_user ?u (at_pass ?Y ?c w1)) with (at_pass Y c (with_user u w1)).
      rewrite did_enable_next with
        (g := fun u => leaf_on_new_span x attrs id (fil_on_new_span f attrs id u));
        [done|lia|done|done|].
      intros w'. mred. rewrite filtered_id_fid by lia. rewrite (okf_on_new_span _ Hf).
      by rewrite (ok_on_new_span _ Hx).
Qed.

(** A span whose callsite is always enabled is created outside of a pass. *)
Lemma stack_new_span_always es attrs id w w1 :
  Forall entry_ok es -> (filters es < 64)%nat ->
  Registry.new_span attrs (at_pass ∅ 0 w) = Done (id, at_pass ∅ 0 w1) ->
  s_new_span (stack es) attrs (at_pass ∅ 0 w) =
  Done (id, with_user (notify_span ∅ attrs id (user w1) es) (at_pass ∅ 0 w1)).
Proof.
  intros Hok H64 Hreg. induction Hok as [|e es He Hes IH].
  - cbn [stack s_new_span registry_subscriber notify_span]. rewrite Hreg. by destruct w1.
  - destruct e as [x| |x f]; cbn [stack layer_of layered_subscriber s_new_span notify_span
      filters] in *; mred; rewrite IH by lia.
    + by rewrite (ok_on_new_span _ He).
    + done.
    + destruct He as [Hx Hf]. cbn [filtered_layer l_on_new_span].
      change (with_user ?u (at_pass ?Y ?c w1)) with (at_pass Y c (with_user u w1)).
      rewrite did_enable_always with
        (g := fun u => leaf_on_new_span x attrs id (fil_on_new_span f attrs id u)).
      * by rewrite decide_False by (by intros ?%elem_of_empty).
      * lia.
      * intros w'. mred. rewrite filtered_id_fid by lia. rewrite (okf_on_new_span _ Hf).
        by rewrite (ok_on_new_span _ Hx).
Qed.


(** ** Recording an event

    [__is_enabled] of [tracing/src/lib.rs] and [Dispatch::event] of
    [tracing-core/src/dispatcher.rs], as the [event!] macro calls them with the
    interest that its callsite has cached. *)
Definition is_enabled_ (s : DynSubscriber) (meta : Metadata) (interest : Interest) : M bool :=
  if Interest.is_always interest then mret true else s_enabled s meta.

(** The check of the macros, with the interest that the callsite has cached. *)
Definition callsite_enabled (s : DynSubscriber) (meta : Metadata) (interest : Interest) : M bool :=
  if Interest.is_never interest then mret false else is_enabled_ s meta interest.

Definition dispatch_event (s : DynSubscriber) (ev : Event) : M unit :=
  enabled ← s_event_enabled s ev;
  if (enabled : bool) then s_event s ev else mret tt.

Definition record_event (s : DynSubscriber) (interest : Interest) (ev : Event) : M unit :=
  if Interest.is_never interest then mret tt
  else
    enabled ← is_enabled_ s (Event.metadata ev) interest;
    if (enabled : bool) then dispatch_event s ev else mret tt.

Lemma at_pass_quiescent w : filtering w = FilterState.new -> at_pass ∅ 0 w = w.
Proof. intros H. unfold at_pass. rewrite fs_new, <- H. by destruct w. Qed.

Lemma at_pass_user X c u w : at_pass X c (with_user u w) = with_user u (at_pass X c w).
Proof. done. Qed.

(** C5: a list-shaped stack with fewer than 64 per-layer filters records an event (from
    a callsite whose interest is [sometimes]) without panicking, also with debug
    assertions: if a layer disables its metadata globally nothing happens; otherwise,
    unless a layer vetoes the event, the event goes, innermost layer first, to every
    plain layer and to exactly those filtered layers whose filter enabled both the
    metadata and the event; and then the thread's filter state is clean again. *)
Theorem stack_event_pass (es : list entry) (ev : Event) (w : World)
    (Hok : Forall entry_ok es) (H64 : (filters es < 64)%nat)
    (Hn : next_filter_id w = Z.of_nat (filters es)) (Hq : filtering w = FilterState.new) :
  let m := Event.metadata ev in
  let D := disabled_by m (user w) es in
  let V := rejected_by ev (user w) es in
  (globally_enabled m (user w) es = false ->
     record_event (stack es) Sometimes ev w = Done (tt, w)) /\
  (globally_enabled m (user w) es = true -> no_veto D ev (user w) es = true ->
     record_event (stack es) Sometimes ev w =
     Done (tt, with_user (notify_event (D ∪ V) ev (user w) es) w)) /\
  (globally_enabled m (user w) es = true -> no_veto D ev (user w) es = false ->
     exists Y, record_event (stack es) Sometimes ev w =
               Done (tt, at_pass Y (filters es) w)).
Proof.
  intros m D V.
  pose proof (stack_enabled es ∅ 0 (filters es) m w Hok Hn H64 eq_refl (empty_subseteq _)
    ltac:(by intros i Hi%elem_of_empty) ltac:(done)) as Hen.
  rewrite at_pass_quiescent, union_empty_l_L in Hen by done. fold D in Hen.
  assert (D ⊆ below (filters es)) as HD by apply disabled_by_below.
  assert (V ⊆ below (filters es)) as HV by apply rejected_by_below.
  destruct (stack_event_enabled es D D (filters es) ev w Hok Hn H64 ltac:(lia) HD ltac:(done))
    as (Y & Hee & HY).
  unfold record_event, is_enabled_, dispatch_event. cbn [Interest.is_never Interest.is_always].
  fold m. mred. rewrite Hen. split_and!; intros Hg; rewrite Hg.
  - done.
  - intros Hv. rewrite Hee, Hv, HY by done. fold V.
    rewrite stack_event by (done || lia || by apply union_least).
    replace ((D ∪ V) ∖ below (filters es)) with (∅ : gset Z).
    + by rewrite Nat.sub_diag, at_pass_quiescent.
    + apply set_eq. intros j. rewrite elem_of_difference, elem_of_union. split;
        [by intros ?%elem_of_empty|]. intros [[Hj|Hj] Hj']; exfalso; auto.
  - intros Hv. rewrite Hee, Hv. by exists Y.
Qed.


(** ** Creating and entering a span *)

Lemma stack_looks_up es : looks_up_registry (stack es).
Proof. induction es as [|e es IH]; [done|]. exact IH. Qed.

(** The current span, as a reading of the state. *)
Definition current_of (w : World) : CurrentInner :=
  match current_spans w ≫= SpanStack.current with
  | None => CurrentNone
  | Some id =>
      match pool_get (id_to_idx id) (spans w) with
      | Some span => CurrentSpan id (metadata span)
      | None => CurrentNone
      end
  end.

Lemma current_span_reads w : Registry.current_span w = Done (current_of w, w).
Proof.
  unfold Registry.current_span, Registry.get, current_of. mred.
  destruct (current_spans w) as [st|]; cbn; [|done].
  destruct (SpanStack.current st) as [id|]; cbn; [|done]. by destruct (pool_get _ _).
Qed.

(** The parent of a new span is looked up and cloned in the pool alone. *)
Lemma new_span_parent_frame attrs s w :
  Registry.new_span_parent attrs (with_filtering s w) =
  '(parent, w0) ← Registry.new_span_parent attrs w; Done (parent, with_filtering s w0).
Proof.
  assert (forall id, Registry.clone_parent id (with_filtering s w) =
    '(parent, w0) ← Registry.clone_parent id w; Done (parent, with_filtering s w0)) as Hc.
  { intros [id|]; [|done]. cbn. unfold Registry.clone_span, Registry.get. mred. cbn.
    destruct (pool_get _ _) as [d|]; cbn; [|done]. by destruct (ref_count d =? 0). }
  unfold Registry.new_span_parent. destruct (Attributes.is_root attrs); [done|].
  destruct (Attributes.is_contextual attrs); [|apply Hc].
  mred. rewrite !current_span_reads. apply Hc.
Qed.

(** What [new_span_parent] leaves as it was. *)
Lemma new_span_parent_same attrs w parent w0 :
  Registry.new_span_parent attrs w = Done (parent, w0) -> exists p, w0 = with_spans p w.
Proof.
  assert (forall id, Registry.clone_parent id w = Done (parent, w0) -> exists p, w0 = with_spans p w) as Hc.
  { intros [id|]; cbn.
    - unfold Registry.clone_span, Registry.get. mred. cbn.
      destruct (pool_get _ _) as [d|]; cbn; [|done]. destruct (ref_count d =? 0); cbn; [done|].
      intros [= _ <-]. eauto.
    - intros [= _ <-]. exists (spans w). by destruct w. }
  unfold Registry.new_span_parent. destruct (Attributes.is_root attrs); [apply (Hc None)|].
  destruct (Attributes.is_contextual attrs); [|apply Hc].
  mred. rewrite !current_span_reads. apply Hc.
Qed.

Definition new_data (map : FilterMap.t) (attrs : Attributes) (up : option Id) (d0 : DataInner) :
    DataInner :=
  {| filter_map := map; metadata := Attributes.metadata attrs; parent := up; ref_count := 1;
     extensions := extensions d0 |}.

Lemma registry_new_span X c total attrs w up w0 k d0 :
  next_filter_id w = Z.of_nat total -> X ⊆ below total -> (c = 0%nat -> X = ∅) ->
  Registry.new_span_parent attrs w = Done (up, w0) ->
  pool_reserve (spans w0) = Some (k, d0) -> ref_count d0 = 0 ->
  Registry.new_span attrs (at_pass X c w) =
  Done (idx_to_id k,
        at_pass X c (with_spans (pool_publish k (new_data (map_of X) attrs up d0) (spans w0)) w0)).
Proof.
  intros Hn HX HX0 Hup Hk Hd. destruct (new_span_parent_same _ _ _ _ Hup) as [p Hp].
  unfold Registry.new_span. mred. unfold at_pass at 1. rewrite new_span_parent_frame, Hup. cbn.
  rewrite Hk. cbn. unfold FilterState.filter_map.
  pose proof (pass_assert X c HX0) as Ha. cbn in Ha. cbn [enabled_ fs]. cbn.
  change (in_filter_pass (fs X c)) with (if debug_assertions then c else 0%nat).
  rewrite Ha. cbn. subst w0. cbn [next_filter_id with_filtering with_spans]. rewrite Hn, Hd.
  assert (FilterState.debug_assert debug_assertions
    (bool_decide (map_of X = FilterMap.new) || (0 <? Z.of_nat total)) = Done tt) as ->.
  { unfold FilterState.debug_assert, assert. destruct debug_assertions; [|done].
    destruct total as [|total]; [|by rewrite orb_true_r].
    replace X with (∅ : gset Z); [by rewrite bool_decide_true|]. apply set_eq. intros j.
    split; [by intros ?%elem_of_empty|]. intros Hj%HX%elem_below. lia. }
  cbn. unfold FilterState.debug_assert. by destruct debug_assertions.
Qed.

(** The filter's test on a span that it can see in the registry. *)
Lemma filtered_if_enabled es X i id d f w :
  X ⊆ all_filters -> 0 <= i < 64 ->
  pool_get (id_to_idx id) (spans w) = Some d -> filter_map d = map_of X ->
  filtered_if_enabled_for (fid i) id (Context_.new (stack es)) f w =
  if decide (i ∈ X) then Done (tt, w)
  else f (Context_.with_filter (fid i) (Context_.new (stack es))) w.
Proof.
  intros HX Hi Hd HdX. unfold filtered_if_enabled_for, Context_.if_enabled_for,
    Context_.is_enabled_inner, Context_.span. mred. rewrite filtered_id_fid by done.
  cbn [Context_.new subscriber filter]. mred. rewrite lookup_span_get by apply stack_looks_up.
  rewrite Hd. cbn. unfold try_with_filter, span_is_enabled_for, Registry.is_enabled_for,
    FilterMap.is_enabled. cbn. rewrite Z.land_0_r. cbn.
  unfold span_is_enabled_for, Registry.is_enabled_for. cbn. rewrite HdX.
  change (Z.land _ _ =? 0) with (FilterMap.is_enabled (fid i) (map_of X)).
  rewrite is_enabled_map_of by done. case_bool_decide; case_decide; try done; tauto.
Qed.

Lemma stack_enter es total X id d w :
  Forall entry_ok es -> (total <= 64)%nat -> (filters es <= total)%nat -> X ⊆ below total ->
  pool_get (id_to_idx id) (spans w) = Some d -> filter_map d = map_of X ->
  s_enter (stack es) id w =
  '(_, w1) ← Registry.enter id w; Done (tt, with_user (notify_enter X id (user w) es) w1).
Proof.
  intros Hok H64 Hle HX Hd HdX. induction Hok as [|e es He Hes IH]; [by destruct w|].
  cbn [filters] in *.
  destruct e as [x| |x f]; cbn [stack layer_of layered_subscriber s_enter notify_enter] in *;
    mred; rewrite IH by lia; cbn.
  - by rewrite (ok_on_enter _ He).
  - done.
  - destruct He as [Hx Hf]. rewrite (filtered_if_enabled es X _ _ d);
      [|etrans; [exact HX|by apply below_all]|lia|done|done].
    case_decide; [done|]. mred. rewrite (okf_on_enter _ Hf). by rewrite (ok_on_enter _ Hx).
Qed.

(** C23: creating a span that no layer disables globally runs, innermost first, the
    [on_new_span] of every plain layer and of exactly the layers whose filter enabled
    it, leaves the thread's filter state clean, and stores in the span which filters
    disabled it; so whenever the span is entered afterwards (on any thread, whatever
    happened in between), [on_enter] goes to exactly the same layers. *)
Theorem stack_span_pass (es : list entry) (attrs : Attributes) (w : World)
    (up : option Id) (w0 : World) (k : Z) (d0 : DataInner) `{!PoolLaws default_data P}
    (Hok : Forall entry_ok es) (H64 : (filters es < 64)%nat)
    (Hn : next_filter_id w = Z.of_nat (filters es)) (Hq : filtering w = FilterState.new)
    (Hg : globally_enabled (Attributes.metadata attrs) (user w) es = true)
    (Hup : Registry.new_span_parent attrs w = Done (up, w0))
    (Hk : pool_reserve (spans w0) = Some (k, d0)) (Hd0 : ref_count d0 = 0) :
  let D := disabled_by (Attributes.metadata attrs) (user w) es in
  let id := idx_to_id k in
  exists w1 w2,
    s_enabled (stack es) (Attributes.metadata attrs) w = Done (true, w1) /\
    s_new_span (stack es) attrs w1 = Done (id, w2) /\
    filtering w2 = FilterState.new /\
    user w2 = notify_span D attrs id (user w) es /\
    pool_get k (spans w2) = Some (new_data (map_of D) attrs up d0) /\
    (forall w3 d, pool_get k (spans w3) = Some d -> filter_map d = map_of D ->
       exists w4, s_enter (stack es) id w3 = Done (tt, w4) /\
         user w4 = notify_enter D id (user w3) es).
Proof.
  intros D id.
  assert (D ⊆ below (filters es)) as HD by apply disabled_by_below.
  destruct (new_span_parent_same _ _ _ _ Hup) as [p Hp].
  pose proof (stack_enabled es ∅ 0 (filters es) (Attributes.metadata attrs) w Hok Hn H64 eq_refl (empty_subseteq _)
    ltac:(by intros i Hi%elem_of_empty) ltac:(done)) as Hen.
  rewrite Hg, at_pass_quiescent, union_empty_l_L in Hen by done. fold D in Hen.
  pose proof (registry_new_span D (filters es) (filters es) attrs w up w0 k d0 Hn HD
    (below_none _ _ HD) Hup Hk Hd0) as Hreg.
  eexists _, _. split; [exact Hen|]. split.
  { apply stack_new_span; [done|lia|lia|done|exact Hreg]. }
  replace (D ∖ below (filters es)) with (∅ : gset Z).
  2:{ apply set_eq. intros j. rewrite elem_of_difference. split; [by intros ?%elem_of_empty|].
      intros [Hj Hj']; exfalso; auto. }
  rewrite Nat.sub_diag. subst w0. cbn. rewrite fs_new. split_and!; try done.
  - erewrite pool_get_publish by exact Hk. by rewrite decide_True.
  - intros w3 d Hd HdD.
    assert (id_to_idx id = k) as Hidk.
    { destruct (pool_reserve_fresh _ _ _ Hk). unfold id, id_to_idx, idx_to_id. cbn. lia. }
    eexists. split; [|].
    + apply (stack_enter es (filters es) D id d); rewrite ?Hidk; done || lia.
    + done.
Qed.


(** ** The cached interest of a stack *)

(** The contracts of the parts; a layer below a filter does not filter globally. *)
Record leaf_contract (x : leaf) : Prop := {
  lc_never m u : leaf_interest x m = Never -> leaf_enabled x m u = false;
  lc_always m u : leaf_interest x m = Always -> leaf_enabled x m u = true;
  lc_hint m u h :
    l_max_level_hint (leaf_layer x) = Some h -> leaf_enabled x m u = true ->
    LevelFilter.ge_level h (Metadata.level m) = true;
}.
Record fil_contract (f : fil) : Prop := {
  fc_never m u : fil_interest f m = Never -> fil_enabled f m u = false;
  fc_always m u : fil_interest f m = Always -> fil_enabled f m u = true;
  fc_hint m u h :
    f_max_level_hint (fil_filter f) = Some h -> fil_enabled f m u = true ->
    LevelFilter.ge_level h (Metadata.level m) = true;
}.
Definition entry_contract (e : entry) : Prop :=
  match e with
  | Plain x => leaf_contract x
  | NoneEntry => True
  | WithFilter x f => fil_contract f /\ forall m u, leaf_enabled x m u = true
  end.

(** Some layer wants to see the metadata. *)
Fixpoint wanted (m : Metadata) (u : UserState) (es : list entry) : bool :=
  match es with
  | [] => false
  | Plain _ :: _ => true
  | NoneEntry :: es => wanted m u es
  | WithFilter x f :: es => fil_enabled f m u || wanted m u es
  end.

(** [is acc c]: [c] filters have added their interests, whose sum is [acc]. *)
Definition is_ (acc : option Interest) (c : nat) : FilterState := {|
  enabled_ := FilterMap.new; interest_ := acc; in_filter_pass := 0;
  in_interest_pass := if debug_assertions then c else 0;
|}.
Definition at_reg (acc : option Interest) (c : nat) (w : World) : World :=
  with_filtering (is_ acc c) w.

Lemma is_new : is_ None 0 = FilterState.new.
Proof. unfold is_, FilterState.new. by destruct debug_assertions. Qed.

Definition add_to (acc : option Interest) (i : Interest) : option Interest :=
  Some (match acc with None => i | Some a => Interest.and a i end).

Lemma add_interest_is acc c i :
  (c = 0%nat -> acc = None) ->
  FilterState.add_interest debug_assertions i (is_ acc c) = Done (is_ (add_to acc i) (S c)).
Proof.
  intros Hc. unfold FilterState.add_interest, FilterState.debug_assert, FilterState.when_debug, is_.
  destruct debug_assertions; cbn.
  - destruct c as [|c]; [rewrite Hc by done|]; cbn.
    + done.
    + rewrite Nat.add_1_r. by destruct acc as [[]|], i.
  - by destruct acc as [[]|], i.
Qed.

Lemma take_interest_is acc c :
  (c = 0%nat -> acc = None) ->
  FilterState.take_interest debug_assertions (is_ acc c) = Done (acc, is_ None 0).
Proof.
  intros Hc. unfold FilterState.take_interest, FilterState.debug_assert,
    FilterState.when_debug, is_.
  destruct debug_assertions; cbn; [|done]. destruct c as [|c]; [by rewrite Hc|done].
Qed.

Definition has_filters (es : list entry) : bool := (0 <? filters es)%nat.
Definition has_none (es : list entry) : bool :=
  existsb (fun e => match e with NoneEntry => true | _ => false end) es.

Lemma stack_flags es :
  Forall entry_ok es ->
  s_is_registry (stack es) = bool_decide (es = []) /\
  s_has_plf (stack es) = has_filters es /\ s_is_none (stack es) = has_none es.
Proof.
  intros Hok. induction Hok as [|e es He Hes (IH1 & IH2 & IH3)]; [done|].
  destruct e as [x| |x f]; cbn; rewrite ?IH2, ?IH3; [|done|].
  - by rewrite (ok_not_plf _ He), (ok_not_none _ He).
  - destruct He as [Hx _]. by rewrite (ok_not_none _ Hx).
Qed.

(** The interest that the layers pick. *)
Fixpoint picked (total : nat) (m : Metadata) (acc : option Interest) (es : list entry) : Interest :=
  match es with
  | [] => if (0 <? total)%nat then default Always acc else Always
  | WithFilter x f :: es => picked total m (add_to acc (fil_interest f m)) es
  | e :: es =>
      match (match e with Plain x => leaf_interest x m | _ => Always end) with
      | Always =>
          let inner := picked total m acc es in
          if bool_decide (inner = Never) && (has_filters es || bool_decide (es = []))
          then Sometimes else inner
      | i => i
      end
  end.

Lemma pick_interest_picked flags layer_interest total m acc es e (Hok : Forall entry_ok es) c w u
    (Hinner : exists u', s_register_callsite (stack es) m (at_reg acc c (with_user u w)) =
       Done (picked total m acc es, at_reg None 0 (with_user u' w))) :
  (c = 0%nat -> acc = None) ->
  has_layer_filter flags = false ->
  inner_has_layer_filter flags = has_filters es || bool_decide (es = []) ->
  layer_interest = (match e with Plain x => leaf_interest x m | _ => Always end) ->
  (match e with WithFilter _ _ => False | _ => True end) ->
  exists u', pick_interest flags layer_interest (s_register_callsite (stack es) m)
      (at_reg acc c (with_user u w)) =
    Done (picked total m acc (e :: es), at_reg None 0 (with_user u' w)).
Proof.
  intros Hc Hf Hi -> He. destruct Hinner as [u' Hinner]. unfold pick_interest. rewrite Hf.
  destruct e as [x| |x f]; [| |done]; cbn [picked].
  - destruct (leaf_interest x m); cbn [Interest.is_never Interest.is_sometimes].
    + exists u. mred. cbn [filtering at_reg with_filtering]. by rewrite take_interest_is.
    + exists u'. mred. by rewrite Hinner.
    + exists u'. mred. rewrite Hinner, Hi. by destruct (picked total m acc es); cbn; case_match.
  - cbn [Interest.is_never Interest.is_sometimes]. exists u'. mred. rewrite Hinner, Hi.
    by destruct (picked total m acc es); cbn; case_match.
Qed.

Lemma stack_register es m total acc c w :
  Forall entry_ok es -> next_filter_id w = Z.of_nat total -> (c + filters es = total)%nat ->
  (c = 0%nat -> acc = None) ->
  exists u, s_register_callsite (stack es) m (at_reg acc c w) =
    Done (picked total m acc es, at_reg None 0 (with_user u w)).
Proof.
  intros Hok. revert acc c w. induction Hok as [|e es He Hes IH]; intros acc c w Hn Hc Hacc.
  - exists (user w). cbn [stack s_register_callsite registry_subscriber picked].
    unfold Registry.register_callsite, Registry.has_per_layer_filters. mred.
    cbn [next_filter_id at_reg with_filtering]. rewrite Hn. cbn [filters] in Hc.
    destruct total as [|total].
    + rewrite Hacc by lia. assert (c = 0%nat) as -> by lia. by destruct w.
    + change (0 <? Z.of_nat (S total)) with true. cbn [filtering at_reg with_filtering].
      rewrite take_interest_is by done. by destruct w.
  - destruct (stack_flags es Hes) as (Hreg & Hplf & _).
    destruct e as [x| |x f]; cbn [stack layer_of layered_subscriber s_register_callsite filters] in *.
    + destruct (ok_interest _ He m (at_reg acc c w)) as [u Hu]. mred. rewrite Hu.
      apply (pick_interest_picked _ _ total m acc es (Plain x) Hes c w u); try done.
      * destruct (IH acc c (with_user u w)) as [u' ->]; [done..|]. by exists u'.
      * cbn. apply (ok_not_plf _ He).
      * cbn. by rewrite Hreg, Hplf.
    + mred. cbn [option_layer l_register_callsite]. mred.
      apply (pick_interest_picked _ _ total m acc es NoneEntry Hes c w (user w)); try done.
      * destruct (IH acc c (with_user (user w) w)) as [u' ->]; [done..|]. by exists u'.
      * cbn. by rewrite Hreg, Hplf.
    + destruct He as [Hx Hf]. cbn [filtered_layer l_register_callsite].
      destruct (okf_interest _ Hf m (at_reg acc c w)) as [u Hu]. mred. rewrite Hu.
      assert (exists u', (if negb (Interest.is_never (fil_interest f m))
         then (_ ← l_register_callsite (leaf_layer x) m; mret tt) else (mret tt : M unit))
         (with_user u (at_reg acc c w)) = Done (tt, with_user u' (at_reg acc c w))) as [u' Hu'].
      { destruct (Interest.is_never (fil_interest f m)); cbn; [by exists u|].
        destruct (ok_interest _ Hx m (with_user u (at_reg acc c w))) as [u' Hu'].
        exists u'. mred. by rewrite Hu'. }
      revert Hu'. mred. intros ->. cbn [filtering with_user at_reg with_filtering].
      rewrite add_interest_is by done. unfold pick_interest. cbn [has_layer_filter layered_new l_has_plf].
      destruct (IH (add_to acc (fil_interest f m)) (S c) (with_user u' w)) as [u2 IH2];
        [done|lia|done|].
      exists u2. exact IH2.
Qed.

Section soundness.
Context (total : nat) (m : Metadata).

Lemma picked_always es acc :
  Forall entry_contract es -> (filters es <= total)%nat ->
  picked total m acc es = Always ->
  (forall u, globally_enabled m u es = true /\ disabled_by m u es = ∅) /\
  (total = 0%nat \/ acc = None \/ acc = Some Always).
Proof using Type.
  intros Hc. revert acc. induction Hc as [|e es He Hes IH]; intros acc Hle.
  - intros Hp. split; [done|]. cbn in Hp. destruct total; [by left|]. right.
    destruct acc as [[]|]; cbn in Hp; auto; discriminate Hp.
  - destruct e as [x| |x f]; cbn [picked filters globally_enabled disabled_by] in *.
    + destruct (leaf_interest x m) eqn:Hi; [done..|]. intros Hp.
      case_match; [done|]. destruct (IH acc Hle Hp) as [H1 H2]. split; [|done].
      intros u. rewrite (lc_always _ He m u Hi). apply H1.
    + intros Hp. case_match; [done|]. auto.
    + intros Hp. destruct He as [Hf Hx]. destruct (IH _ ltac:(lia) Hp) as [H1 H2].
      assert (fil_interest f m = Always /\ (acc = None \/ acc = Some Always)) as [Hi Hacc].
      { destruct H2 as [->|[|[= Ha]]]; [lia|done|]. unfold add_to in Ha.
        destruct acc as [[]|], (fil_interest f m); auto; discriminate Ha. }
      split; [|auto]. intros u. rewrite (fc_always _ Hf m u Hi), Hx. apply H1.
Qed.

Lemma not_weakened (i : Interest) (es : list entry) :
  bool_decide (i = Never) && (has_filters es || bool_decide (es = [])) = false -> i = Never ->
  filters es = 0%nat /\ es <> [].
Proof using Type.
  intros Hb ->. rewrite bool_decide_true in Hb by done. apply orb_false_iff in Hb as [Hf He].
  apply bool_decide_eq_false in He. apply Nat.ltb_ge in Hf. split; [lia|done].
Qed.

Lemma picked_never_plain es acc :
  Forall entry_contract es -> filters es = 0%nat -> es <> [] ->
  picked total m acc es = Never -> forall u, globally_enabled m u es = false.
Proof using Type.
  intros Hc. induction Hc as [|e es He Hes IH]; intros Hf Hne Hp u; [done|].
  destruct e as [x| |x f]; cbn [picked filters globally_enabled] in *; [| |lia].
  - destruct (leaf_interest x m) eqn:Hi; [by rewrite (lc_never _ He m u Hi)|done|].
    case_match eqn:Hb; [done|]. destruct (not_weakened _ _ Hb Hp). rewrite IH by done.
    apply andb_false_r.
  - case_match eqn:Hb; [done|]. destruct (not_weakened _ _ Hb Hp). by rewrite IH.
Qed.

Lemma picked_never es acc :
  Forall entry_contract es ->
  picked total m acc es = Never ->
  (forall u, globally_enabled m u es = false) \/
  ((forall u, wanted m u es = false) /\ (acc = None \/ acc = Some Never)).
Proof using Type.
  intros Hc. revert acc. induction Hc as [|e es He Hes IH]; intros acc.
  - cbn [picked]. intros Hp. destruct (0 <? total)%nat; [|discriminate Hp]. right.
    split; [done|]. destruct acc as [[]|]; cbn in Hp; auto; discriminate Hp.
  - destruct e as [x| |x f]; cbn [picked globally_enabled wanted] in *.
    + intros Hp. destruct (leaf_interest x m) eqn:Hi; [|discriminate Hp|].
      * left. intros u. by rewrite (lc_never _ He m u Hi).
      * case_match eqn:Hb; [done|]. left. intros u.
        destruct (not_weakened _ _ Hb Hp).
        erewrite picked_never_plain; [apply andb_false_r|done..].
    + intros Hp. case_match eqn:Hb; [done|]. auto.
    + intros Hp. destruct He as [Hf Hx]. destruct (IH _ Hp) as [Hg|[Hw Ha]].
      * left. intros u. rewrite Hg. apply andb_false_r.
      * unfold add_to in Ha. destruct Ha as [Ha|Ha]; [discriminate Ha|]. injection Ha as Ha.
        assert (fil_interest f m = Never /\ (acc = None \/ acc = Some Never)) as [Hi Hacc].
        { destruct acc as [[]|], (fil_interest f m); auto; discriminate Ha. }
        right. split; [|done]. intros u. by rewrite (fc_never _ Hf m u Hi), Hw.
Qed.

End soundness.


Lemma at_reg_quiescent w : filtering w = FilterState.new -> at_reg None 0 w = w.
Proof. intros H. unfold at_reg. rewrite is_new, <- H. by destruct w. Qed.

(** C26: registering a callsite with a list-shaped stack whose parts keep their
    contracts does not panic, leaves the filter state clean, and returns an interest
    that may be cached: [never] only if from then on no layer would get anything from
    the callsite (it is globally disabled, or every layer has a filter that disables
    it), [always] only if it is globally enabled and no filter disables it, so that
    skipping the [enabled] pass is right. *)
Theorem stack_interest_sound (es : list entry) (m : Metadata) (w : World)
    (Hok : Forall entry_ok es) (Hc : Forall entry_contract es)
    (Hn : next_filter_id w = Z.of_nat (filters es)) (Hq : filtering w = FilterState.new) :
  exists interest u,
    s_register_callsite (stack es) m w = Done (interest, with_user u w) /\
    (interest = Never -> forall u', globally_enabled m u' es && wanted m u' es = false) /\
    (interest = Always -> forall u', globally_enabled m u' es = true /\ disabled_by m u' es = ∅).
Proof.
  destruct (stack_register es m (filters es) None 0 w Hok Hn eq_refl ltac:(done)) as [u Hu].
  rewrite !at_reg_quiescent in Hu by done. exists (picked (filters es) m None es), u.
  split_and!; [exact Hu|..].
  - intros Hp u'. destruct (picked_never _ _ _ _ Hc Hp) as [Hg|[Hw _]].
    + by rewrite Hg.
    + rewrite Hw. apply andb_false_r.
  - intros Hp. by apply (picked_always (filters es) m es None).
Qed.

(** ** The maximum level of a stack *)

(** [le_hint m h]: the level of [m] is within the hint. *)
Definition le_hint (m : Metadata) (h : option LevelFilter.t) : Prop :=
  forall l, h = Some l -> LevelFilter.ge_level l (Metadata.level m) = true.

Lemma le_hint_max_l m (a b : LevelFilter.t) : le_hint m (Some a) -> le_hint m (Some (ord_max a b)).
Proof.
  intros H l [= <-]. specialize (H a eq_refl). rewrite ge_level_rank, Z.leb_le in *.
  rewrite ord_max_rank. lia.
Qed.
Lemma le_hint_max_r m (a b : LevelFilter.t) : le_hint m (Some b) -> le_hint m (Some (ord_max a b)).
Proof.
  intros H l [= <-]. specialize (H b eq_refl). rewrite ge_level_rank, Z.leb_le in *.
  rewrite ord_max_rank. lia.
Qed.
Lemma not_le_off m : ~ le_hint m (Some LevelFilter.OFF).
Proof. intros H. specialize (H _ eq_refl). by destruct (Metadata.level m) as [[]]. Qed.

(** [max] on optional hints is the defined one of them, or the larger. *)
Lemma ord_max_hints (a b : option LevelFilter.t) :
  ord_max a b =
  match a, b with
  | Some x, Some y => Some (ord_max x y)
  | Some x, None => Some x
  | None, b => b
  end.
Proof.
  destruct a as [x|], b as [y|]; try done. unfold ord_max at 1. cbn.
  unfold ord_max. by destruct (cmp x y).
Qed.

Lemma le_hint_ord_max m (a b : option LevelFilter.t) :
  (a <> None -> le_hint m a) -> (a = None -> le_hint m b) -> le_hint m (ord_max a b).
Proof.
  intros Ha Hb. rewrite ord_max_hints. destruct a as [x|]; [|by apply Hb].
  destruct b as [y|]; [by apply le_hint_max_l, Ha|by apply Ha].
Qed.

Lemma le_hint_ord_max_r m (a b : option LevelFilter.t) :
  le_hint m b -> b <> None -> le_hint m (ord_max a b).
Proof.
  intros Hb Hne. rewrite ord_max_hints. destruct a as [x|]; [|done].
  destruct b as [y|]; [by apply le_hint_max_r|done].
Qed.

Section hint.
Context (m : Metadata) (u : UserState).

(** Without filters, what is globally enabled is within the hint, unless the hint is
    the [OFF] of the [None] layers. *)
Lemma plain_hint es :
  Forall entry_ok es -> Forall entry_contract es -> filters es = 0%nat -> es <> [] ->
  globally_enabled m u es = true ->
  le_hint m (s_max_level_hint (stack es)) \/
  s_max_level_hint (stack es) = Some LevelFilter.OFF /\ has_none es = true.
Proof using Type.
  intros Hok Hc. revert Hok. induction Hc as [|e es He Hes IH]; intros Hok Hf Hne Hg; [done|].
  apply Forall_cons in Hok as [Hoke Hoks].
  destruct (stack_flags es Hoks) as (Hreg & Hplf & Hnone).
  destruct es as [|e' es'].
  { destruct e as [x| |x f]; cbn in *; [|by right|done]. left. intros h Hh.
    rewrite andb_true_r in Hg. by apply (lc_hint _ He m u). }
  set (es := e' :: es') in *.
  assert (bool_decide (es = []) = false) as Hn by by apply bool_decide_eq_false.
  assert (has_filters es = false) as Hhf.
  { apply Nat.ltb_ge. destruct e; cbn [filters] in Hf; lia. }
  destruct e as [x| |x f]; [| |done]; cbn [stack layer_of layered_subscriber s_max_level_hint
    globally_enabled filters has_none existsb] in *; unfold pick_level_hint;
    cbn [layered_new inner_is_registry has_layer_filter inner_has_layer_filter];
    rewrite ?Hreg, ?Hplf, ?Hnone, Hn, Hhf; cbn [andb orb].
  - apply andb_true_iff in Hg as [Hx Hg]. rewrite (ok_not_plf _ Hoke), (ok_not_none _ Hoke).
    cbn [andb orb]. assert (le_hint m (l_max_level_hint (leaf_layer x))) as Hlx.
    { intros h Hh. by apply (lc_hint _ He m u). }
    destruct (IH Hoks Hf ltac:(done) Hg) as [Hi|[Hi1 Hi2]].
    + left. case_match; [done|]. by apply le_hint_ord_max.
    + change (existsb _ es) with (has_none es). rewrite Hi1, Hi2. cbn [andb].
      rewrite bool_decide_true by done. by left.
  - change (l_max_level_hint (option_layer None)) with (Some LevelFilter.OFF).
    change (l_is_none (option_layer None)) with true. cbn [andb].
    destruct (s_max_level_hint (stack es)) as [h|] eqn:Hh; cbn; [|by left].
    destruct (IH Hoks Hf ltac:(done) Hg) as [Hi|[Hi1 Hi2]].
    + left. rewrite ord_max_hints. by apply le_hint_max_r.
    + right. split; [|done]. by simplify_eq.
Qed.

Lemma wanted_hint es :
  Forall entry_ok es -> Forall entry_contract es ->
  globally_enabled m u es = true -> wanted m u es = true ->
  le_hint m (s_max_level_hint (stack es)).
Proof using Type.
  intros Hok Hc. revert Hok. induction Hc as [|e es He Hes IH]; intros Hok Hg Hw; [done|].
  apply Forall_cons in Hok as [Hoke Hoks].
  destruct (stack_flags es Hoks) as (Hreg & Hplf & Hnone).
  destruct e as [x| |x f]; cbn [globally_enabled wanted] in Hg, Hw.
  - apply andb_true_iff in Hg as [Hx Hg].
    assert (le_hint m (l_max_level_hint (leaf_layer x))) as Hlx.
    { intros h Hh. by apply (lc_hint _ He m u). }
    cbn [stack layer_of layered_subscriber s_max_level_hint]. unfold pick_level_hint.
    cbn [layered_new inner_is_registry has_layer_filter inner_has_layer_filter].
    rewrite Hreg, Hplf, Hnone, (ok_not_plf _ Hoke), (ok_not_none _ Hoke). cbn [andb].
    destruct (decide (es = [])) as [->|Hne]; [done|].
    rewrite (bool_decide_false (es = [])) by done. rewrite orb_false_r.
    destruct (has_filters es) eqn:Hhf; cbn [andb].
    + destruct (decide (l_max_level_hint (leaf_layer x) = None)) as [Ho|Ho];
        [by rewrite bool_decide_true|rewrite bool_decide_false by done].
      case_match; [done|]. by apply le_hint_ord_max.
    + case_match eqn:Hb; [done|]. apply le_hint_ord_max; [done|]. intros Ho.
      destruct (plain_hint es Hoks Hes) as [Hi|[Hi1 Hi2]]; try done.
      { apply Nat.ltb_ge in Hhf. lia. }
      rewrite Hi1, Hi2 in Hb. by rewrite bool_decide_true in Hb.
  - specialize (IH Hoks Hg Hw).
    cbn [stack layer_of layered_subscriber s_max_level_hint]. unfold pick_level_hint.
    cbn [layered_new inner_is_registry has_layer_filter inner_has_layer_filter].
    change (l_max_level_hint (option_layer None)) with (Some LevelFilter.OFF).
    change (l_is_none (option_layer None)) with true.
    change (l_has_plf (option_layer None)) with false. rewrite Hreg, Hplf. cbn [andb].
    destruct (decide (es = [])) as [->|Hne]; [done|].
    rewrite (bool_decide_false (es = [])) by done.
    rewrite (bool_decide_false (Some LevelFilter.OFF = None)) by done. rewrite andb_false_r.
    destruct (s_max_level_hint (stack es)) as [h|]; [|done]. cbn.
    by apply le_hint_ord_max_r.
  - apply andb_true_iff in Hg as [Hx Hg]. destruct Hoke as [Hokx Hokf], He as [Hf Hcx].
    cbn [stack layer_of layered_subscriber s_max_level_hint]. unfold pick_level_hint.
    cbn [layered_new inner_is_registry has_layer_filter inner_has_layer_filter
      filtered_layer l_max_level_hint l_has_plf l_is_none].
    rewrite Hreg, Hplf, Hnone, (ok_not_none _ Hokx). cbn [andb].
    assert (fil_enabled f m u = true -> le_hint m (f_max_level_hint (fil_filter f))) as Hlf.
    { intros Hen h Hh. by apply (fc_hint _ Hf m u). }
    destruct (decide (es = [])) as [->|Hne].
    { cbn in Hw. rewrite orb_false_r in Hw. by apply Hlf. }
    rewrite (bool_decide_false (es = [])) by done. rewrite orb_false_r.
    assert (wanted m u es = true -> le_hint m (s_max_level_hint (stack es))) as Hlr by auto.
    destruct (has_filters es) eqn:Hhf; cbn [andb].
    + destruct (f_max_level_hint (fil_filter f)) as [a|]; [|done]. cbn.
      destruct (s_max_level_hint (stack es)) as [b|]; [|done]. cbn.
      apply orb_true_iff in Hw as [Hw|Hw]; [by apply le_hint_max_l, Hlf|by apply le_hint_max_r, Hlr].
    + destruct (decide (s_max_level_hint (stack es) = None)) as [Hin|Hin];
        [by rewrite bool_decide_true|rewrite (bool_decide_false (_ = None)) by done].
      destruct (has_none es && _) eqn:Hb.
      * apply andb_true_iff in Hb as [Hb1 Hb2%bool_decide_eq_true].
        apply orb_true_iff in Hw as [Hw|Hw]; [by apply Hlf|].
        specialize (Hlr Hw). rewrite Hb2 in Hlr. by apply not_le_off in Hlr.
      * destruct (plain_hint es Hoks Hes) as [Hi|[Hi1 Hi2]]; try done.
        { apply Nat.ltb_ge in Hhf. lia. }
        -- by apply le_hint_ord_max_r.
        -- rewrite Hi1, Hi2 in Hb. by rewrite bool_decide_true in Hb.
Qed.

End hint.

(** The maximum level that a list-shaped stack reports is right for every way of
    mixing plain layers, [None] layers and filtered layers: whatever is globally
    enabled and wanted by some layer (by any plain layer, or by a layer whose filter
    enables it) has a level within the hint, so dropping everything above the hint
    loses nothing. *)
Theorem stack_hint_sound (es : list entry) (m : Metadata) (u : UserState) (hint : LevelFilter.t)
    (Hok : Forall entry_ok es) (Hc : Forall entry_contract es)
    (Hhint : s_max_level_hint (stack es) = Some hint)
    (Hg : globally_enabled m u es = true) (Hw : wanted m u es = true) :
  LevelFilter.ge_level hint (Metadata.level m) = true.
Proof. by apply (wanted_hint m u es Hok Hc Hg Hw). Qed.

End stack.

(** ** Concrete stacks *)

(** A layer that logs its callbacks under the number [n], and agrees to the events that
    satisfy [ok]. *)
Definition log (n : nat) (id : Id) : M unit :=
  modify (fun w => with_user (user w ++ [(n, id)] : list (nat * Id)) w).
Definition event_id : Id := {| id_u64 := 0 |}.

Definition spy_layer (n : nat) (ok : Event -> bool) : Layer := {|
  l_on_register_dispatch := mret tt;
  l_register_callsite _ := mret Interest.always;
  l_enabled _ _ := mret true;
  l_max_level_hint := None;
  l_on_new_span _ id _ := log n id;
  l_on_record _ _ _ := mret tt;
  l_on_follows_from _ _ _ := mret tt;
  l_event_enabled ev _ := mret (ok ev);
  l_on_event _ _ := log n event_id;
  l_on_enter id _ := log n id;
  l_on_exit _ _ := mret tt;
  l_on_close id _ := fun w =>
    match pool_get (id_to_idx id) (spans w) with
    | Some _ => log n id w
    | None => (mret tt : M unit) w
    end;
  l_on_id_change _ _ _ := mret tt;
  l_has_plf := false;
  l_is_none := false;
|}.

Definition spy (n : nat) (ok : Event -> bool) : leaf :=
  let add (id : Id) (u : list (nat * Id)) := u ++ [(n, id)] in {|
  leaf_layer := spy_layer n ok;
  leaf_enabled _ _ := true;
  leaf_event_enabled ev _ := ok ev;
  leaf_interest _ := Always;
  leaf_on_event _ := add event_id;
  leaf_on_new_span _ := add;
  leaf_on_enter := add;
  leaf_on_close id d u := match d with Some _ => add id u | None => u end;
|}.

Definition level_fil (l : LevelFilter.t) : fil := {|
  fil_filter := level_filter l;
  fil_enabled m _ := LevelFilter.level_le (Metadata.level m) l;
  fil_event_enabled _ _ := true;
  fil_interest m := if LevelFilter.level_le (Metadata.level m) l then Always else Never;
  fil_on_new_span _ _ u := u;
  fil_on_enter _ u := u;
  fil_on_close _ u := u;
|}.

Lemma with_user_same `{E : Env} {P : PoolOps DataInner} (w : World) : with_user (user w) w = w.
Proof. by destruct w. Qed.

Lemma spy_ok n ok : leaf_ok (spy n ok).
Proof.
  split; try done.
  - intros m w. exists (user w). cbn. mred. by rewrite with_user_same.
  - intros id cx w. exists (user w). cbn. mred. by rewrite with_user_same.
  - intros id cx w. cbn. destruct (live (spans w) !! id_to_idx id); [done|]. mred.
    by rewrite with_user_same.
Qed.

Lemma level_fil_ok l : fil_ok (level_fil l).
Proof.
  split; cbn; mred; intros; rewrite ?with_user_same; try done;
    exists (user w); by rewrite with_user_same.
Qed.

Lemma spy_contract n ok : leaf_contract (spy n ok).
Proof. by split. Qed.

Lemma level_fil_contract l : fil_contract (level_fil l).
Proof.
  split; cbn; intros m _.
  - by destruct (LevelFilter.level_le _ _).
  - by destruct (LevelFilter.level_le _ _).
  - intros h [= <-] Hl. by rewrite <- level_le_ge.
Qed.

Definition no_close : Id -> M bool := fun _ => mret false.

Definition event_at (level : Level.t) : Event :=
  let fields := FieldSet.new [] 1%N in
  Event.new (Metadata.new "event" "app" level None None None fields Kind.EVENT)
    (ValueSet.value_set fields []).

Definition example_stack : list entry :=
  [WithFilter (spy 3 (fun _ => true)) (level_fil LevelFilter.INFO); NoneEntry;
   Plain (spy 2 (fun _ => true));
   WithFilter (spy 1 (fun _ => true)) (level_fil LevelFilter.ERROR)].

Definition with_filters (n : Z) : World := with_next_filter_id n example_world.

(** Discharges the obligations of the entries of a concrete stack. *)
#[export] Hint Resolve spy_ok level_fil_ok spy_contract level_fil_contract : tracing.
Ltac entries :=
  repeat match goal with
  | |- Forall _ (_ :: _) => apply Forall_cons; split
  | |- Forall _ [] => apply Forall_nil; exact I
  end; cbn; auto with tracing.

Lemma example_stack_ok : Forall entry_ok example_stack.
Proof. unfold example_stack. entries. Qed.

Lemma example_stack_contract : Forall entry_contract example_stack.
Proof. unfold example_stack. entries. Qed.

Lemma stack_event_pass_witness :
  record_event (stack no_close example_stack) Sometimes (event_at Level.INFO) (with_filters 2) =
  Done (tt, with_user [(2%nat, event_id); (3%nat, event_id)] (with_filters 2)).
Proof.
  destruct (stack_event_pass no_close example_stack (event_at Level.INFO) (with_filters 2)
    example_stack_ok) as (_ & H & _).
  - cbn. lia.
  - reflexivity.
  - reflexivity.
  - rewrite H by reflexivity. reflexivity.
Defined.

Definition root_span : Attributes :=
  Attributes.new_root (Metadata.new "span" "app" Level.INFO None None None (FieldSet.new [] 2%N) Kind.SPAN)
    (ValueSet.value_set (FieldSet.new [] 2%N) []).

Lemma stack_span_pass_witness :
  exists w1 w2,
    s_enabled (stack no_close example_stack) (Attributes.metadata root_span) (with_filters 2)
      = Done (true, w1) /\
    s_new_span (stack no_close example_stack) root_span w1 = Done (idx_to_id 0, w2) /\
    user w2 = [(2%nat, idx_to_id 0); (3%nat, idx_to_id 0)].
Proof.
  destruct (stack_span_pass no_close example_stack root_span (with_filters 2) None (with_filters 2)
    0 default_data example_stack_ok) as (w1 & w2 & H1 & H2 & _ & H4 & _).
  - cbn. lia.
  - reflexivity.
  - reflexivity.
  - reflexivity.
  - reflexivity.
  - reflexivity.
  - reflexivity.
  - exists w1, w2. split; [exact H1|]. split; [exact H2|]. rewrite H4. reflexivity.
Defined.

Lemma stack_interest_sound_witness :
  exists interest u,
    s_register_callsite (stack no_close example_stack) (Event.metadata (event_at Level.INFO))
      (with_filters 2) = Done (interest, with_user u (with_filters 2)) /\ interest = Sometimes.
Proof.
  destruct (stack_interest_sound no_close example_stack (Event.metadata (event_at Level.INFO))
    (with_filters 2) example_stack_ok example_stack_contract) as (i & u & H & Hn & Ha).
  - reflexivity.
  - reflexivity.
  - exists i, u. split; [exact H|]. destruct i.
    + specialize (Hn eq_refl []). discriminate Hn.
    + reflexivity.
    + destruct (Ha eq_refl []) as [_ Hd].
      assert (size (disabled_by (Event.metadata (event_at Level.INFO)) [] example_stack) = 0%nat)
        as Hs by by rewrite Hd.
      vm_compute in Hs. discriminate Hs.
Defined.

Lemma stack_hint_sound_witness :
  let es := [WithFilter (spy 1 (fun _ => true)) (level_fil LevelFilter.WARN); NoneEntry] in
  s_max_level_hint (stack no_close es) = Some LevelFilter.WARN /\
  LevelFilter.ge_level LevelFilter.WARN (Metadata.level (Event.metadata (event_at Level.WARN))) = true.
Proof.
  intros es. split; [reflexivity|].
  apply (stack_hint_sound no_close es (Event.metadata (event_at Level.WARN)) [] LevelFilter.WARN).
  - unfold es. entries.
  - unfold es. entries.
  - reflexivity.
  - reflexivity.
  - reflexivity.
Defined.

(** ** Where the composition breaks its promises *)

Definition user_after {A} (o : outcome (A * World)) : outcome (list (nat * Id)) :=
  '(_, w) ← o; Done (user w : list (nat * Id)).

(** [Layered::event_enabled] does not clear the per-layer filter state when a layer
    vetoes an event that passed [enabled] ([Layered::enabled] does): the bits of the
    filters that disabled the vetoed event stay set, and the next event of a callsite
    with a cached interest of [always], for which [enabled] is not called, is not
    delivered to those layers although their filters enable it. *)
Theorem vetoed_event_loses_next :
  let es := [Plain (spy 2 (fun ev => negb (bool_decide (Metadata.level (Event.metadata ev) = Level.INFO))));
             WithFilter (spy 1 (fun _ => true)) (level_fil LevelFilter.ERROR)] in
  let s := stack no_close es in
  let error := event_at Level.ERROR in
  (exists u, s_register_callsite s (Event.metadata error) (with_filters 1)
     = Done (Always, with_user u (with_filters 1))) /\
  user_after (record_event s Always error (with_filters 1))
    = Done [(1%nat, event_id); (2%nat, event_id)] /\
  exists w, record_event s Sometimes (event_at Level.INFO) (with_filters 1) = Done (tt, w) /\
    user w = [] /\ filtering w <> FilterState.new /\
    user_after (record_event s Always error w) = Done [(2%nat, event_id)].
Proof.
  intros es s error. split; [by exists []|]. split; [reflexivity|].
  eexists. split; [reflexivity|]. split; [reflexivity|]. split; [discriminate|reflexivity].
Qed.

(** In a tree of layers, [Layered::new] takes "the inner value is a [Registry]" from
    the type of the subscriber below the tree, so the hint of the inner layer is
    ignored: two filtered layers composed by [and_then] on a [Registry] report the
    outer filter's [INFO] as the maximum level although the inner filter enables, and
    its layer receives, events at [DEBUG]. *)
Theorem tree_hint_too_low :
  let tree := and_then
    (with_filter (level_filter LevelFilter.INFO) (plain (spy_layer 2 (fun _ => true))))
    (with_filter (level_filter LevelFilter.DEBUG) (plain (spy_layer 1 (fun _ => true)))) in
  exists s w, with_layers no_close [tree] registry_subscriber example_world = Done (s, w) /\
    s_max_level_hint s = Some LevelFilter.INFO /\
    LevelFilter.ge_level LevelFilter.INFO Level.DEBUG = false /\
    user_after (record_event s Sometimes (event_at Level.DEBUG) w) = Done [(1%nat, event_id)].
Proof.
  intros tree. eexists _, _. split; [reflexivity|]. split; [reflexivity|].
  split; reflexivity.
Qed.

(** With 64 filters that all disable the metadata, [Registry::enabled] answers [false]
    without the bits being cleared, and the debug assertion of the next pass fails. *)
Lemma full_filter_map_panics :
  let s := stack no_close
    (repeat (WithFilter (spy 1 (fun _ => true)) (level_fil LevelFilter.OFF)) 64) in
  (p ← record_event s Sometimes (event_at Level.INFO) (with_filters 64);
   Done (user p.2, in_filter_pass (filtering p.2))) = Done ([], 0%nat) /\
  (p ← record_event s Sometimes (event_at Level.INFO) (with_filters 64);
   record_event s Sometimes (event_at Level.INFO) p.2) = Panic.
Proof. split; vm_compute; reflexivity. Qed.

(** A vector of layers reports an interest of [always] as soon as one layer does, but
    enables metadata only if all layers do; an empty vector is interested in nothing. *)
Lemma vec_interest_disagrees :
  let v := vec_layer [identity_layer; level_layer LevelFilter.OFF] in
  let m := Event.metadata (event_at Level.INFO) in
  l_register_callsite v m example_world = Done (Always, example_world) /\
  l_enabled v m Context_.none example_world = Done (false, example_world) /\
  l_register_callsite (vec_layer []) m example_world = Done (Never, example_world) /\
  l_enabled (vec_layer []) m Context_.none example_world = Done (true, example_world).
Proof. repeat split. Qed.

(** A layer with a global filter below a per-layer filter: [Filtered] ignores its
    interest but not its [enabled]. *)
Lemma filtered_ignores_inner_interest :
  let layer := filtered_layer (level_layer LevelFilter.ERROR) (level_filter LevelFilter.TRACE) (fid 0) in
  let s := layered_subscriber no_close layer registry_subscriber (layered_new layer true false) in
  let m := Event.metadata (event_at Level.INFO) in
  s_register_callsite s m (with_filters 1) = Done (Always, with_filters 1) /\
  s_enabled s m (with_filters 1) = Done (false, with_filters 1).
Proof. split; reflexivity. Qed.
