(* ===== verification/SpanLife.v ===== *)
(** * SpanLife: the life of a span in a stack of layers

    Reference counts and closing, for a list-shaped stack that is also the default
    dispatcher: the nested [CloseGuard]s of the [Layered]s, the removal of the span by
    the outermost of them, and the cascade to the parents. *)

From S2P Require Import Prelude.
From S2P Require Import Str.
From S2P Require Import Levels.
From S2P Require Import Fields.
From S2P Require Import Meta.
From S2P Require Import Interests.
From S2P Require Import FilterIds.
From S2P Require Import SpanStack.
From S2P Require Import Registry.
From S2P Require Import Pools.
From S2P Require Import Contexts.
From S2P Require Import Filters.
From S2P Require Import Layers.
From S2P Require Import Stacks.

Local Open Scope Z_scope.

Section life.
Context `{E : Env} {P : PoolOps DataInner} `{!PoolLaws default_data P}.

(** The default dispatcher is the stack itself: closing a span's parent calls the
    whole stack again.  Each unit of fuel is one span of the cascade. *)
Fixpoint close_span (fuel : nat) (es : list entry) (id : Id) : M bool :=
  match fuel with
  | O => lift Panic
  | S fuel => s_try_close (stack (close_span fuel es) es) id
  end.

(** The [on_close] callbacks of a span, innermost first: of every plain layer and of
    the layers whose filter did not disable the span. *)
Fixpoint notify_close (id : Id) (d : DataInner) (u : UserState) (es : list entry) : UserState :=
  match es with
  | [] => u
  | Plain x :: es => leaf_on_close x id (Some d) (notify_close id d u es)
  | NoneEntry :: es => notify_close id d u es
  | WithFilter x f :: es =>
      let u := notify_close id d u es in
      if FilterMap.is_enabled (fid (Z.of_nat (filters es))) (filter_map d)
      then leaf_on_close x id (Some d) (fil_on_close f id u) else u
  end.

Lemma filtered_on_close dtc es i id d f w :
  0 <= i < 64 -> pool_get (id_to_idx id) (spans w) = Some d ->
  filtered_if_enabled_for (fid i) id (Context_.new (stack dtc es)) f w =
  if FilterMap.is_enabled (fid i) (filter_map d)
  then f (Context_.with_filter (fid i) (Context_.new (stack dtc es))) w else Done (tt, w).
Proof.
  intros Hi Hd. unfold filtered_if_enabled_for, Context_.if_enabled_for,
    Context_.is_enabled_inner, Context_.span. mred. rewrite filtered_id_fid by done.
  cbn [Context_.new subscriber filter]. mred. rewrite lookup_span_get by apply stack_looks_up.
  rewrite Hd. cbn. unfold try_with_filter, span_is_enabled_for, Registry.is_enabled_for,
    FilterMap.is_enabled. cbn. rewrite Z.land_0_r. cbn.
  unfold span_is_enabled_for, Registry.is_enabled_for. cbn.
  change (Z.land _ _ =? 0) with (FilterMap.is_enabled (fid i) (filter_map d)).
  by destruct (FilterMap.is_enabled _ _).
Qed.

Lemma entry_on_close dtc e es id d w :
  entry_ok e -> (filters (e :: es) <= 64)%nat -> pool_get (id_to_idx id) (spans w) = Some d ->
  forall u, l_on_close (layer_of (filters es) e) id (Context_.new (stack dtc es))
      (with_user (notify_close id d u es) w) =
    Done (tt, with_user (notify_close id d u (e :: es)) w).
Proof.
  intros He H64 Hd u. destruct e as [x| |x f]; cbn [layer_of filters] in *.
  - rewrite (ok_on_close _ He). cbn [spans user with_user]. by rewrite Hd.
  - done.
  - destruct He as [Hx Hf]. cbn [filtered_layer l_on_close notify_close].
    rewrite (filtered_on_close dtc es _ id d) by (done || lia).
    destruct (FilterMap.is_enabled _ _); [|done]. mred. rewrite (okf_on_close _ Hf).
    rewrite (ok_on_close _ Hx). cbn [spans user with_user]. by rewrite Hd.
Qed.

(** [Registry::try_close] on a span with references left. *)
Definition drop_ref (id : Id) (d : DataInner) (w : World) : World :=
  with_spans (pool_set (id_to_idx id) (set_ref_count (ref_count d - 1) d) (spans w)) w.

Lemma registry_try_close id d w :
  pool_get (id_to_idx id) (spans w) = Some d -> 0 < ref_count d < U64.MAX ->
  Registry.try_close id w = Done (ref_count d =? 1, drop_ref id d w).
Proof.
  intros Hd Hr. unfold Registry.try_close, Registry.get. mred. cbn. rewrite Hd.
  unfold U64.wrap. rewrite Z.mod_small by (unfold U64.MAX in Hr; lia).
  assert (negb (ref_count d >? 1) = (ref_count d =? 1)) as Hb.
  { rewrite Z.gtb_ltb. destruct (Z.ltb_spec 1 (ref_count d)), (Z.eqb_spec (ref_count d) 1);
      (done || lia). }
  destruct (panicking w); cbn; [by rewrite Hb|].
  destruct (Z.ltb_spec (ref_count d) U64.MAX); [|lia]. cbn. by rewrite Hb.
Qed.

Lemma drop_guard_counts dtc g w :
  (close_count w =? 1) && is_closing g = false ->
  Registry.drop_guard dtc g w = Done (tt, with_close_count (close_count w - 1) w).
Proof. intros H. unfold Registry.drop_guard. mred. by rewrite H. Qed.

(** Closing inside of another [CloseGuard], or with references left: the span stays. *)
Lemma stack_try_close_stays dtc es id d w :
  Forall entry_ok es -> (filters es <= 64)%nat ->
  pool_get (id_to_idx id) (spans w) = Some d -> 0 < ref_count d < U64.MAX ->
  0 <= close_count w -> (ref_count d = 1 -> es = [] \/ 0 < close_count w) ->
  s_try_close (stack dtc es) id w =
  Done (ref_count d =? 1,
        if ref_count d =? 1
        then with_user (notify_close id (set_ref_count 0 d) (user w) es) (drop_ref id d w)
        else drop_ref id d w).
Proof.
  intros Hok. revert w. induction Hok as [|e es He Hes IH]; intros w H64 Hd Hr Hc Hc1.
  - cbn [stack s_try_close registry_subscriber]. rewrite (registry_try_close id d) by done.
    destruct (ref_count d =? 1); [|done]. by destruct w.
  - assert (s_downcast_registry (stack dtc es) = true) as Hreg by by destruct (stack_looks_up dtc es) as (_ & _ & ?).
    cbn [stack layered_subscriber s_try_close]. unfold layered_try_close. rewrite Hreg.
    mred. unfold Registry.start_close. mred.
    rewrite IH; [|destruct e; cbn [filters] in *; lia|done|done|cbn; lia|cbn; lia].
    assert (pool_get (id_to_idx id) (spans (drop_ref id d w)) =
      Some (set_ref_count (ref_count d - 1) d)) as Hd'.
    { cbn. rewrite pool_get_set by eauto. by rewrite decide_True. }
    destruct (Z.eqb_spec (ref_count d) 1) as [H1|H1].
    + destruct (Hc1 H1) as [|Hc']; [done|].
      change (with_user ?u (drop_ref id d (with_close_count ?n w))) with
        (with_user u (with_close_count n (drop_ref id d w))).
      rewrite H1 in Hd'. cbn [Z.sub] in Hd'.
      rewrite (entry_on_close dtc e es id (set_ref_count 0 d)
        (with_close_count (close_count w + 1) (drop_ref id d w))) by done.
      rewrite drop_guard_counts.
      * cbn [close_count with_user with_close_count]. rewrite Z.add_simpl_r.
        by destruct w.
      * cbn [close_count with_user with_close_count]. destruct (Z.eqb_spec (close_count w + 1) 1);
          [lia|done].
    + rewrite drop_guard_counts; [|apply andb_false_r].
      cbn. rewrite Z.add_simpl_r. by destruct w.
Qed.

(** Dropping the last reference of a span: the callbacks, and then the removal of the
    span's data, which drops the parent. *)
Lemma stack_try_close_last dtc es id d w :
  Forall entry_ok es -> (filters es <= 64)%nat -> es <> [] ->
  pool_get (id_to_idx id) (spans w) = Some d -> ref_count d = 1 -> close_count w = 0 ->
  s_try_close (stack dtc es) id w =
  '(_, w1) ← Registry.clear_span dtc (id_to_idx id)
    (with_user (notify_close id (set_ref_count 0 d) (user w) es) (drop_ref id d w));
  Done (true, w1).
Proof.
  intros Hok H64 Hne Hd Hr Hc. destruct Hok as [|e es He Hes]; [done|].
  assert (s_downcast_registry (stack dtc es) = true) as Hreg by by destruct (stack_looks_up dtc es) as (_ & _ & ?).
  cbn [stack layered_subscriber s_try_close]. unfold layered_try_close. rewrite Hreg.
  mred. unfold Registry.start_close. mred.
  rewrite (stack_try_close_stays dtc es id d);
    [|done|destruct e; cbn [filters] in *; lia|done|unfold U64.MAX; lia|cbn; lia|cbn; lia].
  rewrite Hr, Z.eqb_refl.
  change (with_user ?u (drop_ref id d (with_close_count ?n w))) with
    (with_user u (with_close_count n (drop_ref id d w))).
  assert (pool_get (id_to_idx id) (spans (drop_ref id d w)) = Some (set_ref_count 0 d)) as Hd'.
  { cbn. rewrite pool_get_set by eauto. rewrite decide_True by done. by rewrite Hr. }
  rewrite (entry_on_close dtc e es id (set_ref_count 0 d)
    (with_close_count (close_count w + 1) (drop_ref id d w))) by done.
  unfold Registry.drop_guard. mred. cbn [close_count with_user with_close_count]. rewrite Hc.
  cbn [Z.add Z.eqb Pos.eqb is_closing CloseGuard.set_closing guard_id andb user with_user with_close_count].
  replace (with_close_count (1 - 1) _) with
    (with_user (notify_close id (set_ref_count 0 d) (user w) (e :: es)) (drop_ref id d w)).
  - change ((0 + 1 =? 1) && true) with true. done.
  - destruct w. cbn in Hc. by subst.
Qed.


(** While a [CloseGuard] is open (a layer drops another span in its [on_close]), a span
    that loses its last reference is reported as closed but never removed. *)
Lemma nested_close_keeps_span dtc es id d w :
  Forall entry_ok es -> (filters es <= 64)%nat ->
  pool_get (id_to_idx id) (spans w) = Some d -> ref_count d = 1 -> 0 < close_count w ->
  exists w', s_try_close (stack dtc es) id w = Done (true, w') /\
    pool_get (id_to_idx id) (spans w') = Some (set_ref_count 0 d).
Proof.
  intros Hok H64 Hd Hr Hc. eexists. split.
  - rewrite (stack_try_close_stays dtc es id d) by (done || (unfold U64.MAX; lia) || (intros _; right; done)).
    rewrite Hr, Z.eqb_refl. reflexivity.
  - cbn. rewrite pool_get_set by eauto. rewrite decide_True by done. by rewrite Hr.
Qed.

(** ** Reference counts *)

Lemma idx_to_id_inj k k' : 0 <= k -> 0 <= k' -> idx_to_id k = idx_to_id k' -> k = k'.
Proof. unfold idx_to_id. intros H H' [= Eid]. lia. Qed.

Lemma id_idx k : 0 <= k -> id_to_idx (idx_to_id k) = k.
Proof. intros H. unfold id_to_idx, idx_to_id, Id.into_u64. cbn. lia. Qed.

(** The live spans whose parent is the span [k]. *)
Definition children (k : Z) (p : pool) : gset Z :=
  base.filter (fun k' => (pool_get k' p ≫= parent) = Some (idx_to_id k)) (pool_keys p).

Lemma elem_children k k' p :
  k' ∈ children k p <-> exists d, pool_get k' p = Some d /\ parent d = Some (idx_to_id k).
Proof.
  unfold children. rewrite elem_of_filter, pool_keys_get. split.
  - intros [H [d Hd]]. rewrite Hd in H. eauto.
  - intros (d & Hd & Hp). rewrite Hd. eauto.
Qed.

(** [h k]: the handles to the span [k] that the program holds. *)
Definition handles := Z -> nat.
Definition upd (k : Z) (c : nat) (h : handles) : handles :=
  fun k' => if decide (k' = k) then c else h k'.

Record refs_ok (h : handles) (n : nat) (p : pool) : Prop := {
  ro_refs k d : pool_get k p = Some d ->
    ref_count d = Z.of_nat (h k + size (children k p)) /\ 0 < ref_count d <= Z.of_nat n;
  ro_held k : (0 < h k)%nat -> is_Some (pool_get k p);
  ro_parent k d up : pool_get k p = Some d -> parent d = Some up ->
    exists kp, 0 <= kp /\ up = idx_to_id kp /\ is_Some (pool_get kp p);
  ro_keys k : is_Some (pool_get k p) -> 0 <= k;
  ro_spare d : pool_spare d p -> ref_count d = 0;
  ro_rank : exists rank : Z -> nat, forall k d kp,
    pool_get k p = Some d -> parent d = Some (idx_to_id kp) -> 0 <= kp -> (rank kp < rank k)%nat;
}.

Lemma refs_ok_ext h h' n p : (forall k, h k = h' k) -> refs_ok h n p -> refs_ok h' n p.
Proof.
  intros Hh [H1 H2 H3 H4 H5 H6]. split; try done.
  - intros k d Hd. rewrite <- Hh. by apply H1.
  - intros k. rewrite <- Hh. apply H2.
Qed.

Lemma refs_ok_new : refs_ok (fun _ => 0%nat) 0 pool_new.
Proof.
  split.
  - intros k d. by rewrite pool_get_new.
  - lia.
  - intros k d up. by rewrite pool_get_new.
  - intros k [d Hd]. by rewrite pool_get_new in Hd.
  - intros d ->%pool_spare_new. done.
  - exists (fun _ => 0%nat). intros k d kp. by rewrite pool_get_new.
Qed.

(** The number of references of one span changes with the handles to it. *)
Lemma refs_ok_set h n m p k d c :
  refs_ok h n p -> pool_get k p = Some d -> (n <= m)%nat ->
  (0 < c + size (children k p) <= m)%nat ->
  refs_ok (upd k c h) m
    (pool_set k (set_ref_count (Z.of_nat (c + size (children k p))) d) p).
Proof.
  intros [H1 H2 H3 H4 H5 H6] Hd Hnm Hc.
  set (p' := pool_set k (set_ref_count (Z.of_nat (c + size (children k p))) d) p).
  assert (forall k', pool_get k' p' = if decide (k' = k)
    then Some (set_ref_count (Z.of_nat (c + size (children k p))) d) else pool_get k' p) as Hget.
  { intros k'. apply pool_get_set. eauto. }
  assert (forall k' d', pool_get k' p' = Some d' -> exists d0, pool_get k' p = Some d0 /\ parent d0 = parent d') as Hold.
  { intros k' d'. rewrite Hget. case_decide; [subst|eauto]. intros [= <-]. exists d. done. }
  assert (forall k', is_Some (pool_get k' p') <-> is_Some (pool_get k' p)) as Hlive.
  { intros k'. rewrite Hget. case_decide; [subst|done]. rewrite Hd. split; by eexists. }
  assert (forall k', children k' p' = children k' p) as Hch.
  { intros k'. apply set_eq. intros j. rewrite !elem_children. setoid_rewrite Hget. split.
    - intros (dj & Hj & Hp). case_decide; [subst|eauto]. injection Hj as <-. eauto.
    - intros (dj & Hj & Hp). case_decide; [subst|eauto]. rewrite Hd in Hj. injection Hj as <-. eauto. }
  split.
  - intros k' d'. rewrite Hch, Hget. unfold upd. case_decide; [subst|].
    + intros [= <-]. cbn. lia.
    + intros Hd'. destruct (H1 _ _ Hd'). lia.
  - intros k'. rewrite Hlive. unfold upd. case_decide; [subst; by eexists|apply H2].
  - intros k' d' up Hd' Hup. destruct (Hold _ _ Hd') as (d0 & Hd0 & Hp). rewrite <- Hp in Hup.
    destruct (H3 _ _ _ Hd0 Hup) as (kp & ? & ? & ?). exists kp. by rewrite Hlive.
  - intros k'. rewrite Hlive. apply H4.
  - intros d' Hs%pool_spare_set. auto.
  - destruct H6 as [rank Hr]. exists rank. intros k' d' kp Hd' Hup.
    destruct (Hold _ _ Hd') as (d0 & Hd0 & Hp). rewrite <- Hp in Hup. by eapply Hr.
Qed.

(** The handle that the child of a removed span's parent gives back. *)
Definition give_back (d : DataInner) (h : handles) : handles :=
  match parent d with
  | Some up => upd (id_to_idx up) (S (h (id_to_idx up))) h
  | None => h
  end.

(** A span without references is removed from the pool. *)
Lemma refs_ok_remove h n p p1 p2 k d d' :
  refs_ok h n p -> pool_get k p = Some d -> ref_count d = 1 -> (0 < h k)%nat ->
  (forall k', pool_get k' p1 = if decide (k' = k) then Some d' else pool_get k' p) ->
  (forall k', pool_get k' p2 = if decide (k' = k) then None else pool_get k' p1) ->
  (forall d, pool_spare d p2 -> pool_spare d p) ->
  refs_ok (give_back d (upd k 0 h)) n p2.
Proof.
  intros [H1 H2 H3 H4 H5 H6] Hd Hr Hh Hp1 Hp2 Hsp.
  assert (forall k', pool_get k' p2 = if decide (k' = k) then None else pool_get k' p) as Hget.
  { intros k'. rewrite Hp2. case_decide; [done|]. rewrite Hp1. by rewrite decide_False. }
  destruct (H1 _ _ Hd) as [Hr1 _].
  assert (size (children k p) = 0%nat) as Hnc by lia.
  apply size_empty_inv in Hnc.
  assert (forall k' d', pool_get k' p2 = Some d' -> k' <> k /\ pool_get k' p = Some d') as Hold.
  { intros k' d0. rewrite Hget. by case_decide. }
  assert (forall kp, 0 <= kp -> parent d = Some (idx_to_id kp) -> kp <> k) as Hne.
  { intros kp Hkp Hup ->. destruct H6 as [rank Hrank]. specialize (Hrank _ _ _ Hd Hup Hkp). lia. }
  assert (forall k', 0 <= k' -> parent d <> Some (idx_to_id k') -> children k' p2 = children k' p) as Hch.
  { intros k' Hk' Hup. apply set_eq. intros j. rewrite !elem_children. split.
    - intros (dj & Hj & Hp). destruct (Hold _ _ Hj). eauto.
    - intros (dj & Hj & Hp). exists dj. rewrite Hget. case_decide; [|done]. subst.
      rewrite Hd in Hj. injection Hj as <-. done. }
  assert (forall k' , 0 <= k' -> parent d = Some (idx_to_id k') ->
    size (children k' p) = S (size (children k' p2))) as Hch'.
  { intros k' Hk' Hup. replace (children k' p) with ({[ k ]} ∪ children k' p2).
    - rewrite size_union, size_singleton; [done|].
      intros j ->%elem_of_singleton (dj & Hj & _)%elem_children. by destruct (Hold _ _ Hj).
    - apply set_eq. intros j. rewrite elem_of_union, elem_of_singleton, !elem_children. split.
      + intros [->|(dj & Hj & Hp)]; [eauto|]. destruct (Hold _ _ Hj). eauto.
      + intros (dj & Hj & Hp). destruct (decide (j = k)) as [->|Hjk]; [by left|]. right.
        exists dj. rewrite Hget. by rewrite decide_False. }
  split.
  - intros k' dx [Hk' Hd0]%Hold. assert (0 <= k') as Hk0 by (apply H4; eauto).
    destruct (H1 _ _ Hd0) as [Hrc Hb]. split; [|done]. rewrite Hrc.
    unfold give_back. destruct (parent d) as [up|] eqn:Hup.
    + destruct (H3 _ _ _ Hd Hup) as (kp & Hkp & -> & _). rewrite id_idx by done. unfold upd.
      specialize (Hne kp Hkp eq_refl).
      destruct (decide (k' = kp)) as [->|Hk].
      * rewrite (Hch' kp) by done. rewrite (decide_False (P := kp = k)) by done. lia.
      * rewrite (Hch k'); [|done|]. { rewrite decide_False by done. lia. }
        intros [= Eid]. apply Hk. symmetry. apply idx_to_id_inj; [done|done|]. unfold idx_to_id. by f_equal.
    + unfold upd. rewrite Hch by done. rewrite decide_False by done. lia.
  - intros k'. rewrite Hget. unfold give_back. destruct (parent d) as [up|] eqn:Hup.
    + destruct (H3 _ _ _ Hd Hup) as (kp & Hkp & -> & Hlive). rewrite id_idx by done. unfold upd.
      specialize (Hne kp Hkp eq_refl). destruct (decide (k' = kp)) as [->|Hk].
      * intros _. rewrite (decide_False (P := kp = k)) by done. exact Hlive.
      * destruct (decide (k' = k)); [lia|apply H2].
    + unfold upd. destruct (decide (k' = k)); [lia|apply H2].
  - intros k' d0 up [Hk' Hd0]%Hold Hup. destruct (H3 _ _ _ Hd0 Hup) as (kp & Hkp & -> & Hlive).
    exists kp. split_and!; [done..|]. rewrite Hget. case_decide; [|done]. subst.
    exfalso. apply (not_elem_of_empty (C := gset Z) k'). rewrite <- Hnc. apply elem_children. eauto.
  - intros k' [d0 Hd0]. destruct (Hold _ _ Hd0). eauto.
  - auto.
  - destruct H6 as [rank Hrank]. exists rank. intros k' d0 kp [_ Hd0]%Hold. by eapply Hrank.
Qed.

(** A cleared value goes back to the pool. *)
Lemma refs_ok_end_clear h n p d :
  refs_ok h n p -> ref_count d = 0 -> refs_ok h n (pool_end_clear d p).
Proof.
  intros [H1 H2 H3 H4 H5 H6] Hd.
  assert (forall k, children k (pool_end_clear d p) = children k p) as Hch.
  { intros k. apply set_eq. intros j. rewrite !elem_children. by setoid_rewrite pool_get_end_clear. }
  split.
  - intros k d'. rewrite Hch, pool_get_end_clear. apply H1.
  - intros k. rewrite pool_get_end_clear. apply H2.
  - intros k d' up. rewrite pool_get_end_clear. setoid_rewrite pool_get_end_clear. apply H3.
  - intros k. rewrite pool_get_end_clear. apply H4.
  - intros d' [->|Hs]%pool_spare_end_clear; auto.
  - destruct H6 as [rank Hr]. exists rank. intros k d' kp. rewrite pool_get_end_clear. apply Hr.
Qed.

(** A new span takes over a handle to its parent. *)
Lemma refs_ok_publish h n p k d0 d :
  refs_ok h n p -> pool_reserve p = Some (k, d0) -> ref_count d = 1 ->
  (forall up, parent d = Some up -> exists kp, 0 <= kp /\ up = idx_to_id kp /\ (0 < h kp)%nat) ->
  refs_ok (upd k 1 (match parent d with
                    | Some up => upd (id_to_idx up) (pred (h (id_to_idx up))) h
                    | None => h
                    end)) (S n) (pool_publish k d p).
Proof.
  intros [H1 H2 H3 H4 H5 H6] Hk Hr Hup.
  destruct (pool_reserve_fresh _ _ _ Hk) as (Hk0 & Hfresh & _).
  assert (forall k', pool_get k' (pool_publish k d p) =
    if decide (k' = k) then Some d else pool_get k' p) as Hget.
  { intros k'. by eapply pool_get_publish. }
  set (p' := pool_publish k d p) in *.
  assert (h k = 0%nat) as Hhk.
  { destruct (h k) eqn:Eid; [done|]. destruct (H2 k) as [? Hs]; [lia|]. congruence. }
  assert (forall k', is_Some (pool_get k' p) -> k' <> k) as Hne.
  { intros k' [? Hs] ->. congruence. }
  assert (children k p' = ∅) as Hck.
  { apply set_eq. intros j. split; [|by intros ?%elem_of_empty].
    intros (dj & Hj & Hp)%elem_children. rewrite Hget in Hj. case_decide; [simplify_eq|].
    - destruct (Hup _ Hp) as (kp & Hkp & Eid & Hh). apply idx_to_id_inj in Eid; [|done..]. subst. lia.
    - destruct (H3 _ _ _ Hj Hp) as (kp & Hkp & Eid & Hl). apply idx_to_id_inj in Eid; [|done..]. subst.
      by destruct (Hne kp). }
  assert (forall k', 0 <= k' -> k' <> k -> parent d <> Some (idx_to_id k') ->
            children k' p' = children k' p) as Hch.
  { intros k' Hk' Hkk Hp. apply set_eq. intros j. rewrite !elem_children. setoid_rewrite Hget. split.
    - intros (dj & Hj & Hpj). case_decide; simplify_eq; eauto.
    - intros (dj & Hj & Hpj). exists dj. rewrite decide_False; [done|]. apply Hne. eauto. }
  assert (forall k', 0 <= k' -> parent d = Some (idx_to_id k') ->
            size (children k' p') = S (size (children k' p))) as Hch'.
  { intros k' Hk' Hp. replace (children k' p') with ({[ k ]} ∪ children k' p).
    - rewrite size_union, size_singleton; [done|].
      intros j ->%elem_of_singleton (dj & Hj & _)%elem_children. congruence.
    - apply set_eq. intros j. rewrite elem_of_union, elem_of_singleton, !elem_children.
      setoid_rewrite Hget. split.
      + intros [->|(dj & Hj & Hpj)]; [exists d; by rewrite decide_True|].
        exists dj. rewrite decide_False; [done|]. apply Hne. eauto.
      + intros (dj & Hj & Hpj). case_decide; [by left|right; eauto]. }
  assert (forall kp, 0 <= kp -> (0 < h kp)%nat -> kp <> k) as Hnp by (intros kp _ Hh ->; lia).
  split.
  - intros k' d'. rewrite Hget. unfold upd. case_decide as Hkk.
    + intros [= <-]. subst k'. rewrite Hck, size_empty. lia.
    + intros Hd'. assert (0 <= k') by (apply H4; eauto). destruct (H1 _ _ Hd') as [Hrc Hb].
      split; [|lia]. rewrite Hrc. destruct (parent d) as [up|] eqn:Hp; [|by rewrite Hch].
      destruct (Hup _ eq_refl) as (kp & Hkp & -> & Hh). rewrite id_idx by done.
      destruct (decide (k' = kp)) as [->|Hk'].
      * rewrite Hch' by done. lia.
      * rewrite Hch; [done..|]. intros [= Eid]. apply Hk'. symmetry.
        apply idx_to_id_inj; [done|done|]. unfold idx_to_id. by f_equal.
  - intros k'. rewrite Hget. unfold upd. case_decide; [by eexists|].
    destruct (parent d) as [up|] eqn:Hp; [|apply H2].
    destruct (Hup _ eq_refl) as (kp & Hkp & -> & Hh). rewrite id_idx by done.
    case_decide; [subst; intros; by apply H2|apply H2].
  - intros k' d' up. rewrite Hget. case_decide.
    + intros [= <-] Hp. destruct (Hup _ Hp) as (kp & Hkp & -> & Hh). exists kp.
      split_and!; [done..|]. rewrite Hget. rewrite decide_False by eauto. by apply H2.
    + intros Hd' Hp. destruct (H3 _ _ _ Hd' Hp) as (kp & Hkp & -> & Hl). exists kp.
      split_and!; [done..|]. rewrite Hget. by rewrite decide_False by auto.
  - intros k'. rewrite Hget. case_decide; [by subst|apply H4].
  - intros d' Hs%pool_spare_publish. auto.
  - destruct H6 as [rank Hrank].
    exists (fun x => if decide (x = k)
                     then S (match parent d with Some up => rank (id_to_idx up) | None => 0%nat end)
                     else rank x).
    intros k' d' kp. rewrite Hget. case_decide.
    + intros [= <-] Hp Hkp. rewrite Hp, id_idx by done.
      destruct (Hup _ Hp) as (kp' & Hkp' & Eid & Hh). apply idx_to_id_inj in Eid; [|done..]. subst kp'.
      rewrite decide_False by eauto. lia.
    + intros Hd' Hp Hkp. destruct (H3 _ _ _ Hd' Hp) as (kp' & Hkp' & Eid & Hl).
      apply idx_to_id_inj in Eid; [|done..]. subst kp'. rewrite decide_False by auto. eauto.
Qed.


(** What closing spans leaves alone. *)
Record close_frame (w w' : World) : Prop := {
  cf_filtering : filtering w' = filtering w;
  cf_close_count : close_count w' = close_count w;
  cf_current_spans : current_spans w' = current_spans w;
  cf_panicking : panicking w' = panicking w;
  cf_next_filter_id : next_filter_id w' = next_filter_id w;
  cf_keys k : is_Some (pool_get k (spans w')) -> is_Some (pool_get k (spans w));
}.

Lemma close_frame_size w w' :
  close_frame w w' -> (size (pool_keys (spans w')) <= size (pool_keys (spans w)))%nat.
Proof. intros []. apply subseteq_size. intros k. rewrite !pool_keys_get. auto. Qed.

Definition drop_handle (k : Z) (h : handles) : handles := upd k (pred (h k)) h.

(** Dropping a handle through the stack: the cascade ends, every reference count is
    right again, and the filters and guards of the thread are as before. *)
Lemma close_span_refs fuel es h n w k :
  Forall entry_ok es -> (filters es <= 64)%nat -> es <> [] ->
  refs_ok h n (spans w) -> (0 < h k)%nat -> Z.of_nat n < U64.MAX ->
  close_count w = 0 -> (size (pool_keys (spans w)) < fuel)%nat ->
  exists b w', close_span fuel es (idx_to_id k) w = Done (b, w') /\
    refs_ok (drop_handle k h) n (spans w') /\ close_frame w w'.
Proof.
  intros Hok H64 Hne. revert h w k.
  induction fuel as [|fuel IH]; intros h w k Hrefs Hh Hn Hc Hfuel; [lia|].
  destruct (ro_held _ _ _ Hrefs k Hh) as [d Hd].
  assert (0 <= k) as Hk by (apply (ro_keys _ _ _ Hrefs); eauto).
  destruct (ro_refs _ _ _ Hrefs _ _ Hd) as [Hr Hb].
  assert (pool_get (id_to_idx (idx_to_id k)) (spans w) = Some d) as Hd' by by rewrite id_idx.
  cbn [close_span]. destruct (decide (ref_count d = 1)) as [H1|H1].
  - rewrite (stack_try_close_last (close_span fuel es) es _ d) by done.
    rewrite id_idx by done. set (w1 := with_user _ _).
    assert (forall k', pool_get k' (spans w1) =
      if decide (k' = k) then Some (set_ref_count 0 d) else pool_get k' (spans w)) as Hp1.
    { intros k'. cbn. rewrite id_idx, H1 by done. apply pool_get_set. eauto. }
    destruct (pool_begin_clear_get k (spans w1) (set_ref_count 0 d)) as (p2 & Hbc & Hp2 & Hsp);
      [rewrite Hp1; by rewrite decide_True|].
    assert (refs_ok (give_back d (upd k 0 h)) n p2) as Hrefs2.
    { eapply refs_ok_remove; try done. intros d0 Hd0%Hsp. exact (pool_spare_set _ _ _ _ Hd0). }
    assert (forall k', drop_handle k h k' = upd k 0 h k') as Hdrop.
    { intros k'. unfold drop_handle, upd. case_decide; [|done]. lia. }
    assert (forall k', is_Some (pool_get k' p2) -> is_Some (pool_get k' (spans w))) as Hgone.
    { intros k'. rewrite Hp2, Hp1. case_decide; [by intros []|done]. }
    unfold Registry.clear_span. mred. rewrite Hbc. unfold Registry.clear_data. mred.
    cbn [parent set_ref_count].
    destruct (parent d) as [up|] eqn:Hup.
    + destruct (ro_parent _ _ _ Hrefs _ _ _ Hd Hup) as (kp & Hkp & -> & _).
      unfold give_back in Hrefs2. rewrite Hup, id_idx in Hrefs2 by done.
      destruct (IH _ (with_spans p2 w1) kp Hrefs2) as (b & w3 & Hrun & Hrefs3 & Hf); try done.
      { unfold upd. rewrite decide_True by done. lia. }
      { enough (size (pool_keys p2) < size (pool_keys (spans w)))%nat by (cbn [spans with_spans]; lia).
        apply subset_size. split.
        - intros k'. rewrite !pool_keys_get. apply Hgone.
        - intros Hsub. specialize (Hsub k). rewrite !pool_keys_get, Hp2 in Hsub.
          rewrite decide_True in Hsub by done. destruct Hsub; [by eexists|done]. }
      rewrite Hrun. eexists _, _. split; [reflexivity|]. split.
      * cbn [spans with_spans]. apply refs_ok_end_clear; [|done].
        eapply refs_ok_ext; [|exact Hrefs3]. intros k'. rewrite Hdrop. unfold drop_handle, upd.
        destruct (decide (k' = kp)) as [->|]; [|done]. rewrite decide_True by done. done.
      * destruct Hf as [? ? ? ? ? Hkeys]. split; try done. intros k'. cbn [spans with_spans].
        rewrite pool_get_end_clear. intros Hk'. apply Hgone, Hkeys, Hk'.
    + eexists _, _. split; [reflexivity|].
      split; [|split; try done; intros k'; cbn [spans with_spans]; rewrite pool_get_end_clear;
               apply Hgone].
      cbn [spans with_spans]. apply refs_ok_end_clear; [|done].
      unfold give_back in Hrefs2. rewrite Hup in Hrefs2.
      eapply refs_ok_ext; [|exact Hrefs2]. intros k'. by rewrite Hdrop.
  - rewrite (stack_try_close_stays (close_span fuel es) es _ d);
      [|done|done|done|lia|lia|done].
    destruct (Z.eqb_spec (ref_count d) 1) as [|_]; [done|].
    eexists _, _. split; [reflexivity|].
    split; [|split; try done; intros k'; cbn; rewrite id_idx, pool_get_set by eauto;
             case_decide as Hkk; [by rewrite Hkk, Hd|done]].
    unfold drop_ref. cbn [spans with_spans]. rewrite id_idx by done.
    replace (ref_count d - 1) with (Z.of_nat (pred (h k) + size (children k (spans w)))) by lia.
    apply refs_ok_set with (n := n); [done|done|done|lia].
Qed.

(** ** The operations of a program on its spans *)

Inductive span_op :=
  | OpNewRoot (interest : Interest) (metadata : Metadata) (values : ValueSet)
  | OpNewChild (interest : Interest) (parent : Z) (metadata : Metadata) (values : ValueSet)
  | OpNewContextual (interest : Interest) (metadata : Metadata) (values : ValueSet)
  | OpClone (k : Z)
  | OpDrop (k : Z)
  | OpEnter (k : Z)
  | OpExit (k : Z)
  | OpCurrent.

Definition op_attrs (op : span_op) : option (Interest * Attributes) :=
  match op with
  | OpNewRoot i m vs => Some (i, Attributes.new_root m vs)
  | OpNewChild i k m vs => Some (i, Attributes.child_of (idx_to_id k) m vs)
  | OpNewContextual i m vs => Some (i, Attributes.new m vs)
  | _ => None
  end.

(** A program uses only the handles that it holds. *)
Definition legal (h : handles) (op : span_op) : Prop :=
  match op with
  | OpNewChild _ k _ _ | OpClone k | OpDrop k | OpEnter k | OpExit k => (0 < h k)%nat
  | _ => True
  end.

(** An operation through the stack; a span is created only if its callsite, with the
    interest that it has cached, is enabled. *)
Definition run_op (fuel : nat) (es : list entry) (op : span_op) : M (option Id) :=
  let s := stack (close_span fuel es) es in
  match op with
  | OpClone k => id ← s_clone_span s (idx_to_id k); mret (Some id)
  | OpDrop k => _ ← close_span fuel es (idx_to_id k); mret None
  | OpEnter k => _ ← s_enter s (idx_to_id k); mret None
  | OpExit k => _ ← s_exit s (idx_to_id k); mret None
  | OpCurrent =>
      current ← s_current_span s;
      match CurrentSpans.into_inner current with
      | Some (id, _) => id ← s_clone_span s id; mret (Some id)
      | None => mret None
      end
  | _ =>
      match op_attrs op with
      | Some (interest, attrs) =>
          enabled ← callsite_enabled s (Attributes.metadata attrs) interest;
          if (enabled : bool) then id ← s_new_span s attrs; mret (Some id) else mret None
      | None => mret None
      end
  end.

(** The handles after an operation. *)
Definition handles_after (op : span_op) (result : option Id) (h : handles) : handles :=
  match op, result with
  | OpDrop k, _ => drop_handle k h
  | OpEnter _, _ | OpExit _, _ => h
  | _, Some id => upd (id_to_idx id) (S (h (id_to_idx id))) h
  | _, None => h
  end.


(** ** Every operation keeps the counts right *)

Lemma refs_ok_more h n m p : refs_ok h n p -> (n <= m)%nat -> refs_ok h m p.
Proof.
  intros [H1 H2 H3 H4 H5 H6] Hnm. split; try done. intros k d Hd. destruct (H1 _ _ Hd). lia.
Qed.

Lemma clone_refs h n w k :
  refs_ok h n (spans w) -> is_Some (pool_get k (spans w)) -> Z.of_nat (S n) < U64.MAX ->
  exists p, Registry.clone_span (idx_to_id k) w = Done (idx_to_id k, with_spans p w) /\
    refs_ok (upd k (S (h k)) h) (S n) p.
Proof.
  intros Hrefs [d Hd] Hn. destruct (ro_refs _ _ _ Hrefs _ _ Hd) as [Hr Hb].
  assert (0 <= k) as Hk by (apply (ro_keys _ _ _ Hrefs); eauto).
  unfold Registry.clone_span, Registry.get. mred. rewrite id_idx by done. cbn. rewrite Hd. cbn.
  destruct (Z.eqb_spec (ref_count d) 0); [lia|]. cbn. eexists. split; [reflexivity|].
  unfold U64.wrap. rewrite Z.mod_small by (unfold U64.MAX in Hn; lia).
  replace (ref_count d + 1) with (Z.of_nat (S (h k) + size (children k (spans w)))) by lia.
  apply refs_ok_set with (n := n); [done|done|lia|lia].
Qed.

Lemma stack_clone_span dtc es id w id' w' :
  Registry.clone_span id w = Done (id', w') -> id' = id ->
  s_clone_span (stack dtc es) id w = Done (id, w').
Proof.
  intros Hr ->. induction es as [|e es IH]; [done|].
  cbn [stack layered_subscriber s_clone_span]. mred. rewrite IH.
  by rewrite bool_decide_false by tauto.
Qed.

(** The parent of a new span gets a handle for its child. *)
Lemma new_span_parent_refs h n w attrs :
  refs_ok h n (spans w) -> Z.of_nat (S n) < U64.MAX ->
  (forall up, Attributes.parent attrs = Some up -> exists k, up = idx_to_id k /\ (0 < h k)%nat) ->
  exists up p, Registry.new_span_parent attrs w = Done (up, with_spans p w) /\
    match up with
    | None => refs_ok h (S n) p
    | Some up => exists k, 0 <= k /\ up = idx_to_id k /\ refs_ok (upd k (S (h k)) h) (S n) p
    end.
Proof.
  intros Hrefs Hn Hp.
  assert (forall k, is_Some (pool_get k (spans w)) -> exists up p,
    Registry.clone_parent (Some (idx_to_id k)) w = Done (up, with_spans p w) /\
    match up with
    | None => refs_ok h (S n) p
    | Some up => exists k, 0 <= k /\ up = idx_to_id k /\ refs_ok (upd k (S (h k)) h) (S n) p
    end) as Hclone.
  { intros k Hk. destruct (clone_refs h n w k Hrefs Hk Hn) as (p & Hc & Hrefs').
    exists (Some (idx_to_id k)), p. unfold Registry.clone_parent. mred. rewrite Hc.
    split; [done|]. exists k. split; [by apply (ro_keys _ _ _ Hrefs)|done]. }
  assert (exists up p, (Done (None, w) : outcome (option Id * World)) = Done (up, with_spans p w) /\
    match up with
    | None => refs_ok h (S n) p
    | Some up => exists k, 0 <= k /\ up = idx_to_id k /\ refs_ok (upd k (S (h k)) h) (S n) p
    end) as Hnone.
  { exists None, (spans w). split; [by destruct w|]. eapply refs_ok_more; [done|lia]. }
  unfold Registry.new_span_parent. destruct (Attributes.is_root attrs); [done|].
  destruct (Attributes.is_contextual attrs).
  - mred. rewrite current_span_reads. unfold current_of.
    destruct (current_spans w ≫= SpanStack.current) as [id|]; [|done].
    destruct (pool_get (id_to_idx id) (spans w)) as [d|] eqn:Hd; [|done]. cbn [CurrentSpans.id].
    assert (0 <= id_to_idx id) by (apply (ro_keys _ _ _ Hrefs); eauto).
    replace id with (idx_to_id (id_to_idx id)); [apply Hclone; eauto|].
    destruct id as [i]. unfold idx_to_id, id_to_idx, Id.into_u64 in *. cbn in *. f_equal. lia.
  - destruct (Attributes.parent attrs) as [up|]; [|done].
    destruct (Hp up eq_refl) as (k & -> & Hk). apply Hclone. by apply (ro_held _ _ _ Hrefs).
Qed.

Lemma stack_current_span dtc es w : s_current_span (stack dtc es) w = Done (current_of w, w).
Proof. induction es as [|e es IH]; [apply current_span_reads|exact IH]. Qed.

Lemma id_of_idx id : idx_to_id (id_to_idx id) = id.
Proof.
  destruct id as [i]. unfold idx_to_id, id_to_idx, Id.into_u64. cbn. f_equal. lia.
Qed.

(** Entering and leaving a span. *)
Definition after_enter (id : Id) (w : World) : option SpanStack.t :=
  Some (SpanStack.push id (default SpanStack.default (current_spans w))).
Definition after_exit (id : Id) (w : World) : option SpanStack.t :=
  (fun s => (SpanStack.pop id s).2) <$> current_spans w.

Lemma stack_enter_exit dtc es id w :
  Forall entry_ok es -> (filters es <= 64)%nat -> is_Some (pool_get (id_to_idx id) (spans w)) ->
  (exists u, s_enter (stack dtc es) id w =
     Done (tt, with_user u (with_current_spans (after_enter id w) w))) /\
  (exists u, s_exit (stack dtc es) id w =
     Done (tt, with_user u (with_current_spans (after_exit id w) w))).
Proof.
  intros Hok H64 [d Hd]. unfold after_enter, after_exit. induction Hok as [|e es He Hes IH].
  - split; exists (user w); [done|]. cbn. unfold Registry.exit, modify.
    destruct (current_spans w) eqn:Hcs; [done|]. cbn. rewrite <- Hcs. by destruct w.
  - destruct IH as [(u1 & IH1) (u2 & IH2)]; [destruct e; cbn [filters] in *; lia|].
    set (w1 := with_current_spans _ w) in IH1 |- *. set (w2 := with_current_spans _ w) in IH2 |- *.
    destruct e as [x| |x f]; cbn [stack layer_of layered_subscriber s_enter s_exit filters] in *;
      mred; rewrite IH1, IH2.
    + split; [rewrite (ok_on_enter _ He); by eexists|].
      destruct (ok_on_exit _ He id (Context_.new (stack dtc es)) (with_user u2 w2)) as [u ->].
      by eexists.
    + split; by eexists.
    + destruct He as [Hx Hf]. cbn [filtered_layer l_on_enter l_on_exit].
      rewrite (filtered_on_close dtc es _ id d) by (done || lia).
      rewrite (filtered_on_close dtc es _ id d) by (done || lia).
      destruct (FilterMap.is_enabled _ _); [|split; by eexists]. mred. split.
      * rewrite (okf_on_enter _ Hf), (ok_on_enter _ Hx). by eexists.
      * destruct (okf_on_exit _ Hf id (Context_.with_filter (fid (Z.of_nat (filters es)))
          (Context_.new (stack dtc es))) (with_user u2 w2)) as [u ->].
        destruct (ok_on_exit _ Hx id (Context_.with_filter (fid (Z.of_nat (filters es)))
          (Context_.new (stack dtc es))) (with_user u (with_user u2 w2))) as [u' ->].
        by eexists.
Qed.

(** Between two operations. *)
Record settled (es : list entry) (h : handles) (n : nat) (w : World) : Prop := {
  se_refs : refs_ok h n (spans w);
  se_close_count : close_count w = 0;
  se_filtering : filtering w = FilterState.new;
  se_filters : next_filter_id w = Z.of_nat (filters es);
}.

(** The pool can always allocate another span. *)
Definition unlimited : Prop := forall p, pool_reserve p <> None.

(** The pass of a span whose metadata was asked for, or none when its callsite is
    always enabled. *)
Definition pass_of (es : list entry) (X : gset Z) (c : nat) : Prop :=
  c = filters es /\ X ⊆ below (filters es) \/ c = 0%nat /\ X = ∅.

Lemma pass_new_span es X c attrs id w w1 dtc :
  Forall entry_ok es -> (filters es < 64)%nat -> pass_of es X c ->
  Registry.new_span attrs (at_pass X c w) = Done (id, at_pass X c w1) ->
  s_new_span (stack dtc es) attrs (at_pass X c w) =
  Done (id, with_user (notify_span X attrs id (user w1) es) (at_pass ∅ 0 w1)).
Proof.
  intros Hok H64 [[-> HX]|[-> ->]] Hreg; [|by apply stack_new_span_always].
  rewrite (stack_new_span dtc es X (filters es) attrs _ w _ Hok ltac:(lia) ltac:(lia) HX Hreg).
  rewrite Nat.sub_diag. do 4 f_equal. set_solver.
Qed.

(** The keys of the pool after a clone and after a parent was looked up. *)
Lemma clone_keys id id' w w' :
  Registry.clone_span id w = Done (id', w') -> pool_keys (spans w') = pool_keys (spans w).
Proof.
  unfold Registry.clone_span, Registry.get. mred. destruct (pool_get _ _) as [d|] eqn:Hd; cbn; [|done].
  destruct (negb _); [|done]. intros [= _ <-]. cbn [spans with_spans]. apply leibniz_equiv. intros k.
  rewrite !pool_keys_get, pool_get_set by by eexists. case_decide; [|done]. subst k. by rewrite Hd.
Qed.
Lemma new_span_parent_keys attrs w up w0 :
  Registry.new_span_parent attrs w = Done (up, w0) -> pool_keys (spans w0) = pool_keys (spans w).
Proof.
  assert (forall id, Registry.clone_parent id w = Done (up, w0) -> pool_keys (spans w0) = pool_keys (spans w)) as Hc.
  { intros [id|]; cbn; [|by intros [= _ <-]]. mred.
    destruct (Registry.clone_span id w) as [[i w1]|] eqn:Hcl; cbn; [|done]. intros [= _ <-]. by eapply clone_keys. }
  unfold Registry.new_span_parent. destruct (Attributes.is_root attrs); [apply (Hc None)|].
  destruct (Attributes.is_contextual attrs); [|apply Hc]. mred. rewrite current_span_reads. apply Hc.
Qed.

(** What making a span leaves as it was. *)
Definition one_more (w w' : World) : Prop :=
  current_spans w' = current_spans w /\ (size (pool_keys (spans w')) <= S (size (pool_keys (spans w))))%nat.

Lemma create_settled es h n w attrs dtc X c :
  unlimited -> Forall entry_ok es -> (filters es < 64)%nat -> settled es h n w ->
  Z.of_nat (S n) < U64.MAX ->
  (forall up, Attributes.parent attrs = Some up -> exists k, up = idx_to_id k /\ (0 < h k)%nat) ->
  pass_of es X c ->
  exists id w', s_new_span (stack dtc es) attrs (at_pass X c w) = Done (id, w') /\
    settled es (upd (id_to_idx id) (S (h (id_to_idx id))) h) (S (S n)) w' /\ one_more w w'.
Proof.
  intros Hpool Hok H64 [Hrefs Hcc Hq Hnf] Hn Hp HX.
  destruct (new_span_parent_refs h n w attrs Hrefs Hn Hp) as (up & p & Hup & Hrefs').
  destruct (pool_reserve p) as [[k d0]|] eqn:Hk; [|by apply Hpool in Hk].
  destruct (pool_reserve_fresh _ _ _ Hk) as (Hk0 & Hfresh & Hspare).
  assert (ref_count d0 = 0) as Hd0.
  { destruct up as [up|]; [destruct Hrefs' as (? & _ & _ & Hrefs')|];
      by apply (ro_spare _ _ _ Hrefs'). }
  assert (X ⊆ below (filters es) /\ (c = 0%nat -> X = ∅)) as [HXb HX0].
  { destruct HX as [[-> HX]|[-> ->]]; [|by split; [set_solver|]].
    by split; [|apply below_none]. }
  pose proof (registry_new_span X c (filters es) attrs w up (with_spans p w) k d0 Hnf HXb HX0
    Hup Hk Hd0) as Hreg.
  pose proof (pass_new_span es X c attrs _ w _ dtc Hok H64 HX Hreg) as Hrun.
  eexists _, _. split; [exact Hrun|]. rewrite id_idx by done. split.
  2:{ split; [done|]. cbn [spans with_user at_pass with_filtering with_spans].
      rewrite <- (new_span_parent_keys _ _ _ _ Hup). cbn [spans with_spans].
      assert (pool_keys (pool_publish k (new_data (map_of X) attrs up d0) p) ⊆ {[ k ]} ∪ pool_keys p) as Hsub.
      { intros k'. rewrite elem_of_union, elem_of_singleton, !pool_keys_get.
        erewrite pool_get_publish by exact Hk. case_decide; [by left|by right]. }
      apply subseteq_size in Hsub. rewrite (size_union_alt {[ k ]}), size_singleton in Hsub.
      pose proof (subseteq_size (pool_keys p ∖ {[ k ]}) (pool_keys p) ltac:(set_solver)). lia. }
  split; cbn [spans close_count filtering next_filter_id with_user at_pass with_filtering with_spans];
    [|done|apply fs_new|done].
  assert (h k = 0%nat) as Hhk.
  { destruct (h k) eqn:Ehk; [done|]. exfalso. destruct up as [up|].
    - destruct Hrefs' as (kp & _ & _ & Hrefs'). destruct (ro_held _ _ _ Hrefs' k); [|congruence].
      unfold upd. case_decide; lia.
    - destruct (ro_held _ _ _ Hrefs' k); [lia|congruence]. }
  destruct up as [up|].
  - destruct Hrefs' as (kp & Hkp & -> & Hrefs').
    assert (kp <> k) as Hne.
    { intros ->. destruct (ro_held _ _ _ Hrefs' k); [|congruence]. unfold upd.
      rewrite decide_True by done. lia. }
    eapply refs_ok_ext; [|eapply refs_ok_publish; [exact Hrefs'|exact Hk|done|]].
    + intros k'. cbn [new_data parent]. rewrite id_idx by done. unfold upd.
      destruct (decide (k' = k)) as [->|]; [by rewrite Hhk|].
      destruct (decide (k' = kp)) as [->|]; [|done]. by rewrite decide_True.
    + intros up [= <-]. exists kp. split_and!; [done|done|]. unfold upd.
      rewrite decide_True by done. lia.
  - eapply refs_ok_ext; [|eapply refs_ok_publish; [exact Hrefs'|exact Hk|done|done]].
    intros k'. cbn [new_data parent]. unfold upd. by rewrite Hhk.
Qed.

Lemma new_span_settled es h n w attrs interest dtc :
  unlimited -> Forall entry_ok es -> (filters es < 64)%nat -> settled es h n w ->
  Z.of_nat (S n) < U64.MAX ->
  (forall up, Attributes.parent attrs = Some up -> exists k, up = idx_to_id k /\ (0 < h k)%nat) ->
  exists r w',
    (enabled ← callsite_enabled (stack dtc es) (Attributes.metadata attrs) interest;
     if (enabled : bool) then id ← s_new_span (stack dtc es) attrs; mret (Some id)
     else mret None) w = Done (r, w') /\
    settled es (match r with
                | Some id => upd (id_to_idx id) (S (h (id_to_idx id))) h
                | None => h
                end) (S (S n)) w' /\ one_more w w'.
Proof.
  intros Hpool Hok H64 Hs Hn Hp. pose proof Hs as [Hrefs Hcc Hq Hnf].
  set (m := Attributes.metadata attrs). set (D := disabled_by m (user w) es).
  assert (forall w', settled es h n w' -> settled es h (S (S n)) w') as Hmore.
  { intros w' []. split; try done. eapply refs_ok_more; [done|lia]. }
  unfold callsite_enabled, is_enabled_. mred. destruct (Interest.is_never interest).
  { eexists _, _. split; [reflexivity|]. split; [by apply Hmore|by split; [|lia]]. }
  destruct (Interest.is_always interest).
  - destruct (create_settled es h n w attrs dtc ∅ 0 Hpool Hok H64 Hs Hn Hp) as (id & w' & Hrun & Hs');
      [by right|].
    rewrite at_pass_quiescent in Hrun by done. rewrite Hrun. by eexists _, _.
  - pose proof (stack_enabled dtc es ∅ 0 (filters es) m w Hok Hnf H64 eq_refl (empty_subseteq _)
      ltac:(by intros i Hi%elem_of_empty) ltac:(done)) as Hen.
    rewrite at_pass_quiescent, union_empty_l_L in Hen by done. fold D in Hen. rewrite Hen.
    destruct (globally_enabled m (user w) es).
    + destruct (create_settled es h n w attrs dtc D (filters es) Hpool Hok H64 Hs Hn Hp)
        as (id & w' & Hrun & Hs'); [left; split; [done|apply disabled_by_below]|].
      rewrite Hrun. by eexists _, _.
    + eexists _, _. split; [reflexivity|]. split; [apply Hmore; by split|by split; [|cbn; lia]].
Qed.

Lemma run_op_settled es h n w op fuel :
  unlimited -> Forall entry_ok es -> (filters es < 64)%nat -> es <> [] ->
  settled es h n w -> legal h op -> Z.of_nat (S n) < U64.MAX ->
  (size (pool_keys (spans w)) < fuel)%nat ->
  exists r w', run_op fuel es op w = Done (r, w') /\
    settled es (handles_after op r h) (S (S n)) w'.
Proof.
  intros Hpool Hok H64 Hne Hs Hl Hn Hfuel. pose proof Hs as [Hrefs Hcc Hq Hnf].
  destruct op as [i m vs|i kp m vs|i m vs|k|k|k|k|]; cbn [run_op op_attrs legal handles_after] in *.
  - edestruct (new_span_settled es h n w (Attributes.new_root m vs)) as (r & w' & ? & ? & _); [done..|]. by exists r, w'.
  - edestruct (new_span_settled es h n w (Attributes.child_of (idx_to_id kp) m vs)) as (r & w' & ? & ? & _);
      [done..| |by exists r, w']. intros up [= <-]. eauto.
  - edestruct (new_span_settled es h n w (Attributes.new m vs)) as (r & w' & ? & ? & _); [done..|]. by exists r, w'.
  - destruct (clone_refs h n w k Hrefs (ro_held _ _ _ Hrefs k Hl) Hn) as (p & Hc & Hrefs').
    assert (0 <= k) by (apply (ro_keys _ _ _ Hrefs), (ro_held _ _ _ Hrefs k Hl)).
    mred. rewrite (stack_clone_span _ es _ w _ _ Hc) by done.
    eexists _, _. split; [reflexivity|]. cbn iota; rewrite id_idx by done. split; try done.
    eapply refs_ok_more; [exact Hrefs'|lia].
  - destruct (close_span_refs fuel es h n w k) as (b & w' & Hrun & Hrefs' & [? ? ? ? ? _]);
      try done; [lia|lia|].
    mred. rewrite Hrun. eexists _, _. split; [reflexivity|]. split; try congruence.
    eapply refs_ok_more; [exact Hrefs'|lia].
  - assert (is_Some (pool_get k (spans w))) as Hk by by apply (ro_held _ _ _ Hrefs).
    assert (0 <= k) by by apply (ro_keys _ _ _ Hrefs).
    destruct (stack_enter_exit (close_span fuel es) es (idx_to_id k) w Hok) as [(u & Hrun) _];
      [lia|by rewrite id_idx|].
    mred. rewrite Hrun. eexists _, _. split; [reflexivity|]. split; try done.
    eapply refs_ok_more; [exact Hrefs|lia].
  - assert (is_Some (pool_get k (spans w))) as Hk by by apply (ro_held _ _ _ Hrefs).
    assert (0 <= k) by by apply (ro_keys _ _ _ Hrefs).
    destruct (stack_enter_exit (close_span fuel es) es (idx_to_id k) w Hok) as [_ (u & Hrun)];
      [lia|by rewrite id_idx|].
    mred. rewrite Hrun. eexists _, _. split; [reflexivity|]. split; try done.
    eapply refs_ok_more; [exact Hrefs|lia].
  - mred. rewrite stack_current_span. unfold current_of.
    destruct (current_spans w ≫= SpanStack.current) as [id|]; cbn [CurrentSpans.into_inner];
      [|eexists _, _; split; [reflexivity|]; split; try done; eapply refs_ok_more; [done|lia]].
    destruct (pool_get (id_to_idx id) (spans w)) as [d|] eqn:Hd; cbn [CurrentSpans.into_inner];
      [|eexists _, _; split; [reflexivity|]; split; try done; eapply refs_ok_more; [done|lia]].
    destruct (clone_refs h n w (id_to_idx id) Hrefs) as (p & Hc & Hrefs'); [by eexists|done|].
    rewrite id_of_idx in Hc. mred. rewrite (stack_clone_span _ es _ w _ _ Hc) by done.
    eexists _, _. split; [reflexivity|]. split; try done. eapply refs_ok_more; [exact Hrefs'|lia].
Qed.

(** ** Programs *)

(** The states that a program reaches: it starts with no span and holds [h k] handles
    to the span [k]; each step is a legal operation or the switch to another thread
    (with another stack of entered spans).  [n] bounds the number of references. *)
Inductive reachable (es : list entry) : handles -> nat -> World -> Prop :=
  | reach_start w :
      spans w = pool_new -> close_count w = 0 -> filtering w = FilterState.new ->
      next_filter_id w = Z.of_nat (filters es) -> reachable es (fun _ => 0%nat) 0 w
  | reach_op h n w op fuel r w' :
      reachable es h n w -> legal h op -> Z.of_nat (S n) < U64.MAX ->
      (size (pool_keys (spans w)) < fuel)%nat -> run_op fuel es op w = Done (r, w') ->
      reachable es (handles_after op r h) (S (S n)) w'
  | reach_thread h n w cs :
      reachable es h n w -> reachable es h n (with_current_spans cs w).

(** A span is held by a handle to it, or by a child that is held. *)
Inductive held (h : handles) (p : pool) (k : Z) : Prop :=
  | held_handle : (0 < h k)%nat -> held h p k
  | held_child k' d :
      pool_get k' p = Some d -> parent d = Some (idx_to_id k) -> 0 <= k ->
      held h p k' -> held h p k.

Lemma live_held h n p k : refs_ok h n p -> is_Some (pool_get k p) <-> held h p k.
Proof.
  intros Hrefs. split.
  - destruct (ro_rank _ _ _ Hrefs) as [rank Hrank].
    set (m := max_list (rank <$> elements (pool_keys p))).
    assert (forall k, is_Some (pool_get k p) -> (rank k <= m)%nat) as Hm.
    { intros k' Hk'. apply max_list_elem_of_le, list_elem_of_fmap. exists k'. split; [done|].
      by apply elem_of_elements, pool_keys_get. }
    intros Hk. remember (m - rank k)%nat as c eqn:Hc. revert k Hk Hc.
    induction (lt_wf c) as [c _ IH]. intros k Hk ->. pose proof Hk as [d Hd].
    destruct (ro_refs _ _ _ Hrefs _ _ Hd) as [Hr Hb].
    destruct (decide (0 < h k)%nat) as [|Hh]; [by apply held_handle|].
    destruct (set_choose_or_empty (children k p)) as [[k' Hk']|He].
    2:{ apply leibniz_equiv in He. rewrite He, size_empty in Hr. lia. }
    apply elem_children in Hk' as (d' & Hd' & Hup).
    assert (0 <= k) as H0 by by apply (ro_keys _ _ _ Hrefs).
    assert (is_Some (pool_get k' p)) as Hk' by eauto.
    apply (held_child h p k k' d'); try done. apply (IH (m - rank k')%nat); [|done|done].
    specialize (Hrank _ _ _ Hd' Hup H0). specialize (Hm _ Hk'). lia.
  - induction 1 as [k Hk|k k' d Hd Hup H0 _ _]; [by apply (ro_held _ _ _ Hrefs)|].
    destruct (ro_parent _ _ _ Hrefs _ _ _ Hd Hup) as (kp & Hkp & Heq & Hlive).
    by rewrite (idx_to_id_inj k kp) by done.
Qed.

Lemma reachable_settled es h n w :
  unlimited -> Forall entry_ok es -> (filters es < 64)%nat -> es <> [] ->
  reachable es h n w -> settled es h n w.
Proof.
  intros Hpool Hok H64 Hne. induction 1 as [w Hs Hc Hf Hn|h n w op fuel r w' _ IH Hl Hn Hfuel Hrun|h n w cs _ IH].
  - split; try done. rewrite Hs. apply refs_ok_new.
  - destruct (run_op_settled es h n w op fuel) as (r1 & w1 & Hrun1 & Hs); try done.
    rewrite Hrun in Hrun1. by injection Hrun1 as <- <-.
  - by destruct IH.
Qed.

(** C18: whatever a program does with the handles that it holds (creating root, child
    and contextual spans, cloning and dropping handles, taking a handle to the current
    span, entering and leaving spans in any order, on any thread), no operation panics; a span is in the registry exactly
    as long as it is held by a handle, or by a descendant that is; its reference count
    is the number of its handles and children; and between two operations the
    thread's filter state and its count of [CloseGuard]s are clean. *)
Theorem spans_open_while_held (es : list entry) (h : handles) (n : nat) (w : World)
    (Hpool : unlimited) (Hok : Forall entry_ok es) (H64 : (filters es < 64)%nat)
    (Hne : es <> []) (Hreach : reachable es h n w) :
  (forall k, is_Some (pool_get k (spans w)) <-> held h (spans w) k) /\
  (forall k d, pool_get k (spans w) = Some d ->
     ref_count d = Z.of_nat (h k + size (children k (spans w)))) /\
  filtering w = FilterState.new /\ close_count w = 0 /\
  (forall op fuel, legal h op -> Z.of_nat (S n) < U64.MAX ->
     (size (pool_keys (spans w)) < fuel)%nat ->
     exists r w', run_op fuel es op w = Done (r, w')).
Proof.
  pose proof (reachable_settled es h n w Hpool Hok H64 Hne Hreach) as Hs.
  pose proof Hs as [Hrefs Hc Hf Hn].
  split_and!; try done.
  - intros k. by apply (live_held h n).
  - intros k d Hd. by apply (ro_refs _ _ _ Hrefs).
  - intros op fuel Hl Hb Hfuel. destruct (run_op_settled es h n w op fuel) as (r & w' & Hrun & _); try done. eauto.
Qed.

#[export] Instance legal_dec h op : Decision (legal h op).
Proof. destruct op; cbn; apply _. Defined.

(** A program from a start state, checking that each operation is legal. *)
Fixpoint run_program (fuel : nat) (es : list entry) (ops : list span_op) (h : handles)
    (w : World) : outcome (handles * World) :=
  match ops with
  | [] => Done (h, w)
  | op :: ops =>
      _ ← assert (bool_decide (legal h op) && (size (pool_keys (spans w)) <? fuel)%nat);
      '(r, w) ← run_op fuel es op w;
      run_program fuel es ops (handles_after op r h) w
  end.

Lemma run_program_reachable fuel es ops h n w h' w' :
  reachable es h n w -> Z.of_nat (n + 2 * length ops) < U64.MAX ->
  run_program fuel es ops h w = Done (h', w') -> exists n', reachable es h' n' w'.
Proof.
  revert h n w. induction ops as [|op ops IH]; intros h n w Hr Hn Hrun; cbn [run_program] in Hrun.
  - injection Hrun as <- <-. eauto.
  - destruct (bool_decide (legal h op)) eqn:Hl; [|by cbn in Hrun].
    destruct (Nat.ltb_spec (size (pool_keys (spans w))) fuel); [|by cbn in Hrun]. cbn in Hrun.
    apply bool_decide_eq_true in Hl. cbn [length] in Hn.
    destruct (run_op fuel es op w) as [[r w1]|] eqn:Hop; [|by cbn in Hrun]. cbn in Hrun.
    apply (IH (handles_after op r h) (S (S n)) w1); [|lia|exact Hrun].
    apply (reach_op es h n w op fuel); [done|done|lia|done|done].
Qed.

End life.

(** ** A program on the example pool *)

Lemma example_unlimited : unlimited (P := example_pool).
Proof. by intros p. Qed.

(** A root with a child: the handle of the root is dropped first. *)
Definition root_then_child : list span_op :=
  [OpNewRoot Interest.sometimes (Attributes.metadata root_span) (Attributes.values root_span);
   OpNewChild Interest.always 0 (Attributes.metadata root_span) (Attributes.values root_span);
   OpEnter 1; OpDrop 0].

Definition example_spans (ops : list span_op) : outcome (handles * World) :=
  run_program 10 example_stack ops (fun _ => 0%nat) (with_filters 2).

Lemma spans_open_while_held_witness :
  match example_spans root_then_child with
  | Done (h, w) =>
      is_Some (pool_get 0 (spans w)) /\ held h (spans w) 0 /\ ~ (0 < h 0%Z)%nat /\
      filtering w = FilterState.new
  | Panic => False
  end.
Proof.
  assert (match example_spans root_then_child with
          | Done (h, w) => bool_decide (is_Some (pool_get 0 (spans w))) && (h 0%Z =? 0)%nat
          | Panic => false
          end = true) as Hev by (vm_compute; reflexivity).
  destruct (example_spans root_then_child) as [[h w]|] eqn:Hrun; [|discriminate Hev].
  apply andb_prop in Hev as [Hlive%bool_decide_eq_true Hh%Nat.eqb_eq].
  destruct (run_program_reachable 10 example_stack root_then_child (fun _ => 0%nat) 0
    (with_filters 2) h w) as [n Hr];
    [by apply reach_start|unfold U64.MAX; cbn; lia|exact Hrun|].
  destruct (spans_open_while_held example_stack h n w example_unlimited example_stack_ok
    ltac:(cbn; lia) ltac:(discriminate) Hr) as (Hheld & _ & Hf & _).
  split_and!; [done|by apply Hheld|lia|done].
Defined.
