(* ===== verification/SpanHandles.v ===== *)
(** * SpanHandles: [tracing/src/span.rs]

    The handles with which an instrumented program uses spans: [Span], the guards
    [Entered] and [EnteredSpan], and what their construction, clones, moves and drops ask
    of the dispatcher.  Programs that keep to Rust's ownership rules are shown to keep the
    reference counts of [SpanLife].  Output to the [log] crate is off. *)

From S2P Require Import Prelude.
From S2P Require Import Str.
From S2P Require Import Levels.
From S2P Require Import Fields.
From S2P Require Import Meta.
From S2P Require Import Interests.
From S2P Require Import FilterIds.
From S2P Require Import SpanStack.
From S2P Require Import Registry.
From S2P Require Import Pools.
From S2P Require Import Contexts.
From S2P Require Import Filters.
From S2P Require Import Layers.
From S2P Require Import Stacks.
From S2P Require Import SpanLife.

Local Open Scope Z_scope.

Section handles.
Context `{E : Env} {P : PoolOps DataInner}.

(** A [Dispatch] is the subscriber that it points to. *)
Abbreviation Dispatch := DynSubscriber.

(** ** [struct Span], [struct Inner] *)

Record Inner := { inner_id : Id; subscriber_ : Dispatch }.
Record Span := { inner : option Inner; meta : option Metadata }.

Definition inner_new (id : Id) (subscriber : Dispatch) : Inner :=
  {| inner_id := id; subscriber_ := subscriber |}.
Definition inner_follows_from (self : Inner) (from : Id) : M unit :=
  s_record_follows_from (subscriber_ self) (inner_id self) from.
Definition inner_record (self : Inner) (values : ValueSet) : M unit :=
  s_record (subscriber_ self) (inner_id self) values.
Definition inner_clone (self : Inner) : M Inner :=
  id ← s_clone_span (subscriber_ self) (inner_id self);
  mret {| inner_id := id; subscriber_ := subscriber_ self |}.
Definition inner_eq (self other : Inner) : bool := bool_decide (inner_id self = inner_id other).

(** *** Construction *)

Definition make_with (m : Metadata) (new_span : Attributes) (dispatch : Dispatch) : M Span :=
  id ← s_new_span dispatch new_span;
  mret {| inner := Some (inner_new id dispatch); meta := Some m |}.

Definition new_with (m : Metadata) (values : ValueSet) (dispatch : Dispatch) : M Span :=
  make_with m (Attributes.new m values) dispatch.
Definition new_root_with (m : Metadata) (values : ValueSet) (dispatch : Dispatch) : M Span :=
  make_with m (Attributes.new_root m values) dispatch.
Definition child_of_with (parent : option Id) (m : Metadata) (values : ValueSet)
    (dispatch : Dispatch) : M Span :=
  make_with m (match parent with
               | Some parent => Attributes.child_of parent m values
               | None => Attributes.new_root m values
               end) dispatch.

Definition new_disabled (m : Metadata) : Span := {| inner := None; meta := Some m |}.
Definition none : Span := {| inner := None; meta := None |}.

(** [Span::current], in the default dispatcher. *)
Definition current (dispatch : Dispatch) : M Span :=
  current ← s_current_span dispatch;
  match CurrentSpans.into_inner current with
  | Some (id, m) =>
      id ← s_clone_span dispatch id;
      mret {| inner := Some (inner_new id dispatch); meta := Some m |}
  | None => mret none
  end.

(** *** Queries *)

Definition id (self : Span) : option Id := inner_id <$> inner self.
Definition metadata (self : Span) : option Metadata := meta self.
Definition is_disabled (self : Span) : bool :=
  match inner self with None => true | Some _ => false end.
Definition is_none (self : Span) : bool :=
  is_disabled self && match meta self with None => true | Some _ => false end.
Definition with_subscriber {A} (self : Span) (f : Id * Dispatch -> A) : option A :=
  (fun inner => f (inner_id inner, subscriber_ inner)) <$> inner self.
Definition field (self : Span) (name : string) : option Field :=
  m ← metadata self; FieldSet.field (Metadata.fields m) name.
Definition has_field (self : Span) (name : string) : bool :=
  match field self name with Some _ => true | None => false end.
Definition span_eq (self other : Span) : bool :=
  match meta self, meta other with
  | Some this, Some that =>
      bool_decide (Metadata.callsite this = Metadata.callsite that) &&
      match inner self, inner other with
      | Some a, Some b => inner_eq a b
      | None, None => true
      | _, _ => false
      end
  | _, _ => false
  end.

(** *** Entering and leaving, recording, [Clone] and [Drop] *)

Definition do_enter (self : Span) : M unit :=
  match inner self with
  | Some inner => s_enter (subscriber_ inner) (inner_id inner)
  | None => mret tt
  end.
Definition do_exit (self : Span) : M unit :=
  match inner self with
  | Some inner => s_exit (subscriber_ inner) (inner_id inner)
  | None => mret tt
  end.

Definition record_all (self : Span) (values : ValueSet) : M unit :=
  match inner self with
  | Some inner => inner_record inner values
  | None => mret tt
  end.
(** [Span::record], of a field given by its name. *)
Definition record (self : Span) (name : string) (value : Value) : M unit :=
  match meta self with
  | Some m =>
      match FieldSet.field (Metadata.fields m) name with
      | Some field => record_all self (ValueSet.value_set (Metadata.fields m) [(field, Some value)])
      | None => mret tt
      end
  | None => mret tt
  end.
Definition follows_from (self : Span) (from : option Id) : M unit :=
  match inner self, from with
  | Some inner, Some from => inner_follows_from inner from
  | _, _ => mret tt
  end.

Definition clone (self : Span) : M Span :=
  match inner self with
  | Some i => i ← inner_clone i; mret {| inner := Some i; meta := meta self |}
  | None => mret self
  end.
Definition drop (self : Span) : M unit :=
  match inner self with
  | Some inner => _ ← s_try_close (subscriber_ inner) (inner_id inner); mret tt
  | None => mret tt
  end.

(** [or_current] takes [self]; a disabled [self] is dropped, which does nothing. *)
Definition or_current (self : Span) (dispatch : Dispatch) : M Span :=
  if is_disabled self then
    span ← current dispatch; _ ← drop self; mret span
  else mret self.

(** [in_scope]: the guard is dropped after the closure. *)
Definition in_scope {A} (self : Span) (f : M A) : M A :=
  _ ← do_enter self; r ← f; _ ← do_exit self; mret r.

(** [EnteredSpan::exit]: the guard keeps a span that is none, whose own exit and drop do
    nothing. *)
Definition entered_exit (span : Span) : M Span :=
  _ ← do_exit span; _ ← do_exit none; _ ← drop none; mret span.
(** The drop of an [EnteredSpan]: its [Drop], then that of its field. *)
Definition entered_drop (span : Span) : M unit := _ ← do_exit span; drop span.

(** What the macro of a callsite reads first: the static maximum level, the global one
    and the interest that the callsite has cached. *)
Record Cached := {
  static_max : LevelFilter.t;
  current_max : LevelFilter.t;
  interest : Interest;
}.

(** [level_enabled!] *)
Definition level_enabled (c : Cached) (l : Level.t) : bool :=
  LevelFilter.level_le l (static_max c) && LevelFilter.level_le l (current_max c).

(** The span macro: [Span::none] when the callsite is not enabled ([__disabled_span],
    without the [log] feature). *)
Definition span_macro (dispatch : Dispatch) (c : Cached) (m : Metadata) (make : M Span) : M Span :=
  if level_enabled c (Metadata.level m) then
    enabled ← callsite_enabled dispatch m (interest c);
    if (enabled : bool) then make else mret none
  else mret none.

End handles.

(** ** Programs

    The variables of a program, with the number of [Entered] guards that borrow each; the
    span of a variable may have become an [EnteredSpan].  Moved and dropped variables are
    gone. *)

Section programs.
Context `{E : Env} {P : PoolOps DataInner} `{!PoolLaws default_data P}.
Variable es : list entry.
Variable fuel : nat.

Definition dispatch : DynSubscriber := stack (close_span fuel es) es.

Record Var := { var_span : Span; borrows : nat; is_entered : bool }.
Definition plain (span : Span) : Var := {| var_span := span; borrows := 0; is_entered := false |}.
Definition State : Type := list (option Var).

Inductive expr :=
  | New (c : Cached) (m : Metadata) (vs : ValueSet)
  | NewRoot (c : Cached) (m : Metadata) (vs : ValueSet)
  | ChildOf (c : Cached) (y : nat) (m : Metadata) (vs : ValueSet)
  | NoSpan
  | CurrentSpan_
  | CloneOf (y : nat).

Inductive stmt :=
  | Let (e : expr)
  | DropVar (x : nat)
  | Enter (x : nat)
  | DropGuard (x : nat)
  | IntoEntered (x : nat)
  | ExitEntered (x : nat)
  | DropEntered (x : nat)
  | OrCurrent (x : nat).

Definition var (st : State) (x : nat) : option Var := mjoin (st !! x).

(** The rules of ownership: a variable that is used exists, and one that is moved or
    dropped is not borrowed. *)
Definition owned (entered : bool) (st : State) (x : nat) : bool :=
  match var st x with
  | Some v => (borrows v =? 0)%nat && eqb (is_entered v) entered
  | None => false
  end.
Definition allowed (st : State) (s : stmt) : bool :=
  match s with
  | Let (ChildOf _ y _ _) | Let (CloneOf y) | Enter y =>
      match var st y with Some _ => true | None => false end
  | Let _ => true
  | DropGuard x => match var st x with Some v => (0 <? borrows v)%nat | None => false end
  | DropVar x | IntoEntered x | OrCurrent x => owned false st x
  | ExitEntered x | DropEntered x => owned true st x
  end.

Definition eval (st : State) (e : expr) : M Span :=
  match e with
  | New c m vs => span_macro dispatch c m (new_with m vs dispatch)
  | NewRoot c m vs => span_macro dispatch c m (new_root_with m vs dispatch)
  | ChildOf c y m vs =>
      v ← lift (expect (var st y));
      span_macro dispatch c m (child_of_with (id (var_span v)) m vs dispatch)
  | NoSpan => mret none
  | CurrentSpan_ => current dispatch
  | CloneOf y => v ← lift (expect (var st y)); clone (var_span v)
  end.

Definition with_borrows (n : nat) (v : Var) : Var :=
  {| var_span := var_span v; borrows := n; is_entered := is_entered v |}.

Definition exec (s : stmt) (st : State) : M State :=
  match s with
  | Let e => span ← eval st e; mret (st ++ [Some (plain span)])
  | DropVar x =>
      v ← lift (expect (var st x)); _ ← drop (var_span v); mret (<[x := None]> st)
  | Enter x =>
      v ← lift (expect (var st x));
      _ ← do_enter (var_span v); mret (<[x := Some (with_borrows (S (borrows v)) v)]> st)
  | DropGuard x =>
      v ← lift (expect (var st x));
      _ ← do_exit (var_span v); mret (<[x := Some (with_borrows (pred (borrows v)) v)]> st)
  | IntoEntered x =>
      v ← lift (expect (var st x));
      _ ← do_enter (var_span v);
      mret (<[x := Some {| var_span := var_span v; borrows := 0; is_entered := true |}]> st)
  | ExitEntered x =>
      v ← lift (expect (var st x));
      span ← entered_exit (var_span v); mret (<[x := Some (plain span)]> st)
  | DropEntered x =>
      v ← lift (expect (var st x));
      _ ← entered_drop (var_span v); mret (<[x := None]> st)
  | OrCurrent x =>
      v ← lift (expect (var st x));
      span ← or_current (var_span v) dispatch; mret (<[x := Some (plain span)]> st)
  end.

(** The states of a program that starts without spans; between its statements another
    thread, with its own stack of entered spans, may run it. *)
Inductive program : State -> nat -> World -> Prop :=
  | program_start w :
      spans w = pool_new -> close_count w = 0 -> filtering w = FilterState.new ->
      next_filter_id w = Z.of_nat (filters es) -> program [] 0 w
  | program_step st n w s st' w' :
      program st n w -> allowed st s = true -> Z.of_nat (S (S (S n))) < U64.MAX ->
      (size (pool_keys (spans w)) < fuel)%nat -> exec s st w = Done (st', w') ->
      program st' (S (S (S (S n)))) w'
  | program_thread st n w cs :
      program st n w -> program st n (with_current_spans cs w).

(** The number of variables that hold the span [k]. *)
Definition holds_one (k : Z) (v : option Var) : nat :=
  match v ≫= fun v => id (var_span v) with
  | Some i => if decide (id_to_idx i = k) then 1%nat else 0%nat
  | None => 0%nat
  end.
Definition holds (st : State) : handles := fun k => sum_list_with (holds_one k) st.

(** The spans of the variables belong to the dispatcher. *)
Definition state_ok (st : State) : Prop :=
  Forall (fun v => forall v' i, v = Some v' -> inner (var_span v') = Some i ->
    subscriber_ i = dispatch) st.

Lemma holds_snoc st v k : holds (st ++ [v]) k = (holds st k + holds_one k v)%nat.
Proof. unfold holds. rewrite sum_list_with_app. cbn. lia. Qed.

Lemma holds_insert st x v v' k :
  st !! x = Some v -> (holds (<[x := v']> st) k + holds_one k v = holds st k + holds_one k v')%nat.
Proof. apply sum_list_with_insert. Qed.

Lemma holds_var st x v i :
  var st x = Some v -> id (var_span v) = Some i -> (0 < holds st (id_to_idx i))%nat.
Proof.
  intros Hv Hi. unfold var in Hv. destruct (st !! x) as [o|] eqn:Hx; [|done]. cbn in Hv. subst o.
  pose proof (holds_insert st x (Some v) None (id_to_idx i) Hx) as H.
  unfold holds_one in H at 1. cbn in H. rewrite Hi in H. rewrite decide_True in H by done. lia.
Qed.

Lemma var_lookup st x v : var st x = Some v -> st !! x = Some (Some v).
Proof. unfold var. destruct (st !! x) as [o|]; [|done]. by cbn; intros ->. Qed.

Lemma settled_ext h h' n w : (forall k, h' k = h k) -> settled es h n w -> settled es h' n w.
Proof. intros Hh []. split; try done. eapply refs_ok_ext; [|done]. intros k. by rewrite Hh. Qed.

Hypotheses (Hpool : unlimited) (Hok : Forall entry_ok es) (H64 : (filters es < 64)%nat)
  (Hne : es <> []).

(** One call of the dispatcher. *)
Lemma call_ok h n w op :
  settled es h n w -> legal h op -> Z.of_nat (S n) < U64.MAX ->
  (size (pool_keys (spans w)) < fuel)%nat ->
  exists r w', run_op fuel es op w = Done (r, w') /\
    settled es (handles_after op r h) (S (S n)) w'.
Proof. intros. by apply run_op_settled. Qed.

Definition to_span (m : Metadata) (r : option Id) : Span :=
  match r with
  | Some id => {| inner := Some (inner_new id dispatch); meta := Some m |}
  | None => none
  end.

(** A span that is made by a macro. *)
Lemma macro_ok h n w op c attrs :
  op_attrs op = Some (interest c, attrs) -> settled es h n w -> legal h op -> Z.of_nat (S n) < U64.MAX ->
  (size (pool_keys (spans w)) < fuel)%nat ->
  exists r w', span_macro dispatch c (Attributes.metadata attrs)
      (make_with (Attributes.metadata attrs) attrs dispatch) w =
      Done (to_span (Attributes.metadata attrs) r, w') /\
    settled es (match r with Some id => upd (id_to_idx id) (S (h (id_to_idx id))) h | None => h end)
      (S (S n)) w'.
Proof.
  intros Hattrs Hs Hl Hn Hf. unfold span_macro.
  destruct (level_enabled c _).
  2:{ exists None, w. split; [done|]. destruct Hs. split; try done. eapply refs_ok_more; [done|lia]. }
  destruct (call_ok h n w op Hs Hl Hn Hf) as (r & w' & Hrun & Hs').
  exists r, w'. split.
  - assert (run_op fuel es op =
      (enabled ← callsite_enabled dispatch (Attributes.metadata attrs) (interest c);
      if (enabled : bool) then id ← s_new_span dispatch attrs; mret (Some id) else mret None)) as Heq.
    { destruct op; try done; cbn in Hattrs; by injection Hattrs as <- <-. }
    rewrite Heq in Hrun. unfold make_with. revert Hrun. mred.
    destruct (callsite_enabled dispatch _ _ w) as [[[] w1]|]; cbn; [|by intros [= <- <-]|done].
    mred. destruct (s_new_span dispatch attrs w1) as [[i w2]|]; cbn; [|done]. by intros [= <- <-].
  - destruct op; try done.
Qed.

Lemma current_ok h n w :
  settled es h n w -> Z.of_nat (S n) < U64.MAX -> (size (pool_keys (spans w)) < fuel)%nat ->
  exists span r w', current dispatch w = Done (span, w') /\ id span = r /\
    (forall i, inner span = Some i -> subscriber_ i = dispatch) /\
    settled es (match r with Some id => upd (id_to_idx id) (S (h (id_to_idx id))) h | None => h end)
      (S (S n)) w'.
Proof.
  intros Hs Hn Hf. destruct (call_ok h n w OpCurrent Hs I Hn Hf) as (r & w' & Hrun & Hs').
  revert Hrun. unfold run_op, current. fold dispatch. mred.
  destruct (s_current_span dispatch w) as [[c w1]|]; cbn; [|done].
  destruct (CurrentSpans.into_inner c) as [[i m]|]; mred.
  - destruct (s_clone_span dispatch i w1) as [[i' w2]|]; cbn; [|done]. intros [= <- <-].
    eexists _, _, _. split; [reflexivity|]. split; [reflexivity|]. split; [|exact Hs'].
    by intros ? [= <-].
  - intros [= <- <-]. eexists _, _, _. split; [reflexivity|]. split; [reflexivity|].
    split; [done|exact Hs'].
Qed.

(** The calls on an existing span; a disabled one makes none. *)
Lemma span_call_ok h n w span :
  settled es h n w -> (forall i, inner span = Some i -> subscriber_ i = dispatch) ->
  (forall i, id span = Some i -> (0 < h (id_to_idx i))%nat) -> Z.of_nat (S n) < U64.MAX ->
  (size (pool_keys (spans w)) < fuel)%nat ->
  (exists w', do_enter span w = Done (tt, w') /\ settled es h (S (S n)) w') /\
  (exists w', do_exit span w = Done (tt, w') /\ settled es h (S (S n)) w' /\
    pool_keys (spans w') = pool_keys (spans w)) /\
  (exists w', drop span w = Done (tt, w') /\
    settled es (match id span with Some i => drop_handle (id_to_idx i) h | None => h end)
      (S (S n)) w') /\
  (exists span' w', clone span w = Done (span', w') /\ id span' = id span /\
    (forall i, inner span' = Some i -> subscriber_ i = dispatch) /\
    settled es (match id span with
                | Some i => upd (id_to_idx i) (S (h (id_to_idx i))) h
                | None => h
                end) (S (S n)) w').
Proof.
  intros Hs Hd Hh Hn Hf. destruct span as [[[i sub]|] m]; cbn in *.
  2:{ assert (settled es h (S (S n)) w) as Hs'.
      { destruct Hs. split; try done. eapply refs_ok_more; [done|lia]. }
      split_and!; [by exists w..|]. eexists _, w. by split_and!. }
  specialize (Hd _ eq_refl). cbn in Hd. subst sub. specialize (Hh i eq_refl).
  assert (is_Some (pool_get (id_to_idx i) (spans w))) as Hlive.
  { by apply (ro_held _ _ _ (se_refs _ _ _ _ Hs)). }
  pose proof (call_ok h n w (OpEnter (id_to_idx i)) Hs Hh Hn Hf) as (r1 & w1 & H1 & Hs1).
  pose proof (call_ok h n w (OpExit (id_to_idx i)) Hs Hh Hn Hf) as (r3 & w3 & H3 & Hs3).
  assert (exists r w', run_op (S fuel) es (OpDrop (id_to_idx i)) w = Done (r, w') /\
    settled es (handles_after (OpDrop (id_to_idx i)) r h) (S (S n)) w') as (r4 & w4 & H4 & Hs4).
  { apply run_op_settled; try done. lia. }
  destruct (stack_enter_exit (close_span fuel es) es i w Hok) as [_ (u & Hexit)]; [lia|done|].
  destruct (clone_refs h n w (id_to_idx i) (se_refs _ _ _ _ Hs) Hlive Hn) as (p & Hc & Hrefs).
  rewrite id_of_idx in Hc. apply (stack_clone_span (close_span fuel es) es) in Hc; [|done].
  unfold run_op in H1, H3, H4. rewrite id_of_idx in H1, H3, H4. revert H1 H3 H4. mred.
  fold dispatch in Hexit, Hc |- *. rewrite Hexit.
  unfold do_enter, do_exit, drop, clone, inner_clone. cbn [inner subscriber_ inner_id].
  intros H1 H3 H4. injection H3 as <- <-. split_and!.
  - destruct (s_enter dispatch i w) as [[[] w']|]; [|done]. injection H1 as <- <-. by exists w'.
  - eexists. split_and!; [reflexivity|exact Hs3|done].
  - cbn [close_span] in H4. fold dispatch in H4. mred.
    destruct (s_try_close dispatch i w) as [[b w']|]; [|done]. injection H4 as <- <-. by exists w'.
  - mred. rewrite Hc. eexists _, _. split; [reflexivity|]. split_and!; [done|by intros ? [= <-]|].
    destruct Hs. split; try done. cbn. eapply refs_ok_more; [exact Hrefs|lia].
Qed.

(** Replacing a variable, with what it holds. *)
Lemma settled_insert st x v v' h n w :
  var st x = Some v ->
  (forall k, h k + holds_one k (Some v) = holds st k + holds_one k v')%nat ->
  settled es h n w -> settled es (holds (<[x := v']> st)) n w.
Proof.
  intros Hv Hh. apply settled_ext. intros k.
  pose proof (holds_insert st x (Some v) v' k (var_lookup _ _ _ Hv)). specialize (Hh k). lia.
Qed.

Lemma state_ok_var st x v i :
  state_ok st -> var st x = Some v -> inner (var_span v) = Some i -> subscriber_ i = dispatch.
Proof.
  intros Hst Hv Hi. apply var_lookup in Hv. unfold state_ok in Hst.
  rewrite Forall_lookup in Hst. by eapply (Hst x (Some v)).
Qed.

Lemma state_ok_insert st x v' :
  state_ok st ->
  (forall v i, v' = Some v -> inner (var_span v) = Some i -> subscriber_ i = dispatch) ->
  state_ok (<[x := v']> st).
Proof. intros Hst Hv. apply Forall_insert; [exact Hst|exact Hv]. Qed.

Lemma holds_same k v v' :
  id (var_span v) = id (var_span v') -> holds_one k (Some v) = holds_one k (Some v').
Proof. intros H. unfold holds_one. cbn. by rewrite H. Qed.

Lemma upd_holds st i k :
  upd i (S (holds st i)) (holds st) k =
    (holds st k + if decide (i = k) then 1 else 0)%nat.
Proof. unfold upd. destruct (decide (k = i)) as [->|]; case_decide; try done; lia. Qed.

Lemma drop_holds st x v k :
  var st x = Some v ->
  ((match id (var_span v) with Some i => drop_handle (id_to_idx i) (holds st) | None => holds st end) k
    + holds_one k (Some v) = holds st k)%nat.
Proof.
  intros Hv. unfold holds_one. cbn. destruct (id (var_span v)) as [i|] eqn:Hi; [|lia].
  pose proof (holds_var st x v i Hv Hi). unfold drop_handle, upd.
  destruct (decide (k = id_to_idx i)) as [->|]; case_decide; try done; lia.
Qed.

(** The new variable of a [Let]. *)
Lemma let_ok st n w span r :
  id span = r -> (forall i, inner span = Some i -> subscriber_ i = dispatch) -> state_ok st ->
  settled es (match r with
              | Some id => upd (id_to_idx id) (S (holds st (id_to_idx id))) (holds st)
              | None => holds st
              end) n w ->
  settled es (holds (st ++ [Some (plain span)])) n w /\ state_ok (st ++ [Some (plain span)]).
Proof.
  intros Hr Hd Hst Hs. split.
  - eapply settled_ext; [|exact Hs]. intros k. rewrite holds_snoc. unfold holds_one. cbn.
    rewrite Hr. destruct r as [i|]; [by rewrite upd_holds|lia].
  - apply Forall_app. split; [exact Hst|]. constructor; [|done]. intros v i [= <-]. apply Hd.
Qed.

Lemma to_span_id m r :
  id (to_span m r) = r /\ (forall i, inner (to_span m r) = Some i -> subscriber_ i = dispatch).
Proof. destruct r; cbn; split; try done. by intros ? [= <-]. Qed.

Lemma eval_ok st n w e :
  settled es (holds st) n w -> state_ok st -> allowed st (Let e) = true ->
  Z.of_nat (S n) < U64.MAX -> (size (pool_keys (spans w)) < fuel)%nat ->
  exists span w', eval st e w = Done (span, w') /\
    settled es (holds (st ++ [Some (plain span)])) (S (S n)) w' /\
    state_ok (st ++ [Some (plain span)]).
Proof.
  intros Hs Hst Ha Hn Hf.
  assert (forall c attrs op, op_attrs op = Some (interest c, attrs) -> legal (holds st) op ->
    exists span w', span_macro dispatch c (Attributes.metadata attrs)
      (make_with (Attributes.metadata attrs) attrs dispatch) w = Done (span, w') /\
    settled es (holds (st ++ [Some (plain span)])) (S (S n)) w' /\
    state_ok (st ++ [Some (plain span)])) as Hmacro.
  { intros c attrs op Hop Hl.
    destruct (macro_ok (holds st) n w op c attrs Hop Hs Hl Hn Hf) as (r & w' & Hrun & Hs').
    destruct (to_span_id (Attributes.metadata attrs) r) as [Hid Hsub].
    eexists _, w'. split; [exact Hrun|]. by eapply let_ok. }
  destruct e as [c m vs|c m vs|c y m vs| | |y]; cbn [eval].
  - by apply (Hmacro c (Attributes.new m vs) (OpNewContextual (interest c) m vs)).
  - by apply (Hmacro c (Attributes.new_root m vs) (OpNewRoot (interest c) m vs)).
  - cbn in Ha. destruct (var st y) as [v|] eqn:Hv; [|done]. mred. cbn [expect lift mbind outcome_bind].
    unfold child_of_with. destruct (id (var_span v)) as [i|] eqn:Hi.
    + apply (Hmacro c (Attributes.child_of i m vs)
        (OpNewChild (interest c) (id_to_idx i) m vs)).
      * cbn. by rewrite id_of_idx.
      * cbn. by eapply holds_var.
    + by apply (Hmacro c (Attributes.new_root m vs) (OpNewRoot (interest c) m vs)).
  - exists none, w. split; [done|]. eapply (let_ok st _ _ none None); try done.
    destruct Hs. split; try done. eapply refs_ok_more; [done|lia].
  - destruct (current_ok (holds st) n w Hs Hn Hf) as (span & r & w' & Hrun & Hr & Hsub & Hs').
    exists span, w'. split; [exact Hrun|]. by eapply let_ok.
  - cbn in Ha. destruct (var st y) as [v|] eqn:Hv; [|done]. mred. cbn [expect lift mbind outcome_bind].
    destruct (span_call_ok (holds st) n w (var_span v)) as (_ & _ & _ & (span & w' & Hc & Hid & Hsub & Hs'));
      try done.
    { intros i. by eapply state_ok_var. }
    { intros i. by eapply holds_var. }
    exists span, w'. split; [exact Hc|]. by eapply let_ok.
Qed.

Lemma settled_more h n m w : settled es h n w -> (n <= m)%nat -> settled es h m w.
Proof. intros [] Hnm. split; try done. by eapply refs_ok_more. Qed.

Lemma owned_var b st x : owned b st x = true -> exists v, var st x = Some v.
Proof. unfold owned. destruct (var st x) as [v|]; [by exists v|done]. Qed.

Lemma allowed_var st s :
  allowed st s = true ->
  match s with
  | Let _ => True
  | DropVar x | Enter x | DropGuard x | IntoEntered x | ExitEntered x | DropEntered x
  | OrCurrent x => exists v, var st x = Some v
  end.
Proof.
  destruct s; cbn; try done; try apply owned_var; destruct (var st x) as [v|]; try done; by exists v.
Qed.

Lemma exec_ok st n w s :
  settled es (holds st) n w -> state_ok st -> allowed st s = true ->
  Z.of_nat (S (S (S n))) < U64.MAX -> (size (pool_keys (spans w)) < fuel)%nat ->
  exists st' w', exec s st w = Done (st', w') /\
    settled es (holds st') (S (S (S (S n)))) w' /\ state_ok st'.
Proof.
  intros Hs Hst Ha Hn Hf. pose proof (allowed_var st s Ha) as Hvar.
  destruct s as [e|x|x|x|x|x|x|x]; cbn [exec].
  { destruct (eval_ok st n w e) as (span & w' & Hrun & Hs' & Hst'); try done; [lia|].
    mred. rewrite Hrun. eexists _, w'. split; [reflexivity|]. split; [|done].
    eapply settled_more; [exact Hs'|lia]. }
  all: destruct Hvar as [v Hv]; rewrite Hv; mred; cbn [expect lift mbind outcome_bind].
  all: destruct (span_call_ok (holds st) n w (var_span v))
    as ((w1 & H1 & Hs1) & (w2 & H2 & Hs2 & Hsp) & (w3 & H3 & Hs3) & _); try done; try lia;
    [by intros i; eapply state_ok_var|by intros i; eapply holds_var|].
  all: assert (forall v' m w', settled es (holds st) m w' -> (m <= S (S (S (S n))))%nat ->
    var_span v' = var_span v ->
    settled es (holds (<[x := Some v']> st)) (S (S (S (S n)))) w' /\ state_ok (<[x := Some v']> st))
    as Hsame by (intros v' m w' Hs' Hm Hsame; split;
      [eapply settled_insert; [exact Hv| |by eapply settled_more];
       intros k; f_equal; apply holds_same; by rewrite Hsame
      |apply state_ok_insert; [done|]; intros v0 i [= <-]; rewrite Hsame; by eapply state_ok_var]).
  all: assert (forall m w', settled es (match id (var_span v) with
      | Some i => drop_handle (id_to_idx i) (holds st) | None => holds st end) m w' ->
      (m <= S (S (S (S n))))%nat ->
    settled es (holds (<[x := None]> st)) (S (S (S (S n)))) w' /\ state_ok (<[x := None]> st))
    as Hgone by (intros m w' Hs' Hm; split;
      [eapply settled_ext; [|by eapply settled_more]; intros k;
       pose proof (holds_insert st x (Some v) None k (var_lookup _ _ _ Hv)) as Hk;
       pose proof (drop_holds st x v k Hv) as Hdk; unfold holds_one in Hk at 2; cbn in Hk; lia
      |by apply state_ok_insert]).
  - rewrite H3. eexists _, w3. split; [reflexivity|]. eapply Hgone; [exact Hs3|lia].
  - rewrite H1. eexists _, w1. split; [reflexivity|]. by eapply Hsame; [exact Hs1|lia|].
  - rewrite H2. eexists _, w2. split; [reflexivity|]. by eapply Hsame; [exact Hs2|lia|].
  - rewrite H1. eexists _, w1. split; [reflexivity|]. by eapply Hsame; [exact Hs1|lia|].
  - unfold entered_exit. mred. rewrite H2. eexists _, w2. split; [reflexivity|].
    by eapply Hsame; [exact Hs2|lia|].
  - unfold entered_drop. mred. rewrite H2.
    destruct (span_call_ok (holds st) (S (S n)) w2 (var_span v))
      as (_ & _ & (w4 & H4 & Hs4) & _); try done.
    { by intros i; eapply state_ok_var. }
    { by intros i; eapply holds_var. }
    { by rewrite Hsp. }
    rewrite H4. eexists _, w4. split; [reflexivity|]. eapply Hgone; [exact Hs4|lia].
  - unfold or_current, is_disabled. destruct (inner (var_span v)) as [i|] eqn:Hi.
    + eexists _, w. split; [reflexivity|]. by eapply Hsame; [exact Hs|lia|].
    + destruct (current_ok (holds st) n w Hs ltac:(lia) Hf)
        as (span & r & w' & Hrun & Hr & Hsub & Hs').
      mred. rewrite Hrun. unfold drop. rewrite Hi. eexists _, w'. split; [reflexivity|]. split.
      * eapply settled_ext; [|eapply settled_more; [exact Hs'|lia]]. intros k.
        pose proof (holds_insert st x (Some v) (Some (plain span)) k (var_lookup _ _ _ Hv)) as Hk.
        unfold holds_one in Hk. cbn in Hk. unfold id in Hk at 1. rewrite Hi in Hk. cbn in Hk.
        rewrite Hr in Hk. destruct r as [i|]; [rewrite upd_holds; lia|lia].
      * apply state_ok_insert; [done|]. intros v0 i [= <-]. apply Hsub.
Qed.

Lemma program_ok st n w : program st n w -> settled es (holds st) n w /\ state_ok st.
Proof.
  induction 1 as [w Hs Hc Hf Hn|st n w s st' w' _ [IH1 IH2] Ha Hn Hf Hrun|st n w cs _ [IH1 IH2]].
  - split; [|by constructor]. split; try done. rewrite Hs. apply refs_ok_new.
  - destruct (exec_ok st n w s) as (st1 & w1 & Hrun1 & Hs & Hst); try done.
    rewrite Hrun in Hrun1. by injection Hrun1 as <- <-.
  - split; [|done]. by destruct IH1.
Qed.

End programs.

(** C6: a program that uses spans only through its handles and keeps to the rules of
    ownership (creating spans by the macro, cloning, taking the current span, entering
    by borrowing and by moving, dropping handles and guards, [or_current], on any
    thread) never panics, whatever the order of its statements; the span of every live
    handle is in the registry; and a span is in the registry exactly as long as a handle
    or a held descendant of it exists. *)
Theorem handles_keep_spans `{E : Env} {P : PoolOps DataInner} `{!PoolLaws default_data P}
    (es : list entry) (fuel : nat) (st : State) (n : nat) (w : World)
    (Hpool : unlimited) (Hok : Forall entry_ok es) (H64 : (filters es < 64)%nat)
    (Hne : es <> []) (Hprog : program es fuel st n w) :
  (forall x v i, var st x = Some v -> id (var_span v) = Some i ->
     is_Some (pool_get (id_to_idx i) (spans w))) /\
  (forall k, is_Some (pool_get k (spans w)) <-> held (holds st) (spans w) k) /\
  (forall k d, pool_get k (spans w) = Some d ->
     ref_count d = Z.of_nat (holds st k + size (children k (spans w)))) /\
  (forall s, allowed st s = true -> Z.of_nat (S (S (S n))) < U64.MAX ->
     (size (pool_keys (spans w)) < fuel)%nat ->
     exists st' w', exec es fuel s st w = Done (st', w')).
Proof.
  destruct (program_ok es fuel Hpool Hok H64 Hne st n w Hprog) as [Hs Hst].
  pose proof (se_refs _ _ _ _ Hs) as Hrefs. split_and!.
  - intros x v i Hv Hi. apply (ro_held _ _ _ Hrefs). by eapply holds_var.
  - intros k. by apply (live_held _ n).
  - intros k d Hd. by apply (ro_refs _ _ _ Hrefs).
  - intros s Ha Hn Hf. destruct (exec_ok es fuel Hpool Hok H64 Hne st n w s) as (st' & w' & Hrun & _);
      try done. eauto.
Qed.

(** A program run from a state, checking the rules of ownership. *)
Fixpoint run_stmts `{E : Env} {P : PoolOps DataInner} `{!PoolLaws default_data P} (es : list entry) (fuel : nat)
    (l : list stmt) (st : State) (w : World) : outcome (State * World) :=
  match l with
  | [] => Done (st, w)
  | s :: l =>
      _ ← assert (allowed st s && (size (pool_keys (spans w)) <? fuel)%nat);
      '(st, w) ← exec es fuel s st w;
      run_stmts es fuel l st w
  end.

Lemma run_stmts_program `{E : Env} {P : PoolOps DataInner} `{!PoolLaws default_data P} es fuel l st n w st' w' :
  program es fuel st n w -> Z.of_nat (4 + n + 4 * length l) < U64.MAX ->
  run_stmts es fuel l st w = Done (st', w') -> exists m, program es fuel st' m w'.
Proof.
  revert st n w. induction l as [|s l IH]; intros st n w Hp Hn; cbn [run_stmts].
  { intros [= <- <-]. by exists n. }
  destruct (allowed st s) eqn:Ha; [|done].
  destruct (Nat.ltb_spec (size (pool_keys (spans w))) fuel) as [Hf|]; [|done].
  cbn [andb assert mbind outcome_bind].
  destruct (exec es fuel s st w) as [[st1 w1]|] eqn:Hrun; [|done].
  cbn in Hn. apply (IH st1 (4 + n)%nat w1); [|cbn; lia].
  cbn. eapply program_step; try done. lia.
Qed.

Definition always_on : Cached :=
  {| static_max := LevelFilter.TRACE; current_max := LevelFilter.TRACE;
     interest := Interest.always |}.
Definition asking : Cached :=
  {| static_max := LevelFilter.TRACE; current_max := LevelFilter.INFO;
     interest := Interest.sometimes |}.

(** A span with a child that is entered and dropped by its [EnteredSpan], while the
    parent's handle is gone; then the current span in place of a disabled one. *)
Definition nested_spans : list stmt :=
  [Let (NewRoot asking (Attributes.metadata root_span) (Attributes.values root_span));
   Let (ChildOf always_on 0 (Attributes.metadata root_span) (Attributes.values root_span));
   Enter 1; Let NoSpan; DropVar 0; OrCurrent 2; Let (CloneOf 2); DropGuard 1; IntoEntered 1;
   DropEntered 1].

Definition nested_end : outcome (State * World) :=
  run_stmts example_stack 10 nested_spans [] (with_filters 2).

Lemma handles_keep_spans_witness :
  match nested_end with
  | Done (st, w) =>
      is_Some (pool_get 1 (spans w)) /\ held (holds st) (spans w) 0 /\ holds st 0 = 0%nat /\
      holds st 1 = 2%nat
  | Panic => False
  end.
Proof.
  assert (match nested_end with
          | Done (st, w) => bool_decide (is_Some (pool_get 0 (spans w))) &&
              bool_decide (is_Some (pool_get 1 (spans w))) &&
              (holds st 0%Z =? 0)%nat && (holds st 1%Z =? 2)%nat
          | Panic => false
          end = true) as Hev by (vm_compute; reflexivity).
  destruct nested_end as [[st w]|] eqn:Hrun; [|discriminate Hev].
  apply andb_prop in Hev as [Hev H1%Nat.eqb_eq]. apply andb_prop in Hev as [Hev H0%Nat.eqb_eq].
  apply andb_prop in Hev as [Hlive0%bool_decide_eq_true Hlive1%bool_decide_eq_true].
  destruct (run_stmts_program example_stack 10 nested_spans [] 0 (with_filters 2) st w)
    as [m Hp]; [by apply program_start|unfold U64.MAX; cbn; lia|exact Hrun|].
  destruct (handles_keep_spans example_stack 10 st m w example_unlimited example_stack_ok
    ltac:(cbn; lia) ltac:(discriminate) Hp) as (_ & Hheld & _).
  split_and!; [done|by apply Hheld|done|done].
Defined.
