(* ===== verification/Spin.v ===== *)
(** * Spin: [tracing-core/src/spin/once.rs] and [mutex.rs]

    The one-time initialization and the mutex that replace the standard library's without
    [std].  Every atomic operation, every access to the data behind an [UnsafeCell] and
    every call of user code is one step of a thread; memory is sequentially consistent. *)

From S2P Require Import Prelude.

Local Open Scope Z_scope.

(** ** [Once] *)

Module Once.

Definition INCOMPLETE : Z := 0.
Definition RUNNING : Z := 1.
Definition COMPLETE : Z := 2.
Definition PANICKED : Z := 3.

Section once.
Context {T : Type}.

Record Once := { state : Z; data : option T }.

Definition INIT : Once := {| state := INCOMPLETE; data := None |}.
Definition new : Once := INIT.

(** [force_get]: [None] is undefined behaviour. *)
Definition force_get (self : Once) : option T := data self.

(** A thread in [call_once], [try] or [wait]. *)
Inductive Pc :=
  | CallLoad                  (** before the first load of [call_once] *)
  | CallCas                   (** before its compare-and-exchange *)
  | CallBuild                 (** before [builder()] *)
  | CallStoreData (v : T)     (** before the store of its result *)
  | CallComplete              (** before the store of [COMPLETE] *)
  | CallPanic                 (** before the drop of [Finish] after a panic of [builder] *)
  | CallLoop (status : Z)     (** at the head of the loop *)
  | CallReload                (** before the load in the loop *)
  | TryLoad
  | WaitLoad
  | Get                       (** before [force_get] *)
  | Returned (r : option T)   (** the value that was returned *)
  | Unwound                   (** the call has panicked *)
  | Undefined.                (** undefined behaviour *)

Record Sys := { once : Once; threads : list Pc }.

(** The loop of [call_once]: what the status asks for. *)
Definition call_loop (status : Z) : Pc :=
  if status =? INCOMPLETE then Unwound
  else if status =? RUNNING then CallReload
  else if status =? PANICKED then Unwound
  else if status =? COMPLETE then Get
  else Undefined.

(** One step of a thread; [built] is the result of the builder, if the step calls it:
    [None] when it panics. *)
Definition step_pc (built : option T) (self : Once) (pc : Pc) : Once * Pc :=
  match pc with
  | CallLoad => (self, if state self =? INCOMPLETE then CallCas else CallLoop (state self))
  | CallCas =>
      if state self =? INCOMPLETE then ({| state := RUNNING; data := data self |}, CallBuild)
      else (self, CallLoop (state self))
  | CallBuild => (self, match built with Some v => CallStoreData v | None => CallPanic end)
  | CallStoreData v => ({| state := state self; data := Some v |}, CallComplete)
  | CallComplete => ({| state := COMPLETE; data := data self |}, Get)
  | CallPanic => ({| state := PANICKED; data := data self |}, Unwound)
  | CallLoop status => (self, call_loop status)
  | CallReload => (self, CallLoop (state self))
  | TryLoad => (self, if state self =? COMPLETE then Get else Returned None)
  | WaitLoad =>
      (self, if state self =? INCOMPLETE then Returned None
             else if state self =? RUNNING then WaitLoad
             else if state self =? COMPLETE then Get
             else if state self =? PANICKED then Unwound
             else Undefined)
  | Get => (self, match force_get self with Some v => Returned (Some v) | None => Undefined end)
  | Returned _ | Unwound | Undefined => (self, pc)
  end.

Definition step (s : Sys) (t : nat) (built : option T) : Sys :=
  match threads s !! t with
  | Some pc =>
      let '(o, pc) := step_pc built (once s) pc in
      {| once := o; threads := <[t := pc]> (threads s) |}
  | None => s
  end.

Definition run (s : Sys) (trace : list (nat * option T)) : Sys :=
  foldl (fun s '(t, built) => step s t built) s trace.

Definition start_pc (pc : Pc) : bool :=
  match pc with CallLoad | TryLoad | WaitLoad => true | _ => false end.
Definition start (pcs : list Pc) : Sys := {| once := new; threads := pcs |}.

(** ** The invariant *)

(** The thread that initializes, from its exchange on. *)
Definition initializing (pc : Pc) : nat :=
  match pc with CallBuild | CallStoreData _ | CallComplete | CallPanic => 1%nat | _ => 0%nat end.

Definition pc_ok (o : Once) (pc : Pc) : Prop :=
  match pc with
  | CallBuild | CallStoreData _ | CallPanic => data o = None
  | CallComplete => is_Some (data o)
  | CallLoop status =>
      status = RUNNING /\ state o <> INCOMPLETE \/ status = COMPLETE /\ state o = COMPLETE \/
      status = PANICKED /\ state o = PANICKED
  | CallReload => state o <> INCOMPLETE
  | Get => state o = COMPLETE
  | Returned (Some v) => state o = COMPLETE /\ data o = Some v
  | Returned None => True
  | Undefined => False
  | _ => True
  end.

Record sys_ok (s : Sys) : Prop := {
  ok_one : sum_list_with initializing (threads s) =
    (if state (once s) =? RUNNING then 1%nat else 0%nat);
  ok_state : state (once s) = INCOMPLETE /\ data (once s) = None \/ state (once s) = RUNNING \/
    state (once s) = COMPLETE /\ is_Some (data (once s)) \/
    state (once s) = PANICKED /\ data (once s) = None;
  ok_pcs t pc : threads s !! t = Some pc -> pc_ok (once s) pc;
}.

Lemma sum_zero l t pc :
  sum_list_with initializing l = 0%nat -> l !! t = Some pc -> initializing pc = 0%nat.
Proof.
  intros Hl Ht. pose proof (sum_list_with_insert initializing l t pc Unwound Ht) as H. cbn in H. lia.
Qed.

(** Only one thread initializes. *)
Lemma other_not_initializing l t u pc pc' :
  sum_list_with initializing l = 1%nat -> l !! t = Some pc -> initializing pc = 1%nat ->
  l !! u = Some pc' -> t <> u -> initializing pc' = 0%nat.
Proof.
  intros Hl Ht Hpc Hu Hne. pose proof (sum_list_with_insert initializing l t pc Unwound Ht) as H1.
  assert (<[t:=Unwound]> l !! u = Some pc') as Hu' by by rewrite list_lookup_insert_ne.
  pose proof (sum_list_with_insert initializing _ u pc' Unwound Hu') as H2. cbn in *. lia.
Qed.

Lemma pc_ok_stable o o' pc :
  (state o <> INCOMPLETE -> state o' <> INCOMPLETE) -> (state o = COMPLETE -> o' = o) ->
  (state o = PANICKED -> o' = o) -> initializing pc = 0%nat -> pc_ok o pc -> pc_ok o' pc.
Proof.
  intros Hi Hc Hp Hpc. destruct pc as [| | |v| | |status| | | | |[v|]| |]; cbn; try done.
  - intros [[-> ?]|[[-> Hs]|[-> Hs]]]; [left; auto|right; left; by rewrite (Hc Hs)|
      right; right; by rewrite (Hp Hs)].
  - intros Hs. by rewrite (Hc Hs).
  - intros [Hs Hd]. by rewrite (Hc Hs).
Qed.

(** A step that leaves the shared state alone. *)
Lemma step_local s t pc pc' :
  sys_ok s -> threads s !! t = Some pc -> initializing pc = initializing pc' -> pc_ok (once s) pc' ->
  sys_ok {| once := once s; threads := <[t := pc']> (threads s) |}.
Proof.
  intros [H1 H2 H3] Ht Hi Hok. pose proof (sum_list_with_insert initializing _ t pc pc' Ht).
  split; cbn; [lia|done|].
  intros u x [[-> [<- _]]|[_ Hu]]%list_lookup_insert_Some; [done|by eapply H3].
Qed.

(** A step of the initializing thread, or the one that makes a thread so. *)
Lemma step_shared s t pc pc' o' :
  sys_ok s -> threads s !! t = Some pc ->
  (sum_list_with initializing (threads s) + initializing pc' =
    (if (state o' =? RUNNING)%Z then 1 else 0) + initializing pc)%nat ->
  (forall u x, threads s !! u = Some x -> t <> u -> initializing x = 0%nat) ->
  (state o' = INCOMPLETE /\ data o' = None \/ state o' = RUNNING \/
    state o' = COMPLETE /\ is_Some (data o') \/ state o' = PANICKED /\ data o' = None) ->
  (state (once s) <> INCOMPLETE -> state o' <> INCOMPLETE) ->
  (state (once s) <> COMPLETE /\ state (once s) <> PANICKED) -> pc_ok o' pc' ->
  sys_ok {| once := o'; threads := <[t := pc']> (threads s) |}.
Proof.
  intros [H1 H2 H3] Ht Hsum Hothers Ho' Hi [Hc Hp] Hok.
  pose proof (sum_list_with_insert initializing _ t pc pc' Ht).
  split; cbn; [lia|done|].
  intros u x [[-> [<- _]]|[Hne Hu]]%list_lookup_insert_Some; [done|].
  eapply pc_ok_stable; [exact Hi|by intros ?%Hc|by intros ?%Hp|by eapply Hothers|by eapply H3].
Qed.

Lemma initializing_running s t pc :
  sys_ok s -> threads s !! t = Some pc -> initializing pc = 1%nat ->
  state (once s) = RUNNING /\ sum_list_with initializing (threads s) = 1%nat /\
  forall u x, threads s !! u = Some x -> t <> u -> initializing x = 0%nat.
Proof.
  intros [H1 H2 H3] Ht Hpc. pose proof (sum_list_with_insert initializing _ t pc Unwound Ht) as Hs.
  cbn in Hs. revert H1. destruct (Z.eqb_spec (state (once s)) RUNNING) as [Hr|]; intros H1; [|lia].
  split_and!; [done|done|]. intros u x Hu Hne.
  by apply (other_not_initializing (threads s) t u pc x).
Qed.

Lemma once_step_ok s t built : sys_ok s -> sys_ok (step s t built).
Proof.
  intros Hs. unfold step. destruct (threads s !! t) as [pc|] eqn:Ht; [|done].
  pose proof (ok_pcs s Hs t pc Ht) as Hpc.
  assert (forall pc', initializing pc = initializing pc' -> pc_ok (once s) pc' ->
    sys_ok {| once := once s; threads := <[t := pc']> (threads s) |}) as Hlocal
    by (intros; by eapply step_local).
  assert (state (once s) <> INCOMPLETE -> pc_ok (once s) (CallLoop (state (once s)))) as Hloop.
  { intros Hi. cbn. destruct (ok_state s Hs) as [[? _]|[?|[[? _]|[? _]]]]; try done;
      rewrite ?H; auto. }
  destruct pc as [| | |v| | |status| | | | |r| |]; cbn [step_pc].
  - apply Hlocal; destruct (Z.eqb_spec (state (once s)) INCOMPLETE); try done. by apply Hloop.
  - destruct (Z.eqb_spec (state (once s)) INCOMPLETE) as [Hi|Hi].
    + assert (sum_list_with initializing (threads s) = 0%nat) as H0.
      { destruct Hs as [-> _ _]. by rewrite Hi. }
      eapply step_shared; try done.
      * rewrite H0. done.
      * intros u x Hu _. by eapply sum_zero.
      * by right; left.
      * by rewrite Hi.
      * cbn. destruct (ok_state s Hs) as [[_ ?]|[Hx|[[Hx _]|[_ ?]]]]; [done|by rewrite Hi in Hx..|done].
    + apply Hlocal; [done|by apply Hloop].
  - apply Hlocal; by destruct built.
  - destruct (initializing_running s t (CallStoreData v) Hs Ht eq_refl) as (Hr & H1 & Hothers).
    eapply step_shared; try done; cbn; rewrite ?Hr, ?H1; try done. by right; left.
  - destruct (initializing_running s t CallComplete Hs Ht eq_refl) as (Hr & H1 & Hothers).
    eapply step_shared; try done; cbn; rewrite ?Hr, ?H1; try done. by right; right; left.
  - destruct (initializing_running s t CallPanic Hs Ht eq_refl) as (Hr & H1 & Hothers).
    eapply step_shared; try done; cbn; rewrite ?Hr, ?H1; try done. by right; right; right.
  - cbn in Hpc. apply Hlocal; by destruct Hpc as [[-> ?]|[[-> ?]|[-> ?]]].
  - apply Hlocal; [done|by apply Hloop].
  - apply Hlocal; by destruct (Z.eqb_spec (state (once s)) COMPLETE).
  - apply Hlocal; destruct (ok_state s Hs) as [[Hi _]|[Hi|[[Hi _]|[Hi _]]]]; by rewrite Hi.
  - cbn in Hpc. unfold force_get.
    destruct (ok_state s Hs) as [[Hi _]|[Hi|[[_ [v Hv]]|[Hi _]]]]; [by rewrite Hi in Hpc..| |by rewrite Hi in Hpc].
    rewrite Hv. by apply Hlocal.
  - by apply Hlocal.
  - by apply Hlocal.
  - by apply Hlocal.
Qed.

Lemma once_start_ok pcs : forallb start_pc pcs = true -> sys_ok (start pcs).
Proof.
  intros H. rewrite forallb_forall in H.
  assert (forall pc, pc ∈ pcs -> start_pc pc = true) as Hp by (intros pc Hp; by apply H, list_elem_of_In).
  clear H. split; cbn.
  - induction pcs as [|pc pcs IH]; [done|]. cbn. rewrite IH by set_solver.
    specialize (Hp pc ltac:(set_solver)). by destruct pc.
  - by left.
  - intros t pc Ht. specialize (Hp pc (list_elem_of_lookup_2 _ _ _ Ht)). by destruct pc.
Qed.

Lemma once_run_ok s trace : sys_ok s -> sys_ok (run s trace).
Proof.
  unfold run. revert s. induction trace as [|[t b] trace IH]; intros s Hs; [done|].
  cbn. by apply IH, once_step_ok.
Qed.

(** A completed or failed initialization is final, and none is started twice. *)
Lemma step_final s t built :
  sys_ok s ->
  (state (once s) <> INCOMPLETE -> state (once (step s t built)) <> INCOMPLETE) /\
  (state (once s) = COMPLETE \/ state (once s) = PANICKED -> once (step s t built) = once s).
Proof.
  intros Hs. unfold step. destruct (threads s !! t) as [pc|] eqn:Ht; [|by split; [|intros]].
  destruct (decide (initializing pc = 1%nat)) as [Hi|Hi].
  - destruct (initializing_running s t pc Hs Ht Hi) as (Hr & _). split.
    + by destruct pc; cbn; rewrite ?Hr.
    + rewrite Hr. by intros [|].
  - destruct pc; cbn in *; try done; try (by split; [|intros]).
    destruct (Z.eqb_spec (state (once s)) INCOMPLETE) as [He|]; [|by split; [|intros]].
    split; [done|]. rewrite He. by intros [|].
Qed.

End once.

Arguments Once T : clear implicits.
Arguments Sys T : clear implicits.
Arguments Pc T : clear implicits.

End Once.

(** ** [Mutex] *)

Module Mutex.

Section mutex.
Context {T : Type}.

Record Mutex := { lock : bool; data : T }.
Definition new (user_data : T) : Mutex := {| lock := false; data := user_data |}.

(** A thread: outside; in [obtain_lock] before the weak exchange and in the inner loop;
    before the exchange of [try_lock]; with a guard; after the last store. *)
Inductive Pc := Outside | Obtain | Spinning | Trying | Locked | Unlocked.

Record Sys := { mutex : Mutex; threads : list Pc }.

Inductive Action :=
  | Lock | TryLock              (** call [lock], [try_lock] *)
  | Go (spurious : bool)        (** an exchange, which may fail spuriously if it is weak *)
  | Update (f : T -> T)         (** through [deref_mut] *)
  | DropGuard.

Definition with_lock (b : bool) (m : Mutex) : Mutex := {| lock := b; data := data m |}.

Definition step_pc (a : Action) (m : Mutex) (pc : Pc) : Mutex * Pc :=
  match pc, a with
  | (Outside | Unlocked), Lock => (m, Obtain)
  | (Outside | Unlocked), TryLock => (m, Trying)
  | Obtain, Go spurious =>
      if lock m || spurious then (m, Spinning) else (with_lock true m, Locked)
  | Spinning, Go _ => (m, if lock m then Spinning else Obtain)
  | Trying, Go _ => if lock m then (m, Outside) else (with_lock true m, Locked)
  | Locked, Update f => ({| lock := lock m; data := f (data m) |}, Locked)
  | Locked, DropGuard => (with_lock false m, Unlocked)
  | _, _ => (m, pc)
  end.

Definition step (s : Sys) (t : nat) (a : Action) : Sys :=
  match threads s !! t with
  | Some pc =>
      let '(m, pc) := step_pc a (mutex s) pc in
      {| mutex := m; threads := <[t := pc]> (threads s) |}
  | None => s
  end.
Definition run (s : Sys) (trace : list (nat * Action)) : Sys :=
  foldl (fun s '(t, a) => step s t a) s trace.

Definition holding (pc : Pc) : nat := match pc with Locked => 1%nat | _ => 0%nat end.

(** The lock is taken exactly when one thread has a guard. *)
Definition sys_ok (s : Sys) : Prop :=
  sum_list_with holding (threads s) = (if lock (mutex s) then 1%nat else 0%nat).

Lemma mutex_step_ok s t a : sys_ok s -> sys_ok (step s t a).
Proof.
  unfold sys_ok, step. intros Hs. destruct (threads s !! t) as [pc|] eqn:Ht; [|done].
  assert (forall pc', (sum_list_with holding (<[t:=pc']> (threads s)) + holding pc =
    sum_list_with holding (threads s) + holding pc')%nat) as H.
  { intros pc'. by apply sum_list_with_insert. }
  assert (holding pc <= sum_list_with holding (threads s))%nat as Hle.
  { specialize (H Outside). cbn in H. lia. }
  destruct pc, a; cbn -[sum_list_with] in *; try (specialize (H _); cbn in H; lia);
    try (destruct (lock (mutex s)) eqn:Hl; cbn -[sum_list_with] in *);
    try destruct spurious; cbn -[sum_list_with] in *; rewrite ?Hl; try (rewrite H; lia);
    match goal with |- context [<[_ := ?x]> _] => specialize (H x) end; cbn in *; lia.
Qed.

Lemma step_pc_data a m pc : pc <> Locked -> data (step_pc a m pc).1 = data m.
Proof. intros Hpc. destruct pc, a; cbn; repeat case_match; done. Qed.

Lemma mutex_run_ok s trace : sys_ok s -> sys_ok (run s trace).
Proof.
  unfold run. revert s. induction trace as [|[t a] trace IH]; intros s Hs; [done|].
  cbn. by apply IH, mutex_step_ok.
Qed.

End mutex.

Arguments Mutex T : clear implicits.
Arguments Sys T : clear implicits.

End Mutex.

(** ** Properties *)

(** Threads that call [call_once], [try] and [wait] on one [Once], in any interleaving
    and with builders that may panic, never reach the undefined behaviour of [force_get];
    at most one of them is initializing at any time and none starts again afterwards; all
    the values that are returned are the one that was stored; and a completed or panicked
    initialization stays so. *)
Theorem once_initializes_once {T : Type} (pcs : list (Once.Pc T)) trace :
  forallb Once.start_pc pcs = true ->
  let s := Once.run (Once.start pcs) trace in
  (forall t, Once.threads s !! t <> Some Once.Undefined) /\
  (sum_list_with Once.initializing (Once.threads s) <= 1)%nat /\
  (forall t v, Once.threads s !! t = Some (Once.Returned (Some v)) ->
     Once.state (Once.once s) = Once.COMPLETE /\ Once.data (Once.once s) = Some v) /\
  (forall t u v v', Once.threads s !! t = Some (Once.Returned (Some v)) ->
     Once.threads s !! u = Some (Once.Returned (Some v')) -> v = v') /\
  (forall t built,
     (Once.state (Once.once s) <> Once.INCOMPLETE ->
      Once.state (Once.once (Once.step s t built)) <> Once.INCOMPLETE) /\
     (Once.state (Once.once s) = Once.COMPLETE \/ Once.state (Once.once s) = Once.PANICKED ->
      Once.once (Once.step s t built) = Once.once s)).
Proof.
  intros Hp s. assert (Once.sys_ok s) as Hs by by apply Once.once_run_ok, Once.once_start_ok.
  assert (forall t v, Once.threads s !! t = Some (Once.Returned (Some v)) ->
     Once.state (Once.once s) = Once.COMPLETE /\ Once.data (Once.once s) = Some v) as Hret.
  { intros t v Ht. exact (Once.ok_pcs s Hs t _ Ht). }
  split_and!; try done.
  - intros t Ht. exact (Once.ok_pcs s Hs t _ Ht).
  - rewrite (Once.ok_one s Hs). case_match; lia.
  - intros t u v v' [_ Ht]%Hret [_ Hu]%Hret. congruence.
  - intros t built. by apply Once.step_final.
Qed.

(** However the threads that lock, try to lock, use and release a [Mutex] are
    interleaved, at most one of them has a guard, the lock is taken exactly then, only the
    holder of the guard changes the data, and no other thread's step changes the mutex
    while it is held. *)
Theorem mutex_excludes {T : Type} (user_data : T) n trace :
  let s := Mutex.run {| Mutex.mutex := Mutex.new user_data;
                        Mutex.threads := replicate n Mutex.Outside |} trace in
  (forall t u, Mutex.threads s !! t = Some Mutex.Locked ->
     Mutex.threads s !! u = Some Mutex.Locked -> t = u) /\
  (Mutex.lock (Mutex.mutex s) = true <-> exists t, Mutex.threads s !! t = Some Mutex.Locked) /\
  (forall t a, Mutex.threads s !! t <> Some Mutex.Locked ->
     Mutex.data (Mutex.mutex (Mutex.step s t a)) = Mutex.data (Mutex.mutex s)) /\
  (forall t u a, Mutex.threads s !! t = Some Mutex.Locked -> t <> u ->
     Mutex.mutex (Mutex.step s u a) = Mutex.mutex s).
Proof.
  intros s. assert (Mutex.sys_ok s) as Hs.
  { apply Mutex.mutex_run_ok. unfold Mutex.sys_ok. cbn. by induction n. }
  unfold Mutex.sys_ok in Hs. set (l := Mutex.threads s) in *.
  assert (forall t u, l !! t = Some Mutex.Locked -> l !! u = Some Mutex.Locked -> t = u) as Hone.
  { intros t u Ht Hu. destruct (decide (t = u)) as [|Hne]; [done|exfalso].
    pose proof (sum_list_with_insert Mutex.holding l t _ Mutex.Outside Ht) as H1.
    assert (<[t:=Mutex.Outside]> l !! u = Some Mutex.Locked) as Hu' by by rewrite list_lookup_insert_ne.
    pose proof (sum_list_with_insert Mutex.holding _ u _ Mutex.Outside Hu') as H2. cbn in *.
    destruct (Mutex.lock (Mutex.mutex s)); lia. }
  assert (forall t, l !! t = Some Mutex.Locked -> Mutex.lock (Mutex.mutex s) = true) as Hlock.
  { intros t Ht. pose proof (sum_list_with_insert Mutex.holding l t _ Mutex.Outside Ht) as H1.
    cbn in H1. destruct (Mutex.lock (Mutex.mutex s)); [done|lia]. }
  split_and!; try done.
  - split; [|intros [t Ht]; by eapply Hlock]. intros Hl. rewrite Hl in Hs. clear -Hs.
    induction l as [|pc l IH]; cbn in *; [done|].
    destruct (Mutex.holding pc) eqn:Hpc; [destruct IH as [t Ht]; [done|by exists (S t)]|].
    exists 0%nat. by destruct pc.
  - intros t a Ht. unfold Mutex.step. fold l. destruct (l !! t) as [pc|] eqn:Hu; [|done].
    pose proof (Mutex.step_pc_data a (Mutex.mutex s) pc) as Hd.
    destruct (Mutex.step_pc a (Mutex.mutex s) pc) as [m pc']. apply Hd. congruence.
  - intros t u a Ht Hne. unfold Mutex.step. fold l. destruct (l !! u) as [pc|] eqn:Hu; [|done].
    pose proof (Hlock t Ht) as Hl.
    destruct pc, a; cbn; rewrite ?Hl; try done; exfalso; by apply Hne, Hone.
Qed.

(** Two initializers race; the first one's builder is slow, and the second waits. *)
Definition once_race : list (nat * option nat) :=
  [(0, None); (1, None); (0, None); (1, None); (1, None); (0, Some 7); (1, None); (2, None);
   (0, None); (0, None); (1, None); (1, None); (1, None); (1, None); (0, None); (2, None); (2, None)]%nat.

Lemma once_initializes_once_witness :
  Once.threads (Once.run (Once.start [Once.CallLoad; Once.CallLoad; Once.WaitLoad]) once_race) =
    [Once.Returned (Some 7%nat); Once.Returned (Some 7%nat); Once.Returned (Some 7%nat)] /\
  (sum_list_with Once.initializing (Once.threads
    (Once.run (Once.start [Once.CallLoad; Once.CallLoad; Once.WaitLoad]) once_race)) <= 1)%nat.
Proof.
  split; [vm_compute; reflexivity|].
  apply (once_initializes_once [Once.CallLoad; Once.CallLoad; Once.WaitLoad] once_race).
  reflexivity.
Defined.
