(* ===== verification/Dispatchers.v ===== *)
(** * Dispatchers: [tracing-core/src/dispatcher.rs]

    The global default dispatcher, the per-thread scoped defaults and their guards,
    and the re-entrancy check of [get_default].  The subscriber behind a [Dispatch]
    is an identity; closures given to [get_default] and [with_default] are stateful
    computations that may panic and are given the world as they leave it. *)

From S2P Require Import Prelude.

Local Open Scope Z_scope.

(** The identity of a [dyn Subscriber]. *)
Definition SubscriberId := N.
Definition NO_SUBSCRIBER : SubscriberId := 0%N.

(** [enum Kind<T>] *)
Inductive Kind :=
  | Global (s : SubscriberId)
  | Scoped (s : SubscriberId).

(** [struct Dispatch]; a [WeakDispatch] and a [Registrar] hold the same data. *)
Record Dispatch := { subscriber : Kind }.

#[export] Instance Kind_eq_dec : EqDecision Kind.
Proof. solve_decision. Defined.
#[export] Instance Dispatch_eq_dec : EqDecision Dispatch.
Proof. solve_decision. Defined.

Module Dispatch.

Definition none : Dispatch := {| subscriber := Global NO_SUBSCRIBER |}.
Definition subscriber_id (self : Dispatch) : SubscriberId :=
  match subscriber self with Global s => s | Scoped s => s end.

(** [Kind<Arc>::downgrade] and [Kind<Weak>::upgrade]; [strong s] tells whether the
    [Arc] of [s] has a strong reference left, as [Weak::upgrade] finds out. *)
Definition downgrade (self : Dispatch) : Dispatch :=
  {| subscriber := match subscriber self with
                   | Global s => Global s
                   | Scoped s => Scoped s
                   end |}.
Definition upgrade (strong : SubscriberId -> bool) (weak : Dispatch) : option Dispatch :=
  match subscriber weak with
  | Global s => Some {| subscriber := Global s |}
  | Scoped s => if strong s then Some {| subscriber := Scoped s |} else None
  end.

End Dispatch.

Definition UNINITIALIZED : Z := 0.
Definition INITIALIZING : Z := 1.
Definition INITIALIZED : Z := 2.
Definition NONE : Dispatch := Dispatch.none.

(** [struct State]; [borrows] counts the live [Ref]s of the [RefCell]. *)
Record State := { state_default : option Dispatch; borrows : nat; can_enter : bool }.

(** The statics, and the thread-local [CURRENT_STATE] of each thread; a thread
    whose thread-locals are destroyed has no entry. *)
Record World := {
  EXISTS : bool;
  GLOBAL_INIT : Z;
  SCOPED_COUNT : Z;
  GLOBAL_DISPATCH : Dispatch;
  CURRENT_STATE : gmap nat State;
}.

Definition with_state (t : nat) (f : State -> State) (w : World) : World :=
  {| EXISTS := EXISTS w; GLOBAL_INIT := GLOBAL_INIT w; SCOPED_COUNT := SCOPED_COUNT w;
     GLOBAL_DISPATCH := GLOBAL_DISPATCH w;
     CURRENT_STATE := alter f t (CURRENT_STATE w) |}.
Definition with_count (n : Z) (w : World) : World :=
  {| EXISTS := EXISTS w; GLOBAL_INIT := GLOBAL_INIT w; SCOPED_COUNT := U64.wrap n;
     GLOBAL_DISPATCH := GLOBAL_DISPATCH w; CURRENT_STATE := CURRENT_STATE w |}.
Definition with_exists (w : World) : World :=
  {| EXISTS := true; GLOBAL_INIT := GLOBAL_INIT w; SCOPED_COUNT := SCOPED_COUNT w;
     GLOBAL_DISPATCH := GLOBAL_DISPATCH w; CURRENT_STATE := CURRENT_STATE w |}.
Definition with_global (init : Z) (d : Dispatch) (w : World) : World :=
  {| EXISTS := EXISTS w; GLOBAL_INIT := init; SCOPED_COUNT := SCOPED_COUNT w;
     GLOBAL_DISPATCH := d; CURRENT_STATE := CURRENT_STATE w |}.

(** A computation: it returns or panics, and leaves a world in both cases. *)
Definition M (T : Type) : Type := World -> outcome T * World.

Definition set_can_enter (b : bool) (st : State) : State :=
  {| state_default := state_default st; borrows := borrows st; can_enter := b |}.
Definition set_state_default (d : option Dispatch) (st : State) : State :=
  {| state_default := d; borrows := borrows st; can_enter := can_enter st |}.
Definition add_borrow (st : State) : State :=
  {| state_default := state_default st; borrows := S (borrows st); can_enter := can_enter st |}.
Definition drop_borrow (st : State) : State :=
  {| state_default := state_default st; borrows := pred (borrows st); can_enter := can_enter st |}.

Definition get_global (w : World) : Dispatch :=
  if negb (GLOBAL_INIT w =? INITIALIZED) then NONE else GLOBAL_DISPATCH w.

(** [Entered::current] *)
Definition current (st : State) (w : World) : Dispatch :=
  match state_default st with Some d => d | None => get_global w end.

(** The part of [get_default] and [get_current] between [State::enter] and the drops
    of the [Ref] and of the [Entered] guard, which also run when [f] panics. *)
Definition entered {T} (t : nat) (st : State) (f : Dispatch -> M T) : M T := fun w =>
  let w1 := with_state t (fun st => add_borrow (set_can_enter false st)) w in
  let '(r, w2) := f (current st w1) w1 in
  (r, with_state t (set_can_enter true) (with_state t drop_borrow w2)).

(** [get_default], on thread [t] *)
Definition get_default {T} (t : nat) (f : Dispatch -> M T) : M T := fun w =>
  if SCOPED_COUNT w =? 0 then f (get_global w) w
  else match CURRENT_STATE w !! t with
       | Some st => if can_enter st then entered t st f w else f NONE w
       | None => f NONE w
       end.

(** [get_current] *)
Definition get_current {T} (t : nat) (f : Dispatch -> M T) : M (option T) := fun w =>
  let f' d : M (option T) := fun w => let '(r, w') := f d w in (Some <$> r, w') in
  if SCOPED_COUNT w =? 0 then f' (get_global w) w
  else match CURRENT_STATE w !! t with
       | Some st => if can_enter st then entered t st f' w else (Done None, w)
       | None => (Done None, w)
       end.

(** [RefCell::replace] of the thread's default: panics if it is borrowed. *)
Definition replace_default (t : nat) (d : option Dispatch) : M (option (option Dispatch)) :=
  fun w =>
  match CURRENT_STATE w !! t with
  | None => (Done None, w)
  | Some st =>
      if (0 <? borrows st)%nat then (Panic, w)
      else (Done (Some (state_default st)), with_state t (set_state_default d) w)
  end.

(** [State::set_default]: the value of the [DefaultGuard]. *)
Definition set_default (t : nat) (new_dispatch : Dispatch) : M (option Dispatch) := fun w =>
  let '(r, w) := replace_default t (Some new_dispatch) (with_state t (set_can_enter true) w) in
  match r with
  | Panic => (Panic, w)
  | Done prior =>
      let w := with_exists w in
      (Done (mjoin prior), with_count (SCOPED_COUNT w + 1) w)
  end.

(** [Drop for DefaultGuard] *)
Definition drop_guard (t : nat) (guard : option Dispatch) : M unit := fun w =>
  let '(r, w) := replace_default t guard w in
  match r with
  | Panic => (Panic, w)
  | Done _ => (Done tt, with_count (SCOPED_COUNT w - 1) w)
  end.

(** [with_default]: the guard is dropped when [f] returns and when it panics. *)
Definition with_default {T} (t : nat) (dispatcher : Dispatch) (f : M T) : M T := fun w =>
  match set_default t dispatcher w with
  | (Panic, w) => (Panic, w)
  | (Done guard, w) =>
      let '(r, w) := f w in
      match drop_guard t guard w with
      | (Panic, w) => (Panic, w)
      | (Done _, w) => (r, w)
      end
  end.

(** The dispatcher that [set_global_default] leaks: a [Scoped] one becomes [Global]. *)
Definition leak (dispatcher : Dispatch) : Dispatch :=
  {| subscriber := match subscriber dispatcher with
                   | Global s => Global s
                   | Scoped s => Global s
                   end |}.

(** Where a thread in [set_global_default] is. *)
Inductive global_pc :=
  | CompareExchange
  | StoreDispatch
  | StoreInitialized
  | StoreExists
  | GlobalReturned (r : result unit unit).

Definition global_step (dispatcher : Dispatch) (p : global_pc) (w : World) :
    option (global_pc * World) :=
  match p with
  | CompareExchange =>
      if GLOBAL_INIT w =? UNINITIALIZED
      then Some (StoreDispatch, with_global INITIALIZING (GLOBAL_DISPATCH w) w)
      else Some (GlobalReturned (Err tt), w)
  | StoreDispatch => Some (StoreInitialized, with_global (GLOBAL_INIT w) (leak dispatcher) w)
  | StoreInitialized => Some (StoreExists, with_global INITIALIZED (GLOBAL_DISPATCH w) w)
  | StoreExists => Some (GlobalReturned (Ok tt), with_exists w)
  | GlobalReturned _ => None
  end.

Definition has_been_set (w : World) : bool := EXISTS w.

(** ** The scoped defaults *)

(** The operations on scoped and global defaults, as a program performs them when
    every thread drops the guards it holds in the reverse order of their creation. *)
Inductive op :=
  | OpSetDefault (t : nat) (d : Dispatch)
  | OpDropGuard (t : nat)
  | OpSetGlobal (d : Dispatch).

(** The entries of [t] in a list of tagged entries, and the removal of the first. *)
Definition of_thread {A} (t : nat) (l : list (nat * A)) : list A :=
  omap (fun x => if decide (x.1 = t) then Some x.2 else None) l.
Arguments of_thread : simpl never.
Fixpoint remove_first {A} (t : nat) (l : list (nat * A)) : option (A * list (nat * A)) :=
  match l with
  | [] => None
  | x :: l =>
      if decide (x.1 = t) then Some (x.2, l)
      else '(y, l) ← remove_first t l; Some (y, x :: l)
  end.

(** [set_global_default] without interference. *)
Definition set_global_default (d : Dispatch) : M (result unit unit) := fun w =>
  match global_step d CompareExchange w with
  | Some (StoreDispatch, w) =>
      (Done (Ok tt), with_exists (with_global INITIALIZED (leak d) w))
  | _ => (Done (Err tt), w)
  end.

(** The program holds the guards, newest first. *)
Definition config := (World * list (nat * option Dispatch))%type.

Definition exec (o : op) (c : config) : option config :=
  let '(w, guards) := c in
  match o with
  | OpSetDefault t d =>
      match set_default t d w with
      | (Done guard, w) => Some (w, (t, guard) :: guards)
      | (Panic, _) => None
      end
  | OpDropGuard t =>
      '(guard, guards) ← remove_first t guards;
      match drop_guard t guard w with
      | (Done _, w) => Some (w, guards)
      | (Panic, _) => None
      end
  | OpSetGlobal d => Some ((set_global_default d w).2, guards)
  end.

(** The specification: the live scopes, newest first, and the global default, which
    can be set once. *)
Record Spec := { scopes : list (nat * Dispatch); global : option Dispatch }.

Definition spec_exec (o : op) (s : Spec) : option Spec :=
  match o with
  | OpSetDefault t d => Some {| scopes := (t, d) :: scopes s; global := global s |}
  | OpDropGuard t =>
      '(_, l) ← remove_first t (scopes s); Some {| scopes := l; global := global s |}
  | OpSetGlobal d =>
      Some {| scopes := scopes s;
              global := match global s with Some g => Some g | None => Some (leak d) end |}
  end.

Definition spec_global (s : Spec) : Dispatch := from_option id NONE (global s).
Definition spec_current (t : nat) (s : Spec) : Dispatch :=
  from_option id (spec_global s) (head (of_thread t (scopes s))).

Fixpoint run_with {A O} (exec : O -> A -> option A) (os : list O) (a : A) : option A :=
  match os with
  | [] => Some a
  | o :: os => a ← exec o a; run_with exec os a
  end.

Definition start (threads : gset nat) : config :=
  ({| EXISTS := false; GLOBAL_INIT := UNINITIALIZED; SCOPED_COUNT := 0;
      GLOBAL_DISPATCH := NONE;
      CURRENT_STATE :=
        gset_to_gmap {| state_default := None; borrows := 0; can_enter := true |} threads |}, []).

(** ** Tagged lists *)

Section tagged.
Context {A : Type}.
Implicit Types (l : list (nat * A)).

Lemma of_thread_cons t u (x : A) l :
  of_thread t ((u, x) :: l) = if decide (u = t) then x :: of_thread t l else of_thread t l.
Proof. unfold of_thread. simpl. by case_decide. Qed.

Lemma of_thread_remove_first t l x l' :
  remove_first t l = Some (x, l') ->
  of_thread t l = x :: of_thread t l' /\
  (forall u, u <> t -> of_thread u l = of_thread u l') /\
  length l = S (length l').
Proof.
  revert l'. induction l as [|[u y] l IH]; intros l'; simpl; [done|].
  destruct (decide (u = t)) as [->|Hu].
  - intros [= -> ->]. rewrite of_thread_cons, decide_True by done. split_and!; [done| |done].
    intros v Hv. by rewrite of_thread_cons, decide_False.
  - destruct (remove_first t l) as [[z k]|]; simpl; [|done]. intros [= -> <-].
    destruct (IH k eq_refl) as (H1 & H2 & H3). rewrite of_thread_cons, decide_False by done.
    assert (forall v m, of_thread v ((u, y) :: m) =
              if decide (u = v) then y :: of_thread v m else of_thread v m) as Hcons
      by (intros; apply of_thread_cons).
    split_and!.
    + by rewrite Hcons, decide_False.
    + intros v Hv. rewrite !Hcons. destruct (decide (u = v)); by rewrite (H2 v Hv).
    + simpl. by rewrite H3.
Qed.

End tagged.

Lemma remove_first_same_tags {A B} t (l : list (nat * A)) (k : list (nat * B)) x l' :
  map fst l = map fst k -> remove_first t l = Some (x, l') ->
  exists y k', remove_first t k = Some (y, k') /\ map fst l' = map fst k'.
Proof.
  revert k l'. induction l as [|[u a] l IH]; intros [|[v b] k] l'; simpl; try done.
  intros [= -> Ht]. destruct (decide (v = t)) as [->|Hv].
  - intros [= _ ->]. eauto.
  - destruct (remove_first t l) as [[z l0]|] eqn:E; simpl; [|done]. intros [= -> <-].
    destruct (IH k l0 Ht eq_refl) as (y & k' & -> & Hk). simpl.
    eexists _, _. split; [done|]. simpl. by rewrite Hk.
Qed.

(** ** The refinement *)

(** The guards that a stack of scopes of one thread leaves: each holds the scope
    below it. *)
Definition guards_of (stack : list Dispatch) : list (option Dispatch) :=
  tail (map Some stack ++ [None]).

Lemma guards_of_push d stack : guards_of (d :: stack) = head stack :: guards_of stack.
Proof. by destruct stack. Qed.

Record linked (T : gset nat) (c : config) (s : Spec) : Prop := {
  lk_count : SCOPED_COUNT c.1 = Z.of_nat (length (scopes s));
  lk_init : GLOBAL_INIT c.1 = match global s with Some _ => INITIALIZED | None => UNINITIALIZED end;
  lk_global : get_global c.1 = spec_global s;
  lk_tags : map fst (scopes s) = map fst c.2;
  lk_state t : t ∈ T -> CURRENT_STATE c.1 !! t =
    Some {| state_default := head (of_thread t (scopes s)); borrows := 0; can_enter := true |};
  lk_guards t : t ∈ T -> of_thread t c.2 = guards_of (of_thread t (scopes s));
}.

Definition op_in (T : gset nat) (o : op) : Prop :=
  match o with OpSetDefault t _ | OpDropGuard t => t ∈ T | OpSetGlobal _ => True end.

Lemma start_linked T : linked T (start T) {| scopes := []; global := None |}.
Proof.
  split; try done. intros t Ht. simpl. by apply lookup_gset_to_gmap_Some.
Qed.

Lemma wrap_small x : 0 <= x < 2 ^ 64 -> U64.wrap x = x.
Proof. apply Z.mod_small. Qed.

Lemma alter_twice (f g : State -> State) t (m : gmap nat State) :
  alter f t (alter g t m) = alter (fun st => f (g st)) t m.
Proof.
  apply map_eq. intros i. destruct (decide (i = t)) as [->|].
  - rewrite !lookup_alter_eq. by destruct (m !! t).
  - by rewrite !lookup_alter_ne.
Qed.

Lemma set_default_linked T w guards s t d :
  linked T (w, guards) s -> t ∈ T -> Z.of_nat (length (scopes s)) + 1 < 2 ^ 64 ->
  exists c, exec (OpSetDefault t d) (w, guards) = Some c /\
    linked T c {| scopes := (t, d) :: scopes s; global := global s |}.
Proof.
  intros [Hc Hi Hg Ht Hs Hgu] Hin Hlen. simpl in *.
  unfold set_default, replace_default. simpl. rewrite lookup_alter_eq, (Hs t Hin). simpl.
  eexists. split; [done|]. split; simpl; [|exact Hi|exact Hg|..].
  - rewrite Hc, wrap_small; lia.
  - by rewrite Ht.
  - intros u Hu. rewrite alter_twice, of_thread_cons. case_decide as E.
    + subst. by rewrite lookup_alter_eq, (Hs u Hu).
    + rewrite lookup_alter_ne by done. by apply Hs.
  - intros u Hu. rewrite !of_thread_cons. case_decide as E; [subst|by apply Hgu].
    by rewrite guards_of_push, Hgu.
Qed.

Lemma drop_guard_linked T w guards s t s' :
  linked T (w, guards) s -> t ∈ T -> Z.of_nat (length (scopes s)) < 2 ^ 64 ->
  spec_exec (OpDropGuard t) s = Some s' ->
  exists c, exec (OpDropGuard t) (w, guards) = Some c /\ linked T c s'.
Proof.
  intros [Hc Hi Hg Ht Hs Hgu] Hin Hlen Hex. simpl in *.
  destruct (remove_first t (scopes s)) as [[d l]|] eqn:E; simplify_eq/=.
  destruct (remove_first_same_tags t _ guards d l Ht E) as (g & guards' & E' & Ht').
  rewrite E'. simpl.
  destruct (of_thread_remove_first _ _ _ _ E) as (H1 & H2 & H3).
  destruct (of_thread_remove_first _ _ _ _ E') as (H1' & H2' & _).
  pose proof (Hgu t Hin) as Hgt. rewrite H1, H1', guards_of_push in Hgt.
  injection Hgt as Hg' Hgt.
  unfold drop_guard, replace_default. rewrite (Hs t Hin). simpl.
  eexists. split; [done|]. split; simpl; [|exact Hi|exact Hg|done|..].
  - rewrite Hc, H3, wrap_small; lia.
  - intros u Hu. destruct (decide (u = t)) as [->|Hne].
    + rewrite lookup_alter_eq, (Hs t Hin). simpl. by rewrite Hg'.
    + rewrite lookup_alter_ne, (Hs u Hu) by done. by rewrite (H2 u Hne).
  - intros u Hu. destruct (decide (u = t)) as [->|Hne]; [done|].
    rewrite <- (H2' u Hne), (Hgu u Hu). by rewrite (H2 u Hne).
Qed.

Lemma set_global_linked T w guards s d :
  linked T (w, guards) s ->
  linked T ((set_global_default d w).2, guards)
    {| scopes := scopes s;
       global := match global s with Some g => Some g | None => Some (leak d) end |}.
Proof.
  intros [Hc Hi Hg Ht Hs Hgu]. simpl in *. unfold set_global_default. simpl. rewrite Hi.
  destruct (global s) as [g|] eqn:E; simpl.
  - split; simpl; try done. rewrite Hg. unfold spec_global. by rewrite E.
  - split; simpl; try done.
Qed.

#[local] Arguments exec : simpl never.

Lemma exec_linked T os c s s' :
  linked T c s -> Forall (op_in T) os ->
  Z.of_nat (length (scopes s)) + Z.of_nat (length os) < 2 ^ 64 ->
  run_with spec_exec os s = Some s' ->
  exists c', run_with exec os c = Some c' /\ linked T c' s'.
Proof.
  revert c s. induction os as [|o os IH]; intros [w guards] s Hl HT Hlen Hrun; simpl in *.
  { simplify_eq. eauto. }
  apply Forall_cons in HT as [Ho HT].
  destruct (spec_exec o s) as [s1|] eqn:E; simpl in Hrun; [|done].
  assert (exists c1, exec o (w, guards) = Some c1 /\ linked T c1 s1 /\
            (length (scopes s1) <= S (length (scopes s)))%nat) as (c1 & Hc1 & Hl1 & Hlen1).
  { destruct o as [t d|t|d]; simpl in Ho.
    - simplify_eq/=. destruct (set_default_linked T w guards s t d Hl Ho) as (c1 & H1 & H);
        [lia|]. exists c1. split_and!; [exact H1|done|done].
    - destruct (drop_guard_linked T w guards s t s1 Hl Ho) as (c1 & H1 & H); [lia|done|].
      exists c1. split_and!; [exact H1|done|]. simpl in E.
      destruct (remove_first t (scopes s)) as [[? l]|] eqn:El; simplify_eq/=.
      apply of_thread_remove_first in El as (_ & _ & ->). lia.
    - simpl in E. simplify_eq/=. eexists. split_and!; [done| |lia].
      by apply set_global_linked. }
  rewrite Hc1. simpl. apply (IH c1 s1); [done|done|lia|done].
Qed.

(** What a closure that returns its argument gets from [get_default] on [t]. *)
Lemma get_default_current t w st :
  CURRENT_STATE w !! t = Some st -> can_enter st = true -> SCOPED_COUNT w <> 0 ->
  get_default t (fun d w => (Done d, w)) w = (Done (current st w), w).
Proof.
  intros Hst He Hc. unfold get_default.
  rewrite (proj2 (Z.eqb_neq _ _) Hc), Hst, He. unfold entered, current. simpl. f_equal.
  destruct w as [e gi sc gd cs]. unfold with_state. simpl in *. f_equal.
  rewrite !alter_twice. apply alter_id. intros st' Hst'. rewrite Hst in Hst'.
  simplify_eq. destruct st'. simpl in *. by rewrite He.
Qed.

Lemma get_default_linked T w guards s t :
  linked T (w, guards) s -> t ∈ T ->
  get_default t (fun d w => (Done d, w)) w = (Done (spec_current t s), w).
Proof.
  intros [Hc Hi Hg _ Hs _] Ht. simpl in *.
  destruct (decide (SCOPED_COUNT w = 0)) as [H0|H0].
  - unfold get_default, spec_current. rewrite H0. simpl.
    destruct (scopes s); [|simpl in Hc; lia]. simpl. by rewrite Hg.
  - rewrite (get_default_current t w _ (Hs t Ht)) by done.
    unfold current, spec_current. simpl. rewrite <- Hg. by destruct (head _).
Qed.

(** C27: when threads set scoped defaults, drop their guards in reverse order and set
    the global default, in any interleaving, no operation panics, and on every
    thread [get_default] gives the innermost live scope of that thread, or the
    first global default that was set, or the no-op dispatcher, and leaves the
    thread's state as it was; dropping a guard so restores the previous default. *)
Theorem scoped_defaults_refine (T : gset nat) (os : list op) (s : Spec)
    (Hthreads : Forall (op_in T) os) (Hlen : Z.of_nat (length os) < 2 ^ 64)
    (Hrun : run_with spec_exec os {| scopes := []; global := None |} = Some s) :
  exists w guards, run_with exec os (start T) = Some (w, guards) /\
    SCOPED_COUNT w = Z.of_nat (length (scopes s)) /\
    forall t, t ∈ T ->
      get_default t (fun d w => (Done d, w)) w = (Done (spec_current t s), w).
Proof.
  destruct (exec_linked T os (start T) _ s (start_linked T) Hthreads) as ([w g] & Hr & Hl).
  - done.
  - done.
  - exists w, g. split_and!; [done|apply Hl|]. intros t Ht.
    by apply (get_default_linked T w g).
Qed.

(** ** The global default, with threads racing to set it *)

(** Each thread in [set_global_default], the dispatcher it brings, and where it is. *)
Definition race := (World * gmap nat (Dispatch * global_pc))%type.

Inductive race_step : race -> race -> Prop :=
  | race_thread t d p p' w w' ts :
      ts !! t = Some (d, p) -> global_step d p w = Some (p', w') ->
      race_step (w, ts) (w', <[t := (d, p')]> ts).

Definition race_initial (r : race) : Prop :=
  GLOBAL_INIT r.1 = UNINITIALIZED /\
  forall t d p, r.2 !! t = Some (d, p) -> p = CompareExchange.

(** A thread that lost, or has not tried yet. *)
Definition loser (p : global_pc) : Prop :=
  p = CompareExchange \/ p = GlobalReturned (Err tt).

(** What the winner's position says of the statics. *)
Definition winner_ok (w : World) (d : Dispatch) (p : global_pc) : Prop :=
  match p with
  | CompareExchange | GlobalReturned (Err _) => False
  | StoreDispatch => GLOBAL_INIT w = INITIALIZING
  | StoreInitialized => GLOBAL_INIT w = INITIALIZING /\ GLOBAL_DISPATCH w = leak d
  | StoreExists => GLOBAL_INIT w = INITIALIZED /\ GLOBAL_DISPATCH w = leak d
  | GlobalReturned (Ok _) =>
      GLOBAL_INIT w = INITIALIZED /\ GLOBAL_DISPATCH w = leak d /\ EXISTS w = true
  end.

Inductive race_inv : race -> Prop :=
  | race_open w ts :
      GLOBAL_INIT w = UNINITIALIZED ->
      (forall t d p, ts !! t = Some (d, p) -> p = CompareExchange) -> race_inv (w, ts)
  | race_won w ts t0 d0 p0 :
      ts !! t0 = Some (d0, p0) -> winner_ok w d0 p0 ->
      (forall t d p, ts !! t = Some (d, p) -> t <> t0 -> loser p) -> race_inv (w, ts).

Lemma winner_init w d p : winner_ok w d p -> (GLOBAL_INIT w =? UNINITIALIZED) = false.
Proof.
  destruct p as [| | | |[|]]; simpl; try done;
    by repeat match goal with |- _ /\ _ -> _ => intros [-> _] | |- _ => intros -> end.
Qed.

Lemma winner_step w d p p' w' :
  winner_ok w d p -> global_step d p w = Some (p', w') -> winner_ok w' d p'.
Proof. destruct p as [| | | |[|]]; simpl; try done; intros; simplify_eq/=; intuition. Qed.

Lemma race_step_inv r r' : race_inv r -> race_step r r' -> race_inv r'.
Proof.
  intros Hinv Hstep. destruct Hstep as [t d p p' w w' ts Ht Hs].
  inversion Hinv as [? ? Hi Hall|? ? t0 d0 p0 Ht0 Hw Hall]; subst.
  - rewrite (Hall t d p Ht) in Hs. simpl in Hs. rewrite Hi in Hs. simpl in Hs. simplify_eq.
    apply (race_won _ _ t d StoreDispatch); [by rewrite lookup_insert_eq|done|].
    intros u e q Hu Hne. rewrite lookup_insert_ne in Hu by done. left. by eapply Hall.
  - destruct (decide (t = t0)) as [->|Hne].
    + rewrite Ht0 in Ht. simplify_eq.
      apply (race_won _ _ t0 d p'); [by rewrite lookup_insert_eq|by eapply winner_step|].
      intros u e q Hu Hne. rewrite lookup_insert_ne in Hu by done. by eapply Hall.
    + destruct (Hall t d p Ht Hne) as [->| ->]; simpl in Hs; [|done].
      rewrite (winner_init _ _ _ Hw) in Hs. simplify_eq.
      apply (race_won _ _ t0 d0 p0); [by rewrite lookup_insert_ne|done|].
      intros u e q Hu Hu0. destruct (decide (u = t)) as [->|Hut].
      * rewrite lookup_insert_eq in Hu. simplify_eq. by right.
      * rewrite lookup_insert_ne in Hu by done. by eapply Hall.
Qed.

(** However many threads race to set the global default, at most one of the
    calls returns [Ok]; until then readers get the no-op dispatcher or the winner's,
    never another one; once a call has returned [Ok] its dispatcher is the global
    default for good; and a call returns [Err] only if another thread has won. *)
Theorem global_default_once (r0 r : race) (Hinit : race_initial r0)
    (Hsteps : rtc race_step r0 r) :
  (forall t t' d d', r.2 !! t = Some (d, GlobalReturned (Ok tt)) ->
     r.2 !! t' = Some (d', GlobalReturned (Ok tt)) -> t = t') /\
  (get_global r.1 = NONE \/
     exists t d p, r.2 !! t = Some (d, p) /\ ~ loser p /\ get_global r.1 = leak d) /\
  (forall t d, r.2 !! t = Some (d, GlobalReturned (Ok tt)) ->
     get_global r.1 = leak d /\ has_been_set r.1 = true) /\
  (forall t d, r.2 !! t = Some (d, GlobalReturned (Err tt)) ->
     exists t' d' p', t' <> t /\ r.2 !! t' = Some (d', p') /\ ~ loser p').
Proof.
  assert (race_inv r) as Hinv.
  { assert (race_inv r0) as H0.
    { destruct r0 as [w ts], Hinit. by apply race_open. }
    clear Hinit. induction Hsteps; eauto using race_step_inv. }
  destruct Hinv as [w ts Hi Hall|w ts t0 d0 p0 Ht0 Hw Hall]; simpl.
  - split_and!; try (intros t **; exfalso;
      match goal with H : ts !! t = _ |- _ => by apply Hall in H end).
    left. unfold get_global. by rewrite Hi.
  - assert (forall t d, ts !! t = Some (d, GlobalReturned (Ok tt)) -> t = t0) as Hok.
    { intros t d Ht. destruct (decide (t = t0)) as [|Hne]; [done|].
      by destruct (Hall _ _ _ Ht Hne). }
    assert (~ loser p0) as Hl by (intros [->| ->]; done).
    split_and!.
    + intros t t' d d' H H'. by rewrite (Hok _ _ H), (Hok _ _ H').
    + unfold get_global. destruct (GLOBAL_INIT w =? INITIALIZED) eqn:E; [|by left].
      right. exists t0, d0, p0. split_and!; [done..|].
      destruct p0 as [| | | |[[]|]]; simpl in Hw; try done; try tauto;
        by rewrite Hw in E.
    + intros t d Ht. rewrite (Hok _ _ Ht) in Ht. simplify_eq.
      destruct Hw as (H1 & H2 & H3). split; [|done]. unfold get_global. by rewrite H1.
    + intros t d Ht. exists t0, d0, p0. split; [|done]. intros ->. simplify_eq. done.
Qed.

(** ** Re-entrancy and unwinding *)

(** [f] leaves the thread's default, its [RefCell] and the count of scopes as it
    found them, whether it returns or panics; it may clear or set [can_enter]. *)
Definition restores {T} (t : nat) (f : M T) : Prop :=
  forall w st, CURRENT_STATE w !! t = Some st -> 0 <= SCOPED_COUNT w < U64.MAX ->
    SCOPED_COUNT (f w).2 = SCOPED_COUNT w /\
    exists b, CURRENT_STATE (f w).2 !! t =
      Some {| state_default := state_default st; borrows := borrows st; can_enter := b |}.

Section unwinding.
Context {T : Type} (t : nat) (w : World) (st : State).
Context (Hst : CURRENT_STATE w !! t = Some st).
Context (Hcount : 0 <= SCOPED_COUNT w /\ SCOPED_COUNT w + 2 <= U64.MAX).

Lemma with_default_unwinds (f : M T) (d : Dispatch) :
  borrows st = 0%nat -> restores t f ->
  exists w1, (with_default t d f w).1 = (f w1).1 /\
    get_default t (fun d w => (Done d, w)) w1 = (Done d, w1) /\
    SCOPED_COUNT (with_default t d f w).2 = SCOPED_COUNT w /\
    exists b, CURRENT_STATE (with_default t d f w).2 !! t =
      Some {| state_default := state_default st; borrows := 0; can_enter := b |}.
Proof.
  intros Hfree Hf. unfold with_default, set_default, replace_default. simpl.
  rewrite lookup_alter_eq, Hst. simpl. rewrite Hfree. simpl.
  set (w1 := with_count _ _).
  assert (CURRENT_STATE w1 !! t = Some {| state_default := Some d; borrows := 0;
            can_enter := true |}) as Hw1.
  { simpl. rewrite alter_twice, lookup_alter_eq, Hst. unfold set_state_default. simpl.
    by rewrite Hfree. }
  assert (SCOPED_COUNT w1 = SCOPED_COUNT w + 1) as Hc1.
  { simpl. apply wrap_small. unfold U64.MAX in *. lia. }
  destruct (Hf w1 _ Hw1) as (Hc2 & b & Hs2); [rewrite Hc1; lia|]. simpl in Hs2.
  exists w1. destruct (f w1) as [r w2]. cbn [fst snd] in *.
  unfold drop_guard, replace_default. rewrite Hs2. cbn -[U64.wrap]. split_and!; [done|..].
  - apply (get_default_current t w1 _ Hw1); [done|]. rewrite Hc1. lia.
  - rewrite Hc2, Hc1, wrap_small; unfold U64.MAX in *; lia.
  - exists b. by rewrite lookup_alter_eq, Hs2.
Qed.

Lemma get_default_reentrant (g : Dispatch -> M T) :
  (forall d, restores t (g d)) -> can_enter st = true -> SCOPED_COUNT w <> 0 ->
  exists w1, (get_default t g w).1 = (g (current st w) w1).1 /\
    (forall T' (h : Dispatch -> M T'), get_default t h w1 = h NONE w1 /\
       get_current t h w1 = (Done None, w1)) /\
    (forall d, (set_default t d w1).1 = Panic) /\
    CURRENT_STATE (get_default t g w).2 !! t = Some st.
Proof.
  intros Hg He Hc0. unfold get_default at 1 3.
  rewrite (proj2 (Z.eqb_neq _ _) Hc0), Hst, He. unfold entered.
  set (w1 := with_state _ _ _).
  assert (CURRENT_STATE w1 !! t = Some {| state_default := state_default st;
            borrows := S (borrows st); can_enter := false |}) as Hw1.
  { simpl. by rewrite lookup_alter_eq, Hst. }
  exists w1. change (current st w1) with (current st w).
  destruct (Hg (current st w) w1 _ Hw1) as (_ & b & Hs2); [simpl; unfold U64.MAX in *; lia|].
  destruct (g (current st w) w1) as [r w2]. cbn [fst snd] in *. split_and!; [done|..].
  - intros T' h. unfold get_default, get_current. rewrite Hw1.
    change (SCOPED_COUNT w1) with (SCOPED_COUNT w).
    by rewrite (proj2 (Z.eqb_neq _ _) Hc0).
  - intros d. unfold set_default, replace_default. simpl.
    by rewrite lookup_alter_eq, lookup_alter_eq, Hst.
  - simpl. rewrite alter_twice, lookup_alter_eq, Hs2. simpl. destruct st. simpl in *.
    unfold set_can_enter. simpl. by rewrite He.
Qed.

End unwinding.

(** [with_default] runs the closure with the given dispatcher as the thread's
    current one, and restores the previous default and the count of scopes however
    the closure ends; inside [get_default]'s closure the thread is marked as busy: a
    nested [get_default] gets the no-op dispatcher, a nested [get_current] gets
    nothing, a nested [set_default] panics, and when the closure has returned or
    panicked the thread can enter again with the default it had. *)
Theorem default_scopes_unwind {T} (t : nat) (f : M T) (g : Dispatch -> M T) (d : Dispatch)
    (w : World) (st : State)
    (Hst : CURRENT_STATE w !! t = Some st) (Hfree : borrows st = 0%nat)
    (Hcount : 0 <= SCOPED_COUNT w /\ SCOPED_COUNT w + 2 <= U64.MAX)
    (Hf : restores t f) (Hg : forall d, restores t (g d)) :
  (exists w1, (with_default t d f w).1 = (f w1).1 /\
     get_default t (fun d w => (Done d, w)) w1 = (Done d, w1) /\
     SCOPED_COUNT (with_default t d f w).2 = SCOPED_COUNT w /\
     exists b, CURRENT_STATE (with_default t d f w).2 !! t =
       Some {| state_default := state_default st; borrows := 0; can_enter := b |}) /\
  (can_enter st = true -> SCOPED_COUNT w <> 0 ->
     exists w1, (get_default t g w).1 = (g (current st w) w1).1 /\
       (forall T' (h : Dispatch -> M T'), get_default t h w1 = h NONE w1 /\
          get_current t h w1 = (Done None, w1)) /\
       (forall d, (set_default t d w1).1 = Panic) /\
       CURRENT_STATE (get_default t g w).2 !! t = Some st).
Proof.
  split; [by apply with_default_unwinds|]. intros. by apply get_default_reentrant.
Qed.

(** ** Concrete instances *)

Definition app_dispatch (s : SubscriberId) : Dispatch := {| subscriber := Scoped s |}.

(** Two threads nest scopes, and the global default is set twice. *)
Definition scope_run : list op :=
  [OpSetDefault 0%nat (app_dispatch 1%N); OpSetGlobal (app_dispatch 2%N);
   OpSetDefault 1%nat (app_dispatch 3%N); OpSetDefault 0%nat (app_dispatch 4%N);
   OpSetGlobal (app_dispatch 5%N); OpDropGuard 0%nat; OpDropGuard 1%nat].

Lemma scoped_defaults_refine_witness :
  exists w guards, run_with exec scope_run (start {[0%nat; 1%nat]}) = Some (w, guards) /\
    get_default 0%nat (fun d w => (Done d, w)) w = (Done (app_dispatch 1%N), w) /\
    get_default 1%nat (fun d w => (Done d, w)) w = (Done (leak (app_dispatch 2%N)), w).
Proof.
  destruct (scoped_defaults_refine {[0%nat; 1%nat]} scope_run
    {| scopes := [(0%nat, app_dispatch 1%N)]; global := Some (leak (app_dispatch 2%N)) |})
    as (w & guards & Hr & _ & Hg).
  - repeat constructor; simpl; set_solver.
  - reflexivity.
  - vm_compute. reflexivity.
  - exists w, guards. split; [exact Hr|]. split; apply Hg; set_solver.
Defined.

Definition global_race_start : race :=
  ((start ∅).1, <[0%nat := (app_dispatch 1%N, CompareExchange)]>
                  {[ 1%nat := (app_dispatch 2%N, CompareExchange) ]}).

(** The run of a schedule of threads. *)
Fixpoint run_race (schedule : list nat) (r : race) : option race :=
  match schedule with
  | [] => Some r
  | t :: schedule =>
      '(d, p) ← r.2 !! t; '(p', w') ← global_step d p r.1;
      run_race schedule (w', <[t := (d, p')]> r.2)
  end.

Lemma run_race_steps schedule r r' : run_race schedule r = Some r' -> rtc race_step r r'.
Proof.
  revert r. induction schedule as [|t schedule IH]; intros [w ts] H; simpl in H.
  { by simplify_eq. }
  destruct (ts !! t) as [[d p]|] eqn:Ht; simpl in H; [|done].
  destruct (global_step d p w) as [[p' w']|] eqn:E; simpl in H; [|done].
  eapply rtc_l; [by econstructor|]. by apply IH.
Qed.

Definition global_race_end : race :=
  from_option id global_race_start (run_race [1; 0; 1; 1; 1]%nat global_race_start).

Lemma global_default_once_witness :
  get_global global_race_end.1 = leak (app_dispatch 2%N) /\
  has_been_set global_race_end.1 = true.
Proof.
  destruct (global_default_once global_race_start global_race_end) as (_ & _ & H & _).
  - split; [reflexivity|]. intros t d p. simpl.
    rewrite lookup_insert_Some, lookup_singleton_Some. intros [[_ [= _ <-]]|[_ [_ [= _ <-]]]];
      reflexivity.
  - apply (run_race_steps [1; 0; 1; 1; 1]%nat). vm_compute. reflexivity.
  - apply (H 1%nat (app_dispatch 2%N)). vm_compute. reflexivity.
Defined.

Lemma default_scopes_unwind_witness :
  exists w, get_default 0%nat (fun d w => (@Panic Dispatch, w)) w = (Panic, w) /\
    (with_default 0%nat (app_dispatch 3%N) (fun w => (@Panic Dispatch, w)) w).1 = Panic /\
    SCOPED_COUNT (with_default 0%nat (app_dispatch 3%N) (fun w => (@Panic Dispatch, w)) w).2 = 1.
Proof.
  set (w := {| EXISTS := true; GLOBAL_INIT := 0; SCOPED_COUNT := 1; GLOBAL_DISPATCH := NONE;
               CURRENT_STATE := {[ 0%nat := {| state_default := Some (app_dispatch 1%N);
                                               borrows := 0; can_enter := true |} ]} |}).
  assert (restores 0%nat (fun w => (@Panic Dispatch, w))) as Hr.
  { intros w' st Hst _. split; [reflexivity|]. exists (can_enter st). cbn [snd]. rewrite Hst.
    destruct st. reflexivity. }
  destruct (default_scopes_unwind 0%nat (fun w => (@Panic Dispatch, w))
    (fun _ w => (@Panic Dispatch, w)) (app_dispatch 3%N) w _ eq_refl eq_refl)
    as [(w1 & H1 & _ & H2 & _) _].
  - split; [done|]. unfold U64.MAX. simpl. lia.
  - exact Hr.
  - intros d. exact Hr.
  - exists w. split; [vm_compute; reflexivity|]. split; [exact H1|exact H2].
Defined.
