(* ===== verification/Directives.v ===== *)
(** * Directives: [tracing-subscriber/src/filter/directive.rs]

    The ordered [DirectiveSet] shared by [Targets] and [EnvFilter], and the static
    directives: their ordering by specificity, their matching, their printer and
    their parser. *)

From S2P Require Import Prelude.
From S2P Require Import Ord.
From S2P Require Import Str.
From S2P Require Import Levels.
From S2P Require Import Fields.
From S2P Require Import Meta.
From Stdlib Require Import Ascii.

(** ** The standard library's [slice::binary_search]

    [Ok] is the index of an equal element, [Err] an index of insertion.  The range
    halves at each turn, so the length of the list is enough fuel. *)
Fixpoint binary_search_go {T} (f : T -> comparison) (l : list T) (fuel left right : nat) :
    result nat nat :=
  match fuel with
  | O => Err left
  | S fuel =>
      if (left <? right)%nat then
        let mid := (left + (right - left) / 2)%nat in
        match f <$> l !! mid with
        | Some Lt => binary_search_go f l fuel (S mid) right
        | Some Gt => binary_search_go f l fuel left mid
        | Some Eq => Ok mid
        | None => Err left
        end
      else Err left
  end.
Definition binary_search {T} `{RustOrd T} (l : list T) (x : T) : result nat nat :=
  binary_search_go (fun y => cmp y x) l (S (length l)) 0 (length l).

(** [v[i] = x] and [v.insert(i, x)]; the index is in range where they are used. *)
Definition vec_set {T} (i : nat) (x : T) (l : list T) : list T := <[i := x]> l.
Definition vec_insert {T} (i : nat) (x : T) (l : list T) : list T :=
  take i l ++ x :: drop i l.

(** ** [trait Match], [struct DirectiveSet<T>] *)

Class Match (T : Type) := {
  cares_about : T -> Metadata -> bool;
  match_level : T -> LevelFilter.t;
}.

Record DirectiveSet (T : Type) := {
  directives : list T;
  max_level : LevelFilter.t;
}.
Arguments directives {T}. Arguments max_level {T}.

Module DirectiveSet.
Section set.
Context {T : Type} `{RustOrd T, Match T}.

Definition is_empty (self : DirectiveSet T) : bool :=
  match directives self with [] => true | _ => false end.
Definition iter (self : DirectiveSet T) : list T := directives self.
Definition default : DirectiveSet T := {| directives := []; max_level := LevelFilter.OFF |}.

Definition directives_for (self : DirectiveSet T) (metadata : Metadata) : list T :=
  List.filter (fun d => cares_about d metadata) (directives self).

Definition add (directive : T) (self : DirectiveSet T) : DirectiveSet T :=
  let level := match_level directive in
  {| max_level :=
       if LevelFilter.gt level (max_level self) then level else max_level self;
     directives :=
       match binary_search (directives self) directive with
       | Ok i => vec_set i directive (directives self)
       | Err i => vec_insert i directive (directives self)
       end |}.

Definition extend (iter : list T) (self : DirectiveSet T) : DirectiveSet T :=
  fold_left (fun this directive => add directive this) iter self.
Definition from_iter (iter : list T) : DirectiveSet T := extend iter default.

End set.
End DirectiveSet.

(** ** [struct StaticDirective] *)

Record StaticDirective := {
  sd_target : option string;
  sd_field_names : list string;
  sd_level : LevelFilter.t;
}.

#[export] Instance StaticDirective_eq_dec : EqDecision StaticDirective.
Proof. solve_decision. Defined.

(** [enum ParseErrorKind], [struct ParseError] *)
Inductive ParseErrorKind :=
  | KField (e : string)
  | KLevel (l : LevelFilter.ParseLevelFilterError)
  | KOther (msg : option string).
Record ParseError := { kind : ParseErrorKind }.

Module ParseError.

Definition new : ParseError := {| kind := KOther None |}.
Definition msg (s : string) : ParseError := {| kind := KOther (Some s) |}.
Definition from_level (l : LevelFilter.ParseLevelFilterError) : ParseError :=
  {| kind := KLevel l |}.

(** [impl Display for ParseError]; the display of the inner errors is the standard
    library's or [tracing-core]'s. *)
Definition fmt (level_fmt : LevelFilter.ParseLevelFilterError -> string) (self : ParseError) :
    string :=
  match kind self with
  | KOther None => "invalid filter directive"
  | KOther (Some msg) => "invalid filter directive: " ++ msg
  | KLevel l => level_fmt l
  | KField e => "invalid field filter: " ++ e
  end%string.

End ParseError.

Module StaticDirective.

Definition new (target : option string) (field_names : list string) (level : LevelFilter.t) :
    StaticDirective :=
  {| sd_target := target; sd_field_names := field_names; sd_level := level |}.

Definition default : StaticDirective :=
  {| sd_target := None; sd_field_names := []; sd_level := LevelFilter.ERROR |}.

(** [StaticDirective::cares_about_target] *)
Definition cares_about_target (self : StaticDirective) (to_check : string) : bool :=
  let target_matches :=
    match sd_target self with
    | Some target => starts_with to_check target
    | None => true
    end in
  if negb target_matches then false
  else if negb (bool_decide (sd_field_names self = [])) then false
  else true.

(** [impl Ord for StaticDirective]; the debug assertions there are the theorem that
    [Equal] means equal targets and fields. *)
#[global] Instance cmp_static : RustOrd StaticDirective := fun self other =>
  reverse
    (then_with
       (then_with
          (cmp (str_len <$> sd_target self) (str_len <$> sd_target other))
          (cmp (length (sd_field_names self)) (length (sd_field_names other))))
       (then_with
          (cmp (sd_target self) (sd_target other))
          (cmp (sd_field_names self) (sd_field_names other)))).

(** [impl Match for StaticDirective] *)
#[global] Instance match_static : Match StaticDirective := {
  cares_about self meta :=
    let target_matches :=
      match sd_target self with
      | Some target => starts_with (Metadata.target meta) target
      | None => true
      end in
    if negb target_matches then false
    else if Metadata.is_event meta && negb (bool_decide (sd_field_names self = [])) then
      forallb (fun name => bool_decide (is_Some (FieldSet.field (Metadata.fields meta) name)))
        (sd_field_names self)
    else true;
  match_level self := sd_level self;
}.

Local Open Scope string_scope.

(** [impl Display for StaticDirective] *)
Definition fmt (self : StaticDirective) : string :=
  let '(out, wrote_any) :=
    match sd_target self with Some target => (target, true) | None => ("", false) end in
  let '(out, wrote_any) :=
    match sd_field_names self with
    | [] => (out, wrote_any)
    | field :: fields =>
        (out ++ "[" ++ "{" ++ field ++
           fold_right (fun field s => "," ++ field ++ s) "" fields ++ "}" ++ "]", true)
    end in
  out ++ (if wrote_any then "=" else "") ++ LevelFilter.fmt (sd_level self).

(** [impl FromStr for StaticDirective] *)
Definition from_str (s : string) : result StaticDirective ParseError :=
  match split_char "="%char s with
  | [] => Err (ParseError.msg "string must not be empty")
  | [part0] =>
      match LevelFilter.from_str part0 with
      | Ok level => Ok {| sd_level := level; sd_target := None; sd_field_names := [] |}
      | Err _ =>
          Ok {| sd_target := Some part0; sd_level := LevelFilter.TRACE; sd_field_names := [] |}
      end
  | [part0; part1] =>
      let with_fields target (field_names : result (list string) ParseError) :=
        match field_names with
        | Err e => Err e
        | Ok field_names =>
            match LevelFilter.from_str part1 with
            | Ok level =>
                Ok {| sd_level := level; sd_field_names := field_names; sd_target := target |}
            | Err e => Err (ParseError.from_level e)
            end
        end in
      match split_str "[{" part0 with
      | [] => with_fields None (Ok [])
      | [target] => with_fields (Some target) (Ok [])
      | [target; maybe_fields] =>
          with_fields (Some target)
            (if negb (ends_with maybe_fields "}]")
             then Err (ParseError.msg "expected fields list to end with '}]'")
             else Ok (List.filter (fun s => negb (String.eqb s ""))
                        (split_char ","%char (trim_end_matches maybe_fields "}]"))))
      | _ => Err (ParseError.msg "too many '[{' in filter directive, expected 0 or 1")
      end
  | _ => Err (ParseError.msg "too many '=' in filter directive, expected 0 or 1")
  end.

End StaticDirective.

(** [impl DirectiveSet<StaticDirective>] *)
Module Statics.

Definition enabled (self : DirectiveSet StaticDirective) (meta : Metadata) : bool :=
  let level := Metadata.level meta in
  match DirectiveSet.directives_for self meta with
  | d :: _ => LevelFilter.ge_level (sd_level d) level
  | [] => false
  end.

Definition directives_for_target (self : DirectiveSet StaticDirective) (target : string) :
    list StaticDirective :=
  List.filter (fun d => StaticDirective.cares_about_target d target) (directives self).

(** [target_enabled]: skips directives with fields. *)
Definition target_enabled (self : DirectiveSet StaticDirective) (target : string)
    (level : Level.t) : bool :=
  match directives_for_target self target with
  | d :: _ => LevelFilter.ge_level (sd_level d) level
  | [] => false
  end.

End Statics.

Example from_str_fields :
  StaticDirective.from_str "foo[{bar,baz}]=info" =
  Ok {| sd_target := Some "foo"; sd_field_names := ["bar"; "baz"];
        sd_level := LevelFilter.INFO |}.
Proof. reflexivity. Qed.

(** ** Sorted sets *)

Section sorted.
Context {T : Type} `{RustOrd T, Match T} (P : T -> Prop) (Hc : preorder_on P cmp).
Implicit Types (l : list T) (d x y : T).

Definition sorted l : Prop := Forall P l /\ StronglySorted (fun x y => cmp x y = Lt) l.

Lemma sorted_lookup_lt l i j x y :
  sorted l -> l !! i = Some x -> l !! j = Some y -> (i < j)%nat -> cmp x y = Lt.
Proof.
  intros [_ Hs]. revert i j. induction Hs as [|z l Hs IH Hz]; intros i j Hi Hj Hlt; [done|].
  destruct j as [|j]; [lia|]. destruct i as [|i]; simplify_eq/=.
  - rewrite Forall_forall in Hz. apply Hz. by eapply list_elem_of_lookup_2.
  - apply (IH i j); [done..|lia].
Qed.

Lemma sorted_P l i x : sorted l -> l !! i = Some x -> P x.
Proof. intros [HP _] Hi. by eapply Forall_lookup_1. Qed.

(** What [binary_search] promises. *)
Definition search_result l d (r : result nat nat) : Prop :=
  match r with
  | Ok i => exists y, l !! i = Some y /\ cmp y d = Eq
  | Err i => (i <= length l)%nat /\
      (forall j y, l !! j = Some y -> (j < i)%nat -> cmp y d = Lt) /\
      (forall j y, l !! j = Some y -> (i <= j)%nat -> cmp y d = Gt)
  end.

Lemma binary_search_go_ok l d fuel left right :
  sorted l -> P d -> (left <= right <= length l)%nat -> (right - left < fuel)%nat ->
  (forall j y, l !! j = Some y -> (j < left)%nat -> cmp y d = Lt) ->
  (forall j y, l !! j = Some y -> (right <= j)%nat -> cmp y d = Gt) ->
  search_result l d (binary_search_go (fun y => cmp y d) l fuel left right).
Proof.
  intros Hs Hd. revert left right. induction fuel as [|fuel IH]; intros left right Hr Hf HL HR;
    [lia|]. cbn -[Nat.div Nat.ltb].
  destruct (Nat.ltb_spec left right) as [Hlt|Hle].
  2:{ assert (left = right) as -> by lia. split_and!; [lia|done|done]. }
  set (mid := (left + (right - left) / 2)%nat).
  assert (left <= mid < right)%nat as Hmid.
  { subst mid. pose proof (Nat.Div0.div_le_upper_bound (right - left) 2 (right - left)).
    pose proof (Nat.div_lt (right - left) 2). lia. }
  destruct (lookup_lt_is_Some_2 l mid ltac:(lia)) as [y Hy]. rewrite Hy. simpl.
  pose proof (sorted_P _ _ _ Hs Hy) as HPy.
  destruct (cmp y d) eqn:E.
  - by exists y.
  - apply IH; [lia..| |done]. intros j z Hj Hjm. pose proof (sorted_P _ _ _ Hs Hj).
    destruct (decide (j = mid)) as [->|]; [congruence|].
    apply (po_lt _ _ Hc z y d); [done..| |done]. apply (sorted_lookup_lt l j mid); [done..|lia].
  - apply IH; [lia..|done|]. intros j z Hj Hjm. pose proof (sorted_P _ _ _ Hs Hj).
    destruct (decide (j = mid)) as [->|]; [congruence|].
    apply (po_gt_lt Hc); [done..|]. apply (po_gt_lt Hc) in E; [|done..].
    apply (po_lt _ _ Hc d y z); [done..|]. apply (sorted_lookup_lt l mid j); [done..|lia].
Qed.

Lemma binary_search_ok l d : sorted l -> P d -> search_result l d (binary_search l d).
Proof.
  intros Hs Hd. apply binary_search_go_ok; [done..|lia|lia| |].
  - intros. lia.
  - intros j y Hj%lookup_lt_Some. lia.
Qed.

(** [add] keeps the elements below and above the new one, and replaces its equal. *)
Lemma add_split d (s : DirectiveSet T) :
  sorted (directives s) -> P d ->
  exists l1 l2 o, directives (DirectiveSet.add d s) = l1 ++ d :: l2 /\
    directives s = l1 ++ option_list o ++ l2 /\
    Forall (fun y => cmp y d = Lt) l1 /\ Forall (fun y => cmp y d = Gt) l2 /\
    Forall (fun y => cmp y d = Eq) (option_list o).
Proof.
  intros Hs Hd. pose proof (binary_search_ok _ d Hs Hd) as Hb. simpl.
  destruct (binary_search (directives s) d) as [i|i]; simpl in Hb.
  - destruct Hb as (y & Hy & E). pose proof (sorted_P _ _ _ Hs Hy) as HPy.
    exists (take i (directives s)), (drop (S i) (directives s)), (Some y).
    split_and!.
    + unfold vec_set. rewrite insert_take_drop; [done|]. by apply lookup_lt_Some in Hy.
    + simpl. by rewrite take_drop_middle.
    + apply Forall_forall. intros z (j & Hj)%list_elem_of_lookup.
      apply lookup_take_Some in Hj as [Hj Hlt].
      rewrite <- (po_eq_r Hc y d z); [|eauto using sorted_P..|done].
      by eapply sorted_lookup_lt.
    + apply Forall_forall. intros z (j & Hj)%list_elem_of_lookup.
      rewrite lookup_drop in Hj. pose proof (sorted_P _ _ _ Hs Hj) as HPz.
      apply (po_gt_lt Hc); [done..|].
      rewrite <- (po_eq _ _ Hc y d z) by done. eapply sorted_lookup_lt; [done..|lia].
    + by repeat constructor.
  - destruct Hb as (Hi & HL & HR).
    exists (take i (directives s)), (drop i (directives s)), None. split_and!.
    + done.
    + simpl. by rewrite take_drop.
    + apply Forall_forall. intros z (j & Hj)%list_elem_of_lookup.
      apply lookup_take_Some in Hj as [Hj Hlt]. by eapply HL.
    + apply Forall_forall. intros z (j & Hj)%list_elem_of_lookup.
      rewrite lookup_drop in Hj. eapply HR; [done|lia].
    + done.
Qed.

Lemma sorted_app l1 l2 :
  sorted (l1 ++ l2) <->
  sorted l1 /\ sorted l2 /\ forall x y, x ∈ l1 -> y ∈ l2 -> cmp x y = Lt.
Proof.
  unfold sorted. rewrite Forall_app. induction l1 as [|x l1 IH]; simpl.
  - intuition; [constructor|]. by apply not_elem_of_nil in H2.
  - rewrite Forall_cons. split.
    + intros [[[Hx HP1] HP2] Hs]. inversion_clear Hs as [|? ? Hs' Hx'].
      destruct IH as [[H1 [H2 H3]] _]; [done|]. apply Forall_app in Hx' as [Hx1 Hx2].
      split_and!; try tauto.
      * constructor; tauto.
      * intros a b [->|Ha]%elem_of_cons Hb; [|by apply H3].
        rewrite Forall_forall in Hx2. by apply Hx2.
    + intros [[[Hx HP1] Hs1] [[HP2 Hs2] Hlt]]. inversion_clear Hs1 as [|? ? Hs1' Hx1].
      split; [done|]. constructor.
      * apply IH. split_and!; try done. intros a b Ha Hb. apply Hlt; [by right|done].
      * apply Forall_app. split; [done|]. apply Forall_forall. intros b Hb.
        apply Hlt; [by left|done].
Qed.

Lemma sorted_cons x l : sorted (x :: l) <-> P x /\ sorted l /\ Forall (fun y => cmp x y = Lt) l.
Proof.
  unfold sorted. rewrite Forall_cons. split.
  - intros [[Hx HP] Hs]. inversion_clear Hs. tauto.
  - intros (Hx & [HP Hs] & Hlt). split; [done|]. by constructor.
Qed.

(** [add] keeps the set sorted and changes its membership only at the key. *)
Lemma add_sorted d s :
  sorted (directives s) -> P d -> sorted (directives (DirectiveSet.add d s)).
Proof.
  intros Hs Hd. destruct (add_split d s Hs Hd) as (l1 & l2 & o & -> & Heq & H1 & H2 & _).
  rewrite Heq in Hs. apply sorted_app in Hs as (Hs1 & Hs2 & Hlt).
  apply sorted_app in Hs2 as (_ & Hs2 & _). rewrite Forall_forall in H1, H2.
  assert (Forall (fun y => cmp d y = Lt) l2) as Hd2.
  { apply Forall_forall. intros y Hy. destruct Hs2 as [HP2 _]. rewrite Forall_forall in HP2.
    apply (po_gt_lt Hc); auto. }
  apply sorted_app. split_and!; [done|by apply sorted_cons|].
  intros x y Hx [->|Hy]%elem_of_cons; [by apply H1|].
  apply Hlt; [done|]. apply elem_of_app. by right.
Qed.

Lemma elem_of_add d s x :
  sorted (directives s) -> P d ->
  x ∈ directives (DirectiveSet.add d s) <-> x = d \/ x ∈ directives s /\ cmp x d <> Eq.
Proof.
  intros Hs Hd. destruct (add_split d s Hs Hd) as (l1 & l2 & o & -> & -> & H1 & H2 & Ho).
  rewrite Forall_forall in H1, H2, Ho. rewrite !elem_of_app, elem_of_cons. split.
  - intros [Hx|[->|Hx]]; [right|by left|right].
    + split; [tauto|]. by rewrite (H1 x Hx).
    + split; [tauto|]. by rewrite (H2 x Hx).
  - intros [->|[[Hx|[Hx|Hx]] Hne]]; try tauto. by apply Ho in Hx.
Qed.

Lemma add_max_level d s :
  filter_rank (max_level (DirectiveSet.add d s)) =
  Z.max (filter_rank (max_level s)) (filter_rank (match_level d)).
Proof.
  simpl. rewrite filter_gt_rank.
  destruct (Z.ltb_spec (filter_rank (max_level s)) (filter_rank (match_level d))); lia.
Qed.

(** The directives of a sequence that no later one with an equal key replaces. *)
Definition effective (ds : list T) d : Prop :=
  exists l1 l2, ds = l1 ++ d :: l2 /\ Forall (fun e => cmp d e <> Eq) l2.

Lemma effective_snoc ds e d :
  effective (ds ++ [e]) d <-> d = e \/ effective ds d /\ cmp d e <> Eq.
Proof.
  split.
  - intros (l1 & l2 & Heq & Hl2). destruct l2 as [|x l2 _] using rev_ind.
    + apply app_inj_tail in Heq as [_ ->]. by left.
    + right. rewrite app_comm_cons, app_assoc in Heq. apply app_inj_tail in Heq as [-> ->].
      apply Forall_app in Hl2 as [Hl2 Hx]. rewrite Forall_singleton in Hx. split; [|exact Hx]. by exists l1, l2.
  - intros [->|[(l1 & l2 & -> & Hl2) Hne]].
    + by exists ds, [].
    + exists l1, (l2 ++ [e]). split; [by rewrite <- app_assoc|].
      apply Forall_app. split; [done|]. by apply Forall_singleton.
Qed.

Lemma effective_elem ds d : effective ds d -> d ∈ ds.
Proof. intros (l1 & l2 & -> & _). set_solver. Qed.

Lemma from_iter_snoc ds d :
  DirectiveSet.from_iter (ds ++ [d]) = DirectiveSet.add d (DirectiveSet.from_iter ds).
Proof. unfold DirectiveSet.from_iter, DirectiveSet.extend. by rewrite fold_left_app. Qed.

Lemma from_iter_ok ds :
  Forall P ds ->
  let s := DirectiveSet.from_iter ds in
  sorted (directives s) /\ (forall d, d ∈ directives s <-> effective ds d) /\
  filter_rank (max_level s) = fold_left Z.max (map (fun d => filter_rank (match_level d)) ds) 0%Z.
Proof.
  induction ds as [|d ds IH] using rev_ind; intros HP; simpl.
  - split_and!; [by repeat constructor| |done]. intros d. split.
    + by intros ?%not_elem_of_nil.
    + intros ?%effective_elem. by apply not_elem_of_nil in H1.
  - apply Forall_app in HP as [HP Hd]. rewrite Forall_singleton in Hd. destruct (IH HP) as (Hs & He & Hm).
    rewrite from_iter_snoc. split_and!.
    + by apply add_sorted.
    + intros x. rewrite elem_of_add, He, effective_snoc by done. done.
    + by rewrite add_max_level, Hm, map_app, fold_left_app.
Qed.

(** Adding the elements of a sorted list in order gives the list. *)
Lemma from_iter_sorted l : sorted l -> directives (DirectiveSet.from_iter l) = l.
Proof.
  induction l as [|d l IH] using rev_ind; intros Hs; [done|].
  rewrite from_iter_snoc. apply sorted_app in Hs as (Hl & [Hd _] & Hlt).
  rewrite Forall_singleton in Hd.
  destruct (add_split d (DirectiveSet.from_iter l)) as (l1 & l2 & o & -> & Heq & _ & H2 & Ho);
    [by rewrite IH|done|].
  rewrite (IH Hl) in Heq.
  assert (forall x, x ∈ l -> cmp x d = Lt) as Hall by (intros x Hx; apply Hlt; [done|by left]).
  destruct l2 as [|y l2].
  2:{ apply Forall_cons in H2 as [Hy _]. rewrite (Hall y) in Hy; [done|]. subst l. set_solver. }
  destruct o as [y|]; simpl in *.
  { apply Forall_cons in Ho as [Hy _]. rewrite (Hall y) in Hy; [done|]. subst l. set_solver. }
  by rewrite Heq, app_nil_r.
Qed.

(** The first matching element of a sorted list is the least. *)
Lemma filter_first l p d :
  sorted l ->
  head (List.filter p l) = Some d <->
  d ∈ l /\ p d = true /\ forall e, e ∈ l -> p e = true -> e = d \/ cmp d e = Lt.
Proof.
  induction l as [|x l IH]; intros Hs; simpl.
  { split; [done|]. by intros [?%not_elem_of_nil _]. }
  apply sorted_cons in Hs as (Hx & Hs & Hlt). rewrite Forall_forall in Hlt.
  setoid_rewrite elem_of_cons. destruct (p x) eqn:Hpx; simpl.
  - split.
    + intros [= <-]. split_and!; [by left|done|]. intros e [->|He] Hpe; [by left|right; auto].
    + intros ([->|Hd] & Hpd & Hmin); [done|].
      destruct (Hmin x (or_introl eq_refl) Hpx) as [->|Hdx]; [done|].
      pose proof (Hlt d Hd) as Hxd. destruct Hs as [HP _]. rewrite Forall_forall in HP.
      rewrite (po_opp _ _ Hc x d), Hxd in Hdx by auto. done.
  - rewrite IH by done. split.
    + intros (Hd & Hpd & Hmin). split_and!; [by right|done|].
      intros e [->|He] Hpe; [congruence|auto].
    + intros ([->|Hd] & Hpd & Hmin); [congruence|]. split_and!; auto.
Qed.

End sorted.

(** A directive set holds, strictly ordered, the directives added to it that no
    later one with an equal key replaced; its maximum level is the most verbose of
    all the levels added; and the first of its directives that satisfies a predicate
    is the least in the order. *)
Theorem directive_set_spec {T} `{RustOrd T, Match T} (P : T -> Prop) (ds : list T)
    (Hc : preorder_on P cmp) (HP : Forall P ds) :
  let s := DirectiveSet.from_iter ds in
  sorted P (directives s) /\
  (forall d, d ∈ directives s <-> effective ds d) /\
  filter_rank (max_level s) =
    fold_left Z.max (map (fun d => filter_rank (match_level d)) ds) 0%Z /\
  (forall p d, head (List.filter p (directives s)) = Some d <->
     effective ds d /\ p d = true /\
     forall e, effective ds e -> p e = true -> e = d \/ cmp d e = Lt).
Proof.
  destruct (from_iter_ok P Hc ds HP) as (Hs & He & Hm). split_and!; [done..|].
  intros p d. rewrite (filter_first P Hc) by done. setoid_rewrite He. done.
Qed.

(** ** The order of static directives *)

Definition same_key (d e : StaticDirective) : Prop :=
  sd_target d = sd_target e /\ sd_field_names d = sd_field_names e.

Lemma preorder_static : preorder_on everything (cmp (A:=StaticDirective)).
Proof.
  eapply preorder_on_ext with (c := fun d e => reverse _); [|intros d e _ _; reflexivity].
  apply preorder_on_reverse, preorder_on_then; apply preorder_on_then.
  - apply (preorder_by (fun d => str_len <$> sd_target d) (on_option everything));
      [apply preorder_option, order_nat|auto with tracing].
  - apply (preorder_by (fun d => length (sd_field_names d)) everything); [apply order_nat|done].
  - apply (preorder_by sd_target (on_option everything));
      [apply preorder_option, order_string|auto with tracing].
  - apply (preorder_by sd_field_names (Forall everything));
      [apply preorder_list, order_string|auto with tracing].
Qed.

Lemma reverse_eq c : reverse c = Eq <-> c = Eq.
Proof. by destruct c. Qed.
Lemma then_with_eq a b : then_with a b = Eq <-> a = Eq /\ b = Eq.
Proof. destruct a; simpl; intuition congruence. Qed.

Lemma cmp_static_eq (d e : StaticDirective) : cmp d e = Eq <-> same_key d e.
Proof.
  unfold cmp at 1, StaticDirective.cmp_static. rewrite reverse_eq, !then_with_eq. split.
  - intros (_ & Ht & Hf). split.
    + apply (oo_eq _ _ (order_option everything order_string)); auto with tracing.
    + apply (oo_eq _ _ (order_list everything _ order_string)); auto with tracing.
  - intros [-> ->]. split_and!.
    + apply (po_refl (preorder_option everything (oo_pre _ _ order_nat))). auto with tracing.
    + by apply (po_refl (oo_pre _ _ order_nat)).
    + apply (po_refl (preorder_option everything (oo_pre _ _ order_string))). auto with tracing.
    + apply (po_refl (preorder_list everything _ (oo_pre _ _ order_string))). auto with tracing.
Qed.

(** The length of a directive's target, shortest for a directive without one. *)
Definition target_len (t : option string) : Z :=
  match t with Some t => Z.of_nat (str_len t) | None => -1 end.

(** A directive goes before the ones with a shorter target, then before the ones
    with fewer fields; the comparison of the texts breaks the remaining ties. *)
Definition precedes (d e : StaticDirective) : Prop :=
  (target_len (sd_target e) < target_len (sd_target d))%Z \/
  target_len (sd_target e) = target_len (sd_target d) /\
    ((length (sd_field_names e) < length (sd_field_names d))%nat \/
     length (sd_field_names e) = length (sd_field_names d) /\
     then_with (cmp (sd_target e) (sd_target d)) (cmp (sd_field_names e) (sd_field_names d)) = Lt).

Lemma cmp_static_lt d e : cmp d e = Lt <-> precedes d e.
Proof.
  rewrite <- (po_gt_lt preorder_static) by done.
  unfold cmp at 1, StaticDirective.cmp_static, precedes.
  set (tie := then_with (cmp (sd_target e) _) _).
  assert (cmp (str_len <$> sd_target e) (str_len <$> sd_target d) =
          Z.compare (target_len (sd_target e)) (target_len (sd_target d))) as ->.
  { clear tie. destruct (sd_target d) as [x|], (sd_target e) as [y|]; unfold target_len.
    - change (cmp (Some (str_len y)) (Some (str_len x))) with (Nat.compare (str_len y) (str_len x)).
      symmetry. apply Nat2Z.inj_compare.
    - symmetry. apply Z.compare_lt_iff. lia.
    - symmetry. apply Z.compare_gt_iff. lia.
    - done. }
  change (cmp (length (sd_field_names e)) (length (sd_field_names d)))
    with (Nat.compare (length (sd_field_names e)) (length (sd_field_names d))).
  rewrite <- (Nat2Z.inj_compare (length (sd_field_names e))).
  destruct (Z.compare_spec (target_len (sd_target e)) (target_len (sd_target d))) as [H1|H1|H1];
    destruct (Z.compare_spec (Z.of_nat (length (sd_field_names e)))
                (Z.of_nat (length (sd_field_names d)))) as [H2|H2|H2]; simpl;
    unfold reverse; destruct tie; simpl; split; intros H; try done; try lia;
    try (left; lia); try (right; split; [lia|left; lia]);
    try (right; split; [lia|right; split; [lia|done]]);
    destruct H as [H|[H [H'|[H' H'']]]]; (done || lia).
Qed.

Lemma head_enabled (l : list StaticDirective) level :
  match l with d :: _ => LevelFilter.ge_level (sd_level d) level | [] => false end = true <->
  exists d, head l = Some d /\ LevelFilter.ge_level (sd_level d) level = true.
Proof. destruct l as [|d l]; simpl; [by split; [|intros (? & ? & _)]|].
  split; [eauto|]. by intros (? & [= <-] & ?). Qed.

(** For the static directives added in the sequence [ds], a callsite (or a
    target and a level) is enabled exactly when, among the directives that no later
    one for the same target and fields replaced and that match it, the most specific
    one (longest target, then most fields) allows its level. *)
Theorem statics_most_specific (ds : list StaticDirective) (meta : Metadata)
    (target : string) (level : Level.t) :
  let decides (matches : StaticDirective -> bool) level d :=
    effective ds d /\ matches d = true /\
    (forall e, effective ds e -> matches e = true -> e = d \/ precedes d e) /\
    LevelFilter.ge_level (sd_level d) level = true in
  (Statics.enabled (DirectiveSet.from_iter ds) meta = true <->
     exists d, decides (fun d => cares_about d meta) (Metadata.level meta) d) /\
  (Statics.target_enabled (DirectiveSet.from_iter ds) target level = true <->
     exists d, decides (fun d => StaticDirective.cares_about_target d target) level d).
Proof.
  destruct (from_iter_ok everything preorder_static ds) as (Hs & He & _);
    [auto with tracing|].
  split; unfold Statics.enabled, Statics.target_enabled, Statics.directives_for_target,
    DirectiveSet.directives_for; rewrite head_enabled;
    setoid_rewrite (filter_first everything preorder_static); try done;
    setoid_rewrite He; setoid_rewrite cmp_static_lt;
    split; intros (d & Hd); exists d; tauto.
Qed.

(** ** Printing and parsing *)

(** Names without the punctuation of the directive syntax. *)
Definition plain_char (a : ascii) : bool :=
  negb (bool_decide (a ∈ ["="; ","; "["; "]"; "{"; "}"]%char)).
Fixpoint plain (s : string) : bool :=
  match s with EmptyString => true | String a s => plain_char a && plain s end.

Local Open Scope string_scope.

(** Membership in a list of literals. *)
Ltac elem_chars := repeat (apply list_elem_of_here || apply list_elem_of_further).

Lemma plain_no_char c s :
  c ∈ ["="; ","; "["; "]"; "{"; "}"]%char -> plain s = true -> no_char c s = true.
Proof.
  intros Hc. induction s as [|a s IH]; simpl; [done|].
  intros [Ha Hs]%andb_true_iff. rewrite IH, andb_true_r by done. apply negb_true_iff.
  apply Ascii.eqb_neq. intros ->. unfold plain_char in Ha.
  by rewrite bool_decide_true in Ha.
Qed.

(** The fields between the brackets, as they are printed. *)
Definition fields_text (fields : list string) : string :=
  match fields with
  | [] => ""
  | f :: fs => f ++ fold_right (fun field s => "," ++ field ++ s) "" fs
  end.

Lemma fields_text_no_char c fields :
  Ascii.eqb "," c = false -> Forall (fun f => no_char c f = true) fields ->
  no_char c (fields_text fields) = true.
Proof.
  intros Hc Hf. assert (no_char c "," = true) as Hcomma.
  { unfold no_char. by rewrite Hc. }
  destruct fields as [|f fs]; [done|]. apply Forall_cons in Hf as [Hf Hfs].
  unfold fields_text. rewrite no_char_app, Hf, andb_true_l.
  induction Hfs as [|g gs Hg _ IH]; [done|]. cbn [fold_right].
  by rewrite !no_char_app, Hg, IH, Hcomma.
Qed.

Lemma split_fields_text fields :
  fields <> [] -> Forall (fun f => no_char "," f = true) fields ->
  split_char "," (fields_text fields) = fields.
Proof.
  destruct fields as [|f fs]; [done|]. intros _ [Hf Hfs]%Forall_cons. simpl.
  revert f Hf. induction Hfs as [|g gs Hg _ IH]; intros f Hf; simpl.
  - by rewrite append_nil_r, split_char_none.
  - change ("," ++ g ++ fold_right (fun field s => "," ++ field ++ s) "" gs)
      with (String "," (g ++ fold_right (fun field s => "," ++ field ++ s) "" gs)).
    by rewrite split_char_sep, (IH g Hg).
Qed.

Lemma level_fmt_no_char c f :
  c ∈ ["="; ","; "["; "]"; "{"; "}"]%char -> no_char c (LevelFilter.fmt f) = true.
Proof. intros Hc. apply plain_no_char; [done|]. by destruct f as [[[[]]|]]. Qed.

(** What the parser gets from a printed directive. *)
Lemma from_str_level f :
  StaticDirective.from_str (LevelFilter.fmt f) = Ok (StaticDirective.new None [] f).
Proof. by destruct f as [[[[]]|]]. Qed.

Lemma from_str_target t f :
  plain t = true ->
  StaticDirective.from_str (t ++ "=" ++ LevelFilter.fmt f) =
  Ok (StaticDirective.new (Some t) [] f).
Proof.
  intros Ht. unfold StaticDirective.from_str.
  change ("=" ++ LevelFilter.fmt f) with (String "=" (LevelFilter.fmt f)).
  rewrite split_char_sep by (apply plain_no_char; [elem_chars|done]).
  rewrite split_char_none by (apply level_fmt_no_char; elem_chars).
  unfold split_str. rewrite split_str_none by (apply plain_no_char; [elem_chars|done]).
  by destruct f as [[[[]]|]].
Qed.

Lemma from_str_target_fields t fields f :
  plain t = true -> fields <> [] -> Forall (fun s => plain s = true /\ s <> "") fields ->
  StaticDirective.from_str
    (t ++ "[{" ++ (fields_text fields ++ "}]") ++ "=" ++ LevelFilter.fmt f) =
  Ok (StaticDirective.new (Some t) fields f).
Proof.
  intros Ht Hne Hf.
  assert (forall c, c ∈ ["="; ","; "["; "]"; "{"; "}"]%char ->
            Forall (fun s => no_char c s = true) fields) as Hnc.
  { intros c Hc. eapply Forall_impl; [exact Hf|]. intros s [Hs _]. by apply plain_no_char. }
  assert (forall c, Ascii.eqb "," c = false -> c ∈ ["="; ","; "["; "]"; "{"; "}"]%char ->
            no_char c (fields_text fields) = true) as Htext.
  { intros c Hcomma Hc. apply fields_text_no_char; [done|by apply Hnc]. }
  unfold StaticDirective.from_str.
  rewrite <- (append_assoc "[{"), <- (append_assoc t).
  change ("=" ++ LevelFilter.fmt f) with (String "=" (LevelFilter.fmt f)).
  rewrite split_char_sep.
  2:{ rewrite !no_char_app, Htext by (done || elem_chars). rewrite plain_no_char by (done || elem_chars).
      done. }
  rewrite split_char_none by (apply level_fmt_no_char; elem_chars).
  unfold split_str.
  rewrite split_str_sep by (apply plain_no_char; [elem_chars|done]).
  rewrite split_str_none by (rewrite no_char_app, Htext by (done || elem_chars); done).
  rewrite ends_with_app. simpl.
  rewrite (trim_end_matches_app "]") by (done || apply Htext; (done || elem_chars)).
  rewrite split_fields_text by (done || apply Hnc; elem_chars).
  assert (List.filter (fun s => negb (String.eqb s "")) fields = fields) as ->.
  { clear Hne Hnc Htext. induction Hf as [|s l [_ Hs] _ IH]; [done|]. simpl.
    apply String.eqb_neq in Hs. by rewrite Hs, IH. }
  by destruct f as [[[[]]|]].
Qed.

(** A directive whose names are free of the syntax's punctuation. *)
Definition printable (d : StaticDirective) : Prop :=
  (forall t, sd_target d = Some t -> plain t = true) /\
  Forall (fun s => plain s = true /\ s <> "") (sd_field_names d).

(** A directive with fields and no target is printed like one with an empty target. *)
Definition reparsed (d : StaticDirective) : StaticDirective :=
  match sd_target d, sd_field_names d with
  | None, _ :: _ => StaticDirective.new (Some "") (sd_field_names d) (sd_level d)
  | _, _ => d
  end.

Lemma fmt_fields t fields f :
  fields <> [] ->
  StaticDirective.fmt (StaticDirective.new (Some t) fields f) =
  t ++ "[{" ++ (fields_text fields ++ "}]") ++ "=" ++ LevelFilter.fmt f.
Proof.
  destruct fields as [|g gs]; [done|]. intros _. unfold StaticDirective.fmt. simpl.
  set (rest := fold_right _ _ gs). rewrite !append_assoc. by do 4 f_equal.
Qed.

Lemma reparse (d : StaticDirective) :
  printable d -> StaticDirective.from_str (StaticDirective.fmt d) = Ok (reparsed d).
Proof.
  destruct d as [[t|] fields f]; intros [Ht Hf]; simpl in *.
  - specialize (Ht t eq_refl). destruct (decide (fields = [])) as [->|Hne].
    + by apply from_str_target.
    + change {| sd_target := Some t; sd_field_names := fields; sd_level := f |}
        with (StaticDirective.new (Some t) fields f).
      rewrite fmt_fields, from_str_target_fields by done. by destruct fields.
  - destruct (decide (fields = [])) as [->|Hne].
    + apply from_str_level.
    + assert (StaticDirective.fmt {| sd_target := None; sd_field_names := fields; sd_level := f |} =
              StaticDirective.fmt (StaticDirective.new (Some "") fields f)) as ->
        by by destruct fields.
      rewrite fmt_fields, from_str_target_fields by done. by destruct fields.
Qed.

(** Parsing the text that a static directive prints gives the directive back
    (with an empty target where it had fields and no target), and the directive
    obtained so matches the same callsites and targets at the same level. *)
Theorem static_directive_roundtrip (d : StaticDirective) (meta : Metadata) (target : string)
    (Hd : printable d) :
  exists d', StaticDirective.from_str (StaticDirective.fmt d) = Ok d' /\
    (sd_target d <> None \/ sd_field_names d = [] -> d' = d) /\
    sd_level d' = sd_level d /\ sd_field_names d' = sd_field_names d /\
    cares_about d' meta = cares_about d meta /\
    StaticDirective.cares_about_target d' target = StaticDirective.cares_about_target d target.
Proof.
  exists (reparsed d). split; [by apply reparse|].
  destruct d as [[t|] [|g gs] f]; simpl; split_and!; try done.
  - by intros [|].
  - by destruct (Metadata.target meta).
  - unfold StaticDirective.cares_about_target. simpl. by destruct target.
Qed.

(** ** Concrete instances *)

Definition example_directives : list StaticDirective :=
  [StaticDirective.new (Some "app") [] LevelFilter.DEBUG;
   StaticDirective.new None [] LevelFilter.WARN;
   StaticDirective.new (Some "app::db") ["a"; "query"] LevelFilter.TRACE;
   StaticDirective.new (Some "app") [] LevelFilter.INFO].

Lemma directive_set_spec_witness :
  sorted everything (directives (DirectiveSet.from_iter example_directives)) /\
  max_level (DirectiveSet.from_iter example_directives) = LevelFilter.TRACE.
Proof.
  destruct (directive_set_spec everything example_directives preorder_static) as (H & _ & _ & _).
  - repeat constructor.
  - split; [exact H|reflexivity].
Defined.

Lemma static_directive_roundtrip_witness :
  exists d', StaticDirective.from_str "app::db[{a,query}]=trace" = Ok d' /\
    sd_field_names d' = ["a"; "query"].
Proof.
  destruct (static_directive_roundtrip
    (StaticDirective.new (Some "app::db") ["a"; "query"] LevelFilter.TRACE)
    (example_metadata 1) "app::db") as (d' & Hd & _ & _ & Hf & _).
  - split; [intros t [= <-]; reflexivity|]. repeat constructor; discriminate.
  - exists d'. split; [exact Hd|exact Hf].
Defined.
