(* ===== verification/Targets.v ===== *)
(** * Targets: [tracing-subscriber/src/filter/targets.rs]

    The [Targets] filter: a set of static directives without fields. *)

From S2P Require Import Prelude.
From S2P Require Import Ord.
From S2P Require Import Str.
From S2P Require Import Levels.
From S2P Require Import Fields.
From S2P Require Import Meta.
From S2P Require Import Interests.
From S2P Require Import Directives.
From Stdlib Require Import Ascii.

(** [struct Targets(DirectiveSet<StaticDirective>)] *)
Abbreviation targets_t := (DirectiveSet StaticDirective).

Module Targets.

Definition new : targets_t := DirectiveSet.default.

Definition with_target (target : string) (level : LevelFilter.t) (self : targets_t) : targets_t :=
  DirectiveSet.add (StaticDirective.new (Some target) [] level) self.

(** [Extend], [with_targets] and [FromIterator] *)
Definition extend (iter : list (string * LevelFilter.t)) (self : targets_t) : targets_t :=
  DirectiveSet.extend
    (map (fun '(target, level) => StaticDirective.new (Some target) [] level) iter) self.
Definition with_targets (targets : list (string * LevelFilter.t)) (self : targets_t) : targets_t :=
  extend targets self.
Definition from_iter (iter : list (string * LevelFilter.t)) : targets_t := extend iter new.

Definition with_default (level : LevelFilter.t) (self : targets_t) : targets_t :=
  DirectiveSet.add (StaticDirective.new None [] level) self.

(** [default_level]: [Iterator::find_map]. *)
Definition default_level (self : targets_t) : option LevelFilter.t :=
  head (omap (fun d => match sd_target d with None => Some (sd_level d) | Some _ => None end)
          (directives self)).

(** The items of [Iter] and [IntoIter]. *)
Definition iter (self : targets_t) : list (string * LevelFilter.t) :=
  omap (fun directive => (fun target => (target, sd_level directive)) <$> sd_target directive)
    (directives self).

Definition interested (metadata : Metadata) (self : targets_t) : Interest :=
  if Statics.enabled self metadata then Interest.always else Interest.never.

Definition would_enable (target : string) (level : Level.t) (self : targets_t) : bool :=
  Statics.target_enabled self target level.

(** [impl Layer for Targets] and [impl Filter for Targets] *)
Definition enabled (metadata : Metadata) (self : targets_t) : bool :=
  Statics.enabled self metadata.
Definition register_callsite (metadata : Metadata) (self : targets_t) : Interest :=
  interested metadata self.
Definition max_level_hint (self : targets_t) : option LevelFilter.t := Some (max_level self).

(** [Iterator::collect::<Result<_, _>>]: stops at the first error. *)
Fixpoint collect {A E} (l : list (result A E)) : result (list A) E :=
  match l with
  | [] => Ok []
  | Err e :: _ => Err e
  | Ok a :: l => match collect l with Ok l => Ok (a :: l) | Err e => Err e end
  end.

(** [impl FromStr for Targets] *)
Definition from_str (s : string) : result targets_t ParseError :=
  match collect (map StaticDirective.from_str (split_char "," s)) with
  | Ok ds => Ok (DirectiveSet.from_iter ds)
  | Err e => Err e
  end.

(** [impl Display for Targets] *)
Definition fmt (self : targets_t) : string :=
  match directives self with
  | [] => ""
  | directive :: directives =>
      StaticDirective.fmt directive ++
      fold_right (fun directive s => "," ++ StaticDirective.fmt directive ++ s) "" directives
  end%string.

End Targets.

(** ** The builder *)

Inductive builder_op :=
  | WithTarget (target : string) (level : LevelFilter.t)
  | WithTargets (targets : list (string * LevelFilter.t))
  | WithDefault (level : LevelFilter.t).

Definition build (ops : list builder_op) : targets_t :=
  fold_left (fun self op =>
    match op with
    | WithTarget target level => Targets.with_target target level self
    | WithTargets targets => Targets.with_targets targets self
    | WithDefault level => Targets.with_default level self
    end) ops Targets.new.

(** The specification: a map from targets ([None] is the default) to levels. *)
Abbreviation levels := (gmap (option string) LevelFilter.t).

Definition spec_build (ops : list builder_op) : levels :=
  fold_left (fun (m : levels) op =>
    match op with
    | WithTarget target level => <[Some target := level]> m
    | WithTargets targets =>
        fold_left (fun (m : levels) '(target, level) => <[Some target := level]> m) targets m
    | WithDefault level => <[None := level]> m
    end) ops ∅.

Definition key_matches (k : option string) (target : string) : bool :=
  match k with Some t => starts_with target t | None => true end.

(** The level of the longest matching target allows [level]. *)
Definition spec_enables (m : levels) (target : string) (level : Level.t) : Prop :=
  exists k f, m !! k = Some f /\ key_matches k target = true /\
    (forall k' f', m !! k' = Some f' -> key_matches k' target = true ->
       (target_len k' <= target_len k)%Z) /\
    LevelFilter.ge_level f level = true.

(** The representation invariant. *)
Record represents (self : targets_t) (m : levels) : Prop := {
  rep_sorted : sorted everything (directives self);
  rep_fields d : d ∈ directives self -> sd_field_names d = [];
  rep_map k f : m !! k = Some f <-> StaticDirective.new k [] f ∈ directives self;
  rep_max d : d ∈ directives self ->
    (filter_rank (sd_level d) <= filter_rank (max_level self))%Z;
}.

Lemma represents_new : represents Targets.new ∅.
Proof.
  split; simpl; try (intros *; rewrite elem_of_nil); try done. by repeat constructor.
Qed.

Lemma represents_add self m k f :
  represents self m ->
  represents (DirectiveSet.add (StaticDirective.new k [] f) self) (<[k := f]> m).
Proof.
  intros [Hs Hf Hm Hmax].
  pose proof (add_sorted everything preorder_static (StaticDirective.new k [] f) self Hs
    (everything_I _)) as Hs'.
  pose proof (fun x => elem_of_add everything preorder_static (StaticDirective.new k [] f) self x
    Hs (everything_I _)) as Hin.
  setoid_rewrite cmp_static_eq in Hin. split; [done|..].
  - intros d. rewrite Hin. intros [->|[Hd _]]; [done|auto].
  - intros k' f'. rewrite Hin, lookup_insert_Some, Hm. unfold same_key. simpl.
    split; [intros [[-> ->]|[Hk Hd]]|intros [[= -> ->]|[Hd Hk]]]; auto.
    + right. split; [done|]. intros [? _]. congruence.
    + right. split; [|done]. intros ->. by apply Hk.
  - intros d. rewrite Hin, add_max_level. intros [->|[Hd _]].
    + simpl. lia.
    + specialize (Hmax d Hd). lia.
Qed.

Lemma represents_extend l self m :
  represents self m ->
  represents (Targets.extend l self)
    (fold_left (fun (m : levels) '(target, level) => <[Some target := level]> m) l m).
Proof.
  unfold Targets.extend, DirectiveSet.extend. revert self m.
  induction l as [|[t f] l IH]; intros self m Hr; simpl; [done|].
  by apply IH, represents_add.
Qed.

Lemma represents_build ops : represents (build ops) (spec_build ops).
Proof.
  unfold build, spec_build. generalize represents_new.
  generalize (∅ : levels), Targets.new. induction ops as [|op ops IH]; intros m self Hr; [done|].
  simpl. apply IH. destruct op; [by apply represents_add|by apply represents_extend|].
  by apply represents_add.
Qed.

(** Two matching targets of the same length are the same. *)
Lemma starts_with_length_eq s t u :
  starts_with s t = true -> starts_with s u = true -> str_len t = str_len u -> t = u.
Proof.
  revert t u. induction s as [|a s IH]; intros [|b t] [|c u]; simpl; try done.
  intros [->%Ascii.eqb_eq H1]%andb_true_iff [->%Ascii.eqb_eq H2]%andb_true_iff Hlen.
  f_equal. apply IH; auto.
Qed.

Lemma key_matches_length_eq k k' target :
  key_matches k target = true -> key_matches k' target = true ->
  target_len k = target_len k' -> k = k'.
Proof.
  destruct k as [t|], k' as [t'|]; simpl; try done; try lia.
  intros H1 H2 Hlen. f_equal. apply (starts_with_length_eq target); auto. lia.
Qed.

Section represented.
Context {self : targets_t} {m : levels} (Hr : represents self m).

Lemma rep_elem d : d ∈ directives self <-> m !! sd_target d = Some (sd_level d) /\
  sd_field_names d = [].
Proof.
  destruct Hr as [_ Hf Hm _]. rewrite Hm. destruct d as [t fs l]. simpl. split.
  - intros Hd. pose proof (Hf _ Hd) as E. simpl in E. by subst.
  - intros [Hd ->]. exact Hd.
Qed.

Lemma rep_first p target d :
  (forall e, e ∈ directives self -> p e = key_matches (sd_target e) target) ->
  head (List.filter p (directives self)) = Some d <->
  d ∈ directives self /\ key_matches (sd_target d) target = true /\
  forall k f, m !! k = Some f -> key_matches k target = true ->
    (target_len k <= target_len (sd_target d))%Z.
Proof.
  intros Hp. rewrite (filter_first everything preorder_static) by apply Hr.
  setoid_rewrite cmp_static_lt. split.
  - intros (Hd & Hpd & Hmin). rewrite Hp in Hpd by done. split_and!; [done..|].
    intros k f Hk Hm. apply (rep_map _ _ Hr) in Hk.
    destruct (Hmin _ Hk) as [<-|Hlt]; [by rewrite Hp|simpl; lia|].
    unfold precedes in Hlt. simpl in Hlt. lia.
  - intros (Hd & Hm & Hmax). split_and!; [done|by rewrite Hp|].
    intros e He Hpe. rewrite Hp in Hpe by done.
    apply rep_elem in Hd as [Hd Hdf]. apply rep_elem in He as [He Hef].
    pose proof (Hmax _ _ He Hpe) as Hle. unfold precedes.
    destruct (decide (target_len (sd_target e) = target_len (sd_target d))) as [E|]; [|lia].
    left. apply (key_matches_length_eq _ _ target) in E; [|done..].
    destruct d, e; simpl in *; subst. f_equal. congruence.
Qed.

Lemma rep_enables p target level :
  (forall e, e ∈ directives self -> p e = key_matches (sd_target e) target) ->
  match List.filter p (directives self) with
  | d :: _ => LevelFilter.ge_level (sd_level d) level
  | [] => false
  end = true <-> spec_enables m target level.
Proof.
  intros Hp. rewrite head_enabled. setoid_rewrite (rep_first p target); [|done]. split.
  - intros (d & (Hd & Hm & Hmax) & Hl). apply rep_elem in Hd as [Hd _].
    by exists (sd_target d), (sd_level d).
  - intros (k & f & Hk & Hm & Hmax & Hl). exists (StaticDirective.new k [] f).
    split; [|done]. split_and!; [by apply (rep_map _ _ Hr)|done..].
Qed.

Lemma rep_would_enable target level :
  Targets.would_enable target level self = true <-> spec_enables m target level.
Proof.
  apply rep_enables. intros e [_ Hf]%rep_elem. unfold StaticDirective.cares_about_target.
  rewrite Hf. simpl. by destruct (sd_target e) as [t|]; simpl; [destruct (starts_with _ _)|].
Qed.

Lemma rep_enabled meta :
  Targets.enabled meta self = true <->
  spec_enables m (Metadata.target meta) (Metadata.level meta).
Proof.
  apply rep_enables. intros e [_ Hf]%rep_elem. simpl.
  rewrite Hf. rewrite andb_false_r.
  by destruct (sd_target e) as [t|]; simpl; [destruct (starts_with _ _)|].
Qed.

Lemma rep_default_level : Targets.default_level self = m !! None.
Proof.
  apply option_eq. intros f. unfold Targets.default_level.
  rewrite (rep_map _ _ Hr None f).
  assert (forall d, d ∈ directives self -> sd_target d = None ->
            d = StaticDirective.new None [] (sd_level d)) as Hshape.
  { intros [t fs l] [_ Hf]%rep_elem Ht. simpl in *. by subst. }
  assert (forall d, d ∈ directives self -> m !! sd_target d = Some (sd_level d)) as Hfun.
  { by intros d [? _]%rep_elem. }
  clear Hr. revert Hshape Hfun. generalize (directives self). intros l.
  induction l as [|d l IH]; intros Hshape Hfun; simpl; [by rewrite elem_of_nil|].
  rewrite elem_of_cons. destruct (sd_target d) as [t|] eqn:Ht; simpl.
  - rewrite IH; [|intros; apply Hshape; [by right|done]|intros; apply Hfun; by right].
    split; [auto|]. intros [<-|]; [done|done].
  - pose proof (Hshape d ltac:(by left) Ht) as Hd. split.
    + intros [= <-]. by left.
    + intros [Hf|Hf].
      * rewrite <- Hf. done.
      * pose proof (Hfun _ (list_elem_of_further _ d _ Hf)) as H1.
        pose proof (Hfun d ltac:(by left)) as H2. rewrite Ht in H2. simpl in H1.
        rewrite H1 in H2. by injection H2 as ->.
Qed.

Lemma rep_iter t f : (t, f) ∈ Targets.iter self <-> m !! Some t = Some f.
Proof.
  unfold Targets.iter. rewrite list_elem_of_omap, (rep_map _ _ Hr). split.
  - intros (d & Hd & E). destruct (sd_target d) as [t'|] eqn:Ht; simplify_eq/=.
    pose proof (rep_fields _ _ Hr d Hd) as Hf. destruct d. simpl in *. by subst.
  - intros Hd. by exists (StaticDirective.new (Some t) [] f).
Qed.

(** [Targets] keeps the contract of a filter towards the interest cache. *)
#[local] Instance rep_contract :
  SubscriberContract {| sub_register_callsite := fun meta => Targets.register_callsite meta self;
                        sub_enabled := fun meta => Targets.enabled meta self;
                        sub_max_level_hint := Targets.max_level_hint self |}.
Proof.
  split; simpl.
  - intros meta. unfold Targets.register_callsite, Targets.interested, Targets.enabled.
    by destruct (Statics.enabled _ _).
  - intros meta. unfold Targets.register_callsite, Targets.interested, Targets.enabled.
    by destruct (Statics.enabled _ _).
  - intros meta f [= <-] (k & f' & Hk & _ & _ & Hl)%rep_enabled.
    apply (rep_map _ _ Hr), (rep_max _ _ Hr) in Hk. simpl in Hk.
    rewrite ge_level_rank, Z.leb_le in *. lia.
Qed.

End represented.

(** Whatever sequence of builder calls made a [Targets] filter, it behaves as
    the map from targets to levels that the calls describe (later calls overriding
    earlier ones for the same target): [would_enable] and [enabled] follow the
    longest matching target, [default_level] and the iterators read the map, and
    the interest and the hint it gives may be cached instead of asking [enabled]. *)
Theorem targets_refine (ops : list builder_op) :
  let self := build ops in
  let m := spec_build ops in
  (forall target level,
     Targets.would_enable target level self = true <-> spec_enables m target level) /\
  (forall meta, Targets.enabled meta self = true <->
     spec_enables m (Metadata.target meta) (Metadata.level meta)) /\
  Targets.default_level self = m !! None /\
  (forall t f, (t, f) ∈ Targets.iter self <-> m !! Some t = Some f) /\
  SubscriberContract {| sub_register_callsite := fun meta => Targets.register_callsite meta self;
                        sub_enabled := fun meta => Targets.enabled meta self;
                        sub_max_level_hint := Targets.max_level_hint self |}.
Proof.
  pose proof (represents_build ops) as Hr. split_and!.
  - apply (rep_would_enable Hr).
  - apply (rep_enabled Hr).
  - apply (rep_default_level Hr).
  - apply (rep_iter Hr).
  - apply (rep_contract Hr).
Qed.

(** ** Printing and parsing *)

Local Open Scope string_scope.

Lemma fmt_no_comma d :
  printable d -> sd_field_names d = [] -> no_char "," (StaticDirective.fmt d) = true.
Proof.
  destruct d as [t fs f]; intros [Ht _]; simpl in *; intros ->.
  unfold StaticDirective.fmt. destruct t as [t|]; simpl; rewrite !no_char_app.
  - rewrite (plain_no_char "," t) by (elem_chars || auto).
    rewrite level_fmt_no_char by elem_chars. done.
  - by rewrite level_fmt_no_char by elem_chars.
Qed.

Lemma split_targets_fmt d ds :
  Forall (fun d => no_char "," (StaticDirective.fmt d) = true) (d :: ds) ->
  split_char "," (StaticDirective.fmt d ++
    fold_right (fun directive s => "," ++ StaticDirective.fmt directive ++ s) "" ds) =
  map StaticDirective.fmt (d :: ds).
Proof.
  intros [Hd Hds]%Forall_cons. revert d Hd.
  induction Hds as [|e ds He _ IH]; intros d Hd; simpl.
  - by rewrite append_nil_r, split_char_none.
  - change ("," ++ StaticDirective.fmt e ++ ?s) with (String "," (StaticDirective.fmt e ++ s)).
    rewrite split_char_sep by done. by rewrite (IH e He).
Qed.

Lemma collect_map_ok {A B E} (f : B -> result A E) (g : A -> B) l :
  Forall (fun a => f (g a) = Ok a) l -> Targets.collect (map f (map g l)) = Ok l.
Proof. induction 1 as [|a l Ha _ IH]; simpl; [done|]. by rewrite Ha, IH. Qed.

(** The targets that a sequence of builder calls names. *)
Definition op_targets (op : builder_op) : list string :=
  match op with
  | WithTarget target _ => [target]
  | WithTargets targets => map fst targets
  | WithDefault _ => []
  end.

Lemma from_iter_max_le ds m :
  (forall d : StaticDirective, d ∈ ds -> (filter_rank (sd_level d) <= filter_rank m)%Z) ->
  (filter_rank (max_level (DirectiveSet.from_iter ds)) <= filter_rank m)%Z.
Proof.
  induction ds as [|d ds IH] using rev_ind; intros Hds.
  - pose proof (filter_rank_bounds m). simpl. change (filter_rank LevelFilter.OFF) with 0%Z. lia.
  - rewrite from_iter_snoc, add_max_level.
    apply Z.max_lub; [apply IH; intros; apply Hds; set_solver|].
    apply (Hds d). set_solver.
Qed.

(** Parsing the text that a [Targets] filter with at least one directive prints
    gives a filter with the same directives, which enables the same callsites and
    gives a hint that is at most as verbose. *)
Theorem targets_roundtrip (ops : list builder_op)
    (Hplain : Forall (fun op => Forall (fun t => plain t = true) (op_targets op)) ops)
    (Hne : directives (build ops) <> []) :
  exists self, Targets.from_str (Targets.fmt (build ops)) = Ok self /\
    directives self = directives (build ops) /\
    (forall meta, Targets.enabled meta self = Targets.enabled meta (build ops)) /\
    (filter_rank (max_level self) <= filter_rank (max_level (build ops)))%Z.
Proof.
  pose proof (represents_build ops) as Hr.
  assert (forall t f, spec_build ops !! Some t = Some f -> plain t = true) as Hp.
  { clear Hr Hne. unfold spec_build.
    assert (forall t f, (∅ : levels) !! Some t = Some f -> plain t = true) as H0 by done.
    revert H0. generalize (∅ : levels). induction Hplain as [|op ops Hop _ IH]; intros m H0; [done|].
    simpl. apply IH. clear IH. destruct op as [t f|l|f]; simpl in *.
    - apply Forall_cons in Hop as [Ht _]. intros t' f' [[[= <-] _]|[_ H]]%lookup_insert_Some; eauto.
    - revert m H0. induction l as [|[t f] l IH]; intros m H0; [done|]. simpl in *.
      apply Forall_cons in Hop as [Ht Hop]. apply IH; [done|].
      intros t' f' [[[= <-] _]|[_ H]]%lookup_insert_Some; eauto.
    - intros t' f' [[H _]|[_ H]]%lookup_insert_Some; eauto. done. }
  assert (Forall (fun d => printable d /\ sd_field_names d = []) (directives (build ops))) as Hd.
  { apply Forall_forall. intros d Hd. apply (rep_elem Hr) in Hd as [Hd Hf].
    split; [|done]. split; [|by rewrite Hf]. intros t Ht. rewrite Ht in Hd. by eapply Hp. }
  exists (DirectiveSet.from_iter (directives (build ops))). split_and!.
  - unfold Targets.from_str, Targets.fmt. destruct (directives (build ops)) as [|d ds]; [done|].
    rewrite split_targets_fmt.
    2:{ eapply Forall_impl; [exact Hd|]. intros e [H1 H2]. by apply fmt_no_comma. }
    rewrite collect_map_ok; [done|].
    eapply Forall_impl; [exact Hd|]. intros e [H1 H2]. rewrite reparse by done.
    unfold reparsed. rewrite H2. by destruct (sd_target e).
  - apply (from_iter_sorted everything preorder_static), Hr.
  - intros meta. unfold Targets.enabled, Statics.enabled, DirectiveSet.directives_for.
    by rewrite (from_iter_sorted everything preorder_static) by apply Hr.
  - apply from_iter_max_le, Hr.
Qed.

(** ** Concrete instances *)

Definition example_build : list builder_op :=
  [WithTarget "app" LevelFilter.DEBUG; WithDefault LevelFilter.WARN;
   WithTargets [("app::db", LevelFilter.OFF); ("app", LevelFilter.INFO)]].

Lemma targets_roundtrip_witness :
  exists self, Targets.from_str "app::db=off,app=info,warn" = Ok self /\
    directives self = directives (build example_build).
Proof.
  destruct (targets_roundtrip example_build) as (self & H1 & H2 & _).
  - repeat constructor.
  - discriminate.
  - exists self. split; [exact H1|exact H2].
Defined.
