(* ===== verification/Float.v ===== *)
(** * Float: the standard library's [f64]

    [f64] is the IEEE 754 binary64 format of Stdlib's [SpecFloat] (53 bits of
    precision, exponents below 1024); [FromStr for f64] reads a decimal number and
    rounds it to nearest even, and formatting with a precision rounds the exact value to
    that many decimals. *)

From stdpp Require Import pretty.
From S2P Require Import Prelude.
From S2P Require Import Str.
From S2P Require Import DateTime.
From Stdlib Require Import Ascii SpecFloat.

Local Open Scope Z_scope.

Definition f64_prec : Z := 53.
Definition f64_emax : Z := 1024.

Definition is_nan (v : spec_float) : bool :=
  match v with S754_nan => true | _ => false end.

Definition f64_abs : spec_float -> spec_float := SFabs.
Definition f64_sub : spec_float -> spec_float -> spec_float := SFsub f64_prec f64_emax.
Definition f64_mul : spec_float -> spec_float -> spec_float := SFmul f64_prec f64_emax.
Definition f64_div : spec_float -> spec_float -> spec_float := SFdiv f64_prec f64_emax.
Definition f64_eq : spec_float -> spec_float -> bool := SFeqb.
Definition f64_lt : spec_float -> spec_float -> bool := SFltb.
Definition f64_partial_cmp : spec_float -> spec_float -> option comparison := SFcompare.

(** [f64::EPSILON], 2^-52 *)
Definition f64_EPSILON : spec_float := S754_finite false 4503599627370496 (-104).

(** The leading decimal digits of a string, and the rest. *)
Fixpoint take_digits (s : string) : list Z * string :=
  match s with
  | EmptyString => ([], EmptyString)
  | String a s' =>
      match digit_of a with
      | Some d => let '(ds, rest) := take_digits s' in (d :: ds, rest)
      | None => ([], s)
      end
  end.

Definition digits_value (ds : list Z) : Z := fold_left (fun acc d => acc * 10 + d) ds 0.

(** [m * 10^e], rounded once. *)
Definition decimal (neg : bool) (m e : Z) : spec_float :=
  match m with
  | Zpos p =>
      if 0 <=? e then
        match m * 10 ^ e with
        | Zpos q => binary_round f64_prec f64_emax neg q 0
        | _ => S754_zero neg
        end
      else
        match 10 ^ (- e) with
        | Zpos q =>
            let '(mz, ez, lz) := SFdiv_core_binary f64_prec f64_emax (Zpos p) 0 (Zpos q) 0 in
            binary_round_aux f64_prec f64_emax neg mz ez lz
        | _ => S754_zero neg
        end
  | _ => S754_zero neg
  end.

(** An optional exponent: [e] or [E], an optional sign, at least one digit. *)
Definition parse_exponent (s : string) : option Z :=
  match s with
  | EmptyString => Some 0
  | String a s =>
      if Ascii.eqb (ascii_lower a) "e" then
        let '(neg, s) :=
          match s with
          | String "-" s => (true, s)
          | String "+" s => (false, s)
          | _ => (false, s)
          end in
        match take_digits s with
        | ([], _) => None
        | (ds, EmptyString) => Some (if neg then - digits_value ds else digits_value ds)
        | _ => None
        end
      else None
  end.

Definition parse_unsigned_f64 (neg : bool) (s : string) : option spec_float :=
  if eq_ignore_ascii_case s "inf" || eq_ignore_ascii_case s "infinity" then
    Some (S754_infinity neg)
  else if eq_ignore_ascii_case s "nan" then Some S754_nan
  else
    let '(int_part, s) := take_digits s in
    let '(frac_part, s) :=
      match s with String "." s => take_digits s | _ => ([], s) end in
    match int_part ++ frac_part with
    | [] => None
    | ds =>
        match parse_exponent s with
        | Some e => Some (decimal neg (digits_value ds) (e - Z.of_nat (length frac_part)))
        | None => None
        end
    end.

(** [s.parse::<f64>()] *)
Definition parse_f64 (s : string) : option spec_float :=
  match s with
  | String "-" s => parse_unsigned_f64 true s
  | String "+" s => parse_unsigned_f64 false s
  | _ => parse_unsigned_f64 false s
  end.

Example parse_f64_ex :
  parse_f64 "0.1" = Some (S754_finite false 7205759403792794 (-56)) /\
  parse_f64 "-1.5e2" = Some (S754_finite true 5277655813324800 (-45)) /\
  parse_f64 "1e400" = Some (S754_infinity false) /\
  parse_f64 "NaN" = Some S754_nan /\ parse_f64 "." = None /\ parse_f64 "1e" = None /\
  parse_f64 "4.9e-324" = Some (S754_finite false 1 (-1074)).
Proof. vm_compute. repeat split. Qed.

(** [n as f64] of an unsigned [n] *)
Definition f64_of_u (n : Z) : spec_float :=
  match n with Zpos p => binary_round f64_prec f64_emax false p 0 | _ => S754_zero false end.

(** [{:.p}], rounding half to even. *)
Definition div_half_even (n d : Z) : Z :=
  let q := n / d in
  match Z.compare (2 * (n mod d)) d with
  | Lt => q
  | Gt => q + 1
  | Eq => if Z.even q then q else q + 1
  end.
Definition fixed (p : nat) (v : spec_float) : string :=
  let scale := 10 ^ Z.of_nat p in
  let text (neg : bool) (q : Z) :=
    ((if neg then "-" else "") ++ pretty (q / scale) ++
     match p with O => "" | _ => "." ++ pad p (q mod scale) end)%string in
  match v with
  | S754_nan => "NaN"
  | S754_infinity neg => if neg then "-inf" else "inf"
  | S754_zero neg => text neg 0
  | S754_finite neg m e =>
      text neg (if 0 <=? e then Zpos m * scale * 2 ^ e
                else div_half_even (Zpos m * scale) (2 ^ (- e)))
  end.

Example fixed_ex :
  fixed 2 (f64_div (f64_of_u 1234) (f64_of_u 1000)) = "1.23" /\
  fixed 0 (f64_div (f64_of_u 5) (f64_of_u 2)) = "2" /\
  fixed 1 (f64_of_u 7) = "7.0" /\ fixed 2 (f64_div (f64_of_u 1) (f64_of_u 20)) = "0.05".
Proof. vm_compute. repeat split. Qed.

(** The comparison of the values that are not NaN. *)
Lemma f64_partial_cmp_total a b :
  is_nan a = false -> is_nan b = false -> is_Some (f64_partial_cmp a b).
Proof.
  unfold f64_partial_cmp. intros Ha Hb.
  destruct a as [| | |[]], b as [| | |[]]; try done; simpl; eauto;
    repeat case_match; eauto.
Qed.

(** [partial_cmp] on values that are not NaN compares keys: the sign class, then the
    signed exponent, then the signed mantissa. *)
Definition f64_key (v : spec_float) : Z * Z * Z :=
  match v with
  | S754_infinity true => (-2, 0, 0)
  | S754_finite true m e => (-1, - e, - Zpos m)
  | S754_zero _ | S754_nan => (0, 0, 0)
  | S754_finite false m e => (1, e, Zpos m)
  | S754_infinity false => (2, 0, 0)
  end.

Definition key_cmp (a b : Z * Z * Z) : comparison :=
  match Z.compare a.1.1 b.1.1 with
  | Eq => match Z.compare a.1.2 b.1.2 with Eq => Z.compare a.2 b.2 | c => c end
  | c => c
  end.

Lemma f64_partial_cmp_key a b :
  is_nan a = false -> is_nan b = false ->
  f64_partial_cmp a b = Some (key_cmp (f64_key a) (f64_key b)).
Proof.
  unfold f64_partial_cmp, key_cmp. intros Ha Hb.
  destruct a as [[]|[]| |[] m e], b as [[]|[]| |[] n f]; try done; simpl; f_equal.
  rewrite Z.compare_opp. destruct (Z.compare_spec e f) as [->|H|H].
  - by rewrite Z.compare_refl.
  - by rewrite (proj2 (Z.compare_gt_iff f e)) by lia.
  - by rewrite (proj2 (Z.compare_lt_iff f e)) by lia.
Qed.
