(* ===== verification/EnvField.v ===== *)
(** * EnvField: [tracing-subscriber/src/filter/env/field.rs]

    The field matchers of [EnvFilter]: the value patterns, their order and parser,
    and the visitor that matches the values of a span against them. *)

From S2P Require Import Prelude.
From S2P Require Import Ord.
From S2P Require Import Str.
From S2P Require Import Float.
From S2P Require Import Levels.
From S2P Require Import Fields.
From S2P Require Import Meta.
From Stdlib Require Import Ascii SpecFloat.

(** Code outside of the repository: the compiled patterns of the [matchers] crate,
    the text that a value's [fmt::Debug] writes (string by string), and the Unicode
    tables behind [char::is_alphanumeric]. *)
Class Externals := {
  Pattern : Type;
  BuildError : Type;
  pattern_from_str : string -> result Pattern BuildError;
  pattern_matches : Pattern -> string -> bool;
  pattern_debug_matches : Pattern -> list string -> bool;
  build_error_fmt : BuildError -> string;
  debug_chunks : DebugValue -> list string;
  unicode_alphanumeric : Z -> bool;
}.

(** [FieldMap<T>]: a [HashMap] on fields, whose equality and hash are those of
    their keys. *)
Abbreviation FieldMap := (gmap (Identifier * Z)).

Section field.
Context {ext : Externals}.

(** [struct MatchPattern], [struct MatchDebug] *)
Record MatchPattern := { matcher : Pattern; mp_pattern : string }.
Record MatchDebug := { md_pattern : string }.

(** [enum ValueMatch] *)
Inductive ValueMatch :=
  | MBool (v : bool)
  | MF64 (v : f64)
  | MU64 (v : Z)
  | MI64 (v : Z)
  | MNaN
  | MDebug (d : MatchDebug)
  | MPat (p : MatchPattern).

(** [struct Match] *)
Record Match_ := { match_name : string; match_value : option ValueMatch }.

Definition field_get {T} (field : Field) (m : FieldMap T) : option T :=
  m !! Field.hash_key field.

(** [struct CallsiteMatch], [struct SpanMatch] *)
Record CallsiteMatch := {
  cm_fields : FieldMap ValueMatch;
  cm_level : LevelFilter.t;
}.
Record SpanMatch := {
  sm_fields : FieldMap (ValueMatch * bool);
  sm_level : LevelFilter.t;
  has_matched : bool;
}.

(** ** Comparisons *)

(** [impl PartialEq for MatchPattern] and [for MatchDebug], [impl Ord] for both *)
Definition match_pattern_eq (self other : MatchPattern) : bool :=
  String.eqb (mp_pattern self) (mp_pattern other).
Definition match_debug_eq (self other : MatchDebug) : bool :=
  String.eqb (md_pattern self) (md_pattern other).
Definition match_pattern_cmp (self other : MatchPattern) : comparison :=
  cmp (mp_pattern self) (mp_pattern other).
Definition match_debug_cmp (self other : MatchDebug) : comparison :=
  cmp (md_pattern self) (md_pattern other).

(** [impl PartialEq for ValueMatch]: there is no arm for two [Debug] patterns. *)
Definition value_match_eq (self other : ValueMatch) : bool :=
  match self, other with
  | MBool a, MBool b => Bool.eqb a b
  | MF64 a, MF64 b => f64_eq a b
  | MU64 a, MU64 b => Z.eqb a b
  | MI64 a, MI64 b => Z.eqb a b
  | MNaN, MNaN => true
  | MPat a, MPat b => match_pattern_eq a b
  | _, _ => false
  end.

(** [impl Ord for ValueMatch]; the [expect] on two floats fails on a NaN only, which
    the parser never puts in [MF64]. *)
Definition value_match_cmp (self other : ValueMatch) : comparison :=
  match self, other with
  | MBool this, MBool that => cmp this that
  | MBool _, _ => Lt
  | MF64 this, MF64 that =>
      match f64_partial_cmp this that with Some c => c | None => Eq end
  | MF64 _, MBool _ => Gt
  | MF64 _, _ => Lt
  | MNaN, MNaN => Eq
  | MNaN, (MBool _ | MF64 _) => Gt
  | MNaN, _ => Lt
  | MU64 this, MU64 that => cmp this that
  | MU64 _, (MBool _ | MF64 _ | MNaN) => Gt
  | MU64 _, _ => Lt
  | MI64 this, MI64 that => cmp this that
  | MI64 _, (MBool _ | MF64 _ | MNaN | MU64 _) => Gt
  | MI64 _, _ => Lt
  | MPat this, MPat that => match_pattern_cmp this that
  | MPat _, _ => Gt
  | MDebug this, MDebug that => match_debug_cmp this that
  | MDebug _, _ => Gt
  end.
#[global] Instance ord_value_match : RustOrd ValueMatch := value_match_cmp.

(** [impl Ord for Match] *)
Definition match_cmp (self other : Match_) : comparison :=
  let has_value :=
    match match_value self, match_value other with
    | Some _, None => Gt
    | None, Some _ => Lt
    | _, _ => Eq
    end in
  then_with (then_with has_value (cmp (match_name self) (match_name other)))
    (cmp (match_value self) (match_value other)).
#[global] Instance ord_match : RustOrd Match_ := match_cmp.

(** The derived [PartialEq for Match]. *)
Definition match_eq (self other : Match_) : bool :=
  String.eqb (match_name self) (match_name other) &&
  match match_value self, match_value other with
  | Some a, Some b => value_match_eq a b
  | None, None => true
  | _, _ => false
  end.

(** ** Parsing *)

Definition value_match_f64 (v : f64) : ValueMatch := if is_nan v then MNaN else MF64 v.

(** [impl FromStr for MatchPattern] *)
Definition match_pattern_from_str (s : string) : result MatchPattern BuildError :=
  match pattern_from_str s with
  | Ok matcher => Ok {| matcher := matcher; mp_pattern := s |}
  | Err e => Err e
  end.

(** What [parse_regex] and [parse_non_regex] try first. *)
Definition parse_literal (s : string) : option ValueMatch :=
  match parse_bool s with
  | Some b => Some (MBool b)
  | None =>
      match parse_u64 s with
      | Some n => Some (MU64 n)
      | None =>
          match parse_i64 s with
          | Some n => Some (MI64 n)
          | None => value_match_f64 <$> parse_f64 s
          end
      end
  end.

Definition parse_regex (s : string) : result ValueMatch BuildError :=
  match parse_literal s with
  | Some v => Ok v
  | None =>
      match match_pattern_from_str s with Ok p => Ok (MPat p) | Err e => Err e end
  end.

Definition parse_non_regex (s : string) : ValueMatch :=
  match parse_literal s with
  | Some v => v
  | None => MDebug {| md_pattern := s |}
  end.

(** [Match::parse]; the text after a second [=] is dropped. *)
Definition match_parse (s : string) (regex : bool) : result Match_ BuildError :=
  match split_char "=" s with
  | name :: part :: _ =>
      if regex then
        match parse_regex part with
        | Ok value => Ok {| match_name := name; match_value := Some value |}
        | Err e => Err e
        end
      else Ok {| match_name := name; match_value := Some (parse_non_regex part) |}
  | [name] => Ok {| match_name := name; match_value := None |}
  | [] => Ok {| match_name := EmptyString; match_value := None |}
  end.

Definition has_value (self : Match_) : bool := bool_decide (is_Some (match_value self)).

(** [MatchPattern::into_debug_match] *)
Definition into_debug_match (self : MatchPattern) : MatchDebug :=
  {| md_pattern := mp_pattern self |}.

(** ** Matching *)

(** [MatchDebug::debug_matches]: [write_str] of its [Matcher], which keeps the part
    of the pattern that is still expected, for each string that is written. *)
Definition write_str (pattern s : string) : option string :=
  if (str_len pattern <? str_len s)%nat then None
  else if starts_with pattern s then Some (str_drop (str_len s) pattern)
  else None.
Fixpoint write_chunks (pattern : string) (chunks : list string) : option string :=
  match chunks with
  | [] => Some pattern
  | s :: chunks =>
      match write_str pattern s with
      | Some pattern => write_chunks pattern chunks
      | None => None
      end
  end.
Definition debug_matches (self : MatchDebug) (d : DebugValue) : bool :=
  bool_decide (is_Some (write_chunks (md_pattern self) (debug_chunks d))).

(** [MatchPattern::str_matches] and [MatchPattern::debug_matches] *)
Definition pat_str_matches (self : MatchPattern) (s : string) : bool :=
  pattern_matches (matcher self) s.
Definition pat_debug_matches (self : MatchPattern) (d : DebugValue) : bool :=
  pattern_debug_matches (matcher self) (debug_chunks d).

(** [CallsiteMatch::to_span_match] *)
Definition to_span_match (self : CallsiteMatch) : SpanMatch :=
  {| sm_fields := (fun v => (v, false)) <$> cm_fields self;
     sm_level := cm_level self;
     has_matched := false |}.

(** Whether a pattern accepts a value, for each method of [MatchVisitor]. *)
Definition f64_accepts (value : f64) (m : ValueMatch) : bool :=
  match m with
  | MNaN => is_nan value
  | MF64 e => f64_lt (f64_abs (f64_sub value e)) f64_EPSILON
  | _ => false
  end.
Definition i64_accepts (value : Z) (m : ValueMatch) : bool :=
  match m with
  | MI64 e => (value =? e)%Z
  | MU64 e => if (e <=? 9223372036854775807)%Z then (value =? e)%Z else false
  | _ => false
  end.
Definition u64_accepts (value : Z) (m : ValueMatch) : bool :=
  match m with MU64 e => (value =? e)%Z | _ => false end.
Definition bool_accepts (value : bool) (m : ValueMatch) : bool :=
  match m with MBool e => Bool.eqb value e | _ => false end.
Definition str_accepts (value : string) (m : ValueMatch) : bool :=
  match m with
  | MPat e => pat_str_matches e value
  | MDebug e => debug_matches e (DebugStr value)
  | _ => false
  end.
Definition debug_accepts (value : DebugValue) (m : ValueMatch) : bool :=
  match m with
  | MPat e => pat_debug_matches e value
  | MDebug e => debug_matches e value
  | _ => false
  end.

(** [matched.store(true)] where the guard of the arm holds. *)
Definition mark (accepts : ValueMatch -> bool) (field : Field) (self : SpanMatch) : SpanMatch :=
  match field_get field (sm_fields self) with
  | Some (m, _) =>
      if accepts m then
        {| sm_fields := <[Field.hash_key field := (m, true)]> (sm_fields self);
           sm_level := sm_level self; has_matched := has_matched self |}
      else self
  | None => self
  end.

(** [impl Visit for MatchVisitor]; the methods it does not define forward to
    [record_debug]. *)
Definition match_visitor : Visit SpanMatch :=
  let debug f d := mark (debug_accepts d) f in
  {| record_f64 := fun f v => mark (f64_accepts v) f;
     record_i64 := fun f v => mark (i64_accepts v) f;
     record_u64 := fun f v => mark (u64_accepts v) f;
     record_i128 := record_i128 (default_visit debug);
     record_u128 := record_u128 (default_visit debug);
     record_bool := fun f v => mark (bool_accepts v) f;
     record_str := fun f v => mark (str_accepts v) f;
     record_bytes := record_bytes (default_visit debug);
     record_error := record_error (default_visit debug);
     record_debug := debug |}.

(** [SpanMatch::is_matched] and [is_matched_slow]: they may set [has_matched]. *)
Definition is_matched_slow (self : SpanMatch) : bool * SpanMatch :=
  let matched := bool_decide (map_Forall (fun _ '(_, matched) => matched = true) (sm_fields self)) in
  (matched,
   {| sm_fields := sm_fields self; sm_level := sm_level self;
      has_matched := if matched then true else has_matched self |}).
Definition is_matched (self : SpanMatch) : bool * SpanMatch :=
  if has_matched self then (true, self) else is_matched_slow self.

(** [SpanMatch::filter] *)
Definition filter_level (self : SpanMatch) : option LevelFilter.t * SpanMatch :=
  let '(m, self') := is_matched self in
  (if m then Some (sm_level self) else None, self').

(** ** Debug patterns *)

Definition concat_strings (l : list string) : string :=
  fold_right (fun s acc => s +:+ acc) EmptyString l.

Lemma starts_with_split p s : starts_with p s = true -> p = s +:+ str_drop (str_len s) p.
Proof.
  revert s. induction p as [|a p IH]; intros [|b s]; simpl; try done.
  intros [->%Ascii.eqb_eq H]%andb_true_iff. exact (f_equal (String b) (IH s H)).
Qed.

Lemma write_str_spec p s r : write_str p s = Some r <-> p = s +:+ r.
Proof.
  unfold write_str. split.
  - destruct (_ <? _)%nat; [done|]. destruct (starts_with p s) eqn:E; [|done].
    intros [= <-]. by apply starts_with_split.
  - intros ->. rewrite str_len_app, (proj2 (Nat.ltb_ge _ _)) by lia.
    by rewrite starts_with_app, str_drop_app.
Qed.

Lemma write_chunks_spec p l r : write_chunks p l = Some r <-> p = concat_strings l +:+ r.
Proof.
  revert p. induction l as [|s l IH]; intros p; simpl.
  - split; [by intros [= ->]|by intros ->].
  - rewrite append_assoc. destruct (write_str p s) as [q|] eqn:E.
    + apply write_str_spec in E as ->. rewrite IH. split; [by intros ->|].
      intros H. by apply append_inj_l in H.
    + split; [done|]. intros H. apply write_str_spec in H. congruence.
Qed.

(** A [Debug] pattern matches a value exactly when what the value's [fmt::Debug]
    writes is a prefix of the pattern, whatever pieces it is written in: a value
    that prints only the beginning of the pattern matches, although the code's
    comment describes a test for equality. *)
Theorem debug_pattern_is_prefix_test (pattern : string) (d : DebugValue) :
  debug_matches {| md_pattern := pattern |} d = true <->
  exists rest, pattern = concat_strings (debug_chunks d) +:+ rest.
Proof.
  unfold debug_matches. rewrite bool_decide_eq_true. simpl. unfold is_Some.
  by setoid_rewrite write_chunks_spec.
Qed.

(** ** Matching the values of a span *)

(** Whether a pattern accepts a recorded value. *)
Fixpoint value_accepts (v : Value) (m : ValueMatch) : bool :=
  match v with
  | VF64 v => f64_accepts v m
  | VI64 v => i64_accepts v m
  | VU64 v => u64_accepts v m
  | VI128 v | VU128 v => debug_accepts (DebugInt v) m
  | VBool v => bool_accepts v m
  | VStr v => str_accepts v m
  | VBytes v => debug_accepts (HexBytes v) m
  | VError v => debug_accepts (DisplayValue (error_display v)) m
  | VDebug v => debug_accepts v m
  | VEmpty | VNone => false
  | VSome v => value_accepts v m
  end.

Lemma mark_false field s : mark (fun _ => false) field s = s.
Proof. unfold mark. by destruct (field_get field (sm_fields s)) as [[]|]. Qed.

Lemma value_record_mark v field s :
  value_record v field match_visitor s = mark (value_accepts v) field s.
Proof. induction v; simpl; try done; by rewrite mark_false. Qed.

(** What happens to a span's matcher: values are recorded, and it is asked whether
    it matches. *)
Inductive match_op := MRecord (values : ValueSet) | MQuery.

Definition match_step (s : SpanMatch) (op : match_op) : SpanMatch :=
  match op with
  | MRecord vs => ValueSet.record vs match_visitor s
  | MQuery => (is_matched s).2
  end.
Definition op_entries (op : match_op) : list (Field * Value) :=
  match op with MRecord vs => recorded vs | MQuery => [] end.

(** Some entry for the field is accepted. *)
Definition hit (entries : list (Field * Value)) (k : Identifier * Z) (m : ValueMatch) : bool :=
  existsb (fun '(f, v) => bool_decide (Field.hash_key f = k) && value_accepts v m) entries.

Record matches_entries (c : CallsiteMatch) (entries : list (Field * Value)) (s : SpanMatch) :
    Prop := {
  me_level : sm_level s = cm_level c;
  me_fields k : sm_fields s !! k = (fun m => (m, hit entries k m)) <$> cm_fields c !! k;
  me_matched : has_matched s = true ->
    map_Forall (fun _ '(_, matched) => matched = true) (sm_fields s);
}.

Lemma hit_snoc entries f v k m :
  hit (entries ++ [(f, v)]) k m =
  hit entries k m || bool_decide (Field.hash_key f = k) && value_accepts v m.
Proof. unfold hit. rewrite existsb_app. simpl. by rewrite orb_false_r. Qed.

Lemma mark_entries c entries s f v :
  matches_entries c entries s ->
  matches_entries c (entries ++ [(f, v)]) (mark (value_accepts v) f s).
Proof.
  intros [Hl Hf Hm].
  assert (forall k, sm_fields (mark (value_accepts v) f s) !! k =
            (fun m => (m, hit (entries ++ [(f, v)]) k m)) <$> cm_fields c !! k) as Hf'.
  { intros k. unfold mark, field_get. rewrite Hf.
    destruct (decide (Field.hash_key f = k)) as [<-|Hk].
    - destruct (cm_fields c !! Field.hash_key f) as [m|] eqn:E; simpl; [|by rewrite Hf, E].
      rewrite hit_snoc, bool_decide_true by done.
      destruct (value_accepts v m) eqn:Ha; simpl.
      + by rewrite lookup_insert_eq, orb_true_r.
      + by rewrite Hf, E, orb_false_r.
    - assert (sm_fields s !! k =
              (fun m => (m, hit (entries ++ [(f, v)]) k m)) <$> cm_fields c !! k) as Hk'.
      { rewrite Hf. destruct (cm_fields c !! k) as [m|]; [|done]. simpl.
        by rewrite hit_snoc, bool_decide_false, orb_false_r. }
      destruct (cm_fields c !! Field.hash_key f) as [m|]; simpl; [|done].
      destruct (value_accepts v m); simpl; [|done]. by rewrite lookup_insert_ne. }
  split; [|done|].
  - unfold mark. repeat case_match; done.
  - intros Hh. assert (has_matched s = true) as H by (unfold mark in Hh; repeat case_match; done).
    apply map_Forall_lookup. intros k [m b] Hk. rewrite Hf' in Hk.
    apply fmap_Some in Hk as (m' & Hm' & [= -> ->]). rewrite hit_snoc.
    specialize (Hm H k (m', hit entries k m')). simpl in Hm.
    rewrite Hm; [done|]. by rewrite Hf, Hm'.
Qed.

Lemma record_entries c entries s l :
  matches_entries c entries s ->
  matches_entries c (entries ++ l)
    (fold_left (fun st '(f, v) => value_record v f match_visitor st) l s).
Proof.
  revert entries s. induction l as [|[f v] l IH]; intros entries s Hs; simpl.
  { by rewrite app_nil_r. }
  rewrite value_record_mark. replace (entries ++ (f, v) :: l)
    with ((entries ++ [(f, v)]) ++ l) by by rewrite <- app_assoc.
  by apply IH, mark_entries.
Qed.

Lemma is_matched_spec c entries s :
  matches_entries c entries s ->
  ((is_matched s).1 = true <-> forall k m, cm_fields c !! k = Some m -> hit entries k m = true) /\
  matches_entries c entries (is_matched s).2.
Proof.
  intros [Hl Hf Hm].
  assert (map_Forall (fun _ '(_, matched) => matched = true) (sm_fields s) <->
          forall k m, cm_fields c !! k = Some m -> hit entries k m = true) as Hall.
  { rewrite map_Forall_lookup. split.
    - intros H k m Hk. specialize (H k (m, hit entries k m)). simpl in H. apply H.
      by rewrite Hf, Hk.
    - intros H k [m b] Hk. rewrite Hf in Hk. apply fmap_Some in Hk as (m' & Hm' & [= -> ->]).
      by apply H. }
  unfold is_matched. destruct (has_matched s) eqn:E.
  - split; [|split; simpl; [done|done|intros _; by apply Hm]]. split; [|done]. intros _. by apply Hall, Hm.
  - unfold is_matched_slow. simpl. rewrite bool_decide_eq_true. split; [done|].
    split; simpl; [done..|]. case_bool_decide; [done|congruence].
Qed.

(** After any sequence of recordings and queries, a span's matcher matches
    exactly when each of its fields has been given, at some point, a value that the
    field's pattern accepts; caching the answer does not change it. *)
Theorem span_match_spec (c : CallsiteMatch) (ops : list match_op) :
  let s := fold_left match_step ops (to_span_match c) in
  ((is_matched s).1 = true <->
     forall k m, cm_fields c !! k = Some m ->
       exists f v, (f, v) ∈ concat (map op_entries ops) /\ Field.hash_key f = k /\
         value_accepts v m = true) /\
  (filter_level s).1 = (if (is_matched s).1 then Some (cm_level c) else None).
Proof.
  assert (matches_entries c (concat (map op_entries ops))
            (fold_left match_step ops (to_span_match c))) as Hs.
  { assert (matches_entries c [] (to_span_match c)) as H0.
    { split; [done| |done]. intros k. simpl. by rewrite lookup_fmap. }
    revert H0. change (concat (map op_entries ops)) with ([] ++ concat (map op_entries ops)).
    generalize (@nil (Field * Value)), (to_span_match c).
    induction ops as [|op ops IH]; intros entries s Hs; simpl; [by rewrite app_nil_r|].
    rewrite app_assoc. apply IH. destruct op as [vs|]; simpl.
    - rewrite record_recorded. by apply record_entries.
    - rewrite app_nil_r. by apply is_matched_spec. }
  set (s := fold_left match_step ops (to_span_match c)) in *. simpl.
  destruct (is_matched_spec _ _ _ Hs) as [Hm _]. split.
  - rewrite Hm. split; intros H k m Hk; specialize (H k m Hk).
    + unfold hit in H. apply existsb_exists in H as ([f v] & Hin & H). bool_to_prop.
      exists f, v. by rewrite list_elem_of_In.
    + destruct H as (f & v & Hin & Hf & Ha). apply existsb_exists. exists (f, v).
      rewrite <- list_elem_of_In. by rewrite bool_decide_true, Ha.
  - unfold filter_level. pose proof (me_level _ _ _ Hs) as Hl.
    destruct (is_matched s) as [b s']. simpl. by rewrite Hl.
Qed.

(** ** The order of value patterns *)

(** The patterns that a filter with or without regular expressions holds. *)
Definition regular (regex : bool) (m : ValueMatch) : Prop :=
  match m with
  | MF64 v => is_nan v = false
  | MDebug _ => regex = false
  | MPat _ => regex = true
  | _ => True
  end.

Definition match_rank (m : ValueMatch) : Z :=
  match m with
  | MBool _ => 0 | MF64 _ => 1 | MNaN => 2 | MU64 _ => 3 | MI64 _ => 4
  | MDebug _ | MPat _ => 5
  end.
Definition match_bool (m : ValueMatch) : bool := match m with MBool b => b | _ => false end.
Definition match_float (m : ValueMatch) : Z * Z * Z :=
  match m with MF64 v => f64_key v | _ => (0, 0, 0)%Z end.
Definition match_int (m : ValueMatch) : Z := match m with MU64 n | MI64 n => n | _ => 0%Z end.
Definition match_text (m : ValueMatch) : string :=
  match m with MDebug d => md_pattern d | MPat p => mp_pattern p | _ => EmptyString end.

Lemma key_cmp_then a b :
  key_cmp a b = then_with (then_with (cmp a.1.1 b.1.1) (cmp a.1.2 b.1.2)) (cmp a.2 b.2).
Proof.
  unfold key_cmp, cmp, ord_Z. by destruct (Z.compare a.1.1 b.1.1), (Z.compare a.1.2 b.1.2).
Qed.

Lemma value_match_cmp_keys regex x y :
  regular regex x -> regular regex y ->
  value_match_cmp x y =
  then_with (cmp (match_rank x) (match_rank y))
    (then_with (cmp (match_bool x) (match_bool y))
      (then_with (then_with (then_with (cmp (match_float x).1.1 (match_float y).1.1)
                              (cmp (match_float x).1.2 (match_float y).1.2))
                   (cmp (match_float x).2 (match_float y).2))
        (then_with (cmp (match_int x) (match_int y)) (cmp (match_text x) (match_text y))))).
Proof.
  destruct x, y; simpl; intros Hx Hy; try done; try congruence.
  - by destruct v, v0.
  - rewrite f64_partial_cmp_key, key_cmp_then by done.
    match goal with |- ?a = _ => generalize a end. by intros [].
  - match goal with |- ?a = _ => generalize a end. by intros [].
  - match goal with |- ?a = _ => generalize a end. by intros [].
Qed.

Lemma preorder_value_match regex : preorder_on (regular regex) (cmp (A:=ValueMatch)).
Proof.
  eapply preorder_on_ext; [|intros x y Hx Hy; by apply (value_match_cmp_keys regex)].
  apply preorder_on_weaken with (Q := everything); [|auto with tracing].
  repeat apply preorder_on_then.
  - apply (preorder_by match_rank everything); auto with tracing.
  - apply (preorder_by match_bool everything); auto with tracing.
  - apply (preorder_by (fun m => (match_float m).1.1) everything); auto with tracing.
  - apply (preorder_by (fun m => (match_float m).1.2) everything); auto with tracing.
  - apply (preorder_by (fun m => (match_float m).2) everything); auto with tracing.
  - apply (preorder_by match_int everything); auto with tracing.
  - apply (preorder_by match_text everything); auto with tracing.
Qed.

Lemma value_match_cmp_eq regex x y :
  regular regex x -> regular regex y -> value_match_cmp x y = Eq ->
  value_match_eq x y = match x with MDebug _ => false | _ => true end.
Proof.
  destruct x, y; simpl; intros Hx Hy; try done; intros H; try congruence.
  - by destruct v, v0.
  - unfold f64_eq, SFeqb. change (SFcompare v v0) with (f64_partial_cmp v v0).
    rewrite f64_partial_cmp_key in * by done. by rewrite H.
  - by apply Z.eqb_eq, Z.compare_eq.
  - by apply Z.eqb_eq, Z.compare_eq.
  - unfold match_pattern_eq. by apply String.eqb_eq, String.compare_eq_iff.
Qed.

(** On the patterns that one filter can hold (regular expressions, or literal
    [Debug] texts, and no float that is NaN) the comparison of value patterns is a
    total preorder; patterns that compare [Equal] are equal, except that two equal
    [Debug] texts are not ([PartialEq] has no case for them); and across the two
    kinds the comparison is not antisymmetric. *)
Theorem value_match_order :
  (forall regex, preorder_on (regular regex) (cmp (A:=ValueMatch))) /\
  (forall regex x y, regular regex x -> regular regex y -> cmp x y = Eq ->
     value_match_eq x y = match x with MDebug _ => false | _ => true end) /\
  (forall p d, cmp (MPat p) (MDebug d) = Gt /\ cmp (MDebug d) (MPat p) = Gt).
Proof.
  split_and!; [apply preorder_value_match|apply value_match_cmp_eq|done].
Qed.

End field.

(** ** A concrete instance: exact texts as patterns *)

Local Open Scope string_scope.

Definition example_externals : Externals := {|
  Pattern := string;
  BuildError := unit;
  pattern_from_str := fun s => if String.eqb s "(" then Err tt else Ok s;
  pattern_matches := String.eqb;
  pattern_debug_matches := fun p chunks => String.eqb p (concat_strings chunks);
  build_error_fmt := fun _ => "unclosed group";
  debug_chunks := fun d =>
    match d with
    | DebugStr s => [s]
    | DebugBool true => ["true"]
    | DebugChunks l | DisplayValue l => l
    | _ => []
    end;
  unicode_alphanumeric := fun _ => true;
|}.
