(* ===== verification/EnvDirective.v ===== *)
(** * EnvDirective: [tracing-subscriber/src/filter/env/directive.rs]

    The directives of [EnvFilter]: their order, their parser (a state machine on the
    characters of the text, with slices that may panic), the tables they are split
    into, and the matchers they give to callsites and spans. *)

From S2P Require Import Prelude.
From S2P Require Import Ord.
From S2P Require Import Str.
From S2P Require Import Levels.
From S2P Require Import Fields.
From S2P Require Import Meta.
From S2P Require Import Directives.
From S2P Require Import EnvField.
From Stdlib Require Import Ascii.

Section directive.
Context {ext : Externals}.

(** [struct Directive] *)
Record Directive := {
  in_span : option string;
  fields : list Match_;
  target : option string;
  level : LevelFilter.t;
}.

(** [struct MatchSet<T>], [CallsiteMatcher], [SpanMatcher] *)
Record MatchSet (T : Type) := { field_matches : list T; base_level : LevelFilter.t }.
#[global] Arguments field_matches {T}.
#[global] Arguments base_level {T}.
Definition CallsiteMatcher := MatchSet CallsiteMatch.
Definition SpanMatcher := MatchSet SpanMatch.

Definition has_name (self : Directive) : bool := bool_decide (is_Some (in_span self)).
Definition has_fields (self : Directive) : bool := negb (bool_decide (length (fields self) = 0)).

Definition is_static (self : Directive) : bool :=
  negb (has_name self) && negb (existsb has_value (fields self)).
Definition to_static (self : Directive) : option StaticDirective :=
  if negb (is_static self) then None
  else Some (StaticDirective.new (target self) (map match_name (fields self)) (level self)).
Definition is_dynamic (self : Directive) : bool := has_name self || has_fields self.

(** [Directive::field_matcher]: a field without a value only has to exist; the
    values are collected in a map, the last one of a field winning. *)
Fixpoint collect_fields (fieldset : FieldSet) (l : list Match_) (acc : FieldMap ValueMatch) :
    option (FieldMap ValueMatch) :=
  match l with
  | [] => Some acc
  | m :: l =>
      match FieldSet.field fieldset (match_name m) with
      | None => None
      | Some field =>
          collect_fields fieldset l
            (match match_value m with
             | Some value => <[Field.hash_key field := value]> acc
             | None => acc
             end)
      end
  end.
Definition field_matcher (self : Directive) (meta : Metadata) : option CallsiteMatch :=
  (fun fields => {| cm_fields := fields; cm_level := level self |})
  <$> collect_fields (Metadata.fields meta) (fields self) ∅.

(** [Directive::deregexify] *)
Definition deregexify (self : Directive) : Directive :=
  {| in_span := in_span self; target := target self; level := level self;
     fields := map (fun f =>
       {| match_name := match_name f;
          match_value :=
            match match_value f with
            | Some (MPat pat) => Some (MDebug (into_debug_match pat))
            | x => x
            end |}) (fields self) |}.

(** ** The order *)

(** [impl Ord for Directive] *)
#[global] Instance cmp_directive : RustOrd Directive := fun self other =>
  reverse
    (then_with
       (then_with
          (then_with
             (cmp (str_len <$> target self) (str_len <$> target other))
             (cmp (has_name self) (has_name other)))
          (cmp (length (fields self)) (length (fields other))))
       (then_with
          (then_with
             (cmp (target self) (target other))
             (cmp (in_span self) (in_span other)))
          (cmp (fields self) (fields other)))).

(** The assertions of [Ord::cmp] in a debug build. *)
Definition cmp_debug_assertions (self other : Directive) : outcome comparison :=
  let ordering := cmp_directive self other in
  if is_eq ordering then
    _ ← assert (bool_decide (target self = target other));
    _ ← assert (bool_decide (in_span self = in_span other));
    _ ← assert ((length (fields self) =? length (fields other))%nat &&
                forallb (fun '(a, b) => match_eq a b) (combine (fields self) (fields other)));
    mret ordering
  else mret ordering.

(** [impl Match for Directive] *)
#[global] Instance match_directive : Match Directive := {
  cares_about self meta :=
    let target_matches :=
      match target self with
      | Some target => starts_with (Metadata.target meta) target
      | None => true
      end in
    let name_matches :=
      match in_span self with
      | Some name => String.eqb name (Metadata.name meta)
      | None => true
      end in
    if negb target_matches then false
    else if negb name_matches then false
    else
      forallb (fun expected_field =>
        bool_decide (is_Some (FieldSet.field (Metadata.fields meta) (match_name expected_field))))
        (fields self);
  match_level self := level self;
}.

Definition default_directive : Directive :=
  {| level := LevelFilter.OFF; target := None; in_span := None; fields := [] |}.

(** [impl From<LevelFilter> for Directive] and [From<Level>] *)
Definition from_level_filter (l : LevelFilter.t) : Directive :=
  {| level := l; target := None; in_span := None; fields := [] |}.
Definition from_level (l : Level.t) : Directive := from_level_filter (LevelFilter.from_level l).

(** ** [Directive::parse] *)

Inductive ParseState :=
  | Start
  | LevelOrTarget (start : nat)
  | Span (span_start : nat)
  | PField (field_start : nat)
  | Fields
  | Target
  | PLevel (level_start : nat)
  | Complete.

(** Rust's [?] on a result inside of a computation that may panic. *)
#[local] Abbreviation parsed A := (outcome (result A ParseError)).
Definition ok {A} (a : A) : parsed A := Done (Ok a).
Definition err {A} (e : ParseError) : parsed A := Done (Err e).
Definition try_ {A B} (m : parsed A) (k : A -> parsed B) : parsed B :=
  match m with
  | Done (Ok a) => k a
  | Done (Err e) => Done (Err e)
  | Panic => Panic
  end.

Definition set_target (t : option string) (d : Directive) : Directive :=
  {| in_span := in_span d; fields := fields d; target := t; level := level d |}.
Definition set_in_span (s : option string) (d : Directive) : Directive :=
  {| in_span := s; fields := fields d; target := target d; level := level d |}.
Definition set_level (l : LevelFilter.t) (d : Directive) : Directive :=
  {| in_span := in_span d; fields := fields d; target := target d; level := l |}.
Definition push_field (f : Match_) (d : Directive) : Directive :=
  {| in_span := in_span d; fields := fields d ++ [f]; target := target d; level := level d |}.

Definition level_from_str (s : string) : parsed LevelFilter.t :=
  match LevelFilter.from_str s with
  | Ok l => ok l
  | Err e => err (ParseError.from_level e)
  end.

(** A level, [TRACE] if the text is empty. *)
Definition parse_level (s : string) : parsed LevelFilter.t :=
  if String.eqb s EmptyString then ok LevelFilter.TRACE else level_from_str s.

(** A bare level or a bare target. *)
Definition level_or_target (s : string) (cur : Directive) : Directive :=
  let '(l, t) :=
    if String.eqb s EmptyString then (LevelFilter.TRACE, None)
    else match LevelFilter.from_str s with
         | Ok level => (level, None)
         | Err _ => (LevelFilter.TRACE, Some s)
         end in
  set_target t (set_level l cur).

Definition parse_field (s : string) (regex : bool) : parsed Match_ :=
  if String.eqb s EmptyString then err ParseError.new
  else match match_parse s regex with
       | Ok m => ok m
       | Err e => err {| kind := KField (build_error_fmt e) |}
       end.

(** [char::is_alphanumeric] *)
Definition is_alphanumeric (c : Z) : bool :=
  if (c <? 128)%Z then
    ((48 <=? c) && (c <=? 57) || (65 <=? c) && (c <=? 90) || (97 <=? c) && (c <=? 122))%Z
  else unicode_alphanumeric c.

Definition chr (a : ascii) : Z := byte_of a.

(** One turn of the loop: the character [c] at index [i]; [from] is the text that is
    sliced. *)
Definition parse_step (from : string) (regex : bool) (state : ParseState) (cur : Directive)
    (i : nat) (c : Z) : parsed (ParseState * Directive) :=
  match state with
  | Start =>
      if (c =? chr "[")%Z then ok (Span (i + 1), cur)
      else if negb ((c =? chr "-") || (c =? chr ":") || (c =? chr "_"))%Z &&
              negb (is_alphanumeric c) then err ParseError.new
      else ok (LevelOrTarget i, cur)
  | LevelOrTarget start =>
      if (c =? chr "=")%Z then
        s ← slice from start i; ok (PLevel (i + 1), set_target (Some s) cur)
      else if (c =? chr "[")%Z then
        s ← slice from start i; ok (Span (i + 1), set_target (Some s) cur)
      else if (c =? chr ",")%Z then
        s ← slice_from from start; ok (Complete, level_or_target s cur)
      else ok (state, cur)
  | Target => if (c =? chr "=")%Z then ok (PLevel (i + 1), cur) else err ParseError.new
  | Span span_start =>
      if (c =? chr "]")%Z then
        s ← slice from span_start i; ok (Target, set_in_span (Some s) cur)
      else if (c =? chr "{")%Z then
        s ← slice from span_start i;
        ok (PField (i + 1),
            set_in_span (if String.eqb s EmptyString then None else Some s) cur)
      else ok (state, cur)
  | PField field_start =>
      if (c =? chr "}")%Z then
        s ← slice from field_start i;
        try_ (parse_field s regex) (fun f => ok (Fields, push_field f cur))
      else if (c =? chr ",")%Z then
        s ← slice from field_start i;
        try_ (parse_field s regex) (fun f => ok (PField (i + 1), push_field f cur))
      else ok (state, cur)
  | Fields => if (c =? chr "]")%Z then ok (Target, cur) else err ParseError.new
  | PLevel level_start =>
      if (c =? chr ",")%Z then
        s ← slice from level_start i;
        try_ (parse_level s) (fun l => ok (Complete, set_level l cur))
      else ok (state, cur)
  | Complete => err ParseError.new
  end.

Fixpoint parse_loop (from : string) (regex : bool) (chars : list (nat * Z))
    (state : ParseState) (cur : Directive) : parsed (ParseState * Directive) :=
  match chars with
  | [] => ok (state, cur)
  | (i, c) :: chars =>
      try_ (parse_step from regex state cur i c) (fun '(state, cur) =>
        parse_loop from regex chars state cur)
  end.

Definition parse_end (from : string) (state : ParseState) (cur : Directive) : parsed Directive :=
  match state with
  | LevelOrTarget start => s ← slice_from from start; ok (level_or_target s cur)
  | PLevel level_start =>
      s ← slice_from from level_start; try_ (parse_level s) (fun l => ok (set_level l cur))
  | Target | Complete => ok cur
  | _ => err ParseError.new
  end.

(** The characters are those of [from.trim()], the slices are taken of [from]. *)
Definition parse (from : string) (regex : bool) : parsed Directive :=
  let cur := {| level := LevelFilter.TRACE; target := None; in_span := None; fields := [] |} in
  try_ (parse_loop from regex (char_indices (trim from)) Start cur) (fun '(state, cur) =>
    parse_end from state cur).

(** [impl FromStr for Directive] *)
Definition directive_from_str (from : string) : parsed Directive := parse from true.

(** ** The tables *)

(** [Directive::make_tables] *)
Definition make_tables (directives : list Directive) :
    DirectiveSet Directive * DirectiveSet StaticDirective :=
  let dyns := List.filter is_dynamic directives in
  let stats := List.filter (fun d => negb (is_dynamic d)) directives in
  (DirectiveSet.from_iter dyns,
   DirectiveSet.from_iter (omap to_static stats ++ omap to_static dyns)).

(** ** [impl Dynamics], [impl CallsiteMatcher], [impl SpanMatcher] *)

(** The closure of [matcher]: the matchers found so far and [base_level]. *)
Definition matcher_step (metadata : Metadata)
    (st : list CallsiteMatch * option LevelFilter.t) (d : Directive) :
    list CallsiteMatch * option LevelFilter.t :=
  let '(field_matches, base_level) := st in
  match field_matcher d metadata with
  | Some f => (field_matches ++ [f], base_level)
  | None =>
      (field_matches,
       match base_level with
       | Some b => if LevelFilter.gt (level d) b then Some (level d) else Some b
       | None => Some (level d)
       end)
  end.

(** [Dynamics::matcher] *)
Definition dynamics_matcher (self : DirectiveSet Directive) (metadata : Metadata) :
    option CallsiteMatcher :=
  let '(field_matches, base_level) :=
    fold_left (matcher_step metadata) (DirectiveSet.directives_for self metadata) ([], None) in
  match base_level with
  | Some base_level => Some {| field_matches := field_matches; base_level := base_level |}
  | None =>
      match field_matches with
      | [] => None
      | _ => Some {| field_matches := field_matches;
                     base_level := default LevelFilter.OFF base_level |}
      end
  end.

(** [Dynamics::has_value_filters] *)
Definition has_value_filters (self : DirectiveSet Directive) : bool :=
  existsb (fun d => existsb has_value (fields d)) (directives self).

(** [CallsiteMatcher::to_span_match] *)
Definition callsite_to_span_match (self : CallsiteMatcher) (attrs : Attributes) : SpanMatcher :=
  {| field_matches :=
       map (fun m => Attributes.record attrs match_visitor (to_span_match m)) (field_matches self);
     base_level := base_level self |}.

(** [SpanMatcher::level]: [Iterator::max] of the filters that match; asking a matcher
    may set its [has_matched]. *)
Definition max_filter (l : list LevelFilter.t) : option LevelFilter.t :=
  match l with
  | [] => None
  | f :: l => Some (fold_left ord_max l f)
  end.
Definition span_level (self : SpanMatcher) : LevelFilter.t * SpanMatcher :=
  let rs := map filter_level (field_matches self) in
  (default (base_level self) (max_filter (omap fst rs)),
   {| field_matches := map snd rs; base_level := base_level self |}).

(** [SpanMatcher::record_update] *)
Definition record_update (self : SpanMatcher) (record : ValueSet) : SpanMatcher :=
  {| field_matches :=
       map (fun m => Record_.record record match_visitor m) (field_matches self);
     base_level := base_level self |}.

(** ** The order of directives *)

(** The directives that a filter with or without regular expressions holds. *)
Definition regular_field (regex : bool) (m : Match_) : Prop :=
  on_option (regular regex) (match_value m).
Definition regular_directive (regex : bool) (d : Directive) : Prop :=
  Forall (regular_field regex) (fields d).

(** Whether a match has a value, as [Match]'s order ranks it. *)
Lemma has_value_cmp (x y : Match_) :
  match match_value x, match_value y with
  | Some _, None => Gt
  | None, Some _ => Lt
  | _, _ => Eq
  end = cmp (has_value x) (has_value y).
Proof. unfold has_value. by destruct (match_value x), (match_value y). Qed.

Lemma preorder_match regex : preorder_on (regular_field regex) (cmp (A:=Match_)).
Proof.
  eapply preorder_on_ext with (c := fun x y => then_with (then_with _ _) _);
    [|intros x y _ _; unfold cmp at 1, ord_match, match_cmp; by rewrite has_value_cmp].
  apply preorder_on_then; [apply preorder_on_then|].
  - eapply preorder_on_weaken; [apply (preorder_by has_value everything)|done];
      auto with tracing.
  - eapply preorder_on_weaken; [apply (preorder_by match_name everything)|done];
      auto with tracing.
  - apply (preorder_on_key match_value (on_option (regular regex))).
    apply preorder_option, preorder_value_match.
Qed.

Lemma preorder_directive regex : preorder_on (regular_directive regex) (cmp (A:=Directive)).
Proof.
  eapply preorder_on_ext with (c := fun d e => reverse _); [|intros d e _ _; reflexivity].
  apply preorder_on_reverse, preorder_on_then; apply preorder_on_then;
    try apply preorder_on_then.
  - eapply preorder_on_weaken;
      [apply (preorder_by (fun d => str_len <$> target d) (on_option everything))|done];
      auto with tracing.
  - eapply preorder_on_weaken; [apply (preorder_by has_name everything)|done];
      auto with tracing.
  - eapply preorder_on_weaken;
      [apply (preorder_by (fun d => length (fields d)) everything)|done]; auto with tracing.
  - eapply preorder_on_weaken; [apply (preorder_by target (on_option everything))|done];
      auto with tracing.
  - eapply preorder_on_weaken; [apply (preorder_by in_span (on_option everything))|done];
      auto with tracing.
  - apply (preorder_on_key fields (Forall (regular_field regex))).
    apply preorder_list, preorder_match.
Qed.

Definition debug_value (m : Match_) : bool :=
  match match_value m with Some (MDebug _) => true | _ => false end.

Lemma match_cmp_eq regex (x y : Match_) :
  regular_field regex x -> regular_field regex y -> cmp x y = Eq ->
  match_eq x y = negb (debug_value x).
Proof.
  unfold cmp at 1, ord_match, match_cmp, regular_field, match_eq, debug_value. intros Hx Hy.
  rewrite !then_with_eq. intros [[_ Hn] Hv]. apply String.compare_eq_iff in Hn.
  rewrite Hn, String.eqb_refl. simpl. destruct (match_value x) as [v|], (match_value y) as [w|];
    simpl in *; try done.
  rewrite (value_match_cmp_eq regex v w) by done. by destruct v.
Qed.

Lemma order_string_option_eq (a b : option string) : cmp a b = Eq -> a = b.
Proof. apply (oo_eq _ _ (order_option everything order_string)); auto with tracing. Qed.

Lemma directive_cmp_eq (d e : Directive) :
  cmp d e = Eq ->
  target d = target e /\ in_span d = in_span e /\
  Forall2 (fun x y => cmp x y = Eq) (fields d) (fields e).
Proof.
  unfold cmp at 1, cmp_directive. rewrite reverse_eq, !then_with_eq.
  intros [_ [[Ht Hs] Hf]]. split_and!; [by apply order_string_option_eq..|].
  by apply list_cmp_Eq.
Qed.

Lemma fields_eq_debug regex l k :
  Forall (regular_field regex) l -> Forall (regular_field regex) k ->
  Forall2 (fun x y => cmp x y = Eq) l k ->
  forallb (fun '(a, b) => match_eq a b) (combine l k) = negb (existsb debug_value l).
Proof.
  intros Hl Hk Hlk. induction Hlk as [|x y l k Hxy _ IH]; [done|].
  apply Forall_cons in Hl as [Hx Hl]. apply Forall_cons in Hk as [Hy Hk]. simpl.
  rewrite (match_cmp_eq regex) by done. rewrite IH by done. by rewrite negb_orb.
Qed.

(** On the directives of one filter the order is a total preorder, and in a debug
    build comparing two of them succeeds unless they compare [Equal] and match a
    field against a literal [Debug] text: then the assertion that equal directives
    have equal fields fails, since [Debug] texts are never equal. *)
Theorem directive_order (regex : bool) (d e : Directive)
    (Hd : regular_directive regex d) (He : regular_directive regex e) :
  preorder_on (regular_directive regex) (cmp (A:=Directive)) /\
  cmp_debug_assertions d e =
    (if is_eq (cmp d e) && existsb debug_value (fields d) then Panic else Done (cmp d e)).
Proof.
  split; [apply preorder_directive|]. unfold cmp_debug_assertions.
  change (cmp_directive d e) with (cmp d e). destruct (cmp d e) eqn:E; [|done..]. simpl.
  apply directive_cmp_eq in E as (Ht & Hs & Hf).
  rewrite Ht, Hs, !bool_decide_true by done. rewrite (Forall2_length _ _ _ Hf), Nat.eqb_refl.
  rewrite (fields_eq_debug regex) by done. simpl. by destruct (existsb _ _).
Qed.

End directive.

(** ** A concrete instance *)

Lemma directive_order_witness :
  let d : @Directive example_externals :=
    {| in_span := None; target := None; level := LevelFilter.INFO;
       fields := [{| match_name := "user"%string; match_value := Some (MDebug {| md_pattern := "bob"%string |}) |}] |} in
  @cmp_debug_assertions example_externals d d = Panic.
Proof.
  intros d. destruct (@directive_order example_externals false d d) as [_ H].
  - repeat constructor.
  - repeat constructor.
  - rewrite H. reflexivity.
Defined.
