(* ===== verification/EnvParse.v ===== *)
(** * EnvParse: the syntax that [Directive::parse] accepts

    The parser of [EnvDirective] against a grammar of directives:
    [target], [target=level], [target\[span{field,field=value}\]=level] and their
    parts, for texts of ASCII characters without surrounding white space; and its
    behaviour on texts with leading white space. *)

From S2P Require Import Prelude.
From S2P Require Import Ord.
From S2P Require Import Str.
From S2P Require Import Levels.
From S2P Require Import Fields.
From S2P Require Import Meta.
From S2P Require Import Directives.
From S2P Require Import EnvField.
From S2P Require Import EnvDirective.
From Stdlib Require Import Ascii.

Local Open Scope string_scope.

(** ** ASCII texts *)

Fixpoint str_all (p : ascii -> bool) (s : string) : bool :=
  match s with EmptyString => true | String a s => p a && str_all p s end.

Definition is_ascii (a : ascii) : bool := (byte_of a <? 128)%Z.

(** None of the characters of [stops]. *)
Definition free (stops : list ascii) (a : ascii) : bool :=
  is_ascii a && forallb (fun b => negb (byte_of a =? byte_of b)%Z) stops.

Lemma str_all_app p s t : str_all p (s ++ t) = str_all p s && str_all p t.
Proof. induction s as [|a s IH]; simpl; [done|]. by rewrite IH, andb_assoc. Qed.

Lemma str_all_impl (p q : ascii -> bool) s :
  (forall a, p a = true -> q a = true) -> str_all p s = true -> str_all q s = true.
Proof.
  intros Hpq. induction s as [|a s IH]; simpl; [done|].
  intros [Ha Hs]%andb_true_iff. by rewrite (Hpq a Ha), IH.
Qed.

Lemma free_ascii stops s : str_all (free stops) s = true -> str_all is_ascii s = true.
Proof. apply str_all_impl. unfold free. intros a H. by bool_to_prop. Qed.

Lemma utf8_width_ascii a : is_ascii a = true -> utf8_width a = 1%nat.
Proof. unfold is_ascii, utf8_width. by intros ->. Qed.

Lemma char_indices_go_cons i a s :
  is_ascii a = true -> char_indices_go i 0 (String a s) = (i, byte_of a) :: char_indices_go (S i) 0 s.
Proof.
  intros Ha. simpl. unfold utf8_value. by rewrite utf8_width_ascii.
Qed.

Lemma get_app_length s a t : String.get (str_len s) (s ++ String a t) = Some a.
Proof. induction s as [|b s IH]; [done|]. exact IH. Qed.

Lemma get_length s : String.get (str_len s) s = None.
Proof. induction s as [|b s IH]; [done|]. exact IH. Qed.

Lemma boundary_ascii s t :
  str_all is_ascii t = true -> is_char_boundary (s ++ t) (str_len s) = true.
Proof.
  intros Ht. unfold is_char_boundary. destruct (str_len s =? 0)%nat eqn:E; [done|].
  rewrite str_len_app, (proj2 (Nat.ltb_ge _ _)) by lia. unfold byte_at.
  destruct t as [|a t]; [by rewrite append_nil_r, get_length|].
  rewrite get_app_length. simpl in Ht. apply andb_true_iff in Ht as [Ha _].
  unfold is_ascii in Ha. unfold is_continuation. bool_to_prop.
  rewrite (proj2 (Z.leb_gt _ _)) by lia. done.
Qed.

Lemma substring_app s m t : String.substring (str_len s) (str_len m) (s ++ m ++ t) = m.
Proof.
  induction s as [|a s IH]; [|exact IH].
  change ("" ++ m ++ t) with (m ++ t). simpl str_len.
  induction m as [|a m IHm]; [by destruct t|]. exact (f_equal (String a) IHm).
Qed.

Lemma slice_middle s m t :
  str_all is_ascii (m ++ t) = true ->
  slice (s ++ m ++ t) (str_len s) (str_len s + str_len m) = Done m.
Proof.
  intros Hm. unfold slice. rewrite (proj2 (Nat.leb_le _ _)) by lia.
  rewrite boundary_ascii by done. rewrite <- str_len_app, <- append_assoc.
  rewrite str_all_app in Hm. apply andb_true_iff in Hm as [_ Ht].
  rewrite boundary_ascii by done. rewrite str_len_app.
  replace (str_len s + str_len m - str_len s)%nat with (str_len m) by lia.
  simpl. by rewrite append_assoc, substring_app.
Qed.

Lemma slice_end s m :
  str_all is_ascii m = true -> slice_from (s ++ m) (str_len s) = Done m.
Proof.
  intros Hm. unfold slice_from. pose proof (slice_middle s m "") as H.
  rewrite append_nil_r, str_len_app in *. by apply H.
Qed.

Section parse.
Context {ext : Externals} (regex : bool).

(** ** The grammar *)

(** [brackets] are the span name and the texts of the fields; [None] for [fields] is
    a directive without braces. *)
Record Syntax := {
  sx_target : string;
  sx_brackets : option (string * option (list string));
  sx_level : option string;
}.

Definition render_fields (fs : option (list string)) : string :=
  match fs with Some fs => "{" ++ fields_text fs ++ "}" | None => "" end.
Definition render_brackets (b : option (string * option (list string))) : string :=
  match b with Some (span, fs) => "[" ++ span ++ render_fields fs ++ "]" | None => "" end.
Definition render_level (l : option string) : string :=
  match l with Some l => "=" ++ l | None => "" end.
Definition render (x : Syntax) : string :=
  sx_target x ++ render_brackets (sx_brackets x) ++ render_level (sx_level x).

Definition start_char (a : ascii) : bool :=
  (byte_of a =? chr "-")%Z || (byte_of a =? chr ":")%Z || (byte_of a =? chr "_")%Z ||
  is_alphanumeric (byte_of a).

(** The characters of each part; without brackets there has to be a target. *)
Record well_formed (x : Syntax) : Prop := {
  wf_ascii : str_all is_ascii (render x) = true;
  wf_target : str_all (free ["="; "["; ","]%char) (sx_target x) = true;
  wf_start : match sx_target x with
             | String a _ => start_char a = true
             | EmptyString => sx_brackets x <> None
             end;
  wf_span span fs : sx_brackets x = Some (span, fs) ->
    str_all (free ["]"; "{"]%char) span = true;
  wf_fields span fs : sx_brackets x = Some (span, Some fs) ->
    fs <> [] /\ Forall (fun f => str_all (free ["}"; ","]%char) f = true) fs;
  wf_level l : sx_level x = Some l -> str_all (free [","]%char) l = true;
}.

Fixpoint parse_fields (fs : list string) : outcome (result (list Match_) ParseError) :=
  match fs with
  | [] => ok []
  | f :: fs => try_ (parse_field f regex) (fun m => try_ (parse_fields fs) (fun ms => ok (m :: ms)))
  end.

Definition directive_level (l : option string) : outcome (result LevelFilter.t ParseError) :=
  match l with Some l => parse_level l | None => ok LevelFilter.TRACE end.

(** What the text of a directive means. *)
Definition meaning (x : Syntax) : outcome (result Directive ParseError) :=
  let t := if String.eqb (sx_target x) "" then None else Some (sx_target x) in
  match sx_brackets x, sx_level x with
  | None, None =>
      ok (level_or_target (sx_target x)
            {| in_span := None; fields := []; target := None; level := LevelFilter.TRACE |})
  | None, Some l =>
      try_ (parse_level l) (fun l =>
        ok {| in_span := None; fields := []; target := t; level := l |})
  | Some (span, None), l =>
      try_ (directive_level l) (fun l =>
        ok {| in_span := Some span; fields := []; target := t; level := l |})
  | Some (span, Some fs), l =>
      try_ (parse_fields fs) (fun ms =>
      try_ (directive_level l) (fun l =>
        ok {| in_span := if String.eqb span "" then None else Some span;
              fields := ms; target := t; level := l |}))
  end.

(** ** The loop *)

Lemma loop_skip from st cur u rest i :
  str_all is_ascii u = true ->
  (forall j a, str_all (fun b => negb (Ascii.eqb a b)) u = false ->
     parse_step from regex st cur j (byte_of a) = ok (st, cur)) ->
  parse_loop from regex (char_indices_go i 0 (u ++ rest)) st cur =
  parse_loop from regex (char_indices_go (i + str_len u) 0 rest) st cur.
Proof.
  revert i. induction u as [|a u IH]; intros i Hu Hstep.
  - simpl. by rewrite Nat.add_0_r.
  - simpl in Hu. apply andb_true_iff in Hu as [Ha Hu].
    change (String a u ++ rest) with (String a (u ++ rest)).
    rewrite char_indices_go_cons by done.
    change (parse_loop from regex ((i, byte_of a) :: ?l) st cur)
      with (try_ (parse_step from regex st cur i (byte_of a))
              (fun '(st, cur) => parse_loop from regex l st cur)).
    rewrite Hstep by (simpl; by rewrite Ascii.eqb_refl). simpl.
    rewrite IH, Nat.add_succ_r; [done|done|].
    intros j b Hb. apply Hstep. simpl. by rewrite Hb, andb_false_r.
Qed.

Lemma loop_step from st cur a rest i :
  is_ascii a = true ->
  parse_loop from regex (char_indices_go i 0 (String a rest)) st cur =
  try_ (parse_step from regex st cur i (byte_of a)) (fun '(st, cur) =>
    parse_loop from regex (char_indices_go (S i) 0 rest) st cur).
Proof. intros Ha. by rewrite char_indices_go_cons. Qed.

(** The characters of a part do not end it. *)
Lemma free_elem stops u a :
  str_all (free stops) u = true -> str_all (fun b => negb (Ascii.eqb a b)) u = false ->
  free stops a = true.
Proof.
  induction u as [|b u IH]; simpl; [done|]. intros [Hb Hu]%andb_true_iff Ha.
  destruct (Ascii.eqb_spec a b) as [->|]; [done|]. by apply IH.
Qed.

Lemma free_skip stops from st cur u rest i :
  str_all (free stops) u = true ->
  (forall j a, forallb (fun b => negb (byte_of a =? byte_of b)%Z) stops = true ->
     parse_step from regex st cur j (byte_of a) = ok (st, cur)) ->
  parse_loop from regex (char_indices_go i 0 (u ++ rest)) st cur =
  parse_loop from regex (char_indices_go (i + str_len u) 0 rest) st cur.
Proof.
  intros Hu Hstep. apply loop_skip; [by eapply free_ascii|].
  intros j a Ha. apply Hstep. pose proof (free_elem _ _ _ Hu Ha) as H. unfold free in H.
  by apply andb_true_iff in H as [_ H].
Qed.

(** ** The phases *)

Definition finish (from : string) (r : outcome (result (ParseState * Directive) ParseError)) :
    outcome (result Directive ParseError) :=
  try_ r (fun '(state, cur) => parse_end from state cur).

Lemma finish_try {A} from (m : outcome (result A ParseError)) k :
  finish from (try_ m k) = try_ m (fun a => finish from (k a)).
Proof. by destruct m as [[]|]. Qed.

Lemma try_assoc {A B C} (m : outcome (result A ParseError)) (k : A -> outcome (result B ParseError))
    (h : B -> outcome (result C ParseError)) :
  try_ (try_ m k) h = try_ m (fun a => try_ (k a) h).
Proof. by destruct m as [[]|]. Qed.

Lemma try_ext {A B} (m : outcome (result A ParseError)) (k h : A -> outcome (result B ParseError)) :
  (forall a, k a = h a) -> try_ m k = try_ m h.
Proof. intros H. destruct m as [[]|]; simpl; auto. Qed.

Lemma ascii_suffix s t : str_all is_ascii (s ++ t) = true -> str_all is_ascii t = true.
Proof. rewrite str_all_app. intros H. by bool_to_prop. Qed.

Lemma phase_level pre l cur :
  str_all (free [","]%char) l = true ->
  finish (pre ++ l)
    (parse_loop (pre ++ l) regex (char_indices_go (str_len pre) 0 l) (PLevel (str_len pre)) cur) =
  try_ (parse_level l) (fun l => ok (set_level l cur)).
Proof.
  intros Hl. rewrite <- (append_nil_r l) at 3.
  rewrite (free_skip [","]%char) by (done || (intros j a Ha; simpl in *; bool_to_prop;
    by rewrite (proj2 (Z.eqb_neq _ _)))).
  unfold finish. simpl. by rewrite slice_end by by eapply free_ascii.
Qed.

Lemma phase_target pre lv cur :
  (forall l, lv = Some l -> str_all (free [","]%char) l = true) -> level cur = LevelFilter.TRACE ->
  finish (pre ++ render_level lv)
    (parse_loop (pre ++ render_level lv) regex
       (char_indices_go (str_len pre) 0 (render_level lv)) Target cur) =
  try_ (directive_level lv) (fun l => ok (set_level l cur)).
Proof.
  intros Hlv Hcur. destruct lv as [l|]; cbn [render_level directive_level].
  - change ("=" ++ l) with (String "=" l). rewrite loop_step by done.
    cbn -[char_indices_go parse_loop String.append].
    replace (pre ++ String "=" l) with ((pre ++ "=") ++ l) by by rewrite append_assoc.
    replace (S (str_len pre)) with (str_len (pre ++ "=")) by (rewrite str_len_app; simpl; lia).
    replace (str_len pre + 1)%nat with (str_len (pre ++ "=")) by by rewrite str_len_app.
    apply phase_level. by apply Hlv.
  - unfold finish. simpl. destruct cur. simpl in *. by subst.
Qed.

Definition push_all (ms : list Match_) (d : Directive) : Directive :=
  {| in_span := in_span d; fields := fields d ++ ms; target := target d; level := level d |}.

Lemma push_all_cons m ms d : push_all ms (push_field m d) = push_all (m :: ms) d.
Proof. unfold push_all, push_field. simpl. by rewrite <- app_assoc. Qed.

(** The field that ends before [a] is sliced and parsed. *)
Lemma field_end pre f a rest cur next :
  str_all is_ascii (f ++ String a rest) = true ->
  str_all (free ["}"; ","]%char) f = true ->
  (forall s, slice (pre ++ f ++ String a rest) (str_len pre) (str_len pre + str_len f) = Done s ->
     parse_step (pre ++ f ++ String a rest) regex (PField (str_len pre)) cur
       (str_len pre + str_len f) (byte_of a) =
     try_ (parse_field s regex) (fun m => ok (next, push_field m cur))) ->
  parse_loop (pre ++ f ++ String a rest) regex
    (char_indices_go (str_len pre) 0 (f ++ String a rest)) (PField (str_len pre)) cur =
  try_ (parse_field f regex) (fun m =>
    parse_loop (pre ++ f ++ String a rest) regex
      (char_indices_go (S (str_len pre + str_len f)) 0 rest) next (push_field m cur)).
Proof.
  intros Hascii Hf Hstep.
  rewrite (free_skip ["}"; ","]%char) by (done || (intros j b Hb; simpl in *; bool_to_prop;
    by rewrite !(proj2 (Z.eqb_neq _ _)))).
  assert (is_ascii a = true) as Ha.
  { apply ascii_suffix in Hascii. simpl in Hascii. by bool_to_prop. }
  rewrite loop_step by done.
  rewrite (Hstep f) by by apply slice_middle.
  by rewrite try_assoc.
Qed.

Lemma phase_fields pre fs lv cur :
  fs <> [] -> Forall (fun f => str_all (free ["}"; ","]%char) f = true) fs ->
  (forall l, lv = Some l -> str_all (free [","]%char) l = true) -> level cur = LevelFilter.TRACE ->
  str_all is_ascii (fields_text fs ++ "}" ++ "]" ++ render_level lv) = true ->
  let from := pre ++ fields_text fs ++ "}" ++ "]" ++ render_level lv in
  finish from
    (parse_loop from regex
       (char_indices_go (str_len pre) 0 (fields_text fs ++ "}" ++ "]" ++ render_level lv))
       (PField (str_len pre)) cur) =
  try_ (parse_fields fs) (fun ms =>
    try_ (directive_level lv) (fun l => ok (set_level l (push_all ms cur)))).
Proof.
  intros Hne Hfs Hlv. revert pre cur Hne.
  induction Hfs as [|f fs Hf Hfs IH]; intros pre cur Hne Hcur Hascii from; [done|].
  subst from. destruct fs as [|g gs].
  - clear IH Hne. simpl in *. rewrite append_nil_r in *.
    change ("}" ++ "]" ++ render_level lv) with (String "}" (String "]" (render_level lv))) in *.
    rewrite (field_end _ _ _ _ _ EnvDirective.Fields Hascii Hf).
    2:{ intros s Hs. simpl. by rewrite Hs. }
    rewrite finish_try, !try_assoc. apply try_ext. intros m. rewrite loop_step by done. simpl.
    replace (pre ++ f ++ String "}" (String "]" (render_level lv)))
      with ((pre ++ f ++ "}]") ++ render_level lv) by by rewrite !append_assoc.
    replace (S (S (str_len pre + str_len f))) with (str_len (pre ++ f ++ "}]"))
      by (rewrite !str_len_app; simpl; lia).
    by apply phase_target.
  - set (rest := fields_text (g :: gs) ++ "}" ++ "]" ++ render_level lv) in *.
    assert (fields_text (f :: g :: gs) ++ "}" ++ "]" ++ render_level lv =
            f ++ String "," rest) as Heq.
    { unfold rest, fields_text. simpl fold_right. by rewrite !append_assoc. }
    rewrite Heq in *.
    rewrite (field_end _ _ _ _ _ (PField (str_len pre + str_len f + 1)) Hascii Hf).
    2:{ intros s Hs. simpl. by rewrite Hs. }
    change (parse_fields (f :: g :: gs)) with (try_ (parse_field f regex) (fun m =>
      try_ (parse_fields (g :: gs)) (fun ms => ok (m :: ms)))).
    rewrite finish_try, !try_assoc. apply try_ext. intros m. rewrite try_assoc.
    replace (pre ++ f ++ String "," rest) with ((pre ++ f ++ ",") ++ rest)
      by by rewrite !append_assoc.
    replace (str_len pre + str_len f + 1)%nat with (str_len (pre ++ f ++ ","))
      by (rewrite !str_len_app; simpl; lia).
    replace (S (str_len pre + str_len f)) with (str_len (pre ++ f ++ ","))
      by (rewrite !str_len_app; simpl; lia).
    unfold rest. rewrite IH; [|done|done|].
    2:{ apply ascii_suffix in Hascii. simpl in Hascii. by bool_to_prop. }
    apply try_ext. intros ms. simpl. by rewrite push_all_cons.
Qed.

(** What the brackets and the level mean after the target has been read. *)
Definition brackets_meaning (span : string) (fs : option (list string)) (lv : option string)
    (cur : Directive) : outcome (result Directive ParseError) :=
  match fs with
  | None =>
      try_ (directive_level lv) (fun l => ok (set_level l (set_in_span (Some span) cur)))
  | Some fs =>
      let cur := set_in_span (if String.eqb span "" then None else Some span) cur in
      try_ (parse_fields fs) (fun ms =>
        try_ (directive_level lv) (fun l => ok (set_level l (push_all ms cur))))
  end.

Lemma phase_span pre span fs lv cur :
  str_all (free ["]"; "{"]%char) span = true ->
  (forall fs', fs = Some fs' ->
     fs' <> [] /\ Forall (fun f => str_all (free ["}"; ","]%char) f = true) fs') ->
  (forall l, lv = Some l -> str_all (free [","]%char) l = true) -> level cur = LevelFilter.TRACE ->
  str_all is_ascii (span ++ render_fields fs ++ "]" ++ render_level lv) = true ->
  let from := pre ++ span ++ render_fields fs ++ "]" ++ render_level lv in
  finish from
    (parse_loop from regex
       (char_indices_go (str_len pre) 0 (span ++ render_fields fs ++ "]" ++ render_level lv))
       (Span (str_len pre)) cur) =
  brackets_meaning span fs lv cur.
Proof.
  intros Hspan Hfs Hlv Hcur Hascii from. subst from.
  rewrite (free_skip ["]"; "{"]%char) by (done || (intros j a Ha; simpl in *; bool_to_prop;
    by rewrite !(proj2 (Z.eqb_neq _ _)))).
  destruct fs as [fs|]; cbn [render_fields brackets_meaning] in *.
  - destruct (Hfs fs eq_refl) as [Hne Hff]. rewrite !append_assoc in *.
    set (rest := fields_text fs ++ "}" ++ "]" ++ render_level lv) in *.
    change ("{" ++ rest) with (String "{" rest) in *. rewrite loop_step by done.
    cbn -[char_indices_go parse_loop String.append slice].
    rewrite slice_middle by done. cbn -[char_indices_go parse_loop String.append].
    replace (pre ++ span ++ String "{" rest) with ((pre ++ span ++ "{") ++ rest)
      by by rewrite !append_assoc.
    replace (str_len pre + str_len span + 1)%nat with (str_len (pre ++ span ++ "{"))
      by (rewrite !str_len_app; simpl; lia).
    replace (S (str_len pre + str_len span)) with (str_len (pre ++ span ++ "{"))
      by (rewrite !str_len_app; simpl; lia).
    apply phase_fields; try done. apply ascii_suffix in Hascii. simpl in Hascii. by bool_to_prop.
  - change ("" ++ "]" ++ render_level lv) with (String "]" (render_level lv)) in *.
    rewrite loop_step by done.
    cbn -[char_indices_go parse_loop String.append slice].
    rewrite slice_middle by done. cbn -[char_indices_go parse_loop String.append].
    replace (pre ++ span ++ String "]" (render_level lv)) with ((pre ++ span ++ "]") ++ render_level lv)
      by by rewrite !append_assoc.
    replace (S (str_len pre + str_len span)) with (str_len (pre ++ span ++ "]"))
      by (rewrite !str_len_app; simpl; lia).
    by apply phase_target.
Qed.

Definition init : Directive :=
  {| level := LevelFilter.TRACE; target := None; in_span := None; fields := [] |}.

Lemma slice_start m t :
  str_all is_ascii (m ++ t) = true -> slice (m ++ t) 0 (str_len m) = Done m.
Proof. exact (slice_middle "" m t). Qed.

(** After a target, in state [LevelOrTarget]. *)
Lemma phase_after_target x :
  well_formed x -> sx_target x <> "" ->
  finish (render x)
    (parse_loop (render x) regex
       (char_indices_go (str_len (sx_target x)) 0
          (render_brackets (sx_brackets x) ++ render_level (sx_level x)))
       (LevelOrTarget 0) init) = meaning x.
Proof.
  intros Hwf Hne. pose proof (wf_ascii _ Hwf) as Hascii. unfold render in *.
  destruct x as [t b lv]. simpl in Hne.
  assert (String.eqb t "" = false) as Et by by apply String.eqb_neq.
  unfold meaning. cbn [sx_target sx_brackets sx_level] in *. rewrite Et.
  pose proof (wf_level _ Hwf) as Hlv. cbn [sx_level] in Hlv.
  destruct b as [[span fs]|]; cbn [render_brackets] in *.
  - pose proof (wf_span _ Hwf span fs eq_refl) as Hspan.
    assert (forall fs', fs = Some fs' -> fs' <> [] /\
              Forall (fun f => str_all (free ["}"; ","]%char) f = true) fs') as Hfs.
    { intros fs' ->. by apply (wf_fields _ Hwf span fs'). }
    rewrite !append_assoc in *.
    set (rest := span ++ render_fields fs ++ "]" ++ render_level lv) in *.
    change ("[" ++ rest) with (String "[" rest) in *. rewrite loop_step by done.
    change (parse_step ?from regex (LevelOrTarget 0) init ?i (byte_of "["))
      with (s ← slice from 0 i; ok (Span (i + 1), set_target (Some s) init)).
    rewrite slice_start by done. cbn -[char_indices_go parse_loop String.append meaning].
    replace (t ++ String "[" rest) with ((t ++ "[") ++ rest) by by rewrite !append_assoc.
    replace (str_len t + 1)%nat with (str_len (t ++ "[")) by (rewrite !str_len_app; simpl; lia).
    replace (S (str_len t)) with (str_len (t ++ "[")) by (rewrite !str_len_app; simpl; lia).
    unfold rest. rewrite phase_span; try done.
    apply ascii_suffix in Hascii. simpl in Hascii. by bool_to_prop.
  - change ("" ++ render_level lv) with (render_level lv) in *.
    destruct lv as [l|]; cbn [render_level] in *.
    + change ("=" ++ l) with (String "=" l) in *. rewrite loop_step by done.
      change (parse_step ?from regex (LevelOrTarget 0) init ?i (byte_of "="))
        with (s ← slice from 0 i; ok (PLevel (i + 1), set_target (Some s) init)).
      rewrite slice_start by done. cbn -[char_indices_go parse_loop String.append meaning].
      replace (t ++ String "=" l) with ((t ++ "=") ++ l) by by rewrite !append_assoc.
      replace (str_len t + 1)%nat with (str_len (t ++ "=")) by (rewrite !str_len_app; simpl; lia).
      replace (S (str_len t)) with (str_len (t ++ "=")) by (rewrite !str_len_app; simpl; lia).
      rewrite phase_level by by apply Hlv. done.
    + unfold finish. simpl. rewrite append_nil_r in *.
      pose proof (slice_end "" t Hascii) as Hs. simpl in Hs. change ("" ++ t) with t in Hs.
      by rewrite Hs.
Qed.

Lemma parse_render x :
  well_formed x -> trim (render x) = render x -> parse (render x) regex = meaning x.
Proof.
  intros Hwf Htrim. unfold parse. rewrite Htrim. change (try_ ?m ?k) with (finish (render x) m).
  unfold char_indices. fold init. pose proof (wf_ascii _ Hwf) as Hascii.
  destruct (sx_target x) as [|a u] eqn:Et.
  - pose proof (wf_start _ Hwf) as Hb. rewrite Et in Hb.
    destruct x as [t [[span fs]|] lv]; [|done]. simpl in Et. subst t.
    unfold render in *. cbn [sx_target sx_brackets sx_level render_brackets] in *.
    change ("" ++ ?s) with s in *. rewrite !append_assoc in *.
    set (rest := span ++ render_fields fs ++ "]" ++ render_level lv) in *.
    change ("[" ++ rest) with (String "[" rest) in *. rewrite loop_step by done.
    change (parse_step ?from regex Start init 0 (byte_of "["))
      with (ok (Span (str_len "["), init)).
    cbn [try_ ok]. change (String "[" rest) with ("[" ++ rest) in *.
    change 1%nat with (str_len "[").
    unfold rest. rewrite phase_span; try done.
    + apply (wf_span _ Hwf span fs eq_refl).
    + intros fs' ->. by apply (wf_fields _ Hwf span fs').
    + apply (wf_level _ Hwf).
  - pose proof (wf_start _ Hwf) as Hst. rewrite Et in Hst.
    pose proof (wf_target _ Hwf) as Ht. rewrite Et in Ht. simpl in Ht.
    apply andb_true_iff in Ht as [Ha Hu].
    rewrite <- (phase_after_target x) by (done || by rewrite Et). f_equal.
    unfold render at 2. rewrite Et.
    change (String a u ++ ?s) with (String a (u ++ s)).
    unfold free in Ha. simpl in Ha. bool_to_prop. rewrite loop_step by done. simpl.
    rewrite (proj2 (Z.eqb_neq _ (chr "["))) by done.
    unfold start_char in Hst. rewrite <- negb_orb, Hst. simpl.
    rewrite (free_skip ["="; "["; ","]%char) by (done || (intros j b Hb; simpl in *; bool_to_prop;
      by rewrite !(proj2 (Z.eqb_neq _ _)))). done.
Qed.

(** The parser accepts the directive syntax: on the text of a target, an optional
    bracketed span name with optional fields and an optional level, in ASCII and
    without surrounding white space, it does not panic and gives the directive (or
    the error of a field or of the level) that the parts mean. *)
Theorem directive_parse_spec (x : Syntax) (Hwf : well_formed x)
    (Htrim : trim (render x) = render x) :
  parse (render x) regex = meaning x /\ meaning x <> Panic.
Proof.
  split; [by apply parse_render|].
  assert (forall s, parse_level s <> Panic) as Hl.
  { intros s. unfold parse_level, level_from_str, ok, err. repeat case_match; done. }
  assert (forall l, directive_level l <> Panic) as Hdl by (intros [l|]; [apply Hl|done]).
  assert (forall fs, parse_fields fs <> Panic) as Hf.
  { induction fs as [|f fs IH]; simpl; [done|]. unfold parse_field.
    destruct (String.eqb f ""); simpl; [done|].
    destruct (match_parse f regex); simpl; [|done]. by destruct (parse_fields fs) as [[]|]. }
  unfold meaning. destruct (sx_brackets x) as [[span [fs|]]|], (sx_level x) as [l|]; simpl; try done.
  - specialize (Hf fs). specialize (Hl l). destruct (parse_fields fs) as [[]|]; simpl; try done.
    by destruct (parse_level l) as [[]|].
  - specialize (Hf fs). by destruct (parse_fields fs) as [[]|].
  - specialize (Hl l). by destruct (parse_level l) as [[]|].
  - specialize (Hl l). by destruct (parse_level l) as [[]|].
Qed.

(** The parser reads the characters of the trimmed text but slices the text as
    it was given: with a leading space a bare level becomes a target (with the space
    in it) that enables everything, a directive with a level is an error, and with a
    leading no-break space the parser panics. *)
Theorem directive_parse_leading_space :
  parse " info" regex =
    ok {| in_span := None; fields := []; target := Some " info"; level := LevelFilter.TRACE |} /\
  parse " app=info" regex = err (ParseError.from_level LevelFilter.parse_level_filter_error) /\
  parse (bytes [194; 160] ++ "a=info") regex = Panic /\
  parse "app=info" regex =
    ok {| in_span := None; fields := []; target := Some "app"; level := LevelFilter.INFO |}.
Proof. split_and!; reflexivity. Qed.

End parse.

(** ** A concrete instance *)

Definition example_syntax : Syntax :=
  {| sx_target := "app::db"; sx_brackets := Some ("query", Some ["id=7"; "user"]);
     sx_level := Some "debug" |}.

Lemma directive_parse_spec_witness :
  @parse example_externals "app::db[query{id=7,user}]=debug" true =
  @ok (@Directive example_externals)
     {| in_span := Some "query"; target := Some "app::db"; level := LevelFilter.DEBUG;
        fields := [{| match_name := "id"; match_value := Some (MU64 7) |};
                   {| match_name := "user"; match_value := None |}] |}.
Proof.
  destruct (@directive_parse_spec example_externals true example_syntax) as [H _].
  - split; try reflexivity.
    + intros span fs [= <- <-]. reflexivity.
    + intros span fs [= <- <-]. split; [discriminate|]. repeat constructor.
    + intros l [= <-]. reflexivity.
  - vm_compute. reflexivity.
  - exact H.
Defined.
