(* ===== verification/EnvFilter.v ===== *)
(** * EnvFilter: [tracing-subscriber/src/filter/env/mod.rs] and [builder.rs]

    The filter's state (its directive tables, the matchers of callsites and spans,
    the per-thread scope of levels) and its callbacks.  The locks are not poisoned;
    a thread is a number, and a thread without an entry in [scope] has an empty
    vector. *)

From S2P Require Import Prelude.
From S2P Require Import Ord.
From S2P Require Import Str.
From S2P Require Import Levels.
From S2P Require Import Fields.
From S2P Require Import Meta.
From S2P Require Import Interests.
From S2P Require Import Directives.
From S2P Require Import EnvField.
From S2P Require Import EnvDirective.
From S2P Require Import EnvParse.
From Stdlib Require Import Ascii.

Section filter.
Context {ext : Externals}.

(** [struct EnvFilter] *)
Record EnvFilter := {
  statics : DirectiveSet StaticDirective;
  dynamics : DirectiveSet Directive;
  has_dynamics : bool;
  by_id : gmap Id SpanMatcher;
  by_cs : gmap Identifier CallsiteMatcher;
  scope : gmap nat (list LevelFilter.t);
  regex : bool;
}.

(** [impl Clone for EnvFilter]: the clone starts without spans and callsites. *)
Definition clone (self : EnvFilter) : EnvFilter :=
  {| statics := statics self; dynamics := dynamics self; has_dynamics := has_dynamics self;
     by_id := ∅; by_cs := ∅; scope := ∅; regex := regex self |}.

Definition with_by_id (f : gmap Id SpanMatcher -> gmap Id SpanMatcher) (self : EnvFilter) :
    EnvFilter :=
  {| statics := statics self; dynamics := dynamics self; has_dynamics := has_dynamics self;
     by_id := f (by_id self); by_cs := by_cs self; scope := scope self; regex := regex self |}.
Definition with_by_cs (f : gmap Identifier CallsiteMatcher -> gmap Identifier CallsiteMatcher)
    (self : EnvFilter) : EnvFilter :=
  {| statics := statics self; dynamics := dynamics self; has_dynamics := has_dynamics self;
     by_id := by_id self; by_cs := f (by_cs self); scope := scope self; regex := regex self |}.
Definition with_scope (f : gmap nat (list LevelFilter.t) -> gmap nat (list LevelFilter.t))
    (self : EnvFilter) : EnvFilter :=
  {| statics := statics self; dynamics := dynamics self; has_dynamics := has_dynamics self;
     by_id := by_id self; by_cs := by_cs self; scope := f (scope self); regex := regex self |}.

(** [self.scope.get_or_default()] on thread [t] *)
Definition scope_of (t : nat) (self : EnvFilter) : list LevelFilter.t :=
  default [] (scope self !! t).

(** [EnvFilter::add_directive] *)
Definition add_directive (directive : Directive) (self : EnvFilter) : EnvFilter :=
  let directive := if negb (regex self) then deregexify directive else directive in
  match to_static directive with
  | Some stat =>
      {| statics := DirectiveSet.add stat (statics self); dynamics := dynamics self;
         has_dynamics := has_dynamics self; by_id := by_id self; by_cs := by_cs self;
         scope := scope self; regex := regex self |}
  | None =>
      {| statics := statics self; dynamics := DirectiveSet.add directive (dynamics self);
         has_dynamics := true; by_id := by_id self; by_cs := by_cs self;
         scope := scope self; regex := regex self |}
  end.

(** ** The builder *)

(** [struct Builder] *)
Record Builder := {
  b_regex : bool;
  b_env : option string;
  default_directive_ : option Directive;
}.

Definition default_builder : Builder :=
  {| b_regex := true; b_env := None; default_directive_ := None |}.
Definition with_regex (regex : bool) (self : Builder) : Builder :=
  {| b_regex := regex; b_env := b_env self; default_directive_ := default_directive_ self |}.
Definition with_default_directive (d : Directive) (self : Builder) : Builder :=
  {| b_regex := b_regex self; b_env := b_env self; default_directive_ := Some d |}.
Definition with_env_var (var : string) (self : Builder) : Builder :=
  {| b_regex := b_regex self; b_env := Some var;
     default_directive_ := default_directive_ self |}.
Definition env_var_name (self : Builder) : string := default "RUST_LOG"%string (b_env self).

(** The warnings of [Builder::from_directives]: for each directive that enables more
    than the static maximum level, the level and the target that are printed, and the
    arguments of the help message; [expect] and [unreachable!] are what may panic. *)
Definition disabled (STATIC_MAX_LEVEL : LevelFilter.t) (directives : list Directive) :
    list Directive :=
  List.filter (fun directive => LevelFilter.gt (level directive) STATIC_MAX_LEVEL) directives.
Definition help_msg (STATIC_MAX_LEVEL : LevelFilter.t) : outcome (string * string) :=
  match LevelFilter.into_level STATIC_MAX_LEVEL with
  | Some l =>
      match Level.inner l with
      | Level.Trace => Panic
      | Level.Debug => Done ("max_level_debug", Level.fmt Level.TRACE +:+ " ")%string
      | Level.Info => Done ("max_level_info", Level.fmt Level.DEBUG +:+ " ")%string
      | Level.Warn => Done ("max_level_warn", Level.fmt Level.INFO +:+ " ")%string
      | Level.Error => Done ("max_level_error", Level.fmt Level.WARN +:+ " ")%string
      end
  | None => Done ("max_level_off", EmptyString)%string
  end.
Fixpoint warn_directives (l : list Directive) : outcome (list (Level.t * string)) :=
  match l with
  | [] => Done []
  | directive :: l =>
      level ← expect (LevelFilter.into_level (level directive));
      rest ← warn_directives l;
      mret ((level,
             match target directive with
             | Some target => "the `" +:+ target +:+ "` target"
             | None => "all targets"
             end)%string :: rest)
  end.
Definition static_warnings (STATIC_MAX_LEVEL : LevelFilter.t) (directives : list Directive) :
    outcome (option (list (Level.t * string) * (string * string))) :=
  match disabled STATIC_MAX_LEVEL directives with
  | [] => Done None
  | ds =>
      warnings ← warn_directives ds;
      help ← help_msg STATIC_MAX_LEVEL;
      mret (Some (warnings, help))
  end.

(** [Builder::from_directives] after the warnings. *)
Definition from_directives (self : Builder) (directives : list Directive) : EnvFilter :=
  let directives := if negb (b_regex self) then map deregexify directives else directives in
  let '(dynamics, statics) := make_tables directives in
  let has_dynamics := negb (DirectiveSet.is_empty dynamics) in
  let filter :=
    {| statics := statics; dynamics := dynamics; has_dynamics := has_dynamics;
       by_id := ∅; by_cs := ∅; scope := ∅; regex := b_regex self |} in
  if negb has_dynamics && DirectiveSet.is_empty statics then
    match default_directive_ self with
    | Some default => add_directive default filter
    | None => filter
    end
  else filter.

(** The non-empty pieces between the commas. *)
Definition pieces (dirs : string) : list string :=
  List.filter (fun s => negb (String.eqb s EmptyString)) (split_char "," dirs).

(** [Builder::parse_lossy]: directives that do not parse are ignored. *)
Fixpoint parse_all_lossy (regex : bool) (l : list string) : outcome (list Directive) :=
  match l with
  | [] => Done []
  | s :: l =>
      d ← parse s regex;
      ds ← parse_all_lossy regex l;
      mret (match d with Ok d => d :: ds | Err _ => ds end)
  end.
Definition parse_lossy (self : Builder) (dirs : string) : outcome EnvFilter :=
  ds ← parse_all_lossy (b_regex self) (pieces dirs); mret (from_directives self ds).

(** [Builder::parse]: fails with the first directive that does not parse. *)
Fixpoint parse_all (regex : bool) (l : list string) :
    outcome (result (list Directive) ParseError) :=
  match l with
  | [] => Done (Ok [])
  | s :: l =>
      try_ (parse s regex) (fun d =>
      try_ (parse_all regex l) (fun ds => Done (Ok (d :: ds))))
  end.
Definition builder_parse (self : Builder) (dirs : string) :
    outcome (result EnvFilter ParseError) :=
  if String.eqb dirs EmptyString then Done (Ok (from_directives self []))
  else try_ (parse_all (b_regex self) (pieces dirs)) (fun ds =>
         Done (Ok (from_directives self ds))).

(** [EnvFilter::new], [EnvFilter::try_new], [impl Default] *)
Definition new (directives : string) : outcome EnvFilter :=
  parse_lossy (with_default_directive (from_level_filter LevelFilter.ERROR) default_builder)
    directives.
Definition try_new (dirs : string) : outcome (result EnvFilter ParseError) :=
  builder_parse default_builder dirs.
Definition default_filter : EnvFilter := from_directives default_builder [].

(** [from_env_lossy], [from_env] and [try_from_env]; [env] is [env::var], with [None]
    for its errors. *)
Definition from_env_lossy (env : string -> option string) (self : Builder) :
    outcome EnvFilter :=
  parse_lossy self (default EmptyString (env (env_var_name self))).
Definition from_env (env : string -> option string) (self : Builder) :
    outcome (result EnvFilter ParseError) :=
  builder_parse self (default EmptyString (env (env_var_name self))).
Definition try_from_env (env : string -> option string) (self : Builder) :
    outcome (result EnvFilter (option ParseError)) :=
  match env (env_var_name self) with
  | None => Done (Err None)
  | Some var =>
      r ← builder_parse self var;
      mret (match r with Ok f => Ok f | Err e => Err (Some e) end)
  end.

(** ** The callbacks *)

(** [EnvFilter::enabled], on thread [t] *)
Definition enabled (t : nat) (metadata : Metadata) (self : EnvFilter) : bool :=
  let level := Metadata.level metadata in
  let enabled_dynamically :=
    if has_dynamics self && LevelFilter.ge_level (max_level (dynamics self)) level then
      if Metadata.is_span metadata &&
         bool_decide (is_Some (by_cs self !! Metadata.callsite metadata))
      then true
      else existsb (fun filter => LevelFilter.ge_level filter level) (scope_of t self)
    else false in
  if enabled_dynamically then true
  else if LevelFilter.ge_level (max_level (statics self)) level
  then Statics.enabled (statics self) metadata
  else false.

(** [EnvFilter::max_level_hint]: [cmp::max] of two [Some]s. *)
Definition max_level_hint (self : EnvFilter) : option LevelFilter.t :=
  if has_value_filters (dynamics self) then Some LevelFilter.TRACE
  else ord_max (Some (max_level (statics self))) (Some (max_level (dynamics self))).

(** [EnvFilter::on_new_span] *)
Definition on_new_span (attrs : Attributes) (id : Id) (self : EnvFilter) : EnvFilter :=
  if negb (has_dynamics self) then self
  else match by_cs self !! Metadata.callsite (Attributes.metadata attrs) with
       | Some cs => with_by_id <[id := callsite_to_span_match cs attrs]> self
       | None => self
       end.

(** [EnvFilter::on_enter]; asking for the level may update the span's matchers. *)
Definition on_enter (t : nat) (id : Id) (self : EnvFilter) : EnvFilter :=
  if negb (has_dynamics self) then self
  else match by_id self !! id with
       | Some span =>
           let '(level, span) := span_level span in
           with_scope <[t := level :: scope_of t self]> (with_by_id <[id := span]> self)
       | None => self
       end.

(** [EnvFilter::cares_about_span] *)
Definition cares_about_span (span : Id) (self : EnvFilter) : bool :=
  bool_decide (is_Some (by_id self !! span)).

(** [EnvFilter::on_exit] *)
Definition on_exit (t : nat) (id : Id) (self : EnvFilter) : EnvFilter :=
  if negb (has_dynamics self) then self
  else if cares_about_span id self then with_scope <[t := tail (scope_of t self)]> self
  else self.

(** [EnvFilter::on_close] *)
Definition on_close (id : Id) (self : EnvFilter) : EnvFilter :=
  if negb (has_dynamics self) then self
  else if negb (cares_about_span id self) then self
  else with_by_id (delete id) self.

(** [EnvFilter::on_record] *)
Definition on_record (id : Id) (values : ValueSet) (self : EnvFilter) : EnvFilter :=
  if negb (has_dynamics self) then self
  else match by_id self !! id with
       | Some span => with_by_id <[id := record_update span values]> self
       | None => self
       end.

(** [EnvFilter::base_interest] *)
Definition base_interest (self : EnvFilter) : Interest :=
  if has_dynamics self then Interest.sometimes else Interest.never.

(** [EnvFilter::register_callsite] *)
Definition register_callsite (metadata : Metadata) (self : EnvFilter) : Interest * EnvFilter :=
  let matcher :=
    if has_dynamics self && Metadata.is_span metadata
    then dynamics_matcher (dynamics self) metadata else None in
  match matcher with
  | Some matcher => (Interest.always, with_by_cs <[Metadata.callsite metadata := matcher]> self)
  | None =>
      (if Statics.enabled (statics self) metadata then Interest.always else base_interest self,
       self)
  end.

(** ** The warnings do not panic *)

(** Warning about the directives that the static maximum level disables never
    panics: each of them has a level, and there is none when everything is enabled;
    one warning is printed for each of them. *)
Theorem static_warnings_total (max : LevelFilter.t) (ds : list Directive) :
  exists r, static_warnings max ds = Done r /\
    match r with
    | None => Forall (fun d => LevelFilter.gt (level d) max = false) ds
    | Some (warnings, _) => length warnings = length (disabled max ds)
    end.
Proof.
  unfold static_warnings.
  assert (forall d, d ∈ disabled max ds -> (filter_rank max < filter_rank (level d))%Z) as Hlt.
  { intros d Hd. apply list_elem_of_In, filter_In in Hd as [_ Hd].
    rewrite filter_gt_rank in Hd. by apply Z.ltb_lt. }
  assert (forall l, (forall d, d ∈ l -> (filter_rank max < filter_rank (level d))%Z) ->
            exists w, warn_directives l = Done w /\ length w = length l) as Hw.
  { induction l as [|d l IH]; intros Hl; simpl; [by eexists|].
    pose proof (Hl d ltac:(by left)) as Hd. pose proof (filter_rank_bounds max).
    destruct IH as (w & -> & Hlen); [intros; apply Hl; by right|].
    destruct (level d) as [[x|]]; simpl in *;
      [|change (filter_rank _) with 0%Z in Hd at 2; lia].
    eexists. split; [done|]. simpl. by rewrite Hlen. }
  destruct (disabled max ds) as [|d l] eqn:E.
  - eexists. split; [done|]. simpl. apply Forall_forall. intros d Hd.
    destruct (LevelFilter.gt (level d) max) eqn:Hgt; [|done].
    assert (d ∈ disabled max ds) as Hin by (apply list_elem_of_In, filter_In; by rewrite <- list_elem_of_In).
    rewrite E in Hin. by apply not_elem_of_nil in Hin.
  - destruct (Hw (d :: l) Hlt) as (w & -> & Hlen). simpl.
    specialize (Hlt d ltac:(by left)). pose proof (filter_rank_bounds (level d)).
    destruct max as [[[[]]|]]; simpl; try (by eexists).
    change (filter_rank _) with 5%Z in Hlt at 1. lia.
Qed.

(** ** The tables *)

(** The static table is ordered and its maximum level bounds its directives. *)
Record statics_ok (s : DirectiveSet StaticDirective) : Prop := {
  so_sorted : sorted everything (directives s);
  so_bound d : d ∈ directives s -> (filter_rank (sd_level d) <= filter_rank (max_level s))%Z;
}.

Lemma statics_ok_add d s : statics_ok s -> statics_ok (DirectiveSet.add d s).
Proof.
  intros [Hs Hb]. split.
  - by apply (add_sorted everything preorder_static).
  - intros e. rewrite (elem_of_add everything preorder_static), add_max_level by done.
    intros [->|[He _]]; simpl; [lia|]. specialize (Hb e He). lia.
Qed.

Lemma statics_ok_from_iter ds : statics_ok (DirectiveSet.from_iter ds).
Proof.
  induction ds as [|d ds IH] using rev_ind.
  - split; [by repeat constructor|]. simpl. by intros d ?%not_elem_of_nil.
  - rewrite from_iter_snoc. by apply statics_ok_add.
Qed.

Lemma statics_enabled_bound s m :
  statics_ok s -> Statics.enabled s m = true ->
  LevelFilter.ge_level (max_level s) (Metadata.level m) = true.
Proof.
  intros [_ Hb]. unfold Statics.enabled. rewrite head_enabled. intros (d & Hd & Hl).
  assert (d ∈ directives s) as Hin.
  { unfold DirectiveSet.directives_for in Hd.
    assert (d ∈ List.filter (fun d => cares_about d m) (directives s)) as H
      by (destruct (List.filter _ _); simplify_eq/=; by left).
    apply list_elem_of_In, filter_In in H as [H _]. by apply list_elem_of_In. }
  specialize (Hb d Hin). rewrite ge_level_rank, Z.leb_le in *. lia.
Qed.

(** ** Runs *)

Inductive filter_op :=
  | OAdd (d : Directive)
  | ORegister (m : Metadata)
  | ONewSpan (attrs : Attributes) (id : Id)
  | OEnter (t : nat) (id : Id)
  | OExit (t : nat) (id : Id)
  | OClose (id : Id)
  | ORecord (id : Id) (values : ValueSet).

Definition filter_step (f : EnvFilter) (o : filter_op) : EnvFilter :=
  match o with
  | OAdd d => add_directive d f
  | ORegister m => (register_callsite m f).2
  | ONewSpan attrs id => on_new_span attrs id f
  | OEnter t id => on_enter t id f
  | OExit t id => on_exit t id f
  | OClose id => on_close id f
  | ORecord id values => on_record id values f
  end.

(** The filter that a builder makes, after some operations. *)
Definition reachable (b : Builder) (ds : list Directive) (ops : list filter_op) : EnvFilter :=
  fold_left filter_step ops (from_directives b ds).

(** Only [add_directive] changes the tables. *)
Definition same_tables (f g : EnvFilter) : Prop :=
  statics f = statics g /\ dynamics f = dynamics g /\ has_dynamics f = has_dynamics g /\
  regex f = regex g.

Lemma filter_step_tables f o :
  (forall d, o <> OAdd d) -> same_tables (filter_step f o) f.
Proof.
  intros Ho. unfold same_tables.
  destruct o; simpl; [by destruct (Ho d)|unfold register_callsite|unfold on_new_span
    |unfold on_enter|unfold on_exit|unfold on_close|unfold on_record];
    repeat case_match; simplify_eq/=; done.
Qed.

Lemma filter_step_statics f o : statics_ok (statics f) -> statics_ok (statics (filter_step f o)).
Proof.
  intros Hf. destruct o as [d| | | | | |];
    try (match goal with |- statics_ok (statics (filter_step _ ?o)) =>
      destruct (filter_step_tables f o) as [-> _]; done end).
  simpl. unfold add_directive. destruct (to_static _); simpl; [by apply statics_ok_add|done].
Qed.

Lemma reachable_statics b ds ops : statics_ok (statics (reachable b ds ops)).
Proof.
  unfold reachable. assert (statics_ok (statics (from_directives b ds))) as H0.
  { unfold from_directives, make_tables.
    assert (forall d f, statics_ok (statics f) -> statics_ok (statics (add_directive d f))) as Hadd
      by (intros d f; apply (filter_step_statics f (OAdd d))).
    repeat case_match; simplify_eq/=; try apply Hadd; apply statics_ok_from_iter. }
  revert H0. generalize (from_directives b ds). induction ops as [|o ops IH]; intros f Hf; [done|].
  simpl. by apply IH, filter_step_statics.
Qed.

(** ** What may be cached *)

(** Some directive makes a dynamic matcher for the span [m]. *)
Definition dynamically_matched (f : EnvFilter) (m : Metadata) : bool :=
  has_dynamics f && Metadata.is_span m &&
  bool_decide (is_Some (dynamics_matcher (dynamics f) m)).

Lemma enabled_static f t m :
  statics_ok (statics f) -> Statics.enabled (statics f) m = true -> enabled t m f = true.
Proof.
  intros Hok He. unfold enabled.
  rewrite (statics_enabled_bound _ _ Hok He), He. cbv zeta.
  match goal with |- (if ?c then _ else _) = true => by destruct c end.
Qed.

Lemma fold_tables ops f :
  (forall d, OAdd d ∉ ops) -> same_tables (fold_left filter_step ops f) f.
Proof.
  revert f. induction ops as [|o ops IH]; intros f Ho; simpl; [done|].
  destruct (IH (filter_step f o)) as (H1 & H2 & H3 & H4).
  { intros d Hd. apply (Ho d). by right. }
  destruct (filter_step_tables f o) as (K1 & K2 & K3 & K4).
  { intros d ->. apply (Ho d). by left. }
  unfold same_tables. split_and!; congruence.
Qed.

(** Callsites stay registered. *)
Lemma filter_step_by_cs f o c : is_Some (by_cs f !! c) -> is_Some (by_cs (filter_step f o) !! c).
Proof.
  intros Hc. destruct o; simpl; [unfold add_directive|unfold register_callsite|unfold on_new_span
    |unfold on_enter|unfold on_exit|unfold on_close|unfold on_record];
    repeat case_match; simplify_eq/=; try done.
  rewrite lookup_insert_is_Some. destruct (decide (Metadata.callsite m = c)); auto.
Qed.

Lemma fold_by_cs ops f c :
  is_Some (by_cs f !! c) -> is_Some (by_cs (fold_left filter_step ops f) !! c).
Proof.
  revert f. induction ops as [|o ops IH]; intros f Hc; simpl; [done|].
  by apply IH, filter_step_by_cs.
Qed.

Lemma register_callsite_tables f m : same_tables (register_callsite m f).2 f.
Proof. by apply (filter_step_tables f (ORegister m)). Qed.

(** C30: on every reachable [EnvFilter], whatever its spans and scopes: a metadata that
    [enabled] accepts is within [max_level_hint]; a callsite for which
    [register_callsite] answers [never] is never enabled; one for which it answers
    [always] is enabled then and after any further callbacks, unless it is a span
    with a dynamic matcher whose level is above every dynamic directive: for such a
    span the answer is [always] while [enabled] only asks the static directives. *)
Theorem env_filter_contract (b : Builder) (ds : list Directive) (ops ops' : list filter_op)
    (t : nat) (m : Metadata) (Hops' : forall d, OAdd d ∉ ops') :
  let f := reachable b ds ops in
  let '(interest, f1) := register_callsite m f in
  let f2 := fold_left filter_step ops' f1 in
  (enabled t m f2 = true ->
     exists hint, max_level_hint f2 = Some hint /\
       LevelFilter.ge_level hint (Metadata.level m) = true) /\
  (interest = Never -> enabled t m f2 = false) /\
  (interest = Always ->
     enabled t m f2 =
       (if dynamically_matched f m &&
           negb (LevelFilter.ge_level (max_level (dynamics f)) (Metadata.level m))
        then Statics.enabled (statics f) m else true)).
Proof.
  intros f. pose proof (reachable_statics b ds ops) as Hok. fold f in Hok.
  pose proof (register_callsite_tables f m) as Htab.
  destruct (register_callsite m f) as [interest f1] eqn:Hreg. simpl in Htab. intros f2.
  assert (same_tables f2 f) as (E1 & E2 & E3 & _).
  { destruct (fold_tables ops' f1 Hops') as (? & ? & ? & ?). fold f2 in H, H0, H1, H2.
    destruct Htab as (? & ? & ? & ?). unfold same_tables. split_and!; congruence. }
  rewrite <- E1 in Hok. split_and!.
  - unfold enabled, max_level_hint. rewrite E1, E2, E3 in *. intros He.
    assert (LevelFilter.ge_level (max_level (dynamics f)) (Metadata.level m) = true \/
            LevelFilter.ge_level (max_level (statics f)) (Metadata.level m) = true) as Hle.
    { destruct (has_dynamics f && LevelFilter.ge_level (max_level (dynamics f)) (Metadata.level m))
        eqn:Ed; [apply andb_true_iff in Ed as [_ Ed]; by left|].
      destruct (LevelFilter.ge_level (max_level (statics f)) _); [by right|done]. }
    clear He. destruct (has_value_filters (dynamics f)).
    { exists LevelFilter.TRACE. split; [done|]. by destruct (Metadata.level m) as [[]]. }
    rewrite !ge_level_rank, !Z.leb_le in Hle.
    unfold ord_max. 
    change (cmp (Some (max_level (statics f))) (Some (max_level (dynamics f))))
      with (cmp (max_level (statics f)) (max_level (dynamics f))).
    rewrite filter_cmp_rank.
    destruct (Z.compare_spec (filter_rank (max_level (statics f)))
                (filter_rank (max_level (dynamics f)))); eexists; (split; [done|]);
      rewrite ge_level_rank, Z.leb_le; lia.
  - intros ->. unfold register_callsite, base_interest in Hreg.
    destruct (if has_dynamics f && _ then _ else None) as [cs|]; [done|].
    destruct (Statics.enabled (statics f) m) eqn:Es; [done|].
    destruct (has_dynamics f) eqn:Eh; [done|]. unfold enabled. rewrite E1, E3. simpl.
    rewrite Es. by destruct (LevelFilter.ge_level _ _).
  - intros ->. destruct (dynamically_matched f m) eqn:Ed.
    + unfold dynamically_matched in Ed. bool_to_prop. destruct H0 as [cs Hcs].
      unfold register_callsite in Hreg. rewrite H, H1, Hcs in Hreg. simpl in Hreg. simplify_eq.
      simpl. unfold enabled. rewrite E2, E3, H, H1. simpl.
      destruct (LevelFilter.ge_level (max_level (dynamics f)) (Metadata.level m)); simpl.
      * rewrite bool_decide_true; [done|]. apply fold_by_cs. simpl.
        rewrite lookup_insert_eq. by eexists.
      * rewrite E1. destruct (Statics.enabled (statics f) m) eqn:Es.
        -- rewrite E1 in Hok. by rewrite (statics_enabled_bound _ _ Hok Es).
        -- by destruct (LevelFilter.ge_level _ _).
    + simpl. apply enabled_static; [done|]. rewrite E1.
      unfold register_callsite in Hreg. unfold dynamically_matched in Ed.
      destruct (has_dynamics f && Metadata.is_span m) eqn:Eh; simpl in *.
      * destruct (dynamics_matcher (dynamics f) m); [by rewrite bool_decide_true in Ed|].
        destruct (Statics.enabled (statics f) m); [done|]. unfold base_interest in Hreg.
        by destruct (has_dynamics f).
      * destruct (Statics.enabled (statics f) m); [done|]. unfold base_interest in Hreg.
        by destruct (has_dynamics f).
Qed.

(** ** The scope of a thread *)

(** The spans that each thread is in, newest first, each with the level that its
    matcher had when it was entered ([None] if the filter does not track it). *)
Abbreviation Entered := (gmap nat (list (Id * option LevelFilter.t))).
Definition entered (t : nat) (g : Entered) : list (Id * option LevelFilter.t) :=
  default [] (g !! t).

Definition tracked (f : EnvFilter) (id : Id) : option SpanMatcher :=
  if has_dynamics f then by_id f !! id else None.

(** Spans are exited in the reverse order of their entry, while the filter still
    tracks the spans that it tracked when they were entered. *)
Definition entered_step (f : EnvFilter) (g : Entered) (o : filter_op) : option Entered :=
  match o with
  | OAdd _ => None
  | OEnter t id =>
      Some (<[t := (id, (fun s => (span_level s).1) <$> tracked f id) :: entered t g]> g)
  | OExit t id =>
      match entered t g with
      | (id', level) :: rest =>
          if bool_decide (id' = id) &&
             Bool.eqb (bool_decide (is_Some level)) (bool_decide (is_Some (tracked f id)))
          then Some (<[t := rest]> g) else None
      | [] => None
      end
  | _ => Some g
  end.

Fixpoint run_entered (ops : list filter_op) (f : EnvFilter) (g : Entered) :
    option (EnvFilter * Entered) :=
  match ops with
  | [] => Some (f, g)
  | o :: ops => g ← entered_step f g o; run_entered ops (filter_step f o) g
  end.

Definition scope_ok (f : EnvFilter) (g : Entered) : Prop :=
  forall t, scope_of t f = omap snd (entered t g).

Lemma scope_of_insert t u l (f : gmap nat (list LevelFilter.t)) :
  default [] (<[t := l]> f !! u) = if decide (u = t) then l else default [] (f !! u).
Proof.
  case_decide; subst; [by rewrite lookup_insert_eq|by rewrite lookup_insert_ne].
Qed.

Lemma entered_insert t u l (g : Entered) :
  entered u (<[t := l]> g) = if decide (u = t) then l else entered u g.
Proof.
  unfold entered. case_decide; subst; [by rewrite lookup_insert_eq|by rewrite lookup_insert_ne].
Qed.

Lemma entered_step_ok f g o g' :
  scope_ok f g -> entered_step f g o = Some g' -> scope_ok (filter_step f o) g'.
Proof.
  intros Hok Hstep u. specialize (Hok u) as Hu.
  destruct o as [d|m|attrs id|t id|t id|id|id vs]; simpl in *; simplify_eq; try done.
  - unfold register_callsite. by repeat case_match.
  - unfold on_new_span. by repeat case_match.
  - unfold on_enter, tracked. rewrite entered_insert. destruct (has_dynamics f); simpl.
    2:{ destruct (decide (u = t)) as [->|]; done. }
    destruct (by_id f !! id) as [s|]; simpl; [|by destruct (decide (u = t)) as [->|]].
    destruct (span_level s) as [l s'] eqn:E. simpl. unfold scope_of at 1. simpl.
    rewrite scope_of_insert. destruct (decide (u = t)) as [->|]; [|done]. simpl. by rewrite Hu.
  - destruct (entered t g) as [|[id' l] rest] eqn:Et; [done|].
    destruct (bool_decide (id' = id)) eqn:Eid; [|done]. simpl in Hstep.
    destruct (Bool.eqb _ _) eqn:El; [|done]. simplify_eq. apply eqb_prop in El.
    unfold on_exit, cares_about_span, tracked in *. rewrite entered_insert.
    destruct (has_dynamics f); simpl in *.
    + destruct (by_id f !! id) as [s|]; simpl in *.
      * unfold scope_of at 1. simpl. rewrite scope_of_insert. destruct (decide (u = t)) as [->|]; [|done].
        rewrite Hu, Et. by destruct l.
      * destruct (decide (u = t)) as [->|]; [|done]. rewrite Hu, Et. by destruct l.
    + destruct (decide (u = t)) as [->|]; [|done]. rewrite Hu, Et. by destruct l.
  - unfold on_close. by repeat case_match.
  - unfold on_record. by repeat case_match.
Qed.

Lemma run_entered_ok ops f g f' g' :
  scope_ok f g -> run_entered ops f g = Some (f', g') ->
  scope_ok f' g' /\ f' = fold_left filter_step ops f.
Proof.
  revert f g. induction ops as [|o ops IH]; intros f g Hok Hrun; simpl in Hrun; [by simplify_eq|].
  destruct (entered_step f g o) as [g1|] eqn:E; simpl in Hrun; [|done].
  simpl. apply (IH (filter_step f o) g1); [|done]. by eapply entered_step_ok.
Qed.

Lemma from_directives_scope b ds t : scope_of t (from_directives b ds) = [].
Proof.
  unfold from_directives, add_directive. repeat case_match; simplify_eq/=; done.
Qed.

(** C31: when every thread exits its spans in reverse order, the scope that the filter
    keeps for a thread is the list of the levels of the tracked spans that the thread
    is in, as they were on entry; so an event is enabled exactly when one of these
    levels (within the dynamic maximum) or the static directives allow it, and
    leaving all spans restores the state without dynamic levels. *)
Theorem env_scope_balanced (b : Builder) (ds : list Directive) (ops : list filter_op)
    (f : EnvFilter) (g : Entered) (t : nat) (m : Metadata)
    (Hrun : run_entered ops (from_directives b ds) ∅ = Some (f, g))
    (Hm : Metadata.is_span m = false) :
  scope_of t f = omap snd (entered t g) /\
  (enabled t m f = true <->
     (has_dynamics f = true /\
      LevelFilter.ge_level (max_level (dynamics f)) (Metadata.level m) = true /\
      exists id l, (id, Some l) ∈ entered t g /\
        LevelFilter.ge_level l (Metadata.level m) = true) \/
     Statics.enabled (statics f) m = true).
Proof.
  destruct (run_entered_ok ops (from_directives b ds) ∅ f g) as [Hok Hf]; [|done|].
  { intros u. by rewrite from_directives_scope. }
  pose proof (reachable_statics b ds ops) as Hst. unfold reachable in Hst. rewrite <- Hf in Hst.
  split; [apply Hok|]. unfold enabled. rewrite Hm, Hok. cbv zeta. rewrite andb_false_l.
  assert (existsb (fun filter => LevelFilter.ge_level filter (Metadata.level m))
            (omap snd (entered t g)) = true <->
          exists id l, (id, Some l) ∈ entered t g /\
            LevelFilter.ge_level l (Metadata.level m) = true) as Hex.
  { rewrite existsb_exists. split.
    - intros (l & Hin & Hl). apply list_elem_of_In, list_elem_of_omap in Hin as ([id o] & Hin & Ho).
      simpl in Ho. subst. eauto.
    - intros (id & l & Hin & Hl). exists l. split; [|done].
      apply list_elem_of_In, list_elem_of_omap. by exists (id, Some l). }
  rewrite <- Hex. clear Hex.
  destruct (has_dynamics f), (LevelFilter.ge_level (max_level (dynamics f)) (Metadata.level m));
    simpl; try destruct (existsb _ _); try (by intuition congruence);
    destruct (LevelFilter.ge_level (max_level (statics f)) _) eqn:Es; try (by intuition congruence);
    (split; [done|]); intros [[? [? ?]]|He]; try done;
    by rewrite (statics_enabled_bound _ _ Hst He) in Es.
Qed.

(** ** The level of a span *)

Lemma collect_fields_Some fs l acc :
  forallb (fun m => bool_decide (is_Some (FieldSet.field fs (match_name m)))) l = true ->
  is_Some (collect_fields fs l acc).
Proof.
  revert acc. induction l as [|m l IH]; intros acc; simpl; [by eexists|].
  intros [Hm Hl]%andb_true_iff. apply bool_decide_eq_true in Hm as [f ->]. by apply IH.
Qed.

(** A directive that cares about a span has a matcher for it. *)
Lemma cares_field_matcher (d : Directive) m :
  cares_about d m = true -> is_Some (field_matcher d m).
Proof.
  simpl. intros H. unfold field_matcher. apply fmap_is_Some, collect_fields_Some.
  repeat case_match; done.
Qed.

Lemma matcher_fold m (l : list Directive) acc :
  Forall (fun d => cares_about d m = true) l ->
  fold_left (matcher_step m) l (acc, None) = (acc ++ omap (fun d => field_matcher d m) l, None).
Proof.
  intros Hl. revert acc. induction Hl as [|d l Hd _ IH]; intros acc; simpl.
  { by rewrite app_nil_r. }
  destruct (cares_field_matcher d m Hd) as [c Hc]. rewrite Hc. simpl. rewrite IH.
  by rewrite <- app_assoc.
Qed.

Lemma omap_matchers_nil m (l : list Directive) :
  Forall (fun d => cares_about d m = true) l ->
  omap (fun d => field_matcher d m) l = [] -> l = [].
Proof.
  destruct 1 as [|d l Hd _]; [done|]. simpl.
  by destruct (cares_field_matcher d m Hd) as [c ->].
Qed.

Lemma directives_for_cares (s : DirectiveSet Directive) m :
  Forall (fun d => cares_about d m = true) (DirectiveSet.directives_for s m).
Proof.
  apply Forall_forall. intros d Hd. unfold DirectiveSet.directives_for in Hd.
  by apply list_elem_of_In, filter_In in Hd as [_ Hd].
Qed.

Lemma dynamics_matcher_spec (s : DirectiveSet Directive) m :
  dynamics_matcher s m =
  match DirectiveSet.directives_for s m with
  | [] => None
  | ds => Some {| field_matches := omap (fun d => field_matcher d m) ds;
                  base_level := LevelFilter.OFF |}
  end.
Proof.
  unfold dynamics_matcher. pose proof (directives_for_cares s m) as Hc.
  rewrite matcher_fold by done. simpl.
  destruct (omap _ (DirectiveSet.directives_for s m)) as [|c l] eqn:E.
  - apply omap_matchers_nil in E; [|done]. by rewrite E.
  - destruct (DirectiveSet.directives_for s m); [done|]. do 2 f_equal. symmetry. exact E.
Qed.

(** The values recorded so far satisfy every field of the directive. *)
Definition satisfied (m : Metadata) (entries : list (Field * Value)) (d : Directive) : bool :=
  match field_matcher d m with
  | Some c => bool_decide (map_Forall (fun k v => hit entries k v = true) (cm_fields c))
  | None => false
  end.

Lemma record_update_entries cs entries ms recs :
  Forall2 (fun c s => matches_entries c entries s) cs ms ->
  Forall2 (fun c s => matches_entries c (entries ++ concat (map recorded recs)) s) cs
    (field_matches (fold_left record_update recs {| field_matches := ms; base_level := LevelFilter.OFF |})).
Proof.
  revert entries ms. induction recs as [|vs recs IH]; intros entries ms Hms; simpl.
  { by rewrite app_nil_r. }
  rewrite app_assoc. apply IH. clear IH.
  induction Hms as [|c s cs ms Hs _ IH]; simpl; constructor; [|done].
  unfold Record_.record. rewrite record_recorded. by apply record_entries.
Qed.

Lemma max_filter_rank l :
  filter_rank (default LevelFilter.OFF (max_filter l)) = fold_left Z.max (map filter_rank l) 0%Z.
Proof.
  assert (forall l f, filter_rank (fold_left ord_max l f) =
            fold_left Z.max (map filter_rank l) (filter_rank f)) as H.
  { clear l. induction l as [|g l IH]; intros f; simpl; [done|]. rewrite IH. f_equal.
    unfold ord_max. rewrite filter_cmp_rank.
    destruct (Z.compare_spec (filter_rank f) (filter_rank g)); lia. }
  destruct l as [|f l]; [done|]. simpl. rewrite H. f_equal.
  pose proof (filter_rank_bounds f). lia.
Qed.

Lemma fold_max_omap {A} (g : A -> option LevelFilter.t) (l : list A) a :
  (0 <= a)%Z ->
  fold_left Z.max (map filter_rank (omap g l)) a =
  fold_left Z.max (map (fun x => from_option filter_rank 0%Z (g x)) l) a.
Proof.
  revert a. induction l as [|x l IH]; intros a Ha; [done|]. simpl.
  destruct (g x) as [f|]; simpl.
  - apply IH. lia.
  - rewrite IH by done. f_equal. lia.
Qed.

Lemma omap_cons {A B} (f : A -> option B) x l :
  omap f (x :: l) = match f x with Some y => y :: omap f l | None => omap f l end.
Proof. done. Qed.

Lemma filter_level_spec c entries s :
  matches_entries c entries s ->
  (filter_level s).1 =
  if bool_decide (map_Forall (fun k v => hit entries k v = true) (cm_fields c))
  then Some (cm_level c) else None.
Proof.
  intros Hs. destruct (is_matched_spec _ _ _ Hs) as [Hm _]. unfold filter_level.
  pose proof (me_level _ _ _ Hs) as Hl. destruct (is_matched s) as [bm s']. simpl in *.
  rewrite <- Hl. replace bm with
    (bool_decide (map_Forall (fun k v => hit entries k v = true) (cm_fields c))); [done|].
  apply eq_bool_prop_intro. rewrite !Is_true_true, bool_decide_eq_true, Hm.
  by rewrite map_Forall_lookup.
Qed.

(** A span has a dynamic matcher exactly when some dynamic directive cares about
    it; and the level of the span is, after the values of its creation and of later
    [record] calls, the most verbose level of the directives that care about the
    span and whose field patterns all have been satisfied by some recorded value. *)
Theorem dynamic_span_level (dynamics : DirectiveSet Directive) (attrs : Attributes)
    (recs : list ValueSet) :
  let m := Attributes.metadata attrs in
  let entries := recorded (Attributes.values attrs) ++ concat (map recorded recs) in
  let caring := DirectiveSet.directives_for dynamics m in
  match dynamics_matcher dynamics m with
  | None => caring = []
  | Some cs =>
      caring <> [] /\
      filter_rank (span_level (fold_left record_update recs (callsite_to_span_match cs attrs))).1 =
      fold_left Z.max
        (map (fun d => if satisfied m entries d then filter_rank (level d) else 0%Z) caring) 0%Z
  end.
Proof.
  intros m entries caring. rewrite dynamics_matcher_spec. fold caring.
  pose proof (directives_for_cares dynamics m) as Hc. fold caring in Hc.
  destruct caring as [|d0 ds0] eqn:Ecaring; [done|]. rewrite <- Ecaring in *.
  split; [by rewrite Ecaring|]. clear Ecaring.
  set (cs := omap (fun d => field_matcher d m) caring).
  unfold callsite_to_span_match. cbn [field_matches base_level].
  set (ms := map _ cs).
  assert (Forall2 (fun c s => matches_entries c (recorded (Attributes.values attrs)) s) cs ms) as Hms.
  { subst ms. generalize cs. intros l. induction l as [|c l IH]; simpl; constructor; [|done].
    unfold Attributes.record. rewrite record_recorded.
    apply (record_entries c [] (to_span_match c)). split; [done| |done]. intros k. simpl. by rewrite lookup_fmap. }
  apply (record_update_entries _ _ _ recs) in Hms. fold entries in Hms.
  assert (base_level (fold_left record_update recs
            {| field_matches := ms; base_level := LevelFilter.OFF |}) = LevelFilter.OFF) as Hb.
  { generalize ms. clear. induction recs as [|r recs IH]; intros ms; [done|]. simpl. apply IH. }
  unfold span_level. cbn [fst]. rewrite Hb, max_filter_rank.
  assert (omap fst (map filter_level (field_matches (fold_left record_update recs
            {| field_matches := ms; base_level := LevelFilter.OFF |}))) =
          omap (fun c : CallsiteMatch =>
            if bool_decide (map_Forall (fun k v => hit entries k v = true) (cm_fields c))
            then Some (cm_level c) else None) cs) as ->.
  { clear Hb. clearbody cs ms. induction Hms as [|c s cs' ms' Hs _ IH]; [done|]. cbn [map].
    rewrite !omap_cons, (filter_level_spec c entries) by done. by rewrite IH. }
  rewrite fold_max_omap by done. subst cs.
  match goal with |- fold_left _ (map ?f _) _ = fold_left _ (map ?g _) _ =>
    enough (forall a, fold_left Z.max (map f (omap (fun d => field_matcher d m) caring)) a =
                      fold_left Z.max (map g caring) a) as H by apply H end.
  clear -Hc. induction Hc as [|d l Hd _ IH]; intros a; [done|].
  destruct (cares_field_matcher d m Hd) as [c Hcm].
  rewrite omap_cons, Hcm. cbn [map fold_left]. rewrite IH.
  f_equal. f_equal. unfold satisfied. rewrite Hcm. unfold field_matcher in Hcm.
  destruct (collect_fields _ _ _); simplify_eq/=. by case_bool_decide.
Qed.

(** ** Two ways to add a directive *)

(** A directive that names fields but neither a span nor a value, such as
    [\[{user}\]=debug], is dynamic for a filter built from it, which then filters by
    the spans that have the field, but only static for [add_directive]: a filter that
    it is added to has no dynamic directives and asks for no span. *)
Theorem add_directive_loses_dynamic (d : Directive)
    (Hdyn : is_dynamic d = true) (Hstat : is_static d = true) :
  let built := from_directives default_builder [d] in
  let added := add_directive d (from_directives default_builder []) in
  has_dynamics built = true /\ directives (dynamics built) = [d] /\
  has_dynamics added = false /\ directives (dynamics added) = [] /\
  directives (statics built) = directives (statics added).
Proof.
  unfold from_directives, make_tables, add_directive. simpl. unfold to_static at 1.
  rewrite Hdyn. simpl. unfold to_static. rewrite Hstat. simpl. done.
Qed.

End filter.

(** ** Concrete instances *)

#[local] Existing Instance example_externals.
Local Open Scope string_scope.

Definition example_dynamic : Directive :=
  {| in_span := Some "query"; target := Some "app"; level := LevelFilter.DEBUG;
     fields := [{| match_name := "user"; match_value := Some (MDebug {| md_pattern := "bob" |}) |}] |}.
Definition example_fields_only : Directive :=
  {| in_span := None; target := None; level := LevelFilter.DEBUG;
     fields := [{| match_name := "user"; match_value := None |}] |}.
Definition example_static : Directive :=
  {| in_span := None; target := Some "app"; level := LevelFilter.INFO; fields := [] |}.

Definition query_span : Metadata :=
  Metadata.new "query" "app::db" Level.TRACE None None None (FieldSet.new ["user"] 1) Kind.SPAN.
Definition db_event : Metadata :=
  Metadata.new "event" "app::db" Level.DEBUG None None None (FieldSet.new ["message"] 2) Kind.EVENT.
Definition query_attrs : Attributes :=
  Attributes.new query_span
    {| values := All [Some (VStr "bob")]; vs_fields := FieldSet.new ["user"] 1 |}.

Definition example_ops : list filter_op :=
  [ORegister query_span; ONewSpan query_attrs {| id_u64 := 1 |}; OEnter 0 {| id_u64 := 1 |}].
Definition example_builder : Builder := with_regex false default_builder.

Lemma env_filter_contract_witness :
  (register_callsite query_span
     (reachable example_builder [example_dynamic; example_static] [])).1 = Always /\
  enabled 0 query_span
    (fold_left filter_step example_ops
       (register_callsite query_span
          (reachable example_builder [example_dynamic; example_static] [])).2) = false.
Proof.
  pose proof (env_filter_contract example_builder [example_dynamic; example_static] []
    example_ops 0 query_span) as H.
  cbv zeta in H.
  destruct (register_callsite query_span (reachable example_builder
    [example_dynamic; example_static] [])) as [interest f1] eqn:E.
  destruct H as (_ & _ & H).
  { intros d. unfold example_ops. rewrite !elem_of_cons, elem_of_nil.
    intros [H|[H|[H|[]]]]; discriminate H. }
  assert (interest = Always) as Hi.
  { pose proof (f_equal fst E) as F. vm_compute in F. symmetry. exact F. }
  cbn [fst snd]. split; [exact Hi|]. rewrite (H Hi). reflexivity.
Defined.

Definition example_run :
    option (EnvFilter * gmap nat (list (Id * option LevelFilter.t))) :=
  run_entered example_ops (from_directives example_builder [example_dynamic; example_static]) ∅.

Lemma env_scope_balanced_witness :
  exists f g, example_run = Some (f, g) /\ scope_of 0 f = [LevelFilter.DEBUG] /\
    enabled 0 db_event f = true.
Proof.
  destruct example_run as [[f g]|] eqn:E; [|discriminate E].
  exists f, g. split; [reflexivity|].
  destruct (env_scope_balanced example_builder [example_dynamic; example_static] example_ops
    f g 0 db_event E eq_refl) as [H1 H2].
  assert (entered 0 g = [({| id_u64 := 1 |}, Some LevelFilter.DEBUG)]) as Hg.
  { vm_compute in E. injection E as <- <-. reflexivity. }
  split; [rewrite H1, Hg; reflexivity|].
  apply H2. left. rewrite Hg. vm_compute in E. injection E as <- <-.
  split; [reflexivity|]. split; [reflexivity|].
  exists {| id_u64 := 1 |}, LevelFilter.DEBUG. split; [left|reflexivity].
Defined.

Lemma add_directive_loses_dynamic_witness :
  has_dynamics (from_directives default_builder [example_fields_only]) = true /\
  has_dynamics (add_directive example_fields_only (from_directives default_builder [])) = false.
Proof.
  destruct (add_directive_loses_dynamic example_fields_only eq_refl eq_refl) as (H1 & _ & H2 & _).
  split; [exact H1|exact H2].
Defined.
