(* ===== verification/Escape.v ===== *)
(** * Escape: [tracing-subscriber/src/fmt/format/escape.rs]

    The writer that replaces the control characters of terminal escape sequences by text,
    and what it guarantees of its output. *)

From S2P Require Import Prelude.
From S2P Require Import Str.
From S2P Require Import Fields.

Local Open Scope string_scope.

(** ** [EscapingWriter::write_str] *)

(** The bytes that are written for one character, given by its own bytes. *)
Definition escape_char (ch : string) : string :=
  match ch with
  | EmptyString => EmptyString
  | String a rest =>
      let v := utf8_value a rest in
      if (v =? 27)%Z then "\x1b"
      else if (v =? 7)%Z then "\x07"
      else if (v =? 8)%Z then "\x08"
      else if (v =? 12)%Z then "\x0c"
      else if (v =? 127)%Z then "\x7f"
      else if (128 <=? v)%Z && (v <=? 159)%Z then "\u{" ++ hex_byte v ++ "}"
      else ch
  end.

(** The loop over [s.chars()]; [skip] bytes of the current character remain. *)
Fixpoint write_str_go (skip : nat) (s : string) : string :=
  match s with
  | EmptyString => EmptyString
  | String a s =>
      match skip with
      | S skip => write_str_go skip s
      | O =>
          escape_char (String a (str_take (utf8_width a - 1) s)) ++
          write_str_go (utf8_width a - 1) s
      end
  end.
Definition write_str (s : string) : string := write_str_go 0 s.

(** ** [EscapeGuard]

    Its [Debug] and [Display] pass what the value writes, string by string, through the
    escaping writer, or write it as it is. *)
Record EscapeGuard := { value : list string; sanitize : bool }.
Definition guard_fmt (self : EscapeGuard) : list string :=
  if sanitize self then map write_str (value self) else value self.

(** ** Characters *)

Fixpoint all_continuation (s : string) : bool :=
  match s with
  | EmptyString => true
  | String a s => is_continuation a && all_continuation s
  end.

(** The encoding of one character, by its length and its continuation bytes. *)
Definition is_char (ch : string) : bool :=
  match ch with
  | EmptyString => false
  | String a rest =>
      negb (is_continuation a) && (S (str_len rest) =? utf8_width a)%nat && all_continuation rest
  end.

(** A [str] is a sequence of characters. *)
Definition utf8 (s : string) : Prop := exists l, s = String.concat "" l /\ Forall is_char l.

(** The characters that a terminal takes for the start of a sequence. *)
Definition is_control (ch : string) : bool :=
  match ch with
  | EmptyString => false
  | String a rest =>
      let v := utf8_value a rest in
      (v =? 27)%Z || (v =? 7)%Z || (v =? 8)%Z || (v =? 12)%Z || (v =? 127)%Z ||
      ((128 <=? v)%Z && (v <=? 159)%Z)
  end.
Definition harmless (s : string) : Prop :=
  exists l, s = String.concat "" l /\ Forall is_char l /\ Forall (fun c => is_control c = false) l.

Lemma concat_cons (x : string) l : String.concat "" (x :: l) = x ++ String.concat "" l.
Proof. destruct l; cbn; [by rewrite append_nil_r|done]. Qed.

Lemma concat_app l k : String.concat "" (l ++ k)%list = String.concat "" l ++ String.concat "" k.
Proof.
  induction l as [|x l IH]; [done|]. rewrite <- app_comm_cons, !concat_cons, IH.
  by rewrite append_assoc.
Qed.

Lemma is_char_width a rest : is_char (String a rest) -> (utf8_width a - 1)%nat = str_len rest.
Proof.
  unfold is_char. rewrite !andb_True. intros [[_ Hlen%Is_true_true%Nat.eqb_eq] _]. lia.
Qed.

Lemma write_str_skip r s : write_str_go (str_len r) (r ++ s) = write_str_go 0 s.
Proof. by induction r. Qed.

Lemma write_str_chars l :
  Forall is_char l -> write_str (String.concat "" l) = String.concat "" (map escape_char l).
Proof.
  induction 1 as [|ch l Hch _ IH]; [done|]. cbn [map]. rewrite !concat_cons, <- IH.
  unfold write_str. destruct ch as [|a rest]; [done|].
  change (String a rest ++ String.concat "" l) with (String a (rest ++ String.concat "" l)).
  cbn [write_str_go].
  by rewrite (is_char_width _ _ Hch), str_take_app, write_str_skip.
Qed.

(** ASCII text is characters. *)
Fixpoint letters (s : string) : list string :=
  match s with EmptyString => [] | String a s => String a EmptyString :: letters s end.

Lemma concat_letters s : String.concat "" (letters s) = s.
Proof. induction s as [|a s IH]; [done|]. cbn [letters]. by rewrite concat_cons, IH. Qed.

Lemma harmless_letters s :
  forallb (fun c => is_char c && negb (is_control c)) (letters s) = true -> harmless s.
Proof.
  intros H. exists (letters s). rewrite concat_letters. split; [done|].
  rewrite forallb_forall in H. rewrite !Forall_forall.
  split; intros c Hc%list_elem_of_In; apply H, andb_true_iff in Hc as [Hc Hn];
    [by apply Is_true_true|by apply negb_true_iff].
Qed.

Lemma harmless_app s t : harmless s -> harmless t -> harmless (s ++ t).
Proof.
  intros (l & -> & Hl & Hl') (k & -> & Hk & Hk'). exists (l ++ k)%list.
  rewrite concat_app. split_and!; [done|by apply Forall_app..].
Qed.

Lemma harmless_hex v : (128 <= v <= 159)%Z -> harmless ("\u{" ++ hex_byte v ++ "}").
Proof.
  intros Hv. apply harmless_letters.
  assert (forallb (fun v => forallb (fun c => is_char c && negb (is_control c))
    (letters ("\u{" ++ hex_byte v ++ "}"))) (map Z.of_nat (seq 128 32)) = true) as H
    by (vm_compute; reflexivity).
  rewrite forallb_forall in H. apply (H v), in_map_iff. exists (Z.to_nat v). split; [lia|].
  apply in_seq. lia.
Qed.

Lemma escape_char_harmless ch : is_char ch -> harmless (escape_char ch).
Proof.
  intros Hch. destruct ch as [|a rest]; [done|]. unfold escape_char.
  destruct (utf8_value a rest =? 27)%Z eqn:H1; [by apply harmless_letters|].
  destruct (utf8_value a rest =? 7)%Z eqn:H2; [by apply harmless_letters|].
  destruct (utf8_value a rest =? 8)%Z eqn:H3; [by apply harmless_letters|].
  destruct (utf8_value a rest =? 12)%Z eqn:H4; [by apply harmless_letters|].
  destruct (utf8_value a rest =? 127)%Z eqn:H5; [by apply harmless_letters|].
  destruct ((128 <=? utf8_value a rest)%Z && (utf8_value a rest <=? 159)%Z) eqn:H6.
  { apply andb_true_iff in H6 as [??]. apply harmless_hex. lia. }
  exists [String a rest]. split_and!; [done|by constructor|constructor; [|done]].
  unfold is_control. by rewrite H1, H2, H3, H4, H5, H6.
Qed.

Lemma escape_char_id ch : is_control ch = false -> escape_char ch = ch.
Proof.
  destruct ch as [|a rest]; [done|]. unfold is_control, escape_char.
  rewrite !orb_false_iff. intros [[[[[-> ->] ->] ->] ->] ->]. done.
Qed.

(** C35: what the escaping writer writes for a [str] is a [str] without any of the
    characters that start or belong to a terminal's escape sequences (ESC, BEL, BS, FF,
    DEL and the C1 controls); a [str] without them is written as it is; and writing in
    pieces is writing at once. *)
Theorem escape_is_harmless (s t : string) :
  utf8 s ->
  harmless (write_str s) /\ (harmless s -> write_str s = s) /\
  write_str (s ++ t) = write_str s ++ write_str t.
Proof.
  intros (l & -> & Hl). split_and!.
  - rewrite write_str_chars by done. induction Hl as [|ch l Hch _ IH]; [by exists []|].
    cbn [map]. rewrite concat_cons. apply harmless_app; [by apply escape_char_harmless|done].
  - intros (k & Hk & Hkc & Hkn). rewrite Hk, write_str_chars by done. f_equal.
    rewrite <- (map_id k) at 2. apply map_ext_in. intros c Hc. apply escape_char_id.
    by eapply Forall_forall in Hkn; [|apply list_elem_of_In].
  - unfold write_str. induction Hl as [|ch l Hch _ IH]; [done|].
    rewrite concat_cons, append_assoc. destruct ch as [|a rest]; [done|].
    pose proof (fun x => eq_refl : String a rest ++ x = String a (rest ++ x)) as Hcons.
    rewrite !Hcons. cbn [write_str_go].
    by rewrite (is_char_width _ _ Hch), !str_take_app, !write_str_skip, IH, append_assoc.
Qed.

(** A message that tries to clear the screen. *)
Lemma escape_is_harmless_witness :
  let clear := bytes [27; 91; 50; 74; 194; 155; 50; 74; 226; 130; 172] in
  harmless (write_str clear) /\
  write_str clear = "\x1b[2J\u{9b}2J" ++ bytes [226; 130; 172].
Proof.
  split; [|vm_compute; reflexivity].
  refine (proj1 (escape_is_harmless (bytes [27; 91; 50; 74; 194; 155; 50; 74; 226; 130; 172]) "" _)).
  exists [bytes [27]; "["; "2"; "J"; bytes [194; 155]; "2"; "J"; bytes [226; 130; 172]].
  split; [vm_compute; reflexivity|]. repeat constructor.
Defined.
