(* ===== verification/Format.v ===== *)
(** * Format: [tracing-subscriber/src/fmt/format/mod.rs]

    The writer of the formatters, the default field formatter, and the full and compact
    formats of an event.  Formatting is a computation that writes text, may fail with a
    [fmt::Error], and reads the spans of the context. *)

From stdpp Require Import pretty.
From S2P Require Import Prelude.
From S2P Require Import Str.
From S2P Require Import Ints.
From S2P Require Import DateTime.
From S2P Require Import Levels.
From S2P Require Import Fields.
From S2P Require Import Meta.
From S2P Require Import FilterIds.
From S2P Require Import Extensions.
From S2P Require Import Registry.
From S2P Require Import Contexts.
From S2P Require Import LogBridge.
From S2P Require Import Escape.

Local Open Scope string_scope.

(** ** Outside of the repository

    The styles of the crate [nu_ansi_term]; the [Debug] output of floats and of [str]s;
    whether the feature [tracing-log] is on, and the callsites of that crate. *)
Inductive Color := Purple | Blue | Green | Yellow | Red.
Inductive Style := Plain | Bold | Dimmed | Italic | Fg (color : Color).

Class FmtCrates := {
  style_prefix : Style -> string;
  style_suffix : Style -> string;
  f64_debug : f64 -> list string;
  str_debug : string -> list string;
  tracing_log : bool;
  log_callsite : Level.t -> Identifier;
}.

(** [Style::new()] has no attributes: it writes no codes. *)
Class FmtCratesLaws (C : FmtCrates) := {
  plain_prefix : style_prefix Plain = "";
  plain_suffix : style_suffix Plain = "";
}.

Section values.
Context {C : FmtCrates}.

Definition paint (st : Style) (s : string) : string := style_prefix st ++ s ++ style_suffix st.

(** The strings that the [Debug] of a value writes. *)
Definition debug_fmt (v : DebugValue) : list string :=
  match v with
  | DebugF64 v => f64_debug v
  | DebugInt v => [pretty v]
  | DebugBool b => [if b then "true" else "false"]
  | DebugStr s => str_debug s
  | HexBytes l => [hex_bytes_fmt l]
  | DisplayValue l | DebugChunks l => l
  end.

(** ** [struct Writer], on a [String] *)

Record Writer := { text : string; is_ansi : bool; ansi_sanitization : bool }.

Definition writer_new (s : string) : Writer :=
  {| text := s; is_ansi := false; ansi_sanitization := true |}.
Definition with_ansi (b : bool) (self : Writer) : Writer :=
  {| text := text self; is_ansi := b; ansi_sanitization := ansi_sanitization self |}.
Definition with_ansi_sanitization (b : bool) (self : Writer) : Writer :=
  {| text := text self; is_ansi := is_ansi self; ansi_sanitization := b |}.
Definition write_str (s : string) (self : Writer) : Writer :=
  {| text := text self ++ s; is_ansi := is_ansi self;
     ansi_sanitization := ansi_sanitization self |}.

Definition bold (self : Writer) : Style := if is_ansi self then Bold else Plain.
Definition dimmed (self : Writer) : Style := if is_ansi self then Dimmed else Plain.
Definition italic (self : Writer) : Style := if is_ansi self then Italic else Plain.

(** ** [struct DefaultVisitor] *)

Record DefaultVisitor := { dv_writer : Writer; is_empty : bool; dv_result : result unit unit }.

Definition visitor_new (w : Writer) (is_empty : bool) : DefaultVisitor :=
  {| dv_writer := w; is_empty := is_empty; dv_result := Ok tt |}.

(** A [write!] to the writer, whose result is stored. *)
Definition dv_write (s : string) (self : DefaultVisitor) : DefaultVisitor :=
  {| dv_writer := write_str s (dv_writer self); is_empty := is_empty self; dv_result := Ok tt |}.

Definition maybe_pad (self : DefaultVisitor) : DefaultVisitor :=
  if is_empty self then
    {| dv_writer := dv_writer self; is_empty := false; dv_result := dv_result self |}
  else dv_write " " self.

Definition escaped (w : Writer) (value : list string) : string :=
  String.concat "" (guard_fmt {| value := value; sanitize := ansi_sanitization w |}).

(** The text of a field. *)
Definition field_text (w : Writer) (name : string) (value : DebugValue) : string :=
  if (name =? "message")%string then escaped w (debug_fmt value)
  else
    (if starts_with name "r#" then paint (italic w) (str_drop 2 name) else paint (italic w) name)
    ++ paint (dimmed w) "=" ++ String.concat "" (debug_fmt value).

(** The methods of [Visit]; [Field::name] may panic. *)
Definition record_debug (field : Field) (value : DebugValue) (st : outcome DefaultVisitor) :
    outcome DefaultVisitor :=
  self ← st;
  match dv_result self with
  | Err _ => Done self
  | Ok _ =>
      name ← Field.name field;
      if tracing_log && starts_with name "log." then Done self
      else
        let self := maybe_pad self in
        Done (dv_write (field_text (dv_writer self) name value) self)
  end.

Definition record_str (field : Field) (value : string) (st : outcome DefaultVisitor) :
    outcome DefaultVisitor :=
  self ← st;
  match dv_result self with
  | Err _ => Done self
  | Ok _ =>
      name ← Field.name field;
      if (name =? "message")%string then record_debug field (DebugChunks [value]) (Done self)
      else record_debug field (DebugStr value) (Done self)
  end.

(** [ErrorSourceList] *)
Definition error_source_list (w : Writer) (sources : list (list string)) : string :=
  "[" ++ String.concat ", " (map (escaped w) sources) ++ "]".

Definition error_text (w : Writer) (name : string) (value : ErrorValue) : string :=
  match error_sources value with
  | [] => escaped w (error_display value)
  | sources =>
      escaped w (error_display value) ++ " " ++ paint (italic w) name ++
      paint (italic w) ".sources" ++ paint (dimmed w) "=" ++ error_source_list w sources
  end.
Definition record_error (field : Field) (value : ErrorValue) (st : outcome DefaultVisitor) :
    outcome DefaultVisitor :=
  self ← st;
  match error_sources value with
  | [] => record_debug field (DebugChunks [error_text (dv_writer self) "" value]) (Done self)
  | _ =>
      name ← Field.name field;
      record_debug field (DebugChunks [error_text (dv_writer self) name value]) (Done self)
  end.

Definition default_visitor : Visit (outcome DefaultVisitor) :=
  let default := default_visit record_debug in {|
  record_f64 := record_f64 default;
  record_i64 := record_i64 default;
  record_u64 := record_u64 default;
  record_i128 := record_i128 default;
  record_u128 := record_u128 default;
  record_bool := record_bool default;
  Fields.record_str := record_str;
  record_bytes := record_bytes default;
  Fields.record_error := record_error;
  Fields.record_debug := record_debug;
|}.

(** [FormatFields::format_fields] of a [MakeVisitor]; [finish] is that of the visitor. *)
Definition visitor_format_fields {V} (make_visitor : Writer -> V) (visit : Visit (outcome V))
    (finish : V -> Writer * result unit unit) (fields : ValueSet) (w : Writer) :
    outcome (Writer * result unit unit) :=
  v ← ValueSet.record fields visit (Done (make_visitor w));
  Done (finish v).

(** [DefaultFields::make_visitor] *)
Definition default_format_fields : ValueSet -> Writer -> outcome (Writer * result unit unit) :=
  visitor_format_fields (fun w => visitor_new w true) default_visitor
    (fun v => (dv_writer v, dv_result v)).

(** ** [FieldFn], [FieldFnVisitor]

    A function that writes a field; after an error no field is written. *)
Definition FieldFn : Type := Writer -> Field -> DebugValue -> outcome (Writer * result unit unit).
Record FieldFnVisitor := { fn_f : FieldFn; fn_writer : Writer; fn_result : result unit unit }.

Definition field_fn_visitor_new (f : FieldFn) (w : Writer) : FieldFnVisitor :=
  {| fn_f := f; fn_writer := w; fn_result := Ok tt |}.
Definition field_fn_record_debug (field : Field) (value : DebugValue)
    (st : outcome FieldFnVisitor) : outcome FieldFnVisitor :=
  self ← st;
  match fn_result self with
  | Ok _ =>
      '(w, r) ← fn_f self (fn_writer self) field value;
      Done {| fn_f := fn_f self; fn_writer := w; fn_result := r |}
  | Err _ => Done self
  end.
Definition field_fn_visitor : Visit (outcome FieldFnVisitor) :=
  default_visit field_fn_record_debug.
Definition field_fn_format_fields (f : FieldFn) :
    ValueSet -> Writer -> outcome (Writer * result unit unit) :=
  visitor_format_fields (field_fn_visitor_new f) field_fn_visitor
    (fun v => (fn_writer v, fn_result v)).

(** ** [FormattedFields] of [fmt_layer.rs], [trait FormatFields] *)

Record FormattedFields := { ff_fields : string; was_ansi : bool; was_ansi_sanitized : bool }.

Definition formatted_new (s : string) : FormattedFields :=
  {| ff_fields := s; was_ansi := false; was_ansi_sanitized := true |}.
Definition as_writer (self : FormattedFields) : Writer :=
  with_ansi_sanitization (was_ansi_sanitized self)
    (with_ansi (was_ansi self) (writer_new (ff_fields self))).
(** What was written through the writer. *)
Definition with_fields (s : string) (self : FormattedFields) : FormattedFields :=
  {| ff_fields := s; was_ansi := was_ansi self; was_ansi_sanitized := was_ansi_sanitized self |}.

Record FormatFields := {
  format_fields : ValueSet -> Writer -> outcome (Writer * result unit unit);
  add_fields : FormattedFields -> ValueSet -> outcome (FormattedFields * result unit unit);
}.

(** The provided method. *)
Definition default_add_fields
    (format_fields : ValueSet -> Writer -> outcome (Writer * result unit unit))
    (current : FormattedFields) (fields : ValueSet) :
    outcome (FormattedFields * result unit unit) :=
  let current :=
    if (ff_fields current =? "")%string then current
    else with_fields (ff_fields current ++ " ") current in
  '(w, r) ← format_fields fields (as_writer current);
  Done (with_fields (text w) current, r).

Definition default_fields : FormatFields := {|
  format_fields := default_format_fields;
  add_fields := default_add_fields default_format_fields;
|}.

End values.

(** ** What the default field formatter writes *)

Section default_fields_spec.
Context {C : FmtCrates}.

#[local] Arguments record_debug : simpl never.
#[local] Arguments record_str : simpl never.
#[local] Arguments record_error : simpl never.
#[local] Arguments write_str : simpl never.

Definition hidden (name : string) : bool := tracing_log && starts_with name "log.".

(** The text of a value, if it has one. *)
Fixpoint shown (w : Writer) (name : string) (v : Value) : option string :=
  match v with
  | VF64 v => Some (field_text w name (DebugF64 v))
  | VI64 v | VU64 v | VI128 v | VU128 v => Some (field_text w name (DebugInt v))
  | VBool v => Some (field_text w name (DebugBool v))
  | VStr v =>
      Some (field_text w name (if (name =? "message")%string then DebugChunks [v] else DebugStr v))
  | VBytes v => Some (field_text w name (HexBytes v))
  | VError v => Some (field_text w name (DebugChunks [error_text w name v]))
  | VDebug v => Some (field_text w name v)
  | VEmpty | VNone => None
  | VSome v => shown w name v
  end.

Definition name_of (f : Field) : string := match Field.name f with Done nm => nm | Panic => "" end.
Definition named (vs : ValueSet) : Prop :=
  Forall (fun x => is_Some (match Field.name x.1 with Done nm => Some nm | Panic => None end))
    (recorded vs).

(** The texts of the fields of a value set that are not hidden. *)
Definition piece (w : Writer) (x : Field * Value) : option string :=
  if hidden (name_of x.1) then None else shown w (name_of x.1) x.2.
Definition pieces (w : Writer) (vs : ValueSet) : list string := omap (piece w) (recorded vs).

(** The pieces after what a visitor has written already. *)
Definition glue (first : bool) (l : list string) : string :=
  if first then join " " l else String.concat "" (map (fun s => " " ++ s) l).

Lemma join_cons sep x l : join sep (x :: l) = x ++ String.concat "" (map (fun s => sep ++ s) l).
Proof.
  revert x. induction l as [|y l IH]; intros x; [cbn; by rewrite append_nil_r|].
  cbn [map]. rewrite concat_cons. change (join sep (x :: y :: l)) with (x ++ sep ++ join sep (y :: l)).
  rewrite IH. by rewrite append_assoc.
Qed.

Lemma glue_cons b x l : glue b (x :: l) = (if b then x else " " ++ x) ++ glue false l.
Proof.
  destruct b; unfold glue; [by rewrite join_cons|]. cbn [map]. by rewrite concat_cons.
Qed.

(** A visitor that has not failed, and what it becomes. *)
Definition wrote (l : list string) (v : DefaultVisitor) : DefaultVisitor :=
  {| dv_writer := write_str (glue (is_empty v) l) (dv_writer v);
     is_empty := is_empty v && bool_decide (l = []); dv_result := Ok tt |}.

Lemma write_str_app s t w : write_str t (write_str s w) = write_str (s ++ t) w.
Proof. unfold write_str. cbn. by rewrite append_assoc. Qed.

Lemma write_str_nil w : write_str "" w = w.
Proof. destruct w. unfold write_str. cbn. by rewrite append_nil_r. Qed.

Lemma record_debug_spec f nm d v :
  Field.name f = Done nm -> dv_result v = Ok tt ->
  record_debug f d (Done v) =
  Done (wrote (if hidden nm then [] else [field_text (dv_writer v) nm d]) v).
Proof.
  intros Hf Hv. unfold record_debug, hidden. cbn [mbind outcome_bind]. rewrite Hv, Hf.
  cbn [mbind outcome_bind]. destruct (tracing_log && starts_with nm "log.").
  - unfold wrote. destruct v as [w b r]. cbn in *. subst r. do 2 f_equal.
    + unfold glue. cbn. destruct b; by rewrite write_str_nil.
    + by rewrite andb_true_r.
  - unfold wrote, maybe_pad. destruct v as [w [] r]; cbn -[write_str] in *; subst r; [done|].
    unfold dv_write. cbn -[write_str]. by rewrite write_str_app.
Qed.

Lemma value_record_spec f v vis :
  Field.name f <> Panic -> dv_result vis = Ok tt ->
  value_record v f default_visitor (Done vis) =
  Done (wrote (match piece (dv_writer vis) (f, v) with Some s => [s] | None => [] end) vis).
Proof.
  intros Hf Hv. unfold piece, name_of. cbn [fst snd].
  destruct (Field.name f) as [nm|] eqn:Hnm; [|done].
  assert (vis = wrote [] vis) as Hnil.
  { unfold wrote. destruct vis as [w b r]. cbn in *. subst r. f_equal.
    - unfold glue. cbn. destruct b; by rewrite write_str_nil.
    - by rewrite andb_true_r. }
  induction v; cbn [value_record shown]; try (cbn; rewrite (record_debug_spec f nm) by done);
    try (by destruct (hidden nm)).
  - cbn. unfold record_str. cbn [mbind outcome_bind]. rewrite Hv, Hnm. cbn [mbind outcome_bind].
    destruct (nm =? "message")%string eqn:Hm; rewrite (record_debug_spec f nm) by done;
      by destruct (hidden nm).
  - cbn. unfold record_error. cbn [mbind outcome_bind].
    unfold error_text. destruct (error_sources v); rewrite ?Hnm; cbn [mbind outcome_bind];
      rewrite (record_debug_spec f nm) by done; by destruct (hidden nm).
  - destruct (hidden nm); by rewrite <- Hnil.
  - destruct (hidden nm); by rewrite <- Hnil.
Qed.

(** The texts depend on the flags of the writer only. *)
Lemma piece_flags w w' x :
  is_ansi w = is_ansi w' -> ansi_sanitization w = ansi_sanitization w' -> piece w x = piece w' x.
Proof.
  destruct w, w'. cbn. intros -> ->. unfold piece. destruct (hidden _); [done|].
  destruct x as [f y]. cbn. by induction y.
Qed.

Lemma pieces_flags w w' vs :
  is_ansi w = is_ansi w' -> ansi_sanitization w = ansi_sanitization w' ->
  pieces w vs = pieces w' vs.
Proof.
  intros H1 H2. apply list_omap_ext. induction (recorded vs); constructor; [|done].
  by apply piece_flags.
Qed.

Lemma wrote_wrote l k v : wrote k (wrote l v) = wrote (l ++ k)%list v.
Proof.
  unfold wrote. cbn -[write_str]. rewrite write_str_app. f_equal.
  - f_equal. destruct l as [|x l]; cbn [app].
    + rewrite andb_true_r. unfold glue at 1. destruct (is_empty v); done.
    + rewrite andb_false_r, !glue_cons, append_assoc. f_equal. unfold glue.
      by rewrite map_app, concat_app.
  - destruct l; cbn; [by rewrite andb_true_r|by rewrite !andb_false_r].
Qed.

Lemma default_format_fields_spec vs w :
  named vs ->
  default_format_fields vs w = Done (write_str (join " " (pieces w vs)) w, Ok tt).
Proof.
  intros Hn. unfold default_format_fields, visitor_format_fields. rewrite record_recorded.
  assert (forall l v, Forall (fun x => Field.name x.1 <> Panic) l -> dv_result v = Ok tt ->
    fold_left (fun st '(f, y) => value_record y f default_visitor st) l (Done v) =
    Done (wrote (omap (piece (dv_writer v)) l) v)) as Hfold.
  { clear. intros l. induction l as [|[f y] l IH]; intros v Hl Hv.
    - cbn. f_equal. unfold wrote. destruct v as [w b r]. cbn in *. subst r.
      rewrite andb_true_r. unfold glue. cbn. destruct b; by rewrite write_str_nil.
    - apply Forall_cons in Hl as [Hf Hl]. cbn [fold_left].
      rewrite value_record_spec by done. rewrite IH by done. rewrite wrote_wrote. do 2 f_equal.
      rewrite (list_omap_ext _ (piece (dv_writer v)) l l)
        by (clear; induction l; constructor; [by apply piece_flags|done]).
      cbn. by destruct (piece (dv_writer v) (f, y)). }
  rewrite Hfold; [done| |done]. eapply Forall_impl; [exact Hn|]. intros [f y] [nm H]. cbn in *.
  by destruct (Field.name f).
Qed.

Lemma default_add_fields_spec ff vs :
  named vs ->
  default_add_fields default_format_fields ff vs =
    Done (with_fields
      (if (ff_fields ff =? "")%string then join " " (pieces (as_writer ff) vs)
       else ff_fields ff ++ " " ++ join " " (pieces (as_writer ff) vs)) ff, Ok tt).
Proof.
  intros Hn. unfold default_add_fields. destruct (ff_fields ff =? "")%string eqn:He;
    rewrite default_format_fields_spec by done; cbn [mbind outcome_bind]; do 2 f_equal.
  - apply String.eqb_eq in He. unfold with_fields, as_writer, write_str. cbn. by rewrite He.
  - rewrite (pieces_flags _ (as_writer ff)) by done.
    unfold with_fields, as_writer, write_str. cbn. by rewrite append_assoc.
Qed.

(** The default field formatter never fails on fields that have a name, and appends to
    the writer the texts of the recorded fields, in their order, separated by single
    spaces: nothing for an absent value or, with the bridge to [log], for the fields that
    carry a record's metadata; the escaped value alone for [message], the name without
    [r#], an equals sign and the value for every other field.  Adding fields to those of a
    span puts one space between the two, if there were any. *)
Theorem default_fields_write (vs : ValueSet) (w : Writer) (ff : FormattedFields) :
  named vs ->
  format_fields default_fields vs w = Done (write_str (join " " (pieces w vs)) w, Ok tt) /\
  add_fields default_fields ff vs =
    Done (with_fields
      (if (ff_fields ff =? "")%string then join " " (pieces (as_writer ff) vs)
       else ff_fields ff ++ " " ++ join " " (pieces (as_writer ff) vs)) ff, Ok tt).
Proof.
  intros Hn. split; [by apply default_format_fields_spec|by apply default_add_fields_spec].
Qed.

End default_fields_spec.
