(* ===== verification/FormatEvent.v ===== *)
(** * FormatEvent: the event formats of [tracing-subscriber/src/fmt/format/mod.rs]

    [Format] with its settings, the full and the compact single-line formats, and the lines
    that they write. *)

From stdpp Require Import pretty.
From S2P Require Import Prelude.
From S2P Require Import Str.
From S2P Require Import DateTime.
From S2P Require Import Levels.
From S2P Require Import Fields.
From S2P Require Import Meta.
From S2P Require Import FilterIds.
From S2P Require Import Extensions.
From S2P Require Import Registry.
From S2P Require Import Contexts.
From S2P Require Import LogBridge.
From S2P Require Import Escape.
From S2P Require Import Format.

Local Open Scope string_scope.

(** What the formatters ask of the program around them: the thread that runs, and the
    static [MAX_LEN] of [FmtThreadName], in the state of the layers. *)
Record Thread := { thread_name : option string; thread_id : Z }.

Class FmtEnv `{E : Env} := {
  this_thread : UserState -> Thread;
  max_len : UserState -> Z;
  set_max_len : Z -> UserState -> UserState;
}.

(** The slot of [FormattedFields<N>] in the type map of a span. *)
Class FieldsSlot `{E : Env} := {
  fields_ty : TypeId;
  to_val : FormattedFields -> Val fields_ty;
  of_val : Val fields_ty -> FormattedFields;
  of_to_val f : of_val (to_val f) = f;
}.

Section format.
Context `{E : Env} {P : PoolOps DataInner} {C : FmtCrates} `{!FmtEnv} `{!FieldsSlot}.

(** Enough for the scopes that are walked. *)
Variable fuel : nat.

(** ** Computations that write

    They write to a [Writer] and return, or fail with a [fmt::Error]. *)
Definition FM (A : Type) : Type := Writer -> M (Writer * result A unit).

#[global] Instance FM_ret : MRet FM := fun A a w => mret (w, Ok a).
#[global] Instance FM_bind : MBind FM := fun A B f m w =>
  '(w, r) ← m w;
  match r with Ok a => f a w | Err e => mret (w, Err e) end.

Definition write (s : string) : FM unit := fun w => mret (write_str s w, Ok tt).
Definition ask {A} (f : Writer -> A) : FM A := fun w => mret (w, Ok (f w)).
Definition get_m {A} (m : M A) : FM A := fun w => a ← m; mret (w, Ok a).
(** [m.is_err()] *)
Definition is_err (m : FM unit) : FM bool := fun w =>
  '(w, r) ← m w; mret (w, Ok (match r with Ok _ => false | Err _ => true end)).
Definition write_when (b : bool) (m : FM unit) : FM unit := if b then m else mret tt.

Fixpoint for_each {A} (f : A -> FM unit) (l : list A) : FM unit :=
  match l with
  | [] => mret tt
  | x :: l => _ ← f x; for_each f l
  end.

(** ** [struct Format] *)

Record Format := {
  timer : FM unit;
  ansi : option bool;
  display_timestamp : bool;
  display_target : bool;
  display_level : bool;
  display_thread_id : bool;
  display_thread_name : bool;
  display_filename : bool;
  display_line_number : bool;
}.

Definition default_format (system_time : FM unit) : Format := {|
  timer := system_time; ansi := None; display_timestamp := true; display_target := true;
  display_level := true; display_thread_id := false; display_thread_name := false;
  display_filename := false; display_line_number := false;
|}.

Definition with_timer (timer : FM unit) (self : Format) : Format :=
  {| timer := timer; ansi := ansi self; display_timestamp := display_timestamp self;
     display_target := display_target self; display_level := display_level self;
     display_thread_id := display_thread_id self; display_thread_name := display_thread_name self;
     display_filename := display_filename self; display_line_number := display_line_number self |}.
Definition without_time (self : Format) : Format :=
  {| timer := mret tt; ansi := ansi self; display_timestamp := false;
     display_target := display_target self; display_level := display_level self;
     display_thread_id := display_thread_id self; display_thread_name := display_thread_name self;
     display_filename := display_filename self; display_line_number := display_line_number self |}.
Definition format_with_ansi (b : bool) (self : Format) : Format :=
  {| timer := timer self; ansi := Some b; display_timestamp := display_timestamp self;
     display_target := display_target self; display_level := display_level self;
     display_thread_id := display_thread_id self; display_thread_name := display_thread_name self;
     display_filename := display_filename self; display_line_number := display_line_number self |}.
Definition with_target (b : bool) (self : Format) : Format :=
  {| timer := timer self; ansi := ansi self; display_timestamp := display_timestamp self;
     display_target := b; display_level := display_level self;
     display_thread_id := display_thread_id self; display_thread_name := display_thread_name self;
     display_filename := display_filename self; display_line_number := display_line_number self |}.
Definition with_level (b : bool) (self : Format) : Format :=
  {| timer := timer self; ansi := ansi self; display_timestamp := display_timestamp self;
     display_target := display_target self; display_level := b;
     display_thread_id := display_thread_id self; display_thread_name := display_thread_name self;
     display_filename := display_filename self; display_line_number := display_line_number self |}.
Definition with_thread_ids (b : bool) (self : Format) : Format :=
  {| timer := timer self; ansi := ansi self; display_timestamp := display_timestamp self;
     display_target := display_target self; display_level := display_level self;
     display_thread_id := b; display_thread_name := display_thread_name self;
     display_filename := display_filename self; display_line_number := display_line_number self |}.
Definition with_thread_names (b : bool) (self : Format) : Format :=
  {| timer := timer self; ansi := ansi self; display_timestamp := display_timestamp self;
     display_target := display_target self; display_level := display_level self;
     display_thread_id := display_thread_id self; display_thread_name := b;
     display_filename := display_filename self; display_line_number := display_line_number self |}.
Definition with_file (b : bool) (self : Format) : Format :=
  {| timer := timer self; ansi := ansi self; display_timestamp := display_timestamp self;
     display_target := display_target self; display_level := display_level self;
     display_thread_id := display_thread_id self; display_thread_name := display_thread_name self;
     display_filename := b; display_line_number := display_line_number self |}.
Definition with_line_number (b : bool) (self : Format) : Format :=
  {| timer := timer self; ansi := ansi self; display_timestamp := display_timestamp self;
     display_target := display_target self; display_level := display_level self;
     display_thread_id := display_thread_id self; display_thread_name := display_thread_name self;
     display_filename := display_filename self; display_line_number := b |}.
Definition with_source_location (b : bool) (self : Format) : Format :=
  with_file b (with_line_number b self).

(** ** The timers, of [fmt/time/mod.rs]

    [system_now] and [instant_now] are the clocks; an [Instant] counts nanoseconds. *)
Definition unit_time : FM unit := mret tt.
Definition system_time (system_now : M SystemTime) : FM unit :=
  now ← get_m system_now;
  t ← get_m (lift (DateTime.from debug_assertions now));
  write (DateTime.fmt t).

Record Uptime := { epoch : Z }.
Definition uptime (instant_now : M Z) : M Uptime := t ← instant_now; mret {| epoch := t |}.
Definition uptime_from (epoch : Z) : Uptime := {| epoch := epoch |}.
(** [{:4}] pads on the left with spaces; [elapsed] saturates at zero. *)
Definition uptime_time (instant_now : M Z) (self : Uptime) : FM unit :=
  now ← get_m instant_now;
  let e := Z.max 0 (now - epoch self) in
  let secs := pretty (e / 1000000000)%Z in
  write (String.concat "" (repeat " " (4 - str_len secs)) ++ secs ++ "." ++
         pad 9 (e mod 1000000000)%Z ++ "s").

(** ** The parts of a line *)

(** [FmtLevel] *)
Definition level_str (l : Level.t) : string :=
  match Level.inner l with
  | Level.Trace => "TRACE"
  | Level.Debug => "DEBUG"
  | Level.Info => " INFO"
  | Level.Warn => " WARN"
  | Level.Error => "ERROR"
  end.
Definition level_color (l : Level.t) : Color :=
  match Level.inner l with
  | Level.Trace => Purple
  | Level.Debug => Blue
  | Level.Info => Green
  | Level.Warn => Yellow
  | Level.Error => Red
  end.
Definition fmt_level (l : Level.t) (ansi : bool) : string :=
  if ansi then paint (Fg (level_color l)) (level_str l) else level_str l.

(** [format_timestamp]: an error of the timer is replaced, not passed on. *)
Definition format_timestamp (self : Format) : FM unit :=
  if negb (display_timestamp self) then mret tt
  else
    ansi ← ask is_ansi;
    if (ansi : bool) then
      _ ← write (style_prefix Dimmed);
      err ← is_err (timer self);
      _ ← write_when err (write "<unknown time>");
      write (style_suffix Dimmed ++ " ")
    else
      err ← is_err (timer self);
      _ ← write_when err (write "<unknown time>");
      write " ".

(** [FmtThreadName]: the name, padded on the left to the longest length in bytes of the
    names seen so far; [{:>width$}] counts characters. *)
Definition pad_left (width : Z) (s : string) : string :=
  String.concat "" (repeat " " (Z.to_nat width - length (char_indices s))) ++ s.
Definition fmt_thread_name (name : string) : M string :=
  max ← gets (fun w => max_len (user w));
  let len := Z.of_nat (str_len name) in
  _ ← (if (max <? len)%Z then modify (fun w => with_user (set_max_len len (user w)) w)
       else mret tt);
  mret (pad_left max name).

(** [{:0>2?}] of a [ThreadId] *)
Definition fmt_thread_id (id : Z) : string := "ThreadId(" ++ pad 2 id ++ ")".

Definition format_thread (self : Format) : FM unit :=
  thread ← get_m (gets (fun w => this_thread (user w)));
  _ ← (if display_thread_name self then
         match thread_name thread with
         | Some name => s ← get_m (fmt_thread_name name); write (s ++ " ")
         | None =>
             write_when (negb (display_thread_id self))
               (write (fmt_thread_id (thread_id thread) ++ " "))
         end
       else mret tt);
  write_when (display_thread_id self) (write (fmt_thread_id (thread_id thread) ++ " ")).

(** The metadata that is shown. *)
Definition shown_metadata (ev : Event) : M Metadata :=
  if tracing_log then
    m ← lift (normalized_metadata log_callsite ev); mret (default (Event.metadata ev) m)
  else mret (Event.metadata ev).

(** The writer of [format_event], with the setting of the [Format] if it has one. *)
Definition set_ansi (self : Format) (w : Writer) : Writer :=
  match ansi self with Some b => with_ansi b w | None => w end.

(** ** [FmtContext] of [fmt_layer.rs] *)
Record FmtContext := { ctx : Context_; fmt_fields : FormatFields }.

(** The spans of a scope from its root; [registry] is the subscriber of the context. *)
Definition spans_from_root (cx : Context_) (scope : Scope) : M (list SpanRef) :=
  match subscriber cx with
  | Some registry => from_root fuel registry scope
  | None => mret []
  end.

(** Its methods, for the event that is formatted; [visit] may fail. *)
Definition ctx_format_fields (self : FmtContext) : ValueSet -> Writer ->
    outcome (Writer * result unit unit) := format_fields (fmt_fields self).
Definition ctx_metadata (id : Id) (self : FmtContext) : M (option Metadata) :=
  Context_.metadata id (ctx self).
Definition ctx_span (id : Id) (self : FmtContext) : M (option SpanRef) :=
  Context_.span id (ctx self).
Definition ctx_exists (id : Id) (self : FmtContext) : M bool := Context_.exists_ id (ctx self).
Definition ctx_lookup_current (self : FmtContext) : M (option SpanRef) :=
  Context_.lookup_current (ctx self).
Definition ctx_current_span (self : FmtContext) : M CurrentInner :=
  Context_.current_span (ctx self).
Definition ctx_parent_span (event : Event) (self : FmtContext) : M (option SpanRef) :=
  Context_.event_span event (ctx self).
Definition ctx_span_scope (id : Id) (self : FmtContext) : M (option Scope) :=
  Context_.span_scope id (ctx self).
Definition ctx_event_scope (event : Event) (self : FmtContext) : M (option Scope) :=
  Context_.event_scope event (ctx self).
Definition field_format (self : FmtContext) : FormatFields := fmt_fields self.
Fixpoint try_for_each {A X} (f : A -> M (result unit X)) (l : list A) :
    M (result unit X) :=
  match l with
  | [] => mret (Ok tt)
  | x :: l =>
      r ← f x;
      match r with Ok _ => try_for_each f l | Err e => mret (Err e) end
  end.
Definition visit_spans {X} (f : SpanRef -> M (result unit X)) (event : Event)
    (self : FmtContext) : M (result unit X) :=
  scope ← ctx_event_scope event self;
  match scope with
  | Some scope => spans ← spans_from_root (ctx self) scope; try_for_each f spans
  | None => mret (Ok tt)
  end.

Definition span_exts (span : SpanRef) : ExtensionsInner := extensions (inner (data span)).
Definition span_fields_of (span : SpanRef) : option FormattedFields :=
  of_val <$> ExtensionsInner.get fields_ty (span_exts span).

Definition write_fields (cx : FmtContext) (ev : Event) : FM unit := fun w =>
  lift (format_fields (fmt_fields cx) (event_fields ev) w).

(** ** [Format<Full>::format_event] *)

Definition full_span (span : SpanRef) : FM unit :=
  bold ← ask bold; dimmed ← ask dimmed;
  _ ← write (paint bold (span_name span));
  _ ← match span_fields_of span with
      | Some fields =>
          write_when (negb (ff_fields fields =? "")%string)
            (write (paint bold "{" ++ ff_fields fields ++ paint bold "}"))
      | None => mret tt
      end;
  write (paint dimmed ":").

Definition full_scope (cx : FmtContext) (ev : Event) : FM unit :=
  scope ← get_m (Context_.event_scope ev (ctx cx));
  match scope with
  | Some scope =>
      spans ← get_m (spans_from_root (ctx cx) scope);
      _ ← for_each full_span spans;
      write_when (negb (bool_decide (spans = []))) (write " ")
  | None => mret tt
  end.

Definition full_location (self : Format) (meta : Metadata) : FM unit :=
  dimmed ← ask dimmed;
  _ ← write_when (display_target self)
        (write (paint dimmed (Metadata.target meta) ++ paint dimmed ":" ++ " "));
  let line_number := if display_line_number self then Metadata.line meta else None in
  _ ← (if display_filename self then
         match Metadata.file meta with
         | Some filename =>
             write (paint dimmed filename ++ paint dimmed ":" ++
                    match line_number with Some _ => "" | None => " " end)
         | None => mret tt
         end
       else mret tt);
  match line_number with
  | Some line_number =>
      write (style_prefix dimmed ++ pretty line_number ++ ":" ++ style_suffix dimmed ++ " ")
  | None => mret tt
  end.

Definition NL : string := String (Ascii.ascii_of_nat 10) EmptyString.

Definition format_event_full (self : Format) (cx : FmtContext) (ev : Event) : FM unit := fun w =>
  (meta ← get_m (shown_metadata ev);
   _ ← format_timestamp self;
   ansi ← ask is_ansi;
   _ ← write_when (display_level self) (write (fmt_level (Metadata.level meta) ansi ++ " "));
   _ ← format_thread self;
   _ ← full_scope cx ev;
   _ ← full_location self meta;
   _ ← write_fields cx ev;
   write NL) (set_ansi self w).

(** ** [Format<Compact>::format_event] *)

(** [FmtCtx::fmt] *)
Definition fmt_ctx (cx : FmtContext) (ev : Event) (ansi : bool) : FM unit :=
  let bold := if ansi then Bold else Plain in
  span ← get_m (span ← match Event.parent ev with
                       | Some id => Context_.span id (ctx cx)
                       | None => mret None
                       end;
                match span with
                | Some span => mret (Some span)
                | None => Context_.lookup_current (ctx cx)
                end);
  spans ← get_m (match span with
                 | Some span => spans_from_root (ctx cx) (span_scope_of span)
                 | None => mret []
                 end);
  _ ← for_each (fun span => write (paint bold (span_name span) ++ ":")) spans;
  write_when (negb (bool_decide (spans = []))) (write " ").

Definition compact_location (self : Format) (meta : Metadata) : FM unit :=
  dimmed ← ask dimmed;
  _ ← write_when (display_target self)
        (write (paint dimmed (Metadata.target meta) ++ paint dimmed ":"));
  let file := if display_filename self then Metadata.file meta else None in
  let line := if display_line_number self then Metadata.line meta else None in
  _ ← match file with
      | Some filename =>
          _ ← write_when (display_target self) (write " ");
          write (paint dimmed filename ++ paint dimmed ":")
      | None => mret tt
      end;
  _ ← match line with
      | Some line_number =>
          write (style_prefix dimmed ++ pretty line_number ++ style_suffix dimmed ++
                 paint dimmed ":")
      | None => mret tt
      end;
  write_when (display_target self || bool_decide (is_Some file) || bool_decide (is_Some line))
    (write " ").

Definition compact_span (span : SpanRef) : FM unit :=
  dimmed ← ask dimmed;
  match span_fields_of span with
  | Some fields =>
      write_when (negb (ff_fields fields =? "")%string)
        (write (" " ++ paint dimmed (ff_fields fields)))
  | None => mret tt
  end.

Definition format_event_compact (self : Format) (cx : FmtContext) (ev : Event) : FM unit := fun w =>
  (meta ← get_m (shown_metadata ev);
   _ ← format_timestamp self;
   ansi ← ask is_ansi;
   _ ← write_when (display_level self) (write (fmt_level (Metadata.level meta) ansi ++ " "));
   _ ← format_thread self;
   _ ← fmt_ctx cx ev ansi;
   _ ← compact_location self meta;
   _ ← write_fields cx ev;
   scope ← get_m (Context_.event_scope ev (ctx cx));
   spans ← get_m (match scope with
                  | Some scope => spans_from_root (ctx cx) scope
                  | None => mret []
                  end);
   _ ← for_each compact_span spans;
   write NL) (set_ansi self w).

End format.

(** ** The lines *)

(** The state of the layers keeps the thread and the static. *)
Class FmtEnvLaws `{E : Env} (F : FmtEnv) := {
  max_len_set n u : max_len (set_max_len n u) = n;
  this_thread_set n u : this_thread (set_max_len n u) = this_thread u;
}.

Section lines.
Context `{E : Env} {P : PoolOps DataInner} {C : FmtCrates} {CL : FmtCratesLaws C}
  {F : FmtEnv} {S : FieldsSlot}.
Variable fuel : nat.
#[local] Arguments write_str : simpl never.
#[local] Arguments paint : simpl never.
#[local] Arguments FM_bind : simpl never.

(** A computation that writes a text, whatever the writer holds, and goes from one state
    to another. *)
Definition writes (m : FM unit) (W W' : World) (w : Writer) (s : string) : Prop :=
  m w W = Done ((write_str s w, Ok tt), W').

Lemma writes_bind m1 m2 W W1 W2 w s1 s2 :
  writes m1 W W1 w s1 -> writes m2 W1 W2 (write_str s1 w) s2 ->
  writes (_ ← m1; m2) W W2 w (s1 ++ s2).
Proof.
  unfold writes. intros H1 H2. unfold mbind, FM_bind. mred. rewrite H1. rewrite H2.
  by rewrite write_str_app.
Qed.

Lemma writes_get {A} (m : M A) k a W W1 W2 w s :
  m W = Done (a, W1) -> writes (k a) W1 W2 w s -> writes (a ← get_m m; k a) W W2 w s.
Proof. unfold writes. intros H1 H2. unfold mbind, FM_bind, get_m. mred. by rewrite H1. Qed.

Lemma writes_ask {A} (f : Writer -> A) k W W' w s :
  writes (k (f w)) W W' w s -> writes (a ← ask f; k a) W W' w s.
Proof. done. Qed.

Lemma writes_write s W w : writes (write s) W W w s.
Proof. done. Qed.

Lemma writes_nil W w : writes (mret tt) W W w "".
Proof. unfold writes. by rewrite write_str_nil. Qed.

Lemma writes_write_when (b : bool) s W w : writes (write_when b (write s)) W W w (if b then s else "").
Proof. destruct b; [done|apply writes_nil]. Qed.

Lemma writes_eq m W W' w s t : writes m W W' w s -> s = t -> writes m W W' w t.
Proof. by intros ? ->. Qed.

(** *** The parts of a line, as texts *)

Definition meta_of (ev : Event) : Metadata :=
  if tracing_log then
    match normalized_metadata log_callsite ev with
    | Done (Some m) => m
    | _ => Event.metadata ev
    end
  else Event.metadata ev.

(** The timer writes [ts], and may then fail. *)
Definition timer_writes (self : Format) (ts : string) (ok : bool) : Prop :=
  forall w W, timer self w W = Done ((write_str ts w, if ok then Ok tt else Err tt), W).

Definition time_text (self : Format) (w : Writer) (ts : string) (ok : bool) : string :=
  if display_timestamp self then
    style_prefix (dimmed w) ++ ts ++ (if negb ok then "<unknown time>" else "") ++
    style_suffix (dimmed w) ++ " "
  else "".

Definition level_text (self : Format) (w : Writer) (l : Level.t) : string :=
  if display_level self then fmt_level l (is_ansi w) ++ " " else "".

Definition thread_text (self : Format) (thread : Thread) (max : Z) : string :=
  match thread_name thread, display_thread_name self, display_thread_id self with
  | Some name, true, ids =>
      pad_left max name ++ " " ++ (if ids then fmt_thread_id (thread_id thread) ++ " " else "")
  | None, true, _ | _, false, true => fmt_thread_id (thread_id thread) ++ " "
  | _, false, false => ""
  end.
Definition after_thread (self : Format) (W : World) : World :=
  match thread_name (this_thread (user W)), display_thread_name self with
  | Some name, true =>
      if (max_len (user W) <? Z.of_nat (str_len name))%Z
      then with_user (set_max_len (Z.of_nat (str_len name)) (user W)) W else W
  | _, _ => W
  end.

(** The fields of a span, when it has any. *)
Definition span_text (st : Style) (span : SpanRef) : string :=
  match span_fields_of span with
  | Some fields =>
      if (ff_fields fields =? "")%string then ""
      else paint st "{" ++ ff_fields fields ++ paint st "}"
  | None => ""
  end.
Definition spans_text (f : SpanRef -> string) (spans : list SpanRef) : string :=
  String.concat "" (map f spans) ++ (if bool_decide (spans = []) then "" else " ").

Definition full_scope_text (w : Writer) : list SpanRef -> string :=
  spans_text (fun span =>
    paint (bold w) (span_name span) ++ span_text (bold w) span ++ paint (dimmed w) ":").

Definition full_location_text (self : Format) (w : Writer) (meta : Metadata) : string :=
  (if display_target self then
     paint (dimmed w) (Metadata.target meta) ++ paint (dimmed w) ":" ++ " " else "") ++
  match (if display_filename self then Metadata.file meta else None),
        (if display_line_number self then Metadata.line meta else None) with
  | Some file, Some line =>
      paint (dimmed w) file ++ paint (dimmed w) ":" ++ paint (dimmed w) (pretty line ++ ":") ++ " "
  | Some file, None => paint (dimmed w) file ++ paint (dimmed w) ":" ++ " "
  | None, Some line => paint (dimmed w) (pretty line ++ ":") ++ " "
  | None, None => ""
  end.

Definition full_line (self : Format) (w : Writer) (ts : string) (ok : bool) (thread : Thread)
    (max : Z) (spans : list SpanRef) (ev : Event) : string :=
  time_text self w ts ok ++ level_text self w (Metadata.level (meta_of ev)) ++
  thread_text self thread max ++ full_scope_text w spans ++
  full_location_text self w (meta_of ev) ++ join " " (pieces w (event_fields ev)) ++ NL.

(** *** They are what is written *)

Lemma normalized_total ev : exists m, normalized_metadata log_callsite ev = Done m.
Proof.
  unfold normalized_metadata. destruct (is_log log_callsite ev); [|by eexists].
  change (level_to_cs log_callsite (Metadata.level (Event.metadata ev))) with
    (fields ← fields_new (cs_meta log_callsite (Metadata.level (Event.metadata ev)));
     Done (log_callsite (Metadata.level (Event.metadata ev)), fields)).
  assert (exists x, fields_new (cs_meta log_callsite (Metadata.level (Event.metadata ev))) = Done x)
    as [x ->] by (eexists; reflexivity).
  by eexists.
Qed.

Lemma shown_metadata_spec ev W : shown_metadata ev W = Done (meta_of ev, W).
Proof.
  unfold shown_metadata, meta_of. destruct tracing_log; [|done]. mred.
  destruct (normalized_total ev) as [m ->]. by destruct m.
Qed.

Lemma format_timestamp_writes self ts ok W w :
  timer_writes self ts ok -> writes (format_timestamp self) W W w (time_text self w ts ok).
Proof.
  intros Ht. unfold format_timestamp, time_text. destruct (display_timestamp self); [|apply writes_nil].
  cbn [negb]. apply writes_ask. unfold dimmed.
  assert (forall k s w, writes (k (negb ok)) W W (write_str ts w) s ->
    writes (err ← is_err (timer self); k err) W W w (ts ++ s)) as Herr.
  { intros k s w' Hk. unfold writes, mbind, FM_bind, is_err. mred. rewrite Ht. rewrite <- write_str_app.
    destruct ok; apply Hk. }
  destruct (is_ansi w).
  - eapply writes_bind; [apply writes_write|]. apply Herr.
    eapply writes_bind; [apply writes_write_when|apply writes_write].
  - rewrite plain_prefix, plain_suffix. apply Herr.
    eapply writes_bind; [apply writes_write_when|apply writes_write].
Qed.

Lemma for_each_writes {A} (f : A -> FM unit) (g : A -> string) l W w :
  (forall x w', is_ansi w' = is_ansi w -> writes (f x) W W w' (g x)) ->
  writes (for_each f l) W W w (String.concat "" (map g l)).
Proof.
  intros Hf. revert w Hf. induction l as [|x l IH]; intros w Hf; [apply writes_nil|].
  cbn [for_each map]. rewrite concat_cons. eapply writes_bind; [by apply Hf|]. by apply IH.
Qed.

Lemma format_thread_writes self W w :
  writes (format_thread self) W (after_thread self W) w
    (thread_text self (this_thread (user W)) (max_len (user W))).
Proof.
  unfold format_thread, thread_text, after_thread. eapply writes_get; [reflexivity|].
  destruct (thread_name (this_thread (user W))) as [name|], (display_thread_name self),
    (display_thread_id self); cbn [negb];
    try (eapply writes_eq; [eapply writes_bind; [apply writes_nil|];
                            first [apply writes_nil | apply writes_write]|done]).
  - rewrite <- append_assoc. eapply writes_bind; [|apply writes_write].
    eapply writes_get; [|apply writes_write]. unfold fmt_thread_name. mred.
    by destruct (_ <? _)%Z.
  - rewrite append_nil_r. eapply writes_eq; [eapply writes_bind; [|apply writes_nil]|].
    + eapply writes_get; [|apply writes_write]. unfold fmt_thread_name. mred.
      by destruct (_ <? _)%Z.
    + apply append_nil_r.
  - eapply writes_eq; [eapply writes_bind; [apply writes_write|apply writes_nil]|].
    apply append_nil_r.
Qed.

(** The spans of an event, from the root: those of the scope of its own span. *)
Definition event_spans (cx : Context_) (ev : Event) (W : World) (spans : list SpanRef) : Prop :=
  exists sp, Context_.event_span ev cx W = Done (sp, W) /\
    match sp with
    | Some sp => spans_from_root fuel cx (span_scope_of sp) W = Done (spans, W)
    | None => spans = []
    end.

(** They are its enabled ancestors. *)
Lemma event_spans_ancestry cx reg ev W sp l :
  subscriber cx = Some reg -> looks_up_registry reg ->
  Context_.event_span ev cx W = Done (Some sp, W) ->
  ancestry (spans W) (Some (span_id sp)) l -> (length l < fuel)%nat ->
  event_spans cx ev W (rev (as_span (span_filter sp) <$> enabled_data (span_filter sp) l)).
Proof.
  intros Hs Hreg Hsp Hl Hf. exists (Some sp). split; [done|]. unfold spans_from_root. rewrite Hs.
  unfold from_root. mred. unfold span_scope_of. by rewrite (scope_collect_spec reg Hreg _ _ l).
Qed.

Lemma spans_text_writes f g spans W w :
  (forall x w', is_ansi w' = is_ansi w -> writes (f x) W W w' (g x)) ->
  writes (_ ← for_each f spans; write_when (negb (bool_decide (spans = []))) (write " ")) W W w
    (spans_text g spans).
Proof.
  intros Hf. unfold spans_text. eapply writes_bind; [by apply for_each_writes|].
  eapply writes_eq; [apply writes_write_when|]. by case_bool_decide.
Qed.

Lemma full_scope_writes cx ev W w spans :
  event_spans (ctx cx) ev W spans -> writes (full_scope fuel cx ev) W W w (full_scope_text w spans).
Proof.
  intros (sp & Hsp & Hspans). unfold full_scope, full_scope_text.
  eapply writes_get; [unfold Context_.event_scope; mred; by rewrite Hsp|].
  destruct sp as [sp|]; cbn [fmap option_fmap option_map]; [|subst spans; apply writes_nil].
  eapply writes_get; [exact Hspans|]. apply spans_text_writes.
  intros x w' Hw. unfold full_span. apply writes_ask, writes_ask. unfold bold, dimmed. rewrite Hw.
  eapply writes_bind; [apply writes_write|].
  eapply writes_bind; [|apply writes_write]. unfold span_text.
  destruct (span_fields_of x) as [ff|]; [|apply writes_nil].
  destruct (ff_fields ff =? "")%string; [apply writes_nil|apply writes_write].
Qed.

Lemma full_location_writes self meta W w :
  writes (full_location self meta) W W w (full_location_text self w meta).
Proof.
  unfold full_location, full_location_text. apply writes_ask.
  eapply writes_bind; [apply writes_write_when|].
  destruct (display_filename self), (Metadata.file meta) as [file|], (display_line_number self),
    (Metadata.line meta) as [line|];
    (eapply writes_eq;
     [eapply writes_bind; first [apply writes_write|apply writes_nil]|]);
    unfold paint; by rewrite ?append_assoc, ?append_nil_r.
Qed.

Lemma write_fields_writes cx ev W w :
  fmt_fields cx = default_fields -> named (event_fields ev) ->
  writes (write_fields cx ev) W W w (join " " (pieces w (event_fields ev))).
Proof.
  intros Hcx Hn. unfold writes, write_fields. rewrite Hcx.
  cbn [format_fields default_fields]. mred.
  by rewrite (default_format_fields_spec (event_fields ev) w Hn).
Qed.

(** The pieces and the styles do not depend on what is written. *)
Lemma texts_flags w s ev :
  pieces (write_str s w) (event_fields ev) = pieces w (event_fields ev).
Proof. by apply pieces_flags. Qed.

Lemma after_thread_user self W : exists u, after_thread self W = with_user u W.
Proof.
  unfold after_thread. assert (W = with_user (user W) W) as HW by by destruct W.
  destruct (thread_name _); [|by eexists]. destruct (display_thread_name self); [|by eexists].
  destruct (_ <? _)%Z; by eexists.
Qed.

(** The beginning that the two formats share. *)
Lemma writes_start self (ts : string) (ok : bool) ev W w (rest : Metadata -> bool -> FM unit) s :
  timer_writes self ts ok ->
  (forall w', is_ansi w' = is_ansi w -> ansi_sanitization w' = ansi_sanitization w ->
     writes (rest (meta_of ev) (is_ansi w)) (after_thread self W) (after_thread self W) w' s) ->
  writes (meta ← get_m (shown_metadata ev);
          _ ← format_timestamp self;
          ansi ← ask is_ansi;
          _ ← write_when (display_level self)
                (write (fmt_level (Metadata.level meta) ansi ++ " "));
          _ ← format_thread self;
          rest meta ansi) W (after_thread self W) w
    (time_text self w ts ok ++ level_text self w (Metadata.level (meta_of ev)) ++
     thread_text self (this_thread (user W)) (max_len (user W)) ++ s).
Proof.
  intros Ht Hrest. eapply writes_get; [apply shown_metadata_spec|].
  eapply writes_bind; [by apply format_timestamp_writes|]. apply writes_ask.
  eapply writes_bind; [apply writes_write_when|].
  eapply writes_bind; [apply format_thread_writes|]. by apply Hrest.
Qed.

Lemma full_format_line (self : Format) (cx : FmtContext) (ev : Event) (W : World) (w : Writer)
    (ts : string) (ok : bool) (spans : list SpanRef) :
  timer_writes self ts ok -> fmt_fields cx = default_fields -> named (event_fields ev) ->
  (forall u, event_spans (ctx cx) ev (with_user u W) spans) ->
  format_event_full fuel self cx ev w W =
  Done ((write_str (full_line self (set_ansi self w) ts ok (this_thread (user W))
                      (max_len (user W)) spans ev) (set_ansi self w), Ok tt),
        after_thread self W).
Proof.
  intros Ht Hcx Hn Hspans. unfold format_event_full, full_line.
  apply (writes_start self ts ok ev W (set_ansi self w) (fun meta _ =>
    _ ← full_scope fuel cx ev; _ ← full_location self meta; _ ← write_fields cx ev; write NL));
    [done|].
  intros w' Ha Hs. destruct (after_thread_user self W) as [u Hu].
  unfold full_scope_text, full_location_text, bold, dimmed. rewrite <- Ha.
  eapply writes_bind; [apply full_scope_writes; rewrite Hu; apply Hspans|].
  eapply writes_bind; [apply full_location_writes|].
  eapply writes_bind; [|apply writes_write].
  eapply writes_eq; [by apply write_fields_writes|]. rewrite !texts_flags.
  f_equal. by apply pieces_flags.
Qed.

(** *** The compact format *)

(** The spans whose names the compact format shows. *)
Definition ctx_spans (cx : Context_) (ev : Event) (W : World) (spans : list SpanRef) : Prop :=
  exists sp,
    (span ← match Event.parent ev with Some id => Context_.span id cx | None => mret None end;
     match span with Some span => mret (Some span) | None => Context_.lookup_current cx end) W =
      Done (sp, W) /\
    match sp with
    | Some sp => spans_from_root fuel cx (span_scope_of sp) W = Done (spans, W)
    | None => spans = []
    end.

Definition compact_location_text (self : Format) (w : Writer) (meta : Metadata) : string :=
  let file := if display_filename self then Metadata.file meta else None in
  let line := if display_line_number self then Metadata.line meta else None in
  (if display_target self then paint (dimmed w) (Metadata.target meta) ++ paint (dimmed w) ":"
   else "") ++
  match file with
  | Some file =>
      (if display_target self then " " else "") ++ paint (dimmed w) file ++ paint (dimmed w) ":"
  | None => ""
  end ++
  match line with
  | Some line => paint (dimmed w) (pretty line) ++ paint (dimmed w) ":"
  | None => ""
  end ++
  (if display_target self || bool_decide (is_Some file) || bool_decide (is_Some line)
   then " " else "").

Definition compact_span_text (w : Writer) (span : SpanRef) : string :=
  match span_fields_of span with
  | Some fields =>
      if (ff_fields fields =? "")%string then "" else " " ++ paint (dimmed w) (ff_fields fields)
  | None => ""
  end.

Definition compact_line (self : Format) (w : Writer) (ts : string) (ok : bool) (thread : Thread)
    (max : Z) (names spans : list SpanRef) (ev : Event) : string :=
  time_text self w ts ok ++ level_text self w (Metadata.level (meta_of ev)) ++
  thread_text self thread max ++
  spans_text (fun span => paint (bold w) (span_name span) ++ ":") names ++
  compact_location_text self w (meta_of ev) ++ join " " (pieces w (event_fields ev)) ++
  String.concat "" (map (compact_span_text w) spans) ++ NL.

Lemma compact_location_writes self meta W w :
  writes (compact_location self meta) W W w (compact_location_text self w meta).
Proof.
  unfold compact_location, compact_location_text. apply writes_ask.
  eapply writes_bind; [apply writes_write_when|].
  eapply writes_bind; [|eapply writes_bind; [|apply writes_write_when]].
  - destruct (if display_filename self then _ else _); [|apply writes_nil].
    eapply writes_bind; [apply writes_write_when|apply writes_write].
  - destruct (if display_line_number self then _ else _); [|apply writes_nil].
    eapply writes_eq; [apply writes_write|]. unfold paint. by rewrite !append_assoc.
Qed.

Lemma fmt_ctx_writes cx ev W w a spans :
  a = is_ansi w -> ctx_spans (ctx cx) ev W spans ->
  writes (fmt_ctx fuel cx ev a) W W w
    (spans_text (fun span => paint (bold w) (span_name span) ++ ":") spans).
Proof.
  intros -> (sp & Hsp & Hspans). unfold fmt_ctx. eapply writes_get; [exact Hsp|].
  assert ((match sp with
           | Some span => spans_from_root fuel (ctx cx) (span_scope_of span)
           | None => mret []
           end) W = Done (spans, W)) as Hs by (destruct sp; [done|by subst spans]).
  eapply writes_get; [exact Hs|]. apply spans_text_writes.
  intros x w' _. apply writes_write.
Qed.

(** The compact format writes one line for an event, whatever the settings: the time,
    the level, the thread, the names of spans, the target, the file and the line number,
    the fields of the event, the stored fields of its enabled ancestor spans from the
    root, and a line feed.  The names are those of the spans of [FmtCtx], which are not the
    event's when the event has no parent or one that the layer's filter disabled: then
    they are those of the current span.  *)
Theorem compact_format_line (self : Format) (cx : FmtContext) (ev : Event) (W : World)
    (w : Writer) (ts : string) (ok : bool) (names spans : list SpanRef) :
  timer_writes self ts ok -> fmt_fields cx = default_fields -> named (event_fields ev) ->
  (forall u, event_spans (ctx cx) ev (with_user u W) spans) ->
  (forall u, ctx_spans (ctx cx) ev (with_user u W) names) ->
  format_event_compact fuel self cx ev w W =
  Done ((write_str (compact_line self (set_ansi self w) ts ok (this_thread (user W))
                      (max_len (user W)) names spans ev) (set_ansi self w), Ok tt),
        after_thread self W).
Proof.
  intros Ht Hcx Hn Hspans Hnames. unfold format_event_compact, compact_line.
  apply (writes_start self ts ok ev W (set_ansi self w) (fun meta ansi =>
    _ ← fmt_ctx fuel cx ev ansi; _ ← compact_location self meta; _ ← write_fields cx ev;
    scope ← get_m (Context_.event_scope ev (ctx cx));
    spans ← get_m (match scope with
                   | Some scope => spans_from_root fuel (ctx cx) scope
                   | None => mret []
                   end);
    _ ← for_each compact_span spans; write NL)); [done|].
  intros w' Ha Hs. destruct (after_thread_user self W) as [u Hu]. rewrite Hu.
  unfold compact_location_text, bold, dimmed. rewrite <- Ha.
  eapply writes_bind; [apply (fmt_ctx_writes _ _ _ _ (is_ansi w')); [done|apply Hnames]|].
  eapply writes_bind; [apply compact_location_writes|].
  eapply writes_bind; [eapply writes_eq; [by apply write_fields_writes|]|].
  { rewrite !texts_flags. f_equal. by apply pieces_flags. }
  destruct (Hspans u) as (sp & Hsp & Hsps).
  eapply writes_get; [unfold Context_.event_scope; mred; by rewrite Hsp|].
  assert ((match span_scope_of <$> sp with
           | Some scope => spans_from_root fuel (ctx cx) scope
           | None => mret []
           end) (with_user u W) = Done (spans, with_user u W)) as Hss
    by (destruct sp; [done|by subst spans]).
  eapply writes_get; [exact Hss|].
  eapply writes_bind; [|apply writes_write]. apply for_each_writes.
  intros x w2 Hw2. unfold compact_span, compact_span_text. apply writes_ask.
  unfold dimmed. rewrite Hw2. cbn -[write_str]. rewrite <- Ha.
  destruct (span_fields_of x) as [ff|]; [|apply writes_nil].
  destruct (ff_fields ff =? "")%string; [apply writes_nil|apply writes_write].
Qed.

End lines.
