(* ===== verification/FmtLayer.v ===== *)
(** * FmtLayer: [tracing-subscriber/src/fmt/fmt_layer.rs]

    The layer that formats events and spans to a writer: the fields stored with a span, the
    busy and idle times of a span, the events made for the life of a span, and the writing
    of a line.  The state of the layers holds the thread-local buffer; the clock is
    [Instant::now] in nanoseconds. *)

From S2P Require Import Prelude.
From S2P Require Import Str.
From S2P Require Import Ints.
From S2P Require Import Float.
From S2P Require Import Levels.
From S2P Require Import Fields.
From S2P Require Import Meta.
From S2P Require Import Interests.
From S2P Require Import FilterIds.
From S2P Require Import SpanStack.
From S2P Require Import Extensions.
From S2P Require Import Registry.
From S2P Require Import Pools.
From S2P Require Import Contexts.
From S2P Require Import Filters.
From S2P Require Import Layers.
From S2P Require Import Writers.
From S2P Require Import Escape.
From S2P Require Import Format.
From S2P Require Import FormatEvent.

Local Open Scope Z_scope.

(** ** [struct FmtSpan], [struct FmtSpanConfig], of [fmt/format/mod.rs] *)

Module FmtSpan.

(** The bits of a [u8]. *)
Definition t : Type := Z.
Definition NEW : t := Z.shiftl 1 0.
Definition ENTER : t := Z.shiftl 1 1.
Definition EXIT : t := Z.shiftl 1 2.
Definition CLOSE : t := Z.shiftl 1 3.
Definition NONE : t := 0.
Definition ACTIVE : t := Z.lor ENTER EXIT.
Definition FULL : t := Z.lor (Z.lor (Z.lor NEW ENTER) EXIT) CLOSE.

Definition bitand (rhs self : t) : t := Z.land self rhs.
Definition bitor (rhs self : t) : t := Z.lor self rhs.
Definition bitxor (rhs self : t) : t := Z.lxor self rhs.

Definition contains (other self : t) : bool := bitand other self =? other.

(** [impl Debug for FmtSpan] *)
Definition fmt (self : t) : string :=
  if bitor self NONE =? NONE then "FmtSpan::NONE"
  else
    join " | "
      ((if contains NEW self then ["FmtSpan::NEW"] else []) ++
       (if contains ENTER self then ["FmtSpan::ENTER"] else []) ++
       (if contains EXIT self then ["FmtSpan::EXIT"] else []) ++
       (if contains CLOSE self then ["FmtSpan::CLOSE"] else [])).

End FmtSpan.

Record FmtSpanConfig := { kind : FmtSpan.t; fmt_timing : bool }.

Definition default_config : FmtSpanConfig := {| kind := FmtSpan.NONE; fmt_timing := true |}.
Definition config_without_time (self : FmtSpanConfig) : FmtSpanConfig :=
  {| kind := kind self; fmt_timing := false |}.
Definition with_kind (k : FmtSpan.t) (self : FmtSpanConfig) : FmtSpanConfig :=
  {| kind := k; fmt_timing := fmt_timing self |}.
Definition trace_new (self : FmtSpanConfig) : bool := FmtSpan.contains FmtSpan.NEW (kind self).
Definition trace_enter (self : FmtSpanConfig) : bool := FmtSpan.contains FmtSpan.ENTER (kind self).
Definition trace_exit (self : FmtSpanConfig) : bool := FmtSpan.contains FmtSpan.EXIT (kind self).
Definition trace_close (self : FmtSpanConfig) : bool := FmtSpan.contains FmtSpan.CLOSE (kind self).

(** ** [TimingDisplay], of [fmt/format/mod.rs] *)

Fixpoint timing_units (t : f64) (units : list string) : string :=
  match units with
  | [] => (fixed 0 (f64_mul t (f64_of_u 1000)) ++ "s")%string
  | unit :: units =>
      if f64_lt t (f64_of_u 10) then (fixed 2 t ++ unit)%string
      else if f64_lt t (f64_of_u 100) then (fixed 1 t ++ unit)%string
      else if f64_lt t (f64_of_u 1000) then (fixed 0 t ++ unit)%string
      else timing_units (f64_div t (f64_of_u 1000)) units
  end.
Definition timing_display (nanos : Z) : string :=
  timing_units (f64_of_u nanos) ["ns"; "µs"; "ms"; "s"]%string.

Example timing_display_ex :
  map timing_display
    [0; 1; 12; 123; 1234; 12345; 123456; 1234567; 12345678; 123456789; 1234567890; 12345678901;
     123456789012; 1234567890123; 2 ^ 64 - 1] =
  ["0.00ns"; "1.00ns"; "12.0ns"; "123ns"; "1.23µs"; "12.3µs"; "123µs"; "1.23ms"; "12.3ms"; "123ms";
   "1.23s"; "12.3s"; "123s"; "1235s"; "18446744074s"]%string.
Proof. vm_compute. reflexivity. Qed.

(** Rounding may carry into a digit that the width chosen before it does not count. *)
Example timing_display_carry : timing_display 9999 = "10.00µs"%string.
Proof. vm_compute. reflexivity. Qed.

(** ** [struct Timings] *)

Record Timings := { idle : Z; busy : Z; last : Z; entered_count : Z }.

Module Timings.
Section ops.
Variable debug : bool.

Definition new (now : Z) : Timings := {| idle := 0; busy := 0; last := now; entered_count := 0 |}.

(** [(now - last).as_nanos() as u64]; the subtraction of instants saturates. *)
Definition since (now last : Z) : Z := as_u 64 (Z.max 0 (now - last)).

(** The parts of [on_enter], [on_exit] and [on_close] that update the timings. *)
Definition enter (now : Z) (t : Timings) : outcome Timings :=
  t ← (if entered_count t =? 0 then
         idle ← arith_u debug 64 (idle t + since now (last t));
         Done {| idle := idle; busy := busy t; last := now; entered_count := entered_count t |}
       else Done t);
  count ← arith_u debug 64 (entered_count t + 1);
  Done {| idle := idle t; busy := busy t; last := last t; entered_count := count |}.

Definition exit (now : Z) (t : Timings) : outcome Timings :=
  count ← arith_u debug 64 (entered_count t - 1);
  if count =? 0 then
    busy ← arith_u debug 64 (busy t + since now (last t));
    Done {| idle := idle t; busy := busy; last := now; entered_count := count |}
  else Done {| idle := idle t; busy := busy t; last := last t; entered_count := count |}.

(** The busy and the idle time that are shown. *)
Definition close (now : Z) (t : Timings) : outcome (Z * Z) :=
  _ ← (if debug then assert (entered_count t =? 0) else Done tt);
  idle ← arith_u debug 64 (idle t + since now (last t));
  Done (busy t, idle).

End ops.
End Timings.

(** *** What they measure

    The entries and exits of a span, with the instants at which they happen. *)
Inductive TimingOp := Entered | Exited.

Definition timing_step (debug : bool) (t : outcome Timings) (x : TimingOp * Z) : outcome Timings :=
  t ← t; match x.1 with Entered => Timings.enter debug x.2 t | Exited => Timings.exit debug x.2 t end.

(** The specification looks at every interval between two operations: it is busy if the
    span is entered at least once during it. *)
Record Measured := { m_busy : Z; m_idle : Z; m_at : Z; m_inside : nat }.
Definition measure_step (m : Measured) (x : TimingOp * Z) : Measured :=
  let d := x.2 - m_at m in
  {| m_busy := m_busy m + (if (m_inside m =? 0)%nat then 0 else d);
     m_idle := m_idle m + (if (m_inside m =? 0)%nat then d else 0);
     m_at := x.2;
     m_inside := match x.1 with Entered => S (m_inside m) | Exited => pred (m_inside m) end |}.
Definition measure_start (now : Z) : Measured :=
  {| m_busy := 0; m_idle := 0; m_at := now; m_inside := 0 |}.
Definition measure (now : Z) (ops : list (TimingOp * Z)) : Measured :=
  foldl measure_step (measure_start now) ops.

(** Instants do not go back, and a span is exited only when it is entered. *)
Fixpoint orderly (m : Measured) (ops : list (TimingOp * Z)) : Prop :=
  match ops with
  | [] => True
  | x :: ops =>
      m_at m <= x.2 /\ (x.1 = Exited -> (0 < m_inside m)%nat) /\ orderly (measure_step m x) ops
  end.

(** The timings know all but the current interval, which began at [last]. *)
Record timing_ok (start : Z) (m : Measured) (t : Timings) : Prop := {
  tm_count : entered_count t = Z.of_nat (m_inside m);
  tm_last : start <= last t <= m_at m;
  tm_busy : 0 <= busy t /\ m_busy m = busy t + (if (m_inside m =? 0)%nat then 0 else m_at m - last t);
  tm_idle : 0 <= idle t /\ m_idle m = idle t + (if (m_inside m =? 0)%nat then m_at m - last t else 0);
  tm_sum : m_busy m + m_idle m = m_at m - start;
}.

Lemma since_fits now last : last <= now < last + 2 ^ 64 -> Timings.since now last = now - last.
Proof. intros H. unfold Timings.since. rewrite Z.max_r by lia. by rewrite as_u_fits by lia. Qed.

Lemma timing_step_ok debug start m t x :
  timing_ok start m t -> m_at m <= x.2 -> (x.1 = Exited -> (0 < m_inside m)%nat) ->
  x.2 < start + 2 ^ 64 -> Z.of_nat (m_inside m) + 1 < 2 ^ 64 ->
  exists t', timing_step debug (Done t) x = Done t' /\ timing_ok start (measure_step m x) t'.
Proof.
  intros [Hc Hl [Hb0 Hb] [Hi0 Hi] Hs] Hat Hex Hlt Hn. unfold timing_step. cbn [mbind outcome_bind].
  destruct x as [[] now]; cbn [fst snd] in *.
  - unfold Timings.enter. rewrite Hc.
    destruct (Nat.eqb_spec (m_inside m) 0) as [H0|H0].
    + rewrite H0. change (Z.of_nat 0 =? 0) with true. rewrite since_fits by lia.
      rewrite arith_u_fits by lia. cbn [mbind outcome_bind entered_count idle busy last].
      rewrite arith_u_fits by lia. cbn [mbind outcome_bind]. eexists. split; [done|].
      unfold measure_step. cbn. rewrite H0. split; cbn; lia.
    + rewrite (proj2 (Z.eqb_neq (Z.of_nat (m_inside m)) 0)) by lia.
      cbn [mbind outcome_bind]. rewrite ?Hc, arith_u_fits by lia. cbn [mbind outcome_bind].
      eexists. split; [done|]. unfold measure_step. cbn.
      apply Nat.eqb_neq in H0. rewrite ?H0.
      split; cbn [entered_count last busy idle m_inside m_at m_busy m_idle Nat.eqb]; [|lia..].
      rewrite Nat2Z.inj_succ. lia.
  - specialize (Hex eq_refl). unfold Timings.exit.
    rewrite Hc, (arith_u_fits debug 64 (Z.of_nat (m_inside m) - 1)) by lia.
    cbn [mbind outcome_bind].
    rewrite (proj2 (Nat.eqb_neq (m_inside m) 0)) in Hb, Hi by lia.
    destruct (Z.eqb_spec (Z.of_nat (m_inside m) - 1) 0) as [H1|H1].
    + rewrite since_fits by lia. rewrite arith_u_fits by lia. cbn [mbind outcome_bind].
      eexists. split; [done|]. unfold measure_step. cbn.
      rewrite (proj2 (Nat.eqb_neq (m_inside m) 0)) by lia.
      assert (pred (m_inside m) = O) as -> by lia. split; cbn; lia.
    + eexists. split; [done|]. unfold measure_step. cbn.
      rewrite (proj2 (Nat.eqb_neq (m_inside m) 0)) by lia.
      assert ((pred (m_inside m) =? 0)%nat = false) as Hp by (apply Nat.eqb_neq; lia).
      split; cbn; rewrite ?Hp; lia.
Qed.

(** The timings of a span never overflow or panic as long as its life is shorter than
    2^64 nanoseconds; when it is closed the busy time is the length of all the intervals
    during which it was entered at least once, on any thread and however deeply, the idle
    time that of all the others, and the two add up to the whole life of the span. *)
Theorem timings_add_up (debug : bool) (start stop : Z) (ops : list (TimingOp * Z)) :
  orderly (measure_start start) ops -> m_inside (measure start ops) = O ->
  m_at (measure start ops) <= stop < start + 2 ^ 64 -> Z.of_nat (length ops) < 2 ^ 64 ->
  exists t, foldl (timing_step debug) (Done (Timings.new start)) ops = Done t /\
    Timings.close debug stop t =
      Done (m_busy (measure start ops),
            m_idle (measure start ops) + (stop - m_at (measure start ops))) /\
    m_busy (measure start ops) + m_idle (measure start ops) +
      (stop - m_at (measure start ops)) = stop - start.
Proof.
  intros Ho Hin Hstop Hlen.
  assert (forall ops m t, timing_ok start m t -> orderly m ops ->
    m_at (foldl measure_step m ops) < start + 2 ^ 64 ->
    Z.of_nat (m_inside m) + Z.of_nat (length ops) < 2 ^ 64 ->
    m_at m <= m_at (foldl measure_step m ops) /\
    exists t', foldl (timing_step debug) (Done t) ops = Done t' /\
      timing_ok start (foldl measure_step m ops) t') as Hrun.
  { clear. induction ops as [|x ops IH]; intros m t Ht Ho Hat Hn; [split; [done|by eexists]|].
    destruct Ho as (Hle & Hex & Ho). cbn [foldl length] in *.
    assert (m_at (measure_step m x) <= m_at (foldl measure_step (measure_step m x) ops)) as Hmono.
    { clear -Ho. revert Ho. generalize (measure_step m x). induction ops as [|y ops IH]; intros m' Ho; [done|].
      destruct Ho as (Hle & _ & Ho). cbn [foldl]. specialize (IH _ Ho). cbn in *. lia. }
    change (m_at (measure_step m x)) with x.2 in Hmono.
    destruct (timing_step_ok debug start m t x Ht Hle Hex) as (t' & Hstep & Ht'); [lia|lia|].
    rewrite Hstep. destruct (IH _ t' Ht' Ho Hat) as [Hm Hres].
    - destruct x as [[] now]; cbn; lia.
    - split; [|exact Hres]. change (m_at (measure_step m x)) with x.2 in Hm. lia. }
  destruct (Hrun ops (measure_start start) (Timings.new start)) as [_ (t & Ht & Hok)];
    [split; cbn; lia|done|unfold measure in *; lia|cbn; lia|].
  fold (measure start ops) in Hok. destruct Hok as [Hc Hl [Hb0 Hb] [Hi0 Hi] Hs].
  exists t. rewrite Hin in *. cbn [Nat.eqb] in *. split; [exact Ht|]. split; [|lia].
  unfold Timings.close. rewrite Hc.
  assert ((if debug then assert (Z.of_nat 0 =? 0) else Done tt) = Done tt) as -> by by destruct debug.
  cbn [mbind outcome_bind]. rewrite since_fits by lia. rewrite arith_u_fits by lia.
  cbn [mbind outcome_bind]. do 2 f_equal; lia.
Qed.

(** Entered on two threads at overlapping times. *)
Lemma timings_add_up_witness :
  exists t,
    foldl (timing_step true) (Done (Timings.new 100))
      [(Entered, 110); (Entered, 120); (Exited, 130); (Exited, 150); (Entered, 170); (Exited, 175)]
      = Done t /\ Timings.close true 200 t = Done (45, 55).
Proof.
  destruct (timings_add_up true 100 200
    [(Entered, 110); (Entered, 120); (Exited, 130); (Exited, 150); (Entered, 170); (Exited, 175)])
    as (t & H1 & H2 & _); [cbn; repeat split; try lia; discriminate|reflexivity|cbn; lia|cbn; lia|].
  exists t. exact (conj H1 H2).
Defined.

(** ** The state of the layer

    The slot of [Timings] in the type map, the clock, the thread-local [BUF], and
    [eprintln!], in the state of the layers. *)
Class LayerEnv `{E : Env} := {
  timings_ty : TypeId;
  timings_val : Timings -> Val timings_ty;
  val_timings : Val timings_ty -> Timings;
  val_timings_val t : val_timings (timings_val t) = t;
  now : UserState -> Z;
  buf : UserState -> string;
  set_buf : string -> UserState -> UserState;
  eprintln : string -> UserState -> UserState;
}.

Section layer.
Context `{E : Env} {P : PoolOps DataInner} {C : FmtCrates} `{!FmtEnv} `{!FieldsSlot} `{!LayerEnv}.
Context {MW W Error : Type} `{!MakeWriter MW W} `{!IoWrite UserState Error W}.

(** The [Debug] of an [Attributes], the [Display] of an I/O error, and the list of an
    event's fields. *)
Variable attrs_debug : Attributes -> string.
Variable error_display : Error -> string.
Variable fields_debug : Event -> string.

(** ** [struct Layer] *)

Record FmtLayer := {
  make_writer : MW;
  layer_fields : FormatFields;
  fmt_event : FmtContext -> Event -> FM unit;
  fmt_span : FmtSpanConfig;
  layer_ansi : bool;
  layer_sanitization : bool;
  log_internal_errors : bool;
}.

(** [Layer::default], for a value of the variable [NO_COLOR]. *)
Definition layer_default (stdout : MW) (full : FmtContext -> Event -> FM unit)
    (feature_ansi : bool) (no_color : option string) : FmtLayer := {|
  make_writer := stdout;
  layer_fields := default_fields;
  fmt_event := full;
  fmt_span := default_config;
  layer_ansi := feature_ansi &&
    match no_color with Some v => (v =? "")%string | None => true end;
  layer_sanitization := true;
  log_internal_errors := false;
|}.

Definition event_format (e : FmtContext -> Event -> FM unit) (self : FmtLayer) : FmtLayer := {|
  make_writer := make_writer self; layer_fields := layer_fields self; fmt_event := e;
  fmt_span := fmt_span self; layer_ansi := layer_ansi self;
  layer_sanitization := layer_sanitization self; log_internal_errors := log_internal_errors self |}.
Definition with_writer (m : MW) (self : FmtLayer) : FmtLayer := {|
  make_writer := m; layer_fields := layer_fields self; fmt_event := fmt_event self;
  fmt_span := fmt_span self; layer_ansi := layer_ansi self;
  layer_sanitization := layer_sanitization self; log_internal_errors := log_internal_errors self |}.
Definition with_layer_ansi (b : bool) (self : FmtLayer) : FmtLayer := {|
  make_writer := make_writer self; layer_fields := layer_fields self; fmt_event := fmt_event self;
  fmt_span := fmt_span self; layer_ansi := b;
  layer_sanitization := layer_sanitization self; log_internal_errors := log_internal_errors self |}.
Definition with_layer_sanitization (b : bool) (self : FmtLayer) : FmtLayer := {|
  make_writer := make_writer self; layer_fields := layer_fields self; fmt_event := fmt_event self;
  fmt_span := fmt_span self; layer_ansi := layer_ansi self;
  layer_sanitization := b; log_internal_errors := log_internal_errors self |}.
Definition with_log_internal_errors (b : bool) (self : FmtLayer) : FmtLayer := {|
  make_writer := make_writer self; layer_fields := layer_fields self; fmt_event := fmt_event self;
  fmt_span := fmt_span self; layer_ansi := layer_ansi self;
  layer_sanitization := layer_sanitization self; log_internal_errors := b |}.
Definition with_span_events (k : FmtSpan.t) (self : FmtLayer) : FmtLayer := {|
  make_writer := make_writer self; layer_fields := layer_fields self; fmt_event := fmt_event self;
  fmt_span := with_kind k (fmt_span self); layer_ansi := layer_ansi self;
  layer_sanitization := layer_sanitization self; log_internal_errors := log_internal_errors self |}.
Definition with_fmt_fields (n : FormatFields) (self : FmtLayer) : FmtLayer := {|
  make_writer := make_writer self; layer_fields := n; fmt_event := fmt_event self;
  fmt_span := fmt_span self; layer_ansi := layer_ansi self;
  layer_sanitization := layer_sanitization self; log_internal_errors := log_internal_errors self |}.

(** ** The extensions of a span

    The [SpanRef] keeps its slot occupied; the reads and writes go to the slot. *)
Definition set_extensions (e : ExtensionsInner) (d : DataInner) : DataInner :=
  {| filter_map := filter_map d; metadata := Registry.metadata d; parent := parent d;
     ref_count := ref_count d; extensions := e |}.
Definition exts (span : SpanRef) : M ExtensionsInner :=
  d ← gets (fun w => pool_get (key (data span)) (spans w));
  lift (extensions <$> expect d).
Definition set_exts (e : ExtensionsInner) (span : SpanRef) : M unit :=
  d ← gets (fun w => pool_get (key (data span)) (spans w));
  d ← lift (expect d);
  modify (fun w => with_spans (pool_set (key (data span)) (set_extensions e d) (spans w)) w).

(** [ctx.span(id).expect(..)] *)
Definition span_of (id : Id) (cx : Context_) : M SpanRef :=
  span ← Context_.span id cx; lift (expect span).

(** [ExtensionsMut::insert] *)
Definition insert_ext (ty : TypeId) (v : Val ty) (span : SpanRef) : M unit :=
  e ← exts span;
  e ← lift (ExtensionsMut.insert ty v e);
  set_exts e span.

(** The fields and the timings of a span. *)
Definition get_fields (span : SpanRef) : M (option FormattedFields) :=
  e ← exts span; mret (of_val <$> ExtensionsInner.get fields_ty e).
Definition get_timings (span : SpanRef) : M (option Timings) :=
  e ← exts span; mret (val_timings <$> ExtensionsInner.get timings_ty e).
Definition put_fields (f : FormattedFields) (span : SpanRef) : M unit :=
  e ← exts span; set_exts (ExtensionsInner.get_mut fields_ty (fun _ => to_val f) e).2 span.
Definition put_timings (t : Timings) (span : SpanRef) : M unit :=
  e ← exts span; set_exts (ExtensionsInner.get_mut timings_ty (fun _ => timings_val t) e).2 span.

(** ** [on_event]

    The buffer is that of the thread; a formatter that emits an event of its own finds it
    borrowed and the inner event gets a fresh one, which is not modelled. *)

(** The writer of the layer for a line, and its result. *)
Definition emit (self : FmtLayer) (meta : Metadata) (line : string) : M (result unit Error) :=
  fun w =>
    let '(u, r) := deliver (make_writer self) meta line (user w) in
    Done (r, with_user u w).
Definition report (self : FmtLayer) (msg : Error -> string) (r : result unit Error) : M unit :=
  match r with
  | Err e => if log_internal_errors self then modify (fun w => with_user (eprintln (msg e) (user w)) w)
             else mret tt
  | Ok _ => mret tt
  end.

Definition DQ : string := String (Ascii.ascii_of_nat 34) EmptyString.

Definition on_event (self : FmtLayer) (ev : Event) (cx : Context_) : M unit :=
  line ← gets (fun w => buf (user w));
  let writer := with_ansi_sanitization (layer_sanitization self)
                  (with_ansi (layer_ansi self) (writer_new line)) in
  '(writer, r) ← fmt_event self {| ctx := cx; fmt_fields := layer_fields self |} ev writer;
  _ ← (match r with
       | Ok _ =>
           res ← emit self (Event.metadata ev) (text writer);
           report self (fun e => "[tracing-subscriber] Unable to write an event to the Writer for this Subscriber! Error: " ++ error_display e ++ NL)%string res
       | Err _ =>
           if log_internal_errors self then
             res ← emit self (Event.metadata ev)
               ("Unable to format the following event. Name: " ++ Metadata.name (Event.metadata ev) ++
                "; Fields: " ++ fields_debug ev ++ NL);
             report self (fun e => "[tracing-subscriber] Unable to write an " ++ DQ ++ "event formatting error" ++ DQ ++ " to the Writer for this Subscriber! Error: " ++ error_display e ++ NL)%string res
           else mret tt
       end : M unit);
  modify (fun w => with_user (set_buf "" (user w)) w).

(** ** The life of a span *)

(** [with_event_from_span!] *)
Definition event_from_span (id : Id) (span : SpanRef) (fields : list (string * Value)) : Event :=
  let meta := span_metadata span in
  let fs := FieldSet.new fields.*1 (Metadata.callsite meta) in
  Event.new_child_of (Some id) meta
    (ValueSet.value_set fs (combine (FieldSet.iter fs) (Some <$> fields.*2))).

(** The fields of a new span, or of one that has none yet. *)
Definition new_fields (self : FmtLayer) : FormattedFields :=
  {| ff_fields := ""; was_ansi := layer_ansi self; was_ansi_sanitized := layer_sanitization self |}.
Definition format_new (self : FmtLayer) (values : ValueSet) : outcome (option FormattedFields) :=
  '(w, r) ← format_fields (layer_fields self) values (as_writer (new_fields self));
  Done (match r with Ok _ => Some (with_fields (text w) (new_fields self)) | Err _ => None end).

Definition on_new_span (self : FmtLayer) (attrs : Attributes) (id : Id) (cx : Context_) : M unit :=
  span ← span_of id cx;
  fields ← get_fields span;
  _ ← (match fields with
       | Some _ => mret tt
       | None =>
           fields ← lift (format_new self (Attributes.values attrs));
           match fields with
           | Some fields => insert_ext fields_ty (to_val fields) span
           | None =>
               modify (fun w => with_user (eprintln ("[tracing-subscriber] Unable to format the following event, ignoring: " ++ attrs_debug attrs)%string (user w)) w)
           end
       end : M unit);
  timings ← get_timings span;
  _ ← (if fmt_timing (fmt_span self) && trace_close (fmt_span self) && bool_decide (timings = None)
       then t ← gets (fun w => now (user w)); insert_ext timings_ty (timings_val (Timings.new t)) span
       else mret tt);
  if trace_new (fmt_span self) then
    on_event self (event_from_span id span [("message"%string, VStr "new")]) cx
  else mret tt.

Definition on_record (self : FmtLayer) (id : Id) (values : ValueSet) (cx : Context_) : M unit :=
  span ← span_of id cx;
  fields ← get_fields span;
  match fields with
  | Some fields =>
      '(fields, _) ← lift (add_fields (layer_fields self) fields values);
      put_fields fields span
  | None =>
      fields ← lift (format_new self values);
      match fields with
      | Some fields => insert_ext fields_ty (to_val fields) span
      | None => mret tt
      end
  end.

Definition with_timings (f : Z -> Timings -> outcome Timings) (span : SpanRef) : M unit :=
  timings ← get_timings span;
  match timings with
  | Some timings =>
      t ← gets (fun w => now (user w));
      timings ← lift (f t timings);
      put_timings timings span
  | None => mret tt
  end.

Definition on_enter (self : FmtLayer) (id : Id) (cx : Context_) : M unit :=
  if trace_enter (fmt_span self) || trace_close (fmt_span self) && fmt_timing (fmt_span self) then
    span ← span_of id cx;
    _ ← with_timings (Timings.enter debug_assertions) span;
    if trace_enter (fmt_span self) then
      on_event self (event_from_span id span [("message"%string, VStr "enter")]) cx
    else mret tt
  else mret tt.

Definition on_exit (self : FmtLayer) (id : Id) (cx : Context_) : M unit :=
  if trace_exit (fmt_span self) || trace_close (fmt_span self) && fmt_timing (fmt_span self) then
    span ← span_of id cx;
    _ ← with_timings (Timings.exit debug_assertions) span;
    if trace_exit (fmt_span self) then
      on_event self (event_from_span id span [("message"%string, VStr "exit")]) cx
    else mret tt
  else mret tt.

Definition on_close (self : FmtLayer) (id : Id) (cx : Context_) : M unit :=
  if trace_close (fmt_span self) then
    span ← span_of id cx;
    timings ← get_timings span;
    match timings with
    | Some timings =>
        t ← gets (fun w => now (user w));
        '(busy, idle) ← lift (Timings.close debug_assertions t timings);
        on_event self (event_from_span id span
          [("message"%string, VStr "close");
           ("time.busy"%string, VDebug (DisplayValue [timing_display busy]));
           ("time.idle"%string, VDebug (DisplayValue [timing_display idle]))]) cx
    | None => on_event self (event_from_span id span [("message"%string, VStr "close")]) cx
    end
  else mret tt.

(** [impl Layer for fmt::Layer]; the other methods are the trait's. *)
Definition fmt_layer (self : FmtLayer) : Layer := {|
  l_on_register_dispatch := mret tt;
  l_register_callsite := layer_default_register_callsite (fun _ _ => mret true);
  l_enabled _ _ := mret true;
  l_max_level_hint := None;
  l_on_new_span := on_new_span self;
  l_on_record := on_record self;
  l_on_follows_from _ _ _ := mret tt;
  l_event_enabled _ _ := mret true;
  l_on_event := on_event self;
  l_on_enter := on_enter self;
  l_on_exit := on_exit self;
  l_on_close := on_close self;
  l_on_id_change _ _ _ := mret tt;
  l_has_plf := false;
  l_is_none := false;
|}.

End layer.

(** ** What the layer writes and stores *)

Class LayerEnvLaws `{E : Env} `{!FieldsSlot} (L : LayerEnv) := {
  slots_differ : timings_ty <> fields_ty;
  buf_set s u : buf (set_buf s u) = s;
}.

Section behaviour.
Context `{E : Env} {P : PoolOps DataInner} `{!PoolLaws default_data P}.
Context {C : FmtCrates} {CL : FmtCratesLaws C} {F : FmtEnv} {S : FieldsSlot} {L : LayerEnv}
  {LL : LayerEnvLaws L}.
Context {MW W Error : Type} `{!MakeWriter MW W} `{!IoWrite UserState Error W}.
Variable attrs_debug : Attributes -> string.
Variable error_display : Error -> string.
Variable fields_debug : Event -> string.

Implicit Types (self : FmtLayer (MW := MW)).

Abbreviation on_event := (on_event error_display fields_debug).

(** The state of the layers after a line was handed to the writer. *)
Definition delivered self (meta : Metadata) (line : string) (u : UserState) : UserState :=
  let '(u, r) := deliver (make_writer self) meta line u in
  match r with
  | Err e =>
      if log_internal_errors self
      then eprintln ("[tracing-subscriber] Unable to write an event to the Writer for this Subscriber! Error: " ++ error_display e ++ NL)%string u
      else u
  | Ok _ => u
  end.

Lemma with_user_twice u v (w : World) : with_user u (with_user v w) = with_user u w.
Proof. done. Qed.

(** A layer with the full format and the default fields hands exactly one line to its
    writer for an event, in one [write_all] for the event's own metadata: the text that
    [full_line] describes, which ends with the line feed, with the layer's ANSI setting
    unless the format has its own; it never panics, changes nothing but the state of the
    layers, and leaves the thread's buffer empty for the next event. *)
Theorem fmt_layer_writes_line fuel (fmt : Format) self cx ev w ts ok spans :
  fmt_event self = format_event_full fuel fmt -> layer_fields self = default_fields ->
  buf (user w) = ""%string -> timer_writes fmt ts ok -> named (event_fields ev) ->
  (forall u, event_spans fuel cx ev (with_user u w) spans) ->
  let writer := set_ansi fmt {| text := ""; is_ansi := layer_ansi self;
                                ansi_sanitization := layer_sanitization self |} in
  let line := full_line fmt writer ts ok (this_thread (user w)) (max_len (user w)) spans ev in
  exists w', on_event self ev cx w = Done (tt, w') /\
    w' = with_user (set_buf "" (delivered self (Event.metadata ev) line
                                  (user (after_thread fmt w)))) w /\
    buf (user w') = ""%string /\ exists body, line = (body ++ NL)%string.
Proof.
  intros He Hf Hbuf Ht Hn Hspans writer line. eexists. split; [|split; [reflexivity|split; [apply buf_set|]]].
  - unfold FmtLayer.on_event. mred. rewrite Hbuf, He, Hf.
    pose proof (full_format_line fuel fmt {| ctx := cx; fmt_fields := default_fields |} ev w
      {| text := ""; is_ansi := layer_ansi self; ansi_sanitization := layer_sanitization self |}
      ts ok spans Ht eq_refl Hn Hspans) as Hline.
    change (with_ansi_sanitization (layer_sanitization self)
      (with_ansi (layer_ansi self) (writer_new ""))) with
      {| text := ""; is_ansi := layer_ansi self; ansi_sanitization := layer_sanitization self |}.
    rewrite Hline. fold writer. fold line.
    assert (text (write_str line writer) = line) as ->.
    { unfold writer, set_ansi. by destruct (ansi fmt). }
    unfold emit, report, delivered. destruct (after_thread_user fmt w) as [u Hu]. rewrite Hu.
    cbn [user with_user].
    destruct (deliver (make_writer self) (Event.metadata ev) line u) as [u' [[]|e]]; [done|].
    by destruct (log_internal_errors self).
  - unfold line, full_line. eexists. rewrite <- !append_assoc. reflexivity.
Qed.

(** *** The fields of a span *)

Abbreviation on_new_span := (on_new_span attrs_debug error_display fields_debug).

Definition same_span (d d' : DataInner) : Prop :=
  filter_map d' = filter_map d /\ Registry.metadata d' = Registry.metadata d /\
  parent d' = parent d /\ ref_count d' = ref_count d.

(** From [w0] to [w] nothing has changed but the slots of the layer in the extensions of
    the span [k], which holds the fields [ff]. *)
Record stored (k : Z) (d0 : DataInner) (ff : option FormattedFields) (w0 w : World) : Prop := {
  st_rest : w = with_spans (spans w) w0;
  st_others k' : k' <> k -> pool_get k' (spans w) = pool_get k' (spans w0);
  st_data : exists d, pool_get k (spans w) = Some d /\ same_span d0 d /\
    of_val <$> ExtensionsInner.get fields_ty (extensions d) = ff /\
    forall ty, ty <> fields_ty -> ty <> timings_ty ->
      ExtensionsInner.get ty (extensions d) = ExtensionsInner.get ty (extensions d0);
}.

Lemma stored_refl k d w :
  pool_get k (spans w) = Some d ->
  stored k d (of_val <$> ExtensionsInner.get fields_ty (extensions d)) w w.
Proof. intros Hd. split; [by destruct w|done|]. by exists d. Qed.

(** A write to the extensions. *)
Lemma set_exts_stored k d0 ff ff' w0 w sp e :
  stored k d0 ff w0 w -> key (data sp) = k ->
  of_val <$> ExtensionsInner.get fields_ty e = ff' ->
  (forall d, pool_get k (spans w) = Some d -> forall ty, ty <> fields_ty -> ty <> timings_ty ->
     ExtensionsInner.get ty e = ExtensionsInner.get ty (extensions d)) ->
  exists w', set_exts e sp w = Done (tt, w') /\ stored k d0 ff' w0 w'.
Proof.
  intros [Hrest Hothers (d & Hd & Hsame & _ & Hexts)] <- He Hty. unfold set_exts. mred.
  rewrite Hd. cbn. eexists. split; [reflexivity|].
  split; cbn [spans with_spans].
  - by rewrite Hrest.
  - intros k' Hk'. rewrite pool_get_set by by rewrite Hd. rewrite decide_False by done.
    by apply Hothers.
  - exists (set_extensions e d). rewrite pool_get_set, decide_True by (done || by rewrite Hd).
    split_and!; try done. cbn. intros ty H1 H2. rewrite (Hty d Hd) by done. by apply Hexts.
Qed.

Lemma exts_stored k d0 ff w0 w sp :
  stored k d0 ff w0 w -> key (data sp) = k ->
  exists e, exts sp w = Done (e, w) /\ of_val <$> ExtensionsInner.get fields_ty e = ff /\
    forall d, pool_get k (spans w) = Some d -> extensions d = e.
Proof.
  intros [_ _ (d & Hd & _ & Hf & _)] <-. exists (extensions d). unfold exts. mred. rewrite Hd.
  split_and!; [done|done|]. by intros d' [= <-].
Qed.

Lemma insert_stored k d0 ff ff' w0 w sp ty v :
  stored k d0 ff w0 w -> key (data sp) = k ->
  ty = fields_ty \/ ty = timings_ty ->
  (exists e, exts sp w = Done (e, w) /\ ExtensionsInner.get ty e = None) ->
  (forall e, exts sp w = Done (e, w) ->
     of_val <$> ExtensionsInner.get fields_ty (<[ty := boxed ty v]> e) = ff') ->
  exists w', insert_ext ty v sp w = Done (tt, w') /\ stored k d0 ff' w0 w'.
Proof.
  intros Hs Hk Hty (e & He & Hnone) Hff. unfold insert_ext. mred. rewrite He.
  unfold ExtensionsMut.insert, ExtensionsMut.replace, ExtensionsInner.insert.
  unfold ExtensionsInner.get in Hnone. rewrite Hnone. cbn.
  eapply set_exts_stored; [done|done|by apply Hff|].
  intros d Hd ty' H1 H2. destruct (exts_stored k d0 ff w0 w sp Hs Hk) as (e' & He' & _ & Hd').
  rewrite He in He'. injection He' as <-. rewrite (Hd' d Hd), get_insert, set_at_ne; [done|].
  destruct Hty as [-> | ->]; congruence.
Qed.

(** What adding fields makes of the fields of a span. *)
Definition accumulate (ff : FormattedFields) (vs : ValueSet) : FormattedFields :=
  with_fields
    (if (ff_fields ff =? "")%string then join " " (pieces (as_writer ff) vs)
     else ff_fields ff ++ " " ++ join " " (pieces (as_writer ff) vs))%string ff.

Lemma get_fields_stored k d0 ff w0 w sp :
  stored k d0 ff w0 w -> key (data sp) = k -> get_fields sp w = Done (ff, w).
Proof.
  intros Hs Hk. destruct (exts_stored k d0 ff w0 w sp Hs Hk) as (e & He & Hf & _).
  unfold get_fields. mred. by rewrite He, Hf.
Qed.

(** A context through which the layer sees the span. *)
Definition sees (cx : Context_) (id : Id) (w : World) : Prop :=
  exists reg d, subscriber cx = Some reg /\ looks_up_registry reg /\
    pool_get (id_to_idx id) (spans w) = Some d /\
    Registry.is_enabled_for (filter cx) {| key := id_to_idx id; inner := d |} = true.

Lemma span_of_sees cx id w :
  sees cx id w -> exists sp, span_of id cx w = Done (sp, w) /\ key (data sp) = id_to_idx id.
Proof.
  intros (reg & d & Hs & Hreg & Hd & He). unfold span_of, Context_.span. rewrite Hs. mred.
  rewrite (lookup_span_get reg Hreg), Hd. cbn. unfold try_with_filter, span_is_enabled_for. cbn.
  rewrite He. cbn. by eexists.
Qed.

Lemma sees_stored cx id d0 ff w0 w :
  sees cx id w0 -> pool_get (id_to_idx id) (spans w0) = Some d0 ->
  stored (id_to_idx id) d0 ff w0 w -> sees cx id w.
Proof.
  intros (reg & d & Hs & Hreg & Hd & He) Hd0 [_ _ (d' & Hd' & (Hfm & _) & _)].
  exists reg, d'. split_and!; try done. rewrite Hd0 in Hd. injection Hd as <-.
  unfold Registry.is_enabled_for in *. cbn in *. by rewrite Hfm.
Qed.

Lemma on_record_stored self cx id d0 ff w0 w vs :
  layer_fields self = default_fields -> named vs ->
  sees cx id w0 -> pool_get (id_to_idx id) (spans w0) = Some d0 ->
  stored (id_to_idx id) d0 (Some ff) w0 w ->
  exists w', on_record self id vs cx w = Done (tt, w') /\
    stored (id_to_idx id) d0 (Some (accumulate ff vs)) w0 w'.
Proof.
  intros Hf Hn Hsees Hd0 Hs.
  destruct (span_of_sees cx id w (sees_stored _ _ _ _ _ _ Hsees Hd0 Hs)) as (sp & Hsp & Hk).
  destruct (exts_stored _ d0 _ w0 w sp Hs Hk) as (e & He & Hget & Hd).
  unfold FmtLayer.on_record. mred. rewrite Hsp, (get_fields_stored _ _ _ _ _ _ Hs Hk), Hf.
  cbn [add_fields default_fields]. rewrite (default_add_fields_spec ff vs Hn).
  fold (accumulate ff vs). cbn -[accumulate].
  unfold put_fields. mred. rewrite He. unfold ExtensionsInner.get_mut.
  unfold ExtensionsInner.get in Hget. destruct (e !! fields_ty ≫= downcast fields_ty) as [v|] eqn:Hv;
    [|done]. cbn -[accumulate].
  eapply set_exts_stored; [done|done| |].
  - rewrite get_insert, set_at_eq. cbn. by rewrite of_to_val.
  - intros d Hdd ty H1 H2. rewrite (Hd d Hdd), get_insert, set_at_ne by done. done.
Qed.

(** The fields of [new_span], into the empty slot. *)
Lemma format_new_spec self vs :
  layer_fields self = default_fields -> named vs ->
  format_new self vs = Done (Some (accumulate (new_fields self) vs)).
Proof.
  intros Hf Hn. unfold format_new. rewrite Hf. cbn [format_fields default_fields].
  by rewrite (default_format_fields_spec vs _ Hn).
Qed.

Lemma on_new_span_stored self cx attrs id d0 w :
  layer_fields self = default_fields -> named (Attributes.values attrs) ->
  trace_new (fmt_span self) = false -> sees cx id w ->
  pool_get (id_to_idx id) (spans w) = Some d0 ->
  ExtensionsInner.get fields_ty (extensions d0) = None ->
  exists w', on_new_span self attrs id cx w = Done (tt, w') /\
    stored (id_to_idx id) d0 (Some (accumulate (new_fields self) (Attributes.values attrs))) w w'.
Proof.
  intros Hf Hn Htr Hsees Hd0 Hnone.
  pose proof (stored_refl _ _ _ Hd0) as Hs. rewrite Hnone in Hs. cbn [fmap option_fmap option_map] in Hs.
  destruct (span_of_sees cx id w Hsees) as (sp & Hsp & Hk).
  unfold FmtLayer.on_new_span. mred. rewrite Hsp, (get_fields_stored _ _ _ _ _ _ Hs Hk).
  rewrite (format_new_spec self _ Hf Hn).
  destruct (exts_stored _ d0 _ w w sp Hs Hk) as (e & He & Hget & _).
  destruct (insert_stored _ d0 None (Some (accumulate (new_fields self) (Attributes.values attrs)))
    w w sp fields_ty (to_val (accumulate (new_fields self) (Attributes.values attrs))) Hs Hk)
    as (w1 & Hw1 & Hs1).
  { by left. }
  { exists e. split; [done|]. by destruct (ExtensionsInner.get fields_ty e). }
  { intros e' _. rewrite get_insert, set_at_eq. cbn. by rewrite of_to_val. }
  cbn -[accumulate]. rewrite Hw1. mred.
  destruct (exts_stored _ d0 _ w w1 sp Hs1 Hk) as (e1 & He1 & Hget1 & _).
  unfold get_timings. mred. rewrite He1. rewrite Htr.
  destruct (_ && _ && _) eqn:Hwant; [|by eexists].
  apply andb_true_iff in Hwant as [_ Ht%bool_decide_eq_true].
  destruct (insert_stored _ d0 _ (Some (accumulate (new_fields self) (Attributes.values attrs)))
    w w1 sp timings_ty (timings_val (Timings.new (now (user w1)))) Hs1 Hk) as (w2 & Hw2 & Hs2).
  { by right. }
  { exists e1. split; [done|]. by destruct (ExtensionsInner.get timings_ty e1). }
  { intros e' He'. rewrite He1 in He'. injection He' as <-.
    rewrite get_insert, set_at_ne; [done|apply slots_differ]. }
  mred. rewrite Hw2. by eexists.
Qed.

Fixpoint record_all self (cx : Context_) (id : Id) (l : list ValueSet) : M unit :=
  match l with
  | [] => mret tt
  | vs :: l => _ ← on_record self id vs cx; record_all self cx id l
  end.

(** Creating a span that the layer sees stores with it the text of the fields it was
    created with, and every later [record] adds one space and the text of the recorded
    fields to it (the space even when no field is recorded); nothing panics, and nothing else in the program
    changes: no other span, no extension of another layer, nothing of the span but the
    fields and the timings of this layer. *)
Theorem span_fields_accumulate self cx attrs id d0 w recs :
  layer_fields self = default_fields -> trace_new (fmt_span self) = false ->
  sees cx id w -> pool_get (id_to_idx id) (spans w) = Some d0 ->
  ExtensionsInner.get fields_ty (extensions d0) = None ->
  named (Attributes.values attrs) -> Forall named recs ->
  exists w', (_ ← on_new_span self attrs id cx; record_all self cx id recs) w = Done (tt, w') /\
    stored (id_to_idx id) d0
      (Some (foldl accumulate (accumulate (new_fields self) (Attributes.values attrs)) recs)) w w'.
Proof.
  intros Hf Htr Hsees Hd0 Hnone Hn Hrecs.
  destruct (on_new_span_stored self cx attrs id d0 w Hf Hn Htr Hsees Hd0 Hnone) as (w1 & Hw1 & Hs1).
  mred. rewrite Hw1. clear Hw1.
  generalize dependent (accumulate (new_fields self) (Attributes.values attrs)).
  revert w1. induction Hrecs as [|vs recs Hvs _ IH]; intros w1 ff Hs1; [by eexists|].
  destruct (on_record_stored self cx id d0 ff w w1 vs Hf Hvs Hsees Hd0 Hs1) as (w2 & Hw2 & Hs2).
  cbn [record_all foldl]. mred. rewrite Hw2. by apply IH.
Qed.

End behaviour.

(** ** A concrete layer

    A program whose layers keep a buffer, the clock, the lines written to a stream and to
    the error stream; its styles are the codes of [nu_ansi_term]. *)
Module FmtExample.

Record State := {
  clock : Z; buffer : string; longest : Z; running : Thread; out : list string; err : list string }.

#[local] Instance env : Env := {|
  debug_assertions := true;
  ext_types := fun ty => match ty with 1%N => FormattedFields | 2%N => Timings | _ => unit end;
  UserState := State;
|}.
#[local] Instance pool_ops : PoolOps DataInner := map_pool default_data.
#[local] Instance slot : FieldsSlot.
Proof. by refine {| fields_ty := 1%N; to_val f := f; of_val f := f |}. Defined.
#[local] Instance fmt_env : FmtEnv := {|
  this_thread := running; max_len := longest;
  set_max_len n u := {| clock := clock u; buffer := buffer u; longest := n; running := running u;
                        out := out u; err := err u |};
|}.
#[local] Instance layer_env : LayerEnv.
Proof.
  refine {|
    timings_ty := 2%N; timings_val t := t; val_timings t := t; now := clock; buf := buffer;
    set_buf s u := {| clock := clock u; buffer := s; longest := longest u; running := running u;
                      out := out u; err := err u |};
    eprintln s u := {| clock := clock u; buffer := buffer u; longest := longest u;
                       running := running u; out := out u; err := err u ++ [s] |};
  |}. done.
Defined.
#[local] Instance layer_laws : LayerEnvLaws layer_env.
Proof. by split. Qed.

Definition code (n : string) : string := String (Ascii.ascii_of_nat 27) ("[" ++ n ++ "m")%string.
#[local] Instance crates : FmtCrates := {|
  style_prefix s :=
    match s with
    | Plain => "" | Bold => code "1" | Dimmed => code "2" | Italic => code "3"
    | Fg Purple => code "35" | Fg Blue => code "34" | Fg Green => code "32"
    | Fg Yellow => code "33" | Fg Red => code "31"
    end;
  style_suffix s := match s with Plain => "" | _ => code "0" end;
  f64_debug _ := ["0.0"];
  str_debug s := [(DQ ++ s ++ DQ)%string];
  tracing_log := false;
  log_callsite _ := 99%N;
|}.
#[local] Instance crates_laws : FmtCratesLaws crates.
Proof. by split. Qed.

(** A stream that never fails, and the closure that returns it. *)
Definition put (s : string) (u : State) : State :=
  {| clock := clock u; buffer := buffer u; longest := longest u; running := running u;
     out := out u ++ [s]; err := err u |}.
#[local] Instance stream : IoWrite State unit unit := {|
  Writers.write _ s u := (put s u, Ok (Z.of_nat (str_len s)));
  flush _ u := (u, Ok tt);
  write_vectored _ l u := (put (String.concat "" l) u, Ok (Z.of_nat (sum_list_with str_len l)));
  write_all _ s u := (put s u, Ok tt);
  write_fmt _ s u := (put s u, Ok tt);
|}.
#[local] Instance stream_make : MakeWriter unit unit :=
  {| Writers.make_writer m := m; make_writer_for := default_make_writer_for (fun m => m) |}.

Definition the_time : FM unit := write "2024-01-01".
Definition full : Format := default_format the_time.
Definition self : FmtLayer :=
  layer_default tt (format_event_full 10 full) true (Some "1"%string).

Definition values_of (callsite : N) (l : list (string * Value)) : ValueSet :=
  let fs := FieldSet.new l.*1 callsite in
  ValueSet.value_set fs (combine (FieldSet.iter fs) (Some <$> l.*2)).
Definition meta_for (name : string) (callsite : N) (names : list string) (k : Kind) : Metadata :=
  Metadata.new name "app" Level.INFO (Some "src/main.rs") (Some 7) None
    (FieldSet.new names callsite) k.

(** The span [inner] in [outer], which has a field; the thread is in [inner]. *)
Definition span_data (name : string) (parent : option Id) (fields : option FormattedFields) :
    DataInner := {|
  filter_map := FilterMap.new; Registry.metadata := meta_for name 1 ["id"] Kind.SPAN;
  parent := parent; ref_count := 1;
  extensions := match fields with Some f => {[ 1%N := boxed 1%N f ]} | None => ∅ end;
|}.
Definition outer : DataInner :=
  span_data "outer" None
    (Some {| ff_fields := "id=1"; was_ansi := false; was_ansi_sanitized := true |}).
Definition inner_span : DataInner := span_data "inner" (Some (idx_to_id 0)) None.
Definition world : World := {|
  filtering := FilterState.new; close_count := 0;
  current_spans := Some [{| ctx_id := idx_to_id 1; duplicate := false |}]; panicking := false;
  spans := {| live := <[0 := outer]> {[ 1 := inner_span ]}; spare := [] |};
  next_filter_id := 0;
  user := {| clock := 5; buffer := ""; longest := 0;
             running := {| thread_name := Some "main"%string; thread_id := 1 |};
             out := []; err := [] |};
|}.
Definition cx : Context_ := Context_.new registry_subscriber.

Definition event_values : ValueSet :=
  values_of 2 [("message"%string, VDebug (DisplayValue ["hello"])); ("n"%string, VI64 3)].
Definition event : Event :=
  Event.new (meta_for "event" 2 ["message"; "n"] Kind.EVENT) event_values.
Definition root_event : Event :=
  Event.new_child_of None (meta_for "event" 2 ["message"; "n"] Kind.EVENT) event_values.

End FmtExample.

Section witnesses.
Import FmtExample.
#[local] Existing Instances env pool_ops slot fmt_env layer_env layer_laws crates crates_laws
  stream stream_make.

(** The spans of the event, and the names that the compact format shows. *)
Definition inner_scope : list SpanRef :=
  as_span FilterId.none <$> [{| key := 0; inner := outer |}; {| key := 1; inner := inner_span |}].

Lemma example_spans u : event_spans 10 cx event (with_user u world) inner_scope.
Proof. eexists (Some _). split; [vm_compute; reflexivity|vm_compute; reflexivity]. Qed.

Lemma example_names u ev :
  Event.parent ev = None -> ctx_spans 10 cx ev (with_user u world) inner_scope.
Proof.
  intros Hev. unfold ctx_spans. rewrite Hev.
  eexists (Some _). split; [vm_compute; reflexivity|vm_compute; reflexivity].
Qed.

Lemma example_timer : timer_writes full "2024-01-01" true.
Proof. done. Qed.

Lemma example_named : named event_values.
Proof. repeat (constructor; [by eexists|]). constructor. Qed.

Lemma default_fields_write_witness :
  named event_values /\
  format_fields default_fields event_values (writer_new "> ") =
    Done (writer_new "> hello n=3", Ok tt).
Proof.
  split; [exact example_named|].
  refine (proj1 (default_fields_write event_values (writer_new "> ")
    (formatted_new "") example_named)).
Defined.

Lemma compact_format_line_witness :
  format_event_compact 10 full {| ctx := cx; fmt_fields := default_fields |} event
    (writer_new "") world =
  Done ((writer_new ("2024-01-01  INFO outer:inner: app: hello n=3 id=1" ++ NL), Ok tt), world).
Proof.
  etransitivity; [|vm_compute; reflexivity].
  refine (compact_format_line 10 full {| ctx := cx; fmt_fields := default_fields |} event world
    (writer_new "") "2024-01-01" true inner_scope inner_scope example_timer eq_refl example_named
    example_spans (fun u => example_names u event eq_refl)).
Defined.

(** The names of a root event are those of the current span; the full format shows none. *)
Example compact_root_names :
  exists w1 w2,
    format_event_compact 10 full {| ctx := cx; fmt_fields := default_fields |} root_event
      (writer_new "") world =
      Done ((writer_new ("2024-01-01  INFO outer:inner: app: hello n=3" ++ NL), Ok tt), w1) /\
    format_event_full 10 full {| ctx := cx; fmt_fields := default_fields |} root_event
      (writer_new "") world =
      Done ((writer_new ("2024-01-01  INFO app: hello n=3" ++ NL), Ok tt), w2).
Proof. eexists _, _. split; vm_compute; reflexivity. Qed.

Lemma fmt_layer_writes_line_witness :
  exists w', on_event (fun _ : unit => "") (fun _ => "") self event cx world = Done (tt, w') /\
    out (user w') = [("2024-01-01  INFO outer{id=1}:inner: app: hello n=3" ++ NL)%string] /\
    buffer (user w') = "".
Proof.
  destruct (fmt_layer_writes_line (fun _ : unit => "") (fun _ => "") 10 full self cx event world
    "2024-01-01" true inner_scope) as (w' & Hw & Hw' & _);
    [reflexivity..|exact example_timer|exact example_named|exact example_spans|].
  exists w'. split; [exact Hw|]. rewrite Hw'. split; vm_compute; reflexivity.
Defined.

Definition recorded_later : ValueSet :=
  values_of 1 [("id"%string, VI64 2); ("note"%string, VStr "late")].

Lemma span_fields_accumulate_witness :
  exists w', (_ ← on_new_span (fun _ => "") (fun _ : unit => "") (fun _ => "") self
                    (Attributes.new (meta_for "inner" 1 ["id"] Kind.SPAN)
                       (values_of 1 [("id"%string, VI64 1)])) (idx_to_id 1) cx;
              record_all self cx (idx_to_id 1) [values_of 1 []; recorded_later]) world =
               Done (tt, w') /\
    stored (id_to_idx (idx_to_id 1)) inner_span
      (Some {| ff_fields := ("id=1  id=2 note=" ++ DQ ++ "late" ++ DQ)%string;
               was_ansi := false; was_ansi_sanitized := true |}) world w'.
Proof.
  destruct (span_fields_accumulate (fun _ => "") (fun _ : unit => "") (fun _ => "") self cx
    (Attributes.new (meta_for "inner" 1 ["id"] Kind.SPAN) (values_of 1 [("id"%string, VI64 1)]))
    (idx_to_id 1) inner_span world [values_of 1 []; recorded_later]) as (w' & Hw & Hs).
  - reflexivity.
  - reflexivity.
  - exists registry_subscriber, inner_span. split_and!; [done|exact registry_looks_up|..];
      vm_compute; reflexivity.
  - vm_compute. reflexivity.
  - vm_compute. reflexivity.
  - repeat (constructor; [by eexists|]). constructor.
  - repeat constructor; by eexists.
  - exists w'. split; [exact Hw|exact Hs].
Defined.

End witnesses.
