(* ===== verification/Reload.v ===== *)
(** * Reload: [tracing-subscriber/src/reload.rs]

    A layer or a filter behind a lock, and the handles that replace it while the program
    runs.  The value in the lock is an argument of the layer: a stack around a reloadable
    layer is a function of the value, and reloading is going over to the stack of the new
    value and rebuilding the interest cache. *)

From S2P Require Import Prelude.
From S2P Require Import Str.
From S2P Require Import Levels.
From S2P Require Import Fields.
From S2P Require Import Meta.
From S2P Require Import Interests.
From S2P Require Import Callsites.
From S2P Require Import FilterIds.
From S2P Require Import Registry.
From S2P Require Import Pools.
From S2P Require Import Contexts.
From S2P Require Import Filters.
From S2P Require Import Layers.
From S2P Require Import LogBridge.
From S2P Require Import Stacks.

(** ** The lock

    [RwLock<L>]: its value, and whether a writer has panicked. *)
Record RwLock (L : Type) := { value : L; poisoned : bool }.
Arguments value {L}. Arguments poisoned {L}.

(** [RwLock::new] *)
Definition lock_new {L} (inner : L) : RwLock L := {| value := inner; poisoned := false |}.

(** ** [struct Layer] as a layer and as a filter *)

Section reload_layer.
Context `{E : Env} {P : PoolOps DataInner}.

(** [try_lock!(self.inner.read(), else ..)] *)
Definition try_read {L A} (inner : RwLock L) (els : A) (f : L -> M A) : M A :=
  if negb (poisoned inner) then f (value inner)
  else
    panicking ← gets panicking;
    if (panicking : bool) then mret els else lift Panic.

(** [impl Layer for Layer<L, S>].  The maximum level hint and the answer for the marker of
    a [None] layer cannot fail in [Layers.Layer]: of a poisoned lock they are those of a
    panicking thread.  The marker of per-layer filters is not asked of the inner layer. *)
Definition reload_layer (inner : RwLock Layer) : Layer := {|
  l_on_register_dispatch := try_read inner tt l_on_register_dispatch;
  l_register_callsite metadata :=
    try_read inner Interest.sometimes (fun l => l_register_callsite l metadata);
  l_enabled metadata ctx := try_read inner false (fun l => l_enabled l metadata ctx);
  l_max_level_hint := if poisoned inner then None else l_max_level_hint (value inner);
  l_on_new_span attrs id ctx := try_read inner tt (fun l => l_on_new_span l attrs id ctx);
  l_on_record span values ctx := try_read inner tt (fun l => l_on_record l span values ctx);
  l_on_follows_from span follows ctx :=
    try_read inner tt (fun l => l_on_follows_from l span follows ctx);
  l_event_enabled event ctx := try_read inner false (fun l => l_event_enabled l event ctx);
  l_on_event event ctx := try_read inner tt (fun l => l_on_event l event ctx);
  l_on_enter id ctx := try_read inner tt (fun l => l_on_enter l id ctx);
  l_on_exit id ctx := try_read inner tt (fun l => l_on_exit l id ctx);
  l_on_close id ctx := try_read inner tt (fun l => l_on_close l id ctx);
  l_on_id_change old new ctx := try_read inner tt (fun l => l_on_id_change l old new ctx);
  l_has_plf := false;
  l_is_none := if poisoned inner then false else l_is_none (value inner);
|}.

(** [on_layer]: the inner layer is attached behind the lock. *)
Definition reload_on_layer (inner : RwLock Unattached) : DynSubscriber -> M (RwLock Layer) :=
  fun subscriber =>
    if negb (poisoned inner) then
      layer ← value inner subscriber; mret {| value := layer; poisoned := false |}
    else
      panicking ← gets panicking;
      if (panicking : bool) then mret {| value := identity_layer; poisoned := true |}
      else lift Panic.
Definition reload_unattached (inner : RwLock Unattached) : Unattached := fun subscriber =>
  lock ← reload_on_layer inner subscriber; mret (reload_layer lock).

(** [impl Filter for Layer<L, S>]: [event_enabled] is the trait's. *)
Definition reload_filter (inner : RwLock Filter) : Filter := {|
  f_enabled metadata ctx := try_read inner false (fun f => f_enabled f metadata ctx);
  f_callsite_enabled metadata :=
    try_read inner Interest.sometimes (fun f => f_callsite_enabled f metadata);
  f_event_enabled _ _ := mret true;
  f_max_level_hint := if poisoned inner then None else f_max_level_hint (value inner);
  f_on_new_span attrs id ctx := try_read inner tt (fun f => f_on_new_span f attrs id ctx);
  f_on_record span values ctx := try_read inner tt (fun f => f_on_record f span values ctx);
  f_on_enter id ctx := try_read inner tt (fun f => f_on_enter f id ctx);
  f_on_exit id ctx := try_read inner tt (fun f => f_on_exit f id ctx);
  f_on_close id ctx := try_read inner tt (fun f => f_on_close f id ctx);
|}.

(** While the lock is not poisoned the layer is the inner layer, up to the marker. *)
Lemma reload_layer_transparent l :
  reload_layer (lock_new l) =
  {| l_on_register_dispatch := l_on_register_dispatch l; l_register_callsite := l_register_callsite l;
     l_enabled := l_enabled l; l_max_level_hint := l_max_level_hint l;
     l_on_new_span := l_on_new_span l; l_on_record := l_on_record l;
     l_on_follows_from := l_on_follows_from l; l_event_enabled := l_event_enabled l;
     l_on_event := l_on_event l; l_on_enter := l_on_enter l; l_on_exit := l_on_exit l;
     l_on_close := l_on_close l; l_on_id_change := l_on_id_change l;
     l_has_plf := false; l_is_none := l_is_none l |}.
Proof. done. Qed.

End reload_layer.

(** ** [struct Error] *)

Inductive ErrorKind := SubscriberGone | Poisoned.
Definition is_poisoned (e : ErrorKind) : bool := match e with Poisoned => true | _ => false end.
Definition is_dropped (e : ErrorKind) : bool :=
  match e with SubscriberGone => true | _ => false end.
Definition error_display (e : ErrorKind) : string :=
  match e with
  | SubscriberGone => "subscriber no longer exists"
  | Poisoned => "lock poisoned"
  end.

(** ** [struct Handle]

    What a handle acts on: the cell of the lock, [None] when the subscriber with the layer
    has been dropped; the registered dispatchers and callsites; and the maximum level of
    the crate [log].  A dispatcher around the layer answers by the value in the cell. *)
Section handle.
Context {L R : Type}.
Variable upgrade : L -> R -> option Subscriber.
(** The current default dispatcher of the thread that uses the handle. *)
Variable get_default : L -> Subscriber.
Variable panicking : bool.

Record Sys := {
  cell : option (RwLock L);
  dispatchers : Dispatchers.t R;
  callsites : Callsites;
  log_max : Log.LevelFilter;
}.

(** [callsite::rebuild_interest_cache] with the value in the lock. *)
Definition rebuild_interest_cache (v : L) (ds : Dispatchers.t R) : Callsites -> Callsites :=
  rebuild_interest
    (Dispatchers.for_each (upgrade v) (get_default v) (Dispatchers.rebuilder ds)).

(** [Handle::modify]: the closure leaves a value in the lock, and may panic. *)
Definition modify (f : L -> L * outcome unit) (s : Sys) : Sys * outcome (result unit ErrorKind) :=
  match cell s with
  | None => (s, Done (Err SubscriberGone))
  | Some inner =>
      if poisoned inner then (s, if panicking then Done (Err Poisoned) else Panic)
      else
        match f (value inner) with
        | (v, Panic) =>
            ({| cell := Some {| value := v; poisoned := true |}; dispatchers := dispatchers s;
                callsites := callsites s; log_max := log_max s |}, Panic)
        | (v, Done _) =>
            let cs := rebuild_interest_cache v (dispatchers s) (callsites s) in
            match LevelFilter.current (MAX_LEVEL cs) with
            | Panic =>
                ({| cell := Some (lock_new v); dispatchers := dispatchers s; callsites := cs;
                    log_max := log_max s |}, Panic)
            | Done max =>
                ({| cell := Some (lock_new v); dispatchers := dispatchers s; callsites := cs;
                    log_max := filter_as_log max |}, Done (Ok tt))
            end
        end
  end.

(** [Handle::reload] *)
Definition reload (new_value : L) : Sys -> Sys * outcome (result unit ErrorKind) :=
  modify (fun _ => (new_value, Done tt)).

(** [Handle::with_current], [Handle::clone_current] *)
Definition with_current {T} (f : L -> T) (s : Sys) : outcome (result T ErrorKind) :=
  match cell s with
  | None => Done (Err SubscriberGone)
  | Some inner =>
      if poisoned inner then if panicking then Done (Err Poisoned) else Panic
      else Done (Ok (f (value inner)))
  end.
Definition clone_current (clone : L -> L) (s : Sys) : outcome (option L) :=
  r ← with_current clone s; Done (match r with Ok v => Some v | Err _ => None end).

(** The default dispatcher of the thread is the only one, when there is only one. *)
Definition default_registered (v : L) (ds : Dispatchers.t R) : Prop :=
  Dispatchers.has_just_one ds = true ->
  forall r d, r ∈ Dispatchers.LOCKED_DISPATCHERS ds -> upgrade v r = Some d -> d = get_default v.

Lemma visits_live v ds r d :
  default_registered v ds -> r ∈ Dispatchers.LOCKED_DISPATCHERS ds -> upgrade v r = Some d ->
  d ∈ Dispatchers.for_each (upgrade v) (get_default v) (Dispatchers.rebuilder ds).
Proof.
  unfold Dispatchers.rebuilder. intros Hd Hr Hu.
  destruct (Dispatchers.has_just_one ds) eqn:Hone; simpl.
  - rewrite (Hd Hone r d Hr Hu). by left.
  - apply list_elem_of_omap. by exists r.
Qed.

(** C3: when a handle modifies the value of a layer in use, the lock holds the new value,
    and the whole program goes by it: every registered callsite caches the combined
    interest of the dispatchers as they answer now, the maximum levels of [tracing] and of
    [log] are the most verbose of their present hints, so nothing that a live dispatcher
    enables from now on is hidden by what was cached under the old value, provided that
    the thread's default dispatcher is the only one when only one is registered. *)
Theorem reload_takes_effect (f : L -> L * outcome unit) (s : Sys) (l : list Identifier)
    (v v' : L) :
  cell s = Some (lock_new v) -> f v = (v', Done tt) -> wf (callsites s) l ->
  default_registered v' (dispatchers s) ->
  let ds := Dispatchers.for_each (upgrade v') (get_default v') (Dispatchers.rebuilder (dispatchers s)) in
  Forall SubscriberContract ds ->
  exists s', modify f s = (s', Done (Ok tt)) /\ cell s' = Some (lock_new v') /\
    dispatchers s' = dispatchers s /\ wf (callsites s') l /\
    LevelFilter.current (MAX_LEVEL (callsites s')) = Done (max_hint ds) /\
    log_max s' = filter_as_log (max_hint ds) /\
    (forall c, registered (callsites s) l c -> exists m,
       callsite_meta c (callsites s') = Some m /\
       interest_of (callsites s') c = Some (combined_interest ds m) /\
       (forall r d, r ∈ Dispatchers.LOCKED_DISPATCHERS (dispatchers s) -> upgrade v' r = Some d ->
          sub_enabled d m = true ->
          interest_of (callsites s') c <> Some Never /\
          LevelFilter.ge_level (max_hint ds) (Metadata.level m) = true)).
Proof.
  intros Hc Hf Hwf Hdef ds Hds.
  destruct (rebuild_spec (callsites s) l ds Hwf Hds) as (H1 & _ & H3 & H4 & _).
  unfold modify. rewrite Hc. cbn [poisoned lock_new value]. rewrite Hf.
  unfold rebuild_interest_cache. fold ds. rewrite H3.
  eexists. split; [reflexivity|]. cbn [cell dispatchers callsites log_max].
  split_and!; try done.
  intros c Hreg. destruct (H4 c Hreg) as (m & Hm & _ & Hi & He & _). exists m.
  split_and!; [done|done|]. intros r d Hr Hu Hen. apply (He d); [|done].
  by eapply visits_live.
Qed.

(** The failures: a handle whose subscriber is gone changes nothing and says so; a closure
    that panics poisons the lock, and from then on every use of a handle fails. *)
Lemma modify_errors f s :
  (cell s = None -> modify f s = (s, Done (Err SubscriberGone))) /\
  (forall v v', cell s = Some (lock_new v) -> f v = (v', Panic) ->
     exists s', modify f s = (s', Panic) /\ callsites s' = callsites s /\
       forall g, modify g s' = (s', if panicking then Done (Err Poisoned) else Panic)).
Proof.
  split.
  - intros H. unfold modify. by rewrite H.
  - intros v v' H Hf. unfold modify. rewrite H. cbn [poisoned lock_new value]. rewrite Hf.
    eexists. split; [reflexivity|]. split; [done|]. intros g. done.
Qed.

End handle.
Arguments Sys : clear implicits.

(** ** Concrete handles

    A level filter in the lock; the dispatcher [true] is around it, [false] refuses
    everything. *)
Definition answers_at (f : LevelFilter.t) : Subscriber :=
  {| sub_register_callsite :=
       default_register_callsite (fun m => LevelFilter.ge_level f (Metadata.level m));
     sub_enabled := fun m => LevelFilter.ge_level f (Metadata.level m);
     sub_max_level_hint := Some f |}.

#[export] Instance answers_at_contract f : SubscriberContract (answers_at f).
Proof.
  split; simpl.
  - intros m. unfold default_register_callsite. by case_match.
  - intros m. unfold default_register_callsite. by case_match.
  - by intros m g [= <-].
Qed.

Definition example_upgrade (f : LevelFilter.t) (r : bool) : option Subscriber :=
  Some (if r then answers_at f else NoSubscriber).
Definition example_sys (registrars : list bool) : Sys LevelFilter.t bool := {|
  cell := Some (lock_new LevelFilter.ERROR);
  dispatchers := {| Dispatchers.has_just_one := (length registrars <=? 1)%nat;
                    Dispatchers.LOCKED_DISPATCHERS := registrars |};
  callsites := example_registry;
  log_max := Log.ErrorF;
|}.

Lemma reload_takes_effect_witness :
  exists s', reload example_upgrade answers_at false LevelFilter.TRACE (example_sys [true; false]) =
               (s', Done (Ok tt)) /\
    interest_of (callsites s') 2%N = Some Sometimes /\ log_max s' = Log.TraceF.
Proof.
  destruct (reload_takes_effect example_upgrade answers_at false (fun _ => (LevelFilter.TRACE, Done tt))
    (example_sys [true; false]) [1%N] LevelFilter.ERROR LevelFilter.TRACE)
    as (s' & Hs & _ & _ & _ & _ & Hlog & Hc).
  - reflexivity.
  - reflexivity.
  - exact example_registry_wf.
  - discriminate.
  - apply Forall_cons. split; [apply _|]. apply Forall_singleton. apply _.
  - exists s'. split; [exact Hs|]. split; [|exact Hlog].
    destruct (Hc 2%N ltac:(right; by left)) as (m & Hm & Hi & _). rewrite Hi.
    assert (callsite_meta 2%N (callsites s') = Some (example_metadata 2)) as Hm'.
    { injection Hs as <-. vm_compute. reflexivity. }
    rewrite Hm' in Hm. injection Hm as <-. vm_compute. reflexivity.
Defined.

(** With a single dispatcher the rebuild asks the default dispatcher of the calling thread
    instead.  A thread without one that uses the handle disables every callsite for the
    thread that has it. *)
Lemma reload_from_another_thread :
  let '(s', r) := reload example_upgrade (fun _ => NoSubscriber) false LevelFilter.TRACE
                    (example_sys [true]) in
  r = Done (Ok tt) /\ cell s' = Some (lock_new LevelFilter.TRACE) /\
  sub_enabled (answers_at LevelFilter.TRACE) (example_metadata 1) = true /\
  interest_of (callsites s') 1%N = Some Never /\
  LevelFilter.current (MAX_LEVEL (callsites s')) = Done LevelFilter.TRACE.
Proof. vm_compute. repeat split. Qed.

(** The marker of per-layer filters is not forwarded: a filtered layer that may be reloaded
    next to a layer without a filter makes the stack report the filter's level as the
    maximum for all, although events above it reach the other layer.  The same stack
    without the lock gives no maximum. *)
Lemma reloadable_filtered_hides_others :
  let filtered := with_filter (level_filter LevelFilter.WARN) (Layers.plain (spy_layer 2 (fun _ => true))) in
  let other := Layers.plain (spy_layer 1 (fun _ => true)) in
  exists s w t v,
    with_layers no_close [other; reload_unattached (lock_new filtered)] registry_subscriber
      example_world = Done (s, w) /\
    with_layers no_close [other; filtered] registry_subscriber example_world = Done (t, v) /\
    s_max_level_hint s = Some LevelFilter.WARN /\ s_max_level_hint t = None /\
    LevelFilter.ge_level LevelFilter.WARN Level.INFO = false /\
    (p ← record_event s Sometimes (event_at Level.INFO) w; Done (user p.2)) = Done [(1%nat, event_id)].
Proof.
  intros filtered other. eexists _, _, _, _. split; [reflexivity|]. split; [reflexivity|].
  split_and!; reflexivity.
Qed.

(** A filter that refuses every event lets all of them pass when it may be reloaded. *)
Lemma reloadable_filter_passes_events `{E : Env} {P : PoolOps DataInner} enabled ev cx w :
  let f := {| f_enabled := enabled; f_callsite_enabled := default_callsite_enabled;
              f_event_enabled _ _ := mret false; f_max_level_hint := None;
              f_on_new_span _ _ _ := mret tt; f_on_record _ _ _ := mret tt;
              f_on_enter _ _ := mret tt; f_on_exit _ _ := mret tt; f_on_close _ _ := mret tt |} in
  f_event_enabled f ev cx w = Done (false, w) /\
  f_event_enabled (reload_filter (lock_new f)) ev cx w = Done (true, w).
Proof. done. Qed.
