(* ===== verification/RebuildThreads.v ===== *)
(** * RebuildThreads: a rebuild of the interest cache while callsites are registered

    The steps of [Register] from the moment at which the answers of the dispatchers have
    changed, as [reload] and [register_dispatch] do: which interest each callsite ends up
    with, when a traversal that rebuilds the cache is interleaved with registering threads
    and other traversals. *)

From S2P Require Import Prelude.
From S2P Require Import Levels.
From S2P Require Import Fields.
From S2P Require Import Meta.
From S2P Require Import Interests.
From S2P Require Import Callsites.
From S2P Require Import Register.

Local Open Scope Z_scope.

(** A step after the change: the dispatchers that are visited are [ds]. *)
Inductive step_at (ds : list Subscriber) : state -> state -> Prop :=
  | step_at_thread i t t' cs cs' ts :
      ts !! i = Some t -> thread_step ds t cs = Some (t', cs') ->
      step_at ds (cs, ts) (cs', <[i := t']> ts).

Lemma step_at_step ds s s' : step_at ds s s' -> step s s'.
Proof. destruct 1. by econstructor. Qed.

(** A thread that has no interest in its hands that it will store. *)
Definition empty_handed (t : thread) : Prop :=
  match t with
  | Reg _ (SetInterest _) | Walk (WalkSetInterest _ _) _ => False
  | _ => True
  end.

Section settle.
Variable ds : list Subscriber.

(** The callsite caches what the dispatchers answer now. *)
Definition right (d : DefaultCallsite) : Prop :=
  interest_set d /\ DefaultCallsite.cached d = combined_interest ds (meta d).

Definition carries (cs : Callsites) (t : thread) : Prop :=
  match t with
  | Reg c (SetInterest i) | Walk (WalkSetInterest c i) _ =>
      exists d, defaults cs !! c = Some d /\ i = combined_interest ds (meta d)
  | _ => True
  end.

(** The callsites that a traversal has before it. *)
Definition to_visit (cs : Callsites) (p : walk_pc) (c : Identifier) : Prop :=
  match p with
  | WalkLoadHead => exists l, chain (defaults cs) (list_head cs) l /\ c ∈ l
  | WalkVisit h => exists rest, chain (defaults cs) h rest /\ c ∈ rest
  | WalkSetInterest x _ => exists rest, chain (defaults cs) (Some x) (x :: rest) /\ c ∈ x :: rest
  | WalkLoadNext x => exists rest, chain (defaults cs) (Some x) (x :: rest) /\ c ∈ rest
  | WalkDone => False
  end.

(** The traversal of the thread [w] settles the cache: a callsite that is registered, or
    about to be, is right or will be visited. *)
Record settling (w : nat) (s : state) : Prop := {
  set_carries i t : s.2 !! i = Some t -> carries s.1 t;
  set_walk : exists p seen, s.2 !! w = Some (Walk p seen) /\
    forall c d, defaults s.1 !! c = Some d ->
      registration d = DefaultCallsite.REGISTERED \/
        (exists i, s.2 !! i = Some (Reg c StoreRegistered)) ->
      right d \/ to_visit s.1 p c;
}.

Lemma chain_det (cs : gmap Identifier DefaultCallsite) h k l : chain cs h k -> chain cs h l -> k = l.
Proof.
  revert h l. induction k as [|x k IH]; intros h l; destruct l as [|y l]; simpl; try done.
  - by intros -> [? _].
  - by intros [-> _] ?.
  - intros (-> & d & Hd & Hk) ([= <-] & e & He & Hl). simplify_eq. f_equal. by eapply IH.
Qed.

(** What a step does to a callsite. *)
Lemma cell_step t cs t' cs' c d :
  thread_step ds t cs = Some (t', cs') -> defaults cs !! c = Some d ->
  exists d', defaults cs' !! c = Some d' /\ meta d' = meta d /\
    (interest d' = interest d \/
     exists i, (t = Reg c (SetInterest i) \/ exists seen, t = Walk (WalkSetInterest c i) seen) /\
       d' = DefaultCallsite.set_interest i d) /\
    (registration d' = DefaultCallsite.REGISTERED ->
     registration d = DefaultCallsite.REGISTERED \/ t = Reg c StoreRegistered).
Proof.
  intros Hs Hd.
  assert (forall x f, (forall e, defaults cs !! x = Some e -> meta (f e) = meta e) ->
    (x = c -> (interest (f d) = interest d \/
       exists i, (t = Reg c (SetInterest i) \/ exists seen, t = Walk (WalkSetInterest c i) seen) /\
         f d = DefaultCallsite.set_interest i d) /\
      (registration (f d) = DefaultCallsite.REGISTERED ->
       registration d = DefaultCallsite.REGISTERED \/ t = Reg c StoreRegistered)) ->
    cs' = upd x f cs ->
    exists d', defaults cs' !! c = Some d' /\ meta d' = meta d /\
      (interest d' = interest d \/
       exists i, (t = Reg c (SetInterest i) \/ exists seen, t = Walk (WalkSetInterest c i) seen) /\
         d' = DefaultCallsite.set_interest i d) /\
      (registration d' = DefaultCallsite.REGISTERED ->
       registration d = DefaultCallsite.REGISTERED \/ t = Reg c StoreRegistered)) as Hupd.
  { intros x f Hm Hf ->. simpl. destruct (decide (x = c)) as [->|Hne].
    - rewrite lookup_alter_eq, Hd. simpl. destruct (Hf eq_refl). exists (f d). split_and!; auto.
    - rewrite lookup_alter_ne by done. exists d. split_and!; auto. }
  assert (defaults cs' = defaults cs -> exists d', defaults cs' !! c = Some d' /\ meta d' = meta d /\
      (interest d' = interest d \/
       exists i, (t = Reg c (SetInterest i) \/ exists seen, t = Walk (WalkSetInterest c i) seen) /\
         d' = DefaultCallsite.set_interest i d) /\
      (registration d' = DefaultCallsite.REGISTERED ->
       registration d = DefaultCallsite.REGISTERED \/ t = Reg c StoreRegistered)) as Hsame.
  { intros ->. exists d. split_and!; auto. }
  destruct t as [x p|p seen]; simpl in Hs.
  - destruct (defaults cs !! x) as [e|] eqn:He; [|done]. simpl in Hs.
    destruct p; simpl in Hs; repeat case_match; simplify_eq/=;
      try (by apply Hsame); (eapply Hupd; [|..|reflexivity]; [done|intros ->]; simpl;
        split; [by eauto 6|intros Hx; first [discriminate Hx|by auto]]).
  - destruct p as [|[x|]|x i|x|]; simpl in Hs;
      try (destruct (defaults cs !! x) as [e|] eqn:He; simpl in Hs); simplify_eq/=;
      try (by apply Hsame);
      (eapply Hupd; [|..|reflexivity]; [done|intros ->]; simpl; split; [right; by eauto 6|by auto]).
Qed.

Lemma right_step t cs t' cs' c d d' :
  thread_step ds t cs = Some (t', cs') -> carries cs t -> defaults cs !! c = Some d ->
  defaults cs' !! c = Some d' -> right d -> right d'.
Proof.
  intros Hs Hc Hd Hd' [Hi Hr].
  destruct (cell_step t cs t' cs' c d Hs Hd) as (e & He & Hm & Hint & _). simplify_eq.
  destruct Hint as [Hint|(i & Ht & ->)].
  - unfold right, interest_set, DefaultCallsite.cached in *. by rewrite Hint, Hm.
  - split; [by destruct i|]. rewrite cached_set_interest. simpl.
    destruct Ht as [-> |[seen ->]]; destruct Hc as (e & He' & ->); by simplify_eq.
Qed.

Lemma carries_step t cs t' cs' u :
  thread_step ds t cs = Some (t', cs') -> carries cs u -> carries cs' u.
Proof.
  intros Hs Hu.
  assert (forall c i, (exists d, defaults cs !! c = Some d /\ i = combined_interest ds (meta d)) ->
    exists d, defaults cs' !! c = Some d /\ i = combined_interest ds (meta d)) as H.
  { intros c i (d & Hd & ->). destruct (cell_step t cs t' cs' c d Hs Hd) as (e & He & Hm & _).
    exists e. by rewrite Hm. }
  destruct u as [c []|[]]; simpl in *; auto.
Qed.

Lemma step_dom t cs t' cs' c :
  thread_step ds t cs = Some (t', cs') -> is_Some (defaults cs' !! c) -> is_Some (defaults cs !! c).
Proof.
  intros Hs.
  assert (cs' = cs \/ (exists x f, cs' = upd x f cs) \/ defaults cs' = defaults cs) as [->|[(x & f & ->)| ->]].
  { destruct t as [x p|p seen]; simpl in Hs.
    - destruct (defaults cs !! x); [|done]. simpl in Hs.
      destruct p; simpl in Hs; repeat case_match; simplify_eq/=; eauto.
    - destruct p as [|[x|]|x i|x|]; simpl in Hs;
        try (destruct (defaults cs !! x); simpl in Hs); simplify_eq/=; eauto. }
  - done.
  - simpl. by rewrite lookup_alter_is_Some.
  - done.
Qed.

Lemma carries_new t cs t' cs' :
  thread_step ds t cs = Some (t', cs') -> carries cs' t'.
Proof.
  intros Hs. destruct t as [x p|p seen]; simpl in Hs.
  - destruct (defaults cs !! x) as [d|] eqn:Hd; [|done]. simpl in Hs.
    destruct p; simpl in Hs; repeat case_match; simplify_eq/=; eauto.
  - destruct p as [|[x|]|x i|x|]; simpl in Hs;
      try (destruct (defaults cs !! x) as [d|] eqn:Hd; simpl in Hs); simplify_eq/=; eauto.
Qed.

(** A thread that is about to store [REGISTERED] has just stored the interest. *)
Lemma stored_right t cs c cs' d' :
  thread_step ds t cs = Some (Reg c StoreRegistered, cs') -> carries cs t ->
  defaults cs' !! c = Some d' -> right d'.
Proof.
  intros Hs Hc Hd'. destruct t as [x p|p seen]; simpl in Hs.
  - destruct (defaults cs !! x) as [d|] eqn:Hd; [|done]. simpl in Hs.
    destruct p; simpl in Hs; repeat case_match; simplify_eq/=.
    destruct Hc as (e & He & ->). simplify_eq. rewrite lookup_alter_eq, Hd in Hd'.
    simplify_eq/=. split; [by destruct (combined_interest ds (meta d))|].
    by rewrite cached_set_interest.
  - destruct p as [|[x|]|x i|x|]; simpl in Hs;
      try (destruct (defaults cs !! x); simpl in Hs); simplify_eq/=.
Qed.

(** Other threads do not take callsites from a traversal. *)
Lemma to_visit_frame own cs l cs' l' p seen c :
  evolves own cs l cs' l' -> cells_ok cs l -> cells_ok cs' l' -> walk_ok cs l p seen ->
  to_visit cs p c -> to_visit cs' p c.
Proof.
  intros Hev [Hch _ _] [Hch' _ _] Hp.
  assert (forall h k rest, chain (defaults cs) h k -> chain (defaults cs) h rest ->
    (forall x, x ∈ k -> x ∈ l) -> chain (defaults cs') h rest) as Hkeep.
  { intros h k rest Hk Hr Hl. rewrite <- (chain_det _ _ _ _ Hk Hr). by eapply ev_chain. }
  destruct p as [|h|x i|x|]; simpl in *; [..|done].
  - intros (k & Hk & Hc). exists l'. split; [done|]. eapply ev_elem; [done|].
    by rewrite (chain_det _ _ _ _ Hch Hk).
  - destruct Hp as (rest & Hr & Hs). intros (k & Hk & Hc). exists k. split; [|done].
    eapply Hkeep; [exact Hr|done|]. intros y Hy. destruct Hs as [pre ->].
    rewrite !elem_of_app. tauto.
  - destruct Hp as (seen' & rest & -> & Hr & Hs). intros (k & Hk & Hc). exists k. split; [|done].
    apply (Hkeep (Some x) (x :: rest) (x :: k)); [done..|]. intros y Hy. destruct Hs as [pre ->].
    set_solver +Hy.
  - destruct Hp as (seen' & rest & -> & Hr & Hs). intros (k & Hk & Hc). exists k. split; [|done].
    apply (Hkeep (Some x) (x :: rest) (x :: k)); [done..|]. intros y Hy. destruct Hs as [pre ->].
    set_solver +Hy.
Qed.

(** The traversal itself leaves a callsite behind when it is right. *)
Lemma to_visit_walk cs l p seen p' seen' cs' c d' :
  cells_ok cs l -> walk_ok cs l p seen -> carries cs (Walk p seen) ->
  walk_step ds p seen cs = Some (Walk p' seen', cs') ->
  to_visit cs p c -> defaults cs' !! c = Some d' -> right d' \/ to_visit cs' p' c.
Proof.
  intros Hcs Hp Hc Hs Hv Hd'. destruct p as [|[x|]|x i|x|]; simpl in *; simplify_eq/=.
  - by right.
  - destruct (defaults cs !! x) as [d|] eqn:Hd; simplify_eq/=. right.
    destruct Hv as ([|y rest] & Hr & Hin); [by apply elem_of_nil in Hin|].
    pose proof Hr as [[= ->] _]. by exists rest.
  - destruct Hv as ([|y rest] & Hr & Hin); [by apply elem_of_nil in Hin|by destruct Hr].
  - destruct Hv as (rest & Hr & Hin). rewrite elem_of_cons in Hin. destruct Hin as [->|Hin].
    + left. destruct Hc as (d & Hd & ->). simpl in Hd'. rewrite lookup_alter_eq, Hd in Hd'.
      simplify_eq/=. split; [by destruct (combined_interest ds (meta d))|].
      by rewrite cached_set_interest.
    + right. exists rest. split; [|done]. simpl.
      destruct Hc as (d & Hd & _).
      assert (alter (DefaultCallsite.set_interest i) x (defaults cs) =
        <[x := DefaultCallsite.set_interest i d]> (defaults cs)) as ->.
      { apply map_eq. intros y. destruct (decide (y = x)) as [->|].
        - by rewrite lookup_alter_eq, lookup_insert_eq, Hd.
        - by rewrite lookup_alter_ne, lookup_insert_ne. }
      apply (chain_update _ (Some x) (x :: rest)); [|done]. intros e He. by simplify_eq.
  - destruct (defaults cs !! x) as [d|] eqn:Hd; simplify_eq/=. right.
    destruct Hv as (rest & (_ & e & He & Hr) & Hin). simplify_eq. by exists rest.
Qed.

Lemma settling_step w s s' l :
  Inv s l -> settling w s -> step_at ds s s' -> settling w s'.
Proof.
  intros [Hcs Hts _] [Hcarry (p & seen & Hw & Hok)] Hstep.
  destruct Hstep as [i t t' cs cs' ts Hi Hs]. simpl in *.
  destruct (thread_step_ok ds t cs l t' cs' Hcs (Hts i t Hi) Hs) as (l' & Hcs' & _ & Hev & _).
  split; simpl.
  - intros j u Hu. destruct (decide (j = i)) as [->|Hj].
    + rewrite lookup_insert_eq in Hu. simplify_eq. by eapply carries_new.
    + rewrite lookup_insert_ne in Hu by done. eapply carries_step; [done|by eapply Hcarry].
  - assert (forall c d', defaults cs' !! c = Some d' ->
      registration d' = DefaultCallsite.REGISTERED \/
        (exists j, <[i := t']> ts !! j = Some (Reg c StoreRegistered)) ->
      right d' \/ to_visit cs p c) as Hold.
    { intros c d' Hd' Hr. destruct (step_dom t cs t' cs' c Hs) as [d Hd]; [by eexists|].
      destruct (cell_step t cs t' cs' c d Hs Hd) as (e & He & _ & _ & Hreg). simplify_eq.
      assert (registration d = DefaultCallsite.REGISTERED \/
        (exists j, ts !! j = Some (Reg c StoreRegistered)) -> right d' \/ to_visit cs p c) as Hgo.
      { intros [H|H]%(fun H => Hok c d Hd H); [|by right].
        left. by eapply right_step; [|eapply Hcarry| | |]. }
      destruct Hr as [Hr|[j Hj]].
      - destruct (Hreg Hr) as [H| ->]; apply Hgo; [by left|right; by exists i].
      - destruct (decide (j = i)) as [->|Hne].
        + rewrite lookup_insert_eq in Hj. simplify_eq. left.
          by eapply stored_right; [|eapply Hcarry|].
        + rewrite lookup_insert_ne in Hj by done. apply Hgo. right. by exists j. }
    destruct (decide (i = w)) as [->|Hne].
    + rewrite Hw in Hi. simplify_eq. simpl in Hs.
      assert (exists p' seen', t' = Walk p' seen') as (p' & seen' & ->).
      { destruct p as [|[x|]|x j|x|]; simpl in Hs;
          try (destruct (defaults cs !! x); simpl in Hs); simplify_eq/=; eauto. }
      exists p', seen'. rewrite lookup_insert_eq. split; [done|]. intros c d' Hd' Hr.
      destruct (Hold c d' Hd' Hr) as [H|Hv]; [by left|].
      by eapply to_visit_walk; [|exact (Hts w _ Hw)|exact (Hcarry w _ Hw)|..].
    + exists p, seen. rewrite lookup_insert_ne by done. split; [done|]. intros c d' Hd' Hr.
      destruct (Hold c d' Hd' Hr) as [H|Hv]; [by left|]. right.
      by eapply to_visit_frame; [exact Hev|..|exact (Hts w _ Hw)|].
Qed.

End settle.

(** C4: from the moment at which the dispatchers answer differently, if no thread still has
    an interest in its hands that it computed before, one traversal of the callsites
    settles the cache, whatever registrations and other traversals are interleaved with
    it: when it is done every registered callsite, also one that was pushed meanwhile,
    caches the combined interest of the dispatchers as they answer now, and it stays so. *)
Theorem rebuild_settles (ds : list Subscriber) (s0 s1 s2 : state) (w : nat)
    (seen : list Identifier) (c : Identifier) (d : DefaultCallsite) :
  initial s0 -> rtc step s0 s1 ->
  s1.2 !! w = Some (Walk WalkLoadHead []) ->
  (forall i t, s1.2 !! i = Some t -> empty_handed t) ->
  rtc (step_at ds) s1 s2 -> s2.2 !! w = Some (Walk WalkDone seen) ->
  defaults s2.1 !! c = Some d -> registration d = DefaultCallsite.REGISTERED ->
  DefaultCallsite.cached d = combined_interest ds (meta d).
Proof.
  intros Hinit Hs1 Hw Hempty Hs2 Hdone Hd Hreg.
  assert (exists l, Inv s1 l) as [l Hl].
  { assert (exists l, Inv s0 l) as H0 by eauto using initial_inv. clear Hinit Hw Hempty Hs2.
    induction Hs1 as [|s0 s s1 Hs _ IH]; [done|]. destruct H0 as [l Hl]. eauto using step_inv. }
  assert (settling ds w s1) as Hset.
  { split.
    - intros i t Hi. pose proof (Hempty i t Hi). by destruct t as [x []|[] ?].
    - exists WalkLoadHead, []. split; [done|]. intros x e He Hr. right. exists l.
      destruct Hl as [[Hch _ Hcells] Hts _]. split; [done|].
      destruct Hr as [Hr|[i Hi]].
      + destruct (Hcells x e He) as (_ & _ & H). by destruct (H Hr).
      + destruct (Hts i _ Hi) as (e' & _ & _ & Hin & _). exact Hin. }
  clear Hinit Hs1 Hw Hempty s0.
  revert l Hl Hset. induction Hs2 as [s|s s' s'' Hs _ IH]; intros l Hl Hset.
  - destruct Hset as [_ (p & seen' & Hw & Hok)]. rewrite Hdone in Hw. injection Hw as <- <-.
    destruct (Hok c d Hd (or_introl Hreg)) as [[_ H]|[]]. done.
  - destruct (step_inv s s' l Hl (step_at_step ds s s' Hs)) as [l' Hl'].
    apply (IH Hdone Hd l' Hl'). exact (settling_step ds w s s' l Hl Hset Hs).
Qed.

(** ** A concrete run

    Two threads register one callsite each and a traversal rebuilds the cache; [race_start]
    has them.  The first callsite is registered under the old answers; the second one while
    the traversal is under way. *)
Definition old_answers : list Subscriber := [NoSubscriber].
Definition new_answers : list Subscriber := [info_subscriber].

Fixpoint run_at (ds : list Subscriber) (schedule : list nat) (s : state) : option state :=
  match schedule with
  | [] => Some s
  | i :: schedule =>
      t ← s.2 !! i; '(t', cs') ← thread_step ds t s.1; run_at ds schedule (cs', <[i := t']> s.2)
  end.

Lemma run_at_steps ds schedule s s' : run_at ds schedule s = Some s' -> rtc (step_at ds) s s'.
Proof.
  revert s. induction schedule as [|i schedule IH]; intros [cs ts] H; simpl in H.
  { by simplify_eq. }
  destruct (ts !! i) as [t|] eqn:Hi; simpl in H; [|done].
  destruct (thread_step ds t cs) as [[t' cs']|] eqn:E; simpl in H; [|done].
  eapply rtc_l; [by econstructor|]. by apply IH.
Qed.

Lemma steps_at_steps ds s s' : rtc (step_at ds) s s' -> rtc step s s'.
Proof. apply rtc_subrel. intros ? ?. apply step_at_step. Qed.

Definition first_part : list nat := [0; 0; 0; 0; 0; 0; 0; 0; 0; 0]%nat.
Definition second_part : list nat := [2; 2; 3; 2; 2; 3; 3; 2; 2; 3; 2; 2; 2; 2; 3]%nat.
Definition before_change : state := default race_start (run_at old_answers first_part race_start).
Definition after_rebuild : state :=
  default race_start (run_at new_answers second_part before_change).

Lemma rebuild_settles_witness :
  exists d1 d2, defaults after_rebuild.1 !! 1%N = Some d1 /\ defaults after_rebuild.1 !! 2%N = Some d2 /\
    DefaultCallsite.cached d1 = Always /\ DefaultCallsite.cached d2 = Always.
Proof.
  assert (forall c d, defaults after_rebuild.1 !! c = Some d ->
    registration d = DefaultCallsite.REGISTERED ->
    DefaultCallsite.cached d = combined_interest new_answers (meta d)) as H.
  { intros c d. refine (rebuild_settles new_answers race_start before_change after_rebuild 3%nat
      [1%N] c d race_initial _ _ _ _ _).
    - apply (steps_at_steps old_answers), (run_at_steps _ first_part). vm_compute. reflexivity.
    - vm_compute. reflexivity.
    - intros i t Hi. destruct (decide (i < 4)%nat) as [Hlt|Hge].
      + destruct i as [|[|[|[|i]]]]; [..|lia]; vm_compute in Hi; by injection Hi as <-.
      + exfalso. assert (forall i t, before_change.2 !! i = Some t -> (i < 4)%nat) as Hdom; [|].
        { apply map_Forall_to_list. vm_compute. repeat constructor. }
        by apply Hge, (Hdom i t).
    - apply (run_at_steps _ second_part). vm_compute. reflexivity.
    - vm_compute. reflexivity. }
  eexists _, _. split; [vm_compute; reflexivity|]. split; [vm_compute; reflexivity|]. split.
  - etransitivity; [apply (H 1%N); vm_compute; reflexivity|]. vm_compute. reflexivity.
  - etransitivity; [apply (H 2%N); vm_compute; reflexivity|]. vm_compute. reflexivity.
Defined.

(** Without the condition it is not so: a thread that has asked the dispatchers before the
    change and stores their answer after the traversal leaves the callsite disabled, with
    no traversal to come, although the dispatchers enable it. *)
Lemma stale_interest_stays :
  exists s1 s2 d,
    run_at old_answers [2; 2; 2; 2; 2; 2; 2]%nat race_start = Some s1 /\
    run_at new_answers [3; 3; 3; 3; 3; 2; 2; 2]%nat s1 = Some s2 /\
    s2.2 !! 3%nat = Some (Walk WalkDone [2%N]) /\ s2.2 !! 2%nat = Some (Reg 2%N (Returned Never)) /\
    defaults s2.1 !! 2%N = Some d /\ registration d = DefaultCallsite.REGISTERED /\
    DefaultCallsite.cached d = Never /\ combined_interest new_answers (meta d) = Always.
Proof.
  eexists _, _, _. split; [vm_compute; reflexivity|]. split; [vm_compute; reflexivity|].
  repeat split; vm_compute; reflexivity.
Qed.
