(* ===== verification/Instrument.v ===== *)
(** * Instrument: [tracing/src/instrument.rs]

    Futures that are polled, and dropped, inside a span, and futures that are polled with
    a default dispatcher of their own.  What the attached future does is a parameter: a
    class of futures that keep to the rules for span handles, of which instrumented
    futures are instances again. *)

From S2P Require Import Prelude.
From S2P Require Import Str.
From S2P Require Import Levels.
From S2P Require Import Fields.
From S2P Require Import Meta.
From S2P Require Import Interests.
From S2P Require Import FilterIds.
From S2P Require Import SpanStack.
From S2P Require Import Registry.
From S2P Require Import Pools.
From S2P Require Import Contexts.
From S2P Require Import Filters.
From S2P Require Import Layers.
From S2P Require Import Stacks.
From S2P Require Import SpanLife.
From S2P Require Import SpanHandles.
From S2P Require Dispatchers.

Local Open Scope Z_scope.

(** [Poll], or the unwinding of a panic in the future's own code. *)
Inductive Polled (A : Type) := Ready (a : A) | Pending | Unwinding.
Arguments Ready {A}. Arguments Pending {A}. Arguments Unwinding {A}.

(** ** [Instrumented] *)

Section instrumented.
Context `{E : Env} {P : PoolOps DataInner}.

(** [Future]: what a poll returns and the value that it leaves; the drop of a value, and
    whether it unwinds. *)
Class Future (T A : Type) := {
  poll : T -> M (T * Polled A);
  drop_future : T -> M bool;
}.

Record Instrumented (T : Type) := { i_inner : T; i_span : Span }.
Arguments i_inner {T}. Arguments i_span {T}.

Definition instrument {T} (self : T) (span : Span) : Instrumented T :=
  {| i_inner := self; i_span := span |}.
Definition in_current_span {T} (dispatch : DynSubscriber) (self : T) : M (Instrumented T) :=
  span ← current dispatch; mret (instrument self span).

(** [Future for Instrumented]: the guard is dropped when the inner poll returns and when it
    unwinds. *)
Definition instrumented_poll {T A} `{!Future T A} (self : Instrumented T) :
    M (Instrumented T * Polled A) :=
  _ ← do_enter (i_span self);
  '(inner, r) ← poll (i_inner self);
  _ ← do_exit (i_span self);
  mret ({| i_inner := inner; i_span := i_span self |}, r).

(** [PinnedDrop for Instrumented], and then the drop of the remaining field. *)
Definition instrumented_drop {T A} `{!Future T A} (self : Instrumented T) : M bool :=
  _ ← do_enter (i_span self);
  unwinds ← drop_future (i_inner self);
  _ ← do_exit (i_span self);
  _ ← drop (i_span self);
  mret unwinds.

#[global] Instance instrumented_future {T A} `{!Future T A} : Future (Instrumented T) A := {
  poll := instrumented_poll;
  drop_future := instrumented_drop;
}.

(** [span], [span_mut], [inner], [inner_mut] and their pinned forms: the two fields and
    their replacement. *)
Definition set_span {T} (span : Span) (self : Instrumented T) : Instrumented T :=
  {| i_inner := i_inner self; i_span := span |}.
Definition set_inner {T} (inner : T) (self : Instrumented T) : Instrumented T :=
  {| i_inner := inner; i_span := i_span self |}.
Definition span_and_inner {T} (self : Instrumented T) : Span * T := (i_span self, i_inner self).

(** [into_inner]: the span is dropped without being entered. *)
Definition into_inner {T} (self : Instrumented T) : M T :=
  _ ← drop (i_span self); mret (i_inner self).

(** The derived [Clone]. *)
Definition instrumented_clone {T} (clone_inner : T -> M T) (self : Instrumented T) :
    M (Instrumented T) :=
  inner ← clone_inner (i_inner self); span ← clone (i_span self); mret (instrument inner span).

End instrumented.
Arguments i_inner {_ _ T}. Arguments i_span {_ _ T}.

(** ** Futures that keep to the rules *)

Definition add (h h' : handles) : handles := fun k => (h k + h' k)%nat.
Definition span_own `{E : Env} {P : PoolOps DataInner} (span : Span) : handles := fun k =>
  match id span with
  | Some i => if decide (id_to_idx i = k) then 1%nat else 0%nat
  | None => 0%nat
  end.

(** The spans that the thread has entered, innermost first, and those after one more. *)
Definition entered_are `{E : Env} {P : PoolOps DataInner} (l : list Id) (w : World) : Prop :=
  default SpanStack.default (current_spans w) = marked l.
Definition enter_on `{E : Env} {P : PoolOps DataInner} (span : Span) (l : list Id) : list Id :=
  match id span with Some i => i :: l | None => l end.

Section laws.
Context `{E : Env} {P : PoolOps DataInner} `{!PoolLaws default_data P}.
Variables (es : list entry) (fuel : nat).

(** At most [c] references and spans may still be made. *)
Definition room (c n : nat) (w : World) : Prop :=
  Z.of_nat (n + c) < U64.MAX /\ (size (pool_keys (spans w)) + c < fuel)%nat.

(** After a step that began in [w] with at most [n] references: at most [c] more, the
    program holds [h], and the thread's entered spans are [l]. *)
Record after (c : nat) (h : handles) (n : nat) (l : list Id) (w w' : World) : Prop := {
  af_settled : settled es h (n + c) w';
  af_entered : entered_are l w';
  af_size : (size (pool_keys (spans w')) <= size (pool_keys (spans w)) + c)%nat;
}.

(** What the theorems ask of a future: it owns handles, a poll and a drop make at most
    [cost] new references, leave the entered spans as they were and every other handle
    alone, and a drop gives its handles back. *)
Class FutureLaws (T A : Type) `{!Future T A} := {
  fut_ok : T -> Prop;
  own : T -> handles;
  cost : nat;
  poll_ok t h n l w :
    fut_ok t -> settled es (add (own t) h) n w -> entered_are l w -> room cost n w ->
    exists t' r w', poll t w = Done ((t', r), w') /\ fut_ok t' /\
      after cost (add (own t') h) n l w w';
  drop_ok t h n l w :
    fut_ok t -> settled es (add (own t) h) n w -> entered_are l w -> room cost n w ->
    exists b w', drop_future t w = Done (b, w') /\ after cost h n l w w';
}.

Hypotheses (Hok : Forall entry_ok es) (H64 : (filters es < 64)%nat) (Hne : es <> []).

(** The span is disabled or belongs to the dispatcher. *)
Definition of_dispatch (span : Span) : Prop :=
  forall i, inner span = Some i -> subscriber_ i = dispatch es fuel.

Lemma remove_first_head (i : Id) l : remove_first i (i :: l) = l.
Proof. cbn. by rewrite decide_True. Qed.

(** Entering and leaving a span that the program holds. *)
Lemma enter_exit_ok span h n l w :
  of_dispatch span -> settled es (add (span_own span) h) n w -> entered_are l w ->
  (exists w', do_enter span w = Done (tt, w') /\ settled es (add (span_own span) h) n w' /\
    spans w' = spans w /\ entered_are (enter_on span l) w') /\
  (forall l', l = enter_on span l' -> exists w', do_exit span w = Done (tt, w') /\
    settled es (add (span_own span) h) n w' /\ spans w' = spans w /\ entered_are l' w').
Proof.
  intros Hd Hs Hl. destruct span as [[[i sub]|] m]; cbn in *.
  2:{ split; [by exists w|]. intros l' ->. by exists w. }
  specialize (Hd _ eq_refl). cbn in Hd. subst sub.
  assert (is_Some (pool_get (id_to_idx i) (spans w))) as Hlive.
  { apply (ro_held _ _ _ (se_refs _ _ _ _ Hs)). unfold add, span_own. cbn.
    rewrite decide_True by done. lia. }
  destruct (stack_enter_exit (close_span fuel es) es i w Hok) as [(u1 & H1) (u2 & H2)]; [lia|done|].
  unfold do_enter, do_exit. cbn [inner subscriber_ inner_id]. unfold dispatch. rewrite H1, H2.
  unfold entered_are in Hl. split.
  - eexists. split_and!; [reflexivity|by destruct Hs|done|]. unfold entered_are. cbn.
    by rewrite Hl, push_marked.
  - intros l' ->. eexists. split_and!; [reflexivity|by destruct Hs|done|].
    unfold entered_are, enter_on in *. cbn in *. unfold after_exit.
    destruct (current_spans w) as [s|] eqn:Hcs; cbn in *.
    + rewrite Hl. change (marked l' ++ _) with (marked (i :: l')).
      by rewrite pop_marked, remove_first_head.
    + by destruct (marked l').
Qed.

(** Dropping a handle. *)
Lemma drop_span_ok span h n w :
  of_dispatch span -> settled es (add (span_own span) h) n w -> Z.of_nat n < U64.MAX ->
  (size (pool_keys (spans w)) < fuel)%nat ->
  exists w', drop span w = Done (tt, w') /\ settled es h n w' /\
    current_spans w' = current_spans w /\
    (size (pool_keys (spans w')) <= size (pool_keys (spans w)))%nat.
Proof.
  intros Hd Hs Hn Hf. destruct span as [[[i sub]|] m]; cbn in *; [|by exists w].
  specialize (Hd _ eq_refl). cbn in Hd. subst sub. destruct Hs as [Hrefs Hc Hfil Hnf].
  set (h' := add _ h) in Hrefs.
  assert (0 < h' (id_to_idx i))%nat as Hh.
  { unfold h', add, span_own. cbn. rewrite decide_True by done. lia. }
  destruct (close_span_refs (S fuel) es h' n w (id_to_idx i)) as (b & w' & Hrun & Hrefs' & Hfr);
    try done; [lia|lia|].
  rewrite id_of_idx in Hrun. cbn [close_span] in Hrun.
  unfold drop. cbn [inner subscriber_ inner_id]. unfold dispatch. mred. rewrite Hrun.
  eexists. split; [reflexivity|]. split_and!; [|apply Hfr|by apply close_frame_size].
  destruct Hfr. split; try congruence. eapply refs_ok_ext; [|exact Hrefs']. intros k.
  unfold drop_handle, upd, h', add, span_own. cbn.
  destruct (decide (k = id_to_idx i)) as [->|Hk]; [rewrite decide_True by done; lia|].
  by rewrite decide_False by congruence.
Qed.

Ltac rearrange := eapply settled_ext; [|eassumption]; intros ?; unfold add; lia.

(** A poll of an instrumented future is a poll of the inner one inside the span; so is a
    drop, which gives the handle to the span back afterwards. *)
Lemma instrumented_spec {T A} `{!Future T A} `{!FutureLaws T A} (t : T) span h n l w :
  fut_ok t -> of_dispatch span -> settled es (add (add (span_own span) (own t)) h) n w ->
  entered_are l w -> room cost n w ->
  (exists w1 t' r w2 w3, do_enter span w = Done (tt, w1) /\ entered_are (enter_on span l) w1 /\
     poll t w1 = Done ((t', r), w2) /\
     poll (instrument t span) w = Done ((instrument t' span, r), w3) /\ fut_ok t' /\
     after cost (add (add (span_own span) (own t')) h) n l w w3) /\
  (exists w1 b w2 w3, do_enter span w = Done (tt, w1) /\ entered_are (enter_on span l) w1 /\
     drop_future t w1 = Done (b, w2) /\
     drop_future (instrument t span) w = Done (b, w3) /\ after cost h n l w w3).
Proof using Hok H64 Hne.
  intros Ht Hd Hs Hl [Hn Hf].
  destruct (enter_exit_ok span (add (own t) h) n l w Hd) as [(w1 & H1 & Hs1 & Hsp1 & Hl1) _];
    [rearrange|done|].
  assert (room cost n w1) as Hroom by (split; [done|by rewrite Hsp1]).
  split.
  - destruct (poll_ok t (add (span_own span) h) n (enter_on span l) w1 Ht) as (t' & r & w2 & H2 & Ht' & [Hs2 Hl2 Hz2]);
      [rearrange|done|done|].
    destruct (enter_exit_ok span (add (own t') h) (n + cost) (enter_on span l) w2 Hd) as [_ Hexit];
      [rearrange|done|].
    destruct (Hexit l eq_refl) as (w3 & H3 & Hs3 & Hsp3 & Hl3).
    exists w1, t', r, w2, w3. split_and!; try done.
    + cbn. unfold instrumented_poll. mred. cbn [i_span i_inner instrument]. by rewrite H1, H2, H3.
    + split; [rearrange|done|]. by rewrite Hsp3, <- Hsp1.
  - destruct (drop_ok t (add (span_own span) h) n (enter_on span l) w1 Ht) as (b & w2 & H2 & [Hs2 Hl2 Hz2]);
      [rearrange|done|done|].
    destruct (enter_exit_ok span h (n + cost) _ w2 Hd Hs2 Hl2) as [_ Hexit].
    destruct (Hexit l eq_refl) as (w3 & H3 & Hs3 & Hsp3 & Hl3). rewrite Hsp1 in Hz2.
    destruct (drop_span_ok span h (n + cost) w3 Hd Hs3 Hn) as (w4 & H4 & Hs4 & Hc4 & Hz4);
      [rewrite Hsp3; lia|].
    exists w1, b, w2, w4. split_and!; try done.
    + cbn. unfold instrumented_drop. mred. cbn [i_span i_inner instrument].
      by rewrite H1, H2, H3, H4.
    + split; [done|unfold entered_are; by rewrite Hc4|]. rewrite Hsp3 in Hz4. lia.
Qed.

(** An instrumented future keeps to the rules when its inner future does, so they nest. *)
#[export] Instance instrumented_laws {T A} `{!Future T A} `{!FutureLaws T A} :
  FutureLaws (Instrumented T) A.
Proof using Hok H64 Hne.
  refine {| fut_ok t := fut_ok (i_inner t) /\ of_dispatch (i_span t);
            own t := add (span_own (i_span t)) (own (i_inner t)); cost := cost |}.
  - intros [t span] h n l w [Ht Hd] Hs Hl Hr.
    destruct (instrumented_spec t span h n l w Ht Hd Hs Hl Hr)
      as [(w1 & t' & r & w2 & w3 & _ & _ & _ & H & Ht' & Ha) _].
    by exists (instrument t' span), r, w3.
  - intros [t span] h n l w [Ht Hd] Hs Hl Hr.
    destruct (instrumented_spec t span h n l w Ht Hd Hs Hl Hr)
      as [_ (w1 & b & w2 & w3 & _ & _ & _ & H & Ha)].
    by exists b, w3.
Defined.

End laws.
Arguments fut_ok {_ _ _ _ _ _ _ _ _}. Arguments own {_ _ _ _ _ _ _ _ _}.

(** ** Executors

    Instrumented tasks that threads poll and drop in any order, interleaved with what the
    rest of the program does with its own handles [h].  Between two polls a thread has no
    span entered. *)
Section executor.
Context `{E : Env} {P : PoolOps DataInner} `{!PoolLaws default_data P}.
Variables (es : list entry) (fuel : nat).
Context {T A : Type} `{!Future T A} `{FL : !FutureLaws es fuel T A}.

Definition Tasks : Type := list (option (Instrumented T)).
Definition task_own (k : Z) (o : option (Instrumented T)) : nat :=
  match o with
  | Some t => add (span_own (i_span t)) (own (i_inner t)) k
  | None => 0%nat
  end.
Definition owned_by (ts : Tasks) : handles := fun k => sum_list_with (task_own k) ts.
Definition task_ok (o : option (Instrumented T)) : Prop :=
  match o with
  | Some t => fut_ok (i_inner t) /\ of_dispatch es fuel (i_span t)
  | None => True
  end.

(** The handles of the rest of the program change by its own operations. *)
Inductive executor : Tasks -> handles -> nat -> World -> Prop :=
  | executor_start w :
      spans w = pool_new -> close_count w = 0 -> filtering w = FilterState.new ->
      next_filter_id w = Z.of_nat (filters es) -> entered_are [] w ->
      executor [] (fun _ => 0%nat) 0 w
  | executor_program ts h n w op cs r w' :
      executor ts h n w -> legal h op -> Z.of_nat (S n) < U64.MAX ->
      (size (pool_keys (spans w)) < fuel)%nat ->
      run_op fuel es op (with_current_spans cs w) = Done (r, w') ->
      executor ts (handles_after op r h) (S (S n)) (with_current_spans (current_spans w) w')
  | executor_spawn ts h h' n w t span :
      executor ts h n w -> (forall k, h k = add (span_own span) h' k) ->
      of_dispatch es fuel span -> fut_ok t -> (forall k, own t k = 0%nat) ->
      executor (ts ++ [Some (instrument t span)]) h' n w
  | executor_poll ts h n w i t t' r w' :
      executor ts h n w -> ts !! i = Some (Some t) -> room fuel (cost es fuel) n w ->
      poll t w = Done ((t', r), w') -> executor (<[i := Some t']> ts) h (n + cost es fuel) w'
  | executor_drop ts h n w i t b w' :
      executor ts h n w -> ts !! i = Some (Some t) -> room fuel (cost es fuel) n w ->
      drop_future t w = Done (b, w') -> executor (<[i := None]> ts) h (n + cost es fuel) w'
  | executor_thread ts h n w cs :
      executor ts h n w -> default SpanStack.default cs = [] ->
      executor ts h n (with_current_spans cs w).

Hypotheses (Hpool : unlimited) (Hok : Forall entry_ok es) (H64 : (filters es < 64)%nat)
  (Hne : es <> []).

Lemma owned_insert ts i o o' k :
  ts !! i = Some o -> (owned_by (<[i := o']> ts) k + task_own k o = owned_by ts k + task_own k o')%nat.
Proof. apply sum_list_with_insert. Qed.

Lemma handles_after_add op r h h' k :
  legal h op -> handles_after op r (add h' h) k = add h' (handles_after op r h) k.
Proof.
  unfold add. intros Hl. destruct op; cbn in *; try (destruct r; [|done]); try done;
    unfold drop_handle, upd; case_decide; subst; lia.
Qed.

(** A thread with one entered span has it as its current span. *)
Lemma current_entered span w :
  entered_are (enter_on span []) w -> current_spans w ≫= SpanStack.current = id span.
Proof.
  unfold entered_are, enter_on. destruct (current_spans w) as [s|]; cbn.
  - intros ->. unfold SpanStack.current. rewrite iter_marked. by destruct (id span).
  - by destruct (id span).
Qed.

(** A poll or a drop of one of the tasks. *)
Lemma task_steps ts h n w i t :
  settled es (add (owned_by ts) h) n w -> Forall task_ok ts -> entered_are [] w ->
  ts !! i = Some (Some t) -> room fuel (cost es fuel) n w ->
  (exists w1 t' r w2 w3, do_enter (i_span t) w = Done (tt, w1) /\
     entered_are (enter_on (i_span t) []) w1 /\ poll (i_inner t) w1 = Done ((t', r), w2) /\
     poll t w = Done ((set_inner t' t, r), w3) /\ task_ok (Some (set_inner t' t)) /\
     after es (cost es fuel) (add (owned_by (<[i := Some (set_inner t' t)]> ts)) h) n [] w w3) /\
  (exists w1 b w2 w3, do_enter (i_span t) w = Done (tt, w1) /\
     entered_are (enter_on (i_span t) []) w1 /\ drop_future (i_inner t) w1 = Done (b, w2) /\
     drop_future t w = Done (b, w3) /\
     after es (cost es fuel) (add (owned_by (<[i := None]> ts)) h) n [] w w3).
Proof.
  intros Hs Hts Hl Ht Hr. pose proof (Forall_lookup_1 _ _ _ _ Hts Ht) as [Ht1 Ht2].
  assert (forall o' k, (owned_by (<[i := o']> ts) k + task_own k (Some t) =
    owned_by ts k + task_own k o')%nat) as Ho by (intros; by apply owned_insert).
  set (rest := add (owned_by (<[i := None]> ts)) h).
  assert (forall o' h' m v, settled es h' m v ->
    (forall k, h' k = task_own k o' + rest k)%nat ->
    settled es (add (owned_by (<[i := o']> ts)) h) m v) as Hother.
  { intros o' h' m v Hv Hh. eapply settled_ext; [|exact Hv]. intros k. rewrite Hh. unfold rest, add.
    pose proof (Ho o' k). pose proof (Ho None k). cbn in *. lia. }
  destruct t as [t span]. cbn [i_inner i_span] in *.
  destruct (instrumented_spec es fuel Hok H64 Hne t span rest n [] w Ht1 Ht2) as [Hp Hd]; try done.
  { eapply settled_ext; [|exact Hs]. intros k. unfold rest, add at 1 4. pose proof (Ho None k).
    cbn in *. unfold add in *. lia. }
  split.
  - destruct Hp as (w1 & t' & r & w2 & w3 & H1 & H2 & H3 & H4 & H5 & [H6 H7 H8]).
    exists w1, t', r, w2, w3. split_and!; try done. split; [|done..].
    by eapply Hother; [exact H6|].
  - destruct Hd as (w1 & b & w2 & w3 & H1 & H2 & H3 & H4 & [H6 H7 H8]).
    exists w1, b, w2, w3. by split_and!.
Qed.

Lemma executor_ok ts h n w :
  executor ts h n w ->
  settled es (add (owned_by ts) h) n w /\ Forall task_ok ts /\ entered_are [] w.
Proof.
  induction 1 as [w Hsp Hc Hf Hn Hl|ts h n w op cs r w' _ (IH1 & IH2 & IH3) Hl Hn Hf Hrun
    |ts h h' n w t span _ (IH1 & IH2 & IH3) Hh Hd Ht Hz|ts h n w i t t' r w' _ (IH1 & IH2 & IH3) Ht Hr Hrun
    |ts h n w i t b w' _ (IH1 & IH2 & IH3) Ht Hr Hrun|ts h n w cs _ (IH1 & IH2 & IH3) Hcs].
  - split_and!; [|by constructor|done]. split; try done. rewrite Hsp. apply refs_ok_new.
  - assert (settled es (add (owned_by ts) h) n (with_current_spans cs w)) as Hs by by destruct IH1.
    destruct (run_op_settled es _ n _ op fuel Hpool Hok H64 Hne Hs) as (r1 & w1 & Hrun1 & Hs1);
      [destruct op; cbn in *; unfold add; try done; lia|done|done|].
    rewrite Hrun in Hrun1. injection Hrun1 as <- <-. split_and!; [|done|done].
    assert (settled es (add (owned_by ts) (handles_after op r h)) (S (S n)) w') as [].
    { eapply settled_ext; [|exact Hs1]. intros k. symmetry. by apply handles_after_add. }
    by split.
  - split_and!; [|by apply Forall_app; repeat constructor|done].
    eapply settled_ext; [|exact IH1]. intros k.
    unfold add, owned_by. rewrite sum_list_with_app, Hh. cbn. unfold add. rewrite Hz. lia.
  - destruct (task_steps ts h n w i t) as [(w1 & t1 & r1 & w2 & w3 & _ & _ & _ & H & Hok' & [? ? ?]) _];
      try done.
    rewrite Hrun in H. injection H as -> -> ->. split_and!; [done|by apply Forall_insert|done].
  - destruct (task_steps ts h n w i t) as [_ (w1 & b1 & w2 & w3 & _ & _ & _ & H & [? ? ?])]; try done.
    rewrite Hrun in H. injection H as -> ->. split_and!; [done|by apply Forall_insert|done].
  - split_and!; [by destruct IH1|done|]. unfold entered_are. cbn. by rewrite Hcs.
Qed.

End executor.


(** C7: tasks that are instrumented with spans and polled, dropped and interleaved with
    the rest of the program on any threads: between two polls no span is left entered on
    the thread, however the polls ended; a poll of a task runs the inner future with the
    task's span as the thread's only entered and current span, and so does its drop, and
    neither panics; a span is in the registry exactly as long as a task, a handle of the
    rest of the program or a descendant holds it, so when all of them are gone no span is
    left. *)
Theorem tasks_run_in_their_spans `{E : Env} {P : PoolOps DataInner} `{!PoolLaws default_data P}
    (es : list entry) (fuel : nat) {T A : Type} `{!Future T A} `{FL : !FutureLaws es fuel T A}
    (ts : Tasks) (h : handles) (n : nat) (w : World)
    (Hpool : unlimited) (Hok : Forall entry_ok es) (H64 : (filters es < 64)%nat)
    (Hne : es <> []) (Hexec : executor es fuel ts h n w) :
  entered_are [] w /\
  (forall k, is_Some (pool_get k (spans w)) <-> held (add (owned_by es fuel ts) h) (spans w) k) /\
  ((forall k, owned_by es fuel ts k = 0%nat /\ h k = 0%nat) -> forall k, pool_get k (spans w) = None) /\
  (forall i t, ts !! i = Some (Some t) -> room fuel (cost es fuel) n w ->
     (exists w1 t' r w2 w3, do_enter (i_span t) w = Done (tt, w1) /\
        entered_are (enter_on (i_span t) []) w1 /\
        current_spans w1 ≫= SpanStack.current = id (i_span t) /\
        poll (i_inner t) w1 = Done ((t', r), w2) /\
        poll t w = Done ((set_inner t' t, r), w3) /\ entered_are [] w3) /\
     (exists w1 b w2 w3, do_enter (i_span t) w = Done (tt, w1) /\
        current_spans w1 ≫= SpanStack.current = id (i_span t) /\
        drop_future (i_inner t) w1 = Done (b, w2) /\
        drop_future t w = Done (b, w3) /\ entered_are [] w3)).
Proof.
  destruct (executor_ok es fuel Hpool Hok H64 Hne ts h n w Hexec) as (Hs & Hts & Hl).
  pose proof (se_refs _ _ _ _ Hs) as Hrefs. split_and!; [done|by intros k; apply (live_held _ n)|..].
  - intros Hz k. destruct (pool_get k (spans w)) eqn:Hk; [|done]. exfalso.
    assert (held (add (owned_by es fuel ts) h) (spans w) k) as Hheld.
    { apply (live_held _ n); [done|by eexists]. }
    clear Hk. induction Hheld as [k Hk|]; [|done]. unfold add in Hk. destruct (Hz k). lia.
  - intros i t Ht Hr.
    destruct (task_steps es fuel Hok H64 Hne ts h n w i t Hs Hts Hl Ht Hr) as [Hp Hd].
    destruct Hp as (w1 & t' & r & w2 & w3 & H1 & H2 & H3 & H4 & _ & [_ H5 _]).
    destruct Hd as (v1 & b & v2 & v3 & J1 & J2 & J3 & J4 & [_ J5 _]).
    split; [exists w1, t', r, w2, w3|exists v1, b, v2, v3]; split_and!; try done;
      by apply current_entered.
Qed.

(** ** [WithDispatch] *)

(** A future on the threads of [Dispatchers]; a poll that panics leaves its world. *)
Class DispatchFuture (T A : Type) := {
  poll_default : T -> nat -> Dispatchers.M (T * Polled A);
}.

Record WithDispatch (T : Type) := { wd_inner : T; wd_dispatcher : Dispatchers.Dispatch }.
Arguments wd_inner {T}. Arguments wd_dispatcher {T}.

Definition with_subscriber {T} (self : T) (subscriber : Dispatchers.Dispatch) : WithDispatch T :=
  {| wd_inner := self; wd_dispatcher := subscriber |}.
Definition with_current_subscriber {T} (self : T) (t : nat) : Dispatchers.M (WithDispatch T) :=
  Dispatchers.get_default t
    (fun default w => (Done {| wd_inner := self; wd_dispatcher := default |}, w)).

(** [Future for WithDispatch]: the guard of [set_default] is dropped on both ways out. *)
Definition with_dispatch_poll {T A} `{!DispatchFuture T A} (self : WithDispatch T) (t : nat) :
    Dispatchers.M (WithDispatch T * Polled A) := fun w =>
  match Dispatchers.set_default t (wd_dispatcher self) w with
  | (Panic, w) => (Panic, w)
  | (Done guard, w) =>
      let '(r, w) := poll_default (wd_inner self) t w in
      match Dispatchers.drop_guard t guard w with
      | (Panic, w) => (Panic, w)
      | (Done _, w) =>
          (match r with
           | Done (inner, p) => Done ({| wd_inner := inner; wd_dispatcher := wd_dispatcher self |}, p)
           | Panic => Panic
           end, w)
      end
  end.
#[export] Instance with_dispatch_future {T A} `{!DispatchFuture T A} :
  DispatchFuture (WithDispatch T) A := { poll_default := with_dispatch_poll }.

Definition wd_into_inner {T} (self : WithDispatch T) : T := wd_inner self.
Definition wd_set_inner {T} (inner : T) (self : WithDispatch T) : WithDispatch T :=
  {| wd_inner := inner; wd_dispatcher := wd_dispatcher self |}.

(** A poll is one of the inner future under [with_default]. *)
Lemma with_dispatch_poll_is {T A} `{!DispatchFuture T A} (self : WithDispatch T) t w :
  with_dispatch_poll self t w =
  let '(r, w) := Dispatchers.with_default t (wd_dispatcher self) (poll_default (wd_inner self) t) w in
  (match r with
   | Done (inner, p) => Done (wd_set_inner inner self, p)
   | Panic => Panic
   end, w).
Proof.
  unfold with_dispatch_poll, Dispatchers.with_default.
  destruct (Dispatchers.set_default t (wd_dispatcher self) w) as [[guard|] w1]; [|done].
  destruct (poll_default (wd_inner self) t w1) as [r w2].
  by destruct (Dispatchers.drop_guard t guard w2) as [[] w3].
Qed.

(** While the inner future is polled its dispatcher is the thread's default; when the poll
    has returned or panicked the default and the number of scopes are those of before. *)
Lemma with_dispatch_scopes {T A} `{!DispatchFuture T A} (self : WithDispatch T) t w st :
  Dispatchers.CURRENT_STATE w !! t = Some st -> Dispatchers.borrows st = 0%nat ->
  0 <= Dispatchers.SCOPED_COUNT w /\ Dispatchers.SCOPED_COUNT w + 2 <= U64.MAX ->
  Dispatchers.restores t (poll_default (wd_inner self) t) ->
  exists w1,
    Dispatchers.get_default t (fun d w => (Done d, w)) w1 = (Done (wd_dispatcher self), w1) /\
    (poll_default self t w).1 =
      match (poll_default (wd_inner self) t w1).1 with
      | Done (inner, p) => Done (wd_set_inner inner self, p)
      | Panic => Panic
      end /\
    Dispatchers.SCOPED_COUNT (poll_default self t w).2 = Dispatchers.SCOPED_COUNT w /\
    exists b, Dispatchers.CURRENT_STATE (poll_default self t w).2 !! t =
      Some {| Dispatchers.state_default := Dispatchers.state_default st;
              Dispatchers.borrows := 0; Dispatchers.can_enter := b |}.
Proof.
  intros Hst Hfree Hcount Hf.
  destruct (Dispatchers.with_default_unwinds t w st Hst Hcount _ (wd_dispatcher self) Hfree Hf)
    as (w1 & H1 & H2 & H3 & b & H4).
  exists w1. cbn [poll_default with_dispatch_future]. rewrite with_dispatch_poll_is.
  destruct (Dispatchers.with_default t _ _ w) as [r w2]. cbn [fst snd] in *. subst r.
  split_and!; try done. by exists b.
Qed.

(** ** A concrete future

    A task that has some steps to do and then ends, or panics; each poll notes the current
    span. *)
Section countdown.
Context `{E : Env} {P : PoolOps DataInner} `{!PoolLaws default_data P}.
Variables (es : list entry) (fuel : nat).

Record Countdown := { left_ : nat; bomb : bool; seen : list (option Id) }.

Definition countdown_poll (self : Countdown) : M (Countdown * Polled (list (option Id))) :=
  c ← s_current_span (dispatch es fuel);
  let seen := seen self ++ [CurrentSpans.id c] in
  mret match left_ self with
       | O => ({| left_ := 0; bomb := bomb self; seen := seen |},
               if bomb self then Unwinding else Ready seen)
       | S n => ({| left_ := n; bomb := bomb self; seen := seen |}, Pending)
       end.

#[export] Instance countdown_future : Future Countdown (list (option Id)) := {
  poll := countdown_poll;
  drop_future _ := mret false;
}.

#[export] Instance countdown_laws : FutureLaws es fuel Countdown (list (option Id)).
Proof.
  refine {| fut_ok (_ : Countdown) := True; own (_ : Countdown) := fun _ => 0%nat; cost := 0 |}.
  - intros t h n l w _ Hs Hl _. cbn. unfold countdown_poll. mred.
    unfold dispatch. rewrite stack_current_span.
    destruct (left_ t); eexists _, _, w; (split; [reflexivity|]); split; try done;
      (split; [by rewrite Nat.add_0_r|done|lia]).
  - intros t h n l w _ Hs Hl _. exists false, w. split; [done|].
    split; [|done|lia]. rewrite Nat.add_0_r. by eapply settled_ext; [|exact Hs].
Defined.

(** ** Runs of an executor *)

Inductive action :=
  | Program (op : span_op) (cs : option SpanStack.t)
  | Spawn (k : Z) (t : Countdown)
  | PollTask (i : nat)
  | DropTask (i : nat).

Definition span_of (k : Z) : Span :=
  {| inner := Some (inner_new (idx_to_id k) (dispatch es fuel)); meta := None |}.

Definition exec_action (a : action) (ts : @Tasks E P Countdown) (h : handles) (w : World) :
    outcome (@Tasks E P Countdown * handles * World) :=
  match a with
  | Program op cs =>
      _ ← assert (bool_decide (legal h op) && (size (pool_keys (spans w)) <? fuel)%nat);
      '(r, w') ← run_op fuel es op (with_current_spans cs w);
      Done (ts, handles_after op r h, with_current_spans (current_spans w) w')
  | Spawn k t =>
      _ ← assert ((0 <? h k)%nat && (0 <=? k));
      Done (ts ++ [Some (instrument t (span_of k))], drop_handle k h, w)
  | PollTask i =>
      _ ← assert (size (pool_keys (spans w)) <? fuel)%nat;
      t ← expect (mjoin (ts !! i));
      '(t', _, w') ← poll t w; Done (<[i := Some t']> ts, h, w')
  | DropTask i =>
      _ ← assert (size (pool_keys (spans w)) <? fuel)%nat;
      t ← expect (mjoin (ts !! i));
      '(_, w') ← drop_future t w; Done (<[i := None]> ts, h, w')
  end.

Fixpoint run_actions (l : list action) (ts : @Tasks E P Countdown) (h : handles) (w : World) :
    outcome (@Tasks E P Countdown * handles * World) :=
  match l with
  | [] => Done (ts, h, w)
  | a :: l => '(ts, h, w) ← exec_action a ts h w; run_actions l ts h w
  end.

Lemma assert_done b r : assert b = Done r -> b = true.
Proof. by destruct b. Qed.

Lemma run_actions_executor l ts h n w ts' h' w' :
  executor es fuel ts h n w -> Z.of_nat (S n + 2 * length l) < U64.MAX ->
  run_actions l ts h w = Done (ts', h', w') ->
  exists n', executor es fuel ts' h' n' w' /\ (n' <= n + 2 * length l)%nat.
Proof.
  revert ts h n w. induction l as [|a l IH]; intros ts h n w Hx Hn; cbn [run_actions].
  { intros [= <- <- <-]. exists n. split; [done|lia]. }
  destruct (exec_action a ts h w) as [[[ts1 h1] w1]|] eqn:Ha; [|done].
  assert (exists m, executor es fuel ts1 h1 m w1 /\ (m <= S (S n))%nat) as (m & Hm & Hle).
  2:{ cbn [mbind outcome_bind length] in *. intros Hrun.
      destruct (IH _ _ m _ Hm ltac:(lia) Hrun) as (n' & Hx' & Hn'). exists n'. split; [done|lia]. }
  cbn [length] in Hn. destruct a as [op cs|k t|i|i]; cbn [exec_action] in Ha.
  - destruct (assert _) as [r|] eqn:Hb; [|done]. apply assert_done, andb_prop in Hb as [Hl Hf].
    apply bool_decide_eq_true in Hl. apply Nat.ltb_lt in Hf.
    cbn [mbind outcome_bind] in Ha.
    destruct (run_op fuel es op _) as [[r' w2]|] eqn:Hrun; [|done]. injection Ha as <- <- <-.
    exists (S (S n)). split; [|done]. eapply executor_program; try done. lia.
  - destruct (assert _) as [r|] eqn:Hb; [|done]. apply assert_done, andb_prop in Hb as [Hl Hk].
    apply Nat.ltb_lt in Hl. apply Z.leb_le in Hk. cbn [mbind outcome_bind] in Ha.
    injection Ha as <- <- <-. exists n. split; [|lia]. eapply executor_spawn; try done.
    + intros k'. unfold add, span_own, drop_handle, upd. cbn. rewrite id_idx by done.
      destruct (decide (k' = k)) as [->|]; [rewrite decide_True by done; lia|].
      by rewrite decide_False by congruence.
    + by intros i [= <-].
  - destruct (assert _) as [r|] eqn:Hb; [|done]. apply assert_done, Nat.ltb_lt in Hb.
    cbn [mbind outcome_bind] in Ha. destruct (ts !! i) as [[t|]|] eqn:Ht; try done.
    cbn [mjoin option_join expect mbind outcome_bind] in Ha.
    destruct (poll t w) as [[[t' r'] w2]|] eqn:Hrun; [|done]. injection Ha as <- <- <-.
    exists (n + cost es fuel (FutureLaws := countdown_laws))%nat. split; [|cbn; lia].
    eapply executor_poll; try done. split; cbn; lia.
  - destruct (assert _) as [r|] eqn:Hb; [|done]. apply assert_done, Nat.ltb_lt in Hb.
    cbn [mbind outcome_bind] in Ha. destruct (ts !! i) as [[t|]|] eqn:Ht; try done.
    cbn [mjoin option_join expect mbind outcome_bind] in Ha.
    destruct (drop_future t w) as [[r' w2]|] eqn:Hrun; [|done]. injection Ha as <- <- <-.
    exists (n + cost es fuel (FutureLaws := countdown_laws))%nat. split; [|cbn; lia].
    eapply executor_drop; try done. split; cbn; lia.
Qed.

End countdown.

(** Two tasks with a span each; the first panics at its second poll and is dropped. *)
Definition two_tasks : list action :=
  let m := Attributes.metadata root_span in
  let vs := Attributes.values root_span in
  [Program (OpNewRoot Interest.sometimes m vs) None; Spawn 0 {| left_ := 1; bomb := true; seen := [] |};
   Program (OpNewContextual Interest.always m vs) (Some (marked [idx_to_id 0]));
   Spawn 1 {| left_ := 2; bomb := false; seen := [] |};
   PollTask 0; PollTask 1; PollTask 0; DropTask 0].

#[local] Instance example_countdown : Future Countdown (list (option Id)) :=
  countdown_future example_stack 10.
Definition example_tasks : Type := list (option (Instrumented Countdown)).

Definition two_tasks_end : outcome (example_tasks * handles * World) :=
  run_actions example_stack 10 two_tasks [] (fun _ => 0%nat) (with_filters 2).
Definition example_own : example_tasks -> handles :=
  owned_by example_stack 10 (FL := countdown_laws example_stack 10).

Lemma tasks_run_in_their_spans_witness :
  match two_tasks_end with
  | Done (ts, h, w) =>
      entered_are [] w /\ held (add (example_own ts) h) (spans w) 0 /\
      exists t t' r w3, ts = [None; Some t] /\ id (i_span t) = Some (idx_to_id 1) /\
        seen (i_inner t) = [Some (idx_to_id 1)] /\
        poll t w = Done ((t', r), w3) /\ entered_are [] w3
  | Panic => False
  end.
Proof.
  assert (match two_tasks_end with
          | Done (ts, h, w) => bool_decide (is_Some (pool_get 0 (spans w))) &&
              (size (pool_keys (spans w)) <? 10)%nat &&
              match ts with
              | [None; Some t] => bool_decide (id (i_span t) = Some (idx_to_id 1)) &&
                  bool_decide (seen (i_inner t) = [Some (idx_to_id 1)])
              | _ => false
              end
          | Panic => false
          end = true) as Hev by (vm_compute; reflexivity).
  destruct two_tasks_end as [[[ts h] w]|] eqn:Hrun; [|discriminate Hev].
  apply andb_prop in Hev as [Hev Hts]. apply andb_prop in Hev as [Hlive%bool_decide_eq_true Hsize%Nat.ltb_lt].
  destruct ts as [|[?|] [|[t|] [|]]]; try discriminate Hts.
  apply andb_prop in Hts as [Hid%bool_decide_eq_true Hseen%bool_decide_eq_true].
  destruct (run_actions_executor example_stack 10 two_tasks [] (fun _ => 0%nat) 0 (with_filters 2)
    [None; Some t] h w) as (n & Hx & Hn); [by apply executor_start|unfold U64.MAX; cbn; lia|exact Hrun|].
  destruct (tasks_run_in_their_spans example_stack 10 [None; Some t] h n w example_unlimited
    example_stack_ok ltac:(cbn; lia) ltac:(discriminate) Hx) as (Hl & Hheld & _ & Hpoll).
  destruct (Hpoll 1%nat t eq_refl) as [(w1 & t' & r & w2 & w3 & _ & _ & _ & _ & Hrun' & Hl') _].
  { split; [unfold U64.MAX; change (cost _ _) with 0%nat; cbn in Hn; lia|change (cost _ _) with 0%nat; lia]. }
  split; [exact Hl|]. split; [by apply Hheld|].
  exists t, (set_inner t' t), r, w3. split_and!; try done.
Defined.
