(* ===== verification/MacroFields.v ===== *)
(** * MacroFields: the field lists of the macros, [tracing/src/macros.rs]

    [fieldset!], [valueset_all!] and [valueset!], which turn the field list of a macro
    call into the names of a callsite and into the values of an event, separately.  A
    rule of a [macro_rules!] is a pattern on token lists, tried in the order of the source;
    an internal rule with an accumulator is a function of it.  Parsing the [expr] fragments
    is the compiler's: a parameter. *)

From S2P Require Import Prelude.
From S2P Require Import Str.
From S2P Require Import Levels.
From S2P Require Import Fields.
From S2P Require Import Meta.
From Stdlib Require Import Ascii.

Local Open Scope string_scope.
Local Open Scope list_scope.

(** ** [FieldName], [tracing/src/lib.rs] *)
Module FieldName.

(** [FieldName::len]: every [#] is taken for one of [r#]; [usize] underflows. *)
Fixpoint hashes (input : string) : nat :=
  match input with
  | EmptyString => 0
  | String c input => (if Ascii.eqb c "#"%char then 1 else 0) + hashes input
  end.
Definition len (input : string) : outcome nat :=
  if (2 * hashes input <=? String.length input)%nat
  then Done (String.length input - 2 * hashes input)%nat else Panic.

(** The loop of [FieldName::new]: [r#] is skipped wherever it stands, and the byte after
    it is copied; the index panics when the input ends there. *)
Fixpoint strip (input : string) : outcome string :=
  match input with
  | EmptyString => Done ""
  | String c rest =>
      match rest with
      | String h rest' =>
          if Ascii.eqb c "r"%char && Ascii.eqb h "#"%char then
            match rest' with
            | EmptyString => Panic
            | String d rest'' => s ← strip rest''; Done (String d s)
            end
          else s ← strip rest; Done (String c s)
      | EmptyString => Done (String c "")
      end
  end.
(** [FieldName::<{ len(input) }>::new(input)] and [as_str]: the array has [len] bytes. *)
Definition new (input : string) : outcome string :=
  n ← len input; s ← strip input;
  if (String.length s =? n)%nat then Done s else Panic.

End FieldName.

(** The text of a path of identifiers, some of them raw, and the name that it gives. *)
Definition spell (seg : bool * string) : string := ((if seg.1 then "r#" else "") ++ seg.2)%string.
Fixpoint stringify (k : list (bool * string)) : string :=
  match k with
  | [] => ""
  | [seg] => spell seg
  | seg :: k => (spell seg ++ "." ++ stringify k)%string
  end.
Fixpoint joined (k : list string) : string :=
  match k with [] => "" | [s] => s | s :: k => (s ++ "." ++ joined k)%string end.

(** An identifier has no [#]. *)
Definition identifier (s : string) : Prop := s <> "" /\ FieldName.hashes s = 0%nat.

Definition starts_hash (t : string) : bool :=
  match t with String h _ => Ascii.eqb h "#"%char | EmptyString => false end.

Lemma hashes_app s t :
  FieldName.hashes (s ++ t)%string = (FieldName.hashes s + FieldName.hashes t)%nat.
Proof.
  induction s as [|c s IH]; [done|]. change (String c s ++ t)%string with (String c (s ++ t)).
  cbn [FieldName.hashes]. rewrite IH. lia.
Qed.

Lemma strip_plain s t :
  FieldName.hashes s = 0%nat -> starts_hash t = false ->
  FieldName.strip (s ++ t)%string = u ← FieldName.strip t; Done (s ++ u)%string.
Proof.
  intros Hs Ht. induction s as [|c s IH].
  { change ("" ++ t)%string with t. by destruct (FieldName.strip t). }
  change (String c s ++ t)%string with (String c (s ++ t)).
  cbn [FieldName.hashes] in Hs. specialize (IH ltac:(lia)).
  assert (FieldName.strip (String c (s ++ t)) = u ← FieldName.strip (s ++ t)%string; Done (String c u)) as ->.
  { cbn [FieldName.strip]. destruct (s ++ t)%string as [|h r] eqn:Hst; [done|].
    assert (Ascii.eqb h "#"%char = false) as ->; [|by rewrite andb_false_r].
    destruct s as [|h' s]; [by change ("" ++ t)%string with t in Hst; subst t|].
    change (String h' s ++ t)%string with (String h' (s ++ t)) in Hst. injection Hst as <- _.
    cbn in Hs. destruct (Ascii.eqb h' "#"%char); [lia|done]. }
  rewrite IH. destruct (FieldName.strip t); reflexivity.
Qed.

Lemma strip_spell seg t :
  identifier seg.2 -> starts_hash t = false ->
  FieldName.strip (spell seg ++ t)%string = u ← FieldName.strip t; Done (seg.2 ++ u)%string.
Proof.
  intros [Hne Hs] Ht. destruct seg as [[] s]; cbn [fst snd spell] in *; [|by apply strip_plain].
  destruct s as [|d s]; [done|]. cbn [FieldName.hashes] in Hs.
  change (FieldName.strip (spell (true, String d s) ++ t)%string) with
    (u ← FieldName.strip (s ++ t)%string; Done (String d u)).
  assert (FieldName.hashes s = 0%nat) as Hs' by lia. rewrite (strip_plain s t Hs' Ht).
  destruct (FieldName.strip t); reflexivity.
Qed.

(** The name of a field is its path without the marks of raw identifiers, and the array
    that holds it has the right size. *)
Lemma field_name_of_path k :
  k <> [] -> Forall (fun seg => identifier seg.2) k ->
  FieldName.new (stringify k) = Done (joined (snd <$> k)).
Proof.
  intros Hk Hids.
  assert (FieldName.strip (stringify k) = Done (joined (snd <$> k)) /\
    String.length (joined (snd <$> k)) + 2 * FieldName.hashes (stringify k) =
    String.length (stringify k) /\ starts_hash (stringify k) = false)%nat as (Hs & Hl & _).
  { clear Hk. induction Hids as [|seg k [Hne Hh] _ (IH1 & IH2 & IH3)]; [done|].
    assert (forall t, starts_hash (spell seg ++ t)%string = false) as Hstart.
    { intros t. destruct seg as [[] [|c s]]; try done. cbn in Hh.
      change (Ascii.eqb c "#"%char = false). by destruct (Ascii.eqb c "#"%char). }
    assert (String.length (spell seg) = String.length seg.2 + 2 * FieldName.hashes (spell seg))%nat as Hsp.
    { unfold spell. rewrite hashes_app, str_len_app, Hh. destruct seg.1; cbn; lia. }
    destruct k as [|seg' k].
    - cbn [stringify fmap list_fmap joined]. pose proof (strip_spell seg "" (conj Hne Hh) eq_refl) as H.
      cbn [FieldName.strip mbind outcome_bind] in H. rewrite !append_nil_r in H.
      split_and!; [exact H|symmetry; exact Hsp|]. specialize (Hstart ""). by rewrite append_nil_r in Hstart.
    - change (stringify (seg :: seg' :: k)) with (spell seg ++ "." ++ stringify (seg' :: k))%string.
      change (joined (snd <$> seg :: seg' :: k)) with (seg.2 ++ "." ++ joined (snd <$> seg' :: k))%string.
      set (x := stringify (seg' :: k)) in *. set (y := joined _) in *.
      rewrite strip_spell, strip_plain, IH1 by done. split_and!; [done| |apply Hstart].
      rewrite !hashes_app, !str_len_app. cbn in *. lia. }
  unfold FieldName.new, FieldName.len. rewrite Hs.
  assert ((2 * FieldName.hashes (stringify k) <=? String.length (stringify k)) = true)%nat as ->
    by (apply Nat.leb_le; lia).
  cbn [mbind outcome_bind]. by rewrite (proj2 (Nat.eqb_eq _ _)) by lia.
Qed.

(** ** Tokens and patterns *)

Inductive Delim := Paren | Brace | Bracket.

(** A fragment that a macro has captured as an [expr] is one token of the macros that it
    is passed to. *)
#[warnings="-register-all"]
Inductive Tok :=
  | Ident (s : string)
  | Punct (s : string)
  | Lit (s : string)
  | Group (d : Delim) (l : list Tok)
  | Frag (e : Expr)
with Expr :=
  | Source (l : list Tok)
  | Path (k : list string)
  | FormatArgs (l : list Tok)
  | ModulePath
  | LevelOf (l : Level.t)
  | KindOf (k : Kind)
  (* [concat!(prefix, file!(), ":", line!())] *)
  | Located (prefix : string).

Abbreviation comma := (Punct ",").

(** Parsing an expression from the front of the tokens: which tokens can begin one, and the
    expression with the tokens after it. *)
Class ExprParser := {
  can_begin_expr : Tok -> bool;
  parse_expr : list Tok -> option (Expr * list Tok);
}.

(** A pattern does not match, or the compilation fails at once: at an expression that does
    not parse, and where a token could be matched in two ways. *)
Inductive Match (A : Type) := Matched (a : A) | NoMatch | Fatal.
Arguments Matched {A}. Arguments NoMatch {A}. Arguments Fatal {A}.

Definition Pat (A : Type) : Type := list Tok -> Match (A * list Tok).
#[global] Instance Pat_ret : MRet Pat := fun A a l => Matched (a, l).
#[global] Instance Pat_bind : MBind Pat := fun A B f p l =>
  match p l with
  | Matched (a, r) => f a r
  | NoMatch => NoMatch
  | Fatal => Fatal
  end.

Definition punct (s : string) : Pat unit := fun l =>
  match l with Punct c :: r => if String.eqb c s then Matched (tt, r) else NoMatch | _ => NoMatch end.
Definition word (s : string) : Pat unit := fun l =>
  match l with Ident c :: r => if String.eqb c s then Matched (tt, r) else NoMatch | _ => NoMatch end.
Definition literal : Pat string := fun l =>
  match l with Lit s :: r => Matched (s, r) | _ => NoMatch end.

(** [$($k:ident).+] *)
Fixpoint path (l : list Tok) : Match (list string * list Tok) :=
  match l with
  | Ident s :: r =>
      match r with
      | Punct d :: r' =>
          if String.eqb d "." then
            match path r' with
            | Matched (k, r'') => Matched (s :: k, r'')
            | NoMatch => NoMatch
            | Fatal => Fatal
            end
          else Matched ([s], r)
      | _ => Matched ([s], r)
      end
  | _ => NoMatch
  end.

(** [$($field:tt)*] and [$($arg:tt)+], at the end of a pattern *)
Definition tts : Pat (list Tok) := fun l => Matched (l, []).
Definition tts1 : Pat (list Tok) := fun l => match l with [] => NoMatch | _ => Matched (l, []) end.

(** [$(,) *], at the end of a pattern *)
Fixpoint commas (l : list Tok) : Match (unit * list Tok) :=
  match l with
  | Punct c :: r => if String.eqb c "," then commas r else Matched (tt, l)
  | _ => Matched (tt, l)
  end.

(** The tokens that a pattern matches, when they are all. *)
Definition whole {A} (p : Pat A) : Pat (list Tok) := fun l =>
  match p l with
  | Matched (_, []) => Matched (l, [])
  | Matched _ | NoMatch => NoMatch
  | Fatal => Fatal
  end.

(** A group in braces whose content is matched by [p]. *)
Definition braces {A} (p : Pat A) : Pat A := fun l =>
  match l with
  | Group Brace g :: r =>
      match p g with
      | Matched (a, []) => Matched (a, r)
      | Matched _ | NoMatch => NoMatch
      | Fatal => Fatal
      end
  | _ => NoMatch
  end.

(** The rules of a macro: the first that matches all tokens. *)
Fixpoint first_match {A} (arms : list (Pat A)) (l : list Tok) : Match A :=
  match arms with
  | [] => NoMatch
  | p :: arms =>
      match p l with
      | Matched (a, []) => Matched a
      | Matched _ | NoMatch => first_match arms l
      | Fatal => Fatal
      end
  end.

Section macros.
Context `{X : ExprParser}.

(** [$e:expr] *)
Definition expr : Pat Expr := fun l =>
  match l with
  | t :: _ =>
      if can_begin_expr t then
        match parse_expr l with Some r => Matched r | None => Fatal end
      else NoMatch
  | [] => NoMatch
  end.

(** ** [fieldset!] *)

(** An element of the array of names: [__tracing_stringify!($($k).+)], a literal, a
    constant expression, or [message]. *)
Inductive FName :=
  | NPath (k : list string)
  | NLit (s : string)
  | NConst (e : Expr)
  | NMessage.

(** The rules with the accumulator [out]; the result is the next call, or the end. *)
Definition fieldset_rules (out : list FName) : list (Pat (list FName * option (list Tok))) :=
  [ _ ← commas; mret (out, None);
    k ← path; _ ← punct "="; _ ← punct "?"; _ ← expr; _ ← punct ","; rest ← tts; mret (out ++ [NPath k], Some rest);
    k ← path; _ ← punct "="; _ ← punct "%"; _ ← expr; _ ← punct ","; rest ← tts; mret (out ++ [NPath k], Some rest);
    k ← path; _ ← punct "="; _ ← expr; _ ← punct ","; rest ← tts; mret (out ++ [NPath k], Some rest);
    _ ← punct "?"; k ← path; _ ← punct ","; rest ← tts; mret (out ++ [NPath k], Some rest);
    _ ← punct "%"; k ← path; _ ← punct ","; rest ← tts; mret (out ++ [NPath k], Some rest);
    k ← path; _ ← punct ","; rest ← tts; mret (out ++ [NPath k], Some rest);
    k ← literal; _ ← punct "="; _ ← punct "?"; _ ← expr; _ ← punct ","; rest ← tts; mret (out ++ [NLit k], Some rest);
    k ← literal; _ ← punct "="; _ ← punct "%"; _ ← expr; _ ← punct ","; rest ← tts; mret (out ++ [NLit k], Some rest);
    k ← literal; _ ← punct "="; _ ← expr; _ ← punct ","; rest ← tts; mret (out ++ [NLit k], Some rest);
    k ← braces expr; _ ← punct "="; _ ← punct "?"; _ ← expr; _ ← punct ","; rest ← tts; mret (out ++ [NConst k], Some rest);
    k ← braces expr; _ ← punct "="; _ ← punct "%"; _ ← expr; _ ← punct ","; rest ← tts; mret (out ++ [NConst k], Some rest);
    k ← braces expr; _ ← punct "="; _ ← expr; _ ← punct ","; rest ← tts; mret (out ++ [NConst k], Some rest);
    _ ← tts1; mret (NMessage :: out, Some []) ].

(** The recursion of the internal rules; [fuel] bounds the number of calls. *)
Fixpoint expand_rules {O} (rules : list O -> list (Pat (list O * option (list Tok)))) (fuel : nat)
    (out : list O) (l : list Tok) : Match (list O) :=
  match fuel with
  | O => Fatal
  | S fuel =>
      match first_match (rules out) l with
      | Matched (out, None) => Matched out
      | Matched (out, Some rest) => expand_rules rules fuel out rest
      | NoMatch => NoMatch
      | Fatal => Fatal
      end
  end.

(** At most [n] calls are made. *)
Fixpoint ends_rules {O} (rules : list O -> list (Pat (list O * option (list Tok)))) (n : nat)
    (out : list O) (l : list Tok) : Prop :=
  match n with
  | O => False
  | S n =>
      match first_match (rules out) l with
      | Matched (out, Some rest) => ends_rules rules n out rest
      | _ => True
      end
  end.

Definition fieldset (args : list Tok) : Match (list FName) :=
  expand_rules fieldset_rules (2 + length args) [] (args ++ [comma]).

(** ** [valueset_all!] and [valueset!] *)

(** An element of the array of values: [debug(&$val)], [display(&$val)] or [$val]. *)
Inductive VForm :=
  | VDebug (e : Expr)
  | VDisplay (e : Expr)
  | VValue (e : Expr).

Definition valueset_all_rules (out : list VForm) : list (Pat (list VForm * option (list Tok))) :=
  [ _ ← commas; mret (out, None);
    k ← path; _ ← punct "="; _ ← punct "?"; v ← expr; _ ← punct ","; rest ← tts; mret (out ++ [VDebug v], Some rest);
    k ← path; _ ← punct "="; _ ← punct "%"; v ← expr; _ ← punct ","; rest ← tts; mret (out ++ [VDisplay v], Some rest);
    k ← path; _ ← punct "="; v ← expr; _ ← punct ","; rest ← tts; mret (out ++ [VValue v], Some rest);
    k ← path; _ ← punct ","; rest ← tts; mret (out ++ [VValue (Path k)], Some rest);
    _ ← punct "?"; k ← path; _ ← punct ","; rest ← tts; mret (out ++ [VDebug (Path k)], Some rest);
    _ ← punct "%"; k ← path; _ ← punct ","; rest ← tts; mret (out ++ [VDisplay (Path k)], Some rest);
    k ← path; _ ← punct "="; _ ← punct "?"; v ← expr; mret (out ++ [VDebug v], Some []);
    k ← path; _ ← punct "="; _ ← punct "%"; v ← expr; mret (out ++ [VDisplay v], Some []);
    k ← path; _ ← punct "="; v ← expr; mret (out ++ [VValue v], Some []);
    k ← path; mret (out ++ [VValue (Path k)], Some []);
    _ ← punct "?"; k ← path; mret (out ++ [VDebug (Path k)], Some []);
    _ ← punct "%"; k ← path; mret (out ++ [VDisplay (Path k)], Some []);
    k ← literal; _ ← punct "="; _ ← punct "?"; v ← expr; _ ← punct ","; rest ← tts; mret (out ++ [VDebug v], Some rest);
    k ← literal; _ ← punct "="; _ ← punct "%"; v ← expr; _ ← punct ","; rest ← tts; mret (out ++ [VDisplay v], Some rest);
    k ← literal; _ ← punct "="; v ← expr; _ ← punct ","; rest ← tts; mret (out ++ [VValue v], Some rest);
    k ← literal; _ ← punct "="; _ ← punct "?"; v ← expr; mret (out ++ [VDebug v], Some []);
    k ← literal; _ ← punct "="; _ ← punct "%"; v ← expr; mret (out ++ [VDisplay v], Some []);
    k ← literal; _ ← punct "="; v ← expr; mret (out ++ [VValue v], Some []);
    k ← braces expr; _ ← punct "="; _ ← punct "?"; v ← expr; _ ← punct ","; rest ← tts; mret (out ++ [VDebug v], Some rest);
    k ← braces expr; _ ← punct "="; _ ← punct "%"; v ← expr; _ ← punct ","; rest ← tts; mret (out ++ [VDisplay v], Some rest);
    k ← braces expr; _ ← punct "="; v ← expr; _ ← punct ","; rest ← tts; mret (out ++ [VValue v], Some rest);
    k ← braces expr; _ ← punct "="; _ ← punct "?"; v ← expr; mret (out ++ [VDebug v], Some []);
    k ← braces expr; _ ← punct "="; _ ← punct "%"; v ← expr; mret (out ++ [VDisplay v], Some []);
    k ← braces expr; _ ← punct "="; v ← expr; mret (out ++ [VValue v], Some []);
    rest ← tts1; mret (VValue (FormatArgs rest) :: out, Some []) ].

(** The entry; without fields the array is empty. *)
Definition valueset_all (args : list Tok) : Match (list VForm) :=
  match args with
  | [] => Matched []
  | _ => expand_rules valueset_all_rules (2 + length args) [] args
  end.

(** [valueset!] pairs each value with the name by which its field is looked up; it has no
    rule for a message. *)
Definition valueset_rules (out : list (FName * VForm)) : list (Pat (list (FName * VForm) * option (list Tok))) :=
  [ _ ← commas; mret (out, None);
    k ← path; _ ← punct "="; _ ← punct "?"; v ← expr; _ ← punct ","; rest ← tts; mret (out ++ [(NPath k, VDebug v)], Some rest);
    k ← path; _ ← punct "="; _ ← punct "%"; v ← expr; _ ← punct ","; rest ← tts; mret (out ++ [(NPath k, VDisplay v)], Some rest);
    k ← path; _ ← punct "="; v ← expr; _ ← punct ","; rest ← tts; mret (out ++ [(NPath k, VValue v)], Some rest);
    k ← path; _ ← punct ","; rest ← tts; mret (out ++ [(NPath k, VValue (Path k))], Some rest);
    _ ← punct "?"; k ← path; _ ← punct ","; rest ← tts; mret (out ++ [(NPath k, VDebug (Path k))], Some rest);
    _ ← punct "%"; k ← path; _ ← punct ","; rest ← tts; mret (out ++ [(NPath k, VDisplay (Path k))], Some rest);
    k ← path; _ ← punct "="; _ ← punct "?"; v ← expr; mret (out ++ [(NPath k, VDebug v)], Some []);
    k ← path; _ ← punct "="; _ ← punct "%"; v ← expr; mret (out ++ [(NPath k, VDisplay v)], Some []);
    k ← path; _ ← punct "="; v ← expr; mret (out ++ [(NPath k, VValue v)], Some []);
    k ← path; mret (out ++ [(NPath k, VValue (Path k))], Some []);
    _ ← punct "?"; k ← path; mret (out ++ [(NPath k, VDebug (Path k))], Some []);
    _ ← punct "%"; k ← path; mret (out ++ [(NPath k, VDisplay (Path k))], Some []);
    k ← literal; _ ← punct "="; _ ← punct "?"; v ← expr; _ ← punct ","; rest ← tts; mret (out ++ [(NLit k, VDebug v)], Some rest);
    k ← literal; _ ← punct "="; _ ← punct "%"; v ← expr; _ ← punct ","; rest ← tts; mret (out ++ [(NLit k, VDisplay v)], Some rest);
    k ← literal; _ ← punct "="; v ← expr; _ ← punct ","; rest ← tts; mret (out ++ [(NLit k, VValue v)], Some rest);
    k ← literal; _ ← punct "="; _ ← punct "?"; v ← expr; mret (out ++ [(NLit k, VDebug v)], Some []);
    k ← literal; _ ← punct "="; _ ← punct "%"; v ← expr; mret (out ++ [(NLit k, VDisplay v)], Some []);
    k ← literal; _ ← punct "="; v ← expr; mret (out ++ [(NLit k, VValue v)], Some []);
    k ← braces expr; _ ← punct "="; _ ← punct "?"; v ← expr; _ ← punct ","; rest ← tts; mret (out ++ [(NConst k, VDebug v)], Some rest);
    k ← braces expr; _ ← punct "="; _ ← punct "%"; v ← expr; _ ← punct ","; rest ← tts; mret (out ++ [(NConst k, VDisplay v)], Some rest);
    k ← braces expr; _ ← punct "="; v ← expr; _ ← punct ","; rest ← tts; mret (out ++ [(NConst k, VValue v)], Some rest);
    k ← braces expr; _ ← punct "="; _ ← punct "?"; v ← expr; mret (out ++ [(NConst k, VDebug v)], Some []);
    k ← braces expr; _ ← punct "="; _ ← punct "%"; v ← expr; mret (out ++ [(NConst k, VDisplay v)], Some []);
    k ← braces expr; _ ← punct "="; v ← expr; mret (out ++ [(NConst k, VValue v)], Some []) ].
Definition valueset (args : list Tok) : Match (list (FName * VForm)) :=
  match args with
  | [] => Matched []
  | _ => expand_rules valueset_rules (2 + length args) [] args
  end.

End macros.

(** ** The grammar of a field list

    One field: a name with the form of its value, each with the sigil of [Debug] or
    [Display] where there is one. *)
Section grammar.
Context `{X : ExprParser}.

Definition value_of : Pat VForm := fun l =>
  match l with
  | Punct c :: r =>
      if String.eqb c "?" then (e ← expr; mret (VDebug e)) r
      else if String.eqb c "%" then (e ← expr; mret (VDisplay e)) r
      else (e ← expr; mret (VValue e)) l
  | _ => (e ← expr; mret (VValue e)) l
  end.

Definition with_value (n : FName) : Pat (FName * VForm) :=
  _ ← punct "="; v ← value_of; mret (n, v).

Definition sigil_path (f : Expr -> VForm) : Pat (FName * VForm) :=
  k ← path; mret (NPath k, f (Path k)).

Definition field : Pat (FName * VForm) := fun l =>
  match l with
  | Ident _ :: _ =>
      match path l with
      | Matched (k, r) =>
          match punct "=" r with
          | Matched _ => with_value (NPath k) r
          | _ => Matched ((NPath k, VValue (Path k)), r)
          end
      | NoMatch => NoMatch
      | Fatal => Fatal
      end
  | Lit s :: r => with_value (NLit s) r
  | Group Brace _ :: _ => (e ← braces expr; with_value (NConst e)) l
  | Punct c :: r =>
      if String.eqb c "?" then sigil_path VDebug r
      else if String.eqb c "%" then sigil_path VDisplay r
      else NoMatch
  | _ => NoMatch
  end.

Definition all_commas (l : list Tok) : bool :=
  match commas l with Matched (_, []) => true | _ => false end.

(** Fields separated by commas; what cannot be read as a field is the message, with its
    arguments, to the end. *)
Fixpoint field_list (fuel : nat) (l : list Tok) : Match (option (list Tok) * list (FName * VForm)) :=
  match fuel with
  | O => Fatal
  | S fuel =>
      if all_commas l then Matched (None, [])
      else match field l with
           | Fatal => Fatal
           | NoMatch => Matched (Some l, [])
           | Matched (f, []) => Matched (None, [f])
           | Matched (f, Punct c :: r) =>
               if String.eqb c "," then
                 match field_list fuel r with
                 | Matched (m, fs) => Matched (m, f :: fs)
                 | NoMatch => NoMatch
                 | Fatal => Fatal
                 end
               else Matched (Some l, [])
           | Matched _ => Matched (Some l, [])
           end
  end.
Definition message_field (m : option (list Tok)) : list (FName * VForm) :=
  match m with Some args => [(NMessage, VValue (FormatArgs args))] | None => [] end.
(** The message comes first. *)
Definition fields_of (l : list Tok) : Match (list (FName * VForm)) :=
  match field_list (1 + length l) l with
  | Matched (m, fs) => Matched (message_field m ++ fs)
  | NoMatch => NoMatch
  | Fatal => Fatal
  end.

(** Documented behaviour of the compiler's parser: a captured fragment is an expression;
    no sigil or separator begins one; an expression has at least one token; and a comma
    after the last token ends the expression there. *)
Class ExprLaws := {
  begin_frag e : can_begin_expr (Frag e) = true;
  begin_punct c : c = "?" \/ c = "%" \/ c = "," \/ c = "=" \/ c = ":" -> can_begin_expr (Punct c) = false;
  parse_frag e r : r = [] \/ head r = Some comma -> parse_expr (Frag e :: r) = Some (e, r);
  parse_shorter l e r : parse_expr l = Some (e, r) -> (length r < length l)%nat;
  parse_comma l : parse_expr (l ++ [comma]) =
    match parse_expr l with Some (e, r) => Some (e, r ++ [comma]) | None => None end;
}.
Context `{XL : !ExprLaws}.

Lemma expr_punct c l :
  c = "?" \/ c = "%" \/ c = "," \/ c = "=" \/ c = ":" -> expr (Punct c :: l) = NoMatch.
Proof. intros H. unfold expr. by rewrite begin_punct. Qed.

Lemma expr_not_begin : expr [] = NoMatch /\ forall l, expr (comma :: l) = NoMatch.
Proof. split; [done|]. intros l. apply expr_punct. tauto. Qed.

(** *** The steps of the macros by the grammar *)

#[local] Arguments path : simpl never.
#[local] Arguments expr : simpl never.
#[local] Arguments commas : simpl never.

Ltac run_pat := cbv beta iota zeta delta [mbind Pat_bind mret Pat_ret tts].

Lemma first_match_cons {A} (p : Pat A) arms l :
  first_match (p :: arms) l =
  match p l with
  | Matched (a, []) => Matched a
  | Matched _ | NoMatch => first_match arms l
  | Fatal => Fatal
  end.
Proof. done. Qed.

(** The value of a field after its name. *)
Definition equals_value : Pat VForm := _ ← punct "="; value_of.

Lemma equals_value_cases r :
  equals_value r =
  match r with
  | Punct c :: r' => if String.eqb c "=" then value_of r' else NoMatch
  | _ => NoMatch
  end.
Proof.
  unfold equals_value. run_pat. destruct r as [|[] r]; try done. cbn. by destruct (String.eqb s "=").
Qed.

(** Three rules with a name, an equals sign and the three forms of a value, which go on
    as [T], read the value as [value_of] does. *)
Lemma three_rules {A B} (N : Pat B) (T : B -> VForm -> Pat A) (arms : list (Pat A)) l :
  first_match
    ((k ← N; _ ← punct "="; _ ← punct "?"; v ← expr; T k (VDebug v)) ::
     (k ← N; _ ← punct "="; _ ← punct "%"; v ← expr; T k (VDisplay v)) ::
     (k ← N; _ ← punct "="; v ← expr; T k (VValue v)) :: arms) l =
  match N l with
  | Matched (k, r) =>
      match equals_value r with
      | Matched (v, r') =>
          match T k v r' with
          | Matched (a, []) => Matched a
          | Matched _ | NoMatch => first_match arms l
          | Fatal => Fatal
          end
      | NoMatch => first_match arms l
      | Fatal => Fatal
      end
  | NoMatch => first_match arms l
  | Fatal => Fatal
  end.
Proof.
  rewrite !first_match_cons. run_pat. destruct (N l) as [[k r]| |]; [|done..].
  rewrite equals_value_cases.
  destruct r as [|[s|c|s|dd gg|e] r]; cbn [punct]; try done.
  destruct (String.eqb c "="); [|done].
  assert (forall r, match expr r with
    | Matched (v, r') => T k (VValue v) r' | NoMatch => NoMatch | Fatal => Fatal end =
    match (v ← expr; mret (VValue v)) r with
    | Matched (v, r') => T k v r' | NoMatch => NoMatch | Fatal => Fatal end) as Hval.
  { intros r'. run_pat. by destruct (expr r') as [[]| |]. }
  destruct r as [|[s|c'|s|dd gg|e] r]; cbn [punct value_of]; run_pat;
    try (destruct (expr _) as [[v r']| |]; done).
  destruct (String.eqb_spec c' "?") as [->|]; [|destruct (String.eqb_spec c' "%") as [->|]];
    cbn [String.eqb Ascii.eqb Bool.eqb]; rewrite ?(expr_punct "?"), ?(expr_punct "%") by tauto;
    destruct (expr _) as [[v r']| |]; try done; by destruct (T _ _ _) as [[a []]| |].
Qed.

Definition not_ident (l : list Tok) : Prop := match l with Ident _ :: _ => False | _ => True end.
Definition not_lit (l : list Tok) : Prop := match l with Lit _ :: _ => False | _ => True end.
Definition not_brace (l : list Tok) : Prop := match l with Group Brace _ :: _ => False | _ => True end.

Lemma path_none l : not_ident l -> path l = NoMatch.
Proof. by destruct l as [|[]]. Qed.
Lemma literal_none l : not_lit l -> literal l = NoMatch.
Proof. by destruct l as [|[]]. Qed.
Lemma braces_none {A} (p : Pat A) l : not_brace l -> braces p l = NoMatch.
Proof. destruct l as [|[| | |[]|]]; done. Qed.

(** A rule with a name of another kind is passed over. *)
Lemma three_rules_none {A B} (N : Pat B) (T : B -> VForm -> Pat A) arms l :
  N l = NoMatch ->
  first_match
    ((k ← N; _ ← punct "="; _ ← punct "?"; v ← expr; T k (VDebug v)) ::
     (k ← N; _ ← punct "="; _ ← punct "%"; v ← expr; T k (VDisplay v)) ::
     (k ← N; _ ← punct "="; v ← expr; T k (VValue v)) :: arms) l = first_match arms l.
Proof. intros H. by rewrite three_rules, H. Qed.

Lemma with_value_is n r :
  with_value n r =
  match equals_value r with
  | Matched (v, r') => Matched ((n, v), r') | NoMatch => NoMatch | Fatal => Fatal end.
Proof.
  unfold with_value, equals_value. run_pat. by destruct (punct "=" r) as [[[] r']| |].
Qed.

(** What becomes of a field that a rule has read. *)
Definition next_comma {O} (g : O) (d : Match (O * option (list Tok))) (r : list Tok) :
    Match (O * option (list Tok)) :=
  match r with
  | Punct c :: rest => if String.eqb c "," then Matched (g, Some rest) else d
  | _ => d
  end.

Lemma next_comma_is {O} (g : O) d r :
  match (_ ← punct ","; rest ← tts; mret (g, Some rest)) r with
  | Matched (a, []) => Matched a | Matched _ | NoMatch => d | Fatal => Fatal end = next_comma g d r.
Proof. run_pat. destruct r as [|[]]; try done. cbn. by destruct (String.eqb s ","). Qed.

Lemma commas_matched l : exists r, commas l = Matched (tt, r).
Proof.
  induction l as [|[] l IH]; try (by eexists). unfold commas; fold commas.
  destruct (String.eqb s ","); [done|by eexists].
Qed.

(** All tokens are commas, or the base rule is passed over. *)
Lemma base_rule {O} (out : O) arms l :
  first_match ((_ ← commas; mret (out, @None (list Tok))) :: arms) l =
  if all_commas l then Matched (out, None) else first_match arms l.
Proof.
  rewrite first_match_cons. unfold all_commas. run_pat.
  destruct (commas_matched l) as [[|t r] ->]; done.
Qed.

Lemma skip_rule {A} (p : Pat A) arms l :
  p l = NoMatch -> first_match (p :: arms) l = first_match arms l.
Proof. intros H. by rewrite first_match_cons, H. Qed.

Lemma bind_rule {A B} (N : Pat B) (T : B -> Pat A) arms l :
  first_match ((k ← N; T k) :: arms) l =
  match N l with
  | Matched (k, r) =>
      match T k r with
      | Matched (a, []) => Matched a
      | Matched _ | NoMatch => first_match arms l
      | Fatal => Fatal
      end
  | NoMatch => first_match arms l
  | Fatal => Fatal
  end.
Proof. rewrite first_match_cons. run_pat. by destruct (N l) as [[]| |]. Qed.

(** Goes on with the fields after a comma. *)
Definition go_on {O} (g : O) : Pat (O * option (list Tok)) :=
  _ ← punct ","; rest ← tts; mret (g, Some rest).

Lemma field_ident s l :
  field (Ident s :: l) =
  match path (Ident s :: l) with
  | Matched (k, r) =>
      match r with
      | Punct c :: _ =>
          if String.eqb c "=" then with_value (NPath k) r
          else Matched ((NPath k, VValue (Path k)), r)
      | _ => Matched ((NPath k, VValue (Path k)), r)
      end
  | NoMatch => NoMatch
  | Fatal => Fatal
  end.
Proof.
  cbn [field]. destruct (path _) as [[k [|[] r]]| |]; try done. cbn [punct].
  by destruct (String.eqb s0 "=").
Qed.

(** The shorthand with a sigil, before a comma. *)
Lemma sigil_rule {O} s (g : list string -> O) arms l :
  first_match ((_ ← punct s; k ← path; _ ← punct ","; rest ← tts; mret (g k, Some rest)) :: arms)
    (Punct s :: l) =
  match path l with
  | Matched (k, r) => next_comma (g k) (first_match arms (Punct s :: l)) r
  | NoMatch => first_match arms (Punct s :: l)
  | Fatal => Fatal
  end.
Proof.
  rewrite bind_rule. cbn [punct]. rewrite String.eqb_refl. run_pat.
  destruct (path l) as [[k r]| |]; [|done..]. by rewrite <- next_comma_is.
Qed.

Lemma fieldset_step out l :
  first_match (fieldset_rules out) l =
  if all_commas l then Matched (out, None)
  else match field l with
       | Fatal => Fatal
       | NoMatch => Matched (NMessage :: out, Some [])
       | Matched ((n, _), r) => next_comma (out ++ [n]) (Matched (NMessage :: out, Some [])) r
       end.
Proof.
  unfold fieldset_rules. rewrite base_rule. destruct (all_commas l) eqn:Hc; [done|].
  set (d := Matched (NMessage :: out, Some [])).
  assert (forall l, l <> [] -> first_match [rest ← tts1; mret (NMessage :: out, Some [])] l = d) as Hrest.
  { by intros [|? ?]. }
  pose (names B (F : B -> FName) (k : B) (_ : VForm) := go_on (out ++ [F k])).
  destruct l as [|[s|c|s|dd g|e] l]; [done|..].
  - rewrite (three_rules path (names _ NPath)), !skip_rule, bind_rule, !skip_rule, Hrest, field_ident by done.
    destruct (path (Ident s :: l)) as [[k r]| |]; [|done..].
    unfold names, go_on. rewrite equals_value_cases, !next_comma_is.
    destruct r as [|[|c| | |] r]; rewrite ?next_comma_is; try done.
    destruct (String.eqb_spec c "=") as [->|]; rewrite ?next_comma_is; [|done].
    rewrite with_value_is, equals_value_cases. cbn [String.eqb Ascii.eqb Bool.eqb].
    destruct (value_of r) as [[v r']| |]; rewrite ?next_comma_is; done.
  - rewrite !skip_rule by done. cbn [field].
    destruct (String.eqb_spec c "?") as [->|H1]; [|destruct (String.eqb_spec c "%") as [->|H2]].
    + rewrite sigil_rule, !skip_rule, Hrest by done. unfold sigil_path. run_pat.
      by destruct (path l) as [[k r]| |].
    + rewrite skip_rule, sigil_rule, !skip_rule, Hrest by done. unfold sigil_path. run_pat.
      by destruct (path l) as [[k r]| |].
    + apply String.eqb_neq in H1, H2.
      do 2 rewrite skip_rule by (run_pat; cbn [punct]; by rewrite ?H1, ?H2).
      by rewrite !skip_rule, Hrest by done.
  - rewrite !skip_rule, (three_rules literal (names _ NLit)), !skip_rule, Hrest by done.
    cbn [literal field]. rewrite with_value_is. unfold names, go_on.
    destruct (equals_value l) as [[v r]| |]; [|done..]. by rewrite next_comma_is.
  - rewrite !skip_rule by done. destruct dd; [by rewrite !skip_rule, Hrest by done| |by rewrite !skip_rule, Hrest by done].
    rewrite (three_rules (braces expr) (names _ NConst)), Hrest by done. cbn [field]. run_pat.
    destruct (braces expr _) as [[k r]| |]; [|done..]. rewrite with_value_is. unfold names, go_on.
    destruct (equals_value r) as [[v r']| |]; [|done..]. by rewrite next_comma_is.
  - by rewrite !skip_rule, Hrest by done.
Qed.

(** A field of [valueset_all!] may also end the list. *)
Definition next_or_end {O} (g : O) (d : Match (O * option (list Tok))) (r : list Tok) :
    Match (O * option (list Tok)) :=
  match r with [] => Matched (g, Some []) | _ => next_comma g d r end.

Lemma sigil_end_rule {O} s (g : list string -> O) arms l :
  first_match ((_ ← punct s; k ← path; mret (g k, Some (@nil Tok))) :: arms) (Punct s :: l) =
  match path l with
  | Matched (k, []) => Matched (g k, Some [])
  | Matched _ | NoMatch => first_match arms (Punct s :: l)
  | Fatal => Fatal
  end.
Proof.
  rewrite bind_rule. cbn [punct]. rewrite String.eqb_refl. run_pat.
  by destruct (path l) as [[k []]| |].
Qed.

(** The rules of [valueset_all!] and [valueset!] after the base rule: [G] adds a field. *)
Definition value_rules {O} (G : FName -> VForm -> O) (last : list (Pat (O * option (list Tok)))) :
    list (Pat (O * option (list Tok))) :=
  let more (n : FName) (v : VForm) := go_on (G n v) in
  let ends (n : FName) (v : VForm) := mret (G n v, Some []) : Pat (O * option (list Tok)) in
  let sigil (s : string) (f : Expr -> VForm) (go : FName -> VForm -> Pat (O * option (list Tok))) :=
    _ ← punct s; k ← path; go (NPath k) (f (Path k)) in
  let three {B} (N : Pat B) (F : B -> FName) (go : FName -> VForm -> Pat (O * option (list Tok))) rest :=
    (k ← N; _ ← punct "="; _ ← punct "?"; v ← expr; go (F k) (VDebug v)) ::
    (k ← N; _ ← punct "="; _ ← punct "%"; v ← expr; go (F k) (VDisplay v)) ::
    (k ← N; _ ← punct "="; v ← expr; go (F k) (VValue v)) :: rest in
  three path NPath more
    ((k ← path; more (NPath k) (VValue (Path k))) :: sigil "?" VDebug more :: sigil "%" VDisplay more ::
     three path NPath ends
       ((k ← path; ends (NPath k) (VValue (Path k))) :: sigil "?" VDebug ends :: sigil "%" VDisplay ends ::
        three literal NLit more (three literal NLit ends
          (three (braces expr) NConst more (three (braces expr) NConst ends last))))).

Lemma value_rules_step {O} (G : FName -> VForm -> O) last l :
  all_commas l = false ->
  first_match (value_rules G last) l =
  match field l with
  | Fatal => Fatal
  | NoMatch => first_match last l
  | Matched ((n, v), r) => next_or_end (G n v) (first_match last l) r
  end.
Proof.
  intros Hc. unfold value_rules, go_on. cbv zeta.
  pose (more B (F : B -> FName) (k : B) (v : VForm) := go_on (G (F k) v)).
  pose (ends B (F : B -> FName) (k : B) (v : VForm) :=
    mret (G (F k) v, Some []) : Pat (O * option (list Tok))).
  destruct l as [|[s|c|s|dd g|e] l]; [done|..].
  - rewrite (three_rules path (more _ NPath)), bind_rule, !skip_rule, (three_rules path (ends _ NPath)),
      bind_rule, !skip_rule, field_ident by done.
    destruct (path (Ident s :: l)) as [[k r]| |]; [|done..].
    unfold more, ends, go_on. rewrite equals_value_cases, !next_comma_is.
    destruct r as [|[|c| | |] r]; rewrite ?next_comma_is; try done.
    destruct (String.eqb_spec c "=") as [->|]; rewrite ?next_comma_is; [|by destruct (String.eqb_spec c ",") as [->|]].
    rewrite with_value_is, equals_value_cases. cbn [String.eqb Ascii.eqb Bool.eqb].
    destruct (value_of r) as [[v [|t r']]| |]; rewrite ?next_comma_is; done.
  - rewrite !skip_rule by done. cbn [field].
    destruct (String.eqb_spec c "?") as [->|H1]; [|destruct (String.eqb_spec c "%") as [->|H2]].
    + rewrite (sigil_rule "?" (fun k => G (NPath k) (VDebug (Path k)))), !skip_rule,
        (sigil_end_rule "?" (fun k => G (NPath k) (VDebug (Path k)))), !skip_rule by done.
      unfold sigil_path. run_pat. by destruct (path l) as [[k [|t r]]| |].
    + rewrite skip_rule, (sigil_rule "%" (fun k => G (NPath k) (VDisplay (Path k)))), !skip_rule,
        (sigil_end_rule "%" (fun k => G (NPath k) (VDisplay (Path k)))), !skip_rule by done.
      unfold sigil_path. run_pat. by destruct (path l) as [[k [|t r]]| |].
    + apply String.eqb_neq in H1, H2.
      do 2 rewrite skip_rule by (run_pat; cbn [punct]; by rewrite ?H1, ?H2).
      rewrite !skip_rule by done.
      do 2 rewrite skip_rule by (run_pat; cbn [punct]; by rewrite ?H1, ?H2).
      by rewrite !skip_rule by done.
  - rewrite !skip_rule, (three_rules literal (more _ NLit)), (three_rules literal (ends _ NLit)), !skip_rule by done.
    cbn [literal field]. rewrite with_value_is. unfold more, ends, go_on.
    destruct (equals_value l) as [[v [|t r]]| |]; [by rewrite next_comma_is..|done|done].
  - rewrite !skip_rule by done.
    destruct dd; [by rewrite !skip_rule by done| |by rewrite !skip_rule by done].
    rewrite (three_rules (braces expr) (more _ NConst)), (three_rules (braces expr) (ends _ NConst)) by done.
    cbn [field]. run_pat. destruct (braces expr _) as [[k r]| |]; [|done..]. rewrite with_value_is.
    unfold more, ends, go_on.
    destruct (equals_value r) as [[v [|t r']]| |]; [by rewrite next_comma_is..|done|done].
  - by rewrite !skip_rule by done.
Qed.

Lemma valueset_all_step out l :
  first_match (valueset_all_rules out) l =
  if all_commas l then Matched (out, None)
  else match field l with
       | Fatal => Fatal
       | NoMatch => Matched (VValue (FormatArgs l) :: out, Some [])
       | Matched ((_, v), r) => next_or_end (out ++ [v]) (Matched (VValue (FormatArgs l) :: out, Some [])) r
       end.
Proof.
  unfold valueset_all_rules. rewrite base_rule. destruct (all_commas l) eqn:Hc; [done|].
  etrans; [exact (value_rules_step (fun _ v => out ++ [v])
    [rest ← tts1; mret (VValue (FormatArgs rest) :: out, Some [])] l Hc)|]. by destruct l.
Qed.

Lemma valueset_step out l :
  first_match (valueset_rules out) l =
  if all_commas l then Matched (out, None)
  else match field l with
       | Fatal => Fatal
       | NoMatch => NoMatch
       | Matched (f, r) => next_or_end (out ++ [f]) NoMatch r
       end.
Proof.
  unfold valueset_rules. rewrite base_rule. destruct (all_commas l) eqn:Hc; [done|].
  etrans; [exact (value_rules_step (fun n v => out ++ [(n, v)]) [] l Hc)|].
  by destruct (field l) as [[[n v] r]| |].
Qed.

(** *** A comma at the end *)

(** What a pattern does with a comma after the tokens. *)
Definition then_comma {A} (m : Match (A * list Tok)) : Match (A * list Tok) :=
  match m with Matched (a, r) => Matched (a, r ++ [comma]) | NoMatch => NoMatch | Fatal => Fatal end.
Definition stable {A} (p : Pat A) : Prop := forall l, p (l ++ [comma]) = then_comma (p l).

Lemma stable_bind {A B} (p : Pat A) (f : A -> Pat B) :
  stable p -> (forall a, stable (f a)) -> stable (p ≫= f).
Proof. intros Hp Hf l. run_pat. rewrite Hp. destruct (p l) as [[a r]| |]; [apply Hf|done..]. Qed.

Lemma stable_punct c : c <> "," -> stable (punct c).
Proof.
  intros Hc [|[s|s|s|d g|e] l]; try done; cbn [app punct then_comma].
  - destruct (String.eqb_spec "," c); [congruence|done].
  - by destruct (String.eqb s c).
Qed.

Lemma stable_path : stable path.
Proof.
  intros l0. remember (length l0) as n eqn:Hn. revert l0 Hn. induction (lt_wf n) as [n _ IH].
  intros l0 ->. destruct l0 as [|[s| | | |] [|[|c| | |] l]]; try done.
  unfold path; cbn [app]; fold path. destruct (String.eqb c "."); [|done].
  rewrite (IH (length l)) by (cbn; lia || done). by destruct (path l) as [[k r]| |].
Qed.

Lemma stable_expr : stable expr.
Proof.
  intros l. unfold expr. destruct l as [|t l].
  - cbn. by rewrite begin_punct by tauto.
  - cbn [app]. destruct (can_begin_expr t); [|done]. rewrite app_comm_cons, parse_comma.
    by destruct (parse_expr (t :: l)) as [[e r]|].
Qed.

Lemma stable_ret {A} (a : A) : stable (mret a).
Proof. done. Qed.

Lemma stable_value_of : stable value_of.
Proof.
  assert (forall f : Expr -> VForm, stable (e ← expr; mret (f e))) as H.
  { intros f. apply stable_bind; [apply stable_expr|intros; apply stable_ret]. }
  intros [|[s|c|s|d g|e] l]; cbn [app value_of]; try apply (H VValue (_ :: l)).
  - run_pat. by rewrite (expr_punct ",") by tauto.
  - destruct (String.eqb c "?"); [apply H|]. destruct (String.eqb c "%"); [apply H|].
    apply (H VValue (_ :: l)).
Qed.

Lemma stable_with_value n : stable (with_value n).
Proof.
  apply stable_bind; [by apply stable_punct|]. intros _. apply stable_bind; [apply stable_value_of|].
  intros v. apply stable_ret.
Qed.

Lemma stable_field : stable field.
Proof.
  intros [|[s|c|s|[] g|e] l]; try done.
  - cbn [app]. rewrite !field_ident, app_comm_cons, stable_path.
    destruct (path (Ident s :: l)) as [[k r]| |]; [|done..]. cbn [then_comma].
    destruct r as [|[|c| | |] r]; try done. cbn [app]. destruct (String.eqb c "="); [|done].
    rewrite app_comm_cons. apply stable_with_value.
  - cbn [app field]. destruct (String.eqb c "?"); [|destruct (String.eqb c "%"); [|done]];
      (apply stable_bind; [apply stable_path|intros; apply stable_ret]).
  - apply stable_with_value.
  - cbn [app field]. run_pat. cbn [braces]. destruct (expr g) as [[e [|]]| |]; try done.
    apply stable_with_value.
Qed.

(** *** The macros follow the grammar *)

Lemma path_shorter l k r : path l = Matched (k, r) -> (length r < length l)%nat.
Proof.
  remember (length l) as n eqn:Hn. revert l k Hn. induction (lt_wf n) as [n _ IH]. intros l k ->.
  destruct l as [|[s| | | |] [|[|c| | |] l]]; try done; unfold path; fold path;
    try (intros [= _ <-]; cbn; lia).
  destruct (String.eqb c "."); [|intros [= _ <-]; cbn; lia].
  destruct (path l) as [[k' r']| |] eqn:Hp; [|done..]. intros [= _ <-].
  specialize (IH (length l) ltac:(cbn; lia) l k' eq_refl Hp). cbn. lia.
Qed.

Lemma expr_shorter l e r : expr l = Matched (e, r) -> (length r < length l)%nat.
Proof.
  unfold expr. destruct l as [|t l]; [done|]. destruct (can_begin_expr t); [|done].
  destruct (parse_expr (t :: l)) as [[]|] eqn:Hp; [|done]. intros [= <- <-]. by eapply parse_shorter.
Qed.

Lemma value_of_shorter l v r : value_of l = Matched (v, r) -> (length r < length l)%nat.
Proof.
  assert (forall (f : Expr -> VForm) l, (e ← expr; mret (f e)) l = Matched (v, r) -> (length r < length l)%nat) as H.
  { intros f l'. run_pat. destruct (expr l') as [[e r']| |] eqn:He; [|done..]. intros [= _ <-].
    by eapply expr_shorter. }
  destruct l as [|[s|c|s|d g|e] l]; cbn [value_of]; try apply (H VValue).
  destruct (String.eqb c "?"); [|destruct (String.eqb c "%")]; try apply (H VValue);
    intros Hv%H; cbn; lia.
Qed.

Lemma with_value_shorter n l f r : with_value n l = Matched (f, r) -> (length r < length l)%nat.
Proof.
  rewrite with_value_is, equals_value_cases.
  destruct l as [|[|c| | |] l]; try done. destruct (String.eqb c "="); [|done].
  destruct (value_of l) as [[v r']| |] eqn:Hv; [|done..]. intros [= _ <-].
  apply value_of_shorter in Hv. cbn. lia.
Qed.

Lemma field_shorter l f r : field l = Matched (f, r) -> (length r < length l)%nat.
Proof.
  assert (forall (h : Expr -> VForm) l, sigil_path h l = Matched (f, r) -> (length r < length l)%nat) as Hs.
  { intros h l'. unfold sigil_path. run_pat. destruct (path l') as [[k r']| |] eqn:Hp; [|done..].
    intros [= _ <-]. by eapply path_shorter. }
  destruct l as [|[s|c|s|[] g|e] l]; try done.
  - rewrite field_ident. destruct (path (Ident s :: l)) as [[k r']| |] eqn:Hp; [|done..].
    apply path_shorter in Hp.
    destruct r' as [|[|c| | |] r']; try (intros [= _ <-]; done).
    destruct (String.eqb c "="); [|intros [= _ <-]; done]. intros Hv%with_value_shorter. cbn in *. lia.
  - cbn [field]. destruct (String.eqb c "?"); [|destruct (String.eqb c "%"); [|done]];
      intros H%Hs; cbn; lia.
  - cbn [field]. intros H%with_value_shorter. cbn. lia.
  - cbn [field]. run_pat. cbn [braces]. destruct (expr g) as [[e [|]]| |]; try done.
    intros H%with_value_shorter. cbn. lia.
Qed.

(** What a macro does whose steps follow the grammar: [emb] is how the tokens that are left
    are passed, [g] what becomes of a field and [msg] of the message. *)
Section follows.
Context {O : Type} (rules : list O -> list (Pat (list O * option (list Tok))))
  (emb : list Tok -> list Tok) (g : FName * VForm -> O) (msg : option (list Tok -> O)).
Definition at_message (l : list Tok) (out : list O) : Match (list O * option (list Tok)) :=
  match msg with Some f => Matched (f l :: out, Some []) | None => NoMatch end.
Hypothesis rules_step : forall out l,
  first_match (rules out) (emb l) =
  if all_commas l then Matched (out, None)
  else match field l with
       | Fatal => Fatal
       | NoMatch => at_message l out
       | Matched (f, []) => Matched (out ++ [g f], Some [])
       | Matched (f, Punct c :: r) =>
           if String.eqb c "," then Matched (out ++ [g f], Some (emb r)) else at_message l out
       | Matched _ => at_message l out
       end.
Hypothesis rules_end : forall out, first_match (rules out) [] = Matched (out, None).

Lemma expand_end fuel out : expand_rules rules (S fuel) out [] = Matched out.
Proof. cbn [expand_rules]. by rewrite rules_end. Qed.

Lemma expand_follows fuel out l :
  (length l < fuel)%nat ->
  expand_rules rules (S fuel) out (emb l) =
  match field_list fuel l with
  | Matched (None, fs) => Matched (out ++ (g <$> fs))
  | Matched (Some a, fs) =>
      match msg with Some f => Matched (f a :: out ++ (g <$> fs)) | None => NoMatch end
  | NoMatch => NoMatch
  | Fatal => Fatal
  end.
Proof.
  revert out l. induction fuel as [|fuel IH]; intros out l Hl; [lia|].
  assert (forall l', match at_message l' out with
    | Matched (out, None) => Matched out
    | Matched (out, Some rest) => expand_rules rules (S fuel) out rest
    | NoMatch => NoMatch
    | Fatal => Fatal end = match msg with Some f => Matched (f l' :: out ++ (g <$> [])) | None => NoMatch end) as Hm.
  { intros l'. unfold at_message. destruct msg; [|done]. by rewrite expand_end, app_nil_r. }
  rewrite (eq_refl : expand_rules rules (S (S fuel)) out (emb l) =
    match first_match (rules out) (emb l) with
    | Matched (out, None) => Matched out
    | Matched (out, Some rest) => expand_rules rules (S fuel) out rest
    | NoMatch => NoMatch
    | Fatal => Fatal end).
  rewrite rules_step. cbn [field_list]. destruct (all_commas l); [by rewrite app_nil_r|].
  destruct (field l) as [[f r]| |] eqn:Hf; [|apply Hm|done].
  apply field_shorter in Hf. destruct r as [|[s|c|s|d gr|e] r]; try apply Hm.
  - by rewrite expand_end.
  - destruct (String.eqb c ","); [|apply Hm]. rewrite IH by (cbn in *; lia).
    destruct (field_list fuel r) as [[[a|] fs]| |]; [destruct msg|..]; try done;
      by rewrite fmap_cons, <- (assoc_L (++)).
Qed.

Lemma ends_end n out : ends_rules rules (S n) out [].
Proof. cbn [ends_rules]. by rewrite rules_end. Qed.

Lemma ends_follow n out l : (length l < n)%nat -> ends_rules rules (S n) out (emb l).
Proof.
  revert out l. induction n as [|n IH]; intros out l Hl; [lia|].
  assert (forall l', match at_message l' out with
    | Matched (out, Some rest) => ends_rules rules (S n) out rest | _ => True end) as Hm.
  { intros l'. unfold at_message. destruct msg; [apply ends_end|done]. }
  rewrite (eq_refl : ends_rules rules (S (S n)) out (emb l) =
    match first_match (rules out) (emb l) with
    | Matched (out, Some rest) => ends_rules rules (S n) out rest | _ => True end).
  rewrite rules_step. destruct (all_commas l); [done|].
  destruct (field l) as [[f r]| |] eqn:Hf; [|apply Hm|done].
  apply field_shorter in Hf. destruct r as [|[s|c|s|d gr|e] r]; try apply Hm; [apply ends_end|].
  destruct (String.eqb c ","); [|apply Hm]. apply IH. cbn in Hf. lia.
Qed.

End follows.

Lemma all_commas_app l : all_commas (l ++ [comma]) = all_commas l.
Proof.
  unfold all_commas. induction l as [|[s|c|s|d g|e] l IH]; try done.
  cbn [app]. unfold commas; fold commas. by destruct (String.eqb c ",").
Qed.

(** The three macros follow the grammar. *)
Lemma fieldset_grammar out l :
  first_match (fieldset_rules out) (l ++ [comma]) =
  if all_commas l then Matched (out, None)
  else match field l with
       | Fatal => Fatal
       | NoMatch => at_message (Some (fun _ => NMessage)) l out
       | Matched (f, []) => Matched (out ++ [f.1], Some [])
       | Matched (f, Punct c :: r) =>
           if String.eqb c "," then Matched (out ++ [f.1], Some (r ++ [comma]))
           else at_message (Some (fun _ => NMessage)) l out
       | Matched _ => at_message (Some (fun _ => NMessage)) l out
       end.
Proof.
  rewrite fieldset_step, all_commas_app, stable_field. destruct (all_commas l); [done|].
  unfold at_message. destruct (field l) as [[[k v] [|[] r]]| |]; done.
Qed.
Lemma valueset_all_grammar out l :
  first_match (valueset_all_rules out) l =
  if all_commas l then Matched (out, None)
  else match field l with
       | Fatal => Fatal
       | NoMatch => at_message (Some (fun l => VValue (FormatArgs l))) l out
       | Matched (f, []) => Matched (out ++ [f.2], Some [])
       | Matched (f, Punct c :: r) =>
           if String.eqb c "," then Matched (out ++ [f.2], Some r)
           else at_message (Some (fun l => VValue (FormatArgs l))) l out
       | Matched _ => at_message (Some (fun l => VValue (FormatArgs l))) l out
       end.
Proof.
  rewrite valueset_all_step. destruct (all_commas l); [done|].
  unfold at_message. destruct (field l) as [[[k v] [|[] r]]| |]; done.
Qed.
Lemma valueset_grammar out l :
  first_match (valueset_rules out) l =
  if all_commas l then Matched (out, None)
  else match field l with
       | Fatal => Fatal
       | NoMatch => at_message None l out
       | Matched (f, []) => Matched (out ++ [f], Some [])
       | Matched (f, Punct c :: r) =>
           if String.eqb c "," then Matched (out ++ [f], Some r) else at_message None l out
       | Matched _ => at_message None l out
       end.
Proof.
  rewrite valueset_step. destruct (all_commas l); [done|].
  unfold at_message. destruct (field l) as [[[k v] [|[] r]]| |]; done.
Qed.

(** Any fuel that exceeds the number of tokens is enough, and so many calls are made at
    most. *)
Lemma fieldset_expands n args :
  (length args < n)%nat ->
  expand_rules fieldset_rules (S n) [] (args ++ [comma]) =
  match field_list n args with
  | Matched (m, fs) => Matched ((fst <$> message_field m) ++ (fst <$> fs))
  | NoMatch => NoMatch
  | Fatal => Fatal
  end.
Proof.
  intros Hn. rewrite (expand_follows _ (fun l => l ++ [comma]) fst _ fieldset_grammar) by
    (done || intros out; by rewrite fieldset_step).
  destruct (field_list _ args) as [[[a|] fs]| |]; done.
Qed.
Lemma fieldset_ends n args :
  (length args < n)%nat -> ends_rules fieldset_rules (S n) [] (args ++ [comma]).
Proof.
  apply (ends_follow _ (fun l => l ++ [comma]) fst _ fieldset_grammar). intros out. by rewrite fieldset_step.
Qed.

Lemma valueset_all_expands n args :
  (length args < n)%nat ->
  expand_rules valueset_all_rules (S n) [] args =
  match field_list n args with
  | Matched (m, fs) => Matched ((snd <$> message_field m) ++ (snd <$> fs))
  | NoMatch => NoMatch
  | Fatal => Fatal
  end.
Proof.
  intros Hn. rewrite (expand_follows _ (fun l => l) snd _ valueset_all_grammar) by
    (done || intros out; by rewrite valueset_all_step).
  destruct (field_list _ args) as [[[a|] fs]| |]; done.
Qed.
Lemma valueset_all_ends n args : (length args < n)%nat -> ends_rules valueset_all_rules (S n) [] args.
Proof.
  apply (ends_follow _ (fun l => l) snd _ valueset_all_grammar). intros out. by rewrite valueset_all_step.
Qed.

Lemma valueset_expands n args :
  (length args < n)%nat ->
  expand_rules valueset_rules (S n) [] args =
  match field_list n args with
  | Matched (None, fs) => Matched fs
  | Matched (Some _, _) | NoMatch => NoMatch
  | Fatal => Fatal
  end.
Proof.
  intros Hn. rewrite (expand_follows _ (fun l => l) (fun f => f) _ valueset_grammar) by
    (done || intros out; by rewrite valueset_step).
  destruct (field_list _ args) as [[[a|] fs]| |]; try done. by rewrite list_fmap_id.
Qed.
Lemma valueset_ends n args : (length args < n)%nat -> ends_rules valueset_rules (S n) [] args.
Proof.
  apply (ends_follow _ (fun l => l) (fun f => f) _ valueset_grammar). intros out. by rewrite valueset_step.
Qed.

Lemma fieldset_follows args :
  fieldset args =
  match fields_of args with
  | Matched fs => Matched (fst <$> fs)
  | NoMatch => NoMatch
  | Fatal => Fatal
  end.
Proof.
  unfold fieldset, fields_of. rewrite (fieldset_expands (1 + length args)) by lia.
  destruct (field_list _ args) as [[m fs]| |]; [|done..]. by rewrite fmap_app.
Qed.

Lemma valueset_all_follows args :
  valueset_all args =
  match fields_of args with
  | Matched fs => Matched (snd <$> fs)
  | NoMatch => NoMatch
  | Fatal => Fatal
  end.
Proof.
  unfold valueset_all, fields_of. destruct args as [|t args]; [done|].
  rewrite (valueset_all_expands (1 + length (t :: args))) by lia.
  destruct (field_list _ _) as [[m fs]| |]; [|done..]. by rewrite fmap_app.
Qed.

(** [valueset!] reads the same fields, each with its name, but no message. *)
Lemma valueset_follows args :
  valueset args =
  match field_list (1 + length args) args with
  | Matched (None, fs) => Matched fs
  | Matched (Some _, _) | NoMatch => NoMatch
  | Fatal => Fatal
  end.
Proof.
  unfold valueset. destruct args as [|t args]; [done|].
  apply (valueset_expands (1 + length (t :: args))). lia.
Qed.

(** Nothing is refused: what is no field is the message. *)
Lemma fields_of_matches args : fields_of args <> NoMatch.
Proof.
  unfold fields_of. enough (forall fuel l, field_list fuel l <> NoMatch) as H.
  { specialize (H (1 + length args)%nat args). by destruct (field_list _ args) as [[]| |]. }
  induction fuel as [|fuel IH]; intros l; [done|]. cbn [field_list].
  destruct (all_commas l); [done|]. destruct (field l) as [[f [|[] r]]| |]; try done.
  destruct (String.eqb s ","); [|done]. specialize (IH r). by destruct (field_list fuel r) as [[]| |].
Qed.

(** The fuel only has to exceed the number of tokens. *)
Lemma field_list_fuel n m l :
  (length l < n)%nat -> (length l < m)%nat -> field_list n l = field_list m l.
Proof.
  revert m l. induction n as [|n IH]; intros m l Hn Hm; [lia|]. destruct m as [|m]; [lia|].
  cbn [field_list]. destruct (all_commas l); [done|].
  destruct (field l) as [[f r]| |] eqn:Hf; [|done..]. apply field_shorter in Hf.
  destruct r as [|[s|c|s|d g|e] r]; try done. destruct (String.eqb c ","); [|done].
  cbn in Hf. by rewrite (IH m r) by lia.
Qed.

(** C10: the macros that make the names of a callsite and the values of its events or spans
    agree, whatever the tokens: both read the same list of fields, with the message first,
    so that the array of values has as many elements as the field set has names, in the
    same order, which is what [FieldSet::value_set_all] asks of its caller; both fail to
    compile together; and [valueset!] pairs the same values with the same names. *)
Theorem fields_and_values_agree (args : list Tok) :
  (fieldset args = Fatal /\ valueset_all args = Fatal) \/
  exists m fs,
    field_list (1 + length args) args = Matched (m, fs) /\
    fieldset args = Matched ((fst <$> message_field m) ++ (fst <$> fs)) /\
    valueset_all args = Matched ((snd <$> message_field m) ++ (snd <$> fs)) /\
    valueset args = match m with None => Matched fs | Some _ => NoMatch end /\
    (forall debug_assertions (set : FieldSet) (vals : list (option Value)) names forms,
       fieldset args = Matched names -> length (fs_names set) = length names ->
       valueset_all args = Matched forms -> length vals = length forms ->
       ValueSet.value_set_all debug_assertions set vals =
         Done {| values := All vals; vs_fields := set |}).
Proof.
  rewrite fieldset_follows, valueset_all_follows, valueset_follows.
  pose proof (fields_of_matches args) as Hm. unfold fields_of in *.
  destruct (field_list _ args) as [[m fs]| |] eqn:Hf; [right|done|by left].
  exists m, fs. rewrite !fmap_app. split_and!; [done..|by destruct m|].
  intros db set vals names forms [= <-] Hn [= <-] Hv. unfold ValueSet.value_set_all, FieldSet.len.
  rewrite length_app, !length_fmap in Hn. rewrite length_app, !length_fmap in Hv.
  assert (Z.of_nat (length vals) = Z.of_nat (length (fs_names set))) as -> by congruence.
  by rewrite Z.eqb_refl, andb_false_r.
Qed.
End grammar.

(** ** A concrete parser

    An expression extends to the next comma. *)
Fixpoint until_comma (l : list Tok) : list Tok * list Tok :=
  match l with
  | Punct c :: r => if String.eqb c "," then ([], l) else (Punct c :: (until_comma r).1, (until_comma r).2)
  | t :: r => (t :: (until_comma r).1, (until_comma r).2)
  | [] => ([], [])
  end.
#[export] Instance example_parser : ExprParser := {
  can_begin_expr t :=
    match t with
    | Punct c => negb (existsb (String.eqb c) ["?"; "%"; ","; "="; ":"; "."])
    | _ => true
    end;
  parse_expr l :=
    match until_comma l with
    | ([], _) => None
    | ([Frag e], r) => Some (e, r)
    | (u, r) => Some (Source u, r)
    end;
}.

Lemma until_comma_length l : (length (until_comma l).1 + length (until_comma l).2 = length l)%nat.
Proof.
  induction l as [|[s|c|s|d g|e] l IH]; cbn; try lia. destruct (String.eqb c ","); cbn; lia.
Qed.
Lemma until_comma_app l :
  until_comma (l ++ [comma]) = ((until_comma l).1, (until_comma l).2 ++ [comma]).
Proof.
  induction l as [|[s|c|s|d g|e] l IH]; cbn [app until_comma]; try (by rewrite IH); [done|].
  destruct (String.eqb c ","); [done|]. by rewrite IH.
Qed.

#[export] Instance example_laws : ExprLaws.
Proof.
  split; cbn [can_begin_expr parse_expr example_parser].
  - done.
  - intros c. by intuition subst.
  - intros e r [->|Hr]; [done|]. destruct r as [|t r]; [done|]. injection Hr as ->. done.
  - intros l e r. pose proof (until_comma_length l) as Hl. destruct (until_comma l) as [[|t u] r'].
    { done. }
    cbn in Hl. destruct t, u; intros [= _ <-]; cbn in *; lia.
  - intros l. rewrite until_comma_app. destruct (until_comma l) as [[|[s|c|s|d g|e] [|t u]] r]; done.
Qed.

(** The fields [a.b = ?1, c, %d], with a message, and without. *)
Definition example_fields : list Tok :=
  [Ident "a"; Punct "."; Ident "b"; Punct "="; Punct "?"; Lit "1"; comma; Ident "c"; comma;
   Punct "%"; Ident "d"].
Definition example_message : list Tok := example_fields ++ [comma; Lit "took {}"; comma; Ident "t"].

Example example_fieldset :
  fieldset example_message = Matched [NMessage; NPath ["a"; "b"]; NPath ["c"]; NPath ["d"]].
Proof. vm_compute. reflexivity. Qed.
Example example_valueset_all :
  valueset_all example_message =
  Matched [VValue (FormatArgs [Lit "took {}"; comma; Ident "t"]); VDebug (Source [Lit "1"]);
           VValue (Path ["c"]); VDisplay (Path ["d"])].
Proof. vm_compute. reflexivity. Qed.
Example example_valueset :
  valueset example_fields =
  Matched [(NPath ["a"; "b"], VDebug (Source [Lit "1"])); (NPath ["c"], VValue (Path ["c"]));
           (NPath ["d"], VDisplay (Path ["d"]))].
Proof. vm_compute. reflexivity. Qed.

Lemma fields_and_values_agree_witness :
  fieldset example_message <> Fatal /\
  exists m fs, field_list (1 + length example_message) example_message = Matched (m, fs) /\
    fieldset example_message = Matched ((fst <$> message_field m) ++ (fst <$> fs)) /\
    valueset_all example_message = Matched ((snd <$> message_field m) ++ (snd <$> fs)).
Proof.
  assert (fieldset example_message <> Fatal) as Hf by (rewrite example_fieldset; discriminate).
  split; [exact Hf|].
  destruct (fields_and_values_agree example_message) as [[H _]|(m & fs & Hl & Hn & Hv & _)].
  { exfalso. exact (Hf H). }
  exists m, fs. exact (conj Hl (conj Hn Hv)).
Defined.
