(* ===== verification/Macros.v ===== *)
(** * Macros: the macros for spans and events, [tracing/src/macros.rs]

    [event!], [span!], [enabled!], their variants for each level and [callsite2!]: which
    name, target, parent, level and fields a call gets.  A rule passes what it has captured
    on to the next macro, until a rule with a body is reached. *)

From S2P Require Import Prelude.
From S2P Require Import Str.
From S2P Require Import Levels.
From S2P Require Import Fields.
From S2P Require Import Meta.
From S2P Require Import MacroFields.

Local Open Scope string_scope.
Local Open Scope list_scope.

(** What a call is given before its fields. *)
Record Prefix := { p_name : option Expr; p_target : option Expr; p_parent : option Expr }.

(** [name: $name,] and the like, in a call that a rule makes *)
Definition key_toks (w : string) (e : option Expr) : list Tok :=
  match e with Some e => [Ident w; Punct ":"; Frag e; comma] | None => [] end.
Definition prefix_toks (q : Prefix) : list Tok :=
  key_toks "name" (p_name q) ++ key_toks "target" (p_target q) ++ key_toks "parent" (p_parent q).

(** The next call, or the captures of a rule with a body. *)
Inductive Next (B : Type) := Base (b : B) | Again (l : list Tok).
Arguments Base {B}. Arguments Again {B}.

(** [message = format_args!($($arg)+), $($fields)*] *)
Definition message_toks (args fields : list Tok) : list Tok :=
  Ident "message" :: Punct "=" :: Frag (FormatArgs args) :: comma :: fields.

(** [$($k:ident).+ $($field:tt)*]: after the first identifier a dot could go on with the
    path or begin the fields, which the compiler refuses. *)
Definition path_tts : Pat unit := fun l =>
  match l with
  | Ident _ :: Punct d :: _ => if String.eqb d "." then Fatal else Matched (tt, [])
  | Ident _ :: _ => Matched (tt, [])
  | _ => NoMatch
  end.

Section macros.
Context `{X : ExprParser}.

(** [name: $name:expr,] and the like, in a pattern *)
Definition key (w : string) : Pat Expr :=
  _ ← word w; _ ← punct ":"; e ← expr; _ ← punct ","; mret e.
Definition opt_key (b : bool) (w : string) : Pat (option Expr) :=
  if b then e ← key w; mret (Some e) else mret None.
Definition prefix (name target parent : bool) : Pat Prefix :=
  n ← opt_key name "name"; t ← opt_key target "target"; p ← opt_key parent "parent";
  mret {| p_name := n; p_target := t; p_parent := p |}.
(** [$lvl:expr,] *)
Definition level : Pat Expr := lvl ← expr; _ ← punct ","; mret lvl.

(** ** [callsite2!] *)

Record CallsiteParts := {
  cs_name : Expr; cs_kind : Expr; cs_target : Expr; cs_level : Expr; cs_fields : list Tok;
}.
Definition fields_toks (fields : list Tok) : list Tok := Ident "fields" :: Punct ":" :: fields.
Definition fields_key : Pat (list Tok) := _ ← word "fields"; _ ← punct ":"; tts.
Definition callsite2_rules : list (Pat (Next CallsiteParts)) :=
  [ n ← key "name"; k ← key "kind"; f ← fields_key;
      mret (Again (key_toks "name" (Some n) ++ key_toks "kind" (Some k) ++
        key_toks "target" (Some ModulePath) ++ key_toks "level" (Some (LevelOf Level.TRACE)) ++ fields_toks f));
    n ← key "name"; k ← key "kind"; lvl ← key "level"; f ← fields_key;
      mret (Again (key_toks "name" (Some n) ++ key_toks "kind" (Some k) ++
        key_toks "target" (Some ModulePath) ++ key_toks "level" (Some lvl) ++ fields_toks f));
    n ← key "name"; k ← key "kind"; t ← key "target"; lvl ← key "level"; f ← fields_key;
      mret (Base {| cs_name := n; cs_kind := k; cs_target := t; cs_level := lvl; cs_fields := f |}) ].

(** The recursion of a macro; [fuel] bounds the number of calls. *)
Fixpoint expand {B} (rules : list (Pat (Next B))) (fuel : nat) (l : list Tok) : Match B :=
  match fuel with
  | O => Fatal
  | S fuel =>
      match first_match rules l with
      | Matched (Base b) => Matched b
      | Matched (Again l) => expand rules fuel l
      | NoMatch => NoMatch
      | Fatal => Fatal
      end
  end.
Definition callsite2 : list Tok -> Match CallsiteParts := expand callsite2_rules 2.

(** ** [event!] *)

(** The captures of a rule with a body: the static of the callsite, with its field set and
    the values, and the parent of [Event::child_of], or none for [Event::dispatch]. *)
Record EventBody := {
  ev_name : Expr; ev_target : Expr; ev_parent : option Expr; ev_level : Expr; ev_fields : list Tok;
}.
Definition event_body (q : Prefix) (lvl : Expr) (fields : list Tok) : EventBody := {|
  ev_name := default (Located "event ") (p_name q);
  ev_target := default ModulePath (p_target q);
  ev_parent := p_parent q; ev_level := lvl; ev_fields := fields;
|}.

(** The call [event!(.., $lvl, { .. })]. *)
Definition event_call (q : Prefix) (lvl : Expr) (fields : list Tok) : list Tok :=
  prefix_toks q ++ [Frag lvl; comma; Group Brace fields].

(** [$($k:ident).+ = $($fields:tt)*], and the forms with other ends; the tokens are passed on
    as they are. *)
Definition path_equals : Pat (list Tok) := whole (_ ← path; _ ← punct "="; tts).
Definition path_comma : Pat (list Tok) := whole (_ ← path; _ ← punct ","; tts).
Definition path_only : Pat (list Tok) := whole path.
Definition sigil {A} (s : string) (p : Pat A) : Pat (list Tok) := whole (_ ← punct s; p).

(** The four rules of each combination of name, target and parent. *)
Definition event_group (name target parent : bool) : list (Pat (Next EventBody)) :=
  [ q ← prefix name target parent; lvl ← level; f ← braces tts; mret (Base (event_body q lvl f));
    q ← prefix name target parent; lvl ← level; f ← braces tts; _ ← punct ","; args ← tts1;
      mret (Again (event_call q lvl (message_toks args f)));
    q ← prefix name target parent; lvl ← level; f ← path_equals; mret (Again (event_call q lvl f));
    q ← prefix name target parent; lvl ← level; args ← tts1; mret (Again (event_call q lvl args)) ].
Definition event_name_target_parent := event_group true true true.
Definition event_name_target := event_group true true false.
Definition event_target_parent := event_group false true true.
Definition event_name_parent := event_group true false true.
Definition event_name := event_group true false false.
Definition event_target := event_group false true false.

Definition in_module (parent : option Expr) : Prefix :=
  {| p_name := None; p_target := Some ModulePath; p_parent := parent |}.

Definition event_parent : list (Pat (Next EventBody)) :=
  [ p ← key "parent"; lvl ← level; f ← braces tts; _ ← punct ","; args ← tts1;
      mret (Again (event_call (in_module (Some p)) lvl (message_toks args f)));
    p ← key "parent"; lvl ← level; f ← path_equals; mret (Again (event_call (in_module (Some p)) lvl f));
    p ← key "parent"; lvl ← level; f ← sigil "?" path_equals; mret (Again (event_call (in_module (Some p)) lvl f));
    p ← key "parent"; lvl ← level; f ← sigil "%" path_equals; mret (Again (event_call (in_module (Some p)) lvl f));
    p ← key "parent"; lvl ← level; f ← path_comma; mret (Again (event_call (in_module (Some p)) lvl f));
    p ← key "parent"; lvl ← level; f ← sigil "%" path_comma; mret (Again (event_call (in_module (Some p)) lvl f));
    p ← key "parent"; lvl ← level; f ← sigil "?" path_comma; mret (Again (event_call (in_module (Some p)) lvl f));
    p ← key "parent"; lvl ← level; args ← tts1; mret (Again (event_call (in_module (Some p)) lvl args)) ].

Definition event_plain : list (Pat (Next EventBody)) :=
  [ lvl ← level; f ← braces tts; _ ← punct ","; args ← tts1;
      mret (Again (event_call (in_module None) lvl (message_toks args f)));
    lvl ← level; f ← braces tts; _ ← punct ","; args ← tts1;
      mret (Again (event_call (in_module None) lvl (message_toks args f)));
    lvl ← level; f ← path_equals; mret (Again (event_call (in_module None) lvl f));
    lvl ← level; f ← path_comma; mret (Again (event_call (in_module None) lvl f));
    lvl ← level; f ← sigil "?" path_comma; mret (Again (event_call (in_module None) lvl f));
    lvl ← level; f ← sigil "%" path_comma; mret (Again (event_call (in_module None) lvl f));
    lvl ← level; f ← sigil "?" path_only; mret (Again (Frag lvl :: comma :: f ++ [comma]));
    lvl ← level; f ← sigil "%" path_only; mret (Again (Frag lvl :: comma :: f ++ [comma]));
    lvl ← level; f ← path_only; mret (Again (Frag lvl :: comma :: f ++ [comma]));
    lvl ← level; args ← tts1; mret (Again (event_call (in_module None) lvl args)) ].

Definition event_rules : list (Pat (Next EventBody)) :=
  event_name_target_parent ++ event_name_target ++ event_target_parent ++ event_name_parent ++
  event_name ++ event_target ++ event_parent ++ event_plain.
Definition event : list Tok -> Match EventBody := expand event_rules 4.

(** The static callsite of a body, and the names and values of its fields. *)
Definition event_callsite (b : EventBody) : Match CallsiteParts :=
  callsite2 (key_toks "name" (Some (ev_name b)) ++ key_toks "kind" (Some (KindOf Kind.EVENT)) ++
    key_toks "target" (Some (ev_target b)) ++ key_toks "level" (Some (ev_level b)) ++
    fields_toks (ev_fields b)).

(** ** [trace!], [debug!], [info!], [warn!] and [error!] *)
Section level_macro.
Variable lvl : Level.t.

Definition event_with (q : Prefix) (rest : list Tok) : list Tok :=
  prefix_toks q ++ Frag (LevelOf lvl) :: comma :: rest.

Definition level_group (name target parent : bool) : list (Pat (list Tok)) :=
  [ q ← prefix name target parent; f ← braces tts; _ ← punct ","; args ← tts;
      mret (event_with q (Group Brace f :: comma :: args));
    q ← prefix name target parent; f ← whole path_tts; mret (event_with q [Group Brace f]);
    q ← prefix name target parent; f ← sigil "?" path_tts; mret (event_with q [Group Brace f]);
    q ← prefix name target parent; f ← sigil "%" path_tts; mret (event_with q [Group Brace f]);
    q ← prefix name target parent; args ← tts1; mret (event_with q (Group Brace [] :: comma :: args)) ].

(** [{ $($field:tt)+ }, $($arg:tt)+] *)
Definition braced_message : Pat (list Tok * list Tok) :=
  f ← braces tts1; _ ← punct ","; args ← tts1; mret (f, args).

Definition level_parent : list (Pat (list Tok)) :=
  [ p ← key "parent"; fa ← braced_message; mret (event_with (in_module (Some p)) (Group Brace fa.1 :: comma :: fa.2));
    p ← key "parent"; f ← path_equals; mret (event_with (in_module (Some p)) [Group Brace f]);
    p ← key "parent"; f ← sigil "?" path_equals; mret (event_with (in_module (Some p)) [Group Brace f]);
    p ← key "parent"; f ← sigil "%" path_equals; mret (event_with (in_module (Some p)) [Group Brace f]);
    p ← key "parent"; f ← path_comma; mret (event_with (in_module (Some p)) [Group Brace f]);
    p ← key "parent"; f ← sigil "?" path_comma; mret (event_with (in_module (Some p)) [Group Brace f]);
    p ← key "parent"; f ← sigil "%" path_comma; mret (event_with (in_module (Some p)) [Group Brace f]);
    p ← key "parent"; args ← tts1; mret (event_with (in_module (Some p)) (Group Brace [] :: comma :: args)) ].

Definition level_plain : list (Pat (list Tok)) :=
  [ fa ← braced_message; mret (event_with (in_module None) (Group Brace fa.1 :: comma :: fa.2));
    f ← path_equals; mret (event_with (in_module None) [Group Brace f]);
    f ← sigil "?" path_equals; mret (event_with (in_module None) [Group Brace f]);
    f ← sigil "%" path_equals; mret (event_with (in_module None) [Group Brace f]);
    f ← path_comma; mret (event_with (in_module None) [Group Brace f]);
    f ← sigil "?" path_comma; mret (event_with (in_module None) [Group Brace f]);
    f ← sigil "%" path_comma; mret (event_with (in_module None) [Group Brace f]);
    f ← sigil "?" path_only; mret (event_with (in_module None) [Group Brace f]);
    f ← sigil "%" path_only; mret (event_with (in_module None) [Group Brace f]);
    f ← path_only; mret (event_with (in_module None) [Group Brace f]);
    args ← tts1; mret (event_with (in_module None) args) ].

Definition level_rules : list (Pat (list Tok)) :=
  level_group true true true ++ level_group true true false ++ level_group false true true ++
  level_group true false true ++ level_group true false false ++ level_group false true false ++
  level_parent ++ level_plain.

(** The macro, with the [event!] that it expands to. *)
Definition level_macro (l : list Tok) : Match EventBody :=
  match first_match level_rules l with
  | Matched call => event call
  | NoMatch => NoMatch
  | Fatal => Fatal
  end.
End level_macro.

Definition trace := level_macro Level.TRACE.
Definition debug := level_macro Level.DEBUG.
Definition info := level_macro Level.INFO.
Definition warn := level_macro Level.WARN.
Definition error := level_macro Level.ERROR.
End macros.

(** ** The calls of the macros of a level *)
Section calls.
Context `{X : ExprParser} `{XL : !ExprLaws}.

(** The tokens that the user has written for an expression; they end at the next comma. *)
Definition spells (u : list Tok) (e : Expr) : Prop :=
  forall r, expr (u ++ comma :: r) = Matched (e, comma :: r).
Definition given_ok (g : option (list Tok * Expr)) : Prop :=
  match g with Some (u, e) => spells u e | None => True end.
Definition given_toks (w : string) (g : option (list Tok * Expr)) : list Tok :=
  match g with Some (u, _) => Ident w :: Punct ":" :: u ++ [comma] | None => [] end.

Record Given := {
  g_name : option (list Tok * Expr); g_target : option (list Tok * Expr); g_parent : option (list Tok * Expr);
}.
Definition given_all (g : Given) : list Tok :=
  given_toks "name" (g_name g) ++ given_toks "target" (g_target g) ++ given_toks "parent" (g_parent g).
Definition given_prefix (g : Given) : Prefix :=
  {| p_name := snd <$> g_name g; p_target := snd <$> g_target g; p_parent := snd <$> g_parent g |}.
Definition all_ok (g : Given) : Prop := given_ok (g_name g) /\ given_ok (g_target g) /\ given_ok (g_parent g).

(** What follows the prefix: a format string with its arguments, the same after fields in
    braces, or fields. *)
Inductive Body :=
  | Message (args : list Tok)
  | Braced (fields args : list Tok)
  | FieldList (l : list Tok).
Definition body_toks (b : Body) : list Tok :=
  match b with
  | Message args => args
  | Braced f args => Group Brace f :: comma :: args
  | FieldList l => l
  end.

Definition isSome {A} (o : option A) : bool := match o with Some _ => true | None => false end.
(** A name or a target is given: the rules with an open end are tried. *)
Definition named (g : Given) : bool := isSome (g_name g) || isSome (g_target g).
Definition prefixed (g : Given) : bool := named g || isSome (g_parent g).

Definition strip_sigil (l : list Tok) : list Tok :=
  match l with
  | Punct c :: r => if String.eqb c "?" || String.eqb c "%" then r else l
  | _ => l
  end.
Definition not_key (l : list Tok) : Prop :=
  match l with Ident _ :: Punct c :: _ => c <> ":" | _ => True end.

(** The fields begin with a name, perhaps with a sigil: after a name or a target, one
    without a dot; with none of them, any path that is followed by its value or by a comma,
    or by nothing when there is no parent either. *)
Definition fields_start (g : Given) (l : list Tok) : Prop :=
  if named g then path_tts (strip_sigil l) = Matched (tt, [])
  else match path (strip_sigil l) with
       | Matched (_, []) => g_parent g = None
       | Matched (_, Punct c :: _) => c = "=" \/ c = ","
       | _ => False
       end.
Definition body_ok (g : Given) (b : Body) : Prop :=
  match b with
  | Message args => exists s r, args = Lit s :: r
  | Braced f args => args <> [] /\ (f = [] -> named g = true \/ g_parent g = None)
  | FieldList l => not_key l /\ fields_start g l
  end.

(** The fields of the event. *)
Definition body_fields (g : Given) (b : Body) : list Tok :=
  match b with
  | Message args => if prefixed g then message_toks args [] else args
  | Braced f args => message_toks args f
  | FieldList l => l
  end.

Ltac run_pat := cbv beta iota zeta delta [mbind Pat_bind mret Pat_ret tts].
#[local] Arguments expr : simpl never.
#[local] Arguments path : simpl never.
#[local] Arguments path_tts : simpl never.

(** The rules from the second on are tried after the first. *)
Definition or_else {A} (m : Match (A * list Tok)) (d : Match A) : Match A :=
  match m with
  | Matched (a, []) => Matched a
  | Matched _ | NoMatch => d
  | Fatal => Fatal
  end.
Lemma rules_in_order {A} (p : Pat A) arms l : first_match (p :: arms) l = or_else (p l) (first_match arms l).
Proof. done. Qed.
Lemma bind_reads {A B} (N : Pat B) (T : B -> Pat A) l :
  (k ← N; T k) l =
  match N l with Matched (k, r) => T k r | NoMatch => NoMatch | Fatal => Fatal end.
Proof. done. Qed.

(** *** The prefix *)

Lemma punct_same s r : punct s (Punct s :: r) = Matched (tt, r).
Proof. cbn [punct]. by rewrite String.eqb_refl. Qed.
Lemma word_same s r : word s (Ident s :: r) = Matched (tt, r).
Proof. cbn [word]. by rewrite String.eqb_refl. Qed.

Lemma key_hit w u e r : spells u e -> key w (given_toks w (Some (u, e)) ++ r) = Matched (e, r).
Proof.
  intros H. unfold key. run_pat. cbn [given_toks app].
  rewrite word_same, punct_same, <- (assoc_L (++)). cbn [app]. by rewrite (H r), punct_same.
Qed.

Lemma key_other w w' u e r : String.eqb w' w = false -> key w (given_toks w' (Some (u, e)) ++ r) = NoMatch.
Proof. intros H. unfold key. run_pat. cbn [given_toks app word]. by rewrite H. Qed.

Lemma key_none w l : not_key l -> key w l = NoMatch.
Proof.
  intros H. unfold key. run_pat. destruct l as [|[s| | | |] l]; try done. cbn [word].
  destruct (String.eqb s w); [|done]. destruct l as [|[|c| | |] l]; try done. cbn in H.
  cbn [punct]. destruct (String.eqb_spec c ":"); done.
Qed.

Lemma spells_frag e : spells [Frag e] e.
Proof. intros r. unfold expr. cbn [app]. rewrite begin_frag, parse_frag by (by right). done. Qed.

(** The prefix of a call that a rule makes. *)
Definition frag (e : Expr) : list Tok * Expr := ([Frag e], e).
Definition passed (q : Prefix) : Given :=
  {| g_name := frag <$> p_name q; g_target := frag <$> p_target q; g_parent := frag <$> p_parent q |}.

Lemma passed_toks q : prefix_toks q = given_all (passed q).
Proof. by destruct q as [[] [] []]. Qed.
Lemma passed_ok q : all_ok (passed q).
Proof. destruct q as [[] [] []]; repeat split; try done; apply spells_frag. Qed.
Lemma passed_prefix q : given_prefix (passed q) = q.
Proof. by destruct q as [[] [] []]. Qed.

(** A prefix is read by the rules with the same parts; the rules that ask for another part
    are passed over. *)
Definition has (n t p : bool) (g : Given) : Prop :=
  isSome (g_name g) = n /\ isSome (g_target g) = t /\ isSome (g_parent g) = p.
Definition wants_more (n t p : bool) (g : Given) : bool :=
  if Bool.eqb n (isSome (g_name g)) then
    if Bool.eqb t (isSome (g_target g)) then p && negb (isSome (g_parent g)) else t || p
  else n || t || p.

Lemma given_none w l : given_toks w None ++ l = l.
Proof. done. Qed.

Lemma prefix_hit n t p g l :
  has n t p g -> all_ok g -> prefix n t p (given_all g ++ l) = Matched (given_prefix g, l).
Proof.
  intros (<- & <- & <-) (Hn & Ht & Hp). destruct g as [gn gt gp]. unfold prefix, given_all, given_prefix.
  cbn [g_name g_target g_parent] in *. rewrite <- !(assoc_L (++)).
  destruct gn as [[un en]|], gt as [[ut et]|], gp as [[up ep]|]; cbn [isSome opt_key given_ok] in *;
    run_pat; rewrite ?given_none; repeat (rewrite key_hit by done; rewrite ?given_none); reflexivity.
Qed.

Lemma prefix_miss n t p g l :
  wants_more n t p g = true -> all_ok g -> not_key l -> prefix n t p (given_all g ++ l) = NoMatch.
Proof.
  intros Hw (Hn & Ht & Hp) Hl. destruct g as [gn gt gp]. unfold prefix, given_all, wants_more in *.
  cbn [g_name g_target g_parent] in *. rewrite <- !(assoc_L (++)).
  destruct gn as [[un en]|], gt as [[ut et]|], gp as [[up ep]|], n, t, p;
    cbn [isSome opt_key given_ok Bool.eqb andb orb negb] in *; try done; run_pat;
    rewrite ?given_none; repeat (rewrite key_hit by done; rewrite ?given_none);
    first [rewrite key_other by done|rewrite key_none by done]; reflexivity.
Qed.

(** *** The rules of a level's macro *)

(** The tokens after the level, in the call of [event!]. *)
Definition event_rest (b : Body) : list Tok :=
  match b with
  | Message args => Group Brace [] :: comma :: args
  | Braced f args => Group Brace f :: comma :: args
  | FieldList l => [Group Brace l]
  end.

Lemma body_not_key g b : body_ok g b -> not_key (body_toks b).
Proof. destruct b as [args|f args|l]; cbn; [by intros (s & r & ->)|done|by intros []]. Qed.

Lemma level_group_miss lvl n t p more l :
  prefix n t p l = NoMatch -> first_match (level_group lvl n t p ++ more) l = first_match more l.
Proof. intros H. unfold level_group. cbn [app]. by rewrite !rules_in_order, !bind_reads, H. Qed.

Lemma tts1_cons t l : tts1 (t :: l) = Matched (t :: l, []).
Proof. done. Qed.

Lemma path_tts_cases l : path_tts l = Matched (tt, []) \/ path_tts l = NoMatch \/ path_tts l = Fatal.
Proof.
  destruct l as [|[s|c|s|d g|e] [|[s'|c'|s'|d' g'|e'] l]]; unfold path_tts; auto.
  destruct (String.eqb c' "."); auto.
Qed.

Lemma not_sigil_strip l : strip_sigil l = l \/ exists c, l = Punct c :: strip_sigil l /\ (c = "?" \/ c = "%").
Proof.
  destruct l as [|[s|c|s|d g|e] l]; try (by left). cbn [strip_sigil].
  destruct (String.eqb_spec c "?") as [->|]; [right; eauto|].
  destruct (String.eqb_spec c "%") as [->|]; [right; eauto|by left].
Qed.

Lemma sigil_other {A} s (p : Pat A) l :
  match l with Punct c :: _ => c <> s | _ => True end -> sigil s p l = NoMatch.
Proof.
  intros H. unfold sigil, whole. run_pat. destruct l as [|[|c| | |] l]; try done. cbn [punct].
  destruct (String.eqb_spec c s); done.
Qed.
Lemma sigil_same {A} s (p : Pat A) l :
  sigil s p (Punct s :: l) =
  match p l with
  | Matched (_, []) => Matched (Punct s :: l, [])
  | Matched _ | NoMatch => NoMatch
  | Fatal => Fatal
  end.
Proof. unfold sigil, whole. run_pat. by rewrite punct_same. Qed.
Lemma path_tts_sigil c l : path_tts (Punct c :: l) = NoMatch.
Proof. done. Qed.
Lemma path_sigil c l : path (Punct c :: l) = NoMatch.
Proof. done. Qed.

Lemma whole_eq {A} (p : Pat A) l :
  whole p l = match p l with
              | Matched (_, []) => Matched (l, []) | Matched _ | NoMatch => NoMatch | Fatal => Fatal end.
Proof. done. Qed.

Lemma level_group_hit lvl n t p g b more :
  has n t p g -> n || t = true -> all_ok g -> body_ok g b ->
  first_match (level_group lvl n t p ++ more) (given_all g ++ body_toks b) =
  Matched (event_with lvl (given_prefix g) (event_rest b)).
Proof.
  intros Hh Hn Hg Hb.
  assert (named g = true) as Hnamed by (destruct Hh as (<- & <- & _); done).
  assert (prefix n t p (given_all g ++ body_toks b) = Matched (given_prefix g, body_toks b)) as Hp
    by by apply prefix_hit.
  set (l := given_all g ++ body_toks b) in *. unfold level_group. cbn [app].
  destruct b as [args|f args|fl]; cbn [body_toks body_ok event_rest] in *.
  - destruct Hb as (s & r & ->). rewrite !rules_in_order, !bind_reads, Hp. done.
  - rewrite rules_in_order, bind_reads, Hp. run_pat. cbn [braces]. run_pat. by rewrite punct_same.
  - destruct Hb as [_ Hf]. unfold fields_start in Hf. rewrite Hnamed in Hf.
    rewrite !rules_in_order, !bind_reads, Hp. run_pat. rewrite (whole_eq path_tts).
    destruct (not_sigil_strip fl) as [Hl|(c & Hl & [->| ->])].
    + rewrite Hl in Hf. destruct fl as [|[]]; try done. by rewrite Hf.
    + rewrite Hl. by rewrite path_tts_sigil, sigil_same, Hf.
    + rewrite Hl. by rewrite path_tts_sigil, sigil_same, sigil_other, Hf.
Qed.

(** The three forms of fields that begin with a path. *)
Lemma path_forms l k r :
  path l = Matched (k, r) ->
  path_equals l = match r with Punct c :: _ => if String.eqb c "=" then Matched (l, []) else NoMatch | _ => NoMatch end /\
  path_comma l = match r with Punct c :: _ => if String.eqb c "," then Matched (l, []) else NoMatch | _ => NoMatch end /\
  path_only l = match r with [] => Matched (l, []) | _ => NoMatch end.
Proof.
  intros H. unfold path_equals, path_comma, path_only, whole. run_pat. rewrite H. split_and!.
  - destruct r as [|[|c| | |] r]; try done. cbn [punct]. by destruct (String.eqb c "=").
  - destruct r as [|[|c| | |] r]; try done. cbn [punct]. by destruct (String.eqb c ",").
  - by destruct r.
Qed.
Lemma no_path_forms l :
  path l = NoMatch -> path_equals l = NoMatch /\ path_comma l = NoMatch /\ path_only l = NoMatch.
Proof. intros H. unfold path_equals, path_comma, path_only, whole. run_pat. by rewrite H. Qed.

(** One of the rules for fields with an end matches. *)
Lemma end_fields g l :
  named g = false -> fields_start g l ->
  match strip_sigil l with Ident _ :: _ => True | _ => False end /\
  exists k r, path (strip_sigil l) = Matched (k, r) /\
    (r = [] /\ g_parent g = None \/ exists c r', r = Punct c :: r' /\ (c = "=" \/ c = ",")).
Proof.
  intros Hn H. unfold fields_start in H. rewrite Hn in H.
  destruct (path (strip_sigil l)) as [[k r]| |] eqn:Hp; [|done..].
  split; [by destruct (strip_sigil l) as [|[]]|]. exists k, r. split; [done|].
  destruct r as [|[|c| | |] r]; try done; [by left|right]. eauto.
Qed.

(** Tries the rules on the fields [l]. *)
Ltac try_rules l H :=
  let Hs := fresh in let He := fresh in let Hr := fresh in
  let k := fresh in let r := fresh in
  destruct H as [Hs (k & r & He & Hr)];
  destruct (not_sigil_strip l) as [Hl|(? & Hl & [->| ->])];
  [rewrite Hl in Hs, He; destruct l as [|[]]; try done
  |rewrite Hl; destruct (strip_sigil l) as [|[]]; try done..];
  destruct (path_forms _ k r He) as (Fe & Fc & Fo);
  destruct Hr as [(-> & Hr)|(? & ? & -> & [->| ->])];
  rewrite ?sigil_same, ?Fe, ?Fc, ?Fo.

Lemma level_plain_hit lvl g b :
  has false false false g -> body_ok g b ->
  first_match (level_plain lvl) (body_toks b) =
  Matched (event_with lvl (in_module None)
    match b with Braced [] _ | Message _ => body_toks b | _ => event_rest b end).
Proof.
  intros (Hn & Ht & Hp) Hb. assert (named g = false) as Hg by (unfold named; by rewrite Hn, Ht).
  destruct b as [args|f args|l]; cbn [body_ok body_toks event_rest] in *; unfold level_plain.
  - destruct Hb as (s & r & ->). reflexivity.
  - destruct Hb as [Ha _]. destruct args as [|t args]; [done|]. destruct f as [|t' f]; reflexivity.
  - destruct Hb as [_ Hf]. apply end_fields in Hf; [|done]. rewrite !rules_in_order, !bind_reads. run_pat.
    try_rules l Hf; reflexivity.
Qed.

Lemma key_prefix u e r g :
  g_name g = None -> g_target g = None -> g_parent g = Some (u, e) -> spells u e ->
  key "parent" (given_all g ++ r) = Matched (e, r).
Proof.
  intros Hn Ht Hp He. unfold given_all. rewrite Hn, Ht, Hp, !given_none. by apply key_hit.
Qed.

Lemma level_parent_hit lvl g b u e more :
  has false false true g -> g_parent g = Some (u, e) -> spells u e -> body_ok g b ->
  first_match (level_parent lvl ++ more) (given_all g ++ body_toks b) =
  Matched (event_with lvl (in_module (Some e)) (event_rest b)).
Proof.
  intros (Hn & Ht & _) Hp He Hb. assert (named g = false) as Hg by (unfold named; by rewrite Hn, Ht).
  assert (key "parent" (given_all g ++ body_toks b) = Matched (e, body_toks b)) as Hk.
  { apply (key_prefix u); try done; by destruct (g_name g), (g_target g). }
  set (l := given_all g ++ body_toks b) in *. unfold level_parent. cbn [app].
  rewrite !rules_in_order, !bind_reads, Hk. run_pat. destruct b as [args|f args|fl]; cbn [body_ok body_toks event_rest] in *.
  - destruct Hb as (s & r & ->). reflexivity.
  - destruct Hb as [Ha Hf]. destruct args as [|t args]; [done|].
    destruct f as [|t' f]; [|reflexivity]. destruct (Hf eq_refl); congruence.
  - destruct Hb as [_ Hf]. apply end_fields in Hf; [|done]. try_rules fl Hf; congruence || reflexivity.
Qed.

Lemma level_parent_miss lvl l more :
  not_key l -> first_match (level_parent lvl ++ more) l = first_match more l.
Proof. intros H. unfold level_parent. cbn [app]. by rewrite !rules_in_order, !bind_reads, (key_none "parent"). Qed.

(** What a macro of a level calls [event!] with. *)
Definition call_prefix (g : Given) : Prefix :=
  if named g then given_prefix g else in_module (snd <$> g_parent g).
Definition call_rest (g : Given) (b : Body) : list Tok :=
  if prefixed g then event_rest b
  else match b with Braced [] _ | Message _ => body_toks b | _ => event_rest b end.

Lemma level_calls lvl g b :
  all_ok g -> body_ok g b ->
  first_match (level_rules lvl) (given_all g ++ body_toks b) =
  Matched (event_with lvl (call_prefix g) (call_rest g b)).
Proof.
  intros Hg Hb. pose proof (body_not_key g b Hb) as Hk. unfold level_rules.
  destruct g as [[[un en]|] [[ut et]|] [[up ep]|]]; set (g := Build_Given _ _ _) in *;
    unfold call_prefix, call_rest, prefixed; cbn [named isSome orb g_name g_target g_parent g];
    repeat (rewrite (level_group_miss lvl _ _ _ _ (given_all g ++ _)) by (by apply (prefix_miss _ _ _ g)));
    try (by apply (level_group_hit lvl _ _ _ g b)).
  - eapply level_parent_hit; [done|done|apply Hg|done].
  - rewrite level_parent_miss by done. by apply (level_plain_hit lvl g b).
Qed.

(** *** The rules of [event!] *)

Lemma event_group_miss n t p more l :
  prefix n t p l = NoMatch -> first_match (event_group n t p ++ more) l = first_match more l.
Proof. intros H. unfold event_group. cbn [app]. by rewrite !rules_in_order, !bind_reads, H. Qed.

Lemma level_frag lvl r : level (Frag lvl :: comma :: r) = Matched (lvl, r).
Proof.
  unfold level. run_pat. change (Frag lvl :: comma :: r) with ([Frag lvl] ++ comma :: r).
  rewrite (spells_frag lvl r). by rewrite punct_same.
Qed.

(** The last tokens of a call of [event!], and what becomes of them. *)
Definition event_end (q : Prefix) (lvl : Expr) (b : Body) : Next EventBody :=
  match b with
  | Message args => Again (event_call q lvl args)
  | Braced f args => Again (event_call q lvl (message_toks args f))
  | FieldList l => Base (event_body q lvl l)
  end.
Definition end_toks (b : Body) : list Tok :=
  match b with FieldList l => [Group Brace l] | _ => body_toks b end.
Definition end_ok (b : Body) : Prop :=
  match b with
  | Message args => exists s r, args = Lit s :: r
  | Braced _ args => args <> []
  | FieldList _ => True
  end.

Lemma event_group_hit n t p q lvl b more :
  has n t p (passed q) -> end_ok b ->
  first_match (event_group n t p ++ more) (prefix_toks q ++ Frag lvl :: comma :: end_toks b) =
  Matched (event_end q lvl b).
Proof.
  intros Hh Hb. rewrite passed_toks.
  assert (prefix n t p (given_all (passed q) ++ Frag lvl :: comma :: end_toks b) =
    Matched (q, Frag lvl :: comma :: end_toks b)) as Hp.
  { rewrite prefix_hit by (done || apply passed_ok). by rewrite passed_prefix. }
  set (l := given_all _ ++ _) in *. unfold event_group. cbn [app].
  rewrite !rules_in_order, !bind_reads, Hp. run_pat. rewrite !level_frag.
  destruct b as [args|f args|fl]; cbn [end_ok end_toks body_toks event_end] in *.
  - destruct Hb as (s & r & ->). reflexivity.
  - destruct args; [done|]. reflexivity.
  - reflexivity.
Qed.

Lemma event_step q lvl b :
  isSome (p_name q) || isSome (p_target q) = true -> end_ok b ->
  first_match event_rules (prefix_toks q ++ Frag lvl :: comma :: end_toks b) = Matched (event_end q lvl b).
Proof.
  intros Hq Hb. unfold event_rules, event_name_target_parent, event_name_target, event_target_parent,
    event_name_parent, event_name, event_target.
  destruct q as [[en|] [et|] [ep|]]; try done; set (q := Build_Prefix _ _ _) in *;
    repeat (rewrite event_group_miss by (rewrite passed_toks; by apply prefix_miss; [|apply passed_ok|]));
    by apply event_group_hit.
Qed.

Lemma event_base fuel q lvl l :
  isSome (p_name q) || isSome (p_target q) = true ->
  expand event_rules (S fuel) (event_call q lvl l) = Matched (event_body q lvl l).
Proof.
  intros Hq. cbn [expand]. pose proof (event_step q lvl (FieldList l) Hq I) as H.
  unfold event_call. cbn [end_toks] in H. by rewrite H.
Qed.

Lemma event_expands q lvl b :
  isSome (p_name q) || isSome (p_target q) = true -> end_ok b ->
  event (prefix_toks q ++ Frag lvl :: comma :: end_toks b) =
  Matched (event_body q lvl
    match b with Message args => args | Braced f args => message_toks args f | FieldList l => l end).
Proof.
  intros Hq Hb. unfold event.
  assert (forall fuel l, expand event_rules (S fuel) l =
    match first_match event_rules l with
    | Matched (Base b) => Matched b | Matched (Again l) => expand event_rules fuel l
    | NoMatch => NoMatch | Fatal => Fatal end) as Hs by done.
  rewrite Hs, event_step by done. destruct b; cbn [event_end]; [by rewrite event_base..|done].
Qed.

(** *** The callsite and the message *)

Lemma key_frag w e r : key w (key_toks w (Some e) ++ r) = Matched (e, r).
Proof. apply (key_hit w [Frag e]), spells_frag. Qed.
Lemma key_frag_other w w' e r : String.eqb w' w = false -> key w (key_toks w' (Some e) ++ r) = NoMatch.
Proof. intros H. by apply (key_other w w' [Frag e] e). Qed.
Lemma fields_key_other w e r : String.eqb w "fields" = false -> fields_key (key_toks w (Some e) ++ r) = NoMatch.
Proof. intros H. unfold fields_key. run_pat. cbn [key_toks app word]. by rewrite H. Qed.

(** A call with all its parts is a callsite with these parts. *)
Lemma callsite2_step n k t l f :
  first_match callsite2_rules (key_toks "name" (Some n) ++ key_toks "kind" (Some k) ++
    key_toks "target" (Some t) ++ key_toks "level" (Some l) ++ fields_toks f) =
  Matched (Base {| cs_name := n; cs_kind := k; cs_target := t; cs_level := l; cs_fields := f |}).
Proof.
  unfold callsite2_rules. rewrite !rules_in_order, !bind_reads.
  repeat (rewrite key_frag || rewrite fields_key_other by done || rewrite key_frag_other by done; run_pat).
  reflexivity.
Qed.
Lemma callsite2_parts n k t l f :
  callsite2 (key_toks "name" (Some n) ++ key_toks "kind" (Some k) ++ key_toks "target" (Some t) ++
    key_toks "level" (Some l) ++ fields_toks f) =
  Matched {| cs_name := n; cs_kind := k; cs_target := t; cs_level := l; cs_fields := f |}.
Proof. unfold callsite2. cbn [expand]. by rewrite callsite2_step. Qed.

(** A message before other fields is their first. *)
Lemma fields_of_message args f fs :
  field_list (1 + length f) f = Matched (None, fs) ->
  fields_of (message_toks args f) = Matched ((NPath ["message"], VValue (FormatArgs args)) :: fs).
Proof.
  intros Hf. unfold fields_of, message_toks.
  set (l := Ident "message" :: _). set (n := length l).
  assert (field l = Matched ((NPath ["message"], VValue (FormatArgs args)), comma :: f)) as Hl.
  { change (field l) with (with_value (NPath ["message"]) (Punct "=" :: Frag (FormatArgs args) :: comma :: f)).
    unfold with_value. run_pat. rewrite punct_same. cbn [value_of]. run_pat.
    pose proof (spells_frag (FormatArgs args) f) as H. cbn [app] in H. by rewrite H. }
  assert (field_list (1 + n) l = match field_list n f with
    | Matched (m, fs) => Matched (m, (NPath ["message"], VValue (FormatArgs args)) :: fs)
    | NoMatch => NoMatch | Fatal => Fatal end) as ->.
  { cbn [Nat.add field_list]. change (all_commas l) with false. cbn match. by rewrite Hl. }
  rewrite (field_list_fuel n (1 + length f)) by (cbn; lia). by rewrite Hf.
Qed.

(** A format string with its arguments is a message. *)
Lemma fields_of_format s r :
  match r with Punct c :: _ => c <> "=" | _ => True end ->
  fields_of (Lit s :: r) = Matched [(NMessage, VValue (FormatArgs (Lit s :: r)))].
Proof.
  intros H. unfold fields_of. cbn [length Nat.add field_list].
  change (all_commas (Lit s :: r)) with false. cbn match.
  change (field (Lit s :: r)) with (with_value (NLit s) r). unfold with_value. run_pat.
  destruct r as [|[|c| | |] r]; try done. cbn [punct]. destruct (String.eqb_spec c "="); done.
Qed.

End calls.

(** [info!(target: "net", parent: p, { a = 1 }, "x {}", y)] *)
Definition example_given : Given :=
  {| g_name := None; g_target := Some ([Lit "net"], Source [Lit "net"]);
     g_parent := Some ([Ident "p"], Source [Ident "p"]) |}.
Definition example_body : Body :=
  Braced [Ident "a"; Punct "="; Lit "1"] [Lit "x {}"; comma; Ident "y"].


(** *** Calls that the rules treat apart *)

Example info_of_fields :
  info [Ident "a"; Punct "."; Ident "b"; Punct "="; Lit "1"] =
  Matched {| ev_name := Located "event "; ev_target := ModulePath; ev_parent := None;
             ev_level := LevelOf Level.INFO;
             ev_fields := [Ident "a"; Punct "."; Ident "b"; Punct "="; Lit "1"] |}.
Proof. vm_compute. reflexivity. Qed.

(** After a name or a target, a first field with a dot can be read in two ways. *)
Example target_with_dotted_field :
  info (given_toks "target" (g_target example_given) ++
    [Ident "a"; Punct "."; Ident "b"; Punct "="; Lit "1"]) = Fatal.
Proof. vm_compute. reflexivity. Qed.

(** After a parent alone, one name without a value is the format string; without the parent
    it is a field. *)
Example parent_with_one_name :
  ev_fields <$> (match info (given_toks "parent" (g_parent example_given) ++ [Ident "foo"]) with
                 | Matched b => Some b | _ => None end) = Some (message_toks [Ident "foo"] []) /\
  ev_fields <$> (match info [Ident "foo"] with Matched b => Some b | _ => None end) = Some [Ident "foo"] /\
  ev_fields <$> (match info (given_toks "target" (g_target example_given) ++ [Ident "foo"]) with
                 | Matched b => Some b | _ => None end) = Some [Ident "foo"].
Proof. vm_compute. done. Qed.

(** Fields in braces without a message are the fields of the event after [event!]'s target,
    and are passed on in their braces after [info!]'s, as a format string. *)
Example braces_alone :
  ev_fields <$> (match event (given_toks "target" (g_target example_given) ++
                   [Frag (LevelOf Level.INFO); comma; Group Brace [Ident "a"; Punct "="; Lit "1"]]) with
                 | Matched b => Some b | _ => None end) = Some [Ident "a"; Punct "="; Lit "1"] /\
  ev_fields <$> (match info (given_toks "target" (g_target example_given) ++
                   [Group Brace [Ident "a"; Punct "="; Lit "1"]]) with
                 | Matched b => Some b | _ => None end) =
    Some (message_toks [Group Brace [Ident "a"; Punct "="; Lit "1"]] []) /\
  ev_fields <$> (match info [Group Brace [Ident "a"; Punct "="; Lit "1"]] with
                 | Matched b => Some b | _ => None end) = Some [Ident "a"; Punct "="; Lit "1"].
Proof. vm_compute. done. Qed.
