(* ===== verification/SpanMacros.v ===== *)
(** * SpanMacros: [span!], [enabled!] and [record_all!], [tracing/src/macros.rs]

    The macros that make spans, those of each level, and those that ask whether a span or an
    event would be enabled: which target, parent, level, name and fields a call gets. *)

From S2P Require Import Prelude.
From S2P Require Import Str.
From S2P Require Import Levels.
From S2P Require Import Fields.
From S2P Require Import Meta.
From S2P Require Import MacroFields.
From S2P Require Import Macros.

Local Open Scope string_scope.
Local Open Scope list_scope.

(** [$name:expr,] *)
Abbreviation arg := level.

(** The captures of a rule with a body: the static of the callsite, with its field set and
    the values, and the parent of [Span::child_of], or none for [Span::new]. *)
Record SpanBody := {
  sp_target : Expr; sp_parent : option Expr; sp_level : Expr; sp_name : Expr; sp_fields : list Tok;
}.
Definition span_body (q : Prefix) (lvl name : Expr) (fields : list Tok) : SpanBody := {|
  sp_target := default ModulePath (p_target q); sp_parent := p_parent q;
  sp_level := lvl; sp_name := name; sp_fields := fields;
|}.
(** The call [span!(.., $lvl, $name, ..)]. *)
Definition span_call (q : Prefix) (lvl name : Expr) (fields : list Tok) : list Tok :=
  prefix_toks q ++ Frag lvl :: comma :: Frag name :: comma :: fields.

(** The captures of the rule of [enabled!] with a body. *)
Record EnabledBody := { en_kind : Expr; en_target : Expr; en_level : Expr; en_fields : list Tok }.
Definition enabled_call (kind target lvl : Expr) (fields : list Tok) : list Tok :=
  key_toks "kind" (Some kind) ++ key_toks "target" (Some target) ++ [Frag lvl; comma; Group Brace fields].

Section macros.
Context `{X : ExprParser}.

(** ** [span!] *)

Definition span_rules : list (Pat (Next SpanBody)) :=
  [ q ← prefix false true true; lvl ← arg; n ← expr; mret (Again (span_call q lvl n []));
    q ← prefix false true true; lvl ← arg; n ← arg; f ← tts; mret (Base (span_body q lvl n f));
    q ← prefix false true false; lvl ← arg; n ← arg; f ← tts; mret (Base (span_body q lvl n f));
    q ← prefix false true true; lvl ← arg; n ← expr; mret (Again (span_call q lvl n []));
    p ← key "parent"; lvl ← arg; n ← arg; f ← tts; mret (Again (span_call (in_module (Some p)) lvl n f));
    p ← key "parent"; lvl ← arg; n ← expr; mret (Again (span_call (in_module (Some p)) lvl n []));
    q ← prefix false true false; lvl ← arg; n ← arg; f ← tts; mret (Again (span_call q lvl n f));
    q ← prefix false true false; lvl ← arg; n ← expr; mret (Again (span_call q lvl n []));
    lvl ← arg; n ← arg; f ← tts; mret (Again (span_call (in_module None) lvl n f));
    lvl ← arg; n ← expr; mret (Again (span_call (in_module None) lvl n [])) ].
Definition span : list Tok -> Match SpanBody := expand span_rules 3.

(** The static callsite of a body. *)
Definition span_callsite (b : SpanBody) : Match CallsiteParts :=
  callsite2 (key_toks "name" (Some (sp_name b)) ++ key_toks "kind" (Some (KindOf Kind.SPAN)) ++
    key_toks "target" (Some (sp_target b)) ++ key_toks "level" (Some (sp_level b)) ++
    fields_toks (sp_fields b)).

(** ** [trace_span!], [debug_span!], [info_span!], [warn_span!] and [error_span!] *)
Section level_span.
Variable lvl : Level.t.

(** The same macro, called again with a comma after the name. *)
Definition again (q : Prefix) (name : Expr) : list Tok := prefix_toks q ++ [Frag name; comma].
Definition only_parent (p : Expr) : Prefix := {| p_name := None; p_target := None; p_parent := Some p |}.
Definition no_prefix : Prefix := {| p_name := None; p_target := None; p_parent := None |}.

Definition level_span_rules : list (Pat (Next (list Tok))) :=
  [ q ← prefix false true true; n ← arg; f ← tts; mret (Base (span_call q (LevelOf lvl) n f));
    q ← prefix false true true; n ← expr; mret (Again (again q n));
    p ← key "parent"; n ← arg; f ← tts; mret (Base (span_call (in_module (Some p)) (LevelOf lvl) n f));
    p ← key "parent"; n ← expr; mret (Again (again (only_parent p) n));
    q ← prefix false true false; n ← arg; f ← tts; mret (Base (span_call q (LevelOf lvl) n f));
    q ← prefix false true false; n ← expr; mret (Again (again q n));
    n ← arg; f ← tts; mret (Base (span_call (in_module None) (LevelOf lvl) n f));
    n ← expr; mret (Again (again no_prefix n)) ].

(** The macro, with the [span!] that it expands to. *)
Definition level_span (l : list Tok) : Match SpanBody :=
  match expand level_span_rules 2 l with
  | Matched call => span call
  | NoMatch => NoMatch
  | Fatal => Fatal
  end.
End level_span.

Definition trace_span := level_span Level.TRACE.
Definition debug_span := level_span Level.DEBUG.
Definition info_span := level_span Level.INFO.
Definition warn_span := level_span Level.WARN.
Definition error_span := level_span Level.ERROR.

(** ** [enabled!], [event_enabled!] and [span_enabled!] *)

Definition enabled_rules : list (Pat (Next EnabledBody)) :=
  [ k ← key "kind"; t ← key "target"; lvl ← arg; f ← braces tts;
      mret (Base {| en_kind := k; en_target := t; en_level := lvl; en_fields := f |});
    k ← key "kind"; t ← key "target"; lvl ← expr; mret (Again (enabled_call k t lvl []));
    t ← key "target"; lvl ← expr; mret (Again (enabled_call (KindOf Kind.HINT) t lvl []));
    k ← key "kind"; t ← key "target"; lvl ← arg; f ← tts; mret (Again (enabled_call k t lvl f));
    t ← key "target"; lvl ← arg; f ← tts; mret (Again (enabled_call (KindOf Kind.HINT) t lvl f));
    k ← key "kind"; lvl ← arg; f ← tts; mret (Again (enabled_call k ModulePath lvl f));
    k ← key "kind"; lvl ← expr; mret (Again (enabled_call k ModulePath lvl []));
    lvl ← expr; mret (Again (enabled_call (KindOf Kind.HINT) ModulePath lvl []));
    lvl ← arg; f ← tts; mret (Again (enabled_call (KindOf Kind.HINT) ModulePath lvl f)) ].
Definition enabled : list Tok -> Match EnabledBody := expand enabled_rules 2.
Definition event_enabled (rest : list Tok) : Match EnabledBody :=
  enabled (key_toks "kind" (Some (KindOf Kind.EVENT)) ++ rest).
Definition span_enabled (rest : list Tok) : Match EnabledBody :=
  enabled (key_toks "kind" (Some (KindOf Kind.SPAN)) ++ rest).

(** [record_all!]: the span, and the values with their fields, for [Span::record_all] of the
    fields of its metadata. *)
Definition record_all (l : list Tok) : Match (Expr * list (FName * VForm)) :=
  match first_match [span ← expr; _ ← punct ","; f ← tts; mret (span, f)] l with
  | Matched (span, f) =>
      match valueset f with
      | Matched vs => Matched (span, vs)
      | NoMatch => NoMatch
      | Fatal => Fatal
      end
  | NoMatch => NoMatch
  | Fatal => Fatal
  end.
End macros.

(** ** The calls of the macros *)
Section calls.
Context `{X : ExprParser} `{XL : !ExprLaws}.

Ltac run_pat := cbv beta iota zeta delta [mbind Pat_bind mret Pat_ret tts].
#[local] Arguments expr : simpl never.

(** The tokens after the level: the name, and the fields when there is a comma. *)
Definition name_toks (un : list Tok) (fields : option (list Tok)) : list Tok :=
  un ++ match fields with Some f => comma :: f | None => [] end.
(** An expression that is not taken for a [target:] or a [parent:]. *)
Definition plain_expr (u : list Tok) (e : Expr) : Prop := spells u e /\ not_key u.

Lemma plain_not_key u e r : plain_expr u e -> not_key (u ++ comma :: r).
Proof.
  intros [H Hk]. destruct u as [|t u]; [|destruct t, u as [|[] u]; done].
  specialize (H []). cbn [app] in H. by rewrite expr_punct in H by tauto.
Qed.
Lemma plain_frag e : plain_expr [Frag e] e.
Proof. split; [apply spells_frag|done]. Qed.

Lemma spells_end u e : spells u e -> expr u = Matched (e, []).
Proof.
  intros H. specialize (H []). destruct u as [|t u].
  { cbn [app] in H. by rewrite expr_punct in H by tauto. }
  unfold expr in *. cbn [app] in H. destruct (can_begin_expr t); [|done].
  change (t :: u ++ [comma]) with ((t :: u) ++ [comma]) in H. rewrite parse_comma in H.
  destruct (parse_expr (t :: u)) as [[e' r]|]; [|done]. injection H as -> H.
  by apply (app_inj_tail _ []) in H as [-> _].
Qed.

Lemma arg_hit u e r : spells u e -> arg (u ++ comma :: r) = Matched (e, r).
Proof. intros H. unfold arg. run_pat. by rewrite (H r), punct_same. Qed.
Lemma arg_end u e : spells u e -> arg u = NoMatch.
Proof. intros H. unfold arg. run_pat. by rewrite (spells_end u e H). Qed.

Lemma name_not_key un n fields : plain_expr un n -> not_key (name_toks un fields).
Proof.
  intros H. unfold name_toks. destruct fields as [f|]; [by eapply plain_not_key|].
  rewrite app_nil_r. apply H.
Qed.

(** *** The rules *)

(** A target and a parent, without a name. *)
Definition span_given (g : Given) : Prop := g_name g = None /\ all_ok g.
(** The prefix with the target that a macro passes on. *)
Definition located (g : Given) : Prefix :=
  {| p_name := None; p_target := Some (default ModulePath (snd <$> g_target g));
     p_parent := snd <$> g_parent g |}.

Lemma key_parent g r :
  span_given g -> not_key r ->
  key "parent" (given_all g ++ r) =
  match g_target g, g_parent g with None, Some (_, e) => Matched (e, r) | _, _ => NoMatch end.
Proof.
  intros [Hn Hg] Hr. destruct g as [gn [[ut et]|] [[up ep]|]]; cbn in Hn; subst gn;
    unfold given_all; cbn [g_name g_target g_parent]; rewrite !given_none, <- ?(assoc_L (++)).
  - by apply key_other.
  - by apply key_other.
  - apply key_hit, Hg.
  - by apply key_none.
Qed.

Lemma prefix_both g r :
  span_given g -> not_key r ->
  prefix false true true (given_all g ++ r) =
  if isSome (g_target g) && isSome (g_parent g) then Matched (given_prefix g, r) else NoMatch.
Proof.
  intros [Hn Hg] Hr. destruct g as [gn [[ut et]|] [[up ep]|]]; cbn in Hn; subst gn;
    [by apply prefix_hit|by apply prefix_miss..].
Qed.
Lemma prefix_target g r :
  span_given g -> not_key r -> isSome (g_target g) && isSome (g_parent g) = false ->
  prefix false true false (given_all g ++ r) =
  if isSome (g_target g) then Matched (given_prefix g, r) else NoMatch.
Proof.
  intros [Hn Hg] Hr Hb. destruct g as [gn [[ut et]|] [[up ep]|]]; cbn in Hn; subst gn; [done|..];
    [by apply prefix_hit|by apply prefix_miss..].
Qed.

(** A name at the end, and one before the fields. *)
Lemma read_name {A} (T : Expr -> A) un n fields :
  spells un n ->
  (k ← expr; mret (T k)) (name_toks un fields) =
  Matched (T n, match fields with Some f => comma :: f | None => [] end).
Proof.
  intros H. unfold name_toks. run_pat. destruct fields as [f|]; [by rewrite (H f)|].
  by rewrite app_nil_r, (spells_end un n H).
Qed.
Lemma read_fields {A} (T : Expr -> list Tok -> A) un n fields :
  spells un n ->
  (k ← arg; f ← tts; mret (T k f)) (name_toks un fields) =
  match fields with Some f => Matched (T n f, []) | None => NoMatch end.
Proof.
  intros H. unfold name_toks. run_pat. destruct fields as [f|]; [by rewrite (arg_hit un n)|].
  by rewrite app_nil_r, (arg_end un n H).
Qed.
Lemma read_arg {A} (T : Expr -> Pat A) ul l r :
  spells ul l -> (k ← arg; T k) (ul ++ comma :: r) = T l r.
Proof. intros H. run_pat. by rewrite (arg_hit ul l). Qed.

Lemma span_step g ul l un n fields :
  span_given g -> plain_expr ul l -> plain_expr un n ->
  first_match span_rules (given_all g ++ ul ++ comma :: name_toks un fields) =
  Matched
    match g_target g, fields with
    | Some _, Some f => Base (span_body (given_prefix g) l n f)
    | _, _ => Again (span_call (located g) l n (default [] fields))
    end.
Proof.
  intros Hg Hl Hu. pose proof (plain_not_key ul l (name_toks un fields) Hl) as Hk.
  destruct Hl as [Hl _], Hu as [Hu _]. unfold span_rules. rewrite !rules_in_order, !bind_reads, !prefix_both, !key_parent by done.
  destruct (isSome (g_target g) && isSome (g_parent g)) eqn:Hb.
  - rewrite !(read_arg _ ul l), (read_name _ un n), (read_fields _ un n) by done.
    destruct Hg as [Hn _], g as [gn [[ut et]|] [[up ep]|]]; try done; cbn in Hn; subst gn.
    destruct fields; reflexivity.
  - rewrite !prefix_target by done. destruct Hg as [Hn Hg].
    destruct g as [gn [[ut et]|] [[up ep]|]]; try done; cbn in Hn; subst gn; cbn [g_target g_parent isSome].
    + rewrite !(read_arg _ ul l), !(read_fields _ un n), !(read_name _ un n) by done. destruct fields; reflexivity.
    + rewrite !(read_arg _ ul l), !(read_fields _ un n), !(read_name _ un n) by done. destruct fields; reflexivity.
    + change (given_all _ ++ ?r) with r. run_pat.
      rewrite !(arg_hit ul l) by done. unfold name_toks. destruct fields as [f|].
      * rewrite !(arg_hit un n) by done. reflexivity.
      * rewrite app_nil_r, (arg_end un n), (spells_end un n) by done. reflexivity.
Qed.

Lemma span_base fuel q l n f :
  p_name q = None -> isSome (p_target q) = true ->
  expand span_rules (S fuel) (span_call q l n f) = Matched (span_body q l n f).
Proof.
  intros Hn Ht. assert (span_given (passed q)) as Hg.
  { split; [destruct q as [? ? ?]; cbn in *; by subst|apply passed_ok]. }
  pose proof (span_step (passed q) [Frag l] l [Frag n] n (Some f) Hg (plain_frag l) (plain_frag n)) as H.
  unfold span_call. rewrite passed_toks. cbn [expand].
  unfold name_toks in H. cbn [app] in H. rewrite H, passed_prefix. by destruct q as [? [] ?].
Qed.

Lemma span_expands g ul l un n fields :
  span_given g -> plain_expr ul l -> plain_expr un n ->
  span (given_all g ++ ul ++ comma :: name_toks un fields) =
  Matched {| sp_target := default ModulePath (snd <$> g_target g); sp_parent := snd <$> g_parent g;
             sp_level := l; sp_name := n; sp_fields := default [] fields |}.
Proof.
  intros Hg Hl Hu. unfold span.
  assert (forall fuel t, expand span_rules (S fuel) t =
    match first_match span_rules t with
    | Matched (Base b) => Matched b | Matched (Again t) => expand span_rules fuel t
    | NoMatch => NoMatch | Fatal => Fatal end) as Hs by done.
  rewrite Hs, (span_step g ul l un n fields) by done.
  destruct (g_target g) as [[ut et]|] eqn:Ht, fields as [f|]; rewrite ?span_base by done;
    unfold span_body, located, given_prefix; by rewrite Ht.
Qed.

Lemma level_span_step lvl g un n fields :
  span_given g -> plain_expr un n ->
  first_match (level_span_rules lvl) (given_all g ++ name_toks un fields) =
  Matched
    match fields with
    | Some f => Base (span_call (located g) (LevelOf lvl) n f)
    | None => Again (again (given_prefix g) n)
    end.
Proof.
  intros Hg Hu. pose proof (name_not_key un n fields Hu) as Hk. destruct Hu as [Hu _].
  unfold level_span_rules. rewrite !rules_in_order, !bind_reads, !prefix_both, !key_parent by done.
  destruct (isSome (g_target g) && isSome (g_parent g)) eqn:Hb.
  - rewrite !(read_name _ un n), !(read_fields _ un n) by done.
    destruct Hg as [Hn _], g as [gn [[ut et]|] [[up ep]|]]; try done; cbn in Hn; subst gn.
    destruct fields; reflexivity.
  - rewrite !prefix_target by done. destruct Hg as [Hn Hg].
    destruct g as [gn [[ut et]|] [[up ep]|]]; try done; cbn in Hn; subst gn; cbn [g_target g_parent isSome].
    + rewrite !(read_name _ un n), !(read_fields _ un n) by done. destruct fields; reflexivity.
    + rewrite !(read_name _ un n), !(read_fields _ un n) by done. destruct fields; reflexivity.
    + change (given_all _ ++ ?r) with r. run_pat. unfold name_toks. destruct fields as [f|].
      * rewrite !(arg_hit un n) by done. reflexivity.
      * rewrite app_nil_r, (arg_end un n), (spells_end un n) by done. reflexivity.
Qed.

Lemma level_span_calls lvl g un n fields :
  span_given g -> plain_expr un n ->
  expand (level_span_rules lvl) 2 (given_all g ++ name_toks un fields) =
  Matched (span_call (located g) (LevelOf lvl) n (default [] fields)).
Proof.
  intros Hg Hu. cbn [expand]. rewrite (level_span_step lvl g un n fields) by done. destruct fields as [f|]; [done|].
  assert (span_given (passed (given_prefix g))) as Hp.
  { split; [destruct g as [? ? ?], Hg as [Hn _]; cbn in *; by subst|apply passed_ok]. }
  unfold again. rewrite passed_toks.
  pose proof (level_span_step lvl (passed (given_prefix g)) [Frag n] n (Some []) Hp (plain_frag n)) as H.
  unfold name_toks in H. cbn [app] in H. rewrite H.
  unfold located. by destruct g as [gn [[]|] [[]|]].
Qed.

(** *** [enabled!] *)

(** The kind is not taken for an expression. *)
Definition kind_toks (kind : option Expr) : list Tok := key_toks "kind" kind.

Lemma key_kind kind g r :
  span_given g -> g_parent g = None -> not_key r ->
  key "kind" (kind_toks kind ++ given_all g ++ r) =
  match kind with Some k => Matched (k, given_all g ++ r) | None => NoMatch end.
Proof.
  intros [Hn Hg] Hp Hr. destruct kind as [k|]; [apply key_frag|].
  destruct g as [gn [[ut et]|] gp]; cbn in Hn, Hp; subst gn gp;
    unfold kind_toks, key_toks, given_all; cbn [g_name g_target g_parent app];
    rewrite !given_none, <- ?(assoc_L (++)); [by apply key_other|by apply key_none].
Qed.
Lemma key_target g r :
  span_given g -> g_parent g = None -> not_key r ->
  key "target" (given_all g ++ r) =
  match g_target g with Some (_, e) => Matched (e, r) | None => NoMatch end.
Proof.
  intros [Hn Hg] Hp Hr. destruct g as [gn [[ut et]|] gp]; cbn in Hn, Hp; subst gn gp;
    unfold given_all; cbn [g_name g_target g_parent];
    rewrite !given_none, <- ?(assoc_L (++)); [apply key_hit, Hg|by apply key_none].
Qed.

Definition not_braced (fields : option (list Tok)) : Prop :=
  match fields with Some [Group Brace _] => False | _ => True end.

Lemma enabled_step kind g ul l fields :
  span_given g -> g_parent g = None -> plain_expr ul l -> not_braced fields ->
  first_match enabled_rules (kind_toks kind ++ given_all g ++ name_toks ul fields) =
  Matched (Again (enabled_call (default (KindOf Kind.HINT) kind) (default ModulePath (snd <$> g_target g)) l
    (default [] fields))).
Proof.
  intros Hg Hp Hu Hf. pose proof (name_not_key ul l fields Hu) as Hk. destruct Hu as [Hu _].
  unfold enabled_rules. rewrite !rules_in_order, !bind_reads, !key_kind by done.
  assert (forall w e, key w (kind_toks None ++ given_all g ++ name_toks ul fields) =
    key w (given_all g ++ name_toks ul fields) /\ key w (kind_toks (Some e) ++ given_all g ++ name_toks ul fields) =
    if String.eqb "kind" w then Matched (e, given_all g ++ name_toks ul fields) else NoMatch) as Hw.
  { intros w e. split; [done|]. destruct (String.eqb_spec "kind" w) as [<-|Hw]; [apply key_frag|].
    apply key_frag_other. by apply String.eqb_neq. }
  destruct kind as [k|].
  - rewrite !(proj2 (Hw "target" k)). run_pat. rewrite !key_target by done.
    destruct g as [gn [[ut et]|] gp], Hg as [Hn Hg]; cbn in Hn, Hp; subst gn gp; cbn [g_target];
      [|change (given_all _ ++ ?r) with r]; unfold name_toks; destruct fields as [f|];
      rewrite ?app_nil_r, ?(arg_hit ul l), ?(arg_end ul l), ?(Hu f), ?(spells_end ul l) by done; try reflexivity.
    destruct f as [|[| | |[]|] [|t f]]; try reflexivity; done.
  - rewrite !(proj1 (Hw "target" (KindOf Kind.HINT))). run_pat. rewrite !key_target by done.
    change (kind_toks None ++ ?r) with r.
    destruct g as [gn [[ut et]|] gp], Hg as [Hn Hg]; cbn in Hn, Hp; subst gn gp; cbn [g_target];
      [|change (given_all _ ++ ?r) with r]; unfold name_toks; destruct fields as [f|];
      rewrite ?app_nil_r, ?(arg_hit ul l), ?(arg_end ul l), ?(Hu f), ?(spells_end ul l) by done; reflexivity.
Qed.

Lemma enabled_base_step k t l f :
  first_match enabled_rules (enabled_call k t l f) =
  Matched (Base {| en_kind := k; en_target := t; en_level := l; en_fields := f |}).
Proof.
  unfold enabled_rules, enabled_call. rewrite rules_in_order, bind_reads, key_frag. run_pat.
  rewrite key_frag, level_frag. reflexivity.
Qed.

Lemma enabled_expands kind g ul l fields :
  span_given g -> g_parent g = None -> plain_expr ul l -> not_braced fields ->
  enabled (kind_toks kind ++ given_all g ++ name_toks ul fields) =
  Matched {| en_kind := default (KindOf Kind.HINT) kind; en_target := default ModulePath (snd <$> g_target g);
             en_level := l; en_fields := default [] fields |}.
Proof.
  intros Hg Hp Hu Hf. unfold enabled.
  assert (forall fuel t, expand enabled_rules (S fuel) t =
    match first_match enabled_rules t with
    | Matched (Base b) => Matched b | Matched (Again t) => expand enabled_rules fuel t
    | NoMatch => NoMatch | Fatal => Fatal end) as Hs by done.
  by rewrite Hs, (enabled_step kind g ul l fields), Hs, enabled_base_step.
Qed.

(** C12: a call of [span!], or of the macro of a level, gives a span of that level with the
    name and the fields that were given, whether or not a comma follows a name without
    fields, the target that was given or else the module's path, and the parent that was
    given or else the current span; its callsite is declared with the same parts; and
    [enabled!], [span_enabled!] and [event_enabled!] ask about the same target and level
    with the same fields, unless these are one group in braces, for any kind, for a span and
    for an event. *)
Theorem span_macros_agree (lvl : Level.t) (g : Given) ul un n (fields : option (list Tok)) :
  g_name g = None -> all_ok g -> plain_expr ul (LevelOf lvl) -> plain_expr un n ->
  let sp := {| sp_target := default ModulePath (snd <$> g_target g); sp_parent := snd <$> g_parent g;
               sp_level := LevelOf lvl; sp_name := n; sp_fields := default [] fields |} in
  let rest := given_toks "target" (g_target g) ++ name_toks ul fields in
  let answer k := Matched {| en_kind := KindOf k; en_target := sp_target sp; en_level := sp_level sp;
                             en_fields := sp_fields sp |} in
  span (given_all g ++ ul ++ comma :: name_toks un fields) = Matched sp /\
  level_span lvl (given_all g ++ name_toks un fields) = Matched sp /\
  span_callsite sp =
    Matched {| cs_name := n; cs_kind := KindOf Kind.SPAN; cs_target := sp_target sp;
               cs_level := sp_level sp; cs_fields := sp_fields sp |} /\
  (not_braced fields ->
   enabled rest = answer Kind.HINT /\ span_enabled rest = answer Kind.SPAN /\
   event_enabled rest = answer Kind.EVENT).
Proof.
  intros Hn Hg Hl Hu sp rest answer. split_and!.
  - by apply span_expands.
  - unfold level_span. rewrite (level_span_calls lvl g un n fields) by done.
    pose proof (span_expands (passed (located g)) [Frag (LevelOf lvl)] (LevelOf lvl) [Frag n] n
      (Some (default [] fields)) (conj eq_refl (passed_ok _)) (plain_frag _) (plain_frag _)) as H.
    unfold span_call. rewrite passed_toks. unfold name_toks in H. cbn [app] in H. rewrite H.
    unfold sp. by destruct g as [gn [[]|] [[]|]].
  - apply callsite2_parts.
  - intros Hf.
    assert (forall k, enabled (kind_toks k ++ rest) =
      Matched {| en_kind := default (KindOf Kind.HINT) k; en_target := sp_target sp;
                 en_level := LevelOf lvl; en_fields := default [] fields |}) as H.
    { intros k. destruct Hg as (_ & Ht & _).
      pose proof (enabled_expands k (Build_Given None (g_target g) None) ul (LevelOf lvl) fields) as H.
      unfold given_all in H. cbn [g_name g_target g_parent] in H. rewrite !given_none in H.
      unfold rest. rewrite <- (assoc_L (++)) in H. rewrite given_none in H.
      by apply H. }
    split_and!; [apply (H None)|apply (H (Some (KindOf Kind.SPAN)))|apply (H (Some (KindOf Kind.EVENT)))].
Qed.
End calls.

(** [info_span!(parent: p, "work", a = 1)] *)
Definition example_span : Given := {| g_name := None; g_target := None; g_parent := g_parent example_given |}.
Definition example_level : list Tok := [Frag (LevelOf Level.INFO)].
Definition example_name : list Tok := [Lit "work"].

Lemma span_macros_agree_witness :
  plain_expr example_level (LevelOf Level.INFO) /\ plain_expr example_name (Source example_name) /\
  info_span (given_all example_span ++ name_toks example_name (Some [Ident "a"; Punct "="; Lit "1"])) =
    Matched {| sp_target := ModulePath; sp_parent := Some (Source [Ident "p"]); sp_level := LevelOf Level.INFO;
               sp_name := Source example_name; sp_fields := [Ident "a"; Punct "="; Lit "1"] |}.
Proof.
  assert (plain_expr example_level (LevelOf Level.INFO)) as Hl by (repeat split).
  assert (plain_expr example_name (Source example_name)) as Hu by (repeat split).
  assert (all_ok example_span) as Hg by (repeat split).
  split; [exact Hl|]. split; [exact Hu|].
  exact (proj1 (proj2 (span_macros_agree Level.INFO example_span example_level example_name
    (Source example_name) (Some [Ident "a"; Punct "="; Lit "1"]) eq_refl Hg Hl Hu))).
Defined.

Example example_record_all :
  record_all [Ident "span"; comma; Ident "a"; Punct "="; Punct "?"; Lit "1"; comma; Ident "b"] =
  Matched (Source [Ident "span"], [(NPath ["a"], VDebug (Source [Lit "1"])); (NPath ["b"], VValue (Path ["b"]))]).
Proof. vm_compute. reflexivity. Qed.

(** [enabled!] with a target wraps fields in braces in other braces, unlike [event!]: the
    question is then about one field, the message. *)
Example enabled_with_braces :
  let fields := [Group Brace [Ident "foo"; Punct "="; Lit "1"]] in
  let names := fun m => match m with
    | Matched l => match fieldset l with Matched ns => Some ns | _ => None end | _ => None end in
  names (match enabled (given_toks "target" (g_target example_given) ++ name_toks example_level (Some fields)) with
         | Matched b => Matched (en_fields b) | NoMatch => NoMatch | Fatal => Fatal end) = Some [NMessage] /\
  names (match event (given_toks "target" (g_target example_given) ++ name_toks example_level (Some fields)) with
         | Matched b => Matched (ev_fields b) | NoMatch => NoMatch | Fatal => Fatal end) = Some [NPath ["foo"]].
Proof. vm_compute. done. Qed.
