(* ===== verification/MacroCalls.v ===== *)
(** * MacroCalls: the recursion of the macros ends

    The macros call themselves and each other; that every call, with any tokens, comes to an
    end after a number of calls that is known before. *)

From S2P Require Import Prelude.
From S2P Require Import Str.
From S2P Require Import Levels.
From S2P Require Import Meta.
From S2P Require Import MacroFields.
From S2P Require Import Macros.
From S2P Require Import SpanMacros.

Local Open Scope string_scope.
Local Open Scope list_scope.

Section ends.
Context `{X : ExprParser} `{XL : !ExprLaws}.

(** At most [n] calls are made. *)
Fixpoint ends {B} (rules : list (Pat (Next B))) (n : nat) (l : list Tok) : Prop :=
  match n with
  | O => False
  | S n =>
      match first_match rules l with
      | Matched (Again a) => ends rules n a
      | _ => True
      end
  end.

Lemma ends_again {B} (rules : list (Pat (Next B))) n l :
  (forall a, first_match rules l = Matched (Again a) -> ends rules n a) -> ends rules (S n) l.
Proof. intros H. cbn [ends]. destruct (first_match rules l) as [[b|a]| |]; auto. Qed.

Lemma ends_le {B} (rules : list (Pat (Next B))) n m l :
  (n <= m)%nat -> ends rules n l -> ends rules m l.
Proof.
  revert m l. induction n as [|n IH]; [done|]. intros m l Hm. destruct m as [|m]; [lia|]. cbn [ends].
  destruct (first_match rules l) as [[b|a]| |]; auto. apply IH. lia.
Qed.

(** The fuel that is given for so many calls does not matter. *)
Lemma ends_expand {B} (rules : list (Pat (Next B))) n l :
  ends rules n l -> forall fuel, (n <= fuel)%nat -> expand rules fuel l = expand rules n l.
Proof.
  revert l. induction n as [|n IH]; [done|]. intros l Hl fuel Hf. destruct fuel as [|fuel]; [lia|].
  cbn [ends expand] in *. destruct (first_match rules l) as [[b|a]| |]; auto. apply IH; [done|lia].
Qed.
Lemma ends_base {B} (rules : list (Pat (Next B))) l b :
  first_match rules l = Matched (Base b) -> ends rules 1 l.
Proof. intros H. cbn [ends]. by rewrite H. Qed.

(** What the rules of a macro call next. *)
Definition calls {B} (P : list Tok -> Prop) (p : Pat (Next B)) : Prop :=
  forall l a r, p l = Matched (Again a, r) -> P a.

Lemma first_match_calls {B} P (rules : list (Pat (Next B))) l a :
  Forall (calls P) rules -> first_match rules l = Matched (Again a) -> P a.
Proof.
  induction 1 as [|p rules Hp _ IH]; [done|]. rewrite first_match_cons.
  destruct (p l) as [[b [|t r]]| |] eqn:Hl; [|exact IH..|done]. intros [= ->]. by eapply Hp.
Qed.

Lemma calls_bind {A B} P (N : Pat A) (T : A -> Pat (Next B)) :
  (forall k l r, N l = Matched (k, r) -> calls P (T k)) -> calls P (k ← N; T k).
Proof.
  intros H l a r. unfold mbind, Pat_bind. destruct (N l) as [[k r']| |] eqn:HN; [|done..].
  intros Ha. by eapply H.
Qed.
Lemma calls_base {B} P (b : B) : calls P (mret (Base b)).
Proof. done. Qed.
Lemma calls_again {B} (P : list Tok -> Prop) (a : list Tok) : P a -> calls (B:=B) P (mret (Again a)).
Proof. intros H l a' r [= <- _]. exact H. Qed.

Lemma prefix_has n t p l q r :
  prefix n t p l = Matched (q, r) -> isSome (p_name q) = n /\ isSome (p_target q) = t.
Proof.
  unfold prefix, mbind, Pat_bind.
  assert (forall b w l o r, opt_key b w l = Matched (o, r) -> isSome o = b) as Ho.
  { intros b w l' o r'. unfold opt_key. destruct b; [|by intros [= <- _]]. unfold mbind, Pat_bind.
    destruct (key w l') as [[]| |]; [|done..]. by intros [= <- _]. }
  destruct (opt_key n "name" l) as [[o r1]| |] eqn:H1; [|done..]. apply Ho in H1.
  destruct (opt_key t "target" r1) as [[o2 r2]| |] eqn:H2; [|done..]. apply Ho in H2.
  destruct (opt_key p "parent" r2) as [[o3 r3]| |]; [|done..]. by intros [= <- _].
Qed.

(** ** [event!] *)

(** A call with a target or a name, and the fields in braces. *)
Definition event_call_of (a : list Tok) : Prop :=
  exists q lvl f, isSome (p_name q) || isSome (p_target q) = true /\ a = event_call q lvl f.
(** A call with one name without a value, and a comma. *)
Definition name_call (a : list Tok) : Prop :=
  exists lvl f k, a = Frag lvl :: comma :: f ++ [comma] /\
    (path f = Matched (k, []) \/
     exists s f', (s = "?" \/ s = "%") /\ f = Punct s :: f' /\ path f' = Matched (k, [])).

Lemma event_call_ends a : event_call_of a -> ends event_rules 1 a.
Proof.
  intros (q & lvl & f & Hq & ->). eapply ends_base, (event_step q lvl (FieldList f) Hq I).
Qed.

Ltac call :=
  lazymatch goal with
  | |- calls _ (mbind _ _) => apply calls_bind; intros; cbv beta; call
  | |- calls _ (mret (Base _)) => apply calls_base
  | |- calls _ (mret (Again _)) => apply calls_again
  end.

Lemma group_calls n t p :
  n || t = true -> Forall (calls event_call_of) (event_group n t p).
Proof.
  intros Hn. unfold event_group. repeat (apply Forall_cons_2; [call|]); try apply Forall_nil_2.
  all: match goal with H : prefix _ _ _ _ = Matched _ |- _ => apply prefix_has in H as [? ?] end.
  all: eexists _, _, _; split; [|reflexivity]; congruence.
Qed.

Lemma parent_calls : Forall (calls event_call_of) event_parent.
Proof.
  unfold event_parent. repeat (apply Forall_cons_2; [call|]); try apply Forall_nil_2;
  by (eexists _, _, _; split; [|reflexivity]).
Qed.

Lemma whole_inv {A} (p : Pat A) l f r :
  whole p l = Matched (f, r) -> f = l /\ exists a, p l = Matched (a, []).
Proof.
  unfold whole. destruct (p l) as [[a [|]]| |]; try done. intros [= <- _]. eauto.
Qed.
Lemma sigil_inv {A} s (p : Pat A) l f r :
  sigil s p l = Matched (f, r) -> exists l' a, f = Punct s :: l' /\ p l' = Matched (a, []).
Proof.
  unfold sigil. intros [-> [a Ha]]%whole_inv. unfold mbind, Pat_bind in Ha.
  destruct l as [|[|c| | |] l]; try done. cbn [punct] in Ha.
  destruct (String.eqb_spec c s) as [->|]; [|done]. eauto.
Qed.

Lemma plain_calls : Forall (calls (fun a => event_call_of a \/ name_call a)) event_plain.
Proof.
  unfold event_plain. repeat (apply Forall_cons_2; [call|]); try apply Forall_nil_2; try (left; by (eexists _, _, _; split; [|reflexivity])); right.
  all: match goal with
    | H : sigil _ path_only _ = _ |- _ =>
        apply sigil_inv in H as (l' & a & -> & Ha); apply whole_inv in Ha as [_ [ks Hk]];
        eexists _, _, ks; split; [reflexivity|right; eauto 10]
    | H : path_only _ = _ |- _ =>
        apply whole_inv in H as [-> [k' Hk]]; eexists _, _, k'; split; [reflexivity|by left]
    end.
Qed.

Lemma event_calls l a :
  first_match event_rules l = Matched (Again a) -> event_call_of a \/ name_call a.
Proof.
  apply (first_match_calls (fun a => event_call_of a \/ name_call a)). unfold event_rules.
  assert (forall rs : list (Pat (Next EventBody)), Forall (calls event_call_of) rs ->
    Forall (calls (fun a => event_call_of a \/ name_call a)) rs) as H.
  { intros rs Hrs. eapply Forall_impl; [exact Hrs|]. intros p Hp l' a' r' Ha. left. by eapply Hp. }
  rewrite !Forall_app. split_and!; try (apply H, group_calls; done); [apply H, parent_calls|apply plain_calls].
Qed.

(** A name with a comma is passed on with the fields in braces. *)
Lemma path_comma_end f k : path f = Matched (k, []) -> path (f ++ [comma]) = Matched (k, [comma]).
Proof. intros H. by rewrite stable_path, H. Qed.

Lemma event_parent_miss l more :
  key "parent" l = NoMatch -> first_match (event_parent ++ more) l = first_match more l.
Proof. intros H. unfold event_parent. cbn [app]. by rewrite !rules_in_order, !bind_reads, !H. Qed.

Lemma name_call_next a : name_call a -> exists b, first_match event_rules a = Matched (Again b) /\ event_call_of b.
Proof.
  intros (lvl & f & k & -> & Hf). set (l := Frag lvl :: comma :: f ++ [comma]).
  exists (event_call (in_module None) lvl (f ++ [comma])). split; [|by (eexists _, _, _; split; [|reflexivity])].
  unfold event_rules, event_name_target_parent, event_name_target, event_target_parent, event_name_parent,
    event_name, event_target.
  rewrite !event_group_miss, event_parent_miss by done. unfold event_plain, l.
  rewrite !rules_in_order, !bind_reads, !level_frag.
  destruct Hf as [Hf|(s & f' & Hs & -> & Hf)].
  - apply path_comma_end in Hf as Hc. destruct f as [|[] f]; try done. cbn [app] in *.
    destruct (path_forms _ _ _ Hc) as (Fe & Fc & Fo). rewrite !bind_reads, Fe, Fc. reflexivity.
  - apply path_comma_end in Hf as Hc. cbn [app].
    destruct (path_forms _ _ _ Hc) as (Fe & Fc & Fo).
    destruct Hs as [-> | ->]; rewrite !bind_reads, !sigil_same, Fc; reflexivity.
Qed.

Lemma event_ends l : ends event_rules 3 l.
Proof.
  apply ends_again. intros a [Ha|Ha]%event_calls.
  - apply (ends_le _ 1); [lia|]. by apply event_call_ends.
  - apply ends_again. intros b Hb. destruct (name_call_next a Ha) as (b' & Hb' & Hc).
    apply event_call_ends. congruence.
Qed.

(** ** The other macros *)

Lemma calls_end {B} P (rules : list (Pat (Next B))) l :
  Forall (calls P) rules -> (forall a, P a -> exists b, first_match rules a = Matched (Base b)) ->
  ends rules 2 l.
Proof.
  intros Hr HP. apply ends_again. intros a Ha. eapply first_match_calls in Ha; [|done].
  destruct (HP a Ha) as [b Hb]. by eapply ends_base.
Qed.

Lemma span_ends l : ends span_rules 2 l.
Proof.
  apply (calls_end (fun a => exists q lvl n f,
    p_name q = None /\ isSome (p_target q) = true /\ a = span_call q lvl n f)).
  - unfold span_rules. repeat (apply Forall_cons_2; [call|]); try apply Forall_nil_2.
    all: try match goal with H : prefix _ _ _ _ = Matched _ |- _ => apply prefix_has in H as [Hn Ht] end.
    all: eexists _, _, _, _; split_and!; [..|reflexivity]; try done.
    all: by destruct (p_name _).
  - intros a (q & lvl & n & f & Hn & Ht & ->). exists (span_body q lvl n f).
    assert (span_given (passed q)) as Hg.
    { split; [destruct q as [? ? ?]; cbn in *; by subst|apply passed_ok]. }
    pose proof (span_step (passed q) [Frag lvl] lvl [Frag n] n (Some f) Hg (plain_frag lvl) (plain_frag n)) as H.
    unfold span_call. rewrite passed_toks. unfold name_toks in H. cbn [app] in H.
    rewrite H, passed_prefix. by destruct q as [? [] ?].
Qed.

Lemma level_span_ends lvl l : ends (level_span_rules lvl) 2 l.
Proof.
  apply (calls_end (fun a => exists q n, p_name q = None /\ a = again q n)).
  - unfold level_span_rules. repeat (apply Forall_cons_2; [call|]); try apply Forall_nil_2.
    all: try match goal with H : prefix _ _ _ _ = Matched _ |- _ => apply prefix_has in H as [Hn Ht] end.
    all: eexists _, _; split; [..|reflexivity]; try done.
    all: by destruct (p_name _).
  - intros a (q & n & Hn & ->). eexists. unfold again. rewrite passed_toks.
    assert (span_given (passed q)) as Hg.
    { split; [destruct q as [? ? ?]; cbn in *; by subst|apply passed_ok]. }
    exact (level_span_step lvl (passed q) [Frag n] n (Some []) Hg (plain_frag n)).
Qed.

Lemma enabled_ends l : ends enabled_rules 2 l.
Proof.
  apply (calls_end (fun a => exists k t lvl f, a = enabled_call k t lvl f)).
  - unfold enabled_rules. repeat (apply Forall_cons_2; [call|]); try apply Forall_nil_2; by eexists _, _, _, _.
  - intros a (k & t & lvl & f & ->). eexists. apply enabled_base_step.
Qed.

Lemma callsite2_ends l : ends callsite2_rules 2 l.
Proof.
  apply (calls_end (fun a => exists n k t lvl f, a = key_toks "name" (Some n) ++ key_toks "kind" (Some k) ++
    key_toks "target" (Some t) ++ key_toks "level" (Some lvl) ++ fields_toks f)).
  - unfold callsite2_rules. repeat (apply Forall_cons_2; [call|]); try apply Forall_nil_2; by eexists _, _, _, _, _.
  - intros a (n & k & t & lvl & f & ->). eexists. apply callsite2_step.
Qed.

(** C13: the expansion of the macros ends, whatever their tokens: [event!] comes to a rule
    with a body, or to no rule, after at most three calls, [span!], the span macros of a
    level, [enabled!] and [callsite2!] after two; and the internal rules of [fieldset!],
    [valueset_all!] and [valueset!] are called at most as often as there are tokens, and
    twice more.  So no call meets the compiler's limit on recursion because of its form,
    and with the fuel of the definitions, or any more, the expansion is the same. *)
Theorem macros_terminate (l : list Tok) :
  (ends event_rules 3 l /\ forall fuel, (3 <= fuel)%nat -> expand event_rules fuel l = event l) /\
  (ends span_rules 2 l /\ forall fuel, (2 <= fuel)%nat -> expand span_rules fuel l = span l) /\
  (forall lvl, ends (level_span_rules lvl) 2 l) /\
  (ends enabled_rules 2 l /\ forall fuel, (2 <= fuel)%nat -> expand enabled_rules fuel l = enabled l) /\
  (ends callsite2_rules 2 l /\ forall fuel, (2 <= fuel)%nat -> expand callsite2_rules fuel l = callsite2 l) /\
  (ends_rules fieldset_rules (2 + length l) [] (l ++ [comma]) /\
   forall fuel, (2 + length l <= fuel)%nat -> expand_rules fieldset_rules fuel [] (l ++ [comma]) = fieldset l) /\
  ends_rules valueset_all_rules (2 + length l) [] l /\ ends_rules valueset_rules (2 + length l) [] l.
Proof.
  split_and!; intros.
  - apply event_ends.
  - unfold event. by rewrite (ends_expand _ _ l (event_ends l) fuel), (ends_expand _ _ l (event_ends l) 4) by lia.
  - apply span_ends.
  - unfold span. by rewrite (ends_expand _ _ l (span_ends l) fuel), (ends_expand _ _ l (span_ends l) 3) by lia.
  - apply level_span_ends.
  - apply enabled_ends.
  - by apply (ends_expand _ 2 l (enabled_ends l)).
  - apply callsite2_ends.
  - by apply (ends_expand _ 2 l (callsite2_ends l)).
  - apply (fieldset_ends (1 + length l)). lia.
  - unfold fieldset. destruct fuel as [|n]; [lia|].
    rewrite fieldset_expands, (fieldset_expands (1 + length l)), (field_list_fuel n (1 + length l)) by lia. done.
  - apply (valueset_all_ends (1 + length l)). lia.
  - apply (valueset_ends (1 + length l)). lia.
Qed.
End ends.

Lemma macros_terminate_witness :
  ends event_rules 3 [Frag (LevelOf Level.INFO); comma; Ident "a"] /\
  ~ ends event_rules 2 [Frag (LevelOf Level.INFO); comma; Ident "a"].
Proof.
  split; [|vm_compute; tauto].
  exact (proj1 (proj1 (macros_terminate [Frag (LevelOf Level.INFO); comma; Ident "a"]))).
Defined.
