(* ===== verification/JournalFormat.v ===== *)
(** * JournalFormat: the encoding of journal entries, [tracing-journald/src/lib.rs]

    The functions that append a field to a buffer, and the fields that journald reads from
    it.  A buffer is a string of bytes. *)

From S2P Require Import Prelude.
From S2P Require Import Str.
From S2P Require Import Levels.
From S2P Require Import Fields.
From S2P Require Import Meta.
From S2P Require Import Format.
From Stdlib Require Import Ascii.
From stdpp Require Import pretty.

Local Open Scope string_scope.

Definition LF : ascii := ascii_of_nat 10.
(** [buf.push(b'\n')] *)
Abbreviation newline := (String LF EmptyString).

(** ** [impl Iterator for Bytes], the adaptors that are used *)

Fixpoint map_bytes (f : ascii -> ascii) (s : string) : string :=
  match s with EmptyString => "" | String c s => String (f c) (map_bytes f s) end.
Fixpoint filter_bytes (f : ascii -> bool) (s : string) : string :=
  match s with
  | EmptyString => ""
  | String c s => if f c then String c (filter_bytes f s) else filter_bytes f s
  end.
Fixpoint skip_while (f : ascii -> bool) (s : string) : string :=
  match s with
  | EmptyString => ""
  | String c s' => if f c then skip_while f s' else s
  end.

Definition between (lo hi : Z) (c : ascii) : bool := (lo <=? byte_of c)%Z && (byte_of c <=? hi)%Z.
Definition is_ascii_alphanumeric (c : ascii) : bool :=
  between 48 57 c || between 65 90 c || between 97 122 c.
Definition to_ascii_uppercase (c : ascii) : ascii :=
  if between 97 122 c then ascii_of_N (Z.to_N (byte_of c - 32)) else c.

(** [sanitize_name] *)
Definition sanitize_name (name : string) (buf : string) : string :=
  buf ++ map_bytes to_ascii_uppercase
    (filter_bytes (fun c => Ascii.eqb c "_"%char || is_ascii_alphanumeric c)
       (skip_while (fun c => Ascii.eqb c "_"%char)
          (map_bytes (fun c => if Ascii.eqb c "."%char then "_"%char else c) name))).

(** [u64::to_le_bytes] *)
Fixpoint le_bytes (k : nat) (n : Z) : string :=
  match k with
  | O => ""
  | S k => String (ascii_of_N (Z.to_N (n mod 256))) (le_bytes k (n / 256))
  end.
Definition to_le_bytes (n : Z) : string := le_bytes 8 n.

Definition len (s : string) : Z := Z.of_nat (str_len s).
(** [s.len() as u64] *)
Definition len_u64 (n : Z) : Z := n mod 2 ^ 64.

(** [buf[start..][..new.len()].copy_from_slice(new)] *)
Definition copy_from_slice (start : nat) (new : string) (buf : string) : string :=
  str_take start buf ++ new ++ str_drop (start + str_len new) buf.

Definition put_value (buf : string) (value : string) : string :=
  ((buf ++ to_le_bytes (len_u64 (len value))) ++ value) ++ newline.

Definition put_field_wellformed (buf : string) (name value : string) : string :=
  put_value ((buf ++ name) ++ newline) value.

(** [write_value] is given the buffer and returns it. *)
Definition put_field_length_encoded (buf : string) (name : string) (write_value : string -> string) : string :=
  let buf := sanitize_name name buf in
  let buf := buf ++ newline in
  let buf := buf ++ bytes [0; 0; 0; 0; 0; 0; 0; 0] in
  let start := str_len buf in
  let buf := write_value buf in
  let end_ := str_len buf in
  let buf := copy_from_slice (start - 8) (to_le_bytes (len_u64 (Z.of_nat end_ - Z.of_nat start))) buf in
  buf ++ newline.

Definition put_prefix_opt (buf : string) (prefix : option string) : string :=
  match prefix with Some prefix => buf ++ prefix | None => buf end.

Definition put_metadata (buf : string) (meta : Metadata) (prefix : option string) : string :=
  let buf := put_prefix_opt buf prefix in
  let buf := put_field_wellformed buf "TARGET" (Metadata.target meta) in
  let buf := match Metadata.file meta with
             | Some file => put_field_wellformed (put_prefix_opt buf prefix) "CODE_FILE" file
             | None => buf
             end in
  match Metadata.line meta with
  | Some line => put_prefix_opt buf prefix ++ "CODE_LINE=" ++ pretty line ++ newline
  | None => buf
  end.

(** ** [enum Priority], [struct PriorityMappings] *)

Inductive Priority :=
  | Emergency | Alert | Critical | Error | Warning | Notice | Informational | Debug.
(** [as u8] *)
Definition priority_u8 (p : Priority) : ascii :=
  match p with
  | Emergency => "0" | Alert => "1" | Critical => "2" | Error => "3"
  | Warning => "4" | Notice => "5" | Informational => "6" | Debug => "7"
  end%char.

Record PriorityMappings := {
  pm_error : Priority; pm_warn : Priority; pm_info : Priority; pm_debug : Priority; pm_trace : Priority;
}.
Definition mappings_new : PriorityMappings := {|
  pm_error := Error; pm_warn := Warning; pm_info := Notice; pm_debug := Informational; pm_trace := Debug;
|}.
Definition mappings_default : PriorityMappings := mappings_new.

Definition priority_of (mappings : PriorityMappings) (meta : Metadata) : Priority :=
  match Level.inner (Metadata.level meta) with
  | Level.Error => pm_error mappings
  | Level.Warn => pm_warn mappings
  | Level.Info => pm_info mappings
  | Level.Debug => pm_debug mappings
  | Level.Trace => pm_trace mappings
  end.
Definition put_priority (mappings : PriorityMappings) (buf : string) (meta : Metadata) : string :=
  put_field_wellformed buf "PRIORITY" (String (priority_u8 (priority_of mappings meta)) EmptyString).

(** ** [SpanVisitor], [EventVisitor] *)

Section visitors.
Context {C : FmtCrates}.
Variable field_prefix : option string.

Definition put_span_prefix (buf : string) : string :=
  match field_prefix with Some prefix => buf ++ prefix ++ "_" | None => buf end.
(** The name is asked for only when there is a prefix. *)
Definition put_prefix (field : Field) (buf : string) : outcome string :=
  match field_prefix with
  | Some prefix =>
      name ← Field.name field;
      Done (if negb (name =? "message") then buf ++ prefix ++ "_" else buf)
  | None => Done buf
  end.

(** [write!(buf, .., value)] *)
Definition write_debug (value : DebugValue) (buf : string) : string := buf ++ String.concat "" (debug_fmt value).

Definition put_field (field : Field) (write_value : string -> string) (buf : string) : outcome string :=
  name ← Field.name field; Done (put_field_length_encoded buf name write_value).

Definition span_record (field : Field) (write_value : string -> string) (st : outcome string) : outcome string :=
  buf ← st; put_field field write_value (put_span_prefix buf).
Definition event_record (field : Field) (write_value : string -> string) (st : outcome string) : outcome string :=
  buf ← st; buf ← put_prefix field buf; put_field field write_value buf.

(** Only [record_str] and [record_debug] are implemented. *)
Definition journal_visit (record : Field -> (string -> string) -> outcome string -> outcome string) :
    Visit (outcome string) :=
  let default := default_visit (fun f v => record f (write_debug v)) in {|
  record_f64 := record_f64 default;
  record_i64 := record_i64 default;
  record_u64 := record_u64 default;
  record_i128 := record_i128 default;
  record_u128 := record_u128 default;
  record_bool := record_bool default;
  Fields.record_str := fun f s => record f (fun buf => buf ++ s);
  record_bytes := record_bytes default;
  Fields.record_error := Fields.record_error default;
  Fields.record_debug := Fields.record_debug default;
|}.
Definition span_visitor : Visit (outcome string) := journal_visit span_record.
Definition event_visitor : Visit (outcome string) := journal_visit event_record.
End visitors.

(** ** What journald reads

    The native protocol of journald: a field is a line [NAME=value], or a line with the
    name, the length of the value in 64 bits, least significant byte first, and the value
    with a line feed.  An empty line would end the entry. *)

(** The text before the first [c] and the text after it. *)
Fixpoint cut (c : ascii) (s : string) : option (string * string) :=
  match s with
  | EmptyString => None
  | String a s =>
      if Ascii.eqb a c then Some ("", s)
      else match cut c s with Some (x, y) => Some (String a x, y) | None => None end
  end.

Fixpoint le_value (s : string) : Z :=
  match s with EmptyString => 0 | String a s => byte_of a + 256 * le_value s end.

Fixpoint read_fields (fuel : nat) (s : string) : option (list (string * string)) :=
  match fuel with
  | O => None
  | S fuel =>
      match s with
      | EmptyString => Some []
      | _ =>
          '(line, rest) ← cut LF s;
          match cut "="%char line with
          | Some (name, value) => l ← read_fields fuel rest; Some ((name, value) :: l)
          | None =>
              if (line =? "") then None
              else
                let n := Z.to_nat (le_value (str_take 8 rest)) in
                let data := str_drop 8 rest in
                if (str_len data <=? n)%nat then None
                else match str_drop n data with
                     | String c rest =>
                         if Ascii.eqb c LF
                         then l ← read_fields fuel rest; Some ((line, str_take n data) :: l)
                         else None
                     | EmptyString => None
                     end
          end
      end
  end.
(** Every field takes a byte at least. *)
Definition journal_fields (s : string) : option (list (string * string)) := read_fields (S (str_len s)) s.

(** The names that journald takes from a client; it ignores fields with other names. *)
Definition valid_char (c : ascii) : bool := Ascii.eqb c "_"%char || between 65 90 c || between 48 57 c.
Fixpoint all_bytes (f : ascii -> bool) (s : string) : bool :=
  match s with EmptyString => true | String c s => f c && all_bytes f s end.
Definition valid_name (s : string) : bool :=
  match s with
  | EmptyString => false
  | String c _ => between 65 90 c && all_bytes valid_char s && (str_len s <=? 64)%nat
  end.

(** ** Lemmas *)

Lemma ascii_of_byte n : (0 <= n < 256)%Z -> byte_of (ascii_of_N (Z.to_N n)) = n.
Proof. intros H. unfold byte_of. rewrite N_ascii_embedding; lia. Qed.

Lemma str_len_le_bytes k n : str_len (le_bytes k n) = k.
Proof. revert n. induction k as [|k IH]; intros n; [done|]. cbn. by rewrite IH. Qed.

Lemma le_value_bytes k n : (0 <= n < 256 ^ Z.of_nat k)%Z -> le_value (le_bytes k n) = n.
Proof.
  revert n. induction k as [|k IH]; intros n Hn.
  - change (256 ^ Z.of_nat 0)%Z with 1%Z in Hn. cbn. lia.
  - cbn [le_bytes le_value]. rewrite ascii_of_byte by (apply Z.mod_pos_bound; lia).
    rewrite IH; [symmetry; rewrite Z.add_comm; apply Z.div_mod; lia|].
    rewrite Nat2Z.inj_succ, Z.pow_succ_r in Hn by lia.
    split; [apply Z.div_pos; lia|]. apply Z.div_lt_upper_bound; lia.
Qed.

Lemma cut_none c s : no_char c s = true -> cut c s = None.
Proof.
  induction s as [|a s IH]; [done|]. cbn. intros [Ha Hs]%andb_true_iff.
  apply negb_true_iff in Ha. by rewrite Ha, IH.
Qed.
Lemma cut_app c s t : no_char c s = true -> cut c (s ++ String c t) = Some (s, t).
Proof.
  induction s as [|a s IH]; intros H.
  - change (cut c (String c t) = Some ("", t)). cbn. by rewrite Ascii.eqb_refl.
  - cbn in H. apply andb_true_iff in H as [Ha Hs]. apply negb_true_iff in Ha.
    change (String a s ++ String c t) with (String a (s ++ String c t)). cbn [cut]. by rewrite Ha, IH.
Qed.

Lemma take_le n x : str_take 8 (to_le_bytes n ++ x) = to_le_bytes n.
Proof. exact (str_take_app (to_le_bytes n) x). Qed.
Lemma drop_le n x : str_drop 8 (to_le_bytes n ++ x) = x.
Proof. exact (str_drop_app (to_le_bytes n) x). Qed.

(** [s] is read as the fields [es], whatever comes after it. *)
Definition encodes (es : list (string * string)) (s : string) : Prop :=
  (length es <= str_len s)%nat /\
  forall fuel rest, read_fields (length es + fuel) (s ++ rest) =
    match read_fields fuel rest with Some l => Some (es ++ l)%list | None => None end.

Lemma encodes_nil : encodes [] "".
Proof. split; [done|]. intros fuel rest. change ("" ++ rest) with rest. cbn [length Nat.add app].
  by destruct (read_fields fuel rest).
Qed.

Lemma encodes_app es es' s s' : encodes es s -> encodes es' s' -> encodes (es ++ es')%list (s ++ s').
Proof.
  intros [Hl H] [Hl' H']. split; [rewrite length_app, str_len_app; lia|]. intros fuel rest.
  rewrite length_app, append_assoc, <- Nat.add_assoc, H, H'.
  destruct (read_fields fuel rest); [|done]. by rewrite (assoc_L (++)%list).
Qed.

Lemma encodes_read es s : encodes es s -> journal_fields s = Some es.
Proof.
  intros [Hl H]. unfold journal_fields. specialize (H (S (str_len s) - length es)%nat "").
  rewrite append_nil_r in H. replace (length es + (S (str_len s) - length es))%nat with (S (str_len s)) in H by lia.
  rewrite H. replace (S (str_len s) - length es)%nat with (S (str_len s - length es)) by lia.
  cbn. by rewrite app_nil_r.
Qed.

(** A name that does not end its line. *)
Definition line_name (s : string) : Prop := s <> "" /\ no_char LF s = true /\ no_char "="%char s = true.

Lemma encodes_text name value :
  no_char LF name = true -> no_char "="%char name = true -> no_char LF value = true ->
  encodes [(name, value)] (name ++ "=" ++ value ++ newline).
Proof.
  intros Hn He Hv. split; [rewrite !str_len_app; cbn; lia|]. intros fuel rest.
  change (length [(name, value)] + fuel)%nat with (S fuel).
  assert ((name ++ "=" ++ value ++ newline) ++ rest = (name ++ "=" ++ value) ++ String LF rest) as Happ.
  { rewrite !append_assoc. done. }
  rewrite Happ. cbn [read_fields]. rewrite (cut_app LF) by (rewrite !no_char_app, Hn, Hv; done).
  cbn [mbind option_bind]. change ("=" ++ value) with (String "="%char value). rewrite (cut_app "="%char) by done.
  destruct name; cbn [String.append]; done.
Qed.

Lemma encodes_length name value :
  line_name name -> (len value < 2 ^ 64)%Z ->
  encodes [(name, value)] (name ++ newline ++ to_le_bytes (len value) ++ value ++ newline).
Proof.
  intros (Hne & Hn & He) Hv. split; [rewrite !str_len_app; cbn; lia|]. intros fuel rest.
  change (length [(name, value)] + fuel)%nat with (S fuel).
  assert ((name ++ newline ++ to_le_bytes (len value) ++ value ++ newline) ++ rest =
    name ++ String LF (to_le_bytes (len value) ++ value ++ String LF rest)) as ->.
  { rewrite !append_assoc. done. }
  cbn [read_fields]. rewrite (cut_app LF) by done. cbn [mbind option_bind]. rewrite (cut_none "="%char) by done.
  assert ((name =? "") = false) as -> by by apply String.eqb_neq.
  rewrite take_le, drop_le. unfold to_le_bytes.
  rewrite le_value_bytes by (unfold len in *; change (256 ^ Z.of_nat 8)%Z with (2 ^ 64)%Z; lia).
  unfold len. rewrite Nat2Z.id.
  assert ((str_len (value ++ String LF rest) <=? str_len value)%nat = false) as ->.
  { apply Nat.leb_gt. rewrite str_len_app. cbn. lia. }
  rewrite str_drop_app, str_take_app, Ascii.eqb_refl. destruct name; [done|]. by destruct (read_fields fuel rest).
Qed.

Lemma put_value_eq buf value :
  (len value < 2 ^ 64)%Z -> put_value buf value = buf ++ to_le_bytes (len value) ++ value ++ newline.
Proof.
  intros Hv. unfold put_value, len_u64. rewrite Z.mod_small by (unfold len in *; lia).
  by rewrite !append_assoc.
Qed.

Lemma encodes_wellformed buf name value :
  line_name name -> (len value < 2 ^ 64)%Z ->
  exists s, put_field_wellformed buf name value = buf ++ s /\ encodes [(name, value)] s.
Proof.
  intros Hn Hv. eexists. split; [|by apply encodes_length]. unfold put_field_wellformed.
  rewrite put_value_eq by done. by rewrite !append_assoc.
Qed.

(** The name that a field gets. *)
Definition sanitized (name : string) : string := sanitize_name name "".
Lemma sanitize_eq name buf : sanitize_name name buf = buf ++ sanitized name.
Proof. done. Qed.

Lemma put_length_eq buf name value :
  (len value < 2 ^ 64)%Z ->
  put_field_length_encoded buf name (fun b => b ++ value) =
  buf ++ sanitized name ++ newline ++ to_le_bytes (len value) ++ value ++ newline.
Proof.
  intros Hv. unfold put_field_length_encoded. rewrite sanitize_eq.
  set (b := (buf ++ sanitized name) ++ newline). set (z := bytes _).
  assert (str_len ((b ++ z) ++ value) = str_len b + 8 + str_len value)%nat as -> by by rewrite !str_len_app.
  assert (str_len (b ++ z) = str_len b + 8)%nat as -> by by rewrite str_len_app.
  unfold copy_from_slice, len_u64.
  replace (Z.of_nat (str_len b + 8 + str_len value) - Z.of_nat (str_len b + 8))%Z with (len value) by (unfold len; lia).
  rewrite Z.mod_small by (unfold len in *; lia).
  replace (str_len b + 8 - 8)%nat with (str_len b) by lia.
  replace (str_len b + str_len (to_le_bytes (len value)))%nat with (str_len (b ++ z)) by by rewrite str_len_app.
  rewrite str_drop_app, (append_assoc b z), str_take_app. unfold b. by rewrite !append_assoc.
Qed.

Lemma no_char_map c f s : (forall a, Ascii.eqb (f a) c = false) -> no_char c (map_bytes f s) = true.
Proof. intros H. induction s as [|a s IH]; [done|]. cbn. by rewrite H, IH. Qed.

Lemma upper_valid c : Ascii.eqb c "_"%char || is_ascii_alphanumeric c = true -> valid_char (to_ascii_uppercase c) = true.
Proof. destruct c as [[] [] [] [] [] [] [] []]; vm_compute; congruence. Qed.
Lemma valid_in_line c : valid_char c = true -> Ascii.eqb c LF = false /\ Ascii.eqb c "="%char = false.
Proof. destruct c as [[] [] [] [] [] [] [] []]; vm_compute; auto. Qed.

Lemma sanitized_valid name : all_bytes valid_char (sanitized name) = true.
Proof.
  unfold sanitized, sanitize_name. change ("" ++ ?x) with x.
  generalize (skip_while (fun c => Ascii.eqb c "_"%char)
    (map_bytes (fun c => if Ascii.eqb c "."%char then "_"%char else c) name)).
  intros s. induction s as [|c s IH]; [done|]. cbn [filter_bytes].
  destruct (Ascii.eqb c "_"%char || is_ascii_alphanumeric c) eqn:Hc; [|done].
  cbn [map_bytes all_bytes]. by rewrite upper_valid, IH.
Qed.
Lemma valid_no_char s : all_bytes valid_char s = true -> no_char LF s = true /\ no_char "="%char s = true.
Proof.
  induction s as [|c s IH]; [done|]. cbn. intros [[-> ->]%valid_in_line Hs]%andb_true_iff. by apply IH in Hs as [-> ->].
Qed.
Lemma all_bytes_app f s t : all_bytes f (s ++ t) = all_bytes f s && all_bytes f t.
Proof.
  induction s as [|c s IH]; [done|]. change (String c s ++ t) with (String c (s ++ t)). cbn.
  by rewrite IH, andb_assoc.
Qed.

(** ** The fields of a value set *)

Section fields.
Context {C : FmtCrates}.
Variable field_prefix : option string.

(** The text of a value; a value that is not there has none. *)
Fixpoint value_text (v : Value) : option string :=
  match v with
  | VStr s => Some s
  | VF64 v => Some (String.concat "" (debug_fmt (DebugF64 v)))
  | VI64 v | VU64 v | VI128 v | VU128 v => Some (String.concat "" (debug_fmt (DebugInt v)))
  | VBool v => Some (String.concat "" (debug_fmt (DebugBool v)))
  | VBytes v => Some (String.concat "" (debug_fmt (HexBytes v)))
  | VError v => Some (String.concat "" (debug_fmt (DisplayValue (error_display v))))
  | VDebug v => Some (String.concat "" (debug_fmt v))
  | VEmpty | VNone => None
  | VSome v => value_text v
  end.

Definition prefix_text : string := match field_prefix with Some p => p ++ "_" | None => "" end.
Definition span_key (name : string) : string := prefix_text ++ sanitized name.
Definition event_key (name : string) : string :=
  if (name =? "message") then sanitized name else prefix_text ++ sanitized name.

Definition field_entry (key : string -> string) (x : Field * Value) : option (string * string) :=
  match value_text x.2 with Some text => Some (key (name_of x.1), text) | None => None end.
Definition field_entries (key : string -> string) (vs : ValueSet) : list (string * string) :=
  omap (field_entry key) (recorded vs).

(** What journald needs to find the end of a field. *)
Definition entry_ok (e : string * string) : Prop := line_name e.1 /\ (len e.2 < 2 ^ 64)%Z.

(** A visitor that appends the fields of [key]. *)
Definition appends (record : Field -> (string -> string) -> outcome string -> outcome string)
    (key : string -> string) : Prop :=
  forall f name text buf, Field.name f = Done name -> entry_ok (key name, text) ->
  exists s, record f (fun b => b ++ text) (Done buf) = Done (buf ++ s) /\ encodes [(key name, text)] s.

Lemma value_appends record key f name v buf :
  appends record key -> Field.name f = Done name ->
  match value_text v with Some text => entry_ok (key name, text) | None => True end ->
  exists s, value_record v f (journal_visit record) (Done buf) = Done (buf ++ s) /\
    encodes match value_text v with Some text => [(key name, text)] | None => [] end s.
Proof.
  intros Hr Hf. induction v; cbn [value_text value_record journal_visit]; intros Hok;
    try (by apply (Hr f name _ buf Hf Hok)); try (exists ""; rewrite append_nil_r; split; [done|apply encodes_nil]).
  by apply IHv.
Qed.

Lemma record_appends record key vs buf :
  appends record key -> named vs -> Forall entry_ok (field_entries key vs) ->
  exists s, ValueSet.record vs (journal_visit record) (Done buf) = Done (buf ++ s) /\
    encodes (field_entries key vs) s.
Proof.
  intros Hr Hn Hok. rewrite record_recorded. unfold field_entries, named in *. revert buf.
  induction (recorded vs) as [|[f v] l IH]; intros buf; [exists ""; rewrite append_nil_r; split; [done|apply encodes_nil]|].
  apply Forall_cons in Hn as [[name Hf] Hn]. cbn [fst] in Hf.
  assert (Field.name f = Done name) as Hname by (destruct (Field.name f); congruence).
  assert (name_of f = name) as Hnm by (unfold name_of; by rewrite Hname).
  cbn [omap list_omap] in Hok |- *. unfold field_entry in Hok at 1 |- * at 1. cbn [fst snd] in *. rewrite Hnm in *.
  destruct (value_appends record key f name v buf Hr Hname) as (s & Hs & Henc).
  { destruct (value_text v); [|done]. by apply Forall_cons in Hok as [Hok _]. }
  destruct (IH Hn) with (buf := buf ++ s) as (s' & Hs' & Henc').
  { destruct (value_text v); [by apply Forall_cons in Hok as [_ Hok]|done]. }
  exists (s ++ s'). cbn [fold_left]. rewrite Hs, Hs', append_assoc. split; [done|].
  destruct (value_text v); [|by apply (encodes_app [])].
  by apply (encodes_app [_]).
Qed.

Lemma put_field_encodes f name text pre buf :
  Field.name f = Done name -> entry_ok (pre ++ sanitized name, text) ->
  exists s, put_field f (fun b => b ++ text) (buf ++ pre) = Done (buf ++ s) /\
    encodes [(pre ++ sanitized name, text)] s.
Proof.
  intros Hf [Hk Ht]. cbn [fst snd] in *. unfold put_field. rewrite Hf. cbn [mbind outcome_bind].
  rewrite put_length_eq by done. eexists. split; [|by apply encodes_length].
  by rewrite !append_assoc.
Qed.

Lemma span_appends : appends (span_record field_prefix) span_key.
Proof.
  intros f name text buf Hf Hok. unfold span_record, span_key in *. cbn [mbind outcome_bind].
  assert (put_span_prefix field_prefix buf = buf ++ prefix_text) as ->.
  { unfold put_span_prefix, prefix_text. destruct field_prefix; [done|]. by rewrite append_nil_r. }
  by apply put_field_encodes.
Qed.

Lemma event_appends : appends (event_record field_prefix) event_key.
Proof.
  intros f name text buf Hf Hok. unfold event_record, event_key in *. cbn [mbind outcome_bind].
  assert (put_prefix field_prefix f buf =
    Done (buf ++ if name =? "message" then "" else prefix_text)) as ->.
  { unfold put_prefix, prefix_text. destruct field_prefix.
    - rewrite Hf. cbn [mbind outcome_bind]. destruct (name =? "message"); cbn [negb]; [|done].
      by rewrite append_nil_r.
    - by destruct (name =? "message"); rewrite append_nil_r. }
  cbn [mbind outcome_bind]. destruct (name =? "message"); by apply put_field_encodes.
Qed.

(** With a valid prefix every field of an event or a span has a name that journald takes,
    up to the limit on its length, whatever the name of the field. *)
Lemma prefixed_valid p name :
  field_prefix = Some p -> all_bytes valid_char p = true ->
  match p with String c _ => between 65 90 c = true | EmptyString => False end ->
  (str_len p + 1 + str_len (sanitized name) <= 64)%nat ->
  valid_name (span_key name) = true /\ valid_name (event_key name) = true.
Proof.
  intros Hp Hv Hc Hl.
  assert (valid_name (span_key name) = true) as Hs.
  { unfold span_key, prefix_text. rewrite Hp. destruct p as [|c p]; [done|].
    assert (forall s, valid_name (String c s) =
      between 65 90 c && all_bytes valid_char (String c s) && (str_len (String c s) <=? 64)%nat) as Hvalid by done.
    change ((String c p ++ "_") ++ sanitized name) with (String c ((p ++ "_") ++ sanitized name)).
    rewrite Hvalid, Hc. change (String c ((p ++ "_") ++ sanitized name)) with ((String c p ++ "_") ++ sanitized name).
    rewrite !all_bytes_app, Hv, sanitized_valid. apply Nat.leb_le.
    rewrite !str_len_app. cbn in *. lia. }
  split; [done|]. unfold event_key. destruct (String.eqb_spec name "message") as [->|]; [reflexivity|exact Hs].
Qed.

Lemma keys_in_line p name :
  field_prefix = Some p -> no_char LF p = true -> no_char "="%char p = true ->
  line_name (span_key name) /\ line_name (event_key name).
Proof.
  intros Hp Hn He. destruct (valid_no_char _ (sanitized_valid name)) as [Hs1 Hs2].
  assert (line_name (span_key name)) as Hs.
  { unfold span_key, prefix_text, line_name. rewrite Hp, !no_char_app, Hn, He, Hs1, Hs2.
    split_and!; [|done..]. destruct p; done. }
  split; [done|]. unfold event_key. destruct (String.eqb_spec name "message") as [->|]; [|exact Hs].
  split_and!; done.
Qed.
End fields.

(** Without a prefix a name may be left empty, which ends the entry, or begin with an
    underscore, which journald keeps for itself: only the underscores before the first
    other byte are dropped, and that byte may be dropped afterwards. *)
Example empty_name : put_field_length_encoded "" "_" (fun b => b ++ "x") =
  newline ++ to_le_bytes 1 ++ "x" ++ newline /\ journal_fields (newline ++ to_le_bytes 1 ++ "x" ++ newline) = None.
Proof. split; vm_compute; reflexivity. Qed.
Example protected_name : sanitized "$_type" = "_TYPE" /\ valid_name (sanitized "$_type") = false.
Proof. split; vm_compute; reflexivity. Qed.
