(* ===== verification/Journald.v ===== *)
(** * Journald: [tracing-journald]

    The layer that sends events to journald: what it stores with a span, what it sends for
    an event, and how a payload is handed over, as a datagram or in a sealed memory file.
    The state of the layers holds the system's. *)

From stdpp Require Import pretty.
From S2P Require Import Prelude.
From S2P Require Import Str.
From S2P Require Import Levels.
From S2P Require Import Fields.
From S2P Require Import Meta.
From S2P Require Import Interests.
From S2P Require Import FilterIds.
From S2P Require Import Extensions.
From S2P Require Import Registry.
From S2P Require Import Pools.
From S2P Require Import Contexts.
From S2P Require Import Filters.
From S2P Require Import Layers.
From S2P Require Import Writers.
From S2P Require Import Format.
From S2P Require Import FormatEvent.
From S2P Require Import FmtLayer.
From S2P Require Import JournalFormat.

Local Open Scope string_scope.

(** ** The system calls

    An [io::Error] is its OS code, if it has one.  The constants are those of [libc]. *)
Definition IoError : Type := option Z.

Class Os (S : Type) := {
  EMSGSIZE : Z; ENAMETOOLONG : Z;
  MFD_CLOEXEC : Z; MFD_ALLOW_SEALING : Z;
  F_SEAL_SEAL : Z; F_SEAL_SHRINK : Z; F_SEAL_GROW : Z; F_SEAL_WRITE : Z;
  SUN_PATH_LEN : nat;
  CMSG_SPACE_FD : Z;
  (* the socket's [send_to], of the payload, to the path *)
  send_to : string -> string -> S -> S * result Z IoError;
  (* [memfd_create(2)], with a file as the result *)
  memfd_create_syscall : Z -> S -> S * result Z IoError;
  (* [File::write_all] *)
  file_write_all : Z -> string -> S -> S * result unit IoError;
  (* [fcntl(fd, F_ADD_SEALS, seals)] *)
  add_seals : Z -> Z -> S -> S * result unit IoError;
  (* [sendmsg(2)] of a message that has one file descriptor and no data, to the path *)
  sendmsg_fd : Z -> string -> S -> S * result Z IoError;
}.

Definition Sys (S A : Type) : Type := S -> outcome (S * result A IoError).
#[global] Instance Sys_ret S : MRet (Sys S) := fun A a s => Done (s, Ok a).
(** [?] *)
#[global] Instance Sys_bind S : MBind (Sys S) := fun A B f m s =>
  '(s, r) ← m s;
  match r with Ok a => f a s | Err e => Done (s, Err e) end.
Definition call {S A} (f : S -> S * result A IoError) : Sys S A := fun s => Done (f s).
Definition fail {S A} (e : IoError) : Sys S A := fun s => Done (s, Err e).

Section system.
Context {S : Type} `{!Os S}.

(** ** [memfd.rs] *)
Definition create (flags : Z) : Sys S Z := call (memfd_create_syscall flags).
Definition create_sealable : Sys S Z := create (Z.lor MFD_ALLOW_SEALING MFD_CLOEXEC).
Definition all_seals : Z := Z.lor (Z.lor (Z.lor F_SEAL_SHRINK F_SEAL_GROW) F_SEAL_WRITE) F_SEAL_SEAL.
Definition seal_fully (fd : Z) : Sys S unit := call (add_seals fd all_seals).

(** ** [socket.rs] *)
Definition CMSG_BUFSIZE : Z := 64.
Definition assert_cmsg_bufsize : Sys S unit := fun s =>
  _ ← assert (CMSG_SPACE_FD <=? CMSG_BUFSIZE)%Z; Done (s, Ok tt).
Definition send_one_fd_to (fd : Z) (path : string) : Sys S Z :=
  _ ← assert_cmsg_bufsize;
  if (SUN_PATH_LEN <=? str_len path)%nat then fail (Some ENAMETOOLONG)
  else call (sendmsg_fd fd path).

(** ** Sending *)
Definition JOURNALD_PATH : string := "/run/systemd/journal/socket".

Definition send_large_payload (payload : string) : Sys S Z :=
  mem ← create_sealable;
  _ ← call (file_write_all mem payload);
  _ ← seal_fully mem;
  send_one_fd_to mem JOURNALD_PATH.

Definition send_payload (payload : string) : Sys S Z := fun s =>
  match send_to payload JOURNALD_PATH s with
  | (s, Ok n) => Done (s, Ok n)
  | (s, Err error) =>
      if bool_decide (error = Some EMSGSIZE) then send_large_payload payload s else Done (s, Err error)
  end.

End system.

(** ** [struct Layer] *)

Record JournaldLayer := {
  field_prefix : option string;
  syslog_identifier : string;
  additional_fields : string;
  priority_mappings : PriorityMappings;
}.

(** [Layer::new]; [executable] is the file name of the first argument, if there is one. *)
Definition new {S} `{!Os S} (executable : option string) : Sys S JournaldLayer :=
  let layer := {|
    field_prefix := Some "F"; syslog_identifier := default "" executable;
    additional_fields := ""; priority_mappings := mappings_new;
  |} in
  _ ← send_payload "";
  mret layer.
Definition layer {S} `{!Os S} (executable : option string) : Sys S JournaldLayer := new executable.

Definition with_field_prefix (x : option string) (self : JournaldLayer) : JournaldLayer := {|
  field_prefix := x; syslog_identifier := syslog_identifier self;
  additional_fields := additional_fields self; priority_mappings := priority_mappings self |}.
Definition with_priority_mappings (mappings : PriorityMappings) (self : JournaldLayer) : JournaldLayer := {|
  field_prefix := field_prefix self; syslog_identifier := syslog_identifier self;
  additional_fields := additional_fields self; priority_mappings := mappings |}.
Definition with_syslog_identifier (identifier : string) (self : JournaldLayer) : JournaldLayer := {|
  field_prefix := field_prefix self; syslog_identifier := identifier;
  additional_fields := additional_fields self; priority_mappings := priority_mappings self |}.
Definition with_custom_fields (fields : list (string * string)) (self : JournaldLayer) : JournaldLayer := {|
  field_prefix := field_prefix self; syslog_identifier := syslog_identifier self;
  additional_fields :=
    fold_left (fun buf '(name, value) => put_field_length_encoded buf name (fun buf => buf ++ value))
      fields (additional_fields self);
  priority_mappings := priority_mappings self |}.

(** [struct SpanFields], the type under which a span's fields are stored. *)
Class SpanFieldsSlot `{E : Env} := {
  span_fields_ty : TypeId;
  to_span_fields : string -> Val span_fields_ty;
  of_span_fields : Val span_fields_ty -> string;
  of_to_span_fields b : of_span_fields (to_span_fields b) = b;
}.

Section layer.
Context `{E : Env} {P : PoolOps DataInner} {C : FmtCrates} `{!SpanFieldsSlot} `{!Os UserState}.
Variable fuel : nat.
Implicit Types self : JournaldLayer.

(** ** [impl Layer for Layer] *)

Definition on_new_span self (attrs : Attributes) (id : Id) (cx : Context_) : M unit :=
  span ← span_of id cx;
  let buf := "SPAN_NAME" ++ newline in
  let buf := put_value buf (span_name span) in
  let buf := put_metadata buf (span_metadata span) (Some "SPAN_") in
  buf ← lift (Attributes.record attrs (span_visitor (field_prefix self)) (Done buf));
  insert_ext span_fields_ty (to_span_fields buf) span.

(** [get::<SpanFields>().expect("missing fields")] *)
Definition span_buf (span : SpanRef) : M string :=
  e ← exts span; lift (of_span_fields <$> expect (ExtensionsInner.get span_fields_ty e)).

Definition on_record self (id : Id) (values : ValueSet) (cx : Context_) : M unit :=
  span ← span_of id cx;
  e ← exts span;
  buf ← span_buf span;
  buf ← lift (Record_.record values (span_visitor (field_prefix self)) (Done buf));
  set_exts (ExtensionsInner.get_mut span_fields_ty (fun _ => to_span_fields buf) e).2 span.

Fixpoint extend_spans (spans : list SpanRef) (buf : string) : M string :=
  match spans with
  | [] => mret buf
  | span :: spans => fields ← span_buf span; extend_spans spans (buf ++ fields)
  end.

(** The result of sending is ignored. *)
Definition send self (payload : string) : M unit := fun w =>
  '(u, _) ← send_payload payload (user w); Done (tt, with_user u w).

Definition on_event self (event : Event) (cx : Context_) : M unit :=
  current ← Context_.lookup_current cx;
  spans ← (match current with
           | Some span => spans_from_root fuel cx (span_scope_of span)
           | None => mret []
           end : M (list SpanRef));
  buf ← extend_spans spans "";
  let buf := put_priority (priority_mappings self) buf (Event.metadata event) in
  let buf := put_metadata buf (Event.metadata event) None in
  let buf := put_field_length_encoded buf "SYSLOG_IDENTIFIER" (fun buf => buf ++ syslog_identifier self) in
  let buf := buf ++ additional_fields self in
  buf ← lift (Event.record event (event_visitor (field_prefix self)) (Done buf));
  send self buf.

(** The other methods are the trait's. *)
Definition journald_layer self : Layer := {|
  l_on_register_dispatch := mret tt;
  l_register_callsite := layer_default_register_callsite (fun _ _ => mret true);
  l_enabled _ _ := mret true;
  l_max_level_hint := None;
  l_on_new_span := on_new_span self;
  l_on_record := on_record self;
  l_on_follows_from _ _ _ := mret tt;
  l_event_enabled _ _ := mret true;
  l_on_event := on_event self;
  l_on_enter _ _ := mret tt;
  l_on_exit _ _ := mret tt;
  l_on_close _ _ := mret tt;
  l_on_id_change _ _ _ := mret tt;
  l_has_plf := false;
  l_is_none := false;
|}.
End layer.

(** ** Handing a payload over

    Documented behaviour of the system: [received] is what journald has got, [content] what
    was written to a memory file.  A call that fails gives journald nothing; a datagram
    arrives as it is; and journald reads the file that is passed to it when it is sealed. *)
Class OsLaws {S : Type} (O : Os S) := {
  received : S -> list string;
  content : Z -> S -> option string;
  sealed : Z -> S -> Prop;
  send_to_ok p s s' n : send_to p JOURNALD_PATH s = (s', Ok n) -> received s' = (received s ++ [p])%list;
  send_to_err p s s' e : send_to p JOURNALD_PATH s = (s', Err e) -> received s' = received s;
  memfd_create_ok flags s s' r : memfd_create_syscall flags s = (s', r) ->
    received s' = received s /\ match r with Ok fd => content fd s' = Some "" | Err _ => True end;
  file_write_all_ok fd p s s' r : file_write_all fd p s = (s', r) ->
    received s' = received s /\
    match r with Ok _ => forall c, content fd s = Some c -> content fd s' = Some (c ++ p) | Err _ => True end;
  add_seals_ok fd s s' r : add_seals fd all_seals s = (s', r) ->
    received s' = received s /\
    match r with Ok _ => content fd s' = content fd s /\ sealed fd s' | Err _ => True end;
  sendmsg_ok fd s s' n : sendmsg_fd fd JOURNALD_PATH s = (s', Ok n) ->
    forall c, content fd s = Some c -> sealed fd s -> received s' = (received s ++ [c])%list;
  sendmsg_err fd s s' e : sendmsg_fd fd JOURNALD_PATH s = (s', Err e) -> received s' = received s;
  cmsg_fits : (CMSG_SPACE_FD <= CMSG_BUFSIZE)%Z;
}.

(** Whatever fails on the way, the payload is given to journald whole and once when the
    call succeeds, and not at all when it does not; nothing panics. *)
Lemma send_payload_whole {S : Type} {O : Os S} {OL : OsLaws O} payload (s : S) :
  exists s' r, send_payload payload s = Done (s', r) /\
    received s' = match r with Ok _ => (received s ++ [payload])%list | Err _ => received s end.
Proof.
  unfold send_payload. destruct (send_to payload JOURNALD_PATH s) as [s1 [n|e]] eqn:Hs.
  { exists s1, (Ok n). split; [done|]. by eapply send_to_ok. }
  apply send_to_err in Hs. case_bool_decide; [|by exists s1, (Err e)].
  unfold send_large_payload, create_sealable, create, seal_fully, send_one_fd_to, assert_cmsg_bufsize, call, fail.
  unfold mbind, Sys_bind. cbn [mbind outcome_bind].
  destruct (memfd_create_syscall _ s1) as [s2 [fd|e2]] eqn:Hc; apply memfd_create_ok in Hc as [Hr2 Hc];
    [|exists s2, (Err e2); split; [done|congruence]].
  destruct (file_write_all fd payload s2) as [s3 [[]|e3]] eqn:Hw; apply file_write_all_ok in Hw as [Hr3 Hw];
    [|exists s3, (Err e3); split; [done|congruence]].
  destruct (add_seals fd all_seals s3) as [s4 [[]|e4]] eqn:Hl; apply add_seals_ok in Hl as [Hr4 Hl];
    [|exists s4, (Err e4); split; [done|congruence]].
  rewrite (proj2 (Z.leb_le _ _) cmsg_fits). cbn [assert mbind outcome_bind].
  destruct (_ <=? _)%nat; [exists s4, (Err (Some ENAMETOOLONG)); split; [done|congruence]|].
  destruct (sendmsg_fd fd JOURNALD_PATH s4) as [s5 [n|e5]] eqn:Hm.
  - exists s5, (Ok n). split; [done|]. destruct Hl as [Hct Hsl].
    erewrite (sendmsg_ok fd s4 s5 n Hm payload); [congruence| |done].
    rewrite Hct. exact (Hw "" Hc).
  - exists s5, (Err e5). split; [done|]. apply sendmsg_err in Hm. congruence.
Qed.

(** C39: sending is all or nothing, whatever fails on the way, and nothing panics: when
    [send_payload] succeeds journald has got the payload whole and once, and when it fails
    journald has got nothing of it.  A datagram that is accepted is all that is sent; an
    error of the socket other than a message that is too large is returned as it is, and no
    file is made for it. *)
Theorem send_all_or_nothing {S : Type} {O : Os S} {OL : OsLaws O} payload (s : S) :
  exists s' r, send_payload payload s = Done (s', r) /\
    received s' = match r with Ok _ => (received s ++ [payload])%list | Err _ => received s end /\
    forall s1 sent, send_to payload JOURNALD_PATH s = (s1, sent) ->
    match sent with
    | Ok n => s' = s1 /\ r = Ok n
    | Err e => e <> Some EMSGSIZE -> s' = s1 /\ r = Err e
    end.
Proof.
  destruct (send_payload_whole payload s) as (s' & r & Hs & Hr). exists s', r.
  split; [done|]. split; [done|]. intros s1 sent Hsent. unfold send_payload in Hs. rewrite Hsent in Hs.
  destruct sent as [n|e]; [by injection Hs as <- <-|]. intros He. rewrite bool_decide_eq_false_2 in Hs by done.
  by injection Hs as <- <-.
Qed.

(** ** What is stored and what is sent *)

(** The fields for a callsite's metadata. *)
Definition metadata_entries (pre : string) (meta : Metadata) : list (string * string) :=
  let key n := pre ++ n in
  ((key "TARGET", Metadata.target meta) ::
   match Metadata.file meta with Some file => [(key "CODE_FILE", file)] | None => [] end ++
   match Metadata.line meta with Some line => [(key "CODE_LINE", pretty line)] | None => [] end)%list.
Definition metadata_fits (meta : Metadata) : Prop :=
  (len (Metadata.target meta) < 2 ^ 64)%Z /\
  match Metadata.file meta with Some file => (len file < 2 ^ 64)%Z | None => True end.

Lemma prefix_opt_eq buf prefix : put_prefix_opt buf prefix = buf ++ default "" prefix.
Proof. destruct prefix; [done|]. cbn. by rewrite append_nil_r. Qed.

Lemma put_metadata_encodes buf meta prefix :
  all_bytes valid_char (default "" prefix) = true -> metadata_fits meta ->
  exists s, put_metadata buf meta prefix = buf ++ s /\ encodes (metadata_entries (default "" prefix) meta) s.
Proof.
  intros Hp [Ht Hfile]. unfold put_metadata, metadata_entries. rewrite !prefix_opt_eq.
  set (pre := default "" prefix) in *.
  assert (forall n, all_bytes valid_char n = true -> n <> "" -> line_name (pre ++ n)) as Hline.
  { intros n Hn Hne. destruct (valid_no_char (pre ++ n)) as [H1 H2]; [by rewrite all_bytes_app, Hp, Hn|].
    split; [|done]. destruct pre; [done|]. intros ?; done. }
  assert (forall buf n v, all_bytes valid_char n = true -> n <> "" -> (len v < 2 ^ 64)%Z ->
    exists s, put_field_wellformed (buf ++ pre) n v = buf ++ s /\ encodes [(pre ++ n, v)] s) as Hput.
  { intros b n v Hn Hne Hv. destruct (encodes_wellformed b (pre ++ n) v) as (s & Hs & He); [by apply Hline|done|].
    exists s. split; [|done]. rewrite <- Hs. unfold put_field_wellformed. by rewrite (append_assoc b pre n). }
  destruct (Hput buf "TARGET" (Metadata.target meta)) as (s1 & -> & H1); [done|done|done|].
  assert (exists s2, match Metadata.file meta with
    | Some file => put_field_wellformed ((buf ++ s1) ++ pre) "CODE_FILE" file
    | None => buf ++ s1 end = buf ++ s1 ++ s2 /\
    encodes match Metadata.file meta with Some file => [(pre ++ "CODE_FILE", file)] | None => [] end s2)
    as (s2 & -> & H2).
  { destruct (Metadata.file meta) as [file|]; [|exists ""; rewrite append_nil_r; split; [done|apply encodes_nil]].
    destruct (Hput (buf ++ s1) "CODE_FILE" file) as (s & Hs & He); [done|done|done|].
    exists s. by rewrite Hs, append_assoc. }
  destruct (Metadata.line meta) as [line|].
  - exists (s1 ++ s2 ++ (pre ++ "CODE_LINE") ++ "=" ++ pretty line ++ newline). split.
    + rewrite !append_assoc. done.
    + apply (encodes_app [_]); [done|]. apply encodes_app; [done|].
      apply encodes_text; [by apply (Hline "CODE_LINE")..|].
      apply no_char_pretty_Z; [|done]. intros d. unfold pretty_N_char. by repeat case_match.
  - exists (s1 ++ s2). split; [done|]. rewrite app_nil_r.
    by apply (encodes_app [_]).
Qed.

(** *** A span *)
Section spans.
Context `{E : Env} {P : PoolOps DataInner} `{!PoolLaws default_data P}.
Context {C : FmtCrates} `{!SpanFieldsSlot} `{!Os UserState}.
Implicit Types self : JournaldLayer.

Definition span_entries self (meta : Metadata) (vs : ValueSet) : list (string * string) :=
  (("SPAN_NAME", Metadata.name meta) :: metadata_entries "SPAN_" meta ++
   field_entries (span_key (field_prefix self)) vs)%list.

(** The span in the slot [k] holds the fields [es]. *)
Definition holds (k : Z) (es : list (string * string)) (w : World) : Prop :=
  exists d buf, pool_get k (spans w) = Some d /\
    of_span_fields <$> ExtensionsInner.get span_fields_ty (extensions d) = Some buf /\ encodes es buf.

(** Nothing but the layer's slot in the extensions of that span differs. *)
Definition only_slot (k : Z) (w w' : World) : Prop :=
  w' = with_spans (spans w') w /\
  (forall k', k' <> k -> pool_get k' (spans w') = pool_get k' (spans w)) /\
  forall d, pool_get k (spans w) = Some d -> exists d', pool_get k (spans w') = Some d' /\ same_span d d' /\
    forall ty, ty <> span_fields_ty -> ExtensionsInner.get ty (extensions d') = ExtensionsInner.get ty (extensions d).

Lemma set_slot sp d e b w :
  pool_get (key (data sp)) (spans w) = Some d -> e = <[span_fields_ty := boxed span_fields_ty (to_span_fields b)]> (extensions d) ->
  exists w', set_exts e sp w = Done (tt, w') /\ only_slot (key (data sp)) w w' /\
    forall es, encodes es b -> holds (key (data sp)) es w'.
Proof.
  intros Hd ->. unfold set_exts. mred. rewrite Hd. cbn. eexists. split; [reflexivity|]. split; [split_and!|].
  - done.
  - intros k' Hk'. cbn [spans with_spans]. rewrite pool_get_set by by rewrite Hd. by rewrite decide_False.
  - intros d' [= <-]%(eq_trans (eq_sym Hd)). cbn [spans with_spans].
    exists (set_extensions (<[span_fields_ty := boxed span_fields_ty (to_span_fields b)]> (extensions d)) d).
    rewrite pool_get_set, decide_True by (done || by rewrite Hd). split_and!; try done.
    intros ty Hty. cbn. rewrite get_insert, set_at_ne; done.
  - intros es Hes. eexists _, b. cbn [spans with_spans].
    rewrite pool_get_set, decide_True by (done || by rewrite Hd). split; [done|]. split; [|done]. cbn.
    rewrite get_insert, set_at_eq. cbn. by rewrite of_to_span_fields.
Qed.

Lemma sees_span cx id d w :
  sees cx id w -> pool_get (id_to_idx id) (spans w) = Some d ->
  exists sp, span_of id cx w = Done (sp, w) /\ data sp = {| key := id_to_idx id; inner := d |}.
Proof.
  intros (reg & d' & Hs & Hreg & Hd' & He) Hd. rewrite Hd in Hd'. injection Hd' as <-.
  unfold span_of, Context_.span. rewrite Hs. mred.
  rewrite (lookup_span_get reg Hreg), Hd. cbn. unfold try_with_filter, span_is_enabled_for. cbn.
  rewrite He. cbn. by eexists.
Qed.

Lemma sees_slot cx id w w' : sees cx id w -> only_slot (id_to_idx id) w w' -> sees cx id w'.
Proof.
  intros (reg & d & Hs & Hreg & Hd & He) (_ & _ & Hd').
  destruct (Hd' d Hd) as (d' & Hg & (Hfm & _) & _). exists reg, d'. split_and!; try done.
  unfold Registry.is_enabled_for in *. cbn in *. by rewrite Hfm.
Qed.

Lemma exts_get sp d w : pool_get (key (data sp)) (spans w) = Some d -> exts sp w = Done (extensions d, w).
Proof. intros Hd. unfold exts. mred. by rewrite Hd. Qed.

Definition fits self (meta : Metadata) (vs : ValueSet) : Prop :=
  (len (Metadata.name meta) < 2 ^ 64)%Z /\ metadata_fits meta /\ named vs /\
  Forall entry_ok (field_entries (span_key (field_prefix self)) vs).

(** A new span is stored with its name, its metadata and its fields. *)
Lemma on_new_span_holds self cx attrs id d w :
  sees cx id w -> pool_get (id_to_idx id) (spans w) = Some d ->
  ExtensionsInner.get span_fields_ty (extensions d) = None ->
  fits self (Registry.metadata d) (Attributes.values attrs) ->
  exists w', on_new_span self attrs id cx w = Done (tt, w') /\ only_slot (id_to_idx id) w w' /\
    holds (id_to_idx id) (span_entries self (Registry.metadata d) (Attributes.values attrs)) w'.
Proof.
  intros Hsees Hd Hnone (Hname & Hmeta & Hn & Hok). destruct (sees_span cx id d w Hsees Hd) as (sp & Hsp & Hdata).
  unfold on_new_span. mred. rewrite Hsp.
  assert (span_metadata sp = Registry.metadata d) as Hm by (unfold span_metadata; by rewrite Hdata).
  assert (span_name sp = Metadata.name (Registry.metadata d)) as -> by (unfold span_name; by rewrite Hm). rewrite Hm.
  rewrite put_value_eq by done.
  destruct (put_metadata_encodes (("SPAN_NAME" ++ newline) ++ to_le_bytes (len (Metadata.name (Registry.metadata d))) ++
    Metadata.name (Registry.metadata d) ++ newline) (Registry.metadata d) (Some "SPAN_")) as (s & -> & He); [done|done|].
  unfold Attributes.record.
  destruct (record_appends (span_record (field_prefix self)) (span_key (field_prefix self)) (Attributes.values attrs)
    (((("SPAN_NAME" ++ newline) ++ to_le_bytes (len (Metadata.name (Registry.metadata d))) ++
      Metadata.name (Registry.metadata d) ++ newline)) ++ s)) as (s' & Hs' & He'); [apply span_appends|done|done|].
  unfold span_visitor. unfold Attributes.values in Hs'. rewrite Hs'.
  unfold insert_ext. mred.
  assert (pool_get (key (data sp)) (spans w) = Some d) as Hk by by rewrite Hdata.
  rewrite (exts_get sp d w Hk). unfold ExtensionsMut.insert, ExtensionsMut.replace, ExtensionsInner.insert.
  unfold ExtensionsInner.get in Hnone. rewrite Hnone. cbn -[String.append put_value to_le_bytes].
  edestruct (set_slot sp d) as (w' & Hw' & Hslot & Hholds); [exact Hk|reflexivity|].
  exists w'. rewrite Hdata in Hslot, Hholds. split; [exact Hw'|]. split; [exact Hslot|]. apply Hholds.
  unfold span_entries. rewrite append_assoc. apply (encodes_app [_] _); [|by apply encodes_app].
  rewrite append_assoc. apply encodes_length; done.
Qed.

(** What is recorded later is added at the end. *)
Lemma on_record_holds self cx id d w es vs :
  sees cx id w -> pool_get (id_to_idx id) (spans w) = Some d -> holds (id_to_idx id) es w ->
  named vs -> Forall entry_ok (field_entries (span_key (field_prefix self)) vs) ->
  exists w', on_record self id vs cx w = Done (tt, w') /\ only_slot (id_to_idx id) w w' /\
    holds (id_to_idx id) (es ++ field_entries (span_key (field_prefix self)) vs)%list w'.
Proof.
  intros Hsees Hd (d' & buf & Hd' & Hbuf & Henc) Hn Hok. rewrite Hd in Hd'. injection Hd' as <-.
  destruct (sees_span cx id d w Hsees Hd) as (sp & Hsp & Hdata).
  assert (pool_get (key (data sp)) (spans w) = Some d) as Hk by by rewrite Hdata.
  unfold on_record. mred. rewrite Hsp, (exts_get sp d w Hk). unfold span_buf. mred.
  rewrite (exts_get sp d w Hk). unfold ExtensionsInner.get_mut. unfold ExtensionsInner.get in *.
  destruct (extensions d !! span_fields_ty ≫= downcast span_fields_ty) as [v|] eqn:Hv; [|done].
  cbn in Hbuf. injection Hbuf as <-. cbn [expect fmap outcome_fmap].
  destruct (record_appends (span_record (field_prefix self)) (span_key (field_prefix self)) vs (of_span_fields v))
    as (s & Hs & He); [apply span_appends|done|done|].
  unfold Record_.record, span_visitor. cbn. rewrite Hs. cbn.
  edestruct (set_slot sp d) as (w' & Hw' & Hslot & Hholds); [exact Hk|reflexivity|].
  exists w'. rewrite Hdata in Hslot, Hholds. split; [exact Hw'|]. split; [exact Hslot|]. apply Hholds.
  by apply encodes_app.
Qed.

(** *** An event *)
Section events.
Context {OL : OsLaws (S := UserState) _}.
Variable fuel : nat.

(** The spans of the context that is current, from the root. *)
Definition spans_in_scope (cx : Context_) (w : World) (l : list SpanRef) : Prop :=
  exists sp, Context_.lookup_current cx w = Done (sp, w) /\
    match sp with
    | Some sp => spans_from_root fuel cx (span_scope_of sp) w = Done (l, w)
    | None => l = []
    end.

Lemma extend_spans_encodes l ess buf w :
  Forall2 (fun sp es => holds (key (data sp)) es w) l ess ->
  exists s, extend_spans l buf w = Done (buf ++ s, w) /\ encodes (concat ess) s.
Proof.
  intros Hall. revert buf. induction Hall as [|sp es l ess (d & b & Hd & Hb & He) _ IH]; intros buf.
  { exists "". rewrite append_nil_r. split; [done|apply encodes_nil]. }
  destruct (IH (buf ++ b)) as (s & Hs & Hes). exists (b ++ s). split; [|by apply encodes_app].
  cbn [extend_spans]. mred. unfold span_buf. mred. rewrite (exts_get sp d w Hd).
  destruct (ExtensionsInner.get span_fields_ty (extensions d)) as [v|]; [|done]. cbn in Hb. injection Hb as <-.
  cbn [expect fmap outcome_fmap]. cbn. rewrite Hs. by rewrite append_assoc.
Qed.

(** The fields of the entry of an event. *)
Definition event_entries self (ev : Event) (spans adds : list (string * string)) : list (string * string) :=
  (spans ++
   ("PRIORITY", String (priority_u8 (priority_of (priority_mappings self) (Event.metadata ev))) "") ::
   metadata_entries "" (Event.metadata ev) ++
   ("SYSLOG_IDENTIFIER", syslog_identifier self) ::
   adds ++ field_entries (event_key (field_prefix self)) (event_fields ev))%list.

(** C38: what journald reads is what was recorded.  For an event the layer makes one payload
    and journald gets it, whole and once, or not at all, as a datagram or, when that is too
    large, in a sealed file; a reader of its protocol gets back from it, byte for byte and in
    order, the fields stored with the spans that are current, from the root, the priority
    that the level is mapped to, the target, file and line, the identifier, the custom
    fields, and the fields of the event under their sanitized names, which must not be empty
    (journald itself then discards the fields whose names it reserves).  Any bytes may stand
    in a value, line feeds and equals signs too.  Nothing panics and nothing but the state of
    the system changes. *)
Theorem journald_reads_event self ev cx w spans ess adds :
  spans_in_scope cx w spans -> Forall2 (fun sp es => holds (key (data sp)) es w) spans ess ->
  encodes adds (additional_fields self) -> metadata_fits (Event.metadata ev) ->
  (len (syslog_identifier self) < 2 ^ 64)%Z -> named (event_fields ev) ->
  Forall entry_ok (field_entries (event_key (field_prefix self)) (event_fields ev)) ->
  exists payload u,
    on_event fuel self ev cx w = Done (tt, with_user u w) /\
    (received u = (received (user w) ++ [payload])%list \/ received u = received (user w)) /\
    journal_fields payload = Some (event_entries self ev (concat ess) adds).
Proof.
  intros (sp & Hsp & Hspans) Hall Hadds Hmeta Hid Hn Hok.
  destruct (extend_spans_encodes spans ess "" w Hall) as (s1 & Hs1 & He1). change ("" ++ s1) with s1 in Hs1.
  destruct (encodes_wellformed s1 "PRIORITY"
    (String (priority_u8 (priority_of (priority_mappings self) (Event.metadata ev))) "")) as (s2 & Hs2 & He2).
  { by split. }
  { done. }
  destruct (put_metadata_encodes (s1 ++ s2) (Event.metadata ev) None) as (s3 & Hs3 & He3); [done..|].
  destruct (record_appends (event_record (field_prefix self)) (event_key (field_prefix self)) (event_fields ev)
    ((((s1 ++ s2) ++ s3) ++ sanitized "SYSLOG_IDENTIFIER" ++ newline ++ to_le_bytes (len (syslog_identifier self)) ++
      syslog_identifier self ++ newline) ++ additional_fields self)) as (s5 & Hs5 & He5); [apply event_appends|done..|].
  set (payload := _ ++ s5) in Hs5.
  destruct (send_payload_whole payload (user w)) as (u & r & Hu & Hr).
  exists payload, u. split; [|split].
  - unfold on_event. mred. rewrite Hsp.
    assert (match sp with Some span => spans_from_root fuel cx (span_scope_of span) | None => fun w => Done ([], w) end w
      = Done (spans, w)) as Hread.
    { destruct sp; [done|]. by rewrite Hspans. }
    mred. rewrite Hread, Hs1. unfold put_priority. rewrite Hs2, Hs3, put_length_eq by done.
    unfold Event.record, event_visitor. rewrite Hs5. unfold send. by rewrite Hu.
  - destruct r; auto.
  - apply encodes_read. unfold payload, event_entries. rewrite !append_assoc.
    apply encodes_app; [done|]. apply (encodes_app [_]); [done|]. apply encodes_app; [done|].
    assert (encodes [("SYSLOG_IDENTIFIER", syslog_identifier self)] ("SYSLOG_IDENTIFIER" ++ newline ++
      to_le_bytes (len (syslog_identifier self)) ++ syslog_identifier self ++ newline)) as He4.
    { apply encodes_length; [by split|done]. }
    pose proof (encodes_app _ _ _ _ He4 (encodes_app _ _ _ _ Hadds He5)) as H45.
    rewrite !append_assoc in H45. exact H45.
Qed.

(** The custom fields of the layer. *)
Lemma custom_fields_encode self adds fields :
  encodes adds (additional_fields self) ->
  Forall (fun f => entry_ok (sanitized f.1, f.2)) fields ->
  encodes (adds ++ map (fun f => (sanitized f.1, f.2)) fields)%list
    (additional_fields (with_custom_fields fields self)).
Proof.
  intros Ha Hf. cbn [with_custom_fields additional_fields]. revert adds Ha. generalize (additional_fields self).
  induction Hf as [|[n v] fields [Hn Hv] _ IH]; intros buf adds Ha; [by rewrite app_nil_r|].
  cbn [fold_left map fst snd] in *. rewrite put_length_eq by done.
  rewrite cons_middle, (assoc_L (++)%list). apply IH. apply encodes_app; [done|]. by apply encodes_length.
Qed.
End events.
End spans.

(** ** A system with a limit on datagrams *)
Module JournalExample.

Record State := { got : list string; mem : list (string * bool) }.

#[local] Instance env : Env := {|
  debug_assertions := true;
  ext_types := fun ty => match ty with 1%N => string | _ => unit end;
  UserState := State;
|}.
#[local] Instance pool_ops : PoolOps DataInner := map_pool default_data.
#[local] Instance slot : SpanFieldsSlot.
Proof. by refine {| span_fields_ty := 1%N; to_span_fields b := b; of_span_fields b := b |}. Defined.
#[local] Instance crates : FmtCrates := {|
  style_prefix _ := ""; style_suffix _ := ""; f64_debug _ := ["0.0"]; str_debug s := [s];
  tracing_log := false; log_callsite _ := 99%N;
|}.
#[local] Instance os : Os State := {|
  EMSGSIZE := 90; ENAMETOOLONG := 36; MFD_CLOEXEC := 1; MFD_ALLOW_SEALING := 2;
  F_SEAL_SEAL := 1; F_SEAL_SHRINK := 2; F_SEAL_GROW := 4; F_SEAL_WRITE := 8;
  SUN_PATH_LEN := 108; CMSG_SPACE_FD := 24;
  send_to p _ s :=
    if (str_len p <=? 200)%nat then ({| got := got s ++ [p]; mem := mem s |}, Ok (len p)) else (s, Err (Some 90%Z));
  memfd_create_syscall _ s :=
    ({| got := got s; mem := mem s ++ [("", false)] |}, Ok (Z.of_nat (length (mem s))));
  file_write_all fd p s :=
    match mem s !! Z.to_nat fd with
    | Some (c, b) => ({| got := got s; mem := <[Z.to_nat fd := (c ++ p, b)]> (mem s) |}, Ok tt)
    | None => (s, Err None)
    end;
  add_seals fd seals s :=
    match mem s !! Z.to_nat fd with
    | Some (c, _) => ({| got := got s; mem := <[Z.to_nat fd := (c, (seals =? 15)%Z)]> (mem s) |}, Ok tt)
    | None => (s, Err None)
    end;
  sendmsg_fd fd _ s :=
    match mem s !! Z.to_nat fd with
    | Some (c, true) => ({| got := got s ++ [c]; mem := mem s |}, Ok 0%Z)
    | _ => (s, Err None)
    end;
|}.

#[local] Instance os_laws : OsLaws os.
Proof.
  refine {| received := got; content fd s := fst <$> mem s !! Z.to_nat fd;
            sealed fd s := snd <$> mem s !! Z.to_nat fd = Some true |}; cbn.
  - intros p s s' n. destruct (_ <=? _)%nat; [|done]. by intros [= <- _].
  - intros p s s' e. destruct (_ <=? _)%nat; [done|]. by intros [= <- _].
  - intros flags s s' r [= <- <-]. split; [done|]. cbn. by rewrite Nat2Z.id, list_lookup_middle.
  - intros fd p s s' r. destruct (mem s !! Z.to_nat fd) as [[c b]|] eqn:Hm; intros [= <- <-]; [|done].
    split; [done|]. intros c' [= <-]. cbn.
    rewrite list_lookup_insert_eq; [done|]. by eapply lookup_lt_Some.
  - intros fd s s' r. destruct (mem s !! Z.to_nat fd) as [[c b]|] eqn:Hm; intros [= <- <-]; [|done].
    cbn. rewrite list_lookup_insert_eq by by eapply lookup_lt_Some. done.
  - intros fd s s' n. destruct (mem s !! Z.to_nat fd) as [[c []]|]; try done.
    intros [= <- _] c' [= <-] _. done.
  - intros fd s s' e. destruct (mem s !! Z.to_nat fd) as [[c []]|]; try done; by intros [= <- _].
  - done.
Defined.

Definition values_of (callsite : N) (l : list (string * Value)) : ValueSet :=
  let fs := FieldSet.new (fst <$> l) callsite in
  ValueSet.value_set fs (combine (FieldSet.iter fs) (Some <$> (snd <$> l))).
Definition meta_for (name : string) (callsite : N) (names : list string) (k : Kind) : Metadata :=
  Metadata.new name "app" Level.INFO (Some "src/main.rs") (Some 7%Z) None (FieldSet.new names callsite) k.
Definition buffer (name : string) : string :=
  "SPAN_NAME" ++ newline ++ to_le_bytes (len name) ++ name ++ newline.
Definition span_data (name : string) (parent : option Id) : DataInner := {|
  filter_map := FilterMap.new; Registry.metadata := meta_for name 1 ["id"] Kind.SPAN;
  parent := parent; ref_count := 1; extensions := {[ 1%N := boxed 1%N (buffer name) ]};
|}.
(** The thread is in the span [inner] of [outer]. *)
Definition world : World := {|
  filtering := FilterState.new; close_count := 0;
  current_spans := Some [{| SpanStack.ctx_id := idx_to_id 1; SpanStack.duplicate := false |}]; panicking := false;
  spans := {| live := <[0%Z := span_data "outer" None]> {[ 1%Z := span_data "inner" (Some (idx_to_id 0)) ]}; spare := [] |};
  next_filter_id := 0;
  user := {| got := []; mem := [] |};
|}.
Definition cx : Context_ := Context_.new registry_subscriber.
Definition self : JournaldLayer := {|
  field_prefix := Some "F"; syslog_identifier := "id"; additional_fields := ""; priority_mappings := mappings_new;
|}.
Definition two_lines : string := "one=1" ++ newline ++ "two".
Definition event : Event :=
  Event.new (meta_for "event" 2 ["message"; "a.b"] Kind.EVENT)
    (values_of 2 [("message", VDebug (DisplayValue ["hello"])); ("a.b", VStr two_lines)]).
(** The same event with another span as its parent. *)
Definition event_of_outer : Event :=
  Event.new_child_of (Some (idx_to_id 0)) (Event.metadata event) (event_fields event).

End JournalExample.

Section witness.
Import JournalExample.
#[local] Existing Instances env pool_ops slot crates os os_laws.

Definition scope : list SpanRef :=
  [as_span FilterId.none {| key := 0; inner := span_data "outer" None |};
   as_span FilterId.none {| key := 1; inner := span_data "inner" (Some (idx_to_id 0)) |}].

Lemma span_holds name k d :
  pool_get k (spans world) = Some d -> extensions d = {[ 1%N := boxed 1%N (buffer name) ]} ->
  (len name < 2 ^ 64)%Z -> holds k [("SPAN_NAME", name)] world.
Proof.
  intros Hd He Hl. exists d, (buffer name). split; [exact Hd|]. split; [|by apply encodes_length].
  rewrite He. reflexivity.
Qed.

(** The entry does not fit into a datagram and is read all the same. *)
Lemma journald_reads_event_witness :
  exists payload u, on_event 5 self event cx world = Done (tt, with_user u world) /\
    (201 <= str_len payload)%nat /\ got u = [payload] /\
    journal_fields payload =
    Some [("SPAN_NAME", "outer"); ("SPAN_NAME", "inner"); ("PRIORITY", "5"); ("TARGET", "app");
          ("CODE_FILE", "src/main.rs"); ("CODE_LINE", "7"); ("SYSLOG_IDENTIFIER", "id");
          ("MESSAGE", "hello"); ("F_A_B", two_lines)].
Proof.
  destruct (journald_reads_event 5 self event cx world scope [[("SPAN_NAME", "outer")]; [("SPAN_NAME", "inner")]] [])
    as (payload & u & He & Hr & Hread).
  - exists (Some (as_span FilterId.none {| key := 1; inner := span_data "inner" (Some (idx_to_id 0)) |})).
    split; vm_compute; reflexivity.
  - apply Forall2_cons_2; [|apply Forall2_cons_2; [|apply Forall2_nil_2]].
    + apply (span_holds "outer" 0 (span_data "outer" None)); vm_compute; reflexivity.
    + apply (span_holds "inner" 1 (span_data "inner" (Some (idx_to_id 0)))); vm_compute; reflexivity.
  - apply encodes_nil.
  - split; reflexivity.
  - reflexivity.
  - apply Forall_cons_2; [by eexists|]. apply Forall_cons_2; [by eexists|apply Forall_nil_2].
  - apply Forall_cons_2; [|apply Forall_cons_2; [|apply Forall_nil_2]]; (split; [split; [discriminate|split; reflexivity]|reflexivity]).
  - exists payload, u. split; [exact He|].
    assert (on_event 5 self event cx world = Done (tt, with_user u world)) as Hc by exact He.
    assert (exists p, got u = [p] /\ (201 <= str_len p)%nat) as (p & Hgot & Hlen).
    { assert (match on_event 5 self event cx world with
              | Done (_, w) => match got (user w) with [p] => (201 <=? str_len p)%nat | _ => false end
              | Panic => false end = true) as Hb by (vm_compute; reflexivity).
      rewrite Hc in Hb. cbn [user with_user] in Hb. destruct (got u) as [|p [|]]; try discriminate.
      exists p. split; [reflexivity|]. by apply Nat.leb_le. }
    destruct Hr as [Hr|Hr]; cbn in Hr; rewrite Hgot in Hr; [|discriminate].
    injection Hr as ->. split; [exact Hlen|]. split; [exact Hgot|exact Hread].
Defined.

Lemma send_all_or_nothing_witness :
  exists p s' r, (201 <= str_len p)%nat /\ send_payload p {| got := ["x"]; mem := [] |} = Done (s', r) /\
    got s' = ["x"; p] /\ mem s' = [(p, true)].
Proof.
  pose (p := String.concat "" (repeat "0123456789" 30)).
  destruct (send_all_or_nothing p {| got := ["x"]; mem := [] |}) as (s' & r & Hs & Hr & _).
  exists p, s', r. split; [apply Nat.leb_le; vm_compute; reflexivity|]. split; [exact Hs|].
  assert (match send_payload p {| got := ["x"]; mem := [] |} with
          | Done (u, Ok _) => bool_decide (mem u = [(p, true)]) | _ => false end = true) as Hb
    by (vm_compute; reflexivity).
  rewrite Hs in Hb. destruct r; [|discriminate]. split; [exact Hr|]. by apply bool_decide_eq_true_1 in Hb.
Defined.

(** The spans are those of the thread, whatever the parent of the event: the entry of an
    event of the outer span names the inner one too. *)
Example explicit_parent_ignored :
  match on_event 5 self event_of_outer cx world with
  | Done (_, w) =>
      match got (user w) with
      | [payload] => match journal_fields payload with Some l => take 2 l | None => [] end
      | _ => []
      end
  | Panic => []
  end = [("SPAN_NAME", "outer"); ("SPAN_NAME", "inner")].
Proof. vm_compute. reflexivity. Qed.
End witness.
