(* ===== verification/MockExpect.v ===== *)
(** * MockExpect: the expectations of [tracing-mock]

    What a test expects of spans, fields and events ([metadata.rs], [span.rs], [field.rs],
    [ancestry.rs], [event.rs], [expect.rs] of [tracing-mock]), and the checks of what is
    observed.  A check that fails panics.  An [ExpectedId] is shared: it is a cell of
    [Cells], which holds the number of the span, zero until it is known. *)

From S2P Require Import Prelude.
From S2P Require Import Str.
From S2P Require Import Float.
From S2P Require Import Levels.
From S2P Require Import Fields.
From S2P Require Import Meta.
From S2P Require Import Format.

Local Open Scope string_scope.

(** ** [metadata.rs] *)

Record ExpectedMetadata := { em_name : option string; em_level : option Level.t; em_target : option string }.

Module ExpectedMetadata.

(** [#[derive(Default)]] *)
Definition default : ExpectedMetadata := {| em_name := None; em_level := None; em_target := None |}.
Definition check_name (self : ExpectedMetadata) (actual : string) : outcome unit :=
  match em_name self with Some n => assert (n =? actual) | None => Done tt end.
Definition check_level (self : ExpectedMetadata) (actual : Level.t) : outcome unit :=
  match em_level self with Some l => assert (bool_decide (l = actual)) | None => Done tt end.
Definition check_target (self : ExpectedMetadata) (actual : string) : outcome unit :=
  match em_target self with Some t => assert (t =? actual) | None => Done tt end.
Definition check (self : ExpectedMetadata) (actual : Metadata) : outcome unit :=
  _ ← check_name self (Metadata.name actual);
  _ ← check_level self (Metadata.level actual);
  check_target self (Metadata.target actual).
Definition has_expectations (self : ExpectedMetadata) : bool :=
  bool_decide (is_Some (em_name self)) || bool_decide (is_Some (em_level self)) ||
  bool_decide (is_Some (em_target self)).
Definition with_name (n : string) (self : ExpectedMetadata) : ExpectedMetadata :=
  {| em_name := Some n; em_level := em_level self; em_target := em_target self |}.
Definition with_level (l : Level.t) (self : ExpectedMetadata) : ExpectedMetadata :=
  {| em_name := em_name self; em_level := Some l; em_target := em_target self |}.
Definition with_target (t : string) (self : ExpectedMetadata) : ExpectedMetadata :=
  {| em_name := em_name self; em_level := em_level self; em_target := Some t |}.

End ExpectedMetadata.

(** ** [span.rs] *)

(** [Arc<AtomicU64>]; the cells of all identifiers that the test has made. *)
Definition ExpectedId : Type := nat.
Definition Cells : Type := list N.
Definition UNSET : N := 0.

Module ExpectedId.

Definition new_unset (cells : Cells) : ExpectedId * Cells := (length cells, cells ++ [UNSET])%list.
Definition load (self : ExpectedId) (cells : Cells) : N := default UNSET (cells !! self).
(** [compare_exchange(UNSET, span_id)] *)
Definition set (self : ExpectedId) (span_id : N) (cells : Cells) : result unit (N * N) * Cells :=
  let current := load self cells in
  if (current =? UNSET)%N then (Ok tt, <[self := span_id]> cells) else (Err (current, span_id), cells).
Definition check (self : ExpectedId) (actual : Id) (cells : Cells) : outcome unit :=
  let expected_id := load self cells in
  let actual_id := Id.into_u64 actual in
  _ ← assert (negb (expected_id =? UNSET)%N);
  assert (expected_id =? actual_id)%N.

End ExpectedId.

Record ActualSpan := { as_id : Id; as_metadata : option Metadata }.
Definition actual_of_id (id : Id) : ActualSpan := {| as_id := id; as_metadata := None |}.

Record ExpectedSpan := { es_id : option ExpectedId; es_metadata : ExpectedMetadata }.

Module ExpectedSpan.

Definition default : ExpectedSpan := {| es_id := None; es_metadata := ExpectedMetadata.default |}.
Definition named (n : string) (self : ExpectedSpan) : ExpectedSpan :=
  {| es_id := es_id self; es_metadata := ExpectedMetadata.with_name n (es_metadata self) |}.
Definition with_id (id : ExpectedId) (self : ExpectedSpan) : ExpectedSpan :=
  {| es_id := Some id; es_metadata := es_metadata self |}.
Definition at_level (l : Level.t) (self : ExpectedSpan) : ExpectedSpan :=
  {| es_id := es_id self; es_metadata := ExpectedMetadata.with_level l (es_metadata self) |}.
Definition with_target (t : string) (self : ExpectedSpan) : ExpectedSpan :=
  {| es_id := es_id self; es_metadata := ExpectedMetadata.with_target t (es_metadata self) |}.
(** [impl From<I: Into<String>>], [impl From<&ExpectedId>] *)
Definition from_name (n : string) : ExpectedSpan := named n default.
Definition from_id (id : ExpectedId) : ExpectedSpan := with_id id default.
Definition name (self : ExpectedSpan) : option string := em_name (es_metadata self).
Definition level (self : ExpectedSpan) : option Level.t := em_level (es_metadata self).
Definition target (self : ExpectedSpan) : option string := em_target (es_metadata self).

Definition check (self : ExpectedSpan) (actual : ActualSpan) (cells : Cells) : outcome unit :=
  _ ← match es_id self with
      | Some expected_id => ExpectedId.check expected_id (as_id actual) cells
      | None => Done tt
      end;
  match as_metadata actual with
  | Some actual_metadata => ExpectedMetadata.check (es_metadata self) actual_metadata
  | None => assert (negb (ExpectedMetadata.has_expectations (es_metadata self)))
  end.

End ExpectedSpan.

(** ** [field.rs] *)

Inductive ExpectedValue :=
  | EF64 (v : f64)
  | EI64 (v : Z)
  | EU64 (v : Z)
  | EBool (v : bool)
  | EStr (v : string)
  | EDebug (v : string)
  | EAny.

Record ExpectedField := { ef_name : string; ef_value : ExpectedValue }.
Record ExpectedFields := { ex_fields : gmap string ExpectedValue; ex_only : bool }.

Section fields.
Context {C : FmtCrates}.
Variable debug_assertions : bool.

(** [impl PartialEq for ExpectedValue] *)
Definition value_eq (self other : ExpectedValue) : outcome bool :=
  match self, other with
  | EF64 a, EF64 b =>
      _ ← assert (negb (debug_assertions && is_nan a));
      _ ← assert (negb (debug_assertions && is_nan b));
      Done (f64_eq a b)
  | EI64 a, EI64 b => Done (a =? b)%Z
  | EU64 a, EU64 b => Done (a =? b)%Z
  | EBool a, EBool b => Done (Bool.eqb a b)
  | EStr a, EStr b => Done (a =? b)
  | EDebug a, EDebug b => Done (a =? b)
  | EAny, _ => Done true
  | _, EAny => Done true
  | _, _ => Done false
  end.

(** [format!("{:?}", value)] *)
Definition debug_text (v : DebugValue) : string := String.concat "" (debug_fmt v).

(** The values as the typed methods of a visitor see them: those of [MockValueBuilder] and
    of [CheckVisitor]. *)
Definition expected_visit {V} (record : Field -> ExpectedValue -> V -> V) : Visit V :=
  let default := default_visit (fun f v => record f (EDebug (debug_text v))) in {|
  record_f64 f v := record f (EF64 v);
  record_i64 f v := record f (EI64 v);
  record_u64 f v := record f (EU64 v);
  record_i128 := record_i128 default;
  record_u128 := record_u128 default;
  record_bool f v := record f (EBool v);
  Fields.record_str f v := record f (EStr v);
  record_bytes := record_bytes default;
  Fields.record_error := Fields.record_error default;
  Fields.record_debug f v := record f (EDebug (debug_text v));
|}.
Definition builder_visit : Visit (option ExpectedValue) := expected_visit (fun _ v _ => Some v).

(** [impl From<&dyn Value> for ExpectedValue] *)
Definition fake_field : Field := {| field_i := 0; field_set := FieldSet.new ["fake_field"] 0%N |}.
Definition value_from (value : Value) : outcome ExpectedValue :=
  expect (value_record value fake_field builder_visit None).

Definition with_value (value : Value) (self : ExpectedField) : outcome ExpectedField :=
  v ← value_from value; Done {| ef_name := ef_name self; ef_value := v |}.
Definition fields_and (field : ExpectedField) (self : ExpectedFields) : ExpectedFields :=
  {| ex_fields := <[ef_name field := ef_value field]> (ex_fields self); ex_only := ex_only self |}.
Definition fields_only (self : ExpectedFields) : ExpectedFields :=
  {| ex_fields := ex_fields self; ex_only := true |}.
Definition fields_default : ExpectedFields := {| ex_fields := ∅; ex_only := false |}.
Definition field_and (other self : ExpectedField) : ExpectedFields :=
  fields_and other (fields_and self fields_default).
Definition field_only (self : ExpectedField) : ExpectedFields :=
  fields_and self (fields_only fields_default).
Definition fields_from (field : ExpectedField) : ExpectedFields := fields_and field fields_default.
Definition is_empty (self : ExpectedFields) : bool := bool_decide (ex_fields self = ∅).

Definition compare_or_panic (self : ExpectedFields) (name : string) (value : ExpectedValue) :
    outcome ExpectedFields :=
  let self' := {| ex_fields := delete name (ex_fields self); ex_only := ex_only self |} in
  match ex_fields self !! name with
  | Some EAny => Done self'
  | Some expected => eq ← value_eq expected value; _ ← assert eq; Done self'
  | None => if ex_only self then Panic else Done self'
  end.

(** [impl Visit for CheckVisitor] and [CheckVisitor::finish] *)
Definition check_visit : Visit (outcome ExpectedFields) :=
  expected_visit (fun f v st => self ← st; name ← Field.name f; compare_or_panic self name v).
Definition finish (self : ExpectedFields) : outcome unit := assert (is_empty self).
(** The recorded values against the expected fields. *)
Definition check_fields (self : ExpectedFields) (values : ValueSet) : outcome unit :=
  self ← ValueSet.record values check_visit (Done self); finish self.

(** ** [ancestry.rs] *)

Inductive ExpectedAncestry :=
  | HasExplicitParent (span : ExpectedSpan)
  | IsExplicitRoot
  | HasContextualParent (span : ExpectedSpan)
  | IsContextualRoot.
Inductive ActualAncestry :=
  | ActualExplicitParent (span : ActualSpan)
  | ActualExplicitRoot
  | ActualContextualParent (span : ActualSpan)
  | ActualContextualRoot.

Definition check_ancestry (self : ExpectedAncestry) (actual : ActualAncestry) (cells : Cells) : outcome unit :=
  match self, actual with
  | IsExplicitRoot, ActualExplicitRoot => Done tt
  | IsContextualRoot, ActualContextualRoot => Done tt
  | HasExplicitParent expected, ActualExplicitParent actual => ExpectedSpan.check expected actual cells
  | HasContextualParent expected, ActualContextualParent actual => ExpectedSpan.check expected actual cells
  | _, _ => Panic
  end.

(** The [HasAncestry] of an event and of the attributes of a span is their [Parent]. *)
Definition get_ancestry (item : Parent) (lookup_current : option Id) (actual_span : Id -> option ActualSpan) :
    outcome ActualAncestry :=
  match item with
  | Current =>
      match lookup_current with
      | Some parent_id => span ← expect (actual_span parent_id); Done (ActualContextualParent span)
      | None => Done ActualContextualRoot
      end
  | Root => Done ActualExplicitRoot
  | ParentExplicit parent_id => span ← expect (actual_span parent_id); Done (ActualExplicitParent span)
  end.

(** ** [NewSpan], of [span.rs] *)

Record NewSpan := { ns_span : ExpectedSpan; ns_fields : ExpectedFields; ns_ancestry : option ExpectedAncestry }.
Definition new_span_from (span : ExpectedSpan) : NewSpan :=
  {| ns_span := span; ns_fields := fields_default; ns_ancestry := None |}.
Definition new_span_with_ancestry (a : ExpectedAncestry) (self : NewSpan) : NewSpan :=
  {| ns_span := ns_span self; ns_fields := ns_fields self; ns_ancestry := Some a |}.
Definition new_span_with_fields (fields : ExpectedFields) (self : NewSpan) : NewSpan :=
  {| ns_span := ns_span self; ns_fields := fields; ns_ancestry := ns_ancestry self |}.
Definition span_with_ancestry (a : ExpectedAncestry) (self : ExpectedSpan) : NewSpan :=
  new_span_with_ancestry a (new_span_from self).
Definition span_with_fields (fields : ExpectedFields) (self : ExpectedSpan) : NewSpan :=
  new_span_with_fields fields (new_span_from self).

(** The identifier of the expectation is not checked here: it is set by the caller. *)
Definition check_new_span (self : NewSpan) (span : Attributes) (ancestry : outcome ActualAncestry)
    (cells : Cells) : outcome unit :=
  _ ← ExpectedMetadata.check (es_metadata (ns_span self)) (Attributes.metadata span);
  _ ← check_fields (ns_fields self) (Attributes.values span);
  match ns_ancestry self with
  | Some expected => actual ← ancestry; check_ancestry expected actual cells
  | None => Done tt
  end.

End fields.

(** ** [event.rs] *)

Record ExpectedEvent := {
  ev_fields : option ExpectedFields;
  ev_ancestry : option ExpectedAncestry;
  ev_in_spans : option (list ExpectedSpan);
  ev_metadata : ExpectedMetadata;
}.

Module ExpectedEvent.

Definition default : ExpectedEvent :=
  {| ev_fields := None; ev_ancestry := None; ev_in_spans := None; ev_metadata := ExpectedMetadata.default |}.
Definition with_metadata (m : ExpectedMetadata) (self : ExpectedEvent) : ExpectedEvent :=
  {| ev_fields := ev_fields self; ev_ancestry := ev_ancestry self; ev_in_spans := ev_in_spans self;
     ev_metadata := m |}.
Definition named (n : string) (self : ExpectedEvent) : ExpectedEvent :=
  with_metadata (ExpectedMetadata.with_name n (ev_metadata self)) self.
Definition at_level (l : Level.t) (self : ExpectedEvent) : ExpectedEvent :=
  with_metadata (ExpectedMetadata.with_level l (ev_metadata self)) self.
Definition with_target (t : string) (self : ExpectedEvent) : ExpectedEvent :=
  with_metadata (ExpectedMetadata.with_target t (ev_metadata self)) self.
Definition with_fields (fields : ExpectedFields) (self : ExpectedEvent) : ExpectedEvent :=
  {| ev_fields := Some fields; ev_ancestry := ev_ancestry self; ev_in_spans := ev_in_spans self;
     ev_metadata := ev_metadata self |}.
Definition with_ancestry (a : ExpectedAncestry) (self : ExpectedEvent) : ExpectedEvent :=
  {| ev_fields := ev_fields self; ev_ancestry := Some a; ev_in_spans := ev_in_spans self;
     ev_metadata := ev_metadata self |}.
Definition in_scope (spans : list ExpectedSpan) (self : ExpectedEvent) : ExpectedEvent :=
  {| ev_fields := ev_fields self; ev_ancestry := ev_ancestry self; ev_in_spans := Some spans;
     ev_metadata := ev_metadata self |}.

End ExpectedEvent.

Section checks.
Context {C : FmtCrates}.
Variable debug_assertions : bool.
Abbreviation value_eq := (value_eq debug_assertions).
Abbreviation compare_or_panic := (compare_or_panic debug_assertions).
Abbreviation check_visit := (check_visit debug_assertions).
Abbreviation check_fields := (check_fields debug_assertions).

Definition check_event (self : ExpectedEvent) (event : Event) (ancestry : outcome ActualAncestry)
    (cells : Cells) : outcome unit :=
  let meta := Event.metadata event in
  _ ← ExpectedMetadata.check (ev_metadata self) meta;
  _ ← assert (Metadata.is_event meta);
  _ ← match ev_fields self with
      | Some expected_fields => check_fields expected_fields (event_fields event)
      | None => Done tt
      end;
  match ev_ancestry self with
  | Some expected => actual ← ancestry; check_ancestry expected actual cells
  | None => Done tt
  end.

(** ** [expect.rs] *)

Inductive Expect :=
  | ExpectEvent (e : ExpectedEvent)
  | ExpectFollowsFrom (consequence cause : ExpectedSpan)
  | ExpectEnter (s : ExpectedSpan)
  | ExpectExit (s : ExpectedSpan)
  | ExpectCloneSpan (s : ExpectedSpan)
  | ExpectDropSpan (s : ExpectedSpan)
  | ExpectVisit (s : ExpectedSpan) (fields : ExpectedFields)
  | ExpectNewSpan (s : NewSpan)
  | ExpectOnRegisterDispatch
  | ExpectNothing.

Definition event : ExpectedEvent := ExpectedEvent.default.
Definition span : ExpectedSpan := ExpectedSpan.default.
Definition field (name : string) : ExpectedField := {| ef_name := name; ef_value := EAny |}.
Definition msg (message : string) : ExpectedField := {| ef_name := "message"; ef_value := EDebug message |}.
Definition id (cells : Cells) : ExpectedId * Cells := ExpectedId.new_unset cells.
Definition is_contextual_root : ExpectedAncestry := IsContextualRoot.
Definition has_contextual_parent (span : ExpectedSpan) : ExpectedAncestry := HasContextualParent span.
Definition is_explicit_root : ExpectedAncestry := IsExplicitRoot.
Definition has_explicit_parent (span : ExpectedSpan) : ExpectedAncestry := HasExplicitParent span.
(** [Expect::bad]: every kind of expectation panics. *)
Definition bad {A} (self : Expect) : outcome A := Panic.

(** ** What a check of fields accepts *)

(** The value that a visitor of typed values sees. *)
Fixpoint seen_value (v : Value) : option ExpectedValue :=
  match v with
  | VF64 v => Some (EF64 v)
  | VI64 v => Some (EI64 v)
  | VU64 v => Some (EU64 v)
  | VI128 v | VU128 v => Some (EDebug (debug_text (DebugInt v)))
  | VBool v => Some (EBool v)
  | VStr v => Some (EStr v)
  | VBytes v => Some (EDebug (debug_text (HexBytes v)))
  | VError v => Some (EDebug (debug_text (DisplayValue (Fields.error_display v))))
  | VDebug v => Some (EDebug (debug_text v))
  | VEmpty | VNone => None
  | VSome v => seen_value v
  end.

Lemma visit_seen {V} (record : Field -> ExpectedValue -> V -> V) v f st :
  value_record v f (expected_visit record) st =
  match seen_value v with Some e => record f e st | None => st end.
Proof. induction v; try reflexivity. apply IHv. Qed.

(** Names and values in the order in which they are recorded. *)
Definition seen (vs : ValueSet) : list (string * ExpectedValue) :=
  omap (fun x => match seen_value x.2 with Some e => Some (name_of x.1, e) | None => None end) (recorded vs).

Definition accepts (expected actual : ExpectedValue) : Prop :=
  expected = EAny \/ value_eq expected actual = Done true.

(** The comparison of the fields one by one. *)
Fixpoint compare_all (self : ExpectedFields) (l : list (string * ExpectedValue)) : outcome ExpectedFields :=
  match l with
  | [] => Done self
  | (n, v) :: l => self ← compare_or_panic self n v; compare_all self l
  end.

Lemma fold_panic (l : list (Field * Value)) :
  fold_left (fun st '(f, v) => value_record v f check_visit st) l Panic = Panic.
Proof.
  induction l as [|[f v] l IH]; [done|]. cbn [fold_left]. unfold MockExpect.check_visit. rewrite visit_seen.
  by destruct (seen_value v).
Qed.

Lemma check_fields_seen self vs :
  named vs -> check_fields self vs = self ← compare_all self (seen vs); finish self.
Proof.
  intros Hn. unfold MockExpect.check_fields. rewrite record_recorded. f_equal. unfold seen, named in *.
  revert self. induction (recorded vs) as [|[f v] l IH]; intros self; [done|].
  apply Forall_cons in Hn as [[name Hf] Hn]. cbn [fst] in Hf.
  assert (Field.name f = Done name) as Hname by (destruct (Field.name f); congruence).
  cbn [fold_left omap list_omap fst snd]. unfold MockExpect.check_visit at 2. rewrite visit_seen.
  destruct (seen_value v) as [e|]; [|by apply IH].
  cbn [mbind outcome_bind]. rewrite Hname. unfold name_of. rewrite Hname. cbn [mbind outcome_bind compare_all].
  destruct (compare_or_panic self name e) as [self'|]; [by apply IH|apply fold_panic].
Qed.

Lemma compare_spec self n v self' :
  compare_or_panic self n v = Done self' <->
  self' = {| ex_fields := delete n (ex_fields self); ex_only := ex_only self |} /\
  match ex_fields self !! n with Some e => accepts e v | None => ex_only self = false end.
Proof.
  unfold MockExpect.compare_or_panic, accepts. destruct (ex_fields self !! n) as [e|].
  - assert (MockExpect.value_eq debug_assertions EAny v = Done true) as Hany by by destruct v.
    assert ((eq ← MockExpect.value_eq debug_assertions e v; _ ← assert eq;
      Done {| ex_fields := delete n (ex_fields self); ex_only := ex_only self |}) = Done self' <->
      self' = {| ex_fields := delete n (ex_fields self); ex_only := ex_only self |} /\
      MockExpect.value_eq debug_assertions e v = Done true) as H.
    { destruct (MockExpect.value_eq debug_assertions e v) as [[]|]; cbn.
      - split; [by intros [= <-]|by intros [-> _]].
      - split; [done|by intros []].
      - split; [done|by intros []]. }
    destruct e; try (rewrite H; naive_solver).
  - destruct (ex_only self); split; [done|by intros []|intros [= <-]; auto|by intros [-> _]].
Qed.

(** The expected fields are met by the fields [l]. *)
Definition fields_met (self : ExpectedFields) (l : list (string * ExpectedValue)) : Prop :=
  (forall n e, ex_fields self !! n = Some e -> exists v, (n, v) ∈ l) /\
  (forall n v, (n, v) ∈ l ->
     match ex_fields self !! n with Some e => accepts e v | None => ex_only self = false end).

(** A check of fields passes exactly when every expected field was recorded, with an
    equal value or any value if none was given, and, when only these fields were expected,
    nothing else was recorded; every field has one name in its set. *)
Theorem fields_checked (self : ExpectedFields) (vs : ValueSet) :
  named vs -> NoDup (seen vs).*1 ->
  check_fields self vs = Done tt <-> fields_met self (seen vs).
Proof.
  intros Hn Hdup. rewrite check_fields_seen by done. generalize dependent (seen vs). clear vs Hn.
  intros l. revert self. induction l as [|[n v] l IH]; intros self Hdup.
  - cbn. unfold finish, is_empty, fields_met. case_bool_decide as He; cbn.
    + split; [|done]. intros _. rewrite He. split; [by intros ?? ?%lookup_empty_Some|by intros ?? ?%not_elem_of_nil].
    + split; [done|]. intros [H _]. destruct He. apply map_empty. intros n.
      destruct (ex_fields self !! n) as [e|] eqn:Hl; [|done]. by destruct (H n e Hl) as [v ?%not_elem_of_nil].
  - cbn [fmap list_fmap] in Hdup. apply NoDup_cons in Hdup as [Hnot Hdup]. cbn [fst] in Hnot.
    set (self' := {| ex_fields := delete n (ex_fields self); ex_only := ex_only self |}).
    assert (forall m w, (m, w) ∈ l -> m <> n) as Hne.
    { intros m w Hin ->. apply Hnot. apply list_elem_of_fmap. by exists (n, w). }
    assert ((self ← compare_all self ((n, v) :: l); finish self) = Done tt <->
      match ex_fields self !! n with Some e => accepts e v | None => ex_only self = false end /\
      (self ← compare_all self' l; finish self) = Done tt) as ->.
    { cbn [compare_all]. destruct (compare_or_panic self n v) as [s|] eqn:Hc; cbn [mbind outcome_bind].
      - apply compare_spec in Hc as [-> Hc]. tauto.
      - split; [done|]. intros [Hm _].
        assert (compare_or_panic self n v = Done self') by (by apply compare_spec). congruence. }
    rewrite (IH self' Hdup). unfold fields_met, self'. cbn [ex_fields ex_only]. split.
    + intros (Hm & Hall & Heach). split.
      * intros m e Hl. destruct (decide (m = n)) as [->|Hmn]; [exists v; by left|].
        destruct (Hall m e) as [w Hw]; [by rewrite lookup_delete_ne|]. exists w. by right.
      * intros m w [[= -> ->]|Hin]%elem_of_cons; [done|]. specialize (Heach m w Hin).
        rewrite lookup_delete_ne in Heach; [done|]. intros ->. by eapply Hne.
    + intros (Hall & Heach). split; [apply Heach; by left|]. split.
      * intros m e [Hmn Hl]%lookup_delete_Some. destruct (Hall m e Hl) as [w Hw]. exists w.
        apply elem_of_cons in Hw as [[= -> _]|Hw]; [done|done].
      * intros m w Hin. rewrite lookup_delete_ne; [apply Heach; by right|]. intros ->. by eapply Hne.
Qed.
End checks.

(** ** An event with two fields *)

Module MockFieldsExample.

#[local] Instance crates : FmtCrates := {|
  style_prefix _ := ""; style_suffix _ := ""; f64_debug _ := ["0.0"]; str_debug s := [s];
  tracing_log := false; log_callsite _ := 99%N;
|}.
Definition values_of (callsite : N) (l : list (string * Value)) : ValueSet :=
  let fs := FieldSet.new (fst <$> l) callsite in
  ValueSet.value_set fs (combine (FieldSet.iter fs) (Some <$> (snd <$> l))).
Definition meta_for (name : string) (callsite : N) (names : list string) (k : Kind) : Metadata :=
  Metadata.new name "app" Level.INFO None None None (FieldSet.new names callsite) k.

(** A message and a number that is not asked for. *)
Definition actual : ValueSet :=
  values_of 2 [("message", VDebug (DisplayValue ["hello"])); ("n", VI64 7)].
Definition asked : ExpectedFields := fields_and (field "n") (fields_from (msg "hello")).

Example message_alone : check_fields true (fields_from (msg "hello")) actual = Done tt.
Proof. vm_compute. reflexivity. Qed.
Example message_only : check_fields true (field_only (msg "hello")) actual = Panic.
Proof. vm_compute. reflexivity. Qed.
(** A number of another type is not the same number. *)
Example other_type : check_fields true (fields_from {| ef_name := "n"; ef_value := EU64 7 |}) actual = Panic.
Proof. vm_compute. reflexivity. Qed.

End MockFieldsExample.

Section witness.
Import MockFieldsExample.
#[local] Existing Instance MockFieldsExample.crates.

Lemma fields_checked_witness : fields_met true asked [("message", EDebug "hello"); ("n", EI64 7)].
Proof.
  apply (fields_checked true asked actual).
  - apply Forall_cons_2; [by eexists|]. apply Forall_cons_2; [by eexists|apply Forall_nil_2].
  - vm_compute. repeat constructor; set_solver.
  - vm_compute. reflexivity.
Defined.
End witness.
