(* ===== verification/Mock.v ===== *)
(** * Mock: the mock subscriber of [tracing-mock]

    [tracing-mock/src/subscriber.rs]: the queue of expectations that a test sets up, the
    subscriber that compares it with what happens, and the handle that asks at the end
    whether everything has happened. *)

From S2P Require Import Prelude.
From S2P Require Import Str.
From S2P Require Import Levels.
From S2P Require Import Fields.
From S2P Require Import Meta.
From S2P Require Import Interests.
From S2P Require Import Format.
From S2P Require Import MockExpect.

Local Open Scope string_scope.

(** ** [struct SpanState], [struct Running], [struct MockSubscriber] *)

Record SpanState := { st_id : Id; st_name : string; st_refs : Z; st_meta : Metadata }.
(** [impl From<&SpanState> for ActualSpan] *)
Definition actual_of_state (s : SpanState) : ActualSpan := {| as_id := st_id s; as_metadata := Some (st_meta s) |}.

Record MockSubscriber := {
  ms_expected : list Expect;
  ms_max_level : option LevelFilter.t;
  ms_filter : Metadata -> bool;
  ms_name : string;
}.
(** [cells] are those of the [ExpectedId]s of the test, [panicking] is
    [std::thread::panicking]. *)
Record Running := {
  spans : gmap Id SpanState;
  expected : list Expect;
  current : list Id;
  ids : Z;
  max_level : option LevelFilter.t;
  filter : Metadata -> bool;
  cells : Cells;
  panicking : bool;
}.

Definition with_expected (e : list Expect) (s : Running) : Running :=
  {| spans := spans s; expected := e; current := current s; ids := ids s; max_level := max_level s;
     filter := filter s; cells := cells s; panicking := panicking s |}.
Definition with_spans (m : gmap Id SpanState) (s : Running) : Running :=
  {| spans := m; expected := expected s; current := current s; ids := ids s; max_level := max_level s;
     filter := filter s; cells := cells s; panicking := panicking s |}.
Definition with_current (c : list Id) (s : Running) : Running :=
  {| spans := spans s; expected := expected s; current := c; ids := ids s; max_level := max_level s;
     filter := filter s; cells := cells s; panicking := panicking s |}.
Definition with_ids (n : Z) (s : Running) : Running :=
  {| spans := spans s; expected := expected s; current := current s; ids := n; max_level := max_level s;
     filter := filter s; cells := cells s; panicking := panicking s |}.
Definition with_cells (c : Cells) (s : Running) : Running :=
  {| spans := spans s; expected := expected s; current := current s; ids := ids s; max_level := max_level s;
     filter := filter s; cells := c; panicking := panicking s |}.

(** ** The builder *)

Definition mock (thread_name : option string) : MockSubscriber :=
  {| ms_expected := []; ms_max_level := None; ms_filter := fun _ => true;
     ms_name := default "mock_subscriber" thread_name |}.
Definition push_back (e : Expect) (self : MockSubscriber) : MockSubscriber :=
  {| ms_expected := (ms_expected self ++ [e])%list; ms_max_level := ms_max_level self;
     ms_filter := ms_filter self; ms_name := ms_name self |}.
Definition named (name : string) (self : MockSubscriber) : MockSubscriber :=
  {| ms_expected := ms_expected self; ms_max_level := ms_max_level self; ms_filter := ms_filter self;
     ms_name := name |}.
Definition event (e : ExpectedEvent) : MockSubscriber -> MockSubscriber := push_back (ExpectEvent e).
Definition new_span (s : NewSpan) : MockSubscriber -> MockSubscriber := push_back (ExpectNewSpan s).
Definition enter (s : ExpectedSpan) : MockSubscriber -> MockSubscriber := push_back (ExpectEnter s).
Definition exit (s : ExpectedSpan) : MockSubscriber -> MockSubscriber := push_back (ExpectExit s).
Definition clone_span (s : ExpectedSpan) : MockSubscriber -> MockSubscriber := push_back (ExpectCloneSpan s).
Definition drop_span (s : ExpectedSpan) : MockSubscriber -> MockSubscriber := push_back (ExpectDropSpan s).
Definition follows_from (consequence cause : ExpectedSpan) : MockSubscriber -> MockSubscriber :=
  push_back (ExpectFollowsFrom consequence cause).
Definition record (s : ExpectedSpan) (fields : ExpectedFields) : MockSubscriber -> MockSubscriber :=
  push_back (ExpectVisit s fields).
Definition on_register_dispatch : MockSubscriber -> MockSubscriber := push_back ExpectOnRegisterDispatch.
Definition with_filter (f : Metadata -> bool) (self : MockSubscriber) : MockSubscriber :=
  {| ms_expected := ms_expected self; ms_max_level := ms_max_level self; ms_filter := f; ms_name := ms_name self |}.
Definition with_max_level_hint (hint : LevelFilter.t) (self : MockSubscriber) : MockSubscriber :=
  {| ms_expected := ms_expected self; ms_max_level := Some hint; ms_filter := ms_filter self;
     ms_name := ms_name self |}.
Definition only : MockSubscriber -> MockSubscriber := push_back ExpectNothing.
(** [run] and [run_with_handle]; the handle shares the queue. *)
Definition run (cells : Cells) (self : MockSubscriber) : Running :=
  {| spans := ∅; expected := ms_expected self; current := []; ids := 1; max_level := ms_max_level self;
     filter := ms_filter self; cells := cells; panicking := false |}.

(** [MockHandle::assert_finished]; [poisoned] says whether a callback has panicked while it
    held the lock of [expected]: such a lock is passed over. *)
Definition is_nothing (e : Expect) : bool := match e with ExpectNothing => true | _ => false end.
Definition assert_finished (poisoned : bool) (expected : list Expect) : outcome unit :=
  if poisoned then Done tt else assert (forallb is_nothing expected).

(** ** [impl Subscriber for Running] *)

Module Running.
Section ops.
Context {C : FmtCrates}.
Variable debug_assertions : bool.
Implicit Types self : Running.

Definition on_register_dispatch self : outcome Running :=
  match expected self with
  | ExpectOnRegisterDispatch :: rest => Done (with_expected rest self)
  | _ => Done self
  end.

Definition enabled self (meta : Metadata) : bool := filter self meta.
Definition register_callsite self (meta : Metadata) : Interest :=
  if enabled self meta then Interest.always else Interest.never.
Definition max_level_hint self : option LevelFilter.t := max_level self.

(** [assert_eq!(name, span.name)] when a name is expected *)
Definition check_name (s : ExpectedSpan) (name : string) : outcome unit :=
  match ExpectedSpan.name s with Some n => assert (n =? name) | None => Done tt end.

Definition record self (id : Id) (values : ValueSet) : outcome Running :=
  span ← expect (spans self !! id);
  match expected self with
  | ExpectVisit expected_span expected_values :: rest =>
      _ ← check_name expected_span (st_name span);
      _ ← check_fields debug_assertions expected_values values;
      Done (with_expected rest self)
  | _ => Done self
  end.

Definition lookup_current self : option Id := last (current self).
Definition actual_span self (id : Id) : option ActualSpan := actual_of_state <$> spans self !! id.
Definition ancestry self (p : Parent) : outcome ActualAncestry :=
  get_ancestry p (lookup_current self) (actual_span self).

(** [unimplemented!] for an expected scope, with the feature [tracing-subscriber]. *)
Definition event self (ev : Event) : outcome Running :=
  match expected self with
  | [] => Done self
  | ExpectEvent e :: rest =>
      _ ← assert (bool_decide (ev_in_spans e = None));
      _ ← check_event debug_assertions e ev (ancestry self (event_parent ev)) (cells self);
      Done (with_expected rest self)
  | e :: _ => bad e
  end.

Definition record_follows_from self (consequence_id cause_id : Id) : outcome Running :=
  match spans self !! consequence_id, spans self !! cause_id with
  | Some consequence_span, Some cause_span =>
      match expected self with
      | [] => Done self
      | ExpectFollowsFrom consequence cause :: rest =>
          _ ← check_name consequence (st_name consequence_span);
          _ ← check_name cause (st_name cause_span);
          Done (with_expected rest self)
      | e :: _ => bad e
      end
  | _, _ => Done self
  end.

Definition new_span self (span : Attributes) : outcome (Id * Running) :=
  id ← Id.from_u64 (Z.to_N (ids self));
  let self := with_ids ((ids self + 1) mod 2 ^ 64) self in
  self ← match expected self with
         | ExpectNewSpan e :: rest =>
             let self := with_expected rest self in
             self ← match es_id (ns_span e) with
                    | Some expected_id =>
                        let '(r, cells) := ExpectedId.set expected_id (Id.into_u64 id) (cells self) in
                        _ ← match r with Ok _ => Done tt | Err _ => Panic end;
                        Done (with_cells cells self)
                    | None => Done self
                    end;
             _ ← check_new_span debug_assertions e span (ancestry self (attr_parent span)) (cells self);
             Done self
         | _ => Done self
         end;
  let meta := Attributes.metadata span in
  Done (id, with_spans (<[id := {| st_id := id; st_name := Metadata.name meta; st_refs := 1; st_meta := meta |}]>
                          (spans self)) self).

Definition enter self (id : Id) : outcome Running :=
  self ← match spans self !! id with
         | Some span =>
             match expected self with
             | [] => Done self
             | ExpectEnter e :: rest =>
                 _ ← ExpectedSpan.check e (actual_of_state span) (cells self);
                 Done (with_expected rest self)
             | e :: _ => bad e
             end
         | None => Done self
         end;
  Done (with_current (current self ++ [id])%list self).

Definition exit self (id : Id) : outcome Running :=
  if panicking self then Done self
  else
    span ← expect (spans self !! id);
    match expected self with
    | [] => Done self
    | ExpectExit e :: rest =>
        _ ← ExpectedSpan.check e (actual_of_state span) (cells self);
        let curr := last (current self) in
        let self := with_current (removelast (current self)) self in
        _ ← assert (bool_decide (curr = Some id));
        Done (with_expected rest self)
    | e :: _ => bad e
    end.

(** A count, which overflows in no program. *)
Definition add_refs (n : Z) (s : SpanState) : SpanState :=
  {| st_id := st_id s; st_name := st_name s; st_refs := st_refs s + n; st_meta := st_meta s |}.

Definition clone_span self (id : Id) : outcome (Id * Running) :=
  let self := with_spans (alter (add_refs 1) id (spans self)) self in
  match expected self with
  | ExpectCloneSpan e :: rest =>
      _ ← ExpectedSpan.check e (default (actual_of_id id) (actual_span self id)) (cells self);
      Done (id, with_expected rest self)
  | _ => Done (id, self)
  end.

(** [name.contains("event")] *)
Fixpoint contains (pat s : string) : bool :=
  starts_with s pat || match s with EmptyString => false | String _ s => contains pat s end.

(** Nobody else holds the locks; [span.refs] underflows below zero. *)
Definition drop_span self (id : Id) : outcome Running :=
  let span := spans self !! id in
  let is_event := match span with Some s => contains "event" (st_name s) | None => false end in
  _ ← match span with Some s => assert (negb (debug_assertions && (st_refs s =? 0)%Z)) | None => Done tt end;
  let self := with_spans (alter (add_refs (-1)) id (spans self)) self in
  match expected self with
  | ExpectDropSpan e :: rest =>
      _ ← assert (panicking self || bool_decide (st_name <$> span = ExpectedSpan.name e));
      Done (with_expected rest self)
  | ExpectEvent _ :: rest =>
      _ ← assert (panicking self || is_event);
      Done (with_expected rest self)
  | _ => Done self
  end.

Definition current_span self : outcome CurrentInner :=
  match last (current self) with
  | Some id => state ← expect (spans self !! id); Done (CurrentSpans.new id (st_meta state))
  | None => Done CurrentSpans.none
  end.
End ops.
End Running.

(** ** What a run that does not panic has shown *)

(** The calls of a subscriber that the expectations are about. *)
Inductive Notification :=
  | NRegisterDispatch
  | NNewSpan (span : Attributes)
  | NRecord (id : Id) (values : ValueSet)
  | NFollowsFrom (consequence cause : Id)
  | NEvent (ev : Event)
  | NEnter (id : Id)
  | NExit (id : Id)
  | NCloneSpan (id : Id)
  | NDropSpan (id : Id).

Section notified.
Context {C : FmtCrates}.
Variable debug_assertions : bool.
Implicit Types self : Running.

Definition notify self (n : Notification) : outcome Running :=
  match n with
  | NRegisterDispatch => Running.on_register_dispatch self
  | NNewSpan span => r ← Running.new_span debug_assertions self span; Done r.2
  | NRecord id values => Running.record debug_assertions self id values
  | NFollowsFrom consequence cause => Running.record_follows_from self consequence cause
  | NEvent ev => Running.event debug_assertions self ev
  | NEnter id => Running.enter self id
  | NExit id => Running.exit self id
  | NCloneSpan id => r ← Running.clone_span self id; Done r.2
  | NDropSpan id => Running.drop_span debug_assertions self id
  end.
Fixpoint notify_all self (l : list Notification) : outcome Running :=
  match l with
  | [] => Done self
  | n :: l => self ← notify self n; notify_all self l
  end.

(** The notifications that an expectation can be about, *)
Definition same_kind (e : Expect) (n : Notification) : bool :=
  match e, n with
  | ExpectOnRegisterDispatch, NRegisterDispatch | ExpectNewSpan _, NNewSpan _ | ExpectVisit _ _, NRecord _ _
  | ExpectFollowsFrom _ _, NFollowsFrom _ _ | ExpectEvent _, NEvent _ | ExpectEnter _, NEnter _
  | ExpectExit _, NExit _ | ExpectCloneSpan _, NCloneSpan _ | ExpectDropSpan _, NDropSpan _
  | ExpectEvent _, NDropSpan _ => true
  | _, _ => false
  end.
(** those that panic unless they are expected, *)
Definition strict (n : Notification) : bool :=
  match n with NFollowsFrom _ _ | NEvent _ | NEnter _ | NExit _ => true | _ => false end.
(** and those that are passed over. *)
Definition passed_over self (n : Notification) : bool :=
  match n with
  | NFollowsFrom consequence cause =>
      negb (bool_decide (is_Some (spans self !! consequence)) && bool_decide (is_Some (spans self !! cause)))
  | NEnter id => negb (bool_decide (is_Some (spans self !! id)))
  | NExit _ => panicking self
  | _ => false
  end.

Definition name_met (s : ExpectedSpan) (name : string) : Prop :=
  forall n, ExpectedSpan.name s = Some n -> n = name.
Definition known self (id : Id) (P : SpanState -> Prop) : Prop :=
  exists span, spans self !! id = Some span /\ P span.

(** The notification [n], in the state [self], is what [e] expects. *)
Definition meets self (e : Expect) (n : Notification) : Prop :=
  match e, n with
  | ExpectOnRegisterDispatch, NRegisterDispatch => True
  | ExpectNewSpan e, NNewSpan span =>
      exists id cells, Id.from_u64 (Z.to_N (ids self)) = Done id /\
      match es_id (ns_span e) with
      | Some expected_id => ExpectedId.set expected_id (Id.into_u64 id) (Mock.cells self) = (Ok tt, cells)
      | None => cells = Mock.cells self
      end /\
      check_new_span debug_assertions e span (Running.ancestry self (attr_parent span)) cells = Done tt
  | ExpectVisit s fields, NRecord id values =>
      known self id (fun span => name_met s (st_name span)) /\
      check_fields debug_assertions fields values = Done tt
  | ExpectFollowsFrom consequence cause, NFollowsFrom a b =>
      known self a (fun span => name_met consequence (st_name span)) /\
      known self b (fun span => name_met cause (st_name span))
  | ExpectEvent e, NEvent ev =>
      ev_in_spans e = None /\
      check_event debug_assertions e ev (Running.ancestry self (event_parent ev)) (cells self) = Done tt
  | ExpectEnter s, NEnter id =>
      known self id (fun span => ExpectedSpan.check s (actual_of_state span) (cells self) = Done tt)
  | ExpectExit s, NExit id =>
      known self id (fun span => ExpectedSpan.check s (actual_of_state span) (cells self) = Done tt) /\
      last (current self) = Some id
  | ExpectCloneSpan s, NCloneSpan id =>
      ExpectedSpan.check s (default (actual_of_id id) (Running.actual_span self id)) (cells self) = Done tt
  | ExpectDropSpan s, NDropSpan id => panicking self = true \/ st_name <$> spans self !! id = ExpectedSpan.name s
  | ExpectEvent _, NDropSpan id =>
      panicking self = true \/ known self id (fun span => Running.contains "event" (st_name span) = true)
  | _, _ => False
  end.

(** The first expectation [e] is met by [n], or nothing is expected of [n]. *)
Definition explained self (n : Notification) (mark : option Expect) : Prop :=
  match mark with
  | Some e => head (expected self) = Some e /\ passed_over self n = false /\ meets self e n
  | None =>
      passed_over self n = false ->
      match head (expected self) with
      | Some e => same_kind e n = false /\ strict n = false
      | None => True
      end
  end.

(** The queue loses the expectation that the notification meets. *)
Definition steps self (n : Notification) self' : Prop :=
  exists mark, explained self n mark /\ expected self = (option_list mark ++ expected self')%list.

Lemma steps_met self n e self' :
  expected self = e :: expected self' -> passed_over self n = false -> meets self e n -> steps self n self'.
Proof. intros He Hp Hm. exists (Some e). unfold explained. by rewrite He. Qed.
Lemma steps_none self n self' :
  expected self = expected self' ->
  (passed_over self n = false ->
   match head (expected self) with Some e => same_kind e n = false /\ strict n = false | None => True end) ->
  steps self n self'.
Proof. intros He Hp. by exists None. Qed.

Lemma bind_done {A B} (o : outcome A) (f : A -> outcome B) y :
  (x ← o; f x) = Done y -> exists x, o = Done x /\ f x = Done y.
Proof. destruct o as [x|]; [by exists x|done]. Qed.
Lemma expect_done {A} (o : option A) x : expect o = Done x -> o = Some x.
Proof. by destruct o; intros [= ->]. Qed.
Lemma assert_holds b u : assert b = Done u -> b = true.
Proof. by destruct b. Qed.
Lemma check_name_done s name u : Running.check_name s name = Done u -> name_met s name.
Proof.
  unfold Running.check_name, name_met. intros H n Hn. rewrite Hn in H. apply assert_holds in H.
  by apply String.eqb_eq in H.
Qed.

Ltac undo_bind :=
  repeat match goal with
  | H : (_ ← _; _) = Done _ |- _ => apply bind_done in H as (? & ? & H)
  | H : expect _ = Done _ |- _ => apply expect_done in H
  | H : assert _ = Done _ |- _ => apply assert_holds in H
  | H : Running.check_name _ _ = Done _ |- _ => apply check_name_done in H
  | H : Done _ = Done _ |- _ => injection H as <-
  | x : unit |- _ => destruct x
  end.
Ltac passed H := apply steps_none; [reflexivity | rewrite H].

Lemma register_dispatch_steps self self' :
  notify self NRegisterDispatch = Done self' -> steps self NRegisterDispatch self'.
Proof.
  cbn [notify]. unfold Running.on_register_dispatch.
  destruct (expected self) as [|e rest] eqn:He; [intros [= <-]; by passed He|].
  destruct e; intros [= <-]; try by passed He. by eapply steps_met.
Qed.

Lemma record_steps self id values self' :
  notify self (NRecord id values) = Done self' -> steps self (NRecord id values) self'.
Proof.
  cbn [notify]. unfold Running.record. intros H. undo_bind.
  destruct (expected self) as [|e rest] eqn:He; [undo_bind; by passed He|].
  destruct e; undo_bind; try by passed He. eapply steps_met; [done..|]. split; [by eexists|done].
Qed.

Lemma event_steps self ev self' : notify self (NEvent ev) = Done self' -> steps self (NEvent ev) self'.
Proof.
  cbn [notify]. unfold Running.event. intros H.
  destruct (expected self) as [|e rest] eqn:He; [undo_bind; by passed He|].
  destruct e; try discriminate H. undo_bind. bool_to_prop. by eapply steps_met.
Qed.

Lemma follows_steps self a b self' :
  notify self (NFollowsFrom a b) = Done self' -> steps self (NFollowsFrom a b) self'.
Proof.
  cbn [notify]. unfold Running.record_follows_from. intros H.
  destruct (spans self !! a) as [sa|] eqn:Ha;
    [|undo_bind; apply steps_none; [done|]; cbn [passed_over]; by rewrite Ha].
  destruct (spans self !! b) as [sb|] eqn:Hb;
    [|undo_bind; apply steps_none; [done|]; cbn [passed_over]; by rewrite Ha, Hb].
  destruct (expected self) as [|e rest] eqn:He; [undo_bind; by passed He|].
  destruct e; try discriminate H. undo_bind. eapply steps_met; [done| |split; by eexists].
  cbn [passed_over]. by rewrite Ha, Hb.
Qed.

Lemma enter_steps self id self' : notify self (NEnter id) = Done self' -> steps self (NEnter id) self'.
Proof.
  cbn [notify]. unfold Running.enter. intros H. apply bind_done in H as (s & H & Hs). injection Hs as <-.
  destruct (spans self !! id) as [span|] eqn:Hspan;
    [|undo_bind; apply steps_none; [done|]; cbn [passed_over]; by rewrite Hspan].
  destruct (expected self) as [|e rest] eqn:He; [undo_bind; by passed He|].
  destruct e; try discriminate H. undo_bind. eapply steps_met; [done| |by eexists].
  cbn [passed_over]. by rewrite Hspan.
Qed.

Lemma exit_steps self id self' : notify self (NExit id) = Done self' -> steps self (NExit id) self'.
Proof.
  cbn [notify]. unfold Running.exit. intros H. destruct (panicking self) eqn:Hp.
  { undo_bind. apply steps_none; [done|]. cbn [passed_over]. by rewrite Hp. }
  undo_bind. destruct (expected self) as [|e rest] eqn:He; [undo_bind; by passed He|].
  destruct e; try discriminate H. undo_bind. bool_to_prop. eapply steps_met; [done..|]. split; [by eexists|done].
Qed.

Lemma actual_span_alter self id n :
  Running.actual_span (with_spans (alter (Running.add_refs n) id (spans self)) self) id =
  Running.actual_span self id.
Proof. unfold Running.actual_span. cbn [with_spans spans]. rewrite lookup_alter_eq. by destruct (spans self !! id). Qed.

Lemma clone_steps self id self' : notify self (NCloneSpan id) = Done self' -> steps self (NCloneSpan id) self'.
Proof.
  cbn [notify]. unfold Running.clone_span. rewrite actual_span_alter. cbn [with_spans expected cells].
  intros H. destruct (expected self) as [|e rest] eqn:He; [undo_bind; by passed He|].
  destruct e; undo_bind; try by passed He. by apply steps_met with (e := ExpectCloneSpan s).
Qed.

Lemma drop_steps self id self' : notify self (NDropSpan id) = Done self' -> steps self (NDropSpan id) self'.
Proof.
  cbn [notify]. unfold Running.drop_span. cbn [with_spans expected panicking]. intros H.
  apply bind_done in H as (u & _ & H).
  destruct (expected self) as [|e rest] eqn:He; [undo_bind; by passed He|].
  destruct e; undo_bind; try by passed He.
  - apply steps_met with (e := ExpectEvent e); [done..|].
    match goal with H : _ || _ = true |- _ => rename H into Hb end.
    apply orb_true_iff in Hb as [Hb|Hb]; [by left|right].
    destruct (spans self !! id) as [span|] eqn:Hs; [by exists span|done].
  - apply steps_met with (e := ExpectDropSpan s); [done..|].
    match goal with H : _ || _ = true |- _ => rename H into Hb end.
    apply orb_true_iff in Hb as [Hb|Hb]; [by left|right].
    by apply bool_decide_eq_true in Hb.
Qed.

Lemma new_span_steps self span self' :
  notify self (NNewSpan span) = Done self' -> steps self (NNewSpan span) self'.
Proof.
  cbn [notify]. unfold Running.new_span. cbn [with_ids expected]. intros H.
  apply bind_done in H as ([i r] & H & [= <-]). apply bind_done in H as (id & Hid & H).
  apply bind_done in H as (s & Hs & [= <- <-]).
  destruct (expected self) as [|e rest] eqn:He; [undo_bind; by passed He|].
  destruct e as [ | | | | | | | e | | ]; try (undo_bind; by passed He).
  apply bind_done in Hs as (s1 & Hset & Hs). apply bind_done in Hs as ([] & Hcheck & [= <-]).
  assert (expected s1 = rest /\ meets self (ExpectNewSpan e) (NNewSpan span)) as [Hrest Hm].
  { cbn [meets]. destruct (es_id (ns_span e)) as [eid|] eqn:Heid.
    - cbn [with_expected with_ids cells] in Hset.
      destruct (ExpectedId.set eid (Id.into_u64 id) (Mock.cells self)) as [[[]|] cs] eqn:Hc; [|done].
      injection Hset as <-. split; [done|]. exists id, cs. by repeat split.
    - injection Hset as <-. split; [done|]. exists id, (Mock.cells self). by repeat split. }
  apply steps_met with (e := ExpectNewSpan e); [|done..]. cbn [with_spans expected]. by rewrite He, Hrest.
Qed.

Lemma notify_steps self n self' : notify self n = Done self' -> steps self n self'.
Proof.
  destruct n; eauto using register_dispatch_steps, new_span_steps, record_steps, follows_steps, event_steps,
    enter_steps, exit_steps, clone_steps, drop_steps.
Qed.

End notified.

(** ** A test: what is shown and what is not *)

Module MockExample.

Import MockFieldsExample.
#[local] Existing Instance MockFieldsExample.crates.

Definition attributes (name : string) : Attributes :=
  Attributes.new (meta_for name 1 ["n"] Kind.SPAN) (values_of 1 [("n", VI64 7)]).
Definition hello : Event :=
  Event.new (meta_for "event" 2 ["message"] Kind.EVENT)
    (values_of 2 [("message", VDebug (DisplayValue ["hello"]))]).
Definition one : Id := {| id_u64 := 1 |}.

(** A span with the field [n = 7], in which an event says hello. *)
Definition test : MockSubscriber :=
  let work := ExpectedSpan.from_name "work" in
  only
    (exit work
      (event (ExpectedEvent.with_ancestry (has_contextual_parent work)
                (ExpectedEvent.with_fields (fields_from (msg "hello")) MockExpect.event))
        (enter work
          (new_span (span_with_fields (fields_from {| ef_name := "n"; ef_value := EI64 7 |}) work)
            (mock None))))).
Definition happens : list Notification :=
  [NRegisterDispatch; NNewSpan (attributes "work"); NEnter one; NEvent hello; NExit one; NDropSpan one].

(** [expect] of what a run leaves of its queue. *)
Definition left_over (ms : MockSubscriber) (l : list Notification) : outcome (list Expect) :=
  expected <$> notify_all true (run [] ms) l.

Example test_passes : left_over test happens = Done [ExpectNothing].
Proof. vm_compute. reflexivity. Qed.
(** After [only] an event is not allowed, but spans are. *)
Example only_forbids_events : left_over test (happens ++ [NEvent hello]) = Panic.
Proof. vm_compute. reflexivity. Qed.
Example only_allows_spans :
  left_over test (happens ++ [NNewSpan (attributes "more"); NCloneSpan one; NDropSpan one]) = Done [ExpectNothing].
Proof. vm_compute. reflexivity. Qed.
(** The end of a span takes the place of an event. *)
Example dropped_span_is_an_event :
  left_over (event MockExpect.event (mock None)) [NNewSpan (attributes "the_event_loop"); NDropSpan one] = Done [].
Proof. vm_compute. reflexivity. Qed.
(** With nothing more expected an exit leaves the current span as it was. *)
Example exited_span_is_current :
  (current <$> notify_all true (run [] (mock None)) [NNewSpan (attributes "work"); NEnter one; NExit one]) =
  Done [one].
Proof. vm_compute. reflexivity. Qed.
(** A panic in another thread hides all that is missing. *)
Example poisoned_handle_is_finished : assert_finished true (ms_expected test) = Done tt.
Proof. vm_compute. reflexivity. Qed.

End MockExample.

Section witness.
Import MockExample.
#[local] Existing Instance MockFieldsExample.crates.

End witness.
