(* ===== verification/MockLayer.v ===== *)
(** * MockLayer: the mock layer of [tracing-mock]

    [tracing-mock/src/layer.rs]: a layer that compares what it sees with a queue of
    expectations, and the scope of an event with the spans that are expected of it.  The
    state of the layers holds that of the mock layer. *)

From S2P Require Import Prelude.
From S2P Require Import Levels.
From S2P Require Import Fields.
From S2P Require Import Meta.
From S2P Require Import Interests.
From S2P Require Import FilterIds.
From S2P Require Import Format.
From S2P Require Import MockExpect.
From S2P Require Import Registry.
From S2P Require Import Pools.
From S2P Require Import Contexts.
From S2P Require Import Layers.

Local Open Scope string_scope.

(** ** [struct MockLayerBuilder], [struct MockLayer] *)

Record MockLayerBuilder := { b_expected : list Expect; b_name : string }.
(** [cells] are those of the [ExpectedId]s of the test. *)
Record MockLayer := { expected : list Expect; current : list Id; cells : Cells }.

Definition mock (thread_name : option string) : MockLayerBuilder :=
  {| b_expected := []; b_name := default "" thread_name |}.
Definition named_ (name : string) (self : MockLayerBuilder) : MockLayerBuilder :=
  {| b_expected := b_expected self;
     b_name := if b_name self =? "" then name else b_name self ++ "::" ++ name |}.
(** The function [named] *)
Definition named (thread_name : option string) (name : string) : MockLayerBuilder :=
  named_ name (mock thread_name).
Definition push_back (e : Expect) (self : MockLayerBuilder) : MockLayerBuilder :=
  {| b_expected := (b_expected self ++ [e])%list; b_name := b_name self |}.
Definition event (e : ExpectedEvent) : MockLayerBuilder -> MockLayerBuilder := push_back (ExpectEvent e).
Definition new_span (s : NewSpan) : MockLayerBuilder -> MockLayerBuilder := push_back (ExpectNewSpan s).
Definition enter (s : ExpectedSpan) : MockLayerBuilder -> MockLayerBuilder := push_back (ExpectEnter s).
Definition exit (s : ExpectedSpan) : MockLayerBuilder -> MockLayerBuilder := push_back (ExpectExit s).
Definition on_register_dispatch : MockLayerBuilder -> MockLayerBuilder := push_back ExpectOnRegisterDispatch.
Definition only : MockLayerBuilder -> MockLayerBuilder := push_back ExpectNothing.
(** [run] and [run_with_handle]; the handle, that of [Mock], shares the queue. *)
Definition run (cells : Cells) (self : MockLayerBuilder) : MockLayer :=
  {| expected := b_expected self; current := []; cells := cells |}.

(** Where the state of the mock layer is kept. *)
Class MockSlot (U : Type) := {
  mock_of : U -> MockLayer;
  set_mock : MockLayer -> U -> U;
  mock_of_set m u : mock_of (set_mock m u) = m;
}.

Section layer.
Context `{E : Env} {P : PoolOps DataInner} {C : FmtCrates} `{!MockSlot UserState}.
Variable fuel : nat.

Definition get_mock : M MockLayer := gets (fun w => mock_of (user w)).
Definition put_mock (m : MockLayer) : M unit := modify (fun w => with_user (set_mock m (user w)) w).
(** [pop_front], and [front] with a [pop_front] later on. *)
Definition set_expected (rest : list Expect) : M unit :=
  m ← get_mock; put_mock {| expected := rest; current := current m; cells := cells m |}.
Definition set_current (ids : list Id) : M unit :=
  m ← get_mock; put_mock {| expected := expected m; current := ids; cells := cells m |}.

(** [impl From<&SpanRef> for ActualSpan] *)
Definition actual_of_ref (span : SpanRef) : ActualSpan :=
  {| as_id := span_id span; as_metadata := Some (span_metadata span) |}.

(** The iterator [current_scope] *)
Definition next_span (registry : DynSubscriber) (scope : option Scope) : M (option SpanRef * option Scope) :=
  match scope with
  | Some scope => '(span, scope) ← scope_iter_next fuel registry scope; mret (span, Some scope)
  | None => mret (None, None)
  end.
(** The loop over the expected spans and the current scope. *)
Fixpoint check_zipped (registry : DynSubscriber) (cells : Cells) (expected_scope : list ExpectedSpan)
    (current_scope : option Scope) (i : nat) : M (nat * option Scope) :=
  match expected_scope with
  | [] => mret (i, current_scope)
  | expected :: expected_scope =>
      '(actual, current_scope) ← next_span registry current_scope;
      match actual with
      | Some actual =>
          _ ← lift (ExpectedSpan.check expected (actual_of_ref actual) cells);
          check_zipped registry cells expected_scope current_scope (S i)
      | None => mret (i, current_scope)
      end
  end.
Definition check_event_scope (registry : DynSubscriber) (cells : Cells) (current_scope : option Scope)
    (expected_scope : list ExpectedSpan) : M unit :=
  '(i, current_scope) ← check_zipped registry cells expected_scope current_scope 0;
  _ ← lift (assert (bool_decide (drop i expected_scope = [])));
  '(more, _) ← next_span registry current_scope;
  lift (assert (bool_decide (span_id <$> more = None))).

(** The lookups are made when an ancestry is expected, and leave the world as it is. *)
Definition context_get_ancestry (item : Parent) (cx : Context_) (w : World) : outcome ActualAncestry :=
  current ← match item with
            | Current => fst <$> Context_.lookup_current cx w
            | _ => Done None
            end;
  parent ← match item, current with
           | Current, Some s => fst <$> Context_.span (span_id s) cx w
           | ParentExplicit id, _ => fst <$> Context_.span id cx w
           | _, _ => Done None
           end;
  get_ancestry item (span_id <$> current) (fun _ => actual_of_ref <$> parent).

(** A check that looks up what it needs. *)
Definition checked (check : World -> outcome unit) : M unit := fun w => _ ← check w; Done (tt, w).

(** ** [impl Layer for MockLayer] *)

Definition layer_on_register_dispatch : M unit :=
  self ← get_mock;
  match expected self with
  | ExpectOnRegisterDispatch :: rest => set_expected rest
  | _ => mret tt
  end.

(** [unimplemented!], and a panic *)
Definition on_record (id : Id) (values : ValueSet) (cx : Context_) : M unit := lift Panic.
Definition on_follows_from (span follows : Id) (cx : Context_) : M unit := lift Panic.
Definition on_id_change (old new : Id) (cx : Context_) : M unit := lift Panic.

Definition on_event (ev : Event) (cx : Context_) : M unit :=
  self ← get_mock;
  match expected self with
  | [] => mret tt
  | ExpectEvent e :: rest =>
      _ ← set_expected rest;
      _ ← checked (fun w => check_event debug_assertions e ev (context_get_ancestry (event_parent ev) cx w) (cells self));
      match ev_in_spans e, subscriber cx with
      | Some expected_scope, Some registry =>
          current_scope ← Context_.event_scope ev cx;
          check_event_scope registry (cells self) current_scope expected_scope
      | Some expected_scope, None => check_event_scope registry_subscriber (cells self) None expected_scope
      | None, _ => mret tt
      end
  | e :: _ => lift (bad e)
  end.

Definition on_new_span (span : Attributes) (id : Id) (cx : Context_) : M unit :=
  self ← get_mock;
  match expected self with
  | ExpectNewSpan e :: rest =>
      _ ← set_expected rest;
      checked (fun w => check_new_span debug_assertions e span (context_get_ancestry (attr_parent span) cx w) (cells self))
  | _ => mret tt
  end.

Definition on_enter (id : Id) (cx : Context_) : M unit :=
  span ← Context_.span id cx;
  span ← lift (expect span);
  self ← get_mock;
  _ ← match expected self with
      | [] => mret tt
      | ExpectEnter e :: rest =>
          _ ← set_expected rest; lift (ExpectedSpan.check e (actual_of_ref span) (cells self))
      | e :: _ => lift (bad e)
      end;
  set_current (current self ++ [id])%list.

Definition on_exit (id : Id) (cx : Context_) : M unit :=
  panicking ← gets panicking;
  if (panicking : bool) then mret tt
  else
    span ← Context_.span id cx;
    span ← lift (expect span);
    self ← get_mock;
    match expected self with
    | [] => mret tt
    | ExpectExit e :: rest =>
        _ ← set_expected rest;
        _ ← lift (ExpectedSpan.check e (actual_of_ref span) (cells self));
        _ ← set_current (removelast (current self));
        lift (assert (bool_decide (last (current self) = Some id)))
    | e :: _ => lift (bad e)
    end.

(** Nobody else holds the lock of the queue. *)
Definition on_close (id : Id) (cx : Context_) : M unit :=
  panicking ← gets panicking;
  if (panicking : bool) then mret tt
  else
    span ← Context_.span id cx;
    self ← get_mock;
    match expected self with
    | ExpectDropSpan e :: rest =>
        _ ← match span with
            | Some span => lift (ExpectedSpan.check e (actual_of_ref span) (cells self))
            | None => mret tt
            end;
        set_expected rest
    | ExpectEvent _ :: _ => lift Panic
    | _ => mret tt
    end.

(** The other methods are the trait's. *)
Definition mock_layer : Layer := {|
  l_on_register_dispatch := layer_on_register_dispatch;
  l_register_callsite _ := mret Interest.always;
  l_enabled _ _ := mret true;
  l_max_level_hint := None;
  l_on_new_span := on_new_span;
  l_on_record := on_record;
  l_on_follows_from := on_follows_from;
  l_event_enabled _ _ := mret true;
  l_on_event := on_event;
  l_on_enter := on_enter;
  l_on_exit := on_exit;
  l_on_close := on_close;
  l_on_id_change := on_id_change;
  l_has_plf := false;
  l_is_none := false;
|}.
End layer.

(** ** The scope of an event *)

Section scopes.
Context `{E : Env} {P : PoolOps DataInner} {C : FmtCrates} `{!MockSlot UserState}.
Variable fuel : nat.
Context (reg : DynSubscriber) (Hreg : looks_up_registry reg).

(** The iterator goes through the spans [seen]. *)
Definition sees (w : World) (scope : option Scope) (seen : list SpanRef) : Prop :=
  match scope with
  | Some s => exists l, ancestry (spans w) (scope_next s) l /\ (length l < fuel)%nat /\
      seen = as_span (scope_filter s) <$> enabled_data (scope_filter s) l
  | None => seen = []
  end.
Definition span_checks (cells : Cells) (expected : ExpectedSpan) (actual : SpanRef) : Prop :=
  ExpectedSpan.check expected (actual_of_ref actual) cells = Done tt.

Lemma next_span_sees w scope seen :
  sees w scope seen ->
  exists scope', next_span fuel reg scope w = Done ((head seen, scope'), w) /\ sees w scope' (tail seen).
Proof.
  destruct scope as [[start f]|]; cbn [sees scope_next scope_filter]; [|intros ->; by exists None].
  intros (l & Ha & Hl & ->). destruct (after_enabled_ancestry f _ _ _ Ha) as (Ha' & Hd & Hlen).
  eexists. split.
  - cbn [next_span]. mred. rewrite (scope_next_spec reg Hreg f start l) by done. cbn.
    by destruct (enabled_data f l).
  - cbn [sees scope_next scope_filter]. exists (after_enabled f start l).2. rewrite Hd. split; [done|]. split; [lia|].
    by destruct (enabled_data f l).
Qed.

(** The same comparison on lists. *)
Fixpoint zip_checks (cells : Cells) (expected : list ExpectedSpan) (seen : list SpanRef) (i : nat) :
    outcome (nat * list SpanRef) :=
  match expected, seen with
  | e :: expected, s :: seen =>
      _ ← ExpectedSpan.check e (actual_of_ref s) cells; zip_checks cells expected seen (S i)
  | _, _ => Done (i, seen)
  end.

Lemma check_zipped_sees cells expected scope seen i w :
  sees w scope seen ->
  match zip_checks cells expected seen i with
  | Done (j, rest) => exists scope', check_zipped fuel reg cells expected scope i w = Done ((j, scope'), w) /\
      sees w scope' rest
  | Panic => check_zipped fuel reg cells expected scope i w = Panic
  end.
Proof.
  revert scope seen i. induction expected as [|e expected IH]; intros scope seen i Hs.
  - cbn. exists scope. by destruct seen.
  - destruct (next_span_sees w scope seen Hs) as (scope' & Hn & Hs').
    cbn [check_zipped zip_checks]. mred. rewrite Hn. destruct seen as [|s seen]; cbn [head]; [by exists scope'|].
    destruct (ExpectedSpan.check e (actual_of_ref s) cells) as [[]|]; [|done]. apply (IH _ _ (S i) Hs').
Qed.

Lemma zip_checks_all cells before expected seen :
  ('(j, rest) ← zip_checks cells expected seen (length before);
   _ ← assert (bool_decide (drop j (before ++ expected) = [])); assert (bool_decide (span_id <$> head rest = None)))
  = Done tt <-> Forall2 (span_checks cells) expected seen.
Proof.
  revert before seen. induction expected as [|e expected IH]; intros before seen.
  - cbn [zip_checks mbind outcome_bind]. rewrite app_nil_r, drop_all. cbn. destruct seen as [|s seen]; cbn.
    + split; [by intros|done].
    + split; [done|by intros ?%Forall2_nil_inv_l].
  - destruct seen as [|s seen]; cbn [zip_checks mbind outcome_bind].
    + rewrite drop_app_length. split; [done|by intros ?%Forall2_nil_inv_r].
    + rewrite Forall2_cons. unfold span_checks at 1.
      destruct (ExpectedSpan.check e (actual_of_ref s) cells) as [[]|]; cbn [mbind outcome_bind]; [|by split; [|intros []]].
      specialize (IH (before ++ [e])%list seen). rewrite length_app, <- app_assoc, Nat.add_1_r in IH. cbn [app] in IH.
      rewrite IH. naive_solver.
Qed.

Lemma check_event_scope_spec cells expected scope seen w w' :
  sees w scope seen ->
  check_event_scope fuel reg cells scope expected w = Done (tt, w') <->
  Forall2 (span_checks cells) expected seen /\ w' = w.
Proof.
  intros Hs. rewrite <- (zip_checks_all cells [] expected seen). cbn [length app].
  pose proof (check_zipped_sees cells expected scope seen 0 w Hs) as Hz.
  unfold check_event_scope. mred. destruct (zip_checks cells expected seen 0) as [[j rest]|].
  - destruct Hz as (scope' & -> & Hs'). cbn [mbind outcome_bind].
    destruct (next_span_sees w scope' rest Hs') as (scope'' & Hn & _).
    destruct (assert (bool_decide (drop j expected = []))) as [[]|]; [|naive_solver].
    rewrite Hn. destruct (assert _) as [[]|]; naive_solver.
  - rewrite Hz. naive_solver.
Qed.

(** The state of the mock layer after an expectation has been met. *)
Definition popped (rest : list Expect) (w : World) : World :=
  let m := mock_of (user w) in
  with_user (set_mock {| expected := rest; current := current m; cells := cells m |} (user w)) w.

(** When an event with spans is expected next, the layer does not panic exactly when the
    event is as expected and the scope that the layer's filter lets it see consists of as
    many spans, from the event outwards, each as expected; nothing but the queue changes. *)
Theorem event_scope_checked (ev : Event) (f : FilterId.t) (e : ExpectedEvent) (rest : list Expect)
    (expected_scope : list ExpectedSpan) (scope : option Scope) (seen : list SpanRef) (w w' : World) :
  let cx := {| subscriber := Some reg; filter := f |} in
  expected (mock_of (user w)) = ExpectEvent e :: rest -> ev_in_spans e = Some expected_scope ->
  Context_.event_scope ev cx (popped rest w) = Done (scope, popped rest w) ->
  sees (popped rest w) scope seen ->
  on_event fuel ev cx w = Done (tt, w') <->
  check_event debug_assertions e ev (context_get_ancestry (event_parent ev) cx (popped rest w))
    (cells (mock_of (user w))) = Done tt /\
  Forall2 (span_checks (cells (mock_of (user w)))) expected_scope seen /\ w' = popped rest w.
Proof.
  intros cx He Hin Hscope Hs. unfold on_event, set_expected, get_mock, put_mock, checked. mred. rewrite He, Hin.
  fold (popped rest w). destruct (check_event _ _ _ _ _) as [[]|]; [|naive_solver].
  unfold cx in *. cbn [subscriber]. rewrite Hscope. rewrite (check_event_scope_spec _ _ _ _ _ _ Hs). naive_solver.
Qed.
End scopes.

(** ** An event in two spans *)

Module MockLayerExample.

Import MockFieldsExample.
#[local] Existing Instance MockFieldsExample.crates.
#[local] Instance env : Env := {|
  debug_assertions := true; ext_types := fun _ => unit; UserState := MockLayer;
|}.
#[local] Instance pool_ops : PoolOps DataInner := map_pool default_data.
#[local] Instance slot : @MockSlot MockLayer.
Proof. by refine {| mock_of m := m; set_mock m _ := m |}. Defined.

Definition span_data (name : string) (parent : option Id) : DataInner := {|
  filter_map := FilterMap.new; Registry.metadata := meta_for name 1 ["n"] Kind.SPAN;
  parent := parent; ref_count := 1; extensions := ∅;
|}.
Definition outer : Data := {| key := 0; inner := span_data "outer" None |}.
Definition inner_span : Data := {| key := 1; inner := span_data "inner" (Some (idx_to_id 0)) |}.
Definition hello : Event := Event.new (meta_for "event" 2 ["message"; "n"] Kind.EVENT) actual.
Definition in_spans (names : list string) : ExpectedEvent :=
  ExpectedEvent.in_scope (ExpectedSpan.from_name <$> names) MockExpect.event.
(** The thread is in [inner] of [outer]. *)
Definition world (ms : MockLayerBuilder) : World := {|
  filtering := FilterState.new; close_count := 0;
  current_spans := Some [{| SpanStack.ctx_id := idx_to_id 1; SpanStack.duplicate := false |}]; panicking := false;
  spans := {| live := <[0%Z := inner outer]> {[ 1%Z := inner inner_span ]}; spare := [] |};
  next_filter_id := 0;
  user := run [] ms;
|}.
Definition cx : Context_ := Context_.new registry_subscriber.
Definition left_over {A} (r : outcome (A * World)) : outcome (list Expect) :=
  '(_, w) ← r; Done (expected (user w)).

Example both_spans :
  left_over (on_event 5 hello cx (world (only (event (in_spans ["inner"; "outer"]) (mock None))))) =
  Done [ExpectNothing].
Proof. vm_compute. reflexivity. Qed.
(** Neither a part of the scope nor another order will do. *)
Example inner_alone : on_event 5 hello cx (world (event (in_spans ["inner"]) (mock None))) = Panic.
Proof. vm_compute. reflexivity. Qed.
Example outer_first : on_event 5 hello cx (world (event (in_spans ["outer"; "inner"]) (mock None))) = Panic.
Proof. vm_compute. reflexivity. Qed.
(** Unlike the subscriber, the layer does not set the identifier of a span: what refers to
    it panics. *)
Example layer_sets_no_id :
  let work := ExpectedSpan.with_id 0%nat (ExpectedSpan.from_name "inner") in
  let ms := enter work (new_span (new_span_from work) (mock None)) in
  let attrs := Attributes.new (meta_for "inner" 1 ["n"] Kind.SPAN) (values_of 1 [("n", VI64 7)]) in
  let w := with_user {| expected := b_expected ms; current := []; cells := [UNSET] |} (world ms) in
  (_ ← on_new_span attrs (idx_to_id 1) cx; on_enter (idx_to_id 1) cx) w = Panic.
Proof. vm_compute. reflexivity. Qed.

End MockLayerExample.

Section witness.
Import MockFieldsExample MockLayerExample.
#[local] Existing Instances MockFieldsExample.crates env pool_ops slot.

Lemma event_scope_checked_witness :
  let w := world (event (in_spans ["inner"; "outer"]) (mock None)) in
  on_event 5 hello cx w = Done (tt, popped [] w).
Proof.
  intros w.
  apply (event_scope_checked 5 registry_subscriber registry_looks_up hello FilterId.none
           (in_spans ["inner"; "outer"]) [] (ExpectedSpan.from_name <$> ["inner"; "outer"])
           (Some {| scope_next := Some (idx_to_id 1); scope_filter := FilterId.none |})
           (as_span FilterId.none <$> [inner_span; outer]) w (popped [] w)).
  - reflexivity.
  - reflexivity.
  - vm_compute. reflexivity.
  - exists [inner_span; outer]. split.
    + apply (ancestry_cons _ (idx_to_id 1) (inner inner_span) [outer]); [reflexivity|].
      apply (ancestry_cons _ (idx_to_id 0) (inner outer) []); [reflexivity|constructor].
    + split; [cbn; lia|vm_compute; reflexivity].
  - split; [vm_compute; reflexivity|]. split; [|reflexivity].
    apply Forall2_cons_2; [vm_compute; reflexivity|]. apply Forall2_cons_2; [vm_compute; reflexivity|].
    apply Forall2_nil_2.
Defined.
End witness.
