(* ===== verification/Pretty.v ===== *)
(** * Pretty: [tracing-subscriber/src/fmt/format/pretty.rs]

    The pretty format: an event over several lines, with its fields, its source location,
    its thread and the spans that it is in, from the innermost outwards. *)

From stdpp Require Import pretty.
From S2P Require Import Prelude.
From S2P Require Import Str.
From S2P Require Import Levels.
From S2P Require Import Fields.
From S2P Require Import Meta.
From S2P Require Import FilterIds.
From S2P Require Import Extensions.
From S2P Require Import Registry.
From S2P Require Import Pools.
From S2P Require Import Contexts.
From S2P Require Import Escape.
From S2P Require Import Format.
From S2P Require Import FormatEvent.
From S2P Require Import FmtLayer.

Local Open Scope string_scope.

(** ** Outside of the repository

    The styles of [nu_ansi_term], as a struct: the codes that begin a style, that end it
    and that go from one style to another. *)
Record AnsiStyle := { foreground : option Color; is_bold : bool; is_dimmed : bool; is_italic : bool }.
Definition style_new : AnsiStyle := {| foreground := None; is_bold := false; is_dimmed := false; is_italic := false |}.
Definition style_fg (c : Color) (s : AnsiStyle) : AnsiStyle :=
  {| foreground := Some c; is_bold := is_bold s; is_dimmed := is_dimmed s; is_italic := is_italic s |}.
Definition style_bold (s : AnsiStyle) : AnsiStyle :=
  {| foreground := foreground s; is_bold := true; is_dimmed := is_dimmed s; is_italic := is_italic s |}.
Definition style_dimmed (s : AnsiStyle) : AnsiStyle :=
  {| foreground := foreground s; is_bold := is_bold s; is_dimmed := true; is_italic := is_italic s |}.
Definition style_italic (s : AnsiStyle) : AnsiStyle :=
  {| foreground := foreground s; is_bold := is_bold s; is_dimmed := is_dimmed s; is_italic := true |}.

Class AnsiCrate := {
  ansi_prefix : AnsiStyle -> string;
  ansi_suffix : AnsiStyle -> string;
  ansi_infix : AnsiStyle -> AnsiStyle -> string;
}.

Section visitor.
Context {C : FmtCrates} {A : AnsiCrate}.

Definition ansi_paint (st : AnsiStyle) (s : string) : string := ansi_prefix st ++ s ++ ansi_suffix st.

(** ** [struct PrettyVisitor] *)

Record PrettyVisitor := {
  pv_writer : Writer;
  pv_is_empty : bool;
  pv_style : AnsiStyle;
  pv_result : result unit unit;
}.

Definition pretty_visitor_new (w : Writer) (is_empty : bool) : PrettyVisitor :=
  {| pv_writer := w; pv_is_empty := is_empty; pv_style := style_new; pv_result := Ok tt |}.
Definition with_style (st : AnsiStyle) (self : PrettyVisitor) : PrettyVisitor :=
  {| pv_writer := pv_writer self; pv_is_empty := pv_is_empty self; pv_style := st; pv_result := pv_result self |}.
Definition write_padded (value : string) (self : PrettyVisitor) : PrettyVisitor :=
  let padding := if pv_is_empty self then "" else ", " in
  {| pv_writer := write_str (padding ++ value) (pv_writer self); pv_is_empty := false;
     pv_style := pv_style self; pv_result := Ok tt |}.
Definition visitor_bold (w : Writer) (st : AnsiStyle) : AnsiStyle :=
  if is_ansi w then style_bold st else style_new.

(** The text of a field. *)
Definition pretty_text (w : Writer) (st : AnsiStyle) (name : string) (value : DebugValue) : string :=
  let bold := visitor_bold w st in
  if (name =? "message")%string then ansi_prefix st ++ escaped w (debug_fmt value)
  else
    ansi_prefix bold ++ (if starts_with name "r#" then str_drop 2 name else name) ++
    ansi_infix bold st ++ ": " ++ String.concat "" (debug_fmt value).

(** The methods of [Visit]; [Field::name] may panic. *)
Definition pretty_record_debug (field : Field) (value : DebugValue) (st : outcome PrettyVisitor) :
    outcome PrettyVisitor :=
  self ← st;
  match pv_result self with
  | Err _ => Done self
  | Ok _ =>
      name ← Field.name field;
      if negb (name =? "message")%string && tracing_log && starts_with name "log." then Done self
      else Done (write_padded (pretty_text (pv_writer self) (pv_style self) name value) self)
  end.
Definition pretty_record_str (field : Field) (value : string) (st : outcome PrettyVisitor) :
    outcome PrettyVisitor :=
  self ← st;
  match pv_result self with
  | Err _ => Done self
  | Ok _ =>
      name ← Field.name field;
      pretty_record_debug field
        (if (name =? "message")%string then DebugChunks [value] else DebugStr value) (Done self)
  end.
Definition pretty_error_text (w : Writer) (st : AnsiStyle) (name : string) (value : ErrorValue) : string :=
  let bold := visitor_bold w st in
  match error_sources value with
  | [] => escaped w (error_display value)
  | sources =>
      escaped w (error_display value) ++ ", " ++ ansi_prefix bold ++ name ++ ".sources" ++
      ansi_infix bold st ++ ": " ++ error_source_list w sources
  end.
Definition pretty_record_error (field : Field) (value : ErrorValue) (st : outcome PrettyVisitor) :
    outcome PrettyVisitor :=
  self ← st;
  let record name := pretty_record_debug field
    (DebugChunks [pretty_error_text (pv_writer self) (pv_style self) name value]) (Done self) in
  match error_sources value with
  | [] => record ""
  | _ => match pv_result self with
         | Err _ => Done self
         | Ok _ => name ← Field.name field; record name
         end
  end.

Definition pretty_visitor : Visit (outcome PrettyVisitor) :=
  let default := default_visit pretty_record_debug in {|
  record_f64 := record_f64 default;
  record_i64 := record_i64 default;
  record_u64 := record_u64 default;
  record_i128 := record_i128 default;
  record_u128 := record_u128 default;
  record_bool := record_bool default;
  Fields.record_str := pretty_record_str;
  record_bytes := record_bytes default;
  Fields.record_error := pretty_record_error;
  Fields.record_debug := pretty_record_debug;
|}.

(** [VisitOutput::finish] *)
Definition pretty_finish (self : PrettyVisitor) : Writer * result unit unit :=
  (write_str (ansi_suffix (pv_style self)) (pv_writer self), pv_result self).

(** ** [struct Pretty], [struct PrettyFields] *)

Record Pretty := { display_location : bool }.
Definition pretty_default : Pretty := {| display_location := true |}.
Definition pretty_with_source_location (b : bool) (self : Pretty) : Pretty := {| display_location := b |}.
Definition style_for (l : Level.t) : AnsiStyle := style_fg (level_color l) style_new.

(** [impl FormatFields for Pretty] *)
Definition pretty_format_fields : ValueSet -> Writer -> outcome (Writer * result unit unit) :=
  visitor_format_fields (fun w => pretty_visitor_new w true) pretty_visitor pretty_finish.
Definition pretty_add_fields (current : FormattedFields) (fields : ValueSet) :
    outcome (FormattedFields * result unit unit) :=
  let empty := (ff_fields current =? "")%string in
  v ← ValueSet.record fields pretty_visitor (Done (pretty_visitor_new (as_writer current) empty));
  let '(w, r) := pretty_finish v in
  Done (with_fields (text w) current, r).
Definition pretty_fields_of : FormatFields :=
  {| format_fields := pretty_format_fields; add_fields := pretty_add_fields |}.

Record PrettyFields := { pf_ansi : option bool }.
Definition pretty_fields_new : PrettyFields := {| pf_ansi := None |}.
Definition pretty_fields_with_ansi (b : bool) (self : PrettyFields) : PrettyFields := {| pf_ansi := Some b |}.
(** [impl MakeVisitor for PrettyFields] *)
Definition pretty_make_visitor (self : PrettyFields) (target : Writer) : PrettyVisitor :=
  pretty_visitor_new (match pf_ansi self with Some b => Format.with_ansi b target | None => target end) true.
End visitor.

(** ** [Format<Pretty>::format_event] *)

Section format.
Context `{E : Env} {P : PoolOps DataInner} {C : FmtCrates} {A : AnsiCrate} `{!FmtEnv} `{!FieldsSlot}.
Variable fuel : nat.

Definition pretty_target (format : Pretty) (self : Format) (meta : Metadata) (style : AnsiStyle)
    (ansi : bool) : FM unit :=
  let target_style := if ansi then style_bold style else style in
  _ ← write_when (display_target self)
        (write (ansi_prefix target_style ++ Metadata.target meta ++ ansi_infix target_style style ++ ":"));
  let line_number := if display_line_number self then Metadata.line meta else None in
  match line_number with
  | Some line_number =>
      write_when (negb (display_filename self) && display_location format)
        (write (ansi_prefix style ++ pretty line_number ++ ansi_infix style style ++ ":"))
  | None => mret tt
  end.

(** The recorded fields of the event. *)
Definition pretty_event_fields (style : AnsiStyle) (ev : Event) : FM unit := fun w =>
  lift (v ← Event.record ev pretty_visitor (Done (with_style style (pretty_visitor_new w true)));
        Done (pretty_finish v)).

Definition pretty_location (format : Pretty) (self : Format) (meta : Metadata) (dimmed : AnsiStyle) : FM unit :=
  let thread := display_thread_name self || display_thread_id self in
  let line_number := if display_line_number self then Metadata.line meta else None in
  match Metadata.file meta, display_location format && display_filename self with
  | Some file, true =>
      _ ← write ("    " ++ ansi_paint dimmed "at" ++ " " ++ file);
      _ ← match line_number with Some line => write (":" ++ pretty line) | None => mret tt end;
      write (if thread then " " else NL)
  | _, _ => write_when thread (write "    ")
  end.

Definition pretty_thread (self : Format) (dimmed : AnsiStyle) : FM unit :=
  write_when (display_thread_name self || display_thread_id self)
    (_ ← write (ansi_paint dimmed "on" ++ " ");
     thread ← get_m (gets (fun w => this_thread (user w)));
     _ ← (if display_thread_name self then
            match thread_name thread with
            | Some name => _ ← write name; write_when (display_thread_id self) (write " ")
            | None => mret tt
            end
          else mret tt);
     _ ← write_when (display_thread_id self) (write ("ThreadId(" ++ pretty (thread_id thread) ++ ")"));
     write NL).

(** [expect] of the fields of the span *)
Definition pretty_span (self : Format) (dimmed bold : AnsiStyle) (span : SpanRef) : FM unit :=
  _ ← write ("    " ++ ansi_paint dimmed "in" ++ " " ++
             (if display_target self then Metadata.target (span_metadata span) ++ "::" else "") ++
             ansi_paint bold (span_name span));
  fields ← get_m (lift (expect (span_fields_of span)));
  _ ← write_when (negb (ff_fields fields =? "")%string)
        (write (" " ++ ansi_paint dimmed "with" ++ " " ++ ff_fields fields));
  write NL.

(** The scope, from the innermost span. *)
Definition spans_outwards (cx : Context_) (span : option SpanRef) : M (list SpanRef) :=
  match span, subscriber cx with
  | Some span, Some registry => scope_collect fuel registry (span_scope_of span)
  | _, _ => mret []
  end.

(** [event.parent().and_then(span).or_else(lookup_current)] *)
Definition pretty_current (cx : Context_) (ev : Event) : M (option SpanRef) :=
  span ← match Event.parent ev with Some id => Context_.span id cx | None => mret None end;
  match span with
  | Some span => mret (Some span)
  | None => Context_.lookup_current cx
  end.

Definition pretty_lines (format : Pretty) (self : Format) (cx : FmtContext) (ev : Event)
    (meta : Metadata) : FM unit :=
  _ ← format_timestamp self;
  ansi ← ask is_ansi;
  let style := if display_level self && ansi then style_for (Metadata.level meta) else style_new in
  _ ← write_when (display_level self) (write (fmt_level (Metadata.level meta) ansi ++ " "));
  _ ← pretty_target format self meta style ansi;
  _ ← write " ";
  _ ← pretty_event_fields style ev;
  _ ← write NL;
  let dimmed := if (ansi : bool) then style_italic (style_dimmed style_new) else style_new in
  _ ← pretty_location format self meta dimmed;
  _ ← pretty_thread self dimmed;
  let bold := if (ansi : bool) then style_bold style_new else style_new in
  span ← get_m (pretty_current (ctx cx) ev);
  spans ← get_m (spans_outwards (ctx cx) span);
  _ ← for_each (pretty_span self dimmed bold) spans;
  write NL.

(** The rest is written with the setting of the [Format], if it has one. *)
Definition in_format_ansi (self : Format) (m : FM unit) : FM unit := fun w => m (set_ansi self w).

Definition format_event_pretty (format : Pretty) (self : Format) (cx : FmtContext) (ev : Event) : FM unit :=
  meta ← get_m (shown_metadata ev);
  _ ← write "  ";
  in_format_ansi self (pretty_lines format self cx ev meta).
End format.

(** ** What the field formatter writes *)

Section pretty_fields_spec.
Context {C : FmtCrates} {A : AnsiCrate}.

#[local] Arguments write_str : simpl never.
#[local] Arguments pretty_record_debug : simpl never.
#[local] Arguments pretty_record_str : simpl never.
#[local] Arguments pretty_record_error : simpl never.

(** The value that is printed with [Debug], if there is one. *)
Fixpoint debugged (w : Writer) (st : AnsiStyle) (name : string) (v : Value) : option DebugValue :=
  match v with
  | VF64 v => Some (DebugF64 v)
  | VI64 v | VU64 v | VI128 v | VU128 v => Some (DebugInt v)
  | VBool v => Some (DebugBool v)
  | VStr v => Some (if (name =? "message")%string then DebugChunks [v] else DebugStr v)
  | VBytes v => Some (HexBytes v)
  | VError v => Some (DebugChunks [pretty_error_text w st name v])
  | VDebug v => Some v
  | VEmpty | VNone => None
  | VSome v => debugged w st name v
  end.

Definition pretty_hidden (name : string) : bool :=
  negb (name =? "message")%string && tracing_log && starts_with name "log.".
Definition pretty_piece (w : Writer) (st : AnsiStyle) (x : Field * Value) : option string :=
  if pretty_hidden (name_of x.1) then None
  else pretty_text w st (name_of x.1) <$> debugged w st (name_of x.1) x.2.
Definition pretty_pieces (w : Writer) (st : AnsiStyle) (vs : ValueSet) : list string :=
  omap (pretty_piece w st) (recorded vs).

(** The pieces after what a visitor has written already. *)
Definition comma_glue (first : bool) (l : list string) : string :=
  if first then join ", " l else String.concat "" (map (fun s => ", " ++ s) l).
Lemma comma_glue_cons b x l :
  comma_glue b (x :: l) = ((if b then "" else ", ") ++ x) ++ comma_glue false l.
Proof. destruct b; unfold comma_glue; [by rewrite join_cons|]. cbn [map]. by rewrite concat_cons. Qed.

Definition pretty_wrote (l : list string) (v : PrettyVisitor) : PrettyVisitor :=
  {| pv_writer := write_str (comma_glue (pv_is_empty v) l) (pv_writer v);
     pv_is_empty := pv_is_empty v && bool_decide (l = []); pv_style := pv_style v; pv_result := Ok tt |}.

Lemma pretty_wrote_nil v : pv_result v = Ok tt -> pretty_wrote [] v = v.
Proof.
  destruct v as [w b st r]. cbn. intros ->. unfold pretty_wrote. cbn. rewrite andb_true_r.
  unfold comma_glue. cbn. by destruct b; rewrite write_str_nil.
Qed.
Lemma pretty_wrote_cons x l v :
  pretty_wrote l (pretty_wrote [x] v) = pretty_wrote (x :: l) v.
Proof.
  unfold pretty_wrote. cbn. rewrite write_str_app, !andb_false_r. f_equal. f_equal.
  rewrite (comma_glue_cons _ x l), (comma_glue_cons _ x []). unfold comma_glue at 2. cbn. by rewrite append_nil_r.
Qed.

Lemma pretty_record_debug_spec f name d v :
  Field.name f = Done name -> pv_result v = Ok tt ->
  pretty_record_debug f d (Done v) =
  Done (pretty_wrote (if pretty_hidden name then [] else [pretty_text (pv_writer v) (pv_style v) name d]) v).
Proof.
  intros Hf Hv. unfold pretty_record_debug, pretty_hidden. cbn [mbind outcome_bind]. rewrite Hv, Hf.
  cbn [mbind outcome_bind]. destruct (_ && tracing_log && _); [by rewrite pretty_wrote_nil|].
  unfold write_padded, pretty_wrote. rewrite andb_false_r, comma_glue_cons. unfold comma_glue. cbn.
  by rewrite append_nil_r.
Qed.

Lemma pretty_value_spec f name v vis :
  Field.name f = Done name -> pv_result vis = Ok tt ->
  value_record v f pretty_visitor (Done vis) =
  Done (pretty_wrote (option_list (pretty_piece (pv_writer vis) (pv_style vis) (f, v))) vis).
Proof.
  intros Hf Hv. unfold pretty_piece, name_of. cbn [fst snd]. rewrite Hf.
  induction v; cbn [value_record debugged]; try (cbn; rewrite (pretty_record_debug_spec f name) by done);
    try (by destruct (pretty_hidden name)).
  - cbn. unfold pretty_record_str. cbn [mbind outcome_bind]. rewrite Hv, Hf. cbn [mbind outcome_bind].
    rewrite (pretty_record_debug_spec f name) by done. by destruct (pretty_hidden name).
  - cbn. unfold pretty_record_error, pretty_error_text. cbn [mbind outcome_bind]. rewrite Hv, Hf.
    destruct (error_sources v); cbn [mbind outcome_bind]; rewrite (pretty_record_debug_spec f name) by done;
      by destruct (pretty_hidden name).
  - by destruct (pretty_hidden name); rewrite pretty_wrote_nil.
  - by destruct (pretty_hidden name); rewrite pretty_wrote_nil.
Qed.
(** The texts depend on the flags of the writer only. *)
Lemma pretty_piece_flags w w' st x :
  Format.is_ansi w = Format.is_ansi w' -> ansi_sanitization w = ansi_sanitization w' ->
  pretty_piece w st x = pretty_piece w' st x.
Proof.
  destruct w, w'. cbn. intros -> ->. unfold pretty_piece. destruct (pretty_hidden _); [done|].
  destruct x as [f y]. cbn. by induction y.
Qed.

Lemma pretty_record_all l v :
  Forall (fun x => is_Some (match Field.name x.1 with Done nm => Some nm | Panic => None end)) l ->
  pv_result v = Ok tt ->
  fold_left (fun st '(f, y) => value_record y f pretty_visitor st) l (Done v) =
  Done (pretty_wrote (omap (pretty_piece (pv_writer v) (pv_style v)) l) v).
Proof.
  revert v. induction l as [|[f y] l IH]; intros v Hl Hv.
  - cbn. by rewrite pretty_wrote_nil.
  - apply Forall_cons in Hl as [[nm Hf] Hl]. cbn [fst] in Hf.
    assert (Field.name f = Done nm) as Hname by (destruct (Field.name f); congruence).
    cbn [fold_left]. rewrite (pretty_value_spec f nm) by done. rewrite IH by done.
    rewrite (list_omap_ext _ (pretty_piece (pv_writer v) (pv_style v)) l l)
      by (clear; induction l; constructor; [by apply pretty_piece_flags|done]).
    cbn [omap list_omap]. destruct (pretty_piece (pv_writer v) (pv_style v) (f, y)) as [s|]; cbn [option_list].
    + change (option_list (Some s)) with [s]. by rewrite pretty_wrote_cons.
    + change (option_list (@None string)) with (@nil string). by rewrite (pretty_wrote_nil v).
Qed.
End pretty_fields_spec.

(** ** What the format writes *)

Section pretty_event_spec.
Context `{E : Env} {P : PoolOps DataInner} {C : FmtCrates} {CL : FmtCratesLaws C} {A : AnsiCrate}
  {F : FmtEnv} {S : FieldsSlot}.
Variable fuel : nat.
#[local] Arguments write_str : simpl never.
#[local] Arguments FM_bind : simpl never.
Implicit Types (self : Format) (format : Pretty).

Definition event_style self (w : Writer) (meta : Metadata) : AnsiStyle :=
  if display_level self && is_ansi w then style_for (Metadata.level meta) else style_new.
Definition dim (w : Writer) : AnsiStyle := if is_ansi w then style_italic (style_dimmed style_new) else style_new.
Definition bold_of (w : Writer) : AnsiStyle := if is_ansi w then style_bold style_new else style_new.

Definition shown_line self (meta : Metadata) : option Z :=
  if display_line_number self then Metadata.line meta else None.
Definition target_text format self (w : Writer) (meta : Metadata) : string :=
  let style := event_style self w meta in
  let target_style := if is_ansi w then style_bold style else style in
  (if display_target self
   then ansi_prefix target_style ++ Metadata.target meta ++ ansi_infix target_style style ++ ":" else "") ++
  match shown_line self meta with
  | Some line =>
      if negb (display_filename self) && display_location format
      then ansi_prefix style ++ pretty line ++ ansi_infix style style ++ ":" else ""
  | None => ""
  end.
Definition fields_text self (w : Writer) (ev : Event) : string :=
  let style := event_style self w (meta_of ev) in
  join ", " (pretty_pieces w style (event_fields ev)) ++ ansi_suffix style.
Definition location_text format self (w : Writer) (meta : Metadata) : string :=
  let thread := display_thread_name self || display_thread_id self in
  match Metadata.file meta, display_location format && display_filename self with
  | Some file, true =>
      ("    " ++ ansi_paint (dim w) "at" ++ " " ++ file) ++
      (match shown_line self meta with Some line => ":" ++ pretty line | None => "" end) ++
      (if thread then " " else NL)
  | _, _ => if thread then "    " else ""
  end.
Definition pretty_thread_text self (w : Writer) (thread : Thread) : string :=
  if display_thread_name self || display_thread_id self then
    (ansi_paint (dim w) "on" ++ " ") ++
    (match thread_name thread, display_thread_name self with
     | Some name, true => name ++ (if display_thread_id self then " " else "")
     | _, _ => ""
     end) ++
    (if display_thread_id self then "ThreadId(" ++ pretty (thread_id thread) ++ ")" else "") ++ NL
  else "".
Definition pretty_span_text self (w : Writer) (span : SpanRef) : string :=
  ("    " ++ ansi_paint (dim w) "in" ++ " " ++
   (if display_target self then Metadata.target (span_metadata span) ++ "::" else "") ++
   ansi_paint (bold_of w) (span_name span)) ++
  (match span_fields_of span with
   | Some fields =>
       if (ff_fields fields =? "")%string then "" else " " ++ ansi_paint (dim w) "with" ++ " " ++ ff_fields fields
   | None => ""
   end) ++ NL.

(** The lines of an event: what happened, where, and each span from the innermost. *)
Definition pretty_event_text format self (w : Writer) (ts : string) (ok : bool) (thread : Thread)
    (spans : list SpanRef) (ev : Event) : string :=
  "  " ++ time_text self w ts ok ++ level_text self w (Metadata.level (meta_of ev)) ++
  target_text format self w (meta_of ev) ++ " " ++ fields_text self w ev ++ NL ++
  location_text format self w (meta_of ev) ++ pretty_thread_text self w thread ++
  String.concat "" (map (pretty_span_text self w) spans) ++ NL.

Lemma target_writes format self meta W w w' :
  writes (pretty_target format self meta (event_style self w meta) (is_ansi w)) W W w' (target_text format self w meta).
Proof.
  unfold pretty_target, target_text, shown_line. eapply writes_bind; [apply writes_write_when|].
  destruct (if display_line_number self then Metadata.line meta else None);
    [apply writes_write_when|apply writes_nil].
Qed.

Lemma pretty_event_fields_writes style ev W w :
  named (event_fields ev) ->
  writes (pretty_event_fields style ev) W W w (join ", " (pretty_pieces w style (event_fields ev)) ++ ansi_suffix style).
Proof.
  intros Hn. unfold writes, pretty_event_fields, Event.record. rewrite record_recorded.
  rewrite (pretty_record_all _ (with_style style (pretty_visitor_new w true)) Hn eq_refl). mred.
  unfold pretty_finish, pretty_wrote. cbn [pv_writer pv_style pv_is_empty pv_result with_style pretty_visitor_new].
  by rewrite write_str_app.
Qed.

Lemma location_writes format self meta W w w' :
  writes (pretty_location format self meta (dim w)) W W w' (location_text format self w meta).
Proof.
  unfold pretty_location, location_text, shown_line.
  destruct (Metadata.file meta) as [file|]; [|apply writes_write_when].
  destruct (display_location format && display_filename self); [|apply writes_write_when].
  eapply writes_bind; [apply writes_write|]. eapply writes_bind; [|apply writes_write].
  destruct (if display_line_number self then Metadata.line meta else None);
    [apply writes_write|apply writes_nil].
Qed.

Lemma pretty_thread_writes self W w w' :
  writes (pretty_thread self (dim w)) W W w' (pretty_thread_text self w (this_thread (user W))).
Proof.
  unfold pretty_thread, pretty_thread_text. destruct (_ || _); [|apply writes_nil]. cbn [write_when].
  eapply writes_bind; [apply writes_write|]. eapply writes_get; [reflexivity|].
  eapply writes_bind; [|eapply writes_bind; [apply writes_write_when|apply writes_write]].
  destruct (thread_name (this_thread (user W))), (display_thread_name self); try apply writes_nil.
  eapply writes_bind; [apply writes_write|apply writes_write_when].
Qed.

Lemma pretty_span_writes self span W w w' :
  is_Some (span_fields_of span) ->
  writes (pretty_span self (dim w) (bold_of w) span) W W w' (pretty_span_text self w span).
Proof.
  intros [ff Hf]. unfold pretty_span, pretty_span_text. rewrite Hf.
  eapply writes_bind; [apply writes_write|]. eapply writes_get; [reflexivity|].
  eapply writes_bind; [|apply writes_write].
  destruct (ff_fields ff =? "")%string; [apply writes_nil|apply writes_write].
Qed.

Lemma pretty_spans_writes self spans W w w' :
  Forall (fun span => is_Some (span_fields_of span)) spans ->
  writes (for_each (pretty_span self (dim w) (bold_of w)) spans) W W w'
    (String.concat "" (map (pretty_span_text self w) spans)).
Proof.
  intros H. revert w'. induction H as [|span spans Hs _ IH]; intros w'; [apply writes_nil|].
  cbn [for_each map]. rewrite concat_cons. eapply writes_bind; [by apply pretty_span_writes|apply IH].
Qed.
Lemma pretty_pieces_flags w w' st vs :
  Format.is_ansi w = Format.is_ansi w' -> ansi_sanitization w = ansi_sanitization w' ->
  pretty_pieces w st vs = pretty_pieces w' st vs.
Proof. intros H1 H2. apply list_omap_ext. induction (recorded vs); constructor; [|done]. by apply pretty_piece_flags. Qed.

(** The spans that the format shows: those of the scope of the span with the event's parent
    id or else of the current span, from the innermost. *)
Definition shown_spans (cx : Context_) (ev : Event) (W : World) (spans : list SpanRef) : Prop :=
  exists sp, pretty_current cx ev W = Done (sp, W) /\ spans_outwards fuel cx sp W = Done (spans, W).

(** They are its enabled ancestors. *)
Lemma shown_spans_ancestry cx reg ev W sp l :
  subscriber cx = Some reg -> looks_up_registry reg -> pretty_current cx ev W = Done (Some sp, W) ->
  ancestry (spans W) (Some (span_id sp)) l -> (length l < fuel)%nat ->
  shown_spans cx ev W (as_span (span_filter sp) <$> enabled_data (span_filter sp) l).
Proof.
  intros Hs Hreg Hsp Hl Hf. exists (Some sp). split; [done|]. unfold spans_outwards. rewrite Hs.
  unfold span_scope_of. by rewrite (scope_collect_spec reg Hreg _ _ l).
Qed.

(** The pretty format writes exactly these lines and changes no state, when the spans of the
    scope have stored fields. *)
Theorem pretty_format_lines format self (cx : FmtContext) (ev : Event) (W : World) (w : Writer)
    (ts : string) (ok : bool) (spans : list SpanRef) :
  timer_writes self ts ok -> named (event_fields ev) -> shown_spans (ctx cx) ev W spans ->
  Forall (fun span => is_Some (span_fields_of span)) spans ->
  format_event_pretty fuel format self cx ev w W =
  Done ((write_str (pretty_event_text format self (set_ansi self w) ts ok (this_thread (user W)) spans ev)
           (set_ansi self w), Ok tt), W).
Proof.
  intros Ht Hn (sp & Hsp & Hspans) Hf.
  assert (set_ansi self (write_str "  " w) = write_str "  " (set_ansi self w)) as Hset.
  { unfold set_ansi. by destruct (ansi self). }
  enough (writes (pretty_lines fuel format self cx ev (meta_of ev)) W W (write_str "  " (set_ansi self w))
    (str_drop 2 (pretty_event_text format self (set_ansi self w) ts ok (this_thread (user W)) spans ev))) as H.
  { unfold format_event_pretty, mbind, FM_bind, get_m, write, in_format_ansi. mred.
    rewrite shown_metadata_spec. rewrite Hset. unfold writes in H. rewrite H. by rewrite write_str_app. }
  clear Hset. generalize (set_ansi self w) as v. clear w. intros v.
  unfold pretty_lines, pretty_event_text. cbn [String.append str_drop].
  eapply writes_bind; [by apply (format_timestamp_writes self ts ok W (write_str "  " v))|]. apply writes_ask.
  eapply writes_bind; [apply writes_write_when|].
  eapply writes_bind; [apply (target_writes format self (meta_of ev) W v)|].
  eapply (writes_bind _ _ _ _ _ _ " "); [apply writes_write|].
  eapply writes_bind; [|eapply writes_bind; [apply writes_write|]].
  { eapply writes_eq; [by apply pretty_event_fields_writes|]. unfold fields_text. f_equal. f_equal.
    by apply pretty_pieces_flags. }
  eapply writes_bind; [apply (location_writes format self (meta_of ev) W v)|].
  eapply writes_bind; [apply (pretty_thread_writes self W v)|].
  eapply writes_get; [exact Hsp|]. eapply writes_get; [exact Hspans|].
  eapply writes_bind; [|apply writes_write]. by apply (pretty_spans_writes self spans W v).
Qed.
End pretty_event_spec.

(** ** An event in two spans *)

Module PrettyExample.
Import FmtExample.
#[local] Existing Instances env pool_ops slot fmt_env crates crates_laws.

#[local] Instance ansi_crate : AnsiCrate := {|
  ansi_prefix s := match foreground s with Some _ => code "31" | None => if is_bold s then code "1" else "" end;
  ansi_suffix s := match foreground s with Some _ => code "0" | None => if is_bold s then code "0" else "" end;
  ansi_infix _ _ := "";
|}.
Definition no_fields : FormattedFields := {| ff_fields := ""; was_ansi := false; was_ansi_sanitized := true |}.
Definition pretty_world : World :=
  with_spans {| live := <[0%Z := outer]> {[ 1%Z := span_data "inner" (Some (idx_to_id 0)) (Some no_fields) ]};
                spare := [] |} world.
Definition pretty_format : Format := with_source_location true (with_thread_names true full).
Definition in_spans : list SpanRef :=
  as_span FilterId.none <$>
    [{| key := 1; inner := span_data "inner" (Some (idx_to_id 0)) (Some no_fields) |}; {| key := 0; inner := outer |}].
Definition pretty_cx : FmtContext := {| ctx := cx; fmt_fields := pretty_fields_of |}.
Definition expected_lines : string :=
  "  2024-01-01  INFO app: hello, n: 3" ++ NL ++
  "    at src/main.rs:7 on main" ++ NL ++
  "    in app::inner" ++ NL ++
  "    in app::outer with id=1" ++ NL ++ NL.

(** The span whose fields the layer did not store makes the format panic. *)
Example span_without_fields :
  format_event_pretty 10 pretty_default pretty_format pretty_cx event (writer_new "") world = Panic.
Proof. vm_compute. reflexivity. Qed.
(** A root event is shown in the spans of the thread. *)
Example root_event_in_spans :
  format_event_pretty 10 pretty_default pretty_format pretty_cx root_event (writer_new "") pretty_world =
  Done ((writer_new expected_lines, Ok tt), pretty_world).
Proof. vm_compute. reflexivity. Qed.

Lemma pretty_format_lines_witness :
  format_event_pretty 10 pretty_default pretty_format pretty_cx event (writer_new "") pretty_world =
  Done ((writer_new expected_lines, Ok tt), pretty_world).
Proof.
  assert (writer_new expected_lines = write_str
    (pretty_event_text pretty_default pretty_format (set_ansi pretty_format (writer_new "")) "2024-01-01" true
       (this_thread (user pretty_world)) in_spans event) (set_ansi pretty_format (writer_new ""))) as ->
    by (vm_compute; reflexivity).
  apply (pretty_format_lines 10 pretty_default pretty_format pretty_cx event pretty_world (writer_new "")
    "2024-01-01" true in_spans).
  - exact example_timer.
  - exact example_named.
  - eexists (Some _). split; [vm_compute; reflexivity|vm_compute; reflexivity].
  - apply Forall_cons_2; [by eexists|]. apply Forall_cons_2; [by eexists|]. apply Forall_nil_2.
Defined.
End PrettyExample.
