(* ===== verification/FmtBuilder.v ===== *)
(** * FmtBuilder: [tracing-subscriber/src/fmt/mod.rs]

    The builders of the formatting layer ([fmt_layer.rs]) and of the formatting subscriber,
    with their type parameters, and the subscriber that they make: a filter on top of the
    formatting layer on top of a registry.  The closures and the file names are the
    caller's; the feature [ansi] and the installation as the default are parameters. *)

From S2P Require Import Prelude.
From S2P Require Import Str.
From S2P Require Import Levels.
From S2P Require Import Fields.
From S2P Require Import Meta.
From S2P Require Import Interests.
From S2P Require Import FilterIds.
From S2P Require Import Extensions.
From S2P Require Import Registry.
From S2P Require Import Pools.
From S2P Require Import Contexts.
From S2P Require Import Filters.
From S2P Require Import Layers.
From S2P Require Import Stacks.
From S2P Require Import Writers.
From S2P Require Import Format.
From S2P Require Import FormatEvent.
From S2P Require Import FmtLayer.
From S2P Require Import Pretty.

Local Open Scope string_scope.

(** ** [Format<F, T>] with its format

    The timer is the computation in the settings. *)
Inductive Full := FullFormat.
Inductive Compact := CompactFormat.
Record Json := { json_flatten_event : bool; json_current_span : bool; json_span_list : bool }.
Inductive DefaultFields := DefaultFieldsNew.
Inductive JsonFields := JsonFieldsNew.

Record FormatOf `{E : Env} {P : PoolOps DataInner} (L : Type) := { kind_of : L; settings : Format }.
Arguments kind_of {E P L}.
Arguments settings {E P L}.
Arguments Build_FormatOf {E P L}.

Module FormatOf.
Section ops.
Context `{E : Env} {P : PoolOps DataInner}.

Definition default (system_time : FM unit) : FormatOf Full :=
  {| kind_of := FullFormat; settings := default_format system_time |}.
Definition update {L} (f : Format -> Format) (self : FormatOf L) : FormatOf L :=
  {| kind_of := kind_of self; settings := f (settings self) |}.
Definition compact {L} (self : FormatOf L) : FormatOf Compact :=
  {| kind_of := CompactFormat; settings := settings self |}.
Definition pretty {L} (self : FormatOf L) : FormatOf Pretty :=
  {| kind_of := pretty_default; settings := with_source_location true (settings self) |}.
(** [Json::default] *)
Definition json_default : Json :=
  {| json_flatten_event := false; json_current_span := true; json_span_list := true |}.
Definition json {L} (self : FormatOf L) : FormatOf Json :=
  {| kind_of := json_default; settings := settings self |}.
Definition flatten_event (b : bool) (self : FormatOf Json) : FormatOf Json :=
  {| kind_of := {| json_flatten_event := b; json_current_span := json_current_span (kind_of self);
                   json_span_list := json_span_list (kind_of self) |};
     settings := settings self |}.
Definition with_current_span (b : bool) (self : FormatOf Json) : FormatOf Json :=
  {| kind_of := {| json_flatten_event := json_flatten_event (kind_of self); json_current_span := b;
                   json_span_list := json_span_list (kind_of self) |};
     settings := settings self |}.
Definition with_span_list (b : bool) (self : FormatOf Json) : FormatOf Json :=
  {| kind_of := {| json_flatten_event := json_flatten_event (kind_of self);
                   json_current_span := json_current_span (kind_of self); json_span_list := b |};
     settings := settings self |}.
End ops.
End FormatOf.

(** ** [struct Layer<S, N, E, W>] *)

Record LayerOf (N Ev W : Type) := {
  l_make_writer : W;
  l_fmt_fields : N;
  l_fmt_event : Ev;
  l_fmt_span : FmtSpanConfig;
  l_is_ansi : bool;
  l_ansi_sanitization : bool;
  l_log_internal_errors : bool;
}.
Arguments l_make_writer {N Ev W}.
Arguments l_fmt_fields {N Ev W}.
Arguments l_fmt_event {N Ev W}.
Arguments l_fmt_span {N Ev W}.
Arguments l_is_ansi {N Ev W}.
Arguments l_ansi_sanitization {N Ev W}.
Arguments l_log_internal_errors {N Ev W}.
Arguments Build_LayerOf {N Ev W}.

Module LayerOf.
Section ops.
Context {N Ev W : Type}.
Implicit Types self : LayerOf N Ev W.

Definition map_event_format {Ev2} (f : Ev -> Ev2) self : LayerOf N Ev2 W :=
  Build_LayerOf (l_make_writer self) (l_fmt_fields self) (f (l_fmt_event self)) (l_fmt_span self)
    (l_is_ansi self) (l_ansi_sanitization self) (l_log_internal_errors self).
Definition event_format {Ev2} (e : Ev2) self : LayerOf N Ev2 W :=
  Build_LayerOf (l_make_writer self) (l_fmt_fields self) e (l_fmt_span self)
    (l_is_ansi self) (l_ansi_sanitization self) (l_log_internal_errors self).
Definition map_fmt_fields {N2} (f : N -> N2) self : LayerOf N2 Ev W :=
  Build_LayerOf (l_make_writer self) (f (l_fmt_fields self)) (l_fmt_event self) (l_fmt_span self)
    (l_is_ansi self) (l_ansi_sanitization self) (l_log_internal_errors self).
Definition fmt_fields {N2} (n : N2) self : LayerOf N2 Ev W :=
  Build_LayerOf (l_make_writer self) n (l_fmt_event self) (l_fmt_span self)
    (l_is_ansi self) (l_ansi_sanitization self) (l_log_internal_errors self).
Definition map_writer {W2} (f : W -> W2) self : LayerOf N Ev W2 :=
  Build_LayerOf (f (l_make_writer self)) (l_fmt_fields self) (l_fmt_event self) (l_fmt_span self)
    (l_is_ansi self) (l_ansi_sanitization self) (l_log_internal_errors self).
Definition with_writer {W2} (make_writer : W2) self : LayerOf N Ev W2 :=
  Build_LayerOf make_writer (l_fmt_fields self) (l_fmt_event self) (l_fmt_span self)
    (l_is_ansi self) (l_ansi_sanitization self) (l_log_internal_errors self).
Definition with_test_writer self : LayerOf N Ev TestWriter :=
  Build_LayerOf test_writer_new (l_fmt_fields self) (l_fmt_event self) (l_fmt_span self)
    (l_is_ansi self) (l_ansi_sanitization self) (l_log_internal_errors self).
Definition writer self : W := l_make_writer self.
(** What [f] does to the writer that [writer_mut] borrows. *)
Definition writer_mut (f : W -> W) self : LayerOf N Ev W :=
  Build_LayerOf (f (l_make_writer self)) (l_fmt_fields self) (l_fmt_event self) (l_fmt_span self)
    (l_is_ansi self) (l_ansi_sanitization self) (l_log_internal_errors self).
Definition set_ansi (ansi : bool) self : LayerOf N Ev W :=
  Build_LayerOf (l_make_writer self) (l_fmt_fields self) (l_fmt_event self) (l_fmt_span self)
    ansi (l_ansi_sanitization self) (l_log_internal_errors self).
Definition set_span_events (k : FmtSpan.t) self : LayerOf N Ev W :=
  Build_LayerOf (l_make_writer self) (l_fmt_fields self) (l_fmt_event self)
    {| FmtLayer.kind := k; fmt_timing := fmt_timing (l_fmt_span self) |}
    (l_is_ansi self) (l_ansi_sanitization self) (l_log_internal_errors self).
(** Without the feature [ansi] it panics in debug builds, and prints an error otherwise. *)
Definition with_ansi (feature_ansi debug_assertions ansi : bool) self : outcome (LayerOf N Ev W) :=
  _ ← assert (negb (negb feature_ansi && ansi && debug_assertions));
  Done (Build_LayerOf (l_make_writer self) (l_fmt_fields self) (l_fmt_event self) (l_fmt_span self)
          ansi (l_ansi_sanitization self) (l_log_internal_errors self)).
Definition with_ansi_sanitization (b : bool) self : LayerOf N Ev W :=
  Build_LayerOf (l_make_writer self) (l_fmt_fields self) (l_fmt_event self) (l_fmt_span self)
    (l_is_ansi self) b (l_log_internal_errors self).
Definition log_internal_errors (b : bool) self : LayerOf N Ev W :=
  Build_LayerOf (l_make_writer self) (l_fmt_fields self) (l_fmt_event self) (l_fmt_span self)
    (l_is_ansi self) (l_ansi_sanitization self) b.
End ops.

Section formats.
Context `{E : Env} {P : PoolOps DataInner} {N L W : Type}.
Implicit Types self : LayerOf N (FormatOf L) W.

Definition update (f : Format -> Format) self : LayerOf N (FormatOf L) W :=
  map_event_format (FormatOf.update f) self.
Definition with_timer (t : FM unit) self : LayerOf N (FormatOf L) W := update (FormatEvent.with_timer t) self.
Definition without_time self : LayerOf N (FormatOf L) W :=
  Build_LayerOf (l_make_writer self) (l_fmt_fields self)
    (FormatOf.update FormatEvent.without_time (l_fmt_event self)) (config_without_time (l_fmt_span self))
    (l_is_ansi self) (l_ansi_sanitization self) (l_log_internal_errors self).
Definition with_span_events (k : FmtSpan.t) self : LayerOf N (FormatOf L) W :=
  Build_LayerOf (l_make_writer self) (l_fmt_fields self) (l_fmt_event self) (with_kind k (l_fmt_span self))
    (l_is_ansi self) (l_ansi_sanitization self) (l_log_internal_errors self).
Definition with_target (b : bool) self : LayerOf N (FormatOf L) W := update (FormatEvent.with_target b) self.
Definition with_file (b : bool) self : LayerOf N (FormatOf L) W := update (FormatEvent.with_file b) self.
Definition with_line_number (b : bool) self : LayerOf N (FormatOf L) W :=
  update (FormatEvent.with_line_number b) self.
Definition with_level (b : bool) self : LayerOf N (FormatOf L) W := update (FormatEvent.with_level b) self.
Definition with_thread_ids (b : bool) self : LayerOf N (FormatOf L) W :=
  update (FormatEvent.with_thread_ids b) self.
Definition with_thread_names (b : bool) self : LayerOf N (FormatOf L) W :=
  update (FormatEvent.with_thread_names b) self.
Definition compact self : LayerOf N (FormatOf Compact) W := map_event_format FormatOf.compact self.
Definition pretty self : LayerOf Pretty (FormatOf Pretty) W :=
  fmt_fields pretty_default (map_event_format FormatOf.pretty self).
Definition json self : LayerOf JsonFields (FormatOf Json) W :=
  set_ansi false (fmt_fields JsonFieldsNew (map_event_format FormatOf.json self)).
End formats.

Section json_formats.
Context `{E : Env} {P : PoolOps DataInner} {W : Type}.
Implicit Types self : LayerOf JsonFields (FormatOf Json) W.
Definition flatten_event (b : bool) self : LayerOf JsonFields (FormatOf Json) W :=
  fmt_fields JsonFieldsNew (map_event_format (FormatOf.flatten_event b) self).
Definition with_current_span (b : bool) self : LayerOf JsonFields (FormatOf Json) W :=
  fmt_fields JsonFieldsNew (map_event_format (FormatOf.with_current_span b) self).
Definition with_span_list (b : bool) self : LayerOf JsonFields (FormatOf Json) W :=
  fmt_fields JsonFieldsNew (map_event_format (FormatOf.with_span_list b) self).
End json_formats.

(** [Layer::default] and [Layer::new]; [no_color] is the variable [NO_COLOR]. *)
Definition default `{E : Env} {P : PoolOps DataInner} {W} (stdout : W) (system_time : FM unit) (feature_ansi : bool)
    (no_color : option string) : LayerOf DefaultFields (FormatOf Full) W :=
  Build_LayerOf stdout DefaultFieldsNew (FormatOf.default system_time) default_config
    (feature_ansi && match no_color with Some v => v =? "" | None => true end) true false.
End LayerOf.

(** ** [struct SubscriberBuilder] *)

Record SubscriberBuilder (N Ev F W : Type) := { sb_filter : F; sb_inner : LayerOf N Ev W }.
Arguments sb_filter {N Ev F W}.
Arguments sb_inner {N Ev F W}.
Arguments Build_SubscriberBuilder {N Ev F W}.

Module SubscriberBuilder.

(** [Subscriber::DEFAULT_MAX_LEVEL] *)
Definition DEFAULT_MAX_LEVEL : LevelFilter.t := LevelFilter.INFO.

Section ops.
Context {N Ev F W : Type}.
Implicit Types self : SubscriberBuilder N Ev F W.

(** The methods that pass a setting on to the layer. *)
Definition with_inner {N2 Ev2 W2} (f : LayerOf N Ev W -> LayerOf N2 Ev2 W2) self : SubscriberBuilder N2 Ev2 F W2 :=
  Build_SubscriberBuilder (sb_filter self) (f (sb_inner self)).
Definition event_format {Ev2} (e : Ev2) := with_inner (LayerOf.event_format e).
Definition map_event_format {Ev2} (f : Ev -> Ev2) := with_inner (LayerOf.map_event_format f).
Definition fmt_fields {N2} (n : N2) := with_inner (LayerOf.fmt_fields n).
Definition map_fmt_fields {N2} (f : N -> N2) := with_inner (LayerOf.map_fmt_fields f).
Definition with_writer {W2} (w : W2) := with_inner (LayerOf.with_writer w).
Definition map_writer {W2} (f : W -> W2) := with_inner (LayerOf.map_writer f).
Definition with_test_writer := with_inner (LayerOf.with_writer test_writer_new).
Definition log_internal_errors (b : bool) := with_inner (LayerOf.log_internal_errors b).
Definition with_ansi_sanitization (b : bool) := with_inner (LayerOf.with_ansi_sanitization b).
Definition with_ansi (feature_ansi debug_assertions ansi : bool) self : outcome (SubscriberBuilder N Ev F W) :=
  inner ← LayerOf.with_ansi feature_ansi debug_assertions ansi (sb_inner self);
  Done (Build_SubscriberBuilder (sb_filter self) inner).
Definition with_max_level (l : LevelFilter.t) self : SubscriberBuilder N Ev LevelFilter.t W :=
  Build_SubscriberBuilder l (sb_inner self).
Definition with_env_filter {F2} (filter : F2) self : SubscriberBuilder N Ev F2 W :=
  Build_SubscriberBuilder filter (sb_inner self).
End ops.

Section formats.
Context `{E : Env} {P : PoolOps DataInner} {N L F W : Type}.
Implicit Types self : SubscriberBuilder N (FormatOf L) F W.
Definition with_timer (t : FM unit) self := with_inner (LayerOf.with_timer t) self.
Definition without_time self := with_inner LayerOf.without_time self.
Definition with_span_events (k : FmtSpan.t) self := with_inner (LayerOf.with_span_events k) self.
Definition with_target (b : bool) self := with_inner (LayerOf.with_target b) self.
Definition with_file (b : bool) self := with_inner (LayerOf.with_file b) self.
Definition with_line_number (b : bool) self := with_inner (LayerOf.with_line_number b) self.
Definition with_level (b : bool) self := with_inner (LayerOf.with_level b) self.
Definition with_thread_names (b : bool) self := with_inner (LayerOf.with_thread_names b) self.
Definition with_thread_ids (b : bool) self := with_inner (LayerOf.with_thread_ids b) self.
Definition compact self := with_inner LayerOf.compact self.
Definition pretty self := with_inner LayerOf.pretty self.
Definition json self := with_inner LayerOf.json self.
End formats.

Section json_formats.
Context `{E : Env} {P : PoolOps DataInner} {F W : Type}.
Implicit Types self : SubscriberBuilder JsonFields (FormatOf Json) F W.
Definition flatten_event (b : bool) self := with_inner (LayerOf.flatten_event b) self.
Definition with_current_span (b : bool) self := with_inner (LayerOf.with_current_span b) self.
Definition with_span_list (b : bool) self := with_inner (LayerOf.with_span_list b) self.
End json_formats.

(** [impl Default], [fmt], [Subscriber::builder] *)
Definition default `{E : Env} {P : PoolOps DataInner} {W} (stdout : W) (system_time : FM unit) (feature_ansi : bool)
    (no_color : option string) : SubscriberBuilder DefaultFields (FormatOf Full) LevelFilter.t W :=
  log_internal_errors true
    (Build_SubscriberBuilder DEFAULT_MAX_LEVEL (LayerOf.default stdout system_time feature_ansi no_color)).

End SubscriberBuilder.

(** ** What implements the traits [FormatEvent], [FormatFields] and [Layer] *)

Class FormatsFields (N : Type) := as_format_fields : N -> FormatFields.
#[export] Instance default_formats_fields {C : FmtCrates} : FormatsFields DefaultFields := fun _ => default_fields.
#[export] Instance pretty_formats_fields {C : FmtCrates} {A : AnsiCrate} : FormatsFields Pretty :=
  fun _ => pretty_fields_of.

Section finished.
Context `{E : Env} {P : PoolOps DataInner} {C : FmtCrates} `{!FmtEnv} `{!FieldsSlot} `{!LayerEnv}.
Context {MW Wr Error : Type} `{!MakeWriter MW Wr} `{!IoWrite UserState Error Wr}.
Variable fuel : nat.
Variable attrs_debug : Attributes -> string.
Variable error_display : Error -> string.
Variable fields_debug : Event -> string.
Variable default_try_close : Id -> M bool.

Class FormatsEvent (Ev : Type) := as_format_event : Ev -> FmtContext -> Event -> FM unit.
Definition full_formats_event : FormatsEvent (FormatOf Full) :=
  fun f => format_event_full fuel (settings f).
Definition compact_formats_event : FormatsEvent (FormatOf Compact) :=
  fun f => format_event_compact fuel (settings f).
Definition pretty_formats_event {A : AnsiCrate} : FormatsEvent (FormatOf Pretty) :=
  fun f => format_event_pretty fuel (kind_of f) (settings f).
Class IsLayer (F : Type) := as_layer : F -> Layer.
#[export] Instance level_is_layer : IsLayer LevelFilter.t := level_layer.

(** The layer that the builder has described. *)
Definition layer_of {N Ev} `{!FormatsFields N} `{!FormatsEvent Ev} (self : LayerOf N Ev MW) : FmtLayer := {|
  make_writer := l_make_writer self;
  layer_fields := as_format_fields (l_fmt_fields self);
  FmtLayer.fmt_event := as_format_event (l_fmt_event self);
  fmt_span := l_fmt_span self;
  layer_ansi := l_is_ansi self;
  layer_sanitization := l_ansi_sanitization self;
  FmtLayer.log_internal_errors := l_log_internal_errors self;
|}.

(** ** [struct Subscriber] *)

(** [impl tracing_core::Subscriber] and [impl LookupSpan]; what they do not define are the
    methods of the traits: [on_register_dispatch] does nothing, and [register_filter]
    panics. *)
Definition fmt_subscriber (inner : DynSubscriber) : DynSubscriber := {|
  s_on_register_dispatch := mret tt;
  s_register_callsite := s_register_callsite inner;
  s_enabled := s_enabled inner;
  s_max_level_hint := s_max_level_hint inner;
  s_new_span := s_new_span inner;
  s_record := s_record inner;
  s_record_follows_from := s_record_follows_from inner;
  s_event_enabled := s_event_enabled inner;
  s_event := s_event inner;
  s_enter := s_enter inner;
  s_exit := s_exit inner;
  s_clone_span := s_clone_span inner;
  s_try_close := s_try_close inner;
  s_current_span := s_current_span inner;
  s_span_data := s_span_data inner;
  s_register_filter := lift Panic;
  s_is_registry := false;
  s_downcast_registry := s_downcast_registry inner;
  s_has_plf := s_has_plf inner;
  s_is_none := s_is_none inner;
|}.

(** [SubscriberBuilder::finish] *)
Definition finish {N Ev F} `{!FormatsFields N} `{!FormatsEvent Ev} `{!IsLayer F}
    (self : SubscriberBuilder N Ev F MW) : M DynSubscriber :=
  subscriber ← with_layer default_try_close
    (plain (fmt_layer attrs_debug error_display fields_debug (layer_of (sb_inner self)))) registry_subscriber;
  inner ← with_layer default_try_close (plain (as_layer (sb_filter self))) subscriber;
  mret (fmt_subscriber inner).
End finished.

(** ** What the finished subscriber writes *)

Section finished_behaviour.
Context `{E : Env} {P : PoolOps DataInner} `{!PoolLaws default_data P}.
Context {C : FmtCrates} {CL : FmtCratesLaws C} {F : FmtEnv} {S : FieldsSlot} {L : LayerEnv} {LL : LayerEnvLaws L}.
Context {MW W Error : Type} `{!MakeWriter MW W} `{!IoWrite UserState Error W}.
Variable fuel : nat.
Variable attrs_debug : Attributes -> string.
Variable error_display : Error -> string.
Variable fields_debug : Event -> string.
Variable default_try_close : Id -> M bool.
#[local] Instance full_here : FormatsEvent (FormatOf Full) := full_formats_event fuel.

Abbreviation finish := (finish attrs_debug error_display fields_debug default_try_close).

(** A subscriber whose filter is a level: the layers in it. *)
Definition level_stack (l : LevelFilter.t) (self : FmtLayer (MW := MW)) : DynSubscriber :=
  let layer := fmt_layer attrs_debug error_display fields_debug self in
  let formatter := layered_subscriber default_try_close layer registry_subscriber
                     (layered_new layer true false) in
  fmt_subscriber (layered_subscriber default_try_close (level_layer l) formatter
                    (layered_new (level_layer l) false false)).

Lemma finish_level {N Ev} `{!FormatsFields N} `{!FormatsEvent Ev} (b : SubscriberBuilder N Ev LevelFilter.t MW) w :
  finish b w = Done (level_stack (sb_filter b) (layer_of (sb_inner b)), w).
Proof. reflexivity. Qed.

Lemma level_hint l self : s_max_level_hint (level_stack l self) = Some l.
Proof. reflexivity. Qed.

Lemma level_interest l self meta w :
  next_filter_id w = 0%Z -> filtering w = FilterState.new ->
  s_register_callsite (level_stack l self) meta w =
  Done (if LevelFilter.ge_level l (Metadata.level meta) then Always else Never, w).
Proof.
  intros Hn Hq. cbn. unfold pick_interest, layered_new. cbn. mred.
  destruct (LevelFilter.ge_level l (Metadata.level meta)) eqn:Hl; cbn.
  - unfold Registry.register_callsite, Registry.has_per_layer_filters, layer_default_register_callsite.
    mred. rewrite Hn. reflexivity.
  - mred. rewrite Hq.
    assert (FilterState.take_interest debug_assertions FilterState.new = Done (None, FilterState.new)) as ->
      by (by destruct debug_assertions).
    rewrite <- Hq. by destruct w.
Qed.

Lemma level_dispatch l self ev w :
  next_filter_id w = 0%Z ->
  record_event (level_stack l self) Always ev w =
  on_event error_display fields_debug self ev (Context_.new registry_subscriber) w.
Proof.
  intros Hn. unfold record_event, is_enabled_, dispatch_event. cbn. unfold Registry.event_enabled,
    Registry.has_per_layer_filters, Registry.event. mred. rewrite Hn. cbn.
  by destruct (on_event _ _ _ _ _ _) as [[[] w']|].
Qed.

(** C33: the subscriber that the builder makes from a maximum level and the full format
    promises that level; at a callsite that it has registered an event up to that level is
    written as one line, the one that [full_line] describes, and an event above it changes
    nothing; and nothing panics. *)
Theorem fmt_subscriber_writes_lines (b : SubscriberBuilder DefaultFields (FormatOf Full) LevelFilter.t MW)
    (ev : Event) (w : World) (ts : string) (ok : bool) (spans : list SpanRef) :
  let fmt := settings (l_fmt_event (sb_inner b)) in
  let self := layer_of (sb_inner b) in
  next_filter_id w = 0%Z -> filtering w = FilterState.new -> buf (user w) = "" ->
  timer_writes fmt ts ok -> named (event_fields ev) ->
  (forall u, event_spans fuel (Context_.new registry_subscriber) ev (with_user u w) spans) ->
  let writer := FormatEvent.set_ansi fmt {| text := ""; is_ansi := l_is_ansi (sb_inner b);
                               ansi_sanitization := l_ansi_sanitization (sb_inner b) |} in
  let line := full_line fmt writer ts ok (this_thread (user w)) (max_len (user w)) spans ev in
  exists s interest,
    finish b w = Done (s, w) /\ s_max_level_hint s = Some (sb_filter b) /\
    s_register_callsite s (Event.metadata ev) w = Done (interest, w) /\
    record_event s interest ev w =
    Done (tt,
      if LevelFilter.ge_level (sb_filter b) (Metadata.level (Event.metadata ev))
      then with_user (set_buf "" (delivered error_display self (Event.metadata ev) line
                                    (user (after_thread fmt w)))) w
      else w).
Proof.
  intros fmt self Hn Hq Hbuf Ht Hnamed Hspans writer line.
  exists (level_stack (sb_filter b) self),
    (if LevelFilter.ge_level (sb_filter b) (Metadata.level (Event.metadata ev)) then Always else Never).
  split; [exact (finish_level b w)|]. split; [apply level_hint|]. split; [by apply level_interest|].
  destruct (LevelFilter.ge_level _ _); [|reflexivity]. rewrite level_dispatch by done.
  destruct (fmt_layer_writes_line error_display fields_debug fuel fmt self
    (Context_.new registry_subscriber) ev w ts ok spans eq_refl eq_refl Hbuf Ht Hnamed Hspans)
    as (w' & Hw & -> & _). exact Hw.
Qed.

(** A filtered layer on top of it makes the program panic. *)
Lemma finished_takes_no_filter inner (filter : Filter) (layer : Unattached) (w : World) :
  with_layer default_try_close (Layers.with_filter filter layer) (fmt_subscriber inner) w = Panic.
Proof. reflexivity. Qed.
(** The layers in it are not told of the dispatcher. *)
Lemma finished_registers_nothing inner w : s_on_register_dispatch (fmt_subscriber inner) w = Done (tt, w).
Proof. reflexivity. Qed.
End finished_behaviour.

(** A timer that is set after the time was switched off is not shown. *)
Lemma timer_after_without_time `{E : Env} {P : PoolOps DataInner} {N L F W} (t : FM unit)
    (b : SubscriberBuilder N (FormatOf L) F W) :
  let b' := SubscriberBuilder.with_timer t (SubscriberBuilder.without_time b) in
  forall (C : FmtCrates) w W, format_timestamp (settings (l_fmt_event (sb_inner b'))) w W = Done ((w, Ok tt), W).
Proof. reflexivity. Qed.

(** ** [fmt().with_max_level(..).finish()] *)

Section witness.
Import FmtExample.
#[local] Existing Instances env pool_ops slot fmt_env layer_env layer_laws crates crates_laws stream stream_make.
#[local] Instance full_ten : FormatsEvent (FormatOf Full) := full_formats_event 10.

Definition a_builder (l : LevelFilter.t) : SubscriberBuilder DefaultFields (FormatOf Full) LevelFilter.t unit :=
  SubscriberBuilder.with_max_level l (SubscriberBuilder.default tt the_time true (Some "1")).
Definition the_line : string := "2024-01-01  INFO outer{id=1}:inner: app: hello n=3" ++ NL.

(** The event has the level INFO. *)
Definition recorded (l : LevelFilter.t) : outcome (list string) :=
  '(s, w) ← finish (fun _ => "") (fun _ : unit => "") (fun _ => "") (fun _ _ => Panic) (a_builder l) world;
  '(i, w) ← s_register_callsite s (Event.metadata event) w;
  '(_, w) ← record_event s i event w;
  Done (out (@user env pool_ops w)).
Example info_is_written : recorded LevelFilter.INFO = Done [the_line].
Proof. vm_compute. reflexivity. Qed.
Example info_is_not_written : recorded LevelFilter.WARN = Done [].
Proof. vm_compute. reflexivity. Qed.

Lemma fmt_subscriber_writes_lines_witness :
  exists s i w',
    finish (fun _ => "") (fun _ : unit => "") (fun _ => "") (fun _ _ => Panic) (a_builder LevelFilter.DEBUG) world =
      Done (s, world) /\
    record_event s i event world = Done (tt, w') /\ out (user w') = [the_line].
Proof.
  destruct (fmt_subscriber_writes_lines 10 (fun _ => "") (fun _ : unit => "") (fun _ => "") (fun _ _ => Panic)
    (a_builder LevelFilter.DEBUG) event world "2024-01-01" true inner_scope)
    as (s & i & Hf & _ & _ & Hr);
    [reflexivity..|exact example_timer|exact example_named|exact example_spans|].
  exists s, i, (@with_user env pool_ops {| clock := 5; buffer := ""; longest := 0;
    running := {| thread_name := Some "main"; thread_id := 1 |}; out := [the_line]; err := [] |} world).
  split; [exact Hf|]. split; [|reflexivity]. etransitivity; [exact Hr|]. vm_compute. reflexivity.
Defined.
End witness.
