(* ===== verification/Flame.v ===== *)
(** * Flame: [tracing-flame]

    A layer that writes folded stacks: at each entry and exit of a span, the time since the
    thread's last one, charged to a path of spans.  The clock, the thread, its last event and
    the output are in the state of the layers. *)

From stdpp Require Import pretty.
From S2P Require Import Prelude.
From S2P Require Import Str.
From S2P Require Import Levels.
From S2P Require Import Fields.
From S2P Require Import Meta.
From S2P Require Import Interests.
From S2P Require Import FilterIds.
From S2P Require Import Registry.
From S2P Require Import Pools.
From S2P Require Import Contexts.
From S2P Require Import Layers.
From S2P Require Import Writers.
From S2P Require Import Escape.
From S2P Require Import FormatEvent.

Local Open Scope string_scope.

(** ** [struct Config], [struct FlameLayer], [struct FlushGuard] *)

Record Config := { empty_samples : bool; threads_collapsed : bool; module_path : bool; file_and_line : bool }.
Definition config_default : Config :=
  {| empty_samples := true; threads_collapsed := false; module_path := true; file_and_line := false |}.

Record FlameLayer (W : Type) := { flame_out : W; config : Config }.
Arguments flame_out {W}.
Arguments config {W}.
Arguments Build_FlameLayer {W}.
Record FlushGuard (W : Type) := { guard_out : W }.
Arguments guard_out {W}.
Arguments Build_FlushGuard {W}.

(** [Instant]s are nanoseconds; [last_event] is not set before the thread's first event. *)
Class FlameEnv (U : Type) := {
  START : U -> Z;
  instant_now : U -> Z;
  last_event : U -> option Z;
  set_last_event : Z -> U -> U;
  flame_thread : U -> Thread;
}.

Section builder.
Context {W : Type}.
Implicit Types self : FlameLayer W.

Definition with_config (f : Config -> Config) self : FlameLayer W :=
  Build_FlameLayer (flame_out self) (f (config self)).
Definition new (writer : W) : FlameLayer W := Build_FlameLayer writer config_default.
Definition flush_on_drop self : FlushGuard W := Build_FlushGuard (flame_out self).
Definition with_empty_samples (b : bool) : FlameLayer W -> FlameLayer W :=
  with_config (fun c => {| empty_samples := b; threads_collapsed := threads_collapsed c;
                           module_path := module_path c; file_and_line := file_and_line c |}).
Definition with_threads_collapsed (b : bool) : FlameLayer W -> FlameLayer W :=
  with_config (fun c => {| empty_samples := empty_samples c; threads_collapsed := b;
                           module_path := module_path c; file_and_line := file_and_line c |}).
Definition with_module_path (b : bool) : FlameLayer W -> FlameLayer W :=
  with_config (fun c => {| empty_samples := empty_samples c; threads_collapsed := threads_collapsed c;
                           module_path := b; file_and_line := file_and_line c |}).
Definition with_file_and_line (b : bool) : FlameLayer W -> FlameLayer W :=
  with_config (fun c => {| empty_samples := empty_samples c; threads_collapsed := threads_collapsed c;
                           module_path := module_path c; file_and_line := b |}).
End builder.

(** ** [error.rs]

    An [io::Error] is shown by [io_display], and has [io_source] as the chain of its
    sources. *)
Inductive Kind (IoError : Type) :=
  | CreateFile (source : IoError) (path : string)
  | FlushFile (source : IoError).
Arguments CreateFile {IoError}.
Arguments FlushFile {IoError}.

Section errors.
Context {IoError : Type}.
Variable io_display : IoError -> string.
Variable io_sources : IoError -> list string.

Definition kind_fmt (k : Kind IoError) : string :=
  match k with
  | CreateFile _ path => "cannot create output file. path=" ++ path
  | FlushFile _ => "cannot flush output buffer"
  end.
(** [Error::source], and the sources of the source *)
Definition error_chain (k : Kind IoError) : list string :=
  match k with CreateFile source _ | FlushFile source => io_display source :: io_sources source end.
(** The lines of [Error::report] *)
Definition report (k : Kind IoError) : list string :=
  "Error:" :: imap (fun ind e => "    " ++ pretty ind ++ ": " ++ e) (kind_fmt k :: error_chain k).
End errors.

(** ** [FlushGuard::flush], [FlushGuard::drop], [FlameLayer::with_file] *)

Section guard.
Context {U IoError W : Type} {IW : IoWrite U IoError W}.

(** [poisoned] is the lock's, [panicking] the thread's. *)
Definition guard_flush (poisoned panicking : bool) (self : FlushGuard W) (u : U) :
    outcome (U * result unit (Kind IoError)) :=
  if poisoned then
    if negb panicking then Panic else Done (u, Ok tt)
  else
    let '(u, r) := flush (guard_out self) u in
    Done (u, match r with Ok _ => Ok tt | Err e => Err (FlushFile e) end).
Definition guard_drop (eprintln : list string -> U -> U) (io_display : IoError -> string)
    (io_sources : IoError -> list string) (poisoned panicking : bool) (self : FlushGuard W) (u : U) : outcome U :=
  '(u, r) ← guard_flush poisoned panicking self u;
  Done (match r with Ok _ => u | Err e => eprintln (report io_display io_sources e) u end).

(** [File::create] and [BufWriter::new] *)
Definition with_file {F} (create : string -> U -> U * result F IoError) (buf_writer : F -> W)
    (path : string) (u : U) : U * result (FlameLayer W * FlushGuard W) (Kind IoError) :=
  let '(u, r) := create path u in
  (u, match r with
      | Ok file => let layer := new (buf_writer file) in Ok (layer, flush_on_drop layer)
      | Err source => Err (CreateFile source path)
      end).
End guard.

(** ** [impl Layer for FlameLayer] *)

Section layer.
Context `{E : Env} {P : PoolOps DataInner} {F : FlameEnv UserState}.
Context {W IoError : Type} {IW : IoWrite UserState IoError W}.
Variable fuel : nat.
Implicit Types self : FlameLayer W.

(** [THREAD_NAME] *)
Definition thread_label (t : Thread) : string :=
  "ThreadId(" ++ pretty (thread_id t) ++ ")" ++
  match thread_name t with Some name => "-" ++ name | None => "" end.
Definition stack_start (c : Config) (t : Thread) : string :=
  if threads_collapsed c then "all-threads" else thread_label t.

(** The function [write] *)
Definition frame (c : Config) (span : SpanRef) : string :=
  let meta := span_metadata span in
  (if module_path c then match Metadata.module_path meta with Some p => p ++ "::" | None => "" end else "") ++
  span_name span ++
  (if file_and_line c then
     match Metadata.file meta with Some file => ":" ++ file | None => "" end ++
     match Metadata.line meta with Some line => ":" ++ pretty line | None => "" end
   else "").
Definition frames (c : Config) (spans : list SpanRef) : string :=
  String.concat "" (map (fun span => ";" ++ frame c span) spans).

(** A subtraction of instants saturates at zero. *)
Definition time_since_last_event : M Z := fun w =>
  let now := instant_now (user w) in
  let prev := default (START (user w)) (last_event (user w)) in
  Done (Z.max 0 (now - prev), with_user (set_last_event now (user w)) w).

(** The line, for the writer behind the lock; its errors are ignored.  The lock is poisoned
    when a writer has panicked, which is not modelled. *)
Definition write_line self (line : string) : M unit :=
  modify (fun w => with_user (write_fmt (flame_out self) line (user w)).1 w).

(** The spans of the scope from its root. *)
Definition path_of (cx : Context_) (span : SpanRef) : M (list SpanRef) :=
  match subscriber cx with
  | Some registry => from_root fuel registry (span_scope_of span)
  | None => mret []
  end.
Definition parent_of (cx : Context_) (span : SpanRef) : M (option SpanRef) :=
  match subscriber cx with
  | Some registry => span_parent fuel registry span
  | None => mret None
  end.

Definition on_enter self (id : Id) (cx : Context_) : M unit :=
  samples ← time_since_last_event;
  first ← Context_.span id cx;
  first ← lift (expect first);
  second ← parent_of cx first;
  if negb (empty_samples (config self)) && bool_decide (span_id <$> second = None) then mret tt
  else
    thread ← gets (fun w => flame_thread (user w));
    path ← match second with Some second => path_of cx second | None => mret [] end;
    write_line self (stack_start (config self) thread ++ frames (config self) path ++ " " ++ pretty (samples : Z) ++ NL).

Definition on_exit self (id : Id) (cx : Context_) : M unit :=
  panicking ← gets panicking;
  samples ← time_since_last_event;
  if (panicking : bool) then mret tt
  else
    first ← Context_.span id cx;
    first ← lift (expect first);
    thread ← gets (fun w => flame_thread (user w));
    path ← path_of cx first;
    write_line self (stack_start (config self) thread ++ frames (config self) path ++ " " ++ pretty (samples : Z) ++ NL).

(** The other methods are the trait's. *)
Definition flame_layer self : Layer := {|
  l_on_register_dispatch := mret tt;
  l_register_callsite := layer_default_register_callsite (fun _ _ => mret true);
  l_enabled _ _ := mret true;
  l_max_level_hint := None;
  l_on_new_span _ _ _ := mret tt;
  l_on_record _ _ _ := mret tt;
  l_on_follows_from _ _ _ := mret tt;
  l_event_enabled _ _ := mret true;
  l_on_event _ _ := mret tt;
  l_on_enter := on_enter self;
  l_on_exit := on_exit self;
  l_on_close _ _ := mret tt;
  l_on_id_change _ _ _ := mret tt;
  l_has_plf := false;
  l_is_none := false;
|}.
End layer.

(** ** What is charged to which spans *)

(** The slots of the state are apart, and the output takes what it is given: [written] is
    what it has got. *)
Class FlameLaws {U W IoError : Type} (F : FlameEnv U) (IW : IoWrite U IoError W) (out : W) := {
  written : U -> string;
  written_write s u : written (write_fmt out s u).1 = written u ++ s;
  last_event_write s u : last_event (write_fmt out s u).1 = last_event u;
  written_set t u : written (set_last_event t u) = written u;
  last_event_set t u : last_event (set_last_event t u) = Some t;
  thread_set t u : flame_thread (set_last_event t u) = flame_thread u;
  thread_write s u : flame_thread (write_fmt out s u).1 = flame_thread u;
}.

Section accounts.
Context `{E : Env} {P : PoolOps DataInner} {F : FlameEnv UserState}.
Context {W IoError : Type} {IW : IoWrite UserState IoError W}.
Variable fuel : nat.
Variable self : FlameLayer W.
Context {FL : FlameLaws F IW (flame_out self)}.
Context (reg : DynSubscriber) (Hreg : looks_up_registry reg).
Variable f : FilterId.t.

Definition cx : Context_ := {| subscriber := Some reg; filter := f |}.

(** The span [id] is open and seen by the layer; [path] are its enabled ancestors and itself
    from the root. *)
Definition path_at (w : World) (id : Id) (path : list SpanRef) : Prop :=
  exists d l, pool_get (id_to_idx id) (spans w) = Some d /\ idx_to_id (id_to_idx id) = id /\
    Registry.is_enabled_for f {| key := id_to_idx id; inner := d |} = true /\
    ancestry (spans w) (parent d) l /\ (S (length l) < fuel)%nat /\
    path = rev (as_span f <$> {| key := id_to_idx id; inner := d |} :: enabled_data f l).
(** The path of the innermost of the entered spans [cur]. *)
Definition current_path (w : World) (cur : list Id) (path : list SpanRef) : Prop :=
  match cur with [] => path = [] | id :: _ => path_at w id path end.

Lemma data_id_idx id d : id_to_idx (Registry.data_id {| key := id_to_idx id; inner := d |}) = id_to_idx id.
Proof. unfold Registry.data_id, idx_to_id, id_to_idx, Id.into_u64. cbn [key id_u64]. rewrite Z2N.id; lia. Qed.

Lemma enabled_head p start l d r :
  ancestry p start l -> enabled_data f l = d :: r ->
  exists l', ancestry p (Some (Registry.data_id d)) l' /\ enabled_data f l' = d :: r /\ (length l' <= length l)%nat.
Proof.
  intros H. induction H as [|id Hid|id d0 l Hid Hl IH]; cbn; [done..|].
  destruct (Registry.is_enabled_for f {| key := id_to_idx id; inner := d0 |}) eqn:He.
  - intros [= <- <-]. exists ({| key := id_to_idx id; inner := d0 |} :: l). split; [|split; [|cbn; lia]].
    + rewrite <- (data_id_idx id d0) at 2. constructor; [|done]. by rewrite data_id_idx.
    + cbn. by rewrite He.
  - intros Hd. destruct (IH Hd) as (l' & Ha & Hl' & Hlen). exists l'. split; [done|]. split; [done|lia].
Qed.

Lemma path_of_head w start l d r :
  ancestry (spans w) start l -> enabled_data f l = d :: r -> (length l < fuel)%nat ->
  path_of fuel cx (as_span f d) w = Done (rev (as_span f <$> d :: r), w).
Proof.
  intros Ha Hd Hl. destruct (enabled_head _ _ _ _ _ Ha Hd) as (l' & Ha' & Hd' & Hlen).
  unfold path_of, cx, from_root, span_scope_of. cbn [subscriber]. mred.
  rewrite (scope_collect_spec reg Hreg f (Some (Registry.data_id d)) l') by (done || lia). by rewrite Hd'.
Qed.

Lemma span_at w id d :
  pool_get (id_to_idx id) (spans w) = Some d ->
  Registry.is_enabled_for f {| key := id_to_idx id; inner := d |} = true ->
  Context_.span id cx w = Done (Some (as_span f {| key := id_to_idx id; inner := d |}), w).
Proof.
  intros Hd He. unfold Context_.span. cbn [subscriber cx]. mred. rewrite (lookup_span_get reg Hreg), Hd. cbn.
  unfold try_with_filter, span_is_enabled_for. cbn. by rewrite He.
Qed.

Definition last_of (w : World) : Z := default (START (user w)) (last_event (user w)).
Definition line_of (thread : Thread) (s : list SpanRef * Z) : string :=
  stack_start (config self) thread ++ frames (config self) s.1 ++ " " ++ pretty s.2 ++ NL.
(** The state after a sample was taken, and after its line was written. *)
Definition taken (w : World) : World := with_user (set_last_event (instant_now (user w)) (user w)) w.
Definition wrote (line : string) (w : World) : World :=
  with_user (write_fmt (flame_out self) line (user w)).1 w.
Definition charged (w : World) (path : list SpanRef) : World :=
  let s := (path, Z.max 0 (instant_now (user w) - last_of w)) in
  if empty_samples (config self) || negb (bool_decide (span_id <$> path = []))
  then wrote (line_of (flame_thread (user w)) s) (taken w) else taken w.

Lemma on_exit_spec id w path :
  panicking w = false -> path_at w id path -> on_exit fuel self id cx w = Done (tt, charged w path).
Proof.
  intros Hp (d & l & Hd & Hid & He & Ha & Hf & ->). unfold on_exit, time_since_last_event, gets. mred. rewrite Hp.
  fold (taken w). rewrite (span_at (taken w) id d Hd He). cbn [expect].
  rewrite (path_of_head (taken w) (Some id) ({| key := id_to_idx id; inner := d |} :: l) {| key := id_to_idx id; inner := d |}
    (enabled_data f l)); [|by constructor|cbn; by rewrite He|cbn; lia].
  unfold write_line, charged, modify. cbn [fmap list_fmap].
  rewrite bool_decide_eq_false_2, orb_true_r.
  - by rewrite <- (thread_set (instant_now (user w)) (user w)).
  - intros Heq%(f_equal length). revert Heq. rewrite length_fmap, length_rev. done.
Qed.

Lemma on_enter_spec id w path span :
  path_at w id (path ++ [span]) -> on_enter fuel self id cx w = Done (tt, charged w path).
Proof.
  intros (d & l & Hd & Hid & He & Ha & Hf & Hpath). cbn [fmap list_fmap rev] in Hpath.
  apply app_inj_tail in Hpath as [-> ->]. change (map (as_span f)) with (fmap (M := list) (as_span f)).
  unfold on_enter, time_since_last_event. mred.
  fold (taken w). rewrite (span_at (taken w) id d Hd He). cbn [expect]. unfold parent_of, span_parent. cbn [subscriber cx].
  rewrite (parent_loop_spec reg Hreg f _ l (taken w)) by (done || lia).
  destruct (enabled_data f l) as [|x r] eqn:Hr; cbn [head fmap option_fmap option_map].
  - unfold charged. cbn. rewrite orb_false_r, andb_true_r.
    destruct (empty_samples (config self)); [|done]. cbn. unfold write_line, modify.
    by rewrite <- (thread_set (instant_now (user w)) (user w)).
  - rewrite andb_false_r. rewrite (path_of_head (taken w) (parent d) l x r) by (done || lia).
    unfold write_line, charged, modify. rewrite (bool_decide_eq_false_2 (_ = [])), orb_true_r.
    + by rewrite <- (thread_set (instant_now (user w)) (user w)).
    + intros Heq%(f_equal length). revert Heq. rewrite length_fmap, length_rev. done.
Qed.
(** *** Runs of a thread *)

Inductive Op := Enter (id : Id) | Exit (id : Id).
Definition run_op (op : Op) : M unit :=
  match op with Enter id => on_enter fuel self id cx | Exit id => on_exit fuel self id cx end.

(** Between two callbacks of the thread anything may happen, but to the layer's state; the
    clock does not go back. *)
Definition between (w w1 : World) : Prop :=
  written (user w1) = written (user w) /\ last_of w1 = last_of w /\
  flame_thread (user w1) = flame_thread (user w) /\ (last_of w <= instant_now (user w1))%Z.
(** The entered spans are nested: a span is entered in its closest ancestor that the layer
    sees, or in no span when there is none, and the innermost one is exited. *)
Definition nested (cur : list Id) (w : World) (op : Op) (path : list SpanRef) (cur' : list Id) : Prop :=
  current_path w cur path /\
  match op with
  | Enter id => (exists span, path_at w id (path ++ [span])) /\ cur' = id :: cur
  | Exit id => cur = id :: cur' /\ panicking w = false
  end.

(** A run, with a sample for each callback: the path of the span that was the innermost, and
    the time since the callback before. *)
Inductive flame_run : list Id -> World -> list (list SpanRef * Z) -> list Id -> World -> Prop :=
  | run_stop cur w : flame_run cur w [] cur w
  | run_step cur w w1 op path cur1 w2 samples cur' w' :
      between w w1 -> nested cur w1 op path cur1 -> run_op op w1 = Done (tt, w2) ->
      flame_run cur1 w2 samples cur' w' ->
      flame_run cur w ((path, instant_now (user w1) - last_of w)%Z :: samples) cur' w'.

Lemma run_op_charged cur w op path cur' : nested cur w op path cur' -> run_op op w = Done (tt, charged w path).
Proof.
  intros [Hcur Hop]. destruct op as [id|id].
  - destruct Hop as [[span Hid] _]. by eapply on_enter_spec.
  - destruct Hop as [-> Hp]. by apply on_exit_spec.
Qed.

(** The samples that are written. *)
Definition shown (s : list SpanRef * Z) : bool :=
  empty_samples (config self) || negb (bool_decide (span_id <$> s.1 = [])).
Definition total (samples : list (list SpanRef * Z)) : Z := foldr (fun s n => s.2 + n)%Z 0%Z samples.

Lemma charged_state w w1 path :
  between w w1 ->
  let s := (path, instant_now (user w1) - last_of w)%Z in
  written (user (charged w1 path)) = written (user w) ++
    (if shown s then line_of (flame_thread (user w)) s else "") /\
  last_of (charged w1 path) = instant_now (user w1) /\
  flame_thread (user (charged w1 path)) = flame_thread (user w).
Proof.
  intros (Hw & Hl & Ht & Hle). unfold charged, shown. rewrite Hl, Z.max_r by lia. cbn [fst].
  destruct (_ || _).
  - unfold wrote, taken, last_of. cbn [user with_user].
    by rewrite written_write, written_set, Hw, last_event_write, last_event_set, thread_write, thread_set, Ht.
  - unfold taken, last_of. cbn [user with_user].
    by rewrite written_set, Hw, last_event_set, thread_set, Ht, append_nil_r.
Qed.

(** C32: the layer accounts for the time of a thread whose spans are nested and exited while
    it does not panic: the lines that
    it writes are those of the samples, in order, where a sample is the path of the span
    that was the innermost between two callbacks and the time between them (without empty
    samples, those outside of all spans are left out); the times of the samples add up to
    the time from the last callback before the run to the last one in it; and the callbacks
    do not panic. *)
Theorem flame_accounts_time (cur cur' : list Id) (w w' : World) (samples : list (list SpanRef * Z)) :
  flame_run cur w samples cur' w' ->
  written (user w') = written (user w) ++
    String.concat "" (map (line_of (flame_thread (user w))) (List.filter shown samples)) /\
  total samples = (last_of w' - last_of w)%Z /\ Forall (fun s => 0 <= s.2)%Z samples /\
  (forall w1 op path cur1, between w' w1 -> nested cur' w1 op path cur1 ->
     exists w2, run_op op w1 = Done (tt, w2)).
Proof.
  intros H.
  assert (forall w1 op path cur1, between w' w1 -> nested cur' w1 op path cur1 ->
     exists w2, run_op op w1 = Done (tt, w2)) as Hprogress by (intros; eexists; by eapply run_op_charged).
  split; [|split; [|split; [|exact Hprogress]]]; clear Hprogress;
    (induction H as [cur w|cur w w1 op path cur1 w2 samples cur' w' Hb Hn Ho Hr IH];
     [cbn; rewrite ?append_nil_r; try done; lia|];
     rewrite (run_op_charged _ _ _ _ _ Hn) in Ho; injection Ho as <-;
     destruct (charged_state w w1 path Hb) as (Hw & Hl & Ht)).
  - rewrite IH, Hw, Ht. cbn [List.filter]. destruct (shown _); cbn [map]; [|by rewrite append_nil_r].
    by rewrite Escape.concat_cons, append_assoc.
  - cbn [total foldr snd]. fold (total samples). rewrite IH, Hl. lia.
  - constructor; [cbn [snd]; destruct Hb as (_ & _ & _ & Hle); lia|done].
Qed.
End accounts.

(** ** Two nested spans *)

Module FlameExample.

Record State := { time : Z; last : option Z; got : string }.
#[local] Instance env : Env := {|
  debug_assertions := true; ext_types := fun _ => unit; UserState := State;
|}.
#[local] Instance pool_ops : PoolOps DataInner := map_pool default_data.
#[local] Instance flame_env : FlameEnv State := {|
  START _ := 10%Z; instant_now := time; last_event := last;
  set_last_event t u := {| time := time u; last := Some t; got := got u |};
  flame_thread _ := {| thread_name := Some "main"; thread_id := 1 |};
|}.
Definition put (s : string) (u : State) : State := {| time := time u; last := last u; got := got u ++ s |}.
#[local] Instance stream : IoWrite State unit unit := {|
  Writers.write _ s u := (put s u, Ok (Z.of_nat (str_len s))); flush _ u := (u, Ok tt);
  write_vectored _ l u := (put (String.concat "" l) u, Ok 0%Z);
  write_all _ s u := (put s u, Ok tt); write_fmt _ s u := (put s u, Ok tt);
|}.
#[local] Instance flame_laws : FlameLaws flame_env stream tt.
Proof. refine {| written := got |}; done. Defined.

Definition span_data (name : string) (parent : option Id) : DataInner := {|
  filter_map := FilterMap.new;
  Registry.metadata := Metadata.new name "app" Level.INFO None None (Some "app::tasks") (FieldSet.new [] 1) Kind.SPAN;
  parent := parent; ref_count := 1; extensions := ∅;
|}.
Definition outer : Data := {| key := 0; inner := span_data "outer" None |}.
Definition inner_span : Data := {| key := 1; inner := span_data "inner" (Some (idx_to_id 0)) |}.
Definition at_time (t : Z) (w : World) : World :=
  with_user {| time := t; last := last (user w); got := got (user w) |} w.
Definition world : World := {|
  filtering := FilterState.new; close_count := 0; current_spans := None; panicking := false;
  spans := {| live := <[0%Z := inner outer]> {[ 1%Z := inner inner_span ]}; spare := [] |};
  next_filter_id := 0; user := {| time := 10; last := None; got := "" |};
|}.
Definition self (empty : bool) : FlameLayer unit := with_empty_samples empty (new tt).

(** The clock shows 12, 15, 22 and 30 when the spans are entered and exited. *)
Definition folded (empty : bool) : outcome string :=
  let cx := {| subscriber := Some registry_subscriber; filter := FilterId.none |} in
  '(_, w) ← on_enter 5 (self empty) (idx_to_id 0) cx (at_time 12 world);
  '(_, w) ← on_enter 5 (self empty) (idx_to_id 1) cx (at_time 15 w);
  '(_, w) ← on_exit 5 (self empty) (idx_to_id 1) cx (at_time 22 w);
  '(_, w) ← on_exit 5 (self empty) (idx_to_id 0) cx (at_time 30 w);
  Done (got (@user env pool_ops w)).
Definition in_spans : string :=
  "ThreadId(1)-main;app::tasks::outer 3" ++ NL ++
  "ThreadId(1)-main;app::tasks::outer;app::tasks::inner 7" ++ NL ++
  "ThreadId(1)-main;app::tasks::outer 8" ++ NL.
Example folded_all : folded true = Done ("ThreadId(1)-main 2" ++ NL ++ in_spans).
Proof. vm_compute. reflexivity. Qed.
Example folded_in_spans : folded false = Done in_spans.
Proof. vm_compute. reflexivity. Qed.

End FlameExample.

Section witness.
Import FlameExample.
#[local] Existing Instances env pool_ops flame_env stream flame_laws.

Lemma flame_accounts_time_witness :
  exists w1 w2 : @World env pool_ops,
    total [([], 2); ([as_span FilterId.none outer], 3)]%Z = (last_of w2 - last_of world)%Z /\
    got (user w2) = "ThreadId(1)-main 2" ++ NL ++ "ThreadId(1)-main;app::tasks::outer 3" ++ NL.
Proof.
  set (w1 := charged (self true) (at_time 12 world) []).
  set (w2 := charged (self true) (at_time 15 w1) [as_span FilterId.none outer]).
  exists w1, w2.
  assert (forall w, spans w = spans world ->
    path_at 5 FilterId.none w (idx_to_id 0) [as_span FilterId.none outer]) as Houter.
  { intros w Hw. exists (inner outer), []. rewrite Hw. split; [reflexivity|]. split; [reflexivity|].
    split; [reflexivity|]. split; [constructor|]. split; [cbn; lia|reflexivity]. }
  assert (path_at 5 FilterId.none (at_time 15 w1) (idx_to_id 1)
    ([as_span FilterId.none outer] ++ [as_span FilterId.none inner_span])) as Hinner.
  { exists (inner inner_span), [outer]. split; [reflexivity|]. split; [reflexivity|]. split; [reflexivity|].
    split; [|split; [cbn; lia|reflexivity]].
    apply (ancestry_cons _ (idx_to_id 0) (inner outer) []); [reflexivity|constructor]. }
  set (t1 := (instant_now (user (at_time 12 world)) - last_of world)%Z).
  set (t2 := (instant_now (user (at_time 15 w1)) - last_of w1)%Z).
  destruct (flame_accounts_time 5 (self true) registry_subscriber registry_looks_up FilterId.none [] [idx_to_id 1; idx_to_id 0]
    world w2 [([], t1); ([as_span FilterId.none outer], t2)]) as (Hw & Ht & _).
  - apply (run_step 5 (self true) registry_subscriber FilterId.none [] world (at_time 12 world) (Enter (idx_to_id 0)) []
      [idx_to_id 0] w1).
    + vm_compute. repeat split; discriminate.
    + split; [reflexivity|]. split; [|reflexivity]. eexists. by apply Houter.
    + reflexivity.
    + apply (run_step 5 (self true) registry_subscriber FilterId.none [idx_to_id 0] w1 (at_time 15 w1) (Enter (idx_to_id 1))
        [as_span FilterId.none outer] [idx_to_id 1; idx_to_id 0] w2).
      * vm_compute. repeat split; discriminate.
      * split; [by apply Houter|]. split; [|reflexivity]. eexists. exact Hinner.
      * vm_compute. reflexivity.
      * constructor.
  - split; [rewrite <- Ht; vm_compute; reflexivity|]. etransitivity; [exact Hw|]. vm_compute. reflexivity.
Defined.
End witness.
