(* ===== verification/FieldVisitors.v ===== *)
(** * FieldVisitors: [tracing-subscriber/src/field]

    The combinators of the visitors of fields: [Delimited], which writes a delimiter between
    the fields, [Messages], which prints messages as text, and [Alt], which prints values in
    the alternate form.  A maker of visitors is the function from its target. *)

From S2P Require Import Prelude.
From S2P Require Import Str.
From S2P Require Import Fields.
From S2P Require Import Meta.
From S2P Require Import Escape.
From S2P Require Import Format.

Local Open Scope string_scope.

(** ** [trait VisitOutput], [trait VisitFmt], [trait MakeOutput], of [field/mod.rs]

    [write_str] of the [writer]. *)
Class VisitFmt (V Out : Type) := {
  visitor : Visit V;
  write_to : string -> V -> V * result unit unit;
  finish : V -> Out;
}.
Definition visit {V Out} `{!VisitFmt V Out} (self : V) (fields : ValueSet) : Out :=
  finish (ValueSet.record fields visitor self).
Definition visit_with {T V Out} `{!VisitFmt V Out} (make_visitor : T -> V) (target : T) (fields : ValueSet) : Out :=
  visit (make_visitor target) fields.

(** ** [Delimited], [VisitDelimited], of [delimited.rs] *)

Record Delimited (T V : Type) := { d_delimiter : string; d_inner : T -> V }.
Arguments d_delimiter {T V}.
Arguments d_inner {T V}.
Record VisitDelimited (V : Type) := {
  delimiter : string;
  seen : bool;
  inner : V;
  err : result unit unit;
}.
Arguments delimiter {V}. Arguments seen {V}. Arguments inner {V}. Arguments err {V}.
Arguments Build_VisitDelimited {V}.

Section delimited.
Context {V Out : Type} `{!VisitFmt V Out}.
Implicit Types self : VisitDelimited V.

Definition delimited_new (delimiter : string) (inner : V) : VisitDelimited V :=
  Build_VisitDelimited delimiter false inner (Ok tt).
Definition delimited_make {T} (self : Delimited T V) (target : T) : VisitDelimited V :=
  delimited_new (d_delimiter self) (d_inner self target).
Definition delimit self : VisitDelimited V :=
  match err self with
  | Err _ => self
  | Ok _ =>
      if seen self then
        let '(inner, r) := write_to (delimiter self) (inner self) in
        Build_VisitDelimited (delimiter self) true inner r
      else Build_VisitDelimited (delimiter self) true (inner self) (err self)
  end.
Definition with_inner (f : V -> V) self : VisitDelimited V :=
  Build_VisitDelimited (delimiter self) (seen self) (f (inner self)) (err self).

(** Five methods are defined; the others are the trait's. *)
Definition delimited_record_debug (f : Field) (v : DebugValue) self : VisitDelimited V :=
  with_inner (Fields.record_debug visitor f v) (delimit self).
Definition delimited_visit : Visit (VisitDelimited V) :=
  let default := default_visit delimited_record_debug in {|
  Fields.record_f64 := record_f64 default;
  Fields.record_i64 f v self := with_inner (Fields.record_i64 visitor f v) (delimit self);
  Fields.record_u64 f v self := with_inner (Fields.record_u64 visitor f v) (delimit self);
  Fields.record_i128 := record_i128 default;
  Fields.record_u128 := record_u128 default;
  Fields.record_bool f v self := with_inner (Fields.record_bool visitor f v) (delimit self);
  Fields.record_str f v self := with_inner (Fields.record_str visitor f v) (delimit self);
  Fields.record_bytes := record_bytes default;
  Fields.record_error := Fields.record_error default;
  Fields.record_debug := delimited_record_debug;
|}.
(** [self.err?; self.inner.finish()] *)
Definition delimited_finish (failed : V -> Out) self : Out :=
  match err self with Ok _ => finish (inner self) | Err _ => failed (inner self) end.
Definition delimited_write_to (s : string) self : VisitDelimited V * result unit unit :=
  let '(inner, r) := write_to s (inner self) in
  (Build_VisitDelimited (delimiter self) (seen self) inner (err self), r).
End delimited.

(** ** [Messages], of [display.rs], and [Alt], of [debug.rs]

    Newtypes of the visitor inside, whose [finish] and [writer] they forward. *)
Section newtypes.
Context {V Out : Type} `{!VisitFmt V Out}.

Definition messages_make {T} (make_visitor : T -> V) (target : T) : V := make_visitor target.
(** Panics when the name of the field is asked for out of bounds. *)
Definition messages_visit (panicked : V) : Visit V :=
  let default := default_visit (Fields.record_debug visitor) in {|
  Fields.record_f64 := record_f64 visitor;
  Fields.record_i64 := record_i64 visitor;
  Fields.record_u64 := record_u64 visitor;
  Fields.record_i128 := record_i128 default;
  Fields.record_u128 := record_u128 default;
  Fields.record_bool := record_bool visitor;
  Fields.record_str f v self :=
    match Field.name f with
    | Done name =>
        if name =? "message" then Fields.record_debug visitor f (DisplayValue [v]) self else Fields.record_str visitor f v self
    | Panic => panicked
    end;
  Fields.record_bytes := record_bytes default;
  Fields.record_error := Fields.record_error default;
  Fields.record_debug := Fields.record_debug visitor;
|}.

(** [{:#?}] of a value. *)
Variable alternate : DebugValue -> DebugValue.
Definition alt_make {T} (make_visitor : T -> V) (target : T) : V := make_visitor target.
Definition alt_record_debug (f : Field) (v : DebugValue) (self : V) : V := Fields.record_debug visitor f (alternate v) self.
Definition alt_visit : Visit V :=
  let default := default_visit alt_record_debug in {|
  Fields.record_f64 := record_f64 visitor;
  Fields.record_i64 := record_i64 visitor;
  Fields.record_u64 := record_u64 visitor;
  Fields.record_i128 := record_i128 default;
  Fields.record_u128 := record_u128 default;
  Fields.record_bool := record_bool visitor;
  Fields.record_str := Fields.record_str visitor;
  Fields.record_bytes := record_bytes default;
  Fields.record_error := Fields.record_error default;
  Fields.record_debug := alt_record_debug;
|}.
Definition newtype_finish (self : V) : Out := finish self.
Definition newtype_write_to (s : string) (self : V) : V * result unit unit := write_to s self.
End newtypes.

(** ** The visitors of [fmt/format/mod.rs] under the combinators *)

Section visitors.
Context {C : FmtCrates}.

(** [impl VisitFmt for FieldFnVisitor] and for [DefaultVisitor]; a panic goes on. *)
#[export] Instance field_fn_fmt : VisitFmt (outcome FieldFnVisitor) (outcome (Writer * result unit unit)) := {|
  visitor := field_fn_visitor;
  write_to s st :=
    (self ← st; Done {| fn_f := fn_f self; fn_writer := write_str s (fn_writer self); fn_result := fn_result self |}, Ok tt);
  finish st := self ← st; Done (fn_writer self, fn_result self);
|}.
#[export] Instance default_fmt : VisitFmt (outcome DefaultVisitor) (outcome (Writer * result unit unit)) := {|
  visitor := default_visitor;
  write_to s st :=
    (self ← st; Done {| dv_writer := write_str s (dv_writer self); is_empty := is_empty self; dv_result := dv_result self |},
     Ok tt);
  finish st := self ← st; Done (dv_writer self, dv_result self);
|}.

(** The value that [record_debug] gets from the default methods. *)
Fixpoint debugged (v : Value) : option DebugValue :=
  match v with
  | VF64 v => Some (DebugF64 v)
  | VI64 v | VU64 v | VI128 v | VU128 v => Some (DebugInt v)
  | VBool v => Some (DebugBool v)
  | VStr v => Some (DebugStr v)
  | VBytes v => Some (HexBytes v)
  | VError v => Some (DisplayValue (error_display v))
  | VDebug v => Some v
  | VEmpty | VNone => None
  | VSome v => debugged v
  end.

(** A function that writes a text for each field, whatever was written before. *)
Definition fn_writes (fn : FieldFn) (text : Field -> DebugValue -> string) : Prop :=
  forall w f v, fn w f v = Done (write_str (text f v) w, Ok tt).
Definition texts (text : Field -> DebugValue -> string) (l : list (Field * Value)) : list string :=
  omap (fun x => text x.1 <$> debugged x.2) l.
Definition sep_glue (d : string) (first : bool) (l : list string) : string :=
  if first then join d l else String.concat "" (map (fun s => d ++ s) l).
Lemma sep_glue_cons d b x l : sep_glue d b (x :: l) = (if b then "" else d) ++ x ++ sep_glue d false l.
Proof. destruct b; unfold sep_glue; [by rewrite join_cons|]. cbn [map]. by rewrite Escape.concat_cons, append_assoc. Qed.

Definition delimited_state (d : string) (fn : FieldFn) (first : bool) (w : Writer) : VisitDelimited (outcome FieldFnVisitor) :=
  Build_VisitDelimited d (negb first) (Done {| fn_f := fn; fn_writer := w; fn_result := Ok tt |}) (Ok tt).

Lemma delimited_value d fn text f v first w :
  fn_writes fn text ->
  value_record v f delimited_visit (delimited_state d fn first w) =
  match debugged v with
  | Some x => delimited_state d fn false (write_str ((if first then "" else d) ++ text f x) w)
  | None => delimited_state d fn first w
  end.
Proof.
  intros Hfn. assert (forall x,
    with_inner (field_fn_record_debug f x) (delimit (delimited_state d fn first w)) =
    delimited_state d fn false (write_str ((if first then "" else d) ++ text f x) w)) as H.
  { intros x. unfold delimited_state, delimit. cbn [err seen]. destruct first; cbn; unfold with_inner; cbn;
      rewrite Hfn; cbn [mbind outcome_bind]; [done|]. by rewrite write_str_app. }
  induction v; cbn [value_record debugged]; try apply H; try done.
Qed.

(** With a delimiter, a function that formats fields writes the texts of the recorded
    values, in order, with the delimiter between them and nowhere else, and succeeds. *)
Lemma delimited_writes (d : string) (fn : FieldFn) (text : Field -> DebugValue -> string) (vs : ValueSet) (w : Writer) :
  fn_writes fn text ->
  delimited_finish (fun _ => Panic)
    (ValueSet.record vs delimited_visit (delimited_new d (Done (field_fn_visitor_new fn w)))) =
  Done (write_str (join d (texts text (recorded vs))) w, Ok tt).
Proof.
  intros Hfn. rewrite record_recorded. change (delimited_new d _) with (delimited_state d fn true w).
  change (join d (texts text (recorded vs))) with (sep_glue d true (texts text (recorded vs))).
  generalize true as first. revert w. induction (recorded vs) as [|[f v] l IH]; intros w first.
  - cbn. unfold sep_glue. by destruct first; cbn; rewrite write_str_nil.
  - cbn [fold_left texts omap list_omap fst snd]. rewrite (delimited_value d fn text) by done.
    destruct (debugged v) as [x|]; cbn [fmap option_fmap option_map]; [|apply IH].
    rewrite IH, sep_glue_cons. do 2 f_equal. rewrite write_str_app. by rewrite append_assoc.
Qed.
End visitors.

(** ** The methods that are not forwarded *)

Module FieldVisitorsExample.
#[local] Instance crates : FmtCrates := {|
  style_prefix _ := "";
  style_suffix _ := "";
  f64_debug _ := ["0.0"];
  str_debug s := ["'" ++ s ++ "'"];
  tracing_log := true;
  log_callsite _ := 9%N;
|}.
Definition names : FieldSet := {| fs_names := ["err"; "log.file"; "n"]; fs_callsite := 1%N |}.
Definition field (i : Z) : Field := {| field_i := i; field_set := names |}.
Definition escape : string := String (Ascii.ascii_of_nat 27) "[2J".
Definition failure : Value := VError {| error_display := [escape]; error_sources := [["disk full"]] |}.
Definition fresh : outcome DefaultVisitor := Done (visitor_new (writer_new "") true).
Definition written (st : VisitDelimited (outcome DefaultVisitor)) : outcome (Writer * result unit unit) :=
  delimited_finish (fun _ => Panic) st.

(** The default visitor escapes what an error prints and lists its sources. *)
Example default_error :
  finish (value_record failure (field 0) default_visitor fresh) =
  Done (writer_new "err=\x1b[2J err.sources=[disk full]", Ok tt).
Proof. vm_compute. reflexivity. Qed.
(** Inside [Delimited] it is not asked to: the escape sequence gets through, and the
    sources are lost; [Messages] and [Alt] do the same. *)
Example delimited_error :
  written (value_record failure (field 0) delimited_visit (delimited_new "," fresh)) =
  Done (writer_new ("err=" ++ escape), Ok tt).
Proof. vm_compute. reflexivity. Qed.
Example messages_error :
  finish (value_record failure (field 0) (messages_visit Panic) fresh) =
  Done (writer_new ("err=" ++ escape), Ok tt).
Proof. vm_compute. reflexivity. Qed.
(** A field that the visitor inside does not show is delimited like the others. *)
Example delimited_hidden_field :
  written (fold_left (fun st x => value_record (VI64 x.2) (field x.1) delimited_visit st)
             [(2, 1); (1, 5); (2, 3)]%Z (delimited_new "," fresh)) =
  Done (writer_new "n=1,, n=3", Ok tt).
Proof. vm_compute. reflexivity. Qed.
End FieldVisitorsExample.
