(* ===== verification/SpanTraces.v ===== *)
(** * SpanTraces: [tracing-error]

    The layer that stores formatted fields for span traces, the traces, which are handles of
    spans, and the errors that carry one. *)

From stdpp Require Import pretty.
From S2P Require Import Prelude.
From S2P Require Import Str.
From S2P Require Import Levels.
From S2P Require Import Fields.
From S2P Require Import Meta.
From S2P Require Import Interests.
From S2P Require Import FilterIds.
From S2P Require Import SpanStack.
From S2P Require Import Extensions.
From S2P Require Import Registry.
From S2P Require Import Pools.
From S2P Require Import Contexts.
From S2P Require Import Layers.
From S2P Require Import Stacks.
From S2P Require Import SpanLife.
From S2P Require Import Format.
From S2P Require Import FormatEvent.
From S2P Require Import FmtLayer.
From S2P Require Import SpanHandles.

Local Open Scope string_scope.

(** ** [struct ErrorLayer], of [layer.rs] *)

Section layer.
Context `{E : Env} {P : PoolOps DataInner} `{!FieldsSlot}.

Record ErrorLayer := { format : FormatFields }.
Definition error_layer_new (format : FormatFields) : ErrorLayer := {| format := format |}.
Definition error_layer_default {C : FmtCrates} : ErrorLayer := error_layer_new default_fields.

Definition error_on_new_span (self : ErrorLayer) (attrs : Attributes) (id : Id) (cx : Context_) : M unit :=
  span ← span_of id cx;
  stored ← get_fields span;
  match stored with
  | Some _ => mret tt
  | None =>
      '(w, r) ← lift (format_fields (format self) (Attributes.values attrs) (as_writer (formatted_new "")));
      match r with
      | Ok _ => insert_ext fields_ty (to_val (with_fields (text w) (formatted_new ""))) span
      | Err _ => mret tt
      end
  end.

(** The other methods are the trait's. *)
Definition error_layer (self : ErrorLayer) : Layer := {|
  l_on_register_dispatch := mret tt;
  l_register_callsite := layer_default_register_callsite (fun _ _ => mret true);
  l_enabled _ _ := mret true;
  l_max_level_hint := None;
  l_on_new_span := error_on_new_span self;
  l_on_record _ _ _ := mret tt;
  l_on_follows_from _ _ _ := mret tt;
  l_event_enabled _ _ := mret true;
  l_on_event _ _ := mret tt;
  l_on_enter _ _ := mret tt;
  l_on_exit _ _ := mret tt;
  l_on_close _ _ := mret tt;
  l_on_id_change _ _ _ := mret tt;
  l_has_plf := false;
  l_is_none := false;
|}.

(** ** [WithContext], [ErrorLayer::get_context]

    The walk stops when the function returns false.  The function keeps a state [A]; the
    fuel is more than the number of spans. *)
Variable fuel : nat.

Section walk.
Context {A : Type} (f : A -> Metadata -> string -> A * bool).

Fixpoint visit_scope (n : nat) (registry : DynSubscriber) (self : Scope) (a : A) : M A :=
  match n with
  | O => lift Panic
  | S n' =>
      '(next, self) ← scope_iter_next n registry self;
      match next with
      | None => mret a
      | Some span =>
          fields ← get_fields span;
          let '(a, cont) := f a (span_metadata span) (match fields with Some fields => ff_fields fields | None => "" end) in
          if (cont : bool) then visit_scope n' registry self a else mret a
      end
  end.
Definition get_context (dispatch : DynSubscriber) (id : Id) (a : A) : M A :=
  span ← lookup_span dispatch id;
  span ← lift (expect span);
  visit_scope fuel dispatch (span_scope_of span) a.
End walk.

(** ** [struct SpanTrace], of [backtrace.rs]

    [with_context d] says whether a downcast of [d] finds the [WithContext] of an
    [ErrorLayer]. *)
Variable with_context : DynSubscriber -> bool.

Record SpanTrace := { trace_span : Span }.
Definition trace_new (span : Span) : SpanTrace := {| trace_span := span |}.
(** [default] is the thread's dispatcher. *)
Definition capture (default : DynSubscriber) : M SpanTrace :=
  span ← SpanHandles.current default; mret (trace_new span).

Definition with_spans {A} (f : A -> Metadata -> string -> A * bool) (self : SpanTrace) (a : A) : M A :=
  match with_subscriber (trace_span self)
          (fun '(id, s) => if with_context s then get_context f s id a else mret a) with
  | Some m => m
  | None => mret a
  end.

Inductive SpanTraceStatus := UNSUPPORTED | EMPTY | CAPTURED.
Definition status (self : SpanTrace) : SpanTraceStatus :=
  if is_none (trace_span self) then EMPTY
  else match with_subscriber (trace_span self)
               (fun '(_, s) => if with_context s then Some CAPTURED else None) with
       | Some (Some status) => status
       | _ => UNSUPPORTED
       end.

(** ** [impl Display for SpanTrace]

    On a formatter with the state [F]; each [write!] is one call of [put], which may fail. *)
Section display.
Context {F : Type} (put : string -> F -> F * result unit unit).

(** The state of the closure: the formatter, [err] and [span]. *)
Record Shown := { formatter : F; shown_err : result unit unit; shown_span : N }.

Definition put_err (s : string) (a : Shown) : Shown * bool :=
  let '(x, r) := put s (formatter a) in
  ({| formatter := x; shown_err := match r with Ok _ => shown_err a | Err _ => r end; shown_span := shown_span a |},
   match r with Ok _ => (match shown_err a with Ok _ => true | Err _ => false end) | Err _ => false end).
(** [{:>4}] *)
Definition pad4 (s : string) : string :=
  str_take (4 - str_len s) "    " ++ s.
Definition place (m : Metadata) : option (string * Z) :=
  match Metadata.file m, Metadata.line m with Some file, Some line => Some (file, line) | _, _ => None end.

Fixpoint try_puts (l : list string) (a : Shown) : Shown * bool :=
  match l with
  | [] => (a, true)
  | s :: l => let '(a, ok) := put_err s a in if (ok : bool) then try_puts l a else (a, false)
  end.
(** The texts of a span, in the order of the [write!]s. *)
Definition entry_texts (span : N) (m : Metadata) (fields : string) : list string :=
  (if (0 <? span)%N then [NL] else []) ++
  [pad4 (pretty span) ++ ": " ++ Metadata.target m ++ "::" ++ Metadata.name m] ++
  (if (fields =? "")%string then [] else [NL ++ "           with " ++ fields]) ++
  match place m with Some (file, line) => [NL ++ "             at " ++ file ++ ":" ++ pretty line] | None => [] end.
Definition show_span (a : Shown) (m : Metadata) (fields : string) : Shown * bool :=
  let '(a, ok) := try_puts (entry_texts (shown_span a) m fields) a in
  if (ok : bool)
  then ({| formatter := formatter a; shown_err := shown_err a; shown_span := (shown_span a + 1)%N |}, true)
  else (a, false).
Definition trace_display (self : SpanTrace) (x : F) : M (F * result unit unit) :=
  a ← with_spans show_span self {| formatter := x; shown_err := Ok tt; shown_span := 0 |};
  mret (formatter a, shown_err a).
End display.

(** ** [impl Debug for SpanTrace], into a [String] *)

Definition debug_span {C : FmtCrates} (m : Metadata) (fields : string) : string :=
  let quoted s := String.concat "" (str_debug s) in
  "{ target: " ++ quoted (Metadata.target m) ++ ", name: " ++ quoted (Metadata.name m) ++
  (if (fields =? "")%string then "" else ", fields: " ++ quoted fields) ++
  match place m with Some (file, line) => ", file: " ++ quoted file ++ ", line: " ++ pretty line | None => "" end ++
  " }".
Definition trace_debug {C : FmtCrates} (self : SpanTrace) : M string :=
  entries ← with_spans (fun l m fields => (l ++ [debug_span m fields], true))%list self [];
  mret ("SpanTrace [" ++ String.concat ", " entries ++ "]").
End layer.

(** ** [error.rs]

    A [dyn Error]: one of another crate, a [TracedError] around an error, or the
    [ErrorImpl<Erased>] of one, which the erasure of types turns it into. *)
Section errors.
Context `{E : Env} {P : PoolOps DataInner}.

#[warnings="-register-all"]
Inductive DynError :=
  | Foreign (display debug : string) (source : option DynError)
  | Traced (span_trace : SpanTrace) (error : DynError)
  | ErasedImpl (span_trace : SpanTrace) (error : DynError).

(** [Error::source] *)
Fixpoint source (e : DynError) : option DynError :=
  match e with
  | Foreign _ _ source => source
  | Traced t error => Some (ErasedImpl t error)
  | ErasedImpl _ error => source error
  end.
(** [ExtractSpanTrace::span_trace] *)
Definition span_trace (e : DynError) : option SpanTrace :=
  match e with ErasedImpl t _ => Some t | _ => None end.

(** [Display] and [Debug], into a [String] that does not fail *)
Section texts.
Variable trace_display_text trace_debug_text : SpanTrace -> M string.
Definition erased_display (t : SpanTrace) : M string :=
  s ← trace_display_text t; mret ("span backtrace:" ++ NL ++ s).
Definition erased_debug (t : SpanTrace) : M string :=
  s ← trace_debug_text t; mret ("span backtrace:" ++ NL ++ s).
Fixpoint error_display (e : DynError) : M string :=
  match e with
  | Foreign display _ _ => mret display
  | Traced _ error => error_display error
  | ErasedImpl t _ => erased_display t
  end.
Fixpoint error_debug (e : DynError) : M string :=
  match e with
  | Foreign _ debug _ => mret debug
  | Traced _ error => error_debug error
  | ErasedImpl t _ => erased_debug t
  end.
End texts.

(** [impl From<E> for TracedError<E>], [InstrumentError], [InstrumentResult] *)
Definition traced_from (default : DynSubscriber) (error : DynError) : M DynError :=
  t ← capture default; mret (Traced t error).
Definition in_current_span (default : DynSubscriber) (self : DynError) : M DynError :=
  traced_from default self.
Definition result_in_current_span {T} (default : DynSubscriber) (self : result T DynError) : M (result T DynError) :=
  match self with
  | Ok t => mret (Ok t)
  | Err e => e ← in_current_span default e; mret (Err e)
  end.

(** The chain of sources: [e], its source, and so on. *)
Fixpoint chain (n : nat) (e : DynError) : list DynError :=
  match n with
  | O => []
  | S n => e :: match source e with Some e => chain n e | None => [] end
  end.
End errors.

(** ** What a trace visits *)

Section visits.
Context `{E : Env} {P : PoolOps DataInner} {S : FieldsSlot}.

(** The text stored with a span, and what the function makes of a list of spans. *)
Definition stored_text (d : Data) : string :=
  match ExtensionsInner.get fields_ty (extensions (Registry.inner d)) with
  | Some v => ff_fields (of_val v)
  | None => ""
  end.
Fixpoint fold_until {A} (f : A -> Metadata -> string -> A * bool) (l : list Data) (a : A) : A :=
  match l with
  | [] => a
  | d :: l =>
      let '(a, cont) := f a (Registry.data_metadata d) (stored_text d) in
      if (cont : bool) then fold_until f l a else a
  end.

Lemma no_filter_enabled d : Registry.is_enabled_for FilterId.none d = true.
Proof. unfold Registry.is_enabled_for, FilterMap.is_enabled. cbn. by rewrite Z.land_0_r. Qed.
Lemma no_filter_all l : enabled_data FilterId.none l = l.
Proof. induction l as [|d l IH]; [done|]. unfold enabled_data in *. cbn [List.filter]. by rewrite no_filter_enabled, IH. Qed.

Lemma get_fields_span d f w :
  pool_get (key d) (spans w) = Some (Registry.inner d) ->
  (get_fields (as_span f d) w : outcome (option FormattedFields * World)) =
  Done (of_val <$> ExtensionsInner.get fields_ty (extensions (Registry.inner d)), w).
Proof. intros Hd. unfold get_fields, exts. mred. cbn [data as_span]. by rewrite Hd. Qed.

Lemma visit_scope_spec {A} (f : A -> Metadata -> string -> A * bool) reg start l w n a :
  looks_up_registry reg -> ancestry (spans w) start l -> (length l < n)%nat ->
  visit_scope f n reg {| scope_next := start; scope_filter := FilterId.none |} a w =
  Done (fold_until f l a, w).
Proof.
  intros Hreg H. revert n a.
  induction H as [|id Hid|id d l Hid Hl IH]; intros [|n] a Hn; cbn [length] in Hn; try lia; cbn [visit_scope]; mred.
  - rewrite (scope_next_spec reg Hreg FilterId.none None [] w _ (ancestry_none _)) by (cbn; lia). done.
  - rewrite (scope_next_spec reg Hreg FilterId.none (Some id) [] w _ (ancestry_missing _ id Hid)) by (cbn; lia). done.
  - rewrite (scope_next_spec reg Hreg FilterId.none (Some id) _ w _ (ancestry_cons _ id d l Hid Hl)) by (cbn; lia).
    rewrite no_filter_all. cbn [head fmap option_fmap option_map after_enabled].
    rewrite no_filter_enabled, get_fields_span by done. cbn [fst fold_until].
    unfold stored_text. cbn [Registry.inner].
    assert (forall x : option (Val fields_ty), match of_val <$> x with Some fields => ff_fields fields | None => "" end =
                 match x with Some v => ff_fields (of_val v) | None => "" end) as -> by by intros [].
    change (span_metadata (as_span _ ?x)) with (Registry.data_metadata x).
    destruct (f _ _ _) as [a' []]; [|done]. apply IH. lia.
Qed.

(** *** The ancestors of a span that is held *)

(** The last one has no parent. *)
Definition to_root (l : list Data) : Prop := exists d, list_basics.list.last l = Some d /\ Registry.data_parent d = None.

Context {PL : PoolLaws default_data P}.

Lemma ancestors_to_root h n p k d :
  refs_ok h n p -> pool_get k p = Some d ->
  exists l, ancestry p (Some (idx_to_id k)) l /\ to_root l /\ head l = Some {| key := k; Registry.inner := d |} /\
    (length l <= size (pool_keys p))%nat.
Proof.
  intros Hrefs. destruct (ro_rank _ _ _ Hrefs) as [rank Hrank].
  enough (forall m k d, rank k = m -> pool_get k p = Some d -> exists l,
    ancestry p (Some (idx_to_id k)) l /\ to_root l /\ head l = Some {| key := k; Registry.inner := d |} /\
    NoDup (key <$> l) /\ Forall (fun x => is_Some (pool_get (key x) p) /\ (rank (key x) <= m)%nat) l) as Hmain.
  { intros Hd. destruct (Hmain _ _ _ eq_refl Hd) as (l & Ha & Hr & Hh & Hnd & Hall). exists l. split_and!; try done.
    rewrite <- (length_fmap key), <- (size_list_to_set (C := gset Z)) by done. apply subseteq_size.
    intros x. rewrite elem_of_list_to_set, pool_keys_get, list_elem_of_fmap. intros (y & -> & Hy).
    by eapply Forall_forall in Hall as [? _]. }
  clear k d. intros m. induction (lt_wf m) as [m _ IH]. intros k d Hm Hd.
  assert (0 <= k)%Z as H0 by (apply (ro_keys _ _ _ Hrefs); eauto).
  assert (pool_get (id_to_idx (idx_to_id k)) p = Some d) as Hd' by by rewrite id_idx.
  destruct (parent d) as [up|] eqn:Hup.
  - destruct (ro_parent _ _ _ Hrefs _ _ _ Hd Hup) as (kp & Hkp & -> & [dp Hdp]).
    pose proof (Hrank _ _ _ Hd Hup Hkp) as Hlt.
    destruct (IH (rank kp) ltac:(lia) kp dp eq_refl Hdp) as (l & Ha & (z & Hz & Hzp) & Hh & Hnd & Hall).
    exists ({| key := k; Registry.inner := d |} :: l).
    pose proof (ancestry_cons p _ _ l Hd' ltac:(by rewrite Hup)) as Hcons. rewrite id_idx in Hcons by done.
    split_and!; [done| |done|..].
    + exists z. split; [|done]. by rewrite last_cons, Hz.
    + cbn. apply NoDup_cons. split; [|done]. intros (y & Hy & Hin)%list_elem_of_fmap.
      eapply Forall_forall in Hall as [_ Hle]; [|done]. rewrite <- Hy in Hle. lia.
    + constructor; [cbn; split; [eauto|lia]|]. eapply Forall_impl; [done|]. intros y [? ?]. split; [done|lia].
  - exists [{| key := k; Registry.inner := d |}].
    pose proof (ancestry_cons p _ _ [] Hd' ltac:(by rewrite Hup; constructor)) as Hcons. rewrite id_idx in Hcons by done.
    split_and!; [done| |done|..].
    + eexists. split; [done|]. done.
    + apply NoDup_singleton.
    + constructor; [|done]. cbn. split; [eauto|lia].
Qed.
End visits.

(** *** The text of a trace *)

Section text_of.
Context `{E : Env} {P : PoolOps DataInner} {S : FieldsSlot}.

Definition put_string (s x : string) : string * result unit unit := (x ++ s, Ok tt).
Fixpoint trace_text (n : N) (l : list Data) : string :=
  match l with
  | [] => ""
  | d :: l => String.concat "" (entry_texts n (Registry.data_metadata d) (stored_text d)) ++ trace_text (n + 1) l
  end.

Lemma try_puts_string l x n :
  try_puts put_string l {| formatter := x; shown_err := Ok tt; shown_span := n |} =
  ({| formatter := x ++ String.concat "" l; shown_err := Ok tt; shown_span := n |}, true).
Proof.
  revert x. induction l as [|s l IH]; intros x; cbn [try_puts put_err put_string formatter shown_err shown_span].
  - cbn. by rewrite append_nil_r.
  - rewrite IH. by rewrite Escape.concat_cons, append_assoc.
Qed.
Lemma show_spans l x n :
  fold_until (show_span put_string) l {| formatter := x; shown_err := Ok tt; shown_span := n |} =
  {| formatter := x ++ trace_text n l; shown_err := Ok tt; shown_span := n + N.of_nat (length l) |}.
Proof.
  revert x n. induction l as [|d l IH]; intros x n; cbn [fold_until trace_text length].
  - rewrite append_nil_r. f_equal. lia.
  - unfold show_span at 1. cbn [shown_span]. rewrite try_puts_string. cbn [formatter shown_err shown_span].
    rewrite IH, append_assoc. f_equal. lia.
Qed.
End text_of.

(** C19: a span trace in a program is a handle of its span, so that it stays complete: at any
    time, on any thread, whatever was exited and dropped, it visits the span, its parent and
    so on up to a span without a parent, all of which are still in the registry, with the
    texts stored with them, until the function stops the walk; printing it gives the numbered
    lines of these spans; none of this panics or changes anything. *)
Theorem span_trace_complete `{E : Env} {P : PoolOps DataInner} `{!PoolLaws default_data P} {S : FieldsSlot}
    {A : Type} (f : A -> Metadata -> string -> A * bool) (a : A) (with_context : DynSubscriber -> bool)
    (es : list entry) (fuel m : nat) (st : State) (n : nat) (w : World) (x : nat) (v : Var) (i : Id)
    (Hpool : unlimited) (Hok : Forall entry_ok es) (H64 : (filters es < 64)%nat)
    (Hne : es <> []) (Hprog : program es fuel st n w)
    (Hx : var st x = Some v) (Hi : SpanHandles.id (var_span v) = Some i)
    (Hcx : with_context (dispatch es fuel) = true) (Hm : (size (pool_keys (spans w)) < m)%nat) :
  let trace := trace_new (var_span v) in
  status with_context trace = CAPTURED /\
  exists l, ancestry (spans w) (Some i) l /\ to_root l /\
    with_spans m with_context f trace a w = Done (fold_until f l a, w) /\
    forall s, trace_display m with_context put_string trace s w = Done ((s ++ trace_text 0 l, Ok tt), w).
Proof.
  destruct (program_ok es fuel Hpool Hok H64 Hne st n w Hprog) as [Hs Hst].
  pose proof (se_refs _ _ _ _ Hs) as Hrefs. set (k := id_to_idx i).
  assert (is_Some (pool_get k (spans w))) as [d Hd] by (apply (ro_held _ _ _ Hrefs); by eapply holds_var).
  assert (0 <= k)%Z as Hk by (apply (ro_keys _ _ _ Hrefs); eauto).
  assert (idx_to_id k = i) as Hid.
  { subst k. destruct i as [u]. unfold idx_to_id, id_to_idx, Id.into_u64 in *. cbn in *. f_equal. lia. }
  destruct (ancestors_to_root _ _ _ _ _ Hrefs Hd) as (l & Ha & Hroot & Hhead & Hlen). rewrite Hid in Ha.
  unfold SpanHandles.id in Hi. destruct (SpanHandles.inner (var_span v)) as [inn|] eqn:Hinn; [|done].
  injection Hi as Hi. pose proof (state_ok_var es fuel st x v inn Hst Hx Hinn) as Hsub.
  assert (forall B (g : B -> Metadata -> string -> B * bool) b,
    with_spans m with_context g (trace_new (var_span v)) b w = Done (fold_until g l b, w)) as Hwalk.
  { intros B g b. unfold with_spans, trace_new, with_subscriber. cbn [trace_span]. rewrite Hinn. cbn [fmap option_fmap option_map].
    rewrite Hsub, Hcx, Hi. unfold get_context. mred.
    rewrite (lookup_span_get (dispatch es fuel) (stack_looks_up _ es)). fold k. rewrite Hd. cbn [fmap option_fmap option_map expect].
    change (span_scope_of _) with ({| scope_next := Some (idx_to_id k); scope_filter := FilterId.none |}). rewrite Hid.
    apply visit_scope_spec; [apply stack_looks_up|done|lia]. }
  intros trace. split; [|exists l; split_and!; [done|done|apply Hwalk|]].
  - unfold status, trace, is_none, is_disabled, with_subscriber. cbn [trace_new trace_span]. rewrite Hinn. cbn.
    by rewrite Hsub, Hcx.
  - intros s. unfold trace_display. mred. unfold trace. rewrite Hwalk, show_spans. done.
Qed.

(** *** What the layer stores *)

Section stores.
Context `{E : Env} {P : PoolOps DataInner} `{!PoolLaws default_data P} {S : FieldsSlot}.

(** The layer stores the text of the fields with a new span that has none, unless they do
    not format; it leaves a text that another layer has stored, and every other span and
    extension. *)
Lemma error_layer_stores (self : ErrorLayer) (attrs : Attributes) (id : Id) (cx : Context_) (d : DataInner)
    (w : World) (t : Writer) (r : result unit unit) :
  sees cx id w -> pool_get (id_to_idx id) (spans w) = Some d ->
  format_fields (format self) (Attributes.values attrs) (as_writer (formatted_new "")) = Done (t, r) ->
  let e := match ExtensionsInner.get fields_ty (extensions d), r with
           | None, Ok _ => <[fields_ty := boxed fields_ty (to_val (with_fields (text t) (formatted_new "")))]> (extensions d)
           | _, _ => extensions d
           end in
  exists w', error_on_new_span self attrs id cx w = Done (tt, w') /\ w' = Registry.with_spans (spans w') w /\
    (forall k, k <> id_to_idx id -> pool_get k (spans w') = pool_get k (spans w)) /\
    pool_get (id_to_idx id) (spans w') = Some (set_extensions e d) /\
    ((ExtensionsInner.get fields_ty (extensions d) = None -> r = Ok tt ->
      stored_text {| key := id_to_idx id; Registry.inner := set_extensions e d |} = text t)).
Proof.
  intros Hsees Hd Hr e. destruct (span_of_sees cx id w Hsees) as (sp & Hsp & Hk).
  assert (exts sp w = Done (extensions d, w)) as He by (unfold exts; mred; by rewrite Hk, Hd).
  assert (set_extensions (extensions d) d = d) as Hsame by by destruct d.
  assert (w = Registry.with_spans (spans w) w) as Hw by by destruct w.
  unfold error_on_new_span, get_fields. mred. rewrite Hsp, He.
  destruct (ExtensionsInner.get fields_ty (extensions d)) as [v|] eqn:Hg; cbn [fmap option_fmap option_map].
  - exists w. subst e. split_and!; [done|done|done|by rewrite Hsame|done].
  - rewrite Hr. destruct r as [[]|[]].
    + unfold insert_ext. mred. rewrite He. unfold ExtensionsMut.insert, ExtensionsMut.replace, ExtensionsInner.insert.
      unfold ExtensionsInner.get in Hg. rewrite Hg. cbn. unfold set_exts. mred. rewrite Hk, Hd. cbn. eexists.
      split; [reflexivity|]. split; [done|]. cbn [spans Registry.with_spans]. split_and!.
      * intros k Hne. rewrite pool_get_set by by rewrite Hd. by rewrite decide_False.
      * rewrite pool_get_set by by rewrite Hd. by rewrite decide_True.
      * intros _ _. unfold stored_text, e. cbn [Registry.inner extensions set_extensions].
        by rewrite get_insert, set_at_eq, of_to_val.
    + exists w. subst e. split_and!; [done|done|done|by rewrite Hsame|done].
Qed.
End stores.

(** *** Errors *)

Section extract.
Context `{E : Env} {P : PoolOps DataInner}.

(** The chain of a traced error has its trace right after it, and then what the chain of the
    error has after the error. *)
Lemma traced_chain n t e :
  chain (S (S n)) (Traced t e) = Traced t e :: ErasedImpl t e :: (tail (chain (S n) e)).
Proof. done. Qed.
(** So the trace is found by looking through the chain. *)
Lemma traced_error_extracts (default : DynSubscriber) (e : DynError) (w : World) (n : nat) :
  (traced_from default e w = Panic /\ capture default w = Panic) \/
  exists t w', capture default w = Done (t, w') /\ traced_from default e w = Done (Traced t e, w') /\
    list_find (fun e => is_Some (span_trace e)) (chain (S (S n)) (Traced t e)) = Some (1%nat, ErasedImpl t e).
Proof.
  unfold traced_from. mred. destruct (capture default w) as [[t w']|]; [right|by left].
  exists t, w'. by split_and!.
Qed.
End extract.

(** ** A child whose parent's handle is gone *)

Module SpanTraceExample.
#[local] Existing Instances example_env example_pool.

(** The extensions of the example are integers. *)
Definition of_code (z : Z) : FormattedFields :=
  match z with
  | Zpos p => match decode p with
              | Some (s, a, b) => {| ff_fields := s; was_ansi := a; was_ansi_sanitized := b |}
              | None => formatted_new ""
              end
  | _ => formatted_new ""
  end.
Definition to_code (f : FormattedFields) : Z := Zpos (encode (ff_fields f, was_ansi f, was_ansi_sanitized f)).
Lemma of_to_code f : of_code (to_code f) = f.
Proof. destruct f as [s a b]. unfold of_code, to_code. by rewrite decode_encode. Defined.
#[local] Instance slot : FieldsSlot :=
  {| fields_ty := 7%N; to_val := to_code; of_val := of_code; of_to_val := of_to_code |}.

Definition two_spans : list stmt :=
  [Let (NewRoot asking (Attributes.metadata root_span) (Attributes.values root_span));
   Let (ChildOf always_on 0 (Attributes.metadata root_span) (Attributes.values root_span));
   DropVar 0].
Definition two_spans_end : outcome (State * World) := run_stmts example_stack 10 two_spans [] (with_filters 2).
Definition two_spans_text : string := "   0: app::span" ++ NL ++ "   1: app::span".

Lemma span_trace_complete_witness :
  match two_spans_end with
  | Done (st, w) =>
      exists v, var st 1 = Some v /\ status (fun _ => true) (trace_new (var_span v)) = CAPTURED /\
      trace_display 9 (fun _ => true) put_string (trace_new (var_span v)) "" w = Done ((two_spans_text, Ok tt), w)
  | Panic => False
  end.
Proof.
  assert (match two_spans_end with
          | Done (st, w) =>
              match var st 1 with
              | Some v => bool_decide (SpanHandles.id (var_span v) = Some (idx_to_id 1)) &&
                  (size (pool_keys (spans w)) <? 9)%nat &&
                  match trace_display 9 (fun _ => true) put_string (trace_new (var_span v)) "" w with
                  | Done ((s, _), _) => (s =? two_spans_text)%string
                  | Panic => false
                  end
              | None => false
              end
          | Panic => false
          end = true) as Hev by (vm_compute; reflexivity).
  destruct two_spans_end as [[st w]|] eqn:Hrun; [|discriminate Hev].
  destruct (var st 1) as [v|] eqn:Hv; [|discriminate Hev].
  apply andb_prop in Hev as [Hev Htext]. apply andb_prop in Hev as [Hi%bool_decide_eq_true Hm%Nat.ltb_lt].
  destruct (run_stmts_program example_stack 10 two_spans [] 0 (with_filters 2) st w)
    as [m Hp]; [by apply program_start|unfold U64.MAX; cbn; lia|exact Hrun|].
  destruct (span_trace_complete (fun a _ _ => (a, true)) tt (fun _ => true) example_stack 10 9 st m w 1 v (idx_to_id 1)
    example_unlimited example_stack_ok ltac:(cbn; lia) ltac:(discriminate) Hp Hv Hi eq_refl Hm)
    as (Hcap & l & _ & _ & _ & Hshow).
  specialize (Hshow "").
  exists v. split; [done|]. split; [exact Hcap|].
  rewrite Hshow in Htext |- *. apply String.eqb_eq in Htext. by rewrite Htext.
Defined.
End SpanTraceExample.
