(* ===== verification/Serde.v ===== *)
(** * Serde: [tracing-serde]

    The data of spans and events as what their [Serialize] implementations hand to a
    serializer: a tree in the data model of the crate [serde], and the visitors that record
    fields into the map or the struct that a serializer is writing. *)

From stdpp Require Import pretty.
From S2P Require Import Prelude.
From S2P Require Import Str.
From S2P Require Import Levels.
From S2P Require Import Fields.
From S2P Require Import Meta.
From S2P Require Import Escape.
From S2P Require Import Format.

Local Open Scope string_scope.

(** ** The data model of [serde]

    The calls that a [Serialize] makes, as long as none of them fails; the implementations
    here return the first failure.  The lengths are the ones that are announced. *)
#[warnings="-register-all"]
Inductive Ser :=
  | SBool (b : bool)
  | SU64 (n : Z)
  | SI64 (n : Z)
  | SU32 (n : Z)
  | SF64 (x : f64)
  | SStr (s : string)
  | SUnit
  | SNone
  | SSome (v : Ser)
  | SSeq (len : option Z) (l : list Ser)
  | SMap (len : option Z) (l : list (string * Ser))
  | SStruct (name : string) (len : Z) (l : list (string * Ser))
  | STupleStruct (name : string) (len : Z) (l : list Ser).

(** [SerializeMap] and [SerializeStruct] of a serializer: [S] writes the entries, [R] is its
    result. *)
Class SerializeEntries (S R Er : Type) := {
  serialize_entry : string -> Ser -> S -> S * result unit Er;
  end_ : S -> result R Er;
}.

(** ** [SerdeMapVisitor], [SerdeStructVisitor]

    The two have the same methods, over the two traits. *)
Section visitor.
Context {C : FmtCrates} {S R Er : Type} `{!SerializeEntries S R Er}.

Record SerdeVisitor := { serializer : S; state : result unit Er }.
Definition visitor_new (serializer : S) : SerdeVisitor := {| serializer := serializer; state := Ok tt |}.
Definition visitor_finish (self : SerdeVisitor) : result R Er :=
  match state self with Ok _ => end_ (serializer self) | Err e => Err e end.
Definition take_serializer (self : SerdeVisitor) : result S Er :=
  match state self with Ok _ => Ok (serializer self) | Err e => Err e end.

(** The name is asked for only while nothing has failed; it may panic. *)
Definition visit_entry (field : Field) (value : Ser) (st : outcome SerdeVisitor) : outcome SerdeVisitor :=
  self ← st;
  match state self with
  | Err _ => Done self
  | Ok _ =>
      name ← Field.name field;
      let '(s, r) := serialize_entry name value (serializer self) in
      Done {| serializer := s; state := r |}
  end.
(** [format_args!("{:?}", value)] *)
Definition debug_ser (value : DebugValue) : Ser := SStr (String.concat "" (debug_fmt value)).

Definition serde_visitor : Visit (outcome SerdeVisitor) :=
  let default := default_visit (fun f v => visit_entry f (debug_ser v)) in {|
  record_f64 f v := visit_entry f (SF64 v);
  record_i64 f v := visit_entry f (SI64 v);
  record_u64 f v := visit_entry f (SU64 v);
  record_i128 := record_i128 default;
  record_u128 := record_u128 default;
  record_bool f v := visit_entry f (SBool v);
  Fields.record_str f v := visit_entry f (SStr v);
  record_bytes := record_bytes default;
  Fields.record_error := Fields.record_error default;
  Fields.record_debug := Fields.record_debug default;
|}.
End visitor.

(** A tree that is being built takes every entry. *)
#[export] Instance tree_entries : SerializeEntries (list (string * Ser)) (list (string * Ser)) Empty_set :=
  {| serialize_entry name v l := ((l ++ [(name, v)])%list, Ok tt); end_ := Ok |}.

(** ** The implementations of [Serialize] *)

Section serialize.
Context {C : FmtCrates}.

Definition SerializeField (self : Field) : outcome Ser := SStr <$> Field.name self.
Definition SerializeFieldSet (self : FieldSet) : outcome Ser :=
  l ← mapM SerializeField (FieldSet.iter self);
  Done (SSeq (Some (FieldSet.len self)) l).
Definition SerializeLevel (self : Level.t) : outcome Ser :=
  if bool_decide (self = Level.ERROR) then Done (SStr "ERROR")
  else if bool_decide (self = Level.WARN) then Done (SStr "WARN")
  else if bool_decide (self = Level.INFO) then Done (SStr "INFO")
  else if bool_decide (self = Level.DEBUG) then Done (SStr "DEBUG")
  else if bool_decide (self = Level.TRACE) then Done (SStr "TRACE")
  else Panic.
Definition SerializeId (self : Id) : Ser := STupleStruct "Id" 1 [SU64 (Z.of_N (Id.into_u64 self))].

Definition option_ser {A} (f : A -> Ser) (o : option A) : Ser :=
  match o with Some a => SSome (f a) | None => SNone end.
Definition SerializeMetadata (self : Metadata) : outcome Ser :=
  level ← SerializeLevel (Metadata.level self);
  fields ← SerializeFieldSet (Metadata.fields self);
  Done (SStruct "Metadata" 9
    [("name", SStr (Metadata.name self));
     ("target", SStr (Metadata.target self));
     ("level", level);
     ("module_path", option_ser SStr (Metadata.module_path self));
     ("file", option_ser SStr (Metadata.file self));
     ("line", option_ser SU32 (Metadata.line self));
     ("fields", fields);
     ("is_span", SBool (Metadata.is_span self));
     ("is_event", SBool (Metadata.is_event self))]).

(** The entries that the visitor adds to those of a tree. *)
Definition with_recorded (l : list (string * Ser)) (vs : ValueSet) : outcome (list (string * Ser)) :=
  v ← ValueSet.record vs serde_visitor (Done (visitor_new l));
  Done (match visitor_finish v with Ok l => l | Err e => match e : Empty_set with end end).

Definition SerializeEvent (self : Event) : outcome Ser :=
  metadata ← SerializeMetadata (Event.metadata self);
  l ← with_recorded [("metadata", metadata)] (event_fields self);
  Done (SStruct "Event" 2 l).
Definition SerializeAttributes (self : Attributes) : outcome Ser :=
  metadata ← SerializeMetadata (Attributes.metadata self);
  l ← with_recorded [("metadata", metadata);
                     ("parent", option_ser SerializeId (Attributes.parent self));
                     ("is_root", SBool (Attributes.is_root self))] (Attributes.values self);
  Done (SStruct "Attributes" 3 l).
Definition SerializeRecord (values : ValueSet) : outcome Ser :=
  l ← with_recorded [] values; Done (SMap None l).

(** ** [SerializeFieldMap], of [fields.rs] *)

Definition event_field_map (self : Event) : outcome Ser :=
  l ← with_recorded [] (event_fields self);
  Done (SMap (Some (Z.of_nat (length (Event.fields self)))) l).
Definition attributes_field_map (self : Attributes) : outcome Ser :=
  l ← with_recorded [] (Attributes.values self);
  Done (SMap (Some (FieldSet.len (Metadata.fields (Attributes.metadata self)))) l).
Definition record_field_map (values : ValueSet) : outcome Ser :=
  l ← with_recorded [] values; Done (SMap None l).
End serialize.

(** ** What is recorded *)

Section spec.
Context {C : FmtCrates}.

Fixpoint value_ser (v : Value) : option Ser :=
  match v with
  | VF64 v => Some (SF64 v)
  | VI64 v => Some (SI64 v)
  | VU64 v => Some (SU64 v)
  | VI128 v | VU128 v => Some (debug_ser (DebugInt v))
  | VBool v => Some (SBool v)
  | VStr v => Some (SStr v)
  | VBytes v => Some (debug_ser (HexBytes v))
  | VError v => Some (debug_ser (DisplayValue (error_display v)))
  | VDebug v => Some (debug_ser v)
  | VEmpty | VNone => None
  | VSome v => value_ser v
  end.
Definition entries_of (vs : ValueSet) : list (string * Ser) :=
  omap (fun x => (name_of x.1,.) <$> value_ser x.2) (recorded vs).

Section run.
Context {S R Er : Type} `{!SerializeEntries S R Er}.

(** Entries are handed on until one fails. *)
Fixpoint run_entries (l : list (string * Ser)) (self : SerdeVisitor (S := S) (Er := Er)) : SerdeVisitor :=
  match l with
  | [] => self
  | (name, v) :: l =>
      match state self with
      | Err _ => self
      | Ok _ => let '(s, r) := serialize_entry name v (serializer self) in
                run_entries l {| serializer := s; state := r |}
      end
  end.

Lemma value_entry v f self :
  is_Some (match Field.name f with Done nm => Some nm | Panic => None end) ->
  value_record v f serde_visitor (Done self) =
  Done (run_entries (option_list ((name_of f,.) <$> value_ser v)) self).
Proof.
  intros [nm Hn]. assert (forall x, visit_entry f x (Done self) = Done (run_entries [(name_of f, x)] self)) as H.
  { intros x. unfold visit_entry, name_of. cbn [mbind outcome_bind run_entries]. destruct (state self); [|done].
    destruct (Field.name f); [|done]. cbn [mbind outcome_bind]. by destruct (serialize_entry _ _ _). }
  induction v; cbn [value_record value_ser fmap option_fmap option_map option_list]; try apply H; done.
Qed.
Lemma run_entries_app l l' self : run_entries (l ++ l') self = run_entries l' (run_entries l self).
Proof.
  revert self. induction l as [|[n v] l IH]; intros self; [done|]. cbn [app run_entries].
  destruct (state self) eqn:Hs; [by destruct (serialize_entry _ _ _)|].
  destruct l' as [|[n' v'] l']; cbn; [done|by rewrite Hs].
Qed.

(** A visitor hands the recorded values on in their order, with the names of their fields,
    and stops at the first one that fails. *)
Lemma record_run vs self :
  named vs -> ValueSet.record vs serde_visitor (Done self) = Done (run_entries (entries_of vs) self).
Proof.
  rewrite record_recorded. unfold named, entries_of. generalize (recorded vs). intros l Hl. revert self.
  induction Hl as [|[f v] l Hf _ IH]; intros self; [done|]. cbn [fold_left fst snd].
  rewrite value_entry by done. rewrite IH. f_equal. cbn [omap list_omap fst snd].
  destruct (value_ser v); [|done]. cbn [fmap option_fmap option_map option_list].
  by rewrite <- run_entries_app.
Qed.
End run.

Lemma run_tree l (self : SerdeVisitor (S := list (string * Ser)) (Er := Empty_set)) :
  state self = Ok tt -> run_entries l self = {| serializer := (serializer self ++ l)%list; state := Ok tt |}.
Proof.
  revert self. induction l as [|[n v] l IH]; intros [s r]; cbn; intros ->; [by rewrite app_nil_r|].
  rewrite IH by done. cbn. by rewrite <- app_assoc.
Qed.
Lemma with_recorded_spec l vs : named vs -> with_recorded l vs = Done (l ++ entries_of vs)%list.
Proof.
  intros Hn. unfold with_recorded. rewrite record_run by done. cbn [mbind outcome_bind].
  by rewrite run_tree.
Qed.

(** *** The implementations do not panic, and what they announce *)

Definition level_name (l : Level.t) : string :=
  match Level.inner l with
  | Level.Trace => "TRACE" | Level.Debug => "DEBUG" | Level.Info => "INFO" | Level.Warn => "WARN" | Level.Error => "ERROR"
  end.
Lemma serialize_level l : SerializeLevel l = Done (SStr (level_name l)).
Proof. destruct l as [[]]; done. Qed.

Lemma field_name_iter fs k : (k < length (fs_names fs))%nat -> exists nm,
  Field.name {| field_i := Z.of_nat k; field_set := {| fs_names := fs_names fs; fs_callsite := FieldSet.callsite fs |} |} = Done nm /\
  fs_names fs !! k = Some nm.
Proof.
  intros Hk. destruct (lookup_lt_is_Some_2 _ _ Hk) as [nm Hnm]. exists nm. split; [|done].
  unfold Field.name, index. cbn [field_set field_i fs_names].
  rewrite (proj2 (Z.leb_le _ _)), (proj2 (Z.ltb_lt _ _)) by lia. cbn [andb].
  by rewrite Nat2Z.id, Hnm.
Qed.
Lemma serialize_field_set fs :
  SerializeFieldSet fs = Done (SSeq (Some (FieldSet.len fs)) (SStr <$> fs_names fs)).
Proof.
  unfold SerializeFieldSet. assert (mapM SerializeField (FieldSet.iter fs) = Done (SStr <$> fs_names fs)) as ->; [|done].
  unfold FieldSet.iter.
  enough (forall n l, drop n (fs_names fs) = l -> mapM SerializeField
    (map (fun k => {| field_i := Z.of_nat k; field_set := {| fs_names := fs_names fs; fs_callsite := FieldSet.callsite fs |} |})
       (seq n (length l))) = Done (SStr <$> l)) as H.
  { by apply (H 0%nat). }
  intros n l. revert n. induction l as [|nm l IH]; intros n Hl; [done|]. cbn [length seq map mapM].
  assert (fs_names fs !! n = Some nm) as Hnm.
  { rewrite <- (Nat.add_0_r n), <- lookup_drop, Hl. done. }
  destruct (field_name_iter fs n) as (nm' & Hf & Hnm'); [by apply lookup_lt_is_Some_1; eauto|].
  assert (forall f : Field, Field.name f = Done nm' -> SerializeField f = Done (SStr nm')) as Hser
    by (intros f Hname; unfold SerializeField; by rewrite Hname).
  rewrite (Hser _ Hf). cbn [mbind outcome_bind].
  rewrite (IH (S n)). 2:{ rewrite <- Nat.add_1_r, <- drop_drop, Hl. done. }
  rewrite Hnm in Hnm'. by injection Hnm' as <-.
Qed.
End spec.

(** *** Announced lengths *)

(** Every announced length is the number of elements. *)
Fixpoint announced (v : Ser) : bool :=
  match v with
  | SSome v => announced v
  | SSeq len l =>
      match len with Some n => (n =? Z.of_nat (length l))%Z | None => true end && forallb announced l
  | SMap len l =>
      match len with Some n => (n =? Z.of_nat (length l))%Z | None => true end && forallb (fun x => announced x.2) l
  | SStruct _ n l => (n =? Z.of_nat (length l))%Z && forallb (fun x => announced x.2) l
  | STupleStruct _ n l => (n =? Z.of_nat (length l))%Z && forallb announced l
  | _ => true
  end.

Section announced.
Context {C : FmtCrates}.

Lemma announced_strings l : forallb announced (SStr <$> l) = true.
Proof. by induction l. Qed.

Lemma announced_option {A} (f : A -> Ser) o : (forall a, announced (f a) = true) -> announced (option_ser f o) = true.
Proof. intros Hf. destruct o; cbn; [apply Hf|done]. Qed.

(** Metadata always serialize, with the lengths that are announced. *)
Lemma serialize_metadata m : exists v, SerializeMetadata m = Done v /\ announced v = true.
Proof.
  unfold SerializeMetadata. rewrite serialize_level, serialize_field_set. eexists. split; [reflexivity|].
  cbn [announced forallb snd]. rewrite !announced_option by done. rewrite announced_strings, length_fmap.
  unfold FieldSet.len. rewrite !Z.eqb_refl. done.
Qed.

Lemma announced_entries vs : forallb (fun x => announced x.2) (entries_of vs) = true.
Proof.
  unfold entries_of. induction (recorded vs) as [|[f v] l IH]; [done|]. cbn [omap list_omap fst snd].
  destruct (value_ser v) as [x|] eqn:Hx; cbn [fmap option_fmap option_map]; [|done]. cbn [forallb snd]. rewrite IH, andb_true_r.
  clear IH. induction v; cbn in Hx; try injection Hx as <-; try done. by apply IHv.
Qed.

(** The map of the fields of an event announces the number of the fields that the event has
    in its metadata, which is right only when every one of them has a value; its struct
    announces two fields, which is right only for an event with one value. *)
Lemma event_map_announced ev :
  named (event_fields ev) -> exists v, event_field_map ev = Done v /\
    (announced v = true <-> length (entries_of (event_fields ev)) = length (Event.fields ev)).
Proof.
  intros Hn. unfold event_field_map. rewrite with_recorded_spec by done. eexists. split; [reflexivity|].
  cbn [announced app]. rewrite announced_entries, andb_true_r, Z.eqb_eq. lia.
Qed.
Lemma event_struct_announced ev :
  named (event_fields ev) -> exists v, SerializeEvent ev = Done v /\
    (announced v = true <-> length (entries_of (event_fields ev)) = 1%nat).
Proof.
  intros Hn. unfold SerializeEvent. destruct (serialize_metadata (Event.metadata ev)) as (m & -> & Hm).
  cbn [mbind outcome_bind]. rewrite with_recorded_spec by done. eexists. split; [reflexivity|].
  cbn [announced app forallb snd length]. rewrite Hm, announced_entries, !andb_true_r, Z.eqb_eq. lia.
Qed.
Lemma attributes_struct_announced attrs :
  named (Attributes.values attrs) -> exists v, SerializeAttributes attrs = Done v /\
    (announced v = true <-> entries_of (Attributes.values attrs) = []).
Proof.
  intros Hn. unfold SerializeAttributes. destruct (serialize_metadata (Attributes.metadata attrs)) as (m & -> & Hm).
  cbn [mbind outcome_bind]. rewrite with_recorded_spec by done. eexists. split; [reflexivity|].
  cbn [announced app forallb snd length]. rewrite Hm, announced_entries.
  rewrite announced_option by done. rewrite !andb_true_r, Z.eqb_eq. destruct (entries_of _); cbn; split; intros; try done; lia.
Qed.
End announced.
