(* ===== verification/Json.v ===== *)
(** * Json: [tracing-subscriber/src/fmt/format/json.rs]

    The JSON format: an event as an object on a line of its own, and the fields of spans,
    which are stored as the text of an object and read back when more are recorded and when
    an event is written.  [serde_json] is a parameter. *)

From stdpp Require Import pretty.
From S2P Require Import Prelude.
From S2P Require Import Str.
From S2P Require Import Ord.
From S2P Require Import Levels.
From S2P Require Import Fields.
From S2P Require Import Meta.
From S2P Require Import FilterIds.
From S2P Require Import Extensions.
From S2P Require Import Registry.
From S2P Require Import Pools.
From S2P Require Import Contexts.
From S2P Require Import Escape.
From S2P Require Import Format.
From S2P Require Import FormatEvent.
From S2P Require Import FmtLayer.
From S2P Require Import FmtBuilder.
From S2P Require Import Serde.

Local Open Scope string_scope.

(** ** Outside of the repository

    [serde_json::Value]; its objects are sorted by their keys. *)
#[warnings="-register-all"]
Inductive JsonValue :=
  | JNull
  | JBool (b : bool)
  | JInt (n : Z)
  | JFloat (x : f64)
  | JString (s : string)
  | JArray (l : list JsonValue)
  | JObject (l : list (string * JsonValue)).

(** What the serializer writes for a value, the [Serialize] of a [Value], and
    [from_str::<Value>] and [from_str::<BTreeMap<&str, Value>>]. *)
Class SerdeJson := {
  json_text : Ser -> string;
  value_to_ser : JsonValue -> Ser;
  from_str : string -> result JsonValue string;
  from_str_map : string -> result (list (string * JsonValue)) string;
}.

(** [Value::from] of an [f64]. *)
Definition from_f64 (x : f64) : JsonValue :=
  match x with
  | SpecFloat.S754_nan | SpecFloat.S754_infinity _ => JNull
  | x => JFloat x
  end.

(** ** [BTreeMap], as the list of its entries in the order of the keys *)

Section btree.
Context {V : Type}.

Fixpoint btree_insert (k : string) (v : V) (l : list (string * V)) : list (string * V) :=
  match l with
  | [] => [(k, v)]
  | (k', v') :: r =>
      match String.compare k k' with
      | Lt => (k, v) :: l
      | Eq => (k, v) :: r
      | Gt => (k', v') :: btree_insert k v r
      end
  end.
Fixpoint btree_get (k : string) (l : list (string * V)) : option V :=
  match l with
  | [] => None
  | (k', v) :: r => if (k =? k')%string then Some v else btree_get k r
  end.
Fixpoint btree_sorted (l : list (string * V)) : Prop :=
  match l with
  | [] => True
  | (k, _) :: r => Forall (fun x => String.compare k x.1 = Lt) r /\ btree_sorted r
  end.

Lemma compare_refl k : String.compare k k = Eq.
Proof. pose proof (String.compare_antisym k k) as H. by destruct (String.compare k k). Qed.

Lemma insert_sorted k v l : btree_sorted l -> btree_sorted (btree_insert k v l).
Proof.
  assert (forall k0 l, Forall (fun x => String.compare k0 x.1 = Lt) l -> String.compare k0 k = Lt ->
    Forall (fun x : string * V => String.compare k0 x.1 = Lt) (btree_insert k v l)) as Hall.
  { intros k0 l0. induction 1 as [|[k1 v1] r H1 Hr IH]; intros Hk; cbn; [by constructor|].
    destruct (String.compare k k1); repeat (constructor; try done). by apply IH. }
  induction l as [|[k' v'] r IH]; cbn; [done|]. intros [Hk' Hr].
  destruct (String.compare k k') eqn:Hc; cbn.
  - apply String.compare_eq_iff in Hc as ->. done.
  - split; [|done]. constructor; [done|]. eapply Forall_impl; [done|]. intros x Hx. by eapply string_compare_lt_trans.
  - split; [|by apply IH]. apply Hall; [done|]. by rewrite String.compare_antisym, Hc.
Qed.
Lemma btree_get_insert k v l k' : btree_get k' (btree_insert k v l) = if (k' =? k)%string then Some v else btree_get k' l.
Proof.
  induction l as [|[k1 v1] r IH]; cbn; [done|]. destruct (String.compare k k1) eqn:Hc; cbn; [|done|].
  - apply String.compare_eq_iff in Hc as ->. by destruct (k' =? k1)%string.
  - rewrite IH. destruct (String.eqb_spec k' k1) as [->|]; [|done].
    destruct (String.eqb_spec k1 k) as [->|]; [|done]. by rewrite compare_refl in Hc.
Qed.
Lemma insert_forall (Q : string * V -> Prop) k v l : Q (k, v) -> Forall Q l -> Forall Q (btree_insert k v l).
Proof.
  intros Hk. induction 1 as [|[k1 v1] r H1 Hr IH]; cbn; [by repeat constructor|].
  destruct (String.compare k k1); by repeat constructor.
Qed.
End btree.

Section fields.
Context {C : FmtCrates} {J : SerdeJson}.

(** ** [struct JsonVisitor] *)

Record JsonVisitor := { jv_values : list (string * JsonValue); jv_writer : Writer }.
Definition json_visitor_new (w : Writer) : JsonVisitor := {| jv_values := []; jv_writer := w |}.
Definition values_insert (name : string) (v : JsonValue) (self : JsonVisitor) : JsonVisitor :=
  {| jv_values := btree_insert name v (jv_values self); jv_writer := jv_writer self |}.

(** [Serialize] of the map. *)
Definition object (l : list (string * JsonValue)) : Ser := SMap None (prod_map (fun k => k) value_to_ser <$> l).
(** [VisitOutput::finish]: neither a [String] nor a [Value] fails. *)
Definition json_finish (self : JsonVisitor) : Writer * result unit unit :=
  (write_str (json_text (object (jv_values self))) (jv_writer self), Ok tt).

Definition record_value (field : Field) (v : JsonValue) (st : outcome JsonVisitor) : outcome JsonVisitor :=
  self ← st; name ← Field.name field; Done (values_insert name v self).
Definition json_record_debug (field : Field) (v : DebugValue) (st : outcome JsonVisitor) : outcome JsonVisitor :=
  self ← st;
  name ← Field.name field;
  let value := JString (String.concat "" (debug_fmt v)) in
  Done (if tracing_log && starts_with name "log." then self
        else if starts_with name "r#" then values_insert (str_drop 2 name) value self
        else values_insert name value self).
Definition json_visitor : Visit (outcome JsonVisitor) :=
  let default := default_visit json_record_debug in {|
  record_f64 f v := record_value f (from_f64 v);
  record_i64 f v := record_value f (JInt v);
  record_u64 f v := record_value f (JInt v);
  record_i128 := record_i128 default;
  record_u128 := record_u128 default;
  record_bool f v := record_value f (JBool v);
  Fields.record_str f v := record_value f (JString v);
  record_bytes f v := record_value f (JArray (JInt <$> v));
  Fields.record_error := Fields.record_error default;
  Fields.record_debug := json_record_debug;
|}.

(** ** [impl FormatFields for JsonFields] *)

Definition json_format_fields (fields : ValueSet) (w : Writer) : outcome (Writer * result unit unit) :=
  v ← ValueSet.record fields json_visitor (Done (json_visitor_new w)); Done (json_finish v).
Definition json_add_fields (current : FormattedFields) (fields : ValueSet) :
    outcome (FormattedFields * result unit unit) :=
  if (ff_fields current =? "")%string then
    v ← ValueSet.record fields json_visitor (Done (json_visitor_new (as_writer current)));
    let '(w, r) := json_finish v in
    Done (with_fields (text w) current, r)
  else
    match from_str_map (ff_fields current) with
    | Err _ => Done (current, Err tt)
    | Ok map =>
        v ← ValueSet.record fields json_visitor (Done {| jv_values := map; jv_writer := writer_new "" |});
        let '(w, r) := json_finish v in
        Done (match r with Ok _ => with_fields (text w) current | Err _ => current end, r)
    end.
Definition json_fields_of : FormatFields :=
  {| format_fields := json_format_fields; add_fields := json_add_fields |}.
End fields.

(** ** [impl FormatEvent for Format<Json>] *)

Section format.
Context `{E : Env} {P : PoolOps DataInner} {C : FmtCrates} {J : SerdeJson} `{!FmtEnv} `{!FieldsSlot}.
Variable fuel : nat.

(** [SerializableSpan]: the fields that are stored as text. *)
Definition span_entries (fields : string) : outcome (list (string * Ser)) :=
  match from_str fields with
  | Ok (JObject fields) => Done (prod_map (fun k => k) value_to_ser <$> fields)
  | Ok value =>
      if debug_assertions then Panic
      else Done [("field", value_to_ser value); ("field_error", SStr "field was no a valid object")]
  | Err e => if debug_assertions then Panic else Done [("field_error", SStr e)]
  end.
Definition serializable_span (span : SpanRef) : outcome Ser :=
  data ← expect (span_fields_of span);
  l ← span_entries (ff_fields data);
  Done (SMap None (l ++ [("name", SStr (span_name span))])).

(** [SerializableContext] *)
Definition serializable_context (cx : Context_) : M Ser :=
  leaf ← Context_.lookup_current cx;
  spans ← match leaf, subscriber cx with
          | Some leaf, Some registry => from_root fuel registry (span_scope_of leaf)
          | _, _ => mret []
          end;
  l ← lift (mapM serializable_span spans);
  mret (SSeq None l).

(** The span of the event, or else the current one, when it is shown. *)
Definition json_current (format : Json) (cx : Context_) (ev : Event) : M (option SpanRef) :=
  if json_current_span format || json_span_list format then
    span ← match Event.parent ev with Some id => Context_.span id cx | None => mret None end;
    match span with Some span => mret (Some span) | None => Context_.lookup_current cx end
  else mret None.

Definition json_event_fields (format : Json) (ev : Event) (l : list (string * Ser)) : outcome (list (string * Ser)) :=
  if json_flatten_event format then with_recorded l (event_fields ev)
  else fields ← event_field_map ev; Done (l ++ [("fields", fields)])%list.

Definition json_thread (self : Format) (thread : Thread) : list (string * Ser) :=
  let id := SStr ("ThreadId(" ++ pretty (thread_id thread) ++ ")") in
  ((if display_thread_name self then
      match thread_name thread with
      | Some name => [("threadName", SStr name)]
      | None => if negb (display_thread_id self) then [("threadName", id)] else []
      end
    else []) ++ (if display_thread_id self then [("threadId", id)] else []))%list.

(** The entries of the object, in the order in which they are written; a panic stops the
    writing, and there are no other failures. *)
Definition json_entries (format : Json) (self : Format) (cx : FmtContext) (ev : Event) (meta : Metadata)
    (timestamp : string) : M (list (string * Ser)) :=
  let l := if display_timestamp self then [("timestamp", SStr timestamp)] else [] in
  l ← (if display_level self
       then level ← lift (SerializeLevel (Metadata.level meta)); mret (l ++ [("level", level)])%list
       else mret l);
  current ← json_current format (ctx cx) ev;
  l ← lift (json_event_fields format ev l);
  let l := if display_target self then (l ++ [("target", SStr (Metadata.target meta))])%list else l in
  let l := match Metadata.file meta, display_filename self with
           | Some file, true => (l ++ [("filename", SStr file)])%list
           | _, _ => l
           end in
  let l := match Metadata.line meta, display_line_number self with
           | Some line, true => (l ++ [("line_number", SU32 line)])%list
           | _, _ => l
           end in
  l ← match current, json_current_span format with
      | Some span, true => v ← lift (serializable_span span); mret (l ++ [("span", v)])%list
      | _, _ => mret l
      end;
  l ← match current, json_span_list format with
      | Some _, true => v ← serializable_context (ctx cx); mret (l ++ [("spans", v)])%list
      | _, _ => mret l
      end;
  thread ← gets (fun w => this_thread (user w));
  mret (l ++ json_thread self thread)%list.

(** The timer writes to a [String], and its error is returned. *)
Definition json_timestamp (self : Format) : FM string := fun w =>
  '(t, r) ← timer self (writer_new "");
  mret (w, match r with Ok _ => Ok (text t) | Err e => Err e end).

Definition format_event_json (format : Json) (self : Format) (cx : FmtContext) (ev : Event) : FM unit :=
  timestamp ← json_timestamp self;
  meta ← get_m (shown_metadata ev);
  l ← get_m (json_entries format self cx ev meta timestamp);
  _ ← write (json_text (SMap None l));
  write NL.
End format.

(** ** What is stored with a span *)

(** [serde_json] writes the text of an object so that it reads back: values that
    [reads_back], which some floats do not; borrowed keys only when they have no escapes. *)
Class SerdeJsonLaws (J : SerdeJson) := {
  reads_back : JsonValue -> Prop;
  plain_key : string -> Prop;
  text_nonempty v : json_text v <> "";
  from_str_object l :
    btree_sorted l -> Forall (fun x => reads_back x.2) l -> from_str (json_text (object l)) = Ok (JObject l);
  from_str_map_object l :
    btree_sorted l -> Forall (fun x => plain_key x.1 /\ reads_back x.2) l ->
    from_str_map (json_text (object l)) = Ok l;
}.

Section stored.
Context {C : FmtCrates} {J : SerdeJson}.

(** The entry that a recorded value makes. *)
Definition json_debug_entry (name : string) (v : DebugValue) : option (string * JsonValue) :=
  let value := JString (String.concat "" (debug_fmt v)) in
  if tracing_log && starts_with name "log." then None
  else Some (if starts_with name "r#" then str_drop 2 name else name, value).
Fixpoint json_entry (name : string) (v : Value) : option (string * JsonValue) :=
  match v with
  | VF64 v => Some (name, from_f64 v)
  | VI64 v | VU64 v => Some (name, JInt v)
  | VI128 v | VU128 v => json_debug_entry name (DebugInt v)
  | VBool v => Some (name, JBool v)
  | VStr v => Some (name, JString v)
  | VBytes v => Some (name, JArray (JInt <$> v))
  | VError v => json_debug_entry name (DisplayValue (error_display v))
  | VDebug v => json_debug_entry name v
  | VEmpty | VNone => None
  | VSome v => json_entry name v
  end.
Definition json_entries_of (vs : ValueSet) : list (string * JsonValue) :=
  omap (fun x => json_entry (name_of x.1) x.2) (Fields.recorded vs).
Definition insert_all (l : list (string * JsonValue)) (es : list (string * JsonValue)) : list (string * JsonValue) :=
  fold_left (fun l x => btree_insert x.1 x.2 l) es l.

Lemma insert_all_get l es k :
  btree_get k (insert_all l es) = match btree_get k (rev es) with Some v => Some v | None => btree_get k l end.
Proof.
  revert l. induction es as [|[k1 v1] es IH]; intros l; [done|]. cbn [insert_all fold_left fst snd rev].
  fold (insert_all (btree_insert k1 v1 l) es). rewrite IH, btree_get_insert. clear IH.
  assert (forall l1 l2 : list (string * JsonValue), btree_get k (l1 ++ l2)%list =
    match btree_get k l1 with Some v => Some v | None => btree_get k l2 end) as Happ.
  { induction l1 as [|[k2 v2] l1 IH]; intros l2; cbn; [done|]. by destruct (k =? k2)%string. }
  rewrite Happ. cbn. destruct (btree_get k (rev es)); [done|]. by destruct (k =? k1)%string.
Qed.
Lemma insert_all_sorted l es : btree_sorted l -> btree_sorted (insert_all l es).
Proof. revert l. induction es as [|[k v] es IH]; intros l Hl; [done|]. cbn. apply IH. by apply insert_sorted. Qed.
Lemma insert_all_forall (Q : string * JsonValue -> Prop) l es :
  Forall Q l -> Forall Q es -> Forall Q (insert_all l es).
Proof.
  intros Hl Hes. revert l Hl. induction Hes as [|[k v] es Hx _ IH]; intros l Hl; [done|]. cbn. apply IH.
  by apply insert_forall.
Qed.

Lemma json_value_entry f v self :
  is_Some (match Field.name f with Done nm => Some nm | Panic => None end) ->
  value_record v f json_visitor (Done self) =
  Done {| jv_values := insert_all (jv_values self) (option_list (json_entry (name_of f) v)); jv_writer := jv_writer self |}.
Proof.
  intros [nm Hn].
  assert (forall x, record_value f x (Done self) =
    Done {| jv_values := insert_all (jv_values self) [(name_of f, x)]; jv_writer := jv_writer self |}) as H1.
  { intros x. unfold record_value, name_of. cbn [mbind outcome_bind]. by destruct (Field.name f). }
  assert (forall x, json_record_debug f x (Done self) =
    Done {| jv_values := insert_all (jv_values self) (option_list (json_debug_entry (name_of f) x)); jv_writer := jv_writer self |}) as H2.
  { intros x. unfold json_record_debug, json_debug_entry, name_of. cbn [mbind outcome_bind].
    destruct (Field.name f) as [n|]; [|done]. cbn [mbind outcome_bind].
    destruct (_ && _); [by destruct self|]. by destruct (starts_with n "r#"). }
  induction v; cbn [value_record json_entry]; try apply H1; try apply H2; by destruct self.
Qed.
Lemma json_record_entries vs self :
  named vs -> ValueSet.record vs json_visitor (Done self) =
  Done {| jv_values := insert_all (jv_values self) (json_entries_of vs); jv_writer := jv_writer self |}.
Proof.
  rewrite record_recorded. unfold named, json_entries_of. generalize (Fields.recorded vs). intros l Hl. revert self.
  induction Hl as [|[f v] l Hf _ IH]; intros self; [by destruct self|]. cbn [fold_left].
  rewrite json_value_entry by done. rewrite IH. cbn [jv_values jv_writer omap list_omap fst snd].
  by destruct (json_entry (name_of f) v).
Qed.

(** The fields of a span, from its creation on. *)
Fixpoint add_all (ff : FormattedFields) (l : list ValueSet) : outcome (FormattedFields * result unit unit) :=
  match l with
  | [] => Done (ff, Ok tt)
  | vs :: l =>
      '(ff, r) ← json_add_fields ff vs;
      match r with Ok _ => add_all ff l | Err e => Done (ff, Err e) end
  end.
Definition stored_fields (ff : FormattedFields) (vs : ValueSet) (l : list ValueSet) :
    outcome (FormattedFields * result unit unit) :=
  '(w, r) ← json_format_fields vs (as_writer ff);
  match r with Ok _ => add_all (with_fields (text w) ff) l | Err e => Done (ff, Err e) end.

Context {JL : SerdeJsonLaws J}.

Definition readable (x : string * JsonValue) : Prop := plain_key x.1 /\ reads_back x.2.

Lemma add_fields_entries ff l vs :
  btree_sorted l -> Forall readable l -> named vs -> ff_fields ff = json_text (object l) ->
  json_add_fields ff vs = Done (with_fields (json_text (object (insert_all l (json_entries_of vs)))) ff, Ok tt).
Proof.
  intros Hs Hr Hn Hff. unfold json_add_fields. rewrite Hff.
  destruct (String.eqb_spec (json_text (object l)) "") as [He|_]; [by apply text_nonempty in He|].
  rewrite from_str_map_object by done. rewrite json_record_entries by done. done.
Qed.
Lemma add_all_entries ff l rs :
  btree_sorted l -> Forall readable l -> Forall named rs ->
  Forall readable (concat (map json_entries_of rs)) -> ff_fields ff = json_text (object l) ->
  add_all ff rs = Done (with_fields (json_text (object (insert_all l (concat (map json_entries_of rs))))) ff, Ok tt).
Proof.
  intros Hs Hr Hn. revert l ff Hs Hr. induction Hn as [|vs rs Hvs _ IH]; intros l ff Hs Hr Hread Hff.
  - cbn. rewrite <- Hff. by destruct ff.
  - cbn [map concat] in Hread. apply Forall_app in Hread as [H1 H2]. cbn [add_all map concat].
    rewrite (add_fields_entries ff l vs) by done. cbn [mbind outcome_bind].
    rewrite (IH (insert_all l (json_entries_of vs))); [|by apply insert_all_sorted|by apply insert_all_forall|done|done].
    unfold insert_all. rewrite fold_left_app. done.
Qed.
End stored.

(** C34: the text stored with a span keeps its fields, as long as what is recorded reads back
    from it (which [serde_json] does not promise for every float, nor for names with
    escapes): after the span was created and any number of records were added to it, an event
    in the span shows it as an object that has each name once, in the order of the names,
    with the value that was recorded last under it, and then the name of the span; nothing
    fails and nothing panics.  A value is recorded under the name of its field, less the
    prefix of a raw name and not at all for a log name when it is recorded with [Debug].
    When the stored text does not read back, adding a record is an error that changes
    nothing. *)
Theorem json_span_latest `{E : Env} {P : PoolOps DataInner} {S : FieldsSlot} {C : FmtCrates} {J : SerdeJson}
    {JL : SerdeJsonLaws J} (vs : ValueSet) (records : list ValueSet)
    (Hn : Forall named (vs :: records))
    (Hread : Forall readable (concat (map json_entries_of (vs :: records)))) :
  let entries := concat (map json_entries_of (vs :: records)) in
  (exists ff latest,
    stored_fields (formatted_new "") vs records = Done (ff, Ok tt) /\
    btree_sorted latest /\ (forall name, btree_get name latest = btree_get name (rev entries)) /\
    forall span, span_fields_of span = Some ff ->
      serializable_span span =
      Done (SMap None ((prod_map (fun k => k) value_to_ser <$> latest) ++ [("name", SStr (span_name span))]))) /\
  (forall ff e record, ff_fields ff <> "" -> from_str_map (ff_fields ff) = Err e ->
     json_add_fields ff record = Done (ff, Err tt)).
Proof.
  intros entries. split.
  2:{ intros ff e record Hff He. unfold json_add_fields. rewrite He. by apply String.eqb_neq in Hff as ->. }
  inversion Hn as [|? ? Hvs Hrs]; subst. cbn [map concat] in Hread.
  apply Forall_app in Hread as [H1 H2].
  set (latest := insert_all [] entries).
  assert (btree_sorted latest) as Hsorted by by apply insert_all_sorted.
  assert (Forall readable latest) as Hall by (apply insert_all_forall; [done|by apply Forall_app]).
  exists (with_fields (json_text (object latest)) (formatted_new "")), latest. split_and!; [|done|..].
  - unfold stored_fields, json_format_fields. rewrite json_record_entries by done. cbn [mbind outcome_bind json_finish].
    rewrite (add_all_entries _ (insert_all [] (json_entries_of vs)));
      [|by apply insert_all_sorted|by apply insert_all_forall|done|done|done].
    unfold latest, entries. cbn [map concat]. unfold insert_all. rewrite fold_left_app. done.
  - intros name. unfold latest. rewrite insert_all_get. by destruct (btree_get name (rev entries)).
  - intros span Hspan. unfold serializable_span. rewrite Hspan. cbn [expect mbind outcome_bind ff_fields with_fields].
    unfold span_entries. rewrite from_str_object; [done|done|]. eapply Forall_impl; [exact Hall|]. by intros x [_ Hx].
Qed.

(** ** The line of an event *)

Section line.
Context `{E : Env} {P : PoolOps DataInner} {C : FmtCrates} {J : SerdeJson} {F : FmtEnv} {S : FieldsSlot}.
Variable fuel : nat.

Definition when_ {A} (b : bool) (l : list A) : list A := if b then l else [].
Definition option_entry {A} (name : string) (f : A -> Ser) (o : option A) : list (string * Ser) :=
  match o with Some a => [(name, f a)] | None => [] end.
(** [spans]: the object of the span, and those of the spans from the root to the current one. *)
Definition event_object (format : Json) (self : Format) (ev : Event) (timestamp : string)
    (spans : option (Ser * list Ser)) (thread : Thread) : list (string * Ser) :=
  when_ (display_timestamp self) [("timestamp", SStr timestamp)] ++
  when_ (display_level self) [("level", SStr (level_name (Metadata.level (meta_of ev))))] ++
  (if json_flatten_event format then entries_of (event_fields ev)
   else [("fields", SMap (Some (Z.of_nat (length (Event.fields ev)))) (entries_of (event_fields ev)))]) ++
  when_ (display_target self) [("target", SStr (Metadata.target (meta_of ev)))] ++
  when_ (display_filename self) (option_entry "filename" SStr (Metadata.file (meta_of ev))) ++
  when_ (display_line_number self) (option_entry "line_number" SU32 (Metadata.line (meta_of ev))) ++
  match spans with
  | Some (span, scope) =>
      when_ (json_current_span format) [("span", span)] ++ when_ (json_span_list format) [("spans", SSeq None scope)]
  | None => []
  end ++
  json_thread self thread.

(** The spans that are shown with the event: [span] is its parent, or else the current span;
    the list is always that of the current span and its ancestors. *)
Definition shown_spans (format : Json) (cx : Context_) (ev : Event) (W : World) (spans : option (Ser * list Ser)) : Prop :=
  exists current, json_current format cx ev W = Done (current, W) /\
  match current, spans with
  | None, None => True
  | Some sp, Some (span, scope) =>
      serializable_span sp = Done span /\ serializable_context fuel cx W = Done (SSeq None scope, W)
  | _, _ => False
  end.

(** An event is one line: the text of an object with the entries that the settings ask for,
    in their order, with all the recorded values, and a line feed. *)
Theorem json_event_line (format : Json) (self : Format) (cx : FmtContext) (ev : Event) (w : Writer) (W : World)
    (ts : string) (spans : option (Ser * list Ser)) :
  timer_writes self ts true -> named (event_fields ev) -> shown_spans format (ctx cx) ev W spans ->
  format_event_json fuel format self cx ev w W =
  Done ((write_str (json_text (SMap None (event_object format self ev ts spans (this_thread (user W)))) ++ NL) w, Ok tt), W).
Proof.
  intros Ht Hn (current & Hcur & Hspans). unfold format_event_json, json_timestamp. unfold mbind, FM_bind.
  mred. rewrite Ht. cbn [text write_str writer_new]. change ("" ++ ts) with ts. unfold get_m. mred. rewrite shown_metadata_spec.
  assert (json_entries fuel format self cx ev (meta_of ev) ts W =
    Done (event_object format self ev ts spans (this_thread (user W)), W)) as ->.
  2:{ unfold write. mred. by rewrite write_str_app. }
  unfold json_entries, event_object. mred.
  assert (forall l, json_event_fields format ev l = Done (l ++ (if json_flatten_event format then entries_of (event_fields ev)
   else [("fields", SMap (Some (Z.of_nat (length (Event.fields ev)))) (entries_of (event_fields ev)))]))%list) as Hfields.
  { intros l. unfold json_event_fields, event_field_map. destruct (json_flatten_event format);
      by rewrite with_recorded_spec by done. }
  rewrite serialize_level.
  destruct (display_level self); cbn [when_]; rewrite Hcur, Hfields;
    (destruct current as [sp|], spans as [[span scope]|]; try done; [destruct Hspans as [Hspan Hcx]|]);
    destruct (display_timestamp self), (display_target self), (display_filename self), (Metadata.file (meta_of ev)),
      (display_line_number self), (Metadata.line (meta_of ev)), (json_current_span format), (json_span_list format);
    rewrite ?Hspan, ?Hcx; cbn [when_ option_entry app]; rewrite <- ?app_assoc; cbn [app]; reflexivity.
Qed.
End line.

(** ** A [serde_json] of integers, strings and booleans *)

Module JsonExample.
Definition leaf : Type := (Z + string + bool)%type.
Definition to_leaf (v : Ser) : option leaf :=
  match v with SI64 n => Some (inl (inl n)) | SStr s => Some (inl (inr s)) | SBool b => Some (inr b) | _ => None end.
Definition of_leaf (l : leaf) : JsonValue :=
  match l with inl (inl n) => JInt n | inl (inr s) => JString s | inr b => JBool b end.
Fixpoint bits (p : positive) : string :=
  match p with xH => "" | xO p => String (Ascii.ascii_of_nat 48) (bits p) | xI p => String (Ascii.ascii_of_nat 49) (bits p) end.
Fixpoint unbits (s : string) : positive :=
  match s with
  | EmptyString => xH
  | String c s => if Ascii.eqb c (Ascii.ascii_of_nat 48) then xO (unbits s) else xI (unbits s)
  end.
Lemma unbits_bits p : unbits (bits p) = p.
Proof. induction p as [p IH|p IH|]; cbn; [by rewrite IH..|done]. Defined.

Definition leaves (v : Ser) : option (list (string * leaf)) :=
  match v with SMap None l => mapM (fun x => (x.1,.) <$> to_leaf x.2) l | _ => None end.
Definition parse (s : string) : option (list (string * JsonValue)) :=
  match s with
  | EmptyString => None
  | String _ s =>
      match (decode (unbits s) : option (option (list (string * leaf)))) with
      | Some (Some l) => Some (prod_map (fun k => k) of_leaf <$> l)
      | _ => None
      end
  end.
#[local] Instance coded : SerdeJson := {|
  json_text v := String (Ascii.ascii_of_nat 106) (bits (encode (leaves v)));
  value_to_ser v := match v with JInt n => SI64 n | JString s => SStr s | JBool b => SBool b | _ => SUnit end;
  from_str s := match parse s with Some l => Ok (JObject l) | None => Err "malformed" end;
  from_str_map s := match parse s with Some l => Ok l | None => Err "malformed" end;
|}.
Definition is_leaf (v : JsonValue) : Prop := exists l, v = of_leaf l.
Lemma parse_object (l : list (string * JsonValue)) :
  Forall (fun x => is_leaf x.2) l -> parse (json_text (object l)) = Some l.
Proof.
  intros Hl. assert (exists ls, leaves (object l) = Some ls /\ prod_map (fun k => k) of_leaf <$> ls = l) as (ls & Hls & Hback).
  { unfold leaves, object. induction Hl as [|[k v] l [x Hx] _ (ls & H1 & H2)]; [by exists []|].
    exists ((k, x) :: ls). cbn in Hx, H1, H2 |- *. split; [|by rewrite H2, Hx].
    destruct x as [[n|s]|b]; cbn in Hx; subst v; cbn; by rewrite H1. }
  change (json_text (object l)) with (String (Ascii.ascii_of_nat 106) (bits (encode (leaves (object l))))).
  unfold parse. rewrite unbits_bits, Hls, decode_encode. by rewrite Hback.
Defined.
#[local] Instance coded_laws : SerdeJsonLaws coded.
Proof.
  refine {| reads_back := is_leaf; plain_key _ := True |}; [done|..].
  - intros l _ Hl. unfold from_str, coded at 1. by rewrite parse_object.
  - intros l _ Hl. unfold from_str_map, coded at 1. rewrite parse_object; [done|]. eapply Forall_impl; [done|]. by intros x [_ Hx].
Defined.

Import FmtExample.
#[local] Existing Instances env pool_ops slot fmt_env crates.

Definition created : ValueSet := values_of 1 [("id", VI64 1); ("ok", VBool false)].
Definition later : ValueSet := values_of 1 [("id", VI64 2); ("at", VStr "end")].
Definition stored_span (ff : FormattedFields) : SpanRef :=
  as_span FilterId.none {| key := 0; Registry.inner := span_data "work" None (Some ff) |}.

Lemma json_span_latest_witness :
  exists ff, stored_fields (formatted_new "") created [later] = Done (ff, Ok tt) /\
    serializable_span (stored_span ff) =
    Done (SMap None [("at", SStr "end"); ("id", SI64 2); ("ok", SBool false); ("name", SStr "work")]).
Proof.
  destruct (json_span_latest created [later]) as [(ff & latest & Hff & _ & _ & Hspan) _].
  - repeat constructor; by eexists.
  - assert (forall k x, readable (k, of_leaf x)) as Hread by (intros k x; split; [exact I|by exists x]).
    change (Forall readable [("id", of_leaf (inl (inl 1%Z))); ("ok", of_leaf (inr false));
                             ("id", of_leaf (inl (inl 2%Z))); ("at", of_leaf (inl (inr "end")))]).
    repeat (apply Forall_cons_2; [apply Hread|]). apply Forall_nil_2.
  - exists ff. split; [exact Hff|]. rewrite (Hspan (stored_span ff) eq_refl).
    assert (stored_fields (formatted_new "") created [later] = Done (ff, Ok tt) ->
      serializable_span (stored_span ff) = Done (SMap None [("at", SStr "end"); ("id", SI64 2); ("ok", SBool false); ("name", SStr "work")])) as He.
    { intros H. vm_compute in H. injection H as <-. vm_compute. reflexivity. }
    rewrite <- (He Hff). symmetry. by apply Hspan.
Defined.

(** A raw name keeps its prefix but for values recorded with [Debug], so a field that is
    recorded in both ways is shown under two names. *)
Example raw_name_twice :
  (json_entries_of (values_of 1 [("r#type", VI64 1)]) ++ json_entries_of (values_of 1 [("r#type", VDebug (DisplayValue ["2"]))]))%list =
  [("r#type", JInt 1); ("type", JString "2")].
Proof. vm_compute. reflexivity. Qed.

(** *** Lines, in the usual syntax *)

Fixpoint render (v : Ser) : string :=
  let quoted s := DQ ++ s ++ DQ in
  match v with
  | SBool b => if b then "true" else "false"
  | SU64 n | SI64 n | SU32 n => pretty n
  | SF64 _ => "0.0"
  | SStr s => quoted s
  | SUnit | SNone => "null"
  | SSome v => render v
  | SSeq _ l | STupleStruct _ _ l => "[" ++ join "," (map render l) ++ "]"
  | SMap _ l | SStruct _ _ l => "{" ++ join "," (map (fun x => quoted x.1 ++ ":" ++ render x.2) l) ++ "}"
  end.
Definition id_text : string := "{" ++ DQ ++ "id" ++ DQ ++ ":1}".
Definition name_text : string := "{" ++ DQ ++ "name" ++ DQ ++ ":1}".
Definition read (s : string) : list (string * JsonValue) :=
  if s =? id_text then [("id", JInt 1)] else if s =? name_text then [("name", JInt 1)] else [].
Definition rendered : SerdeJson := {|
  json_text := render;
  value_to_ser v := match v with JInt n => SI64 n | _ => SUnit end;
  from_str s := Ok (JObject (read s));
  from_str_map s := Ok (read s);
|}.

Definition json_data (name : string) (parent : option Id) (s : string) : DataInner :=
  span_data name parent (Some {| ff_fields := s; was_ansi := false; was_ansi_sanitized := true |}).
(** The span [inner] in [outer]; the thread is in [inner]. *)
Definition json_world : World :=
  with_spans {| live := <[0%Z := json_data "outer" None id_text]>
                        {[ 1%Z := json_data "inner" (Some (idx_to_id 0)) "{}" ]}; spare := [] |} world.
Definition json_format : Format := with_target false (without_time full).
Definition written (format : Json) (ev : Event) : outcome string :=
  '((w, _), _) ← format_event_json (J := rendered) 10 format json_format
                   {| ctx := cx; fmt_fields := json_fields_of (J := rendered) |} ev (writer_new "") json_world;
  Done (text w).
(** A text with single quotes for double ones. *)
Fixpoint requote (s : string) : string :=
  match s with
  | EmptyString => EmptyString
  | String c s => (if Ascii.eqb c (Ascii.ascii_of_nat 39) then DQ else String c EmptyString) ++ requote s
  end.
Definition expect_line (s : string) : outcome string := Done (requote s ++ NL).
Definition event_with (names : list string) (parent : Parent) : Event :=
  {| event_fields := values_of 2 (map (fun name => (name, VI64 3)) names);
     event_metadata := meta_for "event" 2 names Kind.EVENT; event_parent := parent |}.

Lemma json_event_line_witness :
  written FormatOf.json_default (event_with ["n"] Current) =
  expect_line "{'level':'INFO','fields':{'n':3},'span':{'name':'inner'},'spans':[{'id':1,'name':'outer'},{'name':'inner'}]}".
Proof.
  unfold written.
  rewrite (json_event_line (J := rendered) 10 FormatOf.json_default json_format _ (event_with ["n"] Current) (writer_new "") json_world ""
    (Some (SMap None [("name", SStr "inner")],
           [SMap None [("id", SI64 1); ("name", SStr "outer")]; SMap None [("name", SStr "inner")]]))).
  - vm_compute. reflexivity.
  - intros ? ?. rewrite write_str_nil. reflexivity.
  - repeat constructor. by eexists.
  - eexists (Some _). split; [vm_compute; reflexivity|]. split; vm_compute; reflexivity.
Defined.
(** The list of spans is that of the current span, not of the parent of the event. *)
Example explicit_parent_spans :
  written FormatOf.json_default (event_with ["n"] (ParentExplicit (idx_to_id 0))) =
  expect_line "{'level':'INFO','fields':{'n':3},'span':{'id':1,'name':'outer'},'spans':[{'id':1,'name':'outer'},{'name':'inner'}]}".
Proof. vm_compute. reflexivity. Qed.
(** An event without a parent is shown in the spans of the thread. *)
Example root_event_spans :
  written FormatOf.json_default (event_with ["n"] Root) = written FormatOf.json_default (event_with ["n"] Current).
Proof. vm_compute. reflexivity. Qed.
(** With flattened fields a field of the event may repeat a key of the object. *)
Definition flat : Json := {| json_flatten_event := true; json_current_span := false; json_span_list := false |}.
Example flattened_key_twice :
  written flat (event_with ["level"] Current) = expect_line "{'level':'INFO','level':3}".
Proof. vm_compute. reflexivity. Qed.
(** A field of a span may repeat the key of its name. *)
Example span_name_twice :
  render <$> serializable_span (J := rendered)
    (stored_span {| ff_fields := name_text; was_ansi := false; was_ansi_sanitized := true |}) =
  Done (requote "{'name':1,'name':'work'}").
Proof. vm_compute. reflexivity. Qed.
End JsonExample.
