(* ===== verification/Futures.v ===== *)
(** * Futures: [tracing-futures]

    The futures, streams, sinks and executors of the two versions of the crate [futures],
    in a span or under a dispatcher.  What is wrapped is a parameter: a class for each
    trait, with the laws of a value that keeps to the rules for span handles. *)

From S2P Require Import Prelude.
From S2P Require Import Str.
From S2P Require Import Levels.
From S2P Require Import Fields.
From S2P Require Import Meta.
From S2P Require Import Interests.
From S2P Require Import FilterIds.
From S2P Require Import SpanStack.
From S2P Require Import Registry.
From S2P Require Import Pools.
From S2P Require Import Contexts.
From S2P Require Import Layers.
From S2P Require Import Stacks.
From S2P Require Import SpanLife.
From S2P Require Import SpanHandles.
From S2P Require Import Instrument.
From S2P Require Dispatchers.

Local Open Scope Z_scope.

(** [futures] 0.1: [Async] and [AsyncSink]. *)
Inductive Async (A : Type) := AsyncReady (a : A) | NotReady.
Arguments AsyncReady {A}. Arguments NotReady {A}.
Inductive AsyncSink (A : Type) := SinkReady | SinkNotReady (item : A).
Arguments SinkReady {A}. Arguments SinkNotReady {A}.

(** A call of the value's own code returns, or unwinds ([None]). *)
Abbreviation ran A := (option A).

Section traits.
Context `{E : Env} {P : PoolOps DataInner}.

Class Future01 (T A Er : Type) := { poll01 : T -> M (T * ran (result (Async A) Er)) }.
Class Stream01 (T A Er : Type) := { stream_poll01 : T -> M (T * ran (result (Async (option A)) Er)) }.
Class Sink01 (T A Er : Type) := {
  start_send01 : A -> T -> M (T * ran (result (AsyncSink A) Er));
  poll_complete01 : T -> M (T * ran (result (Async unit) Er));
}.
Class Stream03 (T A : Type) := { poll_next : T -> M (T * ran (Async (option A))) }.
Class Sink03 (T A Er : Type) := {
  poll_ready : T -> M (T * ran (Async (result unit Er)));
  start_send : A -> T -> M (T * ran (result unit Er));
  poll_flush : T -> M (T * ran (Async (result unit Er)));
  poll_close : T -> M (T * ran (Async (result unit Er)));
}.

(** ** [Instrumented]

    Every method enters the span, calls the method of the inner value, and leaves the span
    when that returns or unwinds. *)
Definition in_guard {T R} (f : T -> M (T * R)) (self : Instrumented T) : M (Instrumented T * R) :=
  _ ← do_enter (i_span self);
  '(inner, r) ← f (i_inner self);
  _ ← do_exit (i_span self);
  mret (set_inner inner self, r).

Definition future_poll {T A} `{!Future T A} : Instrumented T -> M (Instrumented T * Polled A) := in_guard poll.
Definition instrumented_poll01 {T A Er} `{!Future01 T A Er} : Instrumented T -> M (Instrumented T * ran (result (Async A) Er)) :=
  in_guard poll01.
#[global] Instance instrumented_future01 {T A Er} `{!Future01 T A Er} : Future01 (Instrumented T) A Er :=
  {| poll01 := instrumented_poll01 |}.
Definition instrumented_stream_poll01 {T A Er} `{!Stream01 T A Er} :
    Instrumented T -> M (Instrumented T * ran (result (Async (option A)) Er)) := in_guard stream_poll01.
#[global] Instance instrumented_stream01 {T A Er} `{!Stream01 T A Er} : Stream01 (Instrumented T) A Er :=
  {| stream_poll01 := instrumented_stream_poll01 |}.
Definition instrumented_start_send01 {T A Er} `{!Sink01 T A Er} (item : A) :
    Instrumented T -> M (Instrumented T * ran (result (AsyncSink A) Er)) := in_guard (start_send01 item).
Definition instrumented_poll_complete01 {T A Er} `{!Sink01 T A Er} :
    Instrumented T -> M (Instrumented T * ran (result (Async unit) Er)) := in_guard (poll_complete01 (A := A)).
#[global] Instance instrumented_sink01 {T A Er} `{!Sink01 T A Er} : Sink01 (Instrumented T) A Er :=
  {| start_send01 := instrumented_start_send01; poll_complete01 := instrumented_poll_complete01 (A := A) |}.
Definition instrumented_poll_next {T A} `{!Stream03 T A} : Instrumented T -> M (Instrumented T * ran (Async (option A))) :=
  in_guard poll_next.
#[global] Instance instrumented_stream03 {T A} `{!Stream03 T A} : Stream03 (Instrumented T) A :=
  {| poll_next := instrumented_poll_next |}.
Definition instrumented_poll_ready {T A Er} `{!Sink03 T A Er} : Instrumented T -> M (Instrumented T * ran (Async (result unit Er))) :=
  in_guard (poll_ready (A := A)).
Definition instrumented_start_send {T A Er} `{!Sink03 T A Er} (item : A) :
    Instrumented T -> M (Instrumented T * ran (result unit Er)) := in_guard (start_send item).
Definition instrumented_poll_flush {T A Er} `{!Sink03 T A Er} : Instrumented T -> M (Instrumented T * ran (Async (result unit Er))) :=
  in_guard (poll_flush (A := A)).
Definition instrumented_poll_close {T A Er} `{!Sink03 T A Er} : Instrumented T -> M (Instrumented T * ran (Async (result unit Er))) :=
  in_guard (poll_close (A := A)).
#[global] Instance instrumented_sink03 {T A Er} `{!Sink03 T A Er} : Sink03 (Instrumented T) A Er := {|
  poll_ready := instrumented_poll_ready (A := A);
  start_send := instrumented_start_send;
  poll_flush := instrumented_poll_flush (A := A);
  poll_close := instrumented_poll_close (A := A);
|}.

(** [span_and_inner_pin_mut], [span], [span_mut], [inner], [inner_mut] and their pinned
    forms *)
Definition span_and_inner_mut {T} (self : Instrumented T) : Span * T := (i_span self, i_inner self).
Definition span_mut {T} (span : Span) (self : Instrumented T) : Instrumented T := set_span span self.
Definition inner_mut {T} (inner : T) (self : Instrumented T) : Instrumented T := set_inner inner self.
(** [into_inner] reads both fields and drops the span, without entering it. *)
Definition futures_into_inner {T} (self : Instrumented T) : M T :=
  _ ← drop (i_span self); mret (i_inner self).
(** [Drop]: the inner value is dropped in the span, then the span. *)
Definition futures_drop {T A} `{!Future T A} (self : Instrumented T) : M bool :=
  _ ← do_enter (i_span self);
  unwinds ← drop_future (i_inner self);
  _ ← do_exit (i_span self);
  _ ← drop (i_span self);
  mret unwinds.

(** ** Executors

    [Executor] of [futures] 0.1 gives a future back that it does not take; [spawn] of the
    others drops it.  [status] is forwarded. *)
Class Executor (T F Kind : Type) := { execute : T -> F -> M (T * result unit (Kind * F)) }.
Class Spawn (T F Er : Type) := {
  spawn : T -> F -> M (T * result unit Er);
  spawn_status : T -> M (T * result unit Er);
}.
Class BlockOn (T F R : Type) := { block_on : T -> F -> M (T * R) }.

Definition instrumented_execute {T F Kind} `{!Executor T (Instrumented F) Kind} (self : Instrumented T) (future : F) :
    M (Instrumented T * result unit (Kind * F)) :=
  span ← clone (i_span self);
  '(inner, r) ← execute (i_inner self) (instrument future span);
  match r with
  | Ok _ => mret (set_inner inner self, Ok tt)
  | Err (kind, future) => future ← futures_into_inner future; mret (set_inner inner self, Err (kind, future))
  end.
#[global] Instance instrumented_executor {T F Kind} `{!Executor T (Instrumented F) Kind} : Executor (Instrumented T) F Kind :=
  {| execute := instrumented_execute |}.

(** [spawn] of tokio's executors, and [spawn_obj] and [spawn_local_obj] of 0.3. *)
Definition instrumented_spawn {T F Er} `{!Spawn T (Instrumented F) Er} (self : Instrumented T) (future : F) :
    M (Instrumented T * result unit Er) :=
  span ← clone (i_span self);
  '(inner, r) ← spawn (i_inner self) (instrument future span);
  mret (set_inner inner self, r).
Definition instrumented_status {T F Er} `{!Spawn T (Instrumented F) Er} (self : Instrumented T) :
    M (Instrumented T * result unit Er) :=
  '(inner, r) ← spawn_status (i_inner self); mret (set_inner inner self, r).
#[global] Instance instrumented_spawner {T F Er} `{!Spawn T (Instrumented F) Er} : Spawn (Instrumented T) F Er :=
  {| spawn := instrumented_spawn; spawn_status := instrumented_status |}.
(** The runtimes: [spawn] returns the runtime, [block_on] the result of the future, and
    [executor] and [handle] an instrumented handle. *)
Definition runtime_spawn {T F} `{!Spawn T (Instrumented F) Empty_set} (self : Instrumented T) (future : F) : M (Instrumented T) :=
  '(self, _) ← instrumented_spawn self future; mret self.
Definition runtime_block_on {T F R} `{!BlockOn T (Instrumented F) R} (self : Instrumented T) (future : F) :
    M (Instrumented T * R) :=
  span ← clone (i_span self);
  '(inner, r) ← block_on (i_inner self) (instrument future span);
  mret (set_inner inner self, r).
Definition runtime_executor {T H} (executor : T -> H) (self : Instrumented T) : M (Instrumented H) :=
  span ← clone (i_span self); mret (instrument (executor (i_inner self)) span).

(** ** [WithDispatch] *)

(** [with_dispatch]: the dispatcher is cloned. *)
Definition with_dispatch {T U} (self : WithDispatch T) (inner : U) : WithDispatch U :=
  {| wd_inner := inner; wd_dispatcher := wd_dispatcher self |}.
Definition dispatch_execute {T F Kind} `{!Executor T (WithDispatch F) Kind} (self : WithDispatch T) (future : F) :
    M (WithDispatch T * result unit (Kind * F)) :=
  '(inner, r) ← execute (wd_inner self) (with_dispatch self future);
  mret (wd_set_inner inner self, match r with Ok _ => Ok tt | Err (kind, future) => Err (kind, wd_inner future) end).
#[global] Instance dispatch_executor {T F Kind} `{!Executor T (WithDispatch F) Kind} : Executor (WithDispatch T) F Kind :=
  {| execute := dispatch_execute |}.
Definition dispatch_spawn {T F Er} `{!Spawn T (WithDispatch F) Er} (self : WithDispatch T) (future : F) :
    M (WithDispatch T * result unit Er) :=
  '(inner, r) ← spawn (wd_inner self) (with_dispatch self future); mret (wd_set_inner inner self, r).
Definition dispatch_status {T F Er} `{!Spawn T (WithDispatch F) Er} (self : WithDispatch T) :
    M (WithDispatch T * result unit Er) :=
  '(inner, r) ← spawn_status (wd_inner self); mret (wd_set_inner inner self, r).
#[global] Instance dispatch_spawner {T F Er} `{!Spawn T (WithDispatch F) Er} : Spawn (WithDispatch T) F Er :=
  {| spawn := dispatch_spawn; spawn_status := dispatch_status |}.
Definition dispatch_block_on {T F R} `{!BlockOn T (WithDispatch F) R} (self : WithDispatch T) (future : F) :
    M (WithDispatch T * R) :=
  '(inner, r) ← block_on (wd_inner self) (with_dispatch self future); mret (wd_set_inner inner self, r).
Definition dispatch_handle {T H} (executor : T -> H) (self : WithDispatch T) : WithDispatch H :=
  with_dispatch self (executor (wd_inner self)).
End traits.

(** [Future for WithDispatch], of either version. *)
Definition under_dispatch {T R} (f : T -> nat -> Dispatchers.M (T * R)) (self : WithDispatch T) (t : nat) :
    Dispatchers.M (WithDispatch T * R) := fun w =>
  let '(r, w) := Dispatchers.with_default t (wd_dispatcher self) (f (wd_inner self) t) w in
  (match r with
   | Done (inner, p) => Done (wd_set_inner inner self, p)
   | Panic => Panic
   end, w).

(** ** Operations that keep to the rules *)

Section laws.
Context `{E : Env} {P : PoolOps DataInner} `{!PoolLaws default_data P}.
Variables (es : list entry) (fuel : nat).

(** An operation on a value that owns handles: it makes at most [c] new references, leaves
    the entered spans as they were and every other handle alone, and does not panic. *)
Definition op_ok {T R} (ok : T -> Prop) (own : T -> handles) (c : nat) (f : T -> M (T * R)) : Prop :=
  forall t h n l w,
    ok t -> settled es (add (own t) h) n w -> entered_are l w -> room fuel c n w ->
    exists t' r w', f t w = Done ((t', r), w') /\ ok t' /\ after es c (add (own t') h) n l w w'.

Definition span_ok {T} (ok : T -> Prop) (t : Instrumented T) : Prop := ok (i_inner t) /\ of_dispatch es fuel (i_span t).
Definition span_and_own {T} (own : T -> handles) (t : Instrumented T) : handles :=
  add (span_own (i_span t)) (own (i_inner t)).

(** The inner operation of [in_guard f] runs with the span entered. *)
Definition runs_in_span {T R} (f : T -> M (T * R)) (t : T) (span : Span) (l : list Id) (w : World) : Prop :=
  exists w1 t' r w2 w3, do_enter span w = Done (tt, w1) /\ entered_are (enter_on span l) w1 /\
    f t w1 = Done ((t', r), w2) /\ in_guard f (instrument t span) w = Done ((instrument t' span, r), w3) /\
    entered_are l w3.

Hypotheses (Hok : Forall entry_ok es) (H64 : (filters es < 64)%nat) (Hne : es <> []).

Ltac rearrange := eapply settled_ext; [|eassumption]; intros ?; unfold span_and_own, add; cbn [i_span i_inner instrument set_inner]; lia.

Lemma in_guard_ok {T R} ok own c (f : T -> M (T * R)) :
  op_ok ok own c f -> op_ok (span_ok ok) (span_and_own own) c (in_guard f) /\
  forall t span h n l w, ok t -> of_dispatch es fuel span -> settled es (add (span_and_own own (instrument t span)) h) n w ->
    entered_are l w -> room fuel c n w -> runs_in_span f t span l w.
Proof using Hok H64.
  intros Hf. assert (forall t span h n l w, ok t -> of_dispatch es fuel span ->
    settled es (add (span_and_own own (instrument t span)) h) n w -> entered_are l w -> room fuel c n w ->
    exists w1 t' r w2 w3, do_enter span w = Done (tt, w1) /\ entered_are (enter_on span l) w1 /\
      f t w1 = Done ((t', r), w2) /\ in_guard f (instrument t span) w = Done ((instrument t' span, r), w3) /\ ok t' /\
      after es c (add (span_and_own own (instrument t' span)) h) n l w w3) as Hmain.
  { intros t span h n l w Ht Hd Hs Hl [Hn Hfuel]. unfold span_and_own in Hs. cbn [i_span i_inner instrument] in Hs.
    destruct (enter_exit_ok es fuel Hok H64 span (add (own t) h) n l w Hd) as [(w1 & H1 & Hs1 & Hsp1 & Hl1) _];
      [rearrange|done|].
    destruct (Hf t (add (span_own span) h) n (enter_on span l) w1 Ht) as (t' & r & w2 & H2 & Ht' & [Hs2 Hl2 Hz2]);
      [rearrange|done|split; [done|by rewrite Hsp1]|].
    destruct (enter_exit_ok es fuel Hok H64 span (add (own t') h) (n + c) (enter_on span l) w2 Hd) as [_ Hexit];
      [rearrange|done|].
    destruct (Hexit l eq_refl) as (w3 & H3 & Hs3 & Hsp3 & Hl3).
    exists w1, t', r, w2, w3. split_and!; try done.
    - unfold in_guard. mred. cbn [i_span i_inner instrument]. by rewrite H1, H2, H3.
    - split; [rearrange|done|]. by rewrite Hsp3, <- Hsp1. }
  split.
  - intros [t span] h n l w [Ht Hd] Hs Hl Hr.
    destruct (Hmain t span h n l w Ht Hd Hs Hl Hr) as (w1 & t' & r & w2 & w3 & _ & _ & _ & H & Ht' & Ha).
    by exists (instrument t' span), r, w3.
  - intros t span h n l w Ht Hd Hs Hl Hr.
    destruct (Hmain t span h n l w Ht Hd Hs Hl Hr) as (w1 & t' & r & w2 & w3 & H1 & H2 & H3 & H4 & _ & [_ Hl3 _]).
    by exists w1, t', r, w2, w3.
Qed.

(** Cloning the handle of a span. *)
Lemma clone_span_ok span h n l w :
  of_dispatch es fuel span -> settled es (add (span_own span) h) n w -> entered_are l w -> Z.of_nat (S n) < U64.MAX ->
  exists w', clone span w = Done (span, w') /\
    settled es (add (span_own span) (add (span_own span) h)) (S n) w' /\ entered_are l w' /\
    size (pool_keys (spans w')) = size (pool_keys (spans w)).
Proof using Type.
  clear Hok H64 Hne. intros Hd Hs Hl Hn. destruct span as [[[i sub]|] m]; cbn in *.
  2:{ exists w. split_and!; [done| |done|done]. apply (settled_more es _ n); [|lia]. eapply settled_ext; [|exact Hs]. done. }
  specialize (Hd _ eq_refl). cbn in Hd. subst sub. set (sp := {| inner := Some _; meta := m |}) in *.
  set (h' := add (span_own sp) h) in *.
  assert (0 < h' (id_to_idx i))%nat as Hh by (unfold h', add, span_own; cbn; rewrite decide_True by done; lia).
  pose proof (ro_held _ _ _ (se_refs _ _ _ _ Hs) _ Hh) as Hlive.
  destruct (clone_refs h' n w (id_to_idx i) (se_refs _ _ _ _ Hs) Hlive Hn) as (p & Hc & Hrefs).
  pose proof (clone_keys _ _ _ _ Hc : pool_keys p = pool_keys (spans w)) as Hkeys.
  rewrite id_of_idx in Hc. apply (stack_clone_span (close_span fuel es) es) in Hc; [|done].
  unfold clone, inner_clone. cbn [inner sp subscriber_ inner_id meta]. unfold dispatch. mred. rewrite Hc.
  eexists. split; [reflexivity|]. split_and!; [|done|by cbn [spans with_spans]; rewrite Hkeys].
  destruct Hs. split; try done. eapply refs_ok_ext; [|exact Hrefs]. intros k. unfold upd, add, span_own. cbn.
  destruct (decide (k = id_to_idx i)) as [->|Hk]; [by rewrite decide_True by done|]. by rewrite decide_False by congruence.
Qed.

(** What is asked of an executor of futures that own handles: it takes over the handles of
    the future that it takes; an [ExecuteError] carries the future that was to be executed,
    which was not polled. *)
Class ExecutorLaws (T F Kind : Type) `{!Executor T F Kind} (ok_f : F -> Prop) (own_f : F -> handles) := {
  ex_ok : T -> Prop;
  ex_own : T -> handles;
  ex_cost : nat;
  execute_ok t f h n l w :
    ex_ok t -> ok_f f -> settled es (add (add (ex_own t) (own_f f)) h) n w -> entered_are l w -> room fuel ex_cost n w ->
    exists t' r w', execute t f w = Done ((t', r), w') /\ ex_ok t' /\
      match r with
      | Ok _ => after es ex_cost (add (ex_own t') h) n l w w'
      | Err (_, f') => f' = f /\ after es ex_cost (add (add (ex_own t') (own_f f)) h) n l w w'
      end;
}.

Lemma after_weaken c c' h h' n l w w' :
  after es c h n l w w' -> (c <= c')%nat -> (forall k, h' k = h k) -> after es c' h' n l w w'.
Proof using Type.
  clear Hok H64 Hne. intros [Hs Hl Hz] Hc Hh. split; [|done|lia]. apply (settled_more es _ (n + c)); [|lia]. by eapply settled_ext.
Qed.

(** The spans of the registry are those that the handles [h] hold, and each counts exactly
    its handles and its children. *)
Definition accounted (h : handles) (w : World) : Prop :=
  (forall k, is_Some (pool_get k (spans w)) <-> held h (spans w) k) /\
  forall k d, pool_get k (spans w) = Some d -> ref_count d = Z.of_nat (h k + size (children k (spans w))).
Lemma settled_accounted h n w : settled es h n w -> accounted h w.
Proof using Type.
  clear Hok H64 Hne. intros [Hs _ _ _]. split; [intros k; by apply (live_held _ n)|apply (ro_refs _ _ _ Hs)].
Qed.

(** An instrumented executor: the inner one is given the future in a clone of the span, and
    what it answers is the answer, but that the clone that comes back with a rejected future
    is dropped. *)
Lemma instrumented_execute_ok {T F Kind} `{!Executor T (Instrumented F) Kind} ok_f own_f
    `{L : !ExecutorLaws T (Instrumented F) Kind (span_ok ok_f) (span_and_own own_f)} t span f h n l w :
  ex_ok t -> of_dispatch es fuel span -> ok_f f ->
  settled es (add (add (add (span_own span) (ex_own t)) (own_f f)) h) n w -> entered_are l w ->
  room fuel (ex_cost + 1) n w ->
  exists w1 t' r1 w2, clone span w = Done (span, w1) /\
    settled es (add (span_own span) (add (add (add (span_own span) (ex_own t)) (own_f f)) h)) (S n) w1 /\
    execute t (instrument f span) w1 = Done ((t', r1), w2) /\ ex_ok t' /\
    match r1 with
    | Ok _ =>
        execute (instrument t span) f w = Done ((instrument t' span, Ok tt), w2) /\
        after es (ex_cost + 1) (add (add (span_own span) (ex_own t')) h) n l w w2
    | Err (kind, rejected) =>
        rejected = instrument f span /\
        exists w3, drop span w2 = Done (tt, w3) /\
          execute (instrument t span) f w = Done ((instrument t' span, Err (kind, f)), w3) /\
          after es (ex_cost + 1) (add (add (add (span_own span) (ex_own t')) (own_f f)) h) n l w w3
    end.
Proof using Hok H64 Hne.
  intros Ht Hd Hf Hs Hl [Hn Hfuel].
  destruct (clone_span_ok span (add (add (ex_own t) (own_f f)) h) n l w Hd) as (w1 & H1 & Hs1 & Hl1 & Hz1);
    [rearrange|done|lia|].
  destruct (execute_ok t (instrument f span) (add (span_own span) h) (S n) l w1 Ht) as (t' & r & w2 & H2 & Ht' & Hr);
    [by split|rearrange|done|split; [lia|rewrite Hz1; lia]|].
  exists w1, t', r, w2. split; [done|]. split; [rearrange|]. split; [done|]. split; [done|].
  assert (execute (instrument t span) f w =
    match r with
    | Ok _ => Done ((instrument t' span, Ok tt), w2)
    | Err (kind, future) => (future ← futures_into_inner future; mret (instrument t' span, Err (kind, future))) w2
    end) as Hrun.
  { cbn [execute instrumented_executor]. unfold instrumented_execute. mred. cbn [i_span i_inner instrument].
    rewrite H1. rewrite H2. by destruct r as [|[kind f']]. }
  destruct r as [[]|[kind f']].
  - split; [done|]. destruct Hr as [Hs2 Hl2 Hz2]. split; [|done|lia].
    apply (settled_more es _ (S n + ex_cost)); [|lia]. rearrange.
  - destruct Hr as [-> [Hs2 Hl2 Hz2]]. split; [done|].
    destruct (drop_span_ok es fuel Hok H64 Hne span (add (add (add (span_own span) (ex_own t')) (own_f f)) h)
      (S n + ex_cost) w2 Hd) as (w3 & H3 & Hs3 & Hc3 & Hz3); [rearrange|lia|lia|].
    exists w3. split; [done|]. split.
    + rewrite Hrun. unfold futures_into_inner. mred. cbn [i_span i_inner instrument]. by rewrite H3.
    + split; [|unfold entered_are; by rewrite Hc3|lia]. apply (settled_more es _ (S n + ex_cost)); [|lia]. rearrange.
Qed.

(** So an instrumented executor keeps to the rules, and they nest. *)
#[export] Instance instrumented_executor_laws {T F Kind} `{!Executor T (Instrumented F) Kind} ok_f own_f
    `{L : !ExecutorLaws T (Instrumented F) Kind (span_ok ok_f) (span_and_own own_f)} :
  ExecutorLaws (Instrumented T) F Kind ok_f own_f.
Proof using Hok H64 Hne.
  refine {| ex_ok t := ex_ok (i_inner t) /\ of_dispatch es fuel (i_span t);
            ex_own t := add (span_own (i_span t)) (ex_own (i_inner t)); ex_cost := ex_cost + 1 |}.
  intros [t span] f h n l w [Ht Hd] Hf Hs Hl Hr.
  destruct (instrumented_execute_ok ok_f own_f t span f h n l w Ht Hd Hf Hs Hl Hr)
    as (w1 & t' & r1 & w2 & _ & _ & _ & Ht' & Ha).
  destruct r1 as [[]|[kind f']].
  - destruct Ha as [H Ha]. by exists (instrument t' span), (Ok tt), w2.
  - destruct Ha as (_ & w3 & _ & H & Ha). by exists (instrument t' span), (Err (kind, f)), w3.
Defined.
End laws.

Arguments ex_ok {_ _ _ _ _ _ _ _ _ _ _ _}. Arguments ex_own {_ _ _ _ _ _ _ _ _ _ _ _}.
Arguments ex_cost {_ _ _ _ _ _ _ _ _ _ _ _}.

(** C8: an instrumented executor hands over and takes back exactly: the inner executor is
    given the caller's future in the executor's own span, for which one handle more is
    counted; when it takes it, that is the result, and nothing else changes; when it rejects
    it, the caller gets the kind of that error and its own future back, after the added
    handle was dropped; either way the registry has the spans that the executor, the rest of
    the program and, when it is rejected, the future hold, and the count of each is that of
    its handles and children; nothing panics and the thread has the same spans entered. *)
Theorem executor_hands_over `{E : Env} {P : PoolOps DataInner} `{!PoolLaws default_data P}
    (es : list entry) (fuel : nat) {T F Kind : Type} `{!Executor T (Instrumented F) Kind}
    (ok_f : F -> Prop) (own_f : F -> handles)
    `{L : !ExecutorLaws es fuel T (Instrumented F) Kind (span_ok es fuel ok_f) (span_and_own own_f)}
    (t : T) (span : Span) (f : F) (h : handles) (n : nat) (l : list Id) (w : World)
    (Hok : Forall entry_ok es) (H64 : (filters es < 64)%nat) (Hne : es <> [])
    (Ht : ex_ok t) (Hd : of_dispatch es fuel span) (Hf : ok_f f)
    (Hs : settled es (add (add (add (span_own span) (ex_own t)) (own_f f)) h) n w)
    (Hl : entered_are l w) (Hroom : room fuel (ex_cost + 1) n w) :
  exists w1 t' r1 w2, clone span w = Done (span, w1) /\
    accounted (add (span_own span) (add (add (add (span_own span) (ex_own t)) (own_f f)) h)) w1 /\
    execute t (instrument f span) w1 = Done ((t', r1), w2) /\
    let mine := add (span_own span) (ex_own t') in
    match r1 with
    | Ok _ =>
        execute (instrument t span) f w = Done ((instrument t' span, Ok tt), w2) /\
        entered_are l w2 /\ accounted (add mine h) w2
    | Err (kind, rejected) =>
        rejected = instrument f span /\
        exists w3, drop span w2 = Done (tt, w3) /\
          execute (instrument t span) f w = Done ((instrument t' span, Err (kind, f)), w3) /\
          entered_are l w3 /\ accounted (add (add mine (own_f f)) h) w3
    end.
Proof.
  destruct (instrumented_execute_ok es fuel Hok H64 Hne ok_f own_f t span f h n l w Ht Hd Hf Hs Hl Hroom)
    as (w1 & t' & r1 & w2 & H1 & Hs1 & H2 & _ & Hr).
  exists w1, t', r1, w2. split; [done|]. split; [by eapply settled_accounted|]. split; [done|].
  destruct r1 as [[]|[kind f']].
  - destruct Hr as [Hrun [Hs' Hl' _]]. split_and!; [done..|by eapply settled_accounted].
  - destruct Hr as (-> & w3 & H3 & Hrun & [Hs' Hl' _]). split; [done|]. exists w3.
    split_and!; [done..|by eapply settled_accounted].
Qed.

(** ** An executor with a queue *)

Section queue.
Context `{E : Env} {P : PoolOps DataInner} `{!PoolLaws default_data P}.
Variables (es : list entry) (fuel : nat).

Record Queue (F : Type) := { waiting : list F; capacity : nat }.
Definition queue_execute {F} (self : Queue F) (f : F) : M (Queue F * result unit (unit * F)) :=
  if (length (waiting _ self) <? capacity _ self)%nat
  then mret ({| waiting := (waiting _ self ++ [f])%list; capacity := capacity _ self |}, Ok tt)
  else mret (self, Err (tt, f)).
#[export] Instance queue_executor {F} : Executor (Queue F) F unit := {| execute := queue_execute |}.

#[export] Instance queue_laws {F} (ok_f : F -> Prop) (own_f : F -> handles) :
  ExecutorLaws es fuel (Queue F) F unit ok_f own_f.
Proof.
  refine {| ex_ok (_ : Queue F) := True; ex_own q := fun k => sum_list_with (fun f => own_f f k) (waiting _ q); ex_cost := 0 |}.
  intros q f h n l w _ Hf Hs Hl _. cbn. unfold queue_execute.
  assert (settled es (add (fun k => sum_list_with (fun f => own_f f k) (waiting F q ++ [f])) h) (n + 0) w) as Hs1.
  { rewrite Nat.add_0_r. eapply settled_ext; [|exact Hs]. intros k. unfold add. rewrite sum_list_with_app. cbn. lia. }
  rewrite Nat.add_0_r in Hs1.
  destruct (_ <? _)%nat; eexists _, _, w; (split; [reflexivity|]); split_and!; try done;
    (split; [by rewrite Nat.add_0_r|done|lia]).
Defined.
End queue.

Module FuturesExample.
Definition nothing : unit -> handles := fun _ _ => 0%nat.
Definition one_span : stmt := Let (NewRoot always_on (Attributes.metadata root_span) (Attributes.values root_span)).
Abbreviation one_span_end := (exec example_stack 10 one_span [] (with_filters 2)).
Definition full_queue : Queue (Instrumented unit) := {| waiting := []; capacity := 0 |}.
#[local] Instance example_queue_laws : ExecutorLaws example_stack 10 (Queue (Instrumented unit)) (Instrumented unit) unit
    (span_ok example_stack 10 (fun _ : unit => True)) (span_and_own nothing) :=
  queue_laws example_stack 10 _ _.

Lemma one_span_settled v w :
  one_span_end = Done ([Some v], w) -> settled example_stack (holds [Some v]) 4 w /\ state_ok example_stack 10 [Some v].
Proof.
  intros Hrun.
  assert (program example_stack 10 [Some v] 4 w) as Hp.
  { apply (program_step example_stack 10 [] 0 (with_filters 2) one_span);
      [by apply program_start|reflexivity|unfold U64.MAX; cbn; lia| |exact Hrun].
    vm_compute. lia. }
  by apply (program_ok example_stack 10 example_unlimited example_stack_ok ltac:(cbn; lia) ltac:(discriminate) _ _ _ Hp).
Qed.

(** A full executor in a span: the future comes back and the span has its one handle. *)
Lemma executor_hands_over_witness :
  match one_span_end with
  | Done (st, w) =>
      exists v r w', var st 0 = Some v /\
        execute (instrument full_queue (var_span v)) tt w = Done ((instrument full_queue (var_span v), r), w') /\
        r = Err (tt, tt) /\ entered_are [] w' /\
        (forall d, pool_get 0 (spans w') = Some d -> ref_count d = Z.of_nat (1 + size (children 0 (spans w'))))
  | Panic => False
  end.
Proof.
  assert (match one_span_end with
          | Done (st, w) =>
              match st with
              | [Some v] => bool_decide (current_spans w = None) && (size (pool_keys (spans w)) + 2 <? 10)%nat &&
                  bool_decide (SpanHandles.id (var_span v) = Some (idx_to_id 0)) &&
                  match execute (instrument full_queue (var_span v)) tt w with
                  | Done ((q, Err (tt, tt)), _) => (capacity _ (i_inner q) =? 0)%nat && (length (waiting _ (i_inner q)) =? 0)%nat
                  | _ => false
                  end
              | _ => false
              end
          | Panic => false
          end = true) as Hev by (vm_compute; reflexivity).
  destruct one_span_end as [[st w]|] eqn:Hrun; [|discriminate Hev].
  destruct st as [|[v|] [|]]; try discriminate Hev.
  apply andb_prop in Hev as [Hev Hexec]. apply andb_prop in Hev as [Hev Hid%bool_decide_eq_true].
  apply andb_prop in Hev as [Hcur%bool_decide_eq_true Hsize%Nat.ltb_lt].
  destruct (one_span_settled v w Hrun) as [Hs Hst].
  destruct (executor_hands_over example_stack 10 (fun _ : unit => True) nothing full_queue (var_span v) tt (fun _ => 0%nat) 4 [] w
    example_stack_ok ltac:(cbn; lia) ltac:(discriminate) I) as (w1 & t' & r1 & w2 & _ & _ & _ & Hr).
  - intros i Hi. by eapply (state_ok_var example_stack 10 [Some v] 0).
  - exact I.
  - eapply settled_ext; [|exact Hs]. intros k. unfold add, nothing, holds, holds_one, span_own. cbn. rewrite Hid. cbn.
    destruct (decide _); lia.
  - unfold entered_are. by rewrite Hcur.
  - change (room 10 1 4 w). split; [unfold U64.MAX; lia|lia].
  - destruct r1 as [[]|[[] f']].
    { destruct Hr as (Hx & _). by rewrite Hx in Hexec. }
    destruct Hr as (_ & w' & _ & Hx & Hl' & _ & Hrefs). exists v, (Err (tt, tt)), w'. rewrite Hx in Hexec.
    apply andb_prop in Hexec as [Hc%Nat.eqb_eq Hw%Nat.eqb_eq].
    assert (t' = full_queue) as ->.
    { destruct t' as [ts c]. cbn in Hc, Hw. subst c. by destruct ts. }
    split_and!; [done|exact Hx|done|exact Hl'|]. intros d Hd0.
    rewrite (Hrefs 0 d Hd0). unfold add, nothing, span_own. rewrite Hid. cbn. reflexivity.
Defined.
End FuturesExample.
