(* ===== verification/Tower.v ===== *)
(** * Tower: [tracing-tower]

    Services of the crate [tower] whose requests run in spans: one span for each request,
    which its response future carries on, and one for the service.  The service that is
    wrapped and the function that makes the spans are parameters, with laws. *)

From S2P Require Import Prelude.
From S2P Require Import Str.
From S2P Require Import Levels.
From S2P Require Import Fields.
From S2P Require Import Meta.
From S2P Require Import Interests.
From S2P Require Import FilterIds.
From S2P Require Import SpanStack.
From S2P Require Import Registry.
From S2P Require Import Pools.
From S2P Require Import Contexts.
From S2P Require Import Layers.
From S2P Require Import Stacks.
From S2P Require Import SpanLife.
From S2P Require Import SpanHandles.
From S2P Require Import Instrument.
From S2P Require Import Futures.

Local Open Scope Z_scope.

Section traits.
Context `{E : Env} {P : PoolOps DataInner}.

(** [tower_service::Service] and [tower_make::MakeService]; the code of a service may unwind
    ([None]). *)
Class Service (S R Fut Er : Type) := {
  service_ready : S -> M (S * ran (Async (result unit Er)));
  call : S -> R -> M (S * ran Fut);
}.
Class MakeService (S T Fut Er : Type) := {
  make_ready : S -> M (S * ran (Async (result unit Er)));
  make_service : S -> T -> M (S * ran Fut);
}.

(** ** [trait GetSpan] of [lib.rs], for closures and for a [Span]; the [Clone] of either *)
Class GetSpan (G T : Type) := { span_for : G -> T -> M Span; clone_get : G -> M G }.
#[global] Instance get_span_fn {T} : GetSpan (T -> M Span) T :=
  {| span_for self target := self target; clone_get self := mret self |}.
#[global] Instance get_span_span {T} : GetSpan Span T := {| span_for self _ := clone self; clone_get := clone |}.

(** ** [request_span::Service] *)

Record RequestService (S G : Type) := { get_span : G; r_inner : S }.
Arguments get_span {S G}. Arguments r_inner {S G}. Arguments Build_RequestService {S G}.
Definition request_new {S G} (inner : S) (get_span : G) : RequestService S G := Build_RequestService get_span inner.
Definition set_r_inner {S G} (inner : S) (self : RequestService S G) : RequestService S G :=
  Build_RequestService (get_span self) inner.
Definition request_clone {S G T} `{!GetSpan G T} (clone_inner : S -> M S) (self : RequestService S G) : M (RequestService S G) :=
  get_span ← clone_get (T := T) (get_span self); inner ← clone_inner (r_inner self); mret (Build_RequestService get_span inner).

Definition request_ready {S R G Fut Er} `{!Service S R Fut Er} (self : RequestService S G) :
    M (RequestService S G * ran (Async (result unit Er))) :=
  '(inner, r) ← service_ready (R := R) (Fut := Fut) (r_inner self); mret (set_r_inner inner self, r).
(** The guard and then the span are dropped when the call returns and when it unwinds; the
    future has a clone of the span. *)
Definition request_call {S R G Fut Er} `{!Service S R Fut Er} `{!GetSpan G R} (self : RequestService S G) (request : R) :
    M (RequestService S G * ran (Instrumented Fut)) :=
  span ← span_for (get_span self) request;
  _ ← do_enter span;
  '(inner, fut) ← call (Er := Er) (r_inner self) request;
  fut ← match fut with
        | Some fut => span ← clone span; mret (Some (instrument fut span))
        | None => mret None
        end;
  _ ← do_exit span;
  _ ← drop span;
  mret (set_r_inner inner self, fut).
#[global] Instance request_service {S R G Fut Er} `{!Service S R Fut Er} `{!GetSpan G R} :
  Service (RequestService S G) R (Instrumented Fut) Er :=
  {| service_ready := request_ready (R := R) (Fut := Fut); call := request_call (Er := Er) |}.

(** [request_span::layer] and its [Layer], and [make::MakeLayer]: [layer] makes a service
    with a clone of the function. *)
Definition request_layer {S G T} `{!GetSpan G T} (self : G) (service : S) : M (RequestService S G) :=
  get_span ← clone_get (T := T) self; mret (request_new service get_span).

(** [request_span::make::MakeService], [MakeFuture] *)
Record RequestMake (S G : Type) := { rm_get_span : G; rm_inner : S }.
Arguments rm_get_span {S G}. Arguments rm_inner {S G}. Arguments Build_RequestMake {S G}.
Record RequestMakeFuture (F G : Type) := { rf_get_span : option G; rf_inner : F }.
Arguments rf_get_span {F G}. Arguments rf_inner {F G}. Arguments Build_RequestMakeFuture {F G}.
Definition request_make_ready {S T G F Er} `{!MakeService S T F Er} (self : RequestMake S G) :
    M (RequestMake S G * ran (Async (result unit Er))) :=
  '(inner, r) ← make_ready (T := T) (Fut := F) (rm_inner self); mret (Build_RequestMake (rm_get_span self) inner, r).
Definition request_make_call {S T R G F Er} `{!MakeService S T F Er} `{!GetSpan G R} (self : RequestMake S G) (target : T) :
    M (RequestMake S G * ran (RequestMakeFuture F G)) :=
  '(inner, fut) ← make_service (Er := Er) (rm_inner self) target;
  fut ← match fut with
        | Some fut => get_span ← clone_get (T := R) (rm_get_span self); mret (Some (Build_RequestMakeFuture (Some get_span) fut))
        | None => mret None
        end;
  mret (Build_RequestMake (rm_get_span self) inner, fut).
(** [expect]: polled after it was ready.  When there is no service [get_span] is dropped
    with [drop_get]. *)
Definition request_make_poll {F G S Er} `{!Future F (result S Er)} (drop_get : G -> M unit) (self : RequestMakeFuture F G) :
    M (RequestMakeFuture F G * Polled (result (RequestService S G) Er)) :=
  '(inner, r) ← poll (rf_inner self);
  match r with
  | Ready r =>
      get_span ← lift (expect (rf_get_span self));
      r ← match r with
          | Ok service => mret (Ok (request_new service get_span))
          | Err e => _ ← drop_get get_span; mret (Err e)
          end;
      mret (Build_RequestMakeFuture None inner, Ready r)
  | Pending => mret (Build_RequestMakeFuture (rf_get_span self) inner, Pending)
  | Unwinding => mret (Build_RequestMakeFuture (rf_get_span self) inner, Unwinding)
  end.

(** ** [service_span::Service] *)

(** It is a service in a span, which is entered for [poll_ready] and [call]. *)
Definition service_span_ready {S R Fut Er} `{!Service S R Fut Er} :
    Instrumented S -> M (Instrumented S * ran (Async (result unit Er))) := in_guard (service_ready (R := R) (Fut := Fut)).
Definition service_span_call {S R Fut Er} `{!Service S R Fut Er} (self : Instrumented S) (request : R) :
    M (Instrumented S * ran Fut) := in_guard (fun inner => call (Er := Er) inner request) self.
#[global] Instance service_span_service {S R Fut Er} `{!Service S R Fut Er} : Service (Instrumented S) R Fut Er :=
  {| service_ready := service_span_ready (R := R) (Fut := Fut); call := service_span_call (Er := Er) |}.
Definition service_new {S} (inner : S) (span : Span) : Instrumented S := instrument inner span.
Definition service_clone {S} (clone_inner : S -> M S) (self : Instrumented S) : M (Instrumented S) :=
  span ← clone (i_span self); inner ← clone_inner (i_inner self); mret (service_new inner span).
Definition service_layer {S G} `{!GetSpan G S} (self : G) (inner : S) : M (Instrumented S) :=
  span ← span_for self inner; mret (service_new inner span).

(** [service_span::make::MakeService], [MakeFuture]: the future is polled in the span, and
    gives it to the service that it makes. *)
Record SpanMake (S G : Type) := { sm_get_span : G; sm_inner : S }.
Arguments sm_get_span {S G}. Arguments sm_inner {S G}. Arguments Build_SpanMake {S G}.
Record SpanMakeFuture (F : Type) := { sf_inner : F; sf_span : option Span }.
Arguments sf_inner {F}. Arguments sf_span {F}. Arguments Build_SpanMakeFuture {F}.
Definition span_make_ready {S T G F Er} `{!MakeService S T F Er} (self : SpanMake S G) :
    M (SpanMake S G * ran (Async (result unit Er))) :=
  '(inner, r) ← make_ready (T := T) (Fut := F) (sm_inner self); mret (Build_SpanMake (sm_get_span self) inner, r).
Definition span_make_call {S T G F Er} `{!MakeService S T F Er} `{!GetSpan G T} (self : SpanMake S G) (target : T) :
    M (SpanMake S G * ran (SpanMakeFuture F)) :=
  span ← span_for (sm_get_span self) target;
  '(inner, fut) ← make_service (Er := Er) (sm_inner self) target;
  fut ← match fut with
        | Some fut => mret (Some (Build_SpanMakeFuture fut (Some span)))
        | None => _ ← drop span; mret None
        end;
  mret (Build_SpanMake (sm_get_span self) inner, fut).
Definition span_make_poll {F S Er} `{!Future F (result S Er)} (self : SpanMakeFuture F) :
    M (SpanMakeFuture F * Polled (result (Instrumented S) Er)) :=
  _ ← match sf_span self with Some span => do_enter span | None => mret tt end;
  '(inner, r) ← poll (sf_inner self);
  _ ← match sf_span self with Some span => do_exit span | None => mret tt end;
  match r with
  | Ready r =>
      span ← lift (expect (sf_span self));
      r ← match r with
          | Ok service => mret (Ok (service_new service span))
          | Err e => _ ← drop span; mret (Err e)
          end;
      mret (Build_SpanMakeFuture inner None, Ready r)
  | Pending => mret (Build_SpanMakeFuture inner (sf_span self), Pending)
  | Unwinding => mret (Build_SpanMakeFuture inner (sf_span self), Unwinding)
  end.

(** ** [trait InstrumentableService] *)

Definition trace_requests {S G} (self : S) (get_span : G) : RequestService S G := request_new self get_span.
(** [get_span] is moved into [trace_service] and dropped with [drop_get]. *)
Definition trace_service {S G} `{!GetSpan G S} (drop_get : G -> M unit) (self : S) (get_span : G) : M (Instrumented S) :=
  span ← span_for get_span self; _ ← drop_get get_span; mret (service_new self span).
(** [req_span] is the closure that makes the span [request]; [svc_span] is dropped with
    [drop_get]. *)
Definition instrument_service {S R G} `{!GetSpan G S} (drop_get : G -> M unit) (req_span : R -> M Span) (self : S) (svc_span : G) :
    M (Instrumented (RequestService S (R -> M Span))) :=
  span ← span_for svc_span self;
  traced ← trace_service (G := Span) drop (trace_requests self req_span) span;
  _ ← drop_get svc_span;
  mret traced.

(** ** The spans of [http.rs]

    The [span!] of a request at a level: the fields of its values. *)
Definition http_fields (level : Level.t) : list string :=
  ["method"%string; "uri"%string] ++
  (if bool_decide (level = Level.DEBUG) then ["version"%string] else []) ++
  (if bool_decide (level = Level.TRACE) then ["version"%string; "headers"%string] else []).
Definition http_request {Req} (value : string -> Req -> DebugValue) (meta : Level.t -> Metadata) (c : Level.t -> Cached)
    (dispatch : DynSubscriber) (level : Level.t) (req : Req) : M Span :=
  let m := meta level in
  let values := map (fun name => Some (VDebug (value name req))) (http_fields level) in
  span_macro dispatch (c level) m (new_with m {| values := All values; vs_fields := Metadata.fields m |} dispatch).
End traits.

Arguments get_span {S G}. Arguments r_inner {S G}. Arguments Build_RequestService {S G}.

(** ** Services that keep to the rules *)

Section laws.
Context `{E : Env} {P : PoolOps DataInner} `{!PoolLaws default_data P}.
Variables (es : list entry) (fuel : nat).

(** A function that makes a span: what it returns belongs to the dispatcher and is a new
    handle of the program's. *)
Class GetSpanLaws (G T : Type) `{!GetSpan G T} := {
  get_ok : G -> Prop;
  get_own : G -> handles;
  get_cost : nat;
  span_for_ok g target h n l w :
    get_ok g -> settled es (add (get_own g) h) n w -> entered_are l w -> room fuel get_cost n w ->
    exists span w', span_for g target w = Done (span, w') /\ of_dispatch es fuel span /\
      after es get_cost (add (span_own span) (add (get_own g) h)) n l w w';
}.
(** A service: a call makes at most [svc_cost] new references, and its future owns some. *)
Class ServiceLaws (S R Fut Er : Type) `{!Service S R Fut Er} := {
  svc_ok : S -> Prop;
  svc_own : S -> handles;
  fut_fine : Fut -> Prop;
  fut_own : Fut -> handles;
  svc_cost : nat;
  ready_ok : op_ok es fuel svc_ok svc_own svc_cost (service_ready (R := R) (Fut := Fut));
  call_ok s req h n l w :
    svc_ok s -> settled es (add (svc_own s) h) n w -> entered_are l w -> room fuel svc_cost n w ->
    exists s' fut w', call s req w = Done ((s', fut), w') /\ svc_ok s' /\
      (forall f, fut = Some f -> fut_fine f) /\
      after es svc_cost (add (svc_own s') (add (from_option fut_own (fun _ => 0%nat) fut) h)) n l w w';
}.

Hypotheses (Hok : Forall entry_ok es) (H64 : (filters es < 64)%nat) (Hne : es <> []).

Ltac rearrange :=
  eapply settled_ext; [|eassumption]; intros ?; unfold span_and_own, add;
  cbn [i_span i_inner instrument set_inner get_span r_inner set_r_inner from_option]; lia.

(** A request: its span is made, the service is called in it, and the future carries on a
    handle to it. *)
Lemma request_call_ok {S R G Fut Er} `{!Service S R Fut Er} `{!GetSpan G R} `{!ServiceLaws S R Fut Er} `{!GetSpanLaws G R}
    (s : S) (g : G) (req : R) h n l w :
  svc_ok s -> get_ok g -> settled es (add (add (get_own g) (svc_own s)) h) n w -> entered_are l w ->
  room fuel (get_cost + svc_cost + 1) n w ->
  exists span s' fut w1 w2 w3 w', span_for g req w = Done (span, w1) /\ of_dispatch es fuel span /\
    do_enter span w1 = Done (tt, w2) /\ entered_are (enter_on span l) w2 /\
    call s req w2 = Done ((s', fut), w3) /\
    call (request_new s g) req w = Done ((request_new s' g, (fun f => instrument f span) <$> fut), w') /\
    svc_ok s' /\ (forall f, fut = Some f -> fut_fine f) /\
    after es (get_cost + svc_cost + 1)
      (add (add (get_own g) (svc_own s'))
         (add (from_option (fun f => add (span_own span) (fut_own f)) (fun _ => 0%nat) fut) h)) n l w w'.
Proof using Hok H64 Hne.
  intros Hs Hg Hset Hl [Hn Hf].
  destruct (span_for_ok g req (add (svc_own s) h) n l w Hg) as (span & w1 & H1 & Hd & [Hset1 Hl1 Hz1]);
    [rearrange|done|split; lia|].
  destruct (enter_exit_ok es fuel Hok H64 span (add (add (get_own g) (svc_own s)) h) (n + get_cost) l w1 Hd)
    as [(w2 & H2 & Hset2 & Hsp2 & Hl2) _]; [rearrange|done|].
  destruct (call_ok s req (add (span_own span) (add (get_own g) h)) (n + get_cost) (enter_on span l) w2 Hs)
    as (s' & fut & w3 & H3 & Hs' & Hfut & [Hset3 Hl3 Hz3]); [rearrange|done|split; [lia|rewrite Hsp2; lia]|].
  rewrite Hsp2 in Hz3.
  exists span, s', fut. destruct fut as [f|]; cbn [from_option] in Hset3.
  - destruct (clone_span_ok es fuel span
      (add (add (get_own g) (svc_own s')) (add (fut_own f) h)) (n + get_cost + svc_cost) (enter_on span l) w3 Hd)
      as (w4 & H4 & Hset4 & Hl4 & Hz4); [rearrange|done|lia|].
    destruct (enter_exit_ok es fuel Hok H64 span
      (add (span_own span) (add (add (get_own g) (svc_own s')) (add (fut_own f) h))) (Datatypes.S (n + get_cost + svc_cost))
      (enter_on span l) w4 Hd) as [_ Hexit]; [rearrange|done|].
    destruct (Hexit l eq_refl) as (w5 & H5 & Hset5 & Hsp5 & Hl5).
    destruct (drop_span_ok es fuel Hok H64 Hne span
      (add (span_own span) (add (add (get_own g) (svc_own s')) (add (fut_own f) h))) (Datatypes.S (n + get_cost + svc_cost)) w5 Hd)
      as (w6 & H6 & Hset6 & Hc6 & Hz6); [rearrange|lia|rewrite Hsp5; lia|].
    exists w1, w2, w3, w6. split_and!; try done.
    + cbn [call request_service]. unfold request_call. mred. cbn [get_span r_inner request_new].
      rewrite H1, H2, H3, H4, H5, H6. done.
    + split; [|unfold entered_are; by rewrite Hc6|rewrite Hsp5 in Hz6; lia].
      apply (settled_more es _ (Datatypes.S (n + get_cost + svc_cost))); [|lia]. rearrange.
  - destruct (enter_exit_ok es fuel Hok H64 span (add (add (get_own g) (svc_own s')) h) (n + get_cost + svc_cost)
      (enter_on span l) w3 Hd) as [_ Hexit]; [rearrange|done|].
    destruct (Hexit l eq_refl) as (w5 & H5 & Hset5 & Hsp5 & Hl5).
    destruct (drop_span_ok es fuel Hok H64 Hne span (add (add (get_own g) (svc_own s')) h) (n + get_cost + svc_cost) w5 Hd)
      as (w6 & H6 & Hset6 & Hc6 & Hz6); [rearrange|lia|rewrite Hsp5; lia|].
    exists w1, w2, w3, w6. split_and!; try done.
    + cbn [call request_service]. unfold request_call. mred. cbn [get_span r_inner request_new].
      rewrite H1, H2, H3, H5, H6. done.
    + split; [|unfold entered_are; by rewrite Hc6|rewrite Hsp5 in Hz6; lia].
      apply (settled_more es _ (n + get_cost + svc_cost)); [|lia]. rearrange.
Qed.

(** So a service whose requests have spans keeps to the rules; so does one in a span. *)
#[export] Instance request_service_laws {S R G Fut Er} `{!Service S R Fut Er} `{!GetSpan G R} `{!ServiceLaws S R Fut Er}
    `{!GetSpanLaws G R} : ServiceLaws (RequestService S G) R (Instrumented Fut) Er.
Proof using Hok H64 Hne.
  refine {| svc_ok (s : RequestService S G) := svc_ok (r_inner s) /\ get_ok (get_span s);
            svc_own (s : RequestService S G) := add (get_own (get_span s)) (svc_own (r_inner s));
            fut_fine (f : Instrumented Fut) := fut_fine (i_inner f); fut_own := span_and_own fut_own;
            svc_cost := get_cost + svc_cost + 1 |}.
  - intros [g s] h n l w [Hs Hg] Hset Hl [Hn Hf]. cbn [get_span r_inner] in *.
    destruct (ready_ok s (add (get_own g) h) n l w Hs) as (s' & r & w' & H & Hs' & [Hset' Hl' Hz']);
      [rearrange|done|split; lia|].
    exists (request_new s' g), r, w'. split_and!; try done.
    + cbn [service_ready request_service]. unfold request_ready. mred. cbn [r_inner]. by rewrite H.
    + split; [|done|lia]. apply (settled_more es _ (n + svc_cost)); [|lia]. cbn [get_span r_inner request_new]. rearrange.
  - intros [g s] req h n l w [Hs Hg] Hset Hl Hr. cbn [get_span r_inner] in *.
    destruct (request_call_ok s g req h n l w Hs Hg Hset Hl Hr)
      as (span & s' & fut & w1 & w2 & w3 & w' & _ & _ & _ & _ & _ & H & Hs' & Hfut & Ha).
    exists (request_new s' g), ((fun f => instrument f span) <$> fut), w'. split_and!; try done.
    + intros f Hf. destruct fut as [f'|]; [|done]. injection Hf as <-. by apply Hfut.
    + eapply after_weaken; [exact Ha|lia|]. intros k. by destruct fut.
Defined.

Lemma service_span_call_ok {S R Fut Er} `{!Service S R Fut Er} `{!ServiceLaws S R Fut Er} (s : S) span (req : R) h n l w :
  svc_ok s -> of_dispatch es fuel span -> settled es (add (add (span_own span) (svc_own s)) h) n w -> entered_are l w ->
  room fuel svc_cost n w ->
  exists s' fut w1 w2 w', do_enter span w = Done (tt, w1) /\ entered_are (enter_on span l) w1 /\ spans w1 = spans w /\
    settled es (add (add (span_own span) (svc_own s)) h) n w1 /\
    call s req w1 = Done ((s', fut), w2) /\ call (instrument s span) req w = Done ((instrument s' span, fut), w') /\
    svc_ok s' /\ (forall f, fut = Some f -> fut_fine f) /\
    after es svc_cost (add (add (span_own span) (svc_own s')) (add (from_option fut_own (fun _ => 0%nat) fut) h)) n l w w'.
Proof using Hok H64.
  intros Hs Hd Hset Hl [Hn Hf].
  destruct (enter_exit_ok es fuel Hok H64 span (add (svc_own s) h) n l w Hd) as [(w1 & H1 & Hset1 & Hsp1 & Hl1) _];
    [rearrange|done|].
  destruct (call_ok s req (add (span_own span) h) n (enter_on span l) w1 Hs) as (s' & fut & w2 & H2 & Hs' & Hfut & [Hset2 Hl2 Hz2]);
    [rearrange|done|split; [done|by rewrite Hsp1]|].
  destruct (enter_exit_ok es fuel Hok H64 span (add (svc_own s') (add (from_option fut_own (fun _ => 0%nat) fut) h)) (n + svc_cost)
    (enter_on span l) w2 Hd) as [_ Hexit]; [rearrange|done|].
  destruct (Hexit l eq_refl) as (w3 & H3 & Hset3 & Hsp3 & Hl3).
  exists s', fut, w1, w2, w3. split_and!; try done.
  - rearrange.
  - cbn [call service_span_service]. unfold service_span_call, in_guard. mred. cbn [i_span i_inner instrument].
    by rewrite H1, H2, H3.
  - split; [rearrange|done|]. by rewrite Hsp3, <- Hsp1.
Qed.
#[export] Instance service_span_laws {S R Fut Er} `{!Service S R Fut Er} `{!ServiceLaws S R Fut Er} :
  ServiceLaws (Instrumented S) R Fut Er.
Proof using Hok H64.
  refine {| svc_ok := span_ok es fuel svc_ok; svc_own := span_and_own svc_own;
            fut_fine := fut_fine; fut_own := fut_own; svc_cost := svc_cost |}.
  - apply in_guard_ok; [done|done|]. apply ready_ok.
  - intros [s span] req h n l w [Hs Hd] Hset Hl Hr. cbn [i_inner i_span] in Hs, Hd.
    destruct (service_span_call_ok s span req h n l w Hs Hd Hset Hl Hr)
      as (s' & fut & w1 & w2 & w' & _ & _ & _ & _ & _ & H & Hs' & Hfut & Ha).
    by exists (instrument s' span), fut, w'.
Defined.
End laws.

(** C9: a service with spans, as [instrument] makes it, runs a request in its own span inside
    the span of the service: the code of the wrapped service has exactly these two entered
    on top of what the thread has entered, and no longer when the call is over; the future
    of the response carries a handle to the span of the request, with which it is polled;
    and the registry has the spans that somebody holds: when the service gives no future the
    span of the request is closed again. *)
Theorem request_runs_in_its_spans `{E : Env} {P : PoolOps DataInner} `{!PoolLaws default_data P}
    (es : list entry) (fuel : nat) {S R G Fut Er : Type} `{!Service S R Fut Er} `{!GetSpan G R}
    `{SL : !ServiceLaws es fuel S R Fut Er} `{GL : !GetSpanLaws es fuel G R}
    (s : S) (g : G) (svc : Span) (req : R) (h : handles) (n : nat) (l : list Id) (w : World)
    (Hok : Forall entry_ok es) (H64 : (filters es < 64)%nat) (Hne : es <> [])
    (Hs : svc_ok es fuel s) (Hg : get_ok es fuel g) (Hd : of_dispatch es fuel svc)
    (Hset : settled es (add (add (span_own svc) (add (get_own es fuel g) (svc_own es fuel s))) h) n w)
    (Hl : entered_are l w) (Hroom : room fuel (get_cost es fuel + svc_cost es fuel + 1) n w) :
  exists span s' fut w',
    call (instrument (request_new s g) svc) req w =
      Done ((instrument (request_new s' g) svc, (fun f => instrument f span) <$> fut), w') /\
    entered_are l w' /\
    (exists w1 w2 w3 w4, entered_are (enter_on svc l) w1 /\ span_for g req w1 = Done (span, w2) /\
       entered_are (enter_on span (enter_on svc l)) w3 /\ call s req w3 = Done ((s', fut), w4)) /\
    let future := from_option (fun f => add (span_own span) (fut_own es fuel f)) (fun _ => 0%nat) fut in
    let service := add (span_own svc) (add (get_own es fuel g) (svc_own es fuel s')) in
    forall k, is_Some (pool_get k (spans w')) <-> held (add service (add future h)) (spans w') k.
Proof.
  destruct (service_span_call_ok es fuel Hok H64 (ServiceLaws0 := request_service_laws es fuel Hok H64 Hne)
    (request_new s g) svc req h n l w (conj Hs Hg) Hd Hset Hl Hroom)
    as (rs & rfut & w1 & w2 & w' & H1 & Hl1 & Hsp1 & Hset1 & Hinner & Hrun & _ & _ & [Hset' Hl' _]).
  destruct (request_call_ok es fuel Hok H64 Hne s g req (add (span_own svc) h) n (enter_on svc l) w1 Hs Hg)
    as (span & s' & fut & v1 & v2 & v3 & v' & J1 & _ & J2 & Jl & J3 & Jrun & _).
  { eapply settled_ext; [|exact Hset1]. intros k. unfold add. unfold request_service_laws at 1. cbn [svc_own get_span r_inner request_new]. unfold add. lia. }
  { done. }
  { destruct Hroom. split; [done|by rewrite Hsp1]. }
  rewrite Hinner in Jrun. injection Jrun as -> -> ->.
  exists span, s', fut, w'. split_and!; [done|done|by exists w1, v1, v2, v3|].
  intros future service k. rewrite (live_held _ _ _ k (se_refs _ _ _ _ Hset')).
  assert (forall h1 h2, (forall k, h1 k = h2 k) -> held h1 (spans w') k -> held h2 (spans w') k) as Hext.
  { intros h1 h2 Heq. induction 1 as [k Hk|]; [apply held_handle; by rewrite <- Heq|by eapply held_child]. }
  split; apply Hext; intros k'; destruct fut; done.
Qed.

(** ** A service that counts *)

Section counting.
Context `{E : Env} {P : PoolOps DataInner} `{!PoolLaws default_data P}.
Variables (es : list entry) (fuel : nat).

(** It refuses to answer a request of zero, by unwinding; its futures are numbers. *)
Definition counting_call (self : Z) (req : Z) : M (Z * ran Z) :=
  mret (self + 1, if (req =? 0) then None else Some req).
#[export] Instance counting_service : Service Z Z Z unit :=
  {| service_ready self := mret (self, Some (AsyncReady (Ok tt))); call := counting_call |}.
#[export] Instance counting_laws : ServiceLaws es fuel Z Z Z unit.
Proof.
  refine {| svc_ok (_ : Z) := True; svc_own (_ : Z) := fun _ => 0%nat; fut_fine (_ : Z) := True;
            fut_own (_ : Z) := fun _ => 0%nat; svc_cost := 0 |}.
  - intros s h n l w _ Hs Hl _. eexists s, _, w. split; [reflexivity|]. split; [done|].
    split; [by rewrite Nat.add_0_r|done|lia].
  - intros s req h n l w _ Hs Hl _. eexists _, _, w. split; [reflexivity|]. split; [done|]. split; [done|].
    split; [|done|lia]. rewrite Nat.add_0_r. eapply settled_ext; [|exact Hs]. intros k. by destruct (req =? 0).
Defined.

(** Requests in no span, as of a closure whose callsite is disabled. *)
Definition no_span (_ : Z) : M Span := mret SpanHandles.none.
#[export] Instance no_span_laws : GetSpanLaws es fuel (Z -> M Span) Z.
Proof.
  refine {| get_ok g := g = no_span; get_own (_ : Z -> M Span) := fun _ => 0%nat; get_cost := 0 |}.
  intros g target h n l w -> Hs Hl _. exists SpanHandles.none, w. split; [done|]. split; [done|].
  split; [|done|lia]. by rewrite Nat.add_0_r.
Defined.

(** Requests in a clone of a span of the program's. *)
#[export] Instance span_laws : Forall entry_ok es -> GetSpanLaws es fuel Span Z.
Proof.
  intros Hok. refine {| get_ok g := of_dispatch es fuel g; get_own g := span_own g; get_cost := 1 |}.
  intros g target h n l w Hd Hs Hl [Hn Hf].
  destruct (clone_span_ok es fuel g h n l w Hd Hs Hl) as (w' & H & Hs' & Hl' & Hz); [lia|].
  exists g, w'. split; [done|]. split; [done|]. split; [by rewrite Nat.add_comm|done|lia].
Defined.
End counting.

Module TowerExample.
Import FuturesExample.

(** A service in a span, whose requests run in clones of the same span. *)
Lemma request_runs_in_its_spans_witness :
  match one_span_end with
  | Done (st, w) =>
      exists v w1 span w', var st 0 = Some v /\ clone (var_span v) w = Done (var_span v, w1) /\
        call (instrument (request_new 0 (var_span v)) (var_span v)) 3 w1 =
          Done ((instrument (request_new 1 (var_span v)) (var_span v), Some (instrument 3 span)), w') /\ entered_are [] w'
  | Panic => False
  end.
Proof.
  assert (match one_span_end with
          | Done (st, w) =>
              match st with
              | [Some v] => bool_decide (current_spans w = None) && (size (pool_keys (spans w)) + 3 <? 10)%nat &&
                  match clone (var_span v) w with
                  | Done (_, w1) =>
                      match call (instrument (request_new 0 (var_span v)) (var_span v)) 3 w1 with
                      | Done ((i, Some f), _) => (r_inner (i_inner i) =? 1) && (i_inner f =? 3)
                      | _ => false
                      end
                  | Panic => false
                  end
              | _ => false
              end
          | Panic => false
          end = true) as Hev by (vm_compute; reflexivity).
  destruct one_span_end as [[st w]|] eqn:Hrun; [|discriminate Hev].
  destruct st as [|[v|] [|]]; try discriminate Hev.
  apply andb_prop in Hev as [Hev Hexec].
  apply andb_prop in Hev as [Hcur%bool_decide_eq_true Hsize%Nat.ltb_lt].
  destruct (one_span_settled v w Hrun) as [Hs Hst].
  assert (of_dispatch example_stack 10 (var_span v)) as Hd.
  { intros i Hi. by eapply (state_ok_var example_stack 10 [Some v] 0). }
  destruct (clone_span_ok example_stack 10 (var_span v) (fun _ => 0%nat) 4 [] w Hd) as (w1 & H1 & Hs1 & Hl1 & Hz1).
  { eapply settled_ext; [|exact Hs]. intros k. unfold add, holds, holds_one, span_own. cbn. destruct (SpanHandles.id _); cbn; lia. }
  { unfold entered_are. by rewrite Hcur. }
  { unfold U64.MAX. lia. }
  rewrite H1 in Hexec.
  destruct (request_runs_in_its_spans example_stack 10 0 (var_span v) (var_span v) 3 (fun _ => 0%nat) 5 [] w1
    (SL := counting_laws example_stack 10) (GL := span_laws example_stack 10 example_stack_ok)
    example_stack_ok ltac:(cbn; lia) ltac:(discriminate) I Hd Hd) as (span & s' & fut & w' & Hx & Hl' & _).
  - eapply settled_ext; [|exact Hs1]. intros k. unfold add. cbn [get_own svc_own counting_laws span_laws]. lia.
  - exact Hl1.
  - cbn [get_cost svc_cost counting_laws span_laws]. split; [unfold U64.MAX; lia|lia].
  - exists v, w1, span, w'. rewrite Hx in Hexec. destruct fut as [f|]; [|done]. cbn in Hexec.
    apply andb_prop in Hexec as [->%Z.eqb_eq ->%Z.eqb_eq].
    split_and!; [done|exact H1|exact Hx|exact Hl'].
Defined.
End TowerExample.
