(* ===== verification/AttrArgs.v ===== *)
(** * AttrArgs: the arguments of [#[instrument]], [tracing-attributes/src/attr.rs]

    The parser of the arguments, on token lists, and the tokens that the parsed parts are
    written as.  The parsers of the crate [syn] for expressions, paths and literals are a
    parameter; what a parser of [syn] leaves of a group is an error at the end of the
    parse. *)

From S2P Require Import Prelude.
From S2P Require Import Str.
From S2P Require Import Levels.
From S2P Require Import MacroFields.
From S2P Require Import Macros.

Local Open Scope string_scope.
Local Open Scope list_scope.

(** The value of a string literal and of an integer literal as [u64]; the identifiers that
    [Ident::parse] refuses; the expression and the path in front of the tokens; the text of
    [Lookahead1::error]; and the tokens of an expression and the text of a literal, for
    [quote!]. *)
Class Syn := {
  lit_str : string -> option string;
  lit_int : string -> option (option Z);
  is_keyword : string -> bool;
  syn_expr : list Tok -> option (Expr * list Tok);
  syn_path : list Tok -> option (list Tok * list Tok);
  unexpected_input : list Tok -> string;
  expr_tokens : Expr -> list Tok;
  str_lit : string -> string;
}.

(** An error of the code or one of [syn]; [Stuck] is a model that ran out of fuel. *)
Inductive AttrError := Message (s : string) | SynError | Stuck.

(** [ParseStream]: the tokens that are left, and whether some group was not read to its end. *)
Record Input := { rest : list Tok; unread : bool }.
Definition advance (r : list Tok) (i : Input) : Input := {| rest := r; unread := unread i |}.

Definition Parser (A : Type) : Type := Input -> result (A * Input) AttrError.
#[global] Instance Parser_ret : MRet Parser := fun A a i => Ok (a, i).
#[global] Instance Parser_bind : MBind Parser := fun A B f p i =>
  match p i with Ok (a, i) => f a i | Err e => Err e end.

Definition fails {A} (e : AttrError) : Parser A := fun _ => Err e.
Definition at_end : Parser bool := fun i => Ok (match rest i with [] => true | _ => false end, i).
(** [peek], and a token of [parse::<T>()]. *)
Definition peek (p : Tok -> bool) : Parser bool := fun i =>
  Ok (match rest i with t :: _ => p t | [] => false end, i).
Definition token {A} (p : Tok -> option A) : Parser A := fun i =>
  match rest i with
  | t :: r => match p t with Some a => Ok (a, advance r i) | None => Err SynError end
  | [] => Err SynError
  end.
(** [let _ = input.parse::<T>();], which does not move when it fails. *)
Definition ignored {A} (p : Parser A) : Parser unit := fun i =>
  match p i with Ok (_, i) => Ok (tt, i) | Err _ => Ok (tt, i) end.
(** [parenthesized!] and [braced!], with what is parsed from the content. *)
Definition in_group {A} (d : Delim) (p : Parser A) : Parser A := fun i =>
  match rest i with
  | Group d' g :: r =>
      match d, d' with
      | Paren, Paren | Brace, Brace | Bracket, Bracket =>
          match p {| rest := g; unread := unread i |} with
          | Ok (a, i') => Ok (a, {| rest := r; unread := unread i' || match rest i' with [] => false | _ => true end |})
          | Err e => Err e
          end
      | _, _ => Err SynError
      end
  | _ => Err SynError
  end.
(** [syn::parse]: everything must be read. *)
Definition parse_all {A} (p : Parser A) (l : list Tok) : result A AttrError :=
  match p {| rest := l; unread := false |} with
  | Ok (a, i) => match unread i, rest i with false, [] => Ok a | _, _ => Err SynError end
  | Err e => Err e
  end.

Definition is_word (w : string) (t : Tok) : bool := match t with Ident s => String.eqb s w | _ => false end.
Definition is_punct (c : string) (t : Tok) : bool := match t with Punct s => String.eqb s c | _ => false end.
Definition is_brace (t : Tok) : bool := match t with Group Brace _ => true | _ => false end.
Definition is_paren (t : Tok) : bool := match t with Group Paren _ => true | _ => false end.
Definition the_word (w : string) : Parser unit := token (fun t => if is_word w t then Some tt else None).
Definition the_punct (c : string) : Parser unit := token (fun t => if is_punct c t then Some tt else None).
(** [Ident::parse_any] *)
Definition any_ident : Parser string := token (fun t => match t with Ident s => Some s | _ => None end).

(** [Punctuated<A, Token![,]>], and [parse_terminated]. *)
Record Punctuated (A : Type) := { items : list A; trailing : bool }.
Arguments items {A}. Arguments trailing {A}. Arguments Build_Punctuated {A}.
Fixpoint parse_terminated {A} (fuel : nat) (p : Parser A) : Parser (Punctuated A) :=
  match fuel with
  | O => fails Stuck
  | S fuel =>
      done ← at_end;
      if (done : bool) then mret (Build_Punctuated [] false)
      else
        a ← p;
        done ← at_end;
        if (done : bool) then mret (Build_Punctuated [a] false)
        else
          _ ← the_punct ",";
          l ← parse_terminated fuel p;
          mret (Build_Punctuated (a :: items l) (match items l with [] => true | _ => trailing l end))
  end.
(** As many values as there are tokens, at most. *)
Definition terminated {A} (p : Parser A) : Parser (Punctuated A) := fun i =>
  parse_terminated (1 + length (rest i)) p i.

(** ** The parts of the arguments *)

Inductive LitStrOrIdent := LitStr (s : string) | IdentName (s : string).

Inductive FormatMode := Default | Display | Debug.
Inductive FieldKind := KDebug | KDisplay | KValue.
Inductive FieldName := FExpr (e : Expr) | FPunctuated (k : list string).
Record Field := { name : FieldName; value : option Expr; kind : FieldKind }.
Definition Fields : Type := Punctuated Field.

Module AttrLevel.
Inductive t := Trace | Debug | Info | Warn | Error | Path (p : list Tok).
End AttrLevel.

Record EventArgs := { e_level : option AttrLevel.t; mode : FormatMode }.
Definition event_default : EventArgs := {| e_level := None; mode := Default |}.

Record InstrumentArgs := {
  level : option AttrLevel.t;
  span_name : option LitStrOrIdent;
  target : option LitStrOrIdent;
  parent : option Expr;
  follows_from : option Expr;
  skips : gset string;
  skip_all : bool;
  fields : option Fields;
  err_args : option EventArgs;
  ret_args : option EventArgs;
  parse_warnings : list string;
}.
Definition args_default : InstrumentArgs := {|
  level := None; span_name := None; target := None; parent := None; follows_from := None; skips := ∅;
  skip_all := false; fields := None; err_args := None; ret_args := None; parse_warnings := [];
|}.

Definition set_level v (a : InstrumentArgs) : InstrumentArgs :=
  Build_InstrumentArgs v (span_name a) (target a) (parent a) (follows_from a) (skips a) (skip_all a) (fields a) (err_args a) (ret_args a) (parse_warnings a).
Definition set_name v (a : InstrumentArgs) : InstrumentArgs :=
  Build_InstrumentArgs (level a) v (target a) (parent a) (follows_from a) (skips a) (skip_all a) (fields a) (err_args a) (ret_args a) (parse_warnings a).
Definition set_target v (a : InstrumentArgs) : InstrumentArgs :=
  Build_InstrumentArgs (level a) (span_name a) v (parent a) (follows_from a) (skips a) (skip_all a) (fields a) (err_args a) (ret_args a) (parse_warnings a).
Definition set_parent v (a : InstrumentArgs) : InstrumentArgs :=
  Build_InstrumentArgs (level a) (span_name a) (target a) v (follows_from a) (skips a) (skip_all a) (fields a) (err_args a) (ret_args a) (parse_warnings a).
Definition set_follows_from v (a : InstrumentArgs) : InstrumentArgs :=
  Build_InstrumentArgs (level a) (span_name a) (target a) (parent a) v (skips a) (skip_all a) (fields a) (err_args a) (ret_args a) (parse_warnings a).
Definition set_skips v (a : InstrumentArgs) : InstrumentArgs :=
  Build_InstrumentArgs (level a) (span_name a) (target a) (parent a) (follows_from a) v (skip_all a) (fields a) (err_args a) (ret_args a) (parse_warnings a).
Definition set_skip_all v (a : InstrumentArgs) : InstrumentArgs :=
  Build_InstrumentArgs (level a) (span_name a) (target a) (parent a) (follows_from a) (skips a) v (fields a) (err_args a) (ret_args a) (parse_warnings a).
Definition set_fields v (a : InstrumentArgs) : InstrumentArgs :=
  Build_InstrumentArgs (level a) (span_name a) (target a) (parent a) (follows_from a) (skips a) (skip_all a) v (err_args a) (ret_args a) (parse_warnings a).
Definition set_err v (a : InstrumentArgs) : InstrumentArgs :=
  Build_InstrumentArgs (level a) (span_name a) (target a) (parent a) (follows_from a) (skips a) (skip_all a) (fields a) v (ret_args a) (parse_warnings a).
Definition set_ret v (a : InstrumentArgs) : InstrumentArgs :=
  Build_InstrumentArgs (level a) (span_name a) (target a) (parent a) (follows_from a) (skips a) (skip_all a) (fields a) (err_args a) v (parse_warnings a).
Definition add_warning v (a : InstrumentArgs) : InstrumentArgs :=
  Build_InstrumentArgs (level a) (span_name a) (target a) (parent a) (follows_from a) (skips a) (skip_all a) (fields a) (err_args a) (ret_args a) (parse_warnings a ++ [v]).

Section parse.
Context {Y : Syn}.

Definition is_str (t : Tok) : bool := match t with Lit s => bool_decide (is_Some (lit_str s)) | _ => false end.
Definition is_int (t : Tok) : bool := match t with Lit s => bool_decide (is_Some (lit_int s)) | _ => false end.
Definition is_ident (t : Tok) : bool := match t with Ident s => negb (is_keyword s) | _ => false end.
Definition str_literal : Parser string := token (fun t => if is_str t then match t with Lit s => Some s | _ => None end else None).
Definition ident : Parser string := token (fun t => if is_ident t then match t with Ident s => Some s | _ => None end else None).
Definition an_expr : Parser Expr := fun i =>
  match syn_expr (rest i) with Some (e, r) => Ok (e, advance r i) | None => Err SynError end.
Definition a_path : Parser (list Tok) := fun i =>
  match syn_path (rest i) with Some (p, r) => Ok (p, advance r i) | None => Err SynError end.

(** [Parse for LitStrOrIdent], [StrArg], [ExprArg] *)
Definition lit_str_or_ident : Parser LitStrOrIdent := fun i =>
  match str_literal i with
  | Ok (s, i) => Ok (LitStr s, i)
  | Err _ => (s ← ident; mret (IdentName s)) i
  end.
Definition str_arg (kw : string) : Parser LitStrOrIdent := _ ← the_word kw; _ ← the_punct "="; lit_str_or_ident.
Definition expr_arg (kw : string) : Parser Expr := _ ← the_word kw; _ ← the_punct "="; an_expr.

(** [Parse for Level] *)
Definition dq (s : string) : string := (String (Ascii.ascii_of_nat 34) s ++ String (Ascii.ascii_of_nat 34) EmptyString)%string.
Definition level_error : AttrError :=
  Message ("unknown verbosity level, expected one of " ++ dq "trace" ++ ", " ++ dq "debug" ++ ", " ++ dq "info" ++ ", " ++
    dq "warn" ++ ", or " ++ dq "error" ++ ", or a number 1-5")%string.
Definition level_of_str (s : string) : option AttrLevel.t :=
  if eq_ignore_ascii_case s "trace" then Some AttrLevel.Trace
  else if eq_ignore_ascii_case s "debug" then Some AttrLevel.Debug
  else if eq_ignore_ascii_case s "info" then Some AttrLevel.Info
  else if eq_ignore_ascii_case s "warn" then Some AttrLevel.Warn
  else if eq_ignore_ascii_case s "error" then Some AttrLevel.Error
  else None.
Definition level_of_int (i : option Z) : option AttrLevel.t :=
  match i with
  | Some 1%Z => Some AttrLevel.Trace
  | Some 2%Z => Some AttrLevel.Debug
  | Some 3%Z => Some AttrLevel.Info
  | Some 4%Z => Some AttrLevel.Warn
  | Some 5%Z => Some AttrLevel.Error
  | _ => None
  end.
Definition or_level_error (l : option AttrLevel.t) : Parser AttrLevel.t :=
  match l with Some l => mret l | None => fails level_error end.
Definition level_parse : Parser AttrLevel.t :=
  _ ← the_word "level";
  _ ← the_punct "=";
  str ← peek is_str;
  int ← peek is_int;
  id ← peek is_ident;
  if (str : bool) then
    v ← token (fun t => match t with Lit s => lit_str s | _ => None end); or_level_error (level_of_str v)
  else if (int : bool) then
    v ← token (fun t => match t with Lit s => lit_int s | _ => None end); or_level_error (level_of_int v)
  else if (id : bool) then p ← a_path; mret (AttrLevel.Path p)
  else fails SynError.

(** [Parse for EventArgs]; nothing, as in [err] alone, is the default. *)
Definition one_event_arg (r : EventArgs) : Parser EventArgs :=
  is_level ← peek (is_word "level");
  if (is_level : bool) then
    match e_level r with
    | Some _ => fails (Message "expected only a single `level` argument")
    | None => l ← level_parse; mret {| e_level := Some l; mode := mode r |}
    end
  else
    match mode r with
    | Default =>
        id ← peek is_ident;
        if (id : bool) then
          s ← ident;
          if String.eqb s "Debug" then mret {| e_level := e_level r; mode := Debug |}
          else if String.eqb s "Display" then mret {| e_level := e_level r; mode := Display |}
          else fails (Message "unknown event formatting mode, expected either `Debug` or `Display`")
        else mret r
    | _ => fails (Message "expected only a single format argument")
    end.
Definition event_args_content : Parser EventArgs :=
  r ← one_event_arg event_default;
  done ← at_end;
  if (done : bool) then mret r
  else
    more ← peek (is_punct ",");
    if (more : bool) then _ ← the_punct ","; one_event_arg r
    else fails (Message "expected `,` or `)`").
Definition event_args : Parser EventArgs :=
  p ← peek is_paren;
  if (p : bool) then in_group Paren event_args_content else mret event_default.

(** [Parse for Skips] *)
Fixpoint no_duplicates (names : list string) (skips : gset string) : result (gset string) AttrError :=
  match names with
  | [] => Ok skips
  | name :: names =>
      if decide (name ∈ skips) then Err (Message "tried to skip the same field twice")
      else no_duplicates names ({[ name ]} ∪ skips)
  end.
Definition skips_parse : Parser (gset string) :=
  _ ← ignored (the_word "skip");
  in_group Paren (
    names ← terminated any_ident;
    match no_duplicates (items names) ∅ with Ok s => mret s | Err e => fails e end).

(** [Parse for Field] and [Fields] *)
Definition sigil (kind : FieldKind) : Parser FieldKind :=
  pct ← peek (is_punct "%");
  q ← peek (is_punct "?");
  if (pct : bool) then _ ← the_punct "%"; mret KDisplay
  else if (q : bool) then _ ← the_punct "?"; mret KDebug
  else mret kind.
Definition dotted : Parser (list string) := fun i =>
  match path (rest i) with Matched (k, r) => Ok (k, advance r i) | _ => Err SynError end.
Definition field_parse : Parser Field :=
  kind ← sigil KValue;
  brace ← peek is_brace;
  name ← (if (brace : bool) then e ← in_group Brace an_expr; mret (FExpr e) else k ← dotted; mret (FPunctuated k));
  eq ← peek (is_punct "=");
  if (eq : bool) then
    _ ← the_punct "=";
    kind ← sigil kind;
    e ← an_expr;
    mret {| name := name; value := Some e; kind := kind |}
  else mret {| name := name; value := None; kind := kind |}.
Definition fields_parse : Parser Fields :=
  _ ← ignored (the_word "fields"); in_group Paren (terminated field_parse).

(** ** [Parse for InstrumentArgs] *)

Definition only_one {A} (kw : string) : Parser A := fails (Message ("expected only a single `" ++ kw ++ "` argument")%string).
Definition either_skip {A} : Parser A := fails (Message "expected either `skip` or `skip_all` argument").
Definition some_already {A} (o : option A) : bool := match o with Some _ => true | None => false end.

(** A token tree that is not expected is skipped, with a warning. *)
Definition unexpected_tree (args : InstrumentArgs) : Parser InstrumentArgs := fun i =>
  match rest i with
  | _ :: r => Ok (add_warning (unexpected_input (rest i)) args, advance r i)
  | [] => Err SynError
  end.
(** One argument, or a comma, that begins with the token [t]. *)
Definition parse_one (t : Tok) (args : InstrumentArgs) : Parser InstrumentArgs :=
       if is_word "name" t then
         if some_already (span_name args) then only_one "name"
         else v ← str_arg "name"; mret (set_name (Some v) args)
       else if is_str t then
         if some_already (span_name args) then only_one "name"
         else v ← lit_str_or_ident; mret (set_name (Some v) args)
       else if is_word "target" t then
         if some_already (target args) then only_one "target"
         else v ← str_arg "target"; mret (set_target (Some v) args)
       else if is_word "parent" t then
         if some_already (target args) then only_one "parent"
         else v ← expr_arg "parent"; mret (set_parent (Some v) args)
       else if is_word "follows_from" t then
         if some_already (target args) then only_one "follows_from"
         else v ← expr_arg "follows_from"; mret (set_follows_from (Some v) args)
       else if is_word "level" t then
         if some_already (level args) then only_one "level"
         else v ← level_parse; mret (set_level (Some v) args)
       else if is_word "skip" t then
         if negb (bool_decide (skips args = ∅)) then only_one "skip"
         else if skip_all args then either_skip
         else v ← skips_parse; mret (set_skips v args)
       else if is_word "skip_all" t then
         if skip_all args then only_one "skip_all"
         else if negb (bool_decide (skips args = ∅)) then either_skip
         else _ ← the_word "skip_all"; mret (set_skip_all true args)
       else if is_word "fields" t then
         if some_already (fields args) then only_one "fields"
         else v ← fields_parse; mret (set_fields (Some v) args)
       else if is_word "err" t then
         _ ← ignored (the_word "err"); v ← event_args; mret (set_err (Some v) args)
       else if is_word "ret" t then
         _ ← the_word "ret"; v ← event_args; mret (set_ret (Some v) args)
       else if is_punct "," t then _ ← the_punct ","; mret args
       else unexpected_tree args.
Fixpoint parse_args (fuel : nat) (args : InstrumentArgs) : Parser InstrumentArgs :=
  match fuel with
  | O => fails Stuck
  | S fuel =>
      fun i => match rest i with
               | [] => Ok (args, i)
               | t :: _ => (args ← parse_one t args; parse_args fuel args) i
               end
  end.
(** Each turn of the loop reads a token. *)
Definition instrument_args (l : list Tok) : result InstrumentArgs AttrError :=
  parse_all (parse_args (1 + length l) args_default) l.

(** ** The tokens that the parts are written as *)

Definition join_toks {A} (toks : A -> list Tok) (sep : Tok) : list A -> list Tok :=
  fix go l := match l with [] => [] | [a] => toks a | a :: l => toks a ++ sep :: go l end.
Definition punctuated_toks {A} (toks : A -> list Tok) (p : Punctuated A) : list Tok :=
  join_toks toks (Punct ",") (items p) ++ (if trailing p then [Punct ","] else []).
(** [::a::b] *)
Definition global_path (k : list string) : list Tok := concat ((fun s => [Punct "::"; Ident s]) <$> k).

Definition LitStrOrIdent_toks (v : LitStrOrIdent) : list Tok :=
  match v with LitStr s => [Lit s] | IdentName s => [Ident s] end.
Definition level_toks (l : AttrLevel.t) : list Tok :=
  match l with
  | AttrLevel.Trace => global_path ["tracing"; "Level"; "TRACE"]
  | AttrLevel.Debug => global_path ["tracing"; "Level"; "DEBUG"]
  | AttrLevel.Info => global_path ["tracing"; "Level"; "INFO"]
  | AttrLevel.Warn => global_path ["tracing"; "Level"; "WARN"]
  | AttrLevel.Error => global_path ["tracing"; "Level"; "ERROR"]
  | AttrLevel.Path p => p
  end.
Definition kind_toks (k : FieldKind) : list Tok :=
  match k with KDebug => [Punct "?"] | KDisplay => [Punct "%"] | KValue => [] end.
Definition dotted_toks (k : list string) : list Tok := join_toks (fun s => [Ident s]) (Punct ".") k.
Definition name_toks (n : FieldName) : list Tok :=
  match n with FExpr e => [Group Brace (expr_tokens e)] | FPunctuated k => dotted_toks k end.
Definition field_toks (f : Field) : list Tok :=
  match value f with
  | Some v => name_toks (name f) ++ [Punct "="] ++ kind_toks (kind f) ++ expr_tokens v
  | None =>
      match kind f with
      | KValue => name_toks (name f) ++ [Punct "="] ++ global_path ["tracing"; "field"; "Empty"]
      | k => kind_toks k ++ name_toks (name f)
      end
  end.
Definition fields_toks (f : Fields) : list Tok := punctuated_toks field_toks f.

(** [InstrumentArgs::level], [target], [warnings]; [EventArgs::level] *)
Definition args_level (a : InstrumentArgs) : AttrLevel.t := default AttrLevel.Info (level a).
Definition args_target (a : InstrumentArgs) : list Tok :=
  match target a with
  | Some v => LitStrOrIdent_toks v
  | None => [Ident "module_path"; Punct "!"; Group Paren []]
  end.
Definition event_level (def : AttrLevel.t) (e : EventArgs) : AttrLevel.t := default def (e_level e).
Definition args_warnings (a : InstrumentArgs) : list Tok :=
  [Group Brace (concat ((fun err =>
    [Punct "#"; Group Bracket [Ident "warn"; Group Paren [Ident "deprecated"]];
     Group Brace
       ([Punct "#"; Group Bracket [Ident "deprecated"; Group Paren
           [Ident "since"; Punct "="; Lit (str_lit "not actually deprecated"); Punct ",";
            Ident "note"; Punct "="; Lit (str_lit ("found unrecognized input, " ++ err))]];
         Ident "const"; Ident "TRACING_INSTRUMENT_WARNING"; Punct ":"; Group Paren []; Punct "="; Group Paren []; Punct ";";
         Ident "let"; Ident "_"; Punct "="; Ident "TRACING_INSTRUMENT_WARNING"; Punct ";"])]) <$> parse_warnings a))].
End parse.

(** ** Every parser ends *)

(** What [syn] parses is not empty; two names that are no keywords. *)
Class SynLaws (Y : Syn) := {
  expr_eats l e r : syn_expr l = Some (e, r) -> (length r < length l)%nat;
  path_eats l p r : syn_path l = Some (p, r) -> (length r < length l)%nat;
  no_keywords : is_keyword "Debug" = false /\ is_keyword "Display" = false;
}.

Definition good {A} (p : Parser A) : Prop := forall i,
  match p i with Ok (_, i') => (length (rest i') <= length (rest i))%nat | Err e => e <> Stuck end.
Definition eats {A} (p : Parser A) : Prop := forall i,
  match p i with Ok (_, i') => (length (rest i') < length (rest i))%nat | Err e => e <> Stuck end.
Create HintDb parsing.

Section ends.
Context {Y : Syn} `{!SynLaws Y}.

Lemma eats_good {A} (p : Parser A) : eats p -> good p.
Proof. intros H i. specialize (H i). destruct (p i) as [[a i']|]; [lia|done]. Qed.
Lemma good_bind {A B} (p : Parser A) (f : A -> Parser B) : good p -> (forall a, good (f a)) -> good (p ≫= f).
Proof.
  intros Hp Hf i. specialize (Hp i). unfold mbind, Parser_bind. destruct (p i) as [[a i1]|]; [|done].
  specialize (Hf a i1). destruct (f a i1) as [[b i2]|]; [lia|done].
Qed.
Lemma eats_bind {A B} (p : Parser A) (f : A -> Parser B) : eats p -> (forall a, good (f a)) -> eats (p ≫= f).
Proof.
  intros Hp Hf i. specialize (Hp i). unfold mbind, Parser_bind. destruct (p i) as [[a i1]|]; [|done].
  specialize (Hf a i1). destruct (f a i1) as [[b i2]|]; [lia|done].
Qed.
Lemma eats_after {A B} (p : Parser A) (f : A -> Parser B) : good p -> (forall a, eats (f a)) -> eats (p ≫= f).
Proof.
  intros Hp Hf i. specialize (Hp i). unfold mbind, Parser_bind. destruct (p i) as [[a i1]|]; [|done].
  specialize (Hf a i1). destruct (f a i1) as [[b i2]|]; [lia|done].
Qed.
Lemma good_ret {A} (a : A) : good (mret a).
Proof. intros i. cbn. lia. Qed.
Lemma good_fails {A} s : good (fails (A := A) (Message s)).
Proof. done. Qed.
Lemma good_syn {A} : good (fails (A := A) SynError).
Proof. done. Qed.
Lemma eats_fails {A} s : eats (fails (A := A) (Message s)).
Proof. done. Qed.
Lemma good_at_end : good at_end.
Proof. intros i. cbn. lia. Qed.
Lemma good_peek p : good (peek p).
Proof. intros i. cbn. lia. Qed.
Lemma eats_token {A} (p : Tok -> option A) : eats (token p).
Proof. intros i. unfold token. destruct (rest i) as [|t r]; [done|]. destruct (p t); [cbn; lia|done]. Qed.
Lemma good_ignored {A} (p : Parser A) : good p -> good (ignored p).
Proof. intros H i. specialize (H i). unfold ignored. destruct (p i) as [[a i']|]; [done|lia]. Qed.
Lemma eats_group {A} d (p : Parser A) : good p -> eats (in_group d p).
Proof.
  intros H i. unfold in_group. destruct (rest i) as [|[s|c|s|d' g|e] r]; try done.
  specialize (H {| rest := g; unread := unread i |}).
  destruct d, d'; try done; destruct (p _) as [[a i']|]; cbn in *; try lia; done.
Qed.
Lemma terminated_fuel {A} (p : Parser A) n i : eats p -> (length (rest i) < n)%nat ->
  match parse_terminated n p i with Ok (_, i') => (length (rest i') <= length (rest i))%nat | Err e => e <> Stuck end.
Proof.
  intros Hp. revert i. induction n as [|n IH]; intros i Hn; [lia|].
  cbn [parse_terminated]. unfold mbind, mret, Parser_bind, Parser_ret. unfold at_end at 1. destruct (rest i) as [|t r] eqn:Hi; [by rewrite Hi|].
  pose proof (Hp i) as H. destruct (p i) as [[a i1]|]; [|done]. rewrite Hi in H. cbn in H.
  unfold at_end at 1. destruct (rest i1) as [|t1 r1] eqn:Hi1; [rewrite Hi1; cbn; lia|].
  pose proof (eats_token (fun t => if is_punct "," t then Some tt else None) i1) as H1.
  unfold the_punct. destruct (token _ i1) as [[u i2]|]; [|done]. rewrite Hi1 in H1. cbn in H1.
  cbn in H, Hn. specialize (IH i2 ltac:(lia)). destruct (parse_terminated n p i2) as [[l i3]|]; [cbn; lia|done].
Qed.
Lemma good_terminated {A} (p : Parser A) : eats p -> good (terminated p).
Proof. intros Hp i. unfold terminated. apply terminated_fuel; [done|lia]. Qed.
End ends.
#[export] Hint Resolve good_bind good_ret good_fails good_syn eats_fails good_at_end good_peek eats_token good_ignored
  eats_group good_terminated : parsing.
#[export] Hint Resolve eats_bind | 1 : parsing.
#[export] Hint Resolve eats_good | 5 : parsing.

Section parsers_end.
Context {Y : Syn} `{!SynLaws Y}.

Lemma eats_expr : eats an_expr.
Proof. intros i. unfold an_expr. destruct (syn_expr _) as [[e r]|] eqn:He; [by apply expr_eats in He|done]. Qed.
Lemma eats_path : eats a_path.
Proof. intros i. unfold a_path. destruct (syn_path _) as [[e r]|] eqn:He; [by apply path_eats in He|done]. Qed.
Lemma eats_dotted : eats dotted.
Proof.
  intros i. unfold dotted. destruct (path (rest i)) as [[k r]| |] eqn:Hk; [|done..]. by apply path_shorter in Hk.
Qed.
#[local] Hint Resolve eats_expr eats_path eats_dotted : parsing.

Lemma eats_lit_str_or_ident : eats lit_str_or_ident.
Proof.
  intros i. unfold lit_str_or_ident.
  pose proof (eats_token (fun t => if is_str t then match t with Lit s => Some s | _ => None end else None) i) as H.
  unfold str_literal. destruct (token _ i) as [[s i']|]; [done|].
  assert (eats (s ← ident; mret (IdentName s))) as Hid by (unfold ident; eauto with parsing). apply Hid.
Qed.
#[local] Hint Resolve eats_lit_str_or_ident : parsing.
Lemma eats_str_arg kw : eats (str_arg kw).
Proof. unfold str_arg, the_word, the_punct. eauto 8 with parsing. Qed.
Lemma eats_expr_arg kw : eats (expr_arg kw).
Proof. unfold expr_arg, the_word, the_punct. eauto 8 with parsing. Qed.
Lemma good_or_level_error o : good (or_level_error o).
Proof. destruct o; unfold or_level_error, level_error; auto with parsing. Qed.
#[local] Hint Resolve eats_str_arg eats_expr_arg good_or_level_error : parsing.
Lemma eats_level : eats level_parse.
Proof.
  unfold level_parse, the_word, the_punct. apply eats_bind; [auto with parsing|]. intros _.
  apply good_bind; [auto with parsing|]. intros _. repeat (apply good_bind; [auto with parsing|]; intros ?).
  repeat case_match; eauto with parsing.
Qed.
#[local] Hint Resolve eats_level : parsing.
Lemma good_event_arg r : good (one_event_arg r).
Proof.
  unfold one_event_arg. apply good_bind; [auto with parsing|]. intros [].
  - destruct (e_level r); eauto with parsing.
  - destruct (mode r); [|auto with parsing..]. apply good_bind; [auto with parsing|]. intros []; [|auto with parsing].
    apply good_bind; [unfold ident; auto with parsing|]. intros s. repeat case_match; auto with parsing.
Qed.
#[local] Hint Resolve good_event_arg : parsing.
Lemma good_event_args : good event_args.
Proof.
  unfold event_args. apply good_bind; [auto with parsing|]. intros []; [|auto with parsing].
  apply eats_good, eats_group. unfold event_args_content, the_punct. apply good_bind; [auto with parsing|]. intros r.
  apply good_bind; [auto with parsing|]. intros []; [auto with parsing|].
  apply good_bind; [auto with parsing|]. intros []; eauto with parsing.
Qed.
Lemma good_no_duplicates names s :
  good (match no_duplicates names s with Ok s => mret s | Err e => fails e end).
Proof. revert s. induction names as [|n names IH]; intros s; cbn; [auto with parsing|]. case_decide; [auto with parsing|done]. Qed.
Lemma eats_skips : eats skips_parse.
Proof.
  unfold skips_parse, the_word, any_ident. apply eats_after; [auto with parsing|]. intros _.
  apply eats_group, good_bind; [auto with parsing|]. intros names. apply good_no_duplicates.
Qed.
Lemma good_sigil k : good (sigil k).
Proof. unfold sigil, the_punct. repeat (apply good_bind; [auto with parsing|]; intros []); eauto with parsing. Qed.
#[local] Hint Resolve good_event_args eats_skips good_sigil : parsing.
Lemma eats_field : eats field_parse.
Proof.
  unfold field_parse. apply eats_after; [auto with parsing|]. intros k. apply eats_after; [auto with parsing|]. intros b.
  apply eats_bind; [destruct b; eauto with parsing|]. intros n. apply good_bind; [auto with parsing|].
  intros []; unfold the_punct; eauto 10 with parsing.
Qed.
#[local] Hint Resolve eats_field : parsing.
Lemma eats_fields : eats fields_parse.
Proof. unfold fields_parse, the_word. apply eats_after; auto with parsing. Qed.
#[local] Hint Resolve eats_fields : parsing.

Lemma one_eats t args i r :
  rest i = t :: r ->
  match parse_one t args i with Ok (_, i') => (length (rest i') < length (rest i))%nat | Err e => e <> Stuck end.
Proof.
  intros Hi. unfold parse_one, only_one, either_skip.
  repeat match goal with |- context [if ?b then _ else _] => destruct b eqn:? end;
    try (match goal with |- match ?p i with _ => _ end => enough (eats p) as H by apply (H i) end;
         unfold the_word, the_punct; eauto 6 with parsing; fail).
  - assert ((_ ← ignored (the_word "err"); v ← event_args; mret (set_err (Some v) args)) i =
      (v ← event_args; mret (set_err (Some v) args)) (advance r i)) as ->.
    { unfold mbind at 1, Parser_bind at 1, ignored, the_word, token. rewrite Hi.
      match goal with H : is_word "err" t = true |- _ => rewrite H end. done. }
    assert (good (v ← event_args; mret (set_err (Some v) args))) as H by auto with parsing.
    specialize (H (advance r i)).
    destruct ((v ← event_args; mret (set_err (Some v) args)) (advance r i)) as [[a i']|]; [|done]. rewrite Hi. cbn in *. lia.
  - unfold unexpected_tree. rewrite Hi. cbn. lia.
Qed.
(** The parse of the arguments ends, whatever the tokens. *)
Lemma args_end n args i : (length (rest i) < n)%nat -> parse_args n args i <> Err Stuck.
Proof.
  revert args i. induction n as [|n IH]; intros args i Hn; [lia|]. cbn [parse_args].
  destruct (rest i) as [|t r] eqn:Hi; [done|]. pose proof (one_eats t args i r Hi) as H.
  unfold mbind, Parser_bind. destruct (parse_one t args i) as [[a i']|e]; [|congruence].
  apply IH. rewrite Hi in H. cbn in H, Hn. lia.
Qed.
Lemma instrument_args_end l : instrument_args l <> Err Stuck.
Proof.
  unfold instrument_args, parse_all. pose proof (args_end (1 + length l) args_default {| rest := l; unread := false |}) as H.
  destruct (parse_args _ _ _) as [[a i]|e]; [by repeat case_match|].
  intros [= ->]. apply H; [cbn; lia|done].
Qed.
End parsers_end.

(** ** The syntax of the arguments *)

(** What stands after an argument. *)
Definition ends (r : list Tok) : Prop := r = [] \/ head r = Some comma.

Section syntax.
Context {Y : Syn}.

(** The tokens of an expression and of a path, up to the end or the next comma. *)
Definition reads (u : list Tok) (e : Expr) : Prop :=
  (match u with Punct c :: _ => c <> "%" /\ c <> "?" | [] => False | _ => True end) /\
  forall r, ends r -> syn_expr (u ++ r) = Some (e, r).

Inductive LevelForm := ByStr (s : string) | ByInt (s : string) | ByPath (p : list Tok).
Definition level_form_toks (f : LevelForm) : list Tok :=
  Ident "level" :: Punct "=" :: match f with ByStr s | ByInt s => [Lit s] | ByPath p => p end.
Definition level_form_ok (f : LevelForm) (l : AttrLevel.t) : Prop :=
  match f with
  | ByStr s => exists v, lit_str s = Some v /\ level_of_str v = Some l
  | ByInt s => lit_str s = None /\ exists i, lit_int s = Some i /\ level_of_int i = Some l
  | ByPath p => l = AttrLevel.Path p /\ (exists s q, p = Ident s :: q /\ is_keyword s = false) /\
      forall r, ends r -> syn_path (p ++ r) = Some (p, r)
  end.

Definition lit_ok (v : LitStrOrIdent) : Prop :=
  match v with LitStr s => is_Some (lit_str s) | IdentName s => is_keyword s = false end.

(** A field: sigils before the name and before the value. *)
Record FieldSrc := { fs_sigil : FieldKind; fs_name : FieldName; fs_braced : list Tok; fs_value : option (FieldKind * list Tok * Expr) }.
Definition src_toks (f : FieldSrc) : list Tok :=
  kind_toks (fs_sigil f) ++
  match fs_name f with FExpr _ => [Group Brace (fs_braced f)] | FPunctuated k => dotted_toks k end ++
  match fs_value f with Some (k, u, _) => Punct "=" :: kind_toks k ++ u | None => [] end.
Definition src_field (f : FieldSrc) : Field := {|
  name := fs_name f;
  value := match fs_value f with Some (_, _, e) => Some e | None => None end;
  kind := match fs_value f with Some (KDebug, _, _) => KDebug | Some (KDisplay, _, _) => KDisplay | _ => fs_sigil f end;
|}.
Definition src_ok (f : FieldSrc) : Prop :=
  match fs_name f with FExpr e => reads (fs_braced f) e | FPunctuated k => k <> [] end /\
  match fs_value f with Some (_, u, e) => reads u e | None => True end.

(** [err], [err(level = .., Debug)] *)
Inductive EventSrc := EMode (m : FormatMode) | ELevel (f : LevelForm) (l : AttrLevel.t).
Definition event_src_toks (e : EventSrc) : list Tok :=
  match e with
  | EMode Default => []
  | EMode Display => [Ident "Display"]
  | EMode Debug => [Ident "Debug"]
  | ELevel f _ => level_form_toks f
  end.
Definition event_src_ok (l : list EventSrc) : Prop :=
  (forall f v, ELevel f v ∈ l -> level_form_ok f v) /\
  match l with
  | [] => True
  | [EMode m] => m <> Default
  | [ELevel _ _] => True
  | [ELevel _ _; EMode m] | [EMode m; ELevel _ _] => m <> Default
  | _ => False
  end.
Definition event_src_args (l : list EventSrc) : EventArgs := {|
  e_level := head (omap (fun e => match e with ELevel _ v => Some v | EMode _ => None end) l);
  mode := default Default (head (omap (fun e => match e with EMode m => Some m | ELevel _ _ => None end) l));
|}.
Definition event_toks (o : option (list EventSrc)) : list Tok :=
  match o with Some l => [Group Paren (join_toks event_src_toks comma l)] | None => [] end.
Definition event_ok (o : option (list EventSrc)) : Prop := match o with Some l => event_src_ok l | None => True end.
Definition event_of (o : option (list EventSrc)) : EventArgs := match o with Some l => event_src_args l | None => event_default end.

Inductive Item :=
  | IName (v : LitStrOrIdent)
  | INameLit (s : string)
  | ITarget (v : LitStrOrIdent)
  | IParent (u : list Tok) (e : Expr)
  | IFollows (u : list Tok) (e : Expr)
  | ILevel (f : LevelForm) (l : AttrLevel.t)
  | ISkip (names : Punctuated string)
  | ISkipAll
  | IFields (fs : Punctuated FieldSrc)
  | IErr (o : option (list EventSrc))
  | IRet (o : option (list EventSrc)).
Definition item_toks (it : Item) : list Tok :=
  match it with
  | IName v => Ident "name" :: Punct "=" :: LitStrOrIdent_toks v
  | INameLit s => [Lit s]
  | ITarget v => Ident "target" :: Punct "=" :: LitStrOrIdent_toks v
  | IParent u _ => Ident "parent" :: Punct "=" :: u
  | IFollows u _ => Ident "follows_from" :: Punct "=" :: u
  | ILevel f _ => level_form_toks f
  | ISkip names => [Ident "skip"; Group Paren (punctuated_toks (fun s => [Ident s]) names)]
  | ISkipAll => [Ident "skip_all"]
  | IFields fs => [Ident "fields"; Group Paren (punctuated_toks src_toks fs)]
  | IErr o => Ident "err" :: event_toks o
  | IRet o => Ident "ret" :: event_toks o
  end.
(** A list with a comma at its end has an element before it. *)
Definition punctuated_ok {A} (p : Punctuated A) : Prop := trailing p = true -> items p <> [].
Definition item_ok (it : Item) : Prop :=
  match it with
  | IName v | ITarget v => lit_ok v
  | INameLit s => is_Some (lit_str s)
  | IParent u e | IFollows u e => reads u e
  | ILevel f l => level_form_ok f l
  | ISkip names => punctuated_ok names /\ NoDup (items names)
  | ISkipAll => True
  | IFields fs => punctuated_ok fs /\ Forall src_ok (items fs)
  | IErr o | IRet o => event_ok o
  end.

(** The arguments that are no two of the same key, and no target before a [parent] or a
    [follows_from]. *)
Inductive Key := KName | KTarget | KParent | KFollows | KLevel | KSkip | KFields | KErr | KRet.
#[global] Instance Key_eq_dec : EqDecision Key.
Proof. solve_decision. Defined.
Definition item_key (it : Item) : Key :=
  match it with
  | IName _ | INameLit _ => KName
  | ITarget _ => KTarget
  | IParent _ _ => KParent
  | IFollows _ _ => KFollows
  | ILevel _ _ => KLevel
  | ISkip _ | ISkipAll => KSkip
  | IFields _ => KFields
  | IErr _ => KErr
  | IRet _ => KRet
  end.
Fixpoint target_last (its : list Item) : Prop :=
  match its with
  | [] => True
  | it :: its => (item_key it = KTarget -> Forall (fun it => item_key it <> KParent /\ item_key it <> KFollows) its) /\ target_last its
  end.

(** What the arguments say, whatever their order. *)
Definition the {A} (f : Item -> option A) (its : list Item) : option A := head (omap f its).
Definition args_of (its : list Item) : InstrumentArgs := {|
  level := the (fun it => match it with ILevel _ l => Some l | _ => None end) its;
  span_name := the (fun it => match it with IName v => Some v | INameLit s => Some (LitStr s) | _ => None end) its;
  target := the (fun it => match it with ITarget v => Some v | _ => None end) its;
  parent := the (fun it => match it with IParent _ e => Some e | _ => None end) its;
  follows_from := the (fun it => match it with IFollows _ e => Some e | _ => None end) its;
  skips := default ∅ (the (fun it => match it with ISkip names => Some (list_to_set (items names)) | _ => None end) its);
  skip_all := existsb (fun it => match it with ISkipAll => true | _ => false end) its;
  fields := the (fun it => match it with
                           | IFields fs => Some (Build_Punctuated (src_field <$> items fs) (trailing fs))
                           | _ => None end) its;
  err_args := the (fun it => match it with IErr o => Some (event_of o) | _ => None end) its;
  ret_args := the (fun it => match it with IRet o => Some (event_of o) | _ => None end) its;
  parse_warnings := [];
|}.
End syntax.

(** ** Reading the syntax *)

(** Comparisons of known strings. *)
Ltac eqbs := repeat match goal with
  | |- context [String.eqb ?x ?y] =>
      let b := eval vm_compute in (String.eqb x y) in
      match b with true => change (String.eqb x y) with true | false => change (String.eqb x y) with false end;
      cbv beta iota
  end.

Section reading.
Context {Y : Syn} `{!SynLaws Y}.
#[local] Arguments String.eqb : simpl never.
Abbreviation inp l u := {| rest := l; unread := u |}.
Ltac run := unfold mbind, mret, Parser_bind, Parser_ret.

Lemma word_read w r u : the_word w (inp (Ident w :: r) u) = Ok (tt, inp r u).
Proof. unfold the_word, token. cbn. by rewrite String.eqb_refl. Qed.
Lemma punct_read c r u : the_punct c (inp (Punct c :: r) u) = Ok (tt, inp r u).
Proof. unfold the_punct, token. cbn. by rewrite String.eqb_refl. Qed.
Lemma lit_read v r u : lit_ok v -> lit_str_or_ident (inp (LitStrOrIdent_toks v ++ r) u) = Ok (v, inp r u).
Proof.
  intros Hv. unfold lit_str_or_ident, str_literal, ident, token. destruct v as [s|s]; cbn in *.
  - by rewrite bool_decide_true.
  - run. cbn. by rewrite Hv.
Qed.
Lemma str_arg_read kw v r u : lit_ok v -> str_arg kw (inp (Ident kw :: Punct "=" :: LitStrOrIdent_toks v ++ r) u) = Ok (v, inp r u).
Proof. intros Hv. unfold str_arg. run. by rewrite word_read, punct_read, lit_read. Qed.
Lemma expr_read w e r u : reads w e -> ends r -> an_expr (inp (w ++ r) u) = Ok (e, inp r u).
Proof. intros [_ H] Hr. unfold an_expr. cbn. by rewrite H. Qed.
Lemma expr_arg_read kw w e r u : reads w e -> ends r ->
  expr_arg kw (inp (Ident kw :: Punct "=" :: w ++ r) u) = Ok (e, inp r u).
Proof. intros H Hr. unfold expr_arg. run. by rewrite word_read, punct_read, (expr_read w e). Qed.
Lemma level_read f l r u : level_form_ok f l -> ends r -> level_parse (inp (level_form_toks f ++ r) u) = Ok (l, inp r u).
Proof.
  intros Hf Hr. unfold level_parse, level_form_toks. run. cbn [app]. rewrite word_read, punct_read.
  destruct f as [s|s|p]; cbn [app level_form_ok peek rest is_str is_int is_ident] in *.
  - destruct Hf as (v & Hv & Hl). rewrite bool_decide_true by (rewrite Hv; eauto). unfold token. cbn. by rewrite Hv, Hl.
  - destruct Hf as (Hs & i & Hi & Hl). rewrite bool_decide_false by (rewrite Hs; by intros [? ?]).
    rewrite bool_decide_true by (rewrite Hi; eauto). unfold token. cbn. by rewrite Hi, Hl.
  - destruct Hf as (-> & (s & q & -> & Hs) & Hp). cbn [app]. unfold peek. cbn [rest is_str is_int is_ident].
    rewrite Hs. cbn [negb]. unfold a_path. cbn [rest].
    change (Ident s :: q ++ r) with ((Ident s :: q) ++ r). by rewrite Hp.
Qed.

Section terminated.
Context {A B} (p : Parser B) (toks : A -> list Tok) (f : A -> B) (ok : A -> Prop).
Hypothesis (Hne : forall a, ok a -> toks a <> []) (Hp : forall a r u, ok a -> ends r -> p (inp (toks a ++ r) u) = Ok (f a, inp r u)).
Lemma terminated_reads l t n u :
  Forall ok l -> (t = true -> l <> []) -> (length (punctuated_toks toks (Build_Punctuated l t)) < n)%nat ->
  parse_terminated n p (inp (punctuated_toks toks (Build_Punctuated l t)) u) = Ok (Build_Punctuated (f <$> l) t, inp [] u).
Proof using Hne Hp.
  unfold punctuated_toks. cbn [items trailing]. revert n u. induction l as [|a l IH]; intros n u Hl Ht Hn.
  { destruct t; [by destruct Ht|]. destruct n; [lia|]. done. }
  apply Forall_cons in Hl as [Ha Hl]. destruct n as [|n]; [lia|]. cbn [parse_terminated].
  assert (forall g, at_end (inp (toks a ++ g) u) = Ok (false, inp (toks a ++ g) u)) as Hend.
  { intros g. unfold at_end. cbn. pose proof (Hne a Ha). by destruct (toks a). }
  unfold mbind, mret, Parser_bind, Parser_ret. destruct l as [|b l].
  - cbn [join_toks fmap list_fmap]. rewrite Hend, Hp by (done || (destruct t; [by right|by left])). destruct t; [|done].
    unfold at_end at 1. cbn [rest]. rewrite punct_read. destruct n as [|n]; [|done].
    cbn [join_toks] in Hn. rewrite length_app in Hn. cbn in Hn. lia.
  - change (join_toks toks (Punct ",") (a :: b :: l)) with (toks a ++ comma :: join_toks toks (Punct ",") (b :: l)) in *.
    rewrite <- (assoc_L (++)) in *. cbn [app] in *. rewrite Hend, Hp by (done || by right).
    unfold at_end at 1. cbn [rest]. rewrite punct_read, IH; [done..|]. rewrite length_app in Hn. cbn [length] in Hn. lia.
Qed.
Lemma terminated_read (P : Punctuated A) u : Forall ok (items P) -> punctuated_ok P ->
  terminated p (inp (punctuated_toks toks P) u) = Ok (Build_Punctuated (f <$> items P) (trailing P), inp [] u).
Proof using Hne Hp. destruct P as [l t]. intros Hl Ht. unfold terminated. apply terminated_reads; [done..|cbn; lia]. Qed.
End terminated.

Lemma group_read {A} (p : Parser A) a g r u : p (inp g u) = Ok (a, inp [] u) -> in_group Paren p (inp (Group Paren g :: r) u) = Ok (a, inp r u).
Proof. intros H. unfold in_group. cbn. rewrite H. cbn. by rewrite orb_false_r. Qed.
Lemma brace_read {A} (p : Parser A) a g r u : p (inp g u) = Ok (a, inp [] u) -> in_group Brace p (inp (Group Brace g :: r) u) = Ok (a, inp r u).
Proof. intros H. unfold in_group. cbn. rewrite H. cbn. by rewrite orb_false_r. Qed.

Lemma no_duplicates_ok names s : NoDup names -> (forall n, n ∈ names -> n ∉ s) -> no_duplicates names s = Ok (list_to_set names ∪ s).
Proof.
  revert s. induction names as [|n names IH]; intros s Hn Hs; cbn.
  { f_equal. set_solver. }
  apply NoDup_cons in Hn as [Hn Hnd]. rewrite decide_False by (apply Hs; set_solver).
  rewrite IH; [f_equal; set_solver|done|]. intros m Hm. set_solver.
Qed.
Lemma skips_read names r u : punctuated_ok names -> NoDup (items names) ->
  skips_parse (inp (Ident "skip" :: Group Paren (punctuated_toks (fun s => [Ident s]) names) :: r) u) =
  Ok (list_to_set (items names), inp r u).
Proof.
  intros Hp Hn. unfold skips_parse, ignored. run. rewrite word_read. apply group_read.
  rewrite (terminated_read any_ident (fun s => [Ident s]) (fun s => s) (fun _ => True));
    [|done|done|by apply Forall_true|done]. cbn [items].
  rewrite list_fmap_id, no_duplicates_ok by (done || set_solver). do 2 f_equal. set_solver.
Qed.

Lemma sigil_read k0 k w r u : match w with Punct c :: _ => c <> "%" /\ c <> "?" | [] => False | _ => True end ->
  sigil k0 (inp (kind_toks k ++ w ++ r) u) = Ok (match k with KValue => k0 | k => k end, inp (w ++ r) u).
Proof.
  intros Hw. unfold sigil, peek. run. destruct k; cbn [kind_toks app rest is_punct].
  - eqbs. by rewrite punct_read.
  - eqbs. by rewrite punct_read.
  - destruct w as [|[s|c|s|d g|e] w]; try done. destruct Hw as [H1 H2]. cbn [app is_punct].
    by rewrite (proj2 (String.eqb_neq c "%")), (proj2 (String.eqb_neq c "?")).
Qed.
Lemma path_dotted k r : k <> [] -> match r with Punct c :: _ => c <> "." | _ => True end ->
  path (dotted_toks k ++ r) = Matched (k, r).
Proof.
  intros Hk Hr. induction k as [|s k IH]; [done|]. destruct k as [|s' k].
  - cbn. destruct r as [|[s'|c|s'|d g|e] r]; try done. by rewrite (proj2 (String.eqb_neq c ".")).
  - change (dotted_toks (s :: s' :: k)) with (Ident s :: Punct "." :: dotted_toks (s' :: k)).
    cbn [app path]. rewrite String.eqb_refl. by rewrite IH.
Qed.
Lemma dotted_read k r u : k <> [] -> match r with Punct c :: _ => c <> "." | _ => True end ->
  dotted (inp (dotted_toks k ++ r) u) = Ok (k, inp r u).
Proof. intros Hk Hr. unfold dotted. cbn [rest]. by rewrite path_dotted. Qed.
Lemma src_nonempty f : src_ok f -> src_toks f <> [].
Proof.
  intros [Hn _]. unfold src_toks. destruct (kind_toks (fs_sigil f)); [|done]. destruct (fs_name f) as [e|k]; [done|].
  destruct k as [|s [|s' k]]; done.
Qed.
Lemma field_read f r u : src_ok f -> ends r -> field_parse (inp (src_toks f ++ r) u) = Ok (src_field f, inp r u).
Proof.
  intros [Hn Hv] Hr. unfold field_parse, src_toks. rewrite <- !(assoc_L (++)).
  set (name := match fs_name f with FExpr _ => _ | FPunctuated k => _ end).
  set (val := match fs_value f with Some _ => _ | None => [] end).
  assert (sigil KValue (inp (kind_toks (fs_sigil f) ++ name ++ val ++ r) u) = Ok (fs_sigil f, inp (name ++ val ++ r) u)) as Hs.
  { rewrite sigil_read; [by destruct (fs_sigil f)|]. subst name. destruct (fs_name f) as [e|k]; [done|].
    destruct k as [|s [|s' k]]; done. }
  unfold mbind at 1, Parser_bind at 1. rewrite Hs.
  assert (match val ++ r with Punct c :: _ => c <> "." | _ => True end) as Hdot.
  { subst val. destruct (fs_value f) as [[[k w] e]|]; [done|]. destruct Hr as [->|Hr]; [done|].
    destruct r as [|t r]; [done|]. by injection Hr as ->. }
  run. assert (peek is_brace (inp (name ++ val ++ r) u) =
    Ok (match fs_name f with FExpr _ => true | FPunctuated _ => false end, inp (name ++ val ++ r) u)) as ->.
  { unfold peek. subst name. cbn [rest]. destruct (fs_name f) as [e|k]; [done|]. destruct k as [|s [|s' k]]; done. }
  assert ((if match fs_name f with FExpr _ => true | FPunctuated _ => false end
           then e ← in_group Brace an_expr; mret (FExpr e) else k ← dotted; mret (FPunctuated k)) (inp (name ++ val ++ r) u) =
    Ok (fs_name f, inp (val ++ r) u)) as Hname.
  { subst name. run. destruct (fs_name f) as [e|k]; cbn [app].
    - rewrite (brace_read _ e); [done|]. rewrite <- (app_nil_r (fs_braced f)). apply expr_read; [done|by left].
    - by rewrite dotted_read. }
  unfold mbind, mret, Parser_bind, Parser_ret in Hname. rewrite Hname. subst val.
  destruct (fs_value f) as [[[k w] e]|] eqn:Hval; cbn [app].
  - unfold peek. cbn [rest is_punct]. eqbs. rewrite punct_read.
    rewrite <- (assoc_L (++)), sigil_read by apply Hv. rewrite (expr_read w e) by done.
    unfold src_field. rewrite Hval. by destruct k.
  - assert (peek (is_punct "=") (inp r u) = Ok (false, inp r u)) as ->.
    { destruct Hr as [->|Hr]; [done|]. destruct r as [|t r]; [done|]. by injection Hr as ->. }
    unfold src_field. by rewrite Hval.
Qed.
Lemma fields_read fs r u : punctuated_ok fs -> Forall src_ok (items fs) ->
  fields_parse (inp (Ident "fields" :: Group Paren (punctuated_toks src_toks fs) :: r) u) =
  Ok (Build_Punctuated (src_field <$> items fs) (trailing fs), inp r u).
Proof.
  intros Hp Hf. unfold fields_parse, ignored. run. rewrite word_read. apply group_read.
  by apply (terminated_read field_parse src_toks src_field src_ok src_nonempty field_read).
Qed.

(** *** [err] and [ret] *)

Lemma mode_read m e r u : m <> Default -> mode e = Default ->
  one_event_arg e (inp (event_src_toks (EMode m) ++ r) u) = Ok ({| e_level := e_level e; mode := m |}, inp r u).
Proof.
  intros Hm He. destruct no_keywords as [H1 H2]. unfold one_event_arg, peek, ident, token. run.
  destruct m; [done|..]; cbn [event_src_toks app rest is_word is_ident]; eqbs; rewrite He; cbv beta iota; cbn [rest is_ident];
    rewrite ?H1, ?H2; cbn [negb]; cbv beta iota; cbn [rest is_ident]; rewrite ?H1, ?H2; cbn [negb]; cbv beta iota; eqbs; done.
Qed.
Lemma event_level_read f l e r u : level_form_ok f l -> ends r -> e_level e = None ->
  one_event_arg e (inp (level_form_toks f ++ r) u) = Ok ({| e_level := Some l; mode := mode e |}, inp r u).
Proof.
  intros Hf Hr He. unfold one_event_arg. unfold mbind at 1, Parser_bind at 1.
  change (peek (is_word "level") (inp (level_form_toks f ++ r) u)) with (Ok (E := AttrError) (true, inp (level_form_toks f ++ r) u)).
  cbv beta iota. rewrite He. run. by rewrite (level_read f l).
Qed.
Lemma event_content_read l u : event_src_ok l ->
  event_args_content (inp (join_toks event_src_toks comma l) u) = Ok (event_src_args l, inp [] u).
Proof.
  intros [Hlev Hl]. unfold event_args_content. unfold mbind at 1, Parser_bind at 1.
  destruct l as [|[m1|f1 v1] [|[m2|f2 v2] [|? ?]]]; try done; cbn [join_toks].
  - rewrite <- (app_nil_r (event_src_toks _)), mode_read by done. done.
  - rewrite mode_read by done. unfold at_end, peek. run. cbn [rest is_punct].
    eqbs. rewrite punct_read.
    rewrite <- (app_nil_r (event_src_toks _)). cbn [event_src_toks].
    rewrite (event_level_read f2 v2); [done|apply Hlev; set_solver|by left|done].
  - rewrite <- (app_nil_r (event_src_toks _)). cbn [event_src_toks].
    rewrite (event_level_read f1 v1); [done|apply Hlev; set_solver|by left|done].
  - cbn [event_src_toks]. rewrite (event_level_read f1 v1); [|apply Hlev; set_solver|by right|done].
    unfold at_end, peek. run. cbn [rest is_punct]. eqbs. rewrite punct_read.
    change (match m2 with Default => [] | Display => [Ident "Display"] | Debug => [Ident "Debug"] end) with (event_src_toks (EMode m2)).
    rewrite <- (app_nil_r (event_src_toks _)). by rewrite mode_read.
Qed.
Lemma event_read o r u : event_ok o -> ends r -> event_args (inp (event_toks o ++ r) u) = Ok (event_of o, inp r u).
Proof.
  intros Ho Hr. unfold event_args. run. destruct o as [l|]; cbn [event_toks app].
  - cbn [peek rest is_paren]. unfold peek. cbn [rest is_paren]. apply group_read. by apply event_content_read.
  - destruct Hr as [->|Hr]; [done|]. destruct r as [|t r]; [done|]. by injection Hr as ->.
Qed.

(** *** One argument *)

(** The argument is not refused, and what it sets. *)
Definition fresh (it : Item) (a : InstrumentArgs) : Prop :=
  match it with
  | IName _ | INameLit _ => span_name a = None
  | ITarget _ | IParent _ _ | IFollows _ _ => target a = None
  | ILevel _ _ => level a = None
  | ISkip _ | ISkipAll => skips a = ∅ /\ skip_all a = false
  | IFields _ => fields a = None
  | IErr _ | IRet _ => True
  end.
Definition set_item (it : Item) : InstrumentArgs -> InstrumentArgs :=
  match it with
  | IName v => set_name (Some v)
  | INameLit s => set_name (Some (LitStr s))
  | ITarget v => set_target (Some v)
  | IParent _ e => set_parent (Some e)
  | IFollows _ e => set_follows_from (Some e)
  | ILevel _ l => set_level (Some l)
  | ISkip names => set_skips (list_to_set (items names))
  | ISkipAll => set_skip_all true
  | IFields fs => set_fields (Some (Build_Punctuated (src_field <$> items fs) (trailing fs)))
  | IErr o => set_err (Some (event_of o))
  | IRet o => set_ret (Some (event_of o))
  end.
Lemma one_read it a r u : item_ok it -> fresh it a -> ends r -> exists t q, item_toks it = t :: q /\
  parse_one t a (inp (item_toks it ++ r) u) = Ok (set_item it a, inp r u).
Proof.
  intros Hok Hf Hr. destruct it as [v|s|v|w e|w e|f l|names| |fs|o|o]; cbn [item_toks item_ok fresh app set_item] in *;
    (eexists _, _; split; [reflexivity|]); unfold parse_one; cbn [is_word is_str]; eqbs.
  - rewrite Hf. cbn [some_already]. run. by rewrite str_arg_read.
  - rewrite bool_decide_true, Hf by done. cbn [some_already]. run. change (Lit s :: r) with (LitStrOrIdent_toks (LitStr s) ++ r). by rewrite lit_read.
  - rewrite Hf. cbn [some_already]. run. by rewrite str_arg_read.
  - rewrite Hf. cbn [some_already]. run. by rewrite (expr_arg_read _ w e).
  - rewrite Hf. cbn [some_already]. run. by rewrite (expr_arg_read _ w e).
  - rewrite Hf. cbn [some_already]. run.
    change (Ident "level" :: Punct "=" :: ?x ++ r) with (level_form_toks f ++ r). by rewrite (level_read f l).
  - destruct Hf as [Hs Ha], Hok. rewrite bool_decide_true, Ha by done. cbn [negb]. run. by rewrite skips_read.
  - destruct Hf as [Hs Ha]. rewrite bool_decide_true, Ha by done. cbn [negb]. run. by rewrite word_read.
  - destruct Hok. rewrite Hf. cbn [some_already]. run. by rewrite fields_read.
  - unfold ignored. run. by rewrite word_read, event_read.
  - run. by rewrite word_read, event_read.
Qed.
End reading.

(** ** All arguments *)

Section all.
Context {Y : Syn} `{!SynLaws Y}.

Lemma the_app {A} (f : Item -> option A) pre it :
  the f (pre ++ [it]) = match the f pre with Some a => Some a | None => f it end.
Proof.
  unfold the. rewrite omap_app. destruct (omap f pre); [|done]. cbn. by destruct (f it).
Qed.
Lemma the_none {A} (f : Item -> option A) k pre :
  (forall it, f it <> None -> item_key it = k) -> k ∉ item_key <$> pre -> the f pre = None.
Proof.
  intros Hf Hk. unfold the. induction pre as [|it pre IH]; [done|]. cbn in *. apply not_elem_of_cons in Hk as [H1 H2].
  destruct (f it) eqn:Hi; [|by apply IH]. exfalso. apply H1. symmetry. apply Hf. by rewrite Hi.
Qed.
Lemma skip_all_none pre : KSkip ∉ item_key <$> pre ->
  existsb (fun it => match it with ISkipAll => true | _ => false end) pre = false.
Proof.
  induction pre as [|it pre IH]; intros Hk; [done|]. cbn in *. apply not_elem_of_cons in Hk as [H1 H2].
  rewrite IH by done. by destruct it.
Qed.

Lemma or_none {A} (o : option A) : match o with Some a => Some a | None => None end = o.
Proof. by destruct o. Qed.

Ltac none k := (apply (the_none _ k); [by intros []|done]).
Lemma fresh_args it pre : item_key it ∉ item_key <$> pre ->
  (item_key it = KParent \/ item_key it = KFollows -> KTarget ∉ item_key <$> pre) -> fresh it (args_of pre).
Proof.
  intros Hk Ht. destruct it; cbn [fresh args_of level span_name target skips skip_all fields item_key] in *; try done.
  - none KName.
  - none KName.
  - none KTarget.
  - apply (the_none _ KTarget); [by intros []|tauto].
  - apply (the_none _ KTarget); [by intros []|tauto].
  - none KLevel.
  - split; [|by apply skip_all_none]. by rewrite (the_none _ KSkip) by (done || by intros []).
  - split; [|by apply skip_all_none]. by rewrite (the_none _ KSkip) by (done || by intros []).
  - none KFields.
Qed.
Lemma args_of_app pre it : item_key it ∉ item_key <$> pre -> args_of (pre ++ [it]) = set_item it (args_of pre).
Proof.
  intros Hk. unfold args_of. rewrite !the_app, existsb_app.
  destruct it; cbn [item_key] in Hk;
    rewrite ?or_none;
    cbn [existsb]; rewrite ?orb_false_r, ?orb_true_r; unfold set_item; try done.
  all: match goal with |- context [match the ?f ?l with Some a => Some a | None => Some _ end] =>
       match type of Hk with ?k ∉ _ => rewrite (the_none f k l); [|intros []; cbn; congruence|exact Hk] end end.
  all: done.
Qed.

Abbreviation inp l u := {| rest := l; unread := u |}.
Lemma fresh_next pre it its :
  item_key it ∉ item_key <$> pre -> target_last (pre ++ it :: its) -> fresh it (args_of pre).
Proof.
  intros Hk Hlast. apply fresh_args; [done|]. intros Hp Hin. clear Hk.
  induction pre as [|p pre IH]; cbn in *; [set_solver|].
  destruct Hlast as [H1 H2]. apply elem_of_cons in Hin as [Heq|Hin]; [|by apply IH].
  specialize (H1 (eq_sym Heq)). rewrite Forall_app, Forall_cons in H1. tauto.
Qed.
Lemma args_item it pre r n u : item_ok it -> item_key it ∉ item_key <$> pre -> fresh it (args_of pre) -> ends r ->
  parse_args (S n) (args_of pre) (inp (item_toks it ++ r) u) = parse_args n (args_of (pre ++ [it])) (inp r u).
Proof.
  intros Hok Hk Hf Hr. destruct (one_read it (args_of pre) r u Hok Hf Hr) as (t & q & Ht & H).
  cbn [parse_args rest]. rewrite Ht in *. cbn [app]. unfold mbind, Parser_bind. cbn [app] in H. rewrite H. by rewrite args_of_app.
Qed.
Lemma args_comma a r n u : parse_args (S n) a (inp (comma :: r) u) = parse_args n a (inp r u).
Proof. done. Qed.

Lemma args_read pre its t n u :
  Forall item_ok its -> NoDup (item_key <$> pre ++ its) -> target_last (pre ++ its) -> (t = true -> its <> []) ->
  (length (punctuated_toks item_toks (Build_Punctuated its t)) < n)%nat ->
  parse_args n (args_of pre) {| rest := punctuated_toks item_toks (Build_Punctuated its t); unread := u |} =
  Ok (args_of (pre ++ its), {| rest := []; unread := u |}).
Proof.
  revert pre n u. induction its as [|it its IH]; intros pre n u Hok Hnd Hlast Ht Hn.
  { rewrite app_nil_r. destruct t; [by destruct Ht|]. destruct n; [lia|]. done. }
  apply Forall_cons in Hok as [Hit Hok]. destruct n as [|n]; [lia|].
  assert (item_key it ∉ item_key <$> pre) as Hk.
  { rewrite fmap_app in Hnd. apply NoDup_app in Hnd as (_ & Hd & _). intros H. apply (Hd _ H). cbn. set_solver. }
  assert (fresh it (args_of pre)) as Hf by (eapply fresh_next; eassumption).
  assert (forall its', args_of ((pre ++ [it]) ++ its') = args_of (pre ++ it :: its')) as Happ.
  { intros its'. by rewrite <- (assoc_L (++)). }
  assert (exists x q, item_toks it = x :: q) as (x & q & Hx).
  { destruct (one_read it (args_of pre) [] u Hit Hf (or_introl eq_refl)) as (x & q & H & _). eauto. }
  unfold punctuated_toks in *. cbn [items trailing] in *. destruct its as [|b its].
  - cbn [join_toks] in *. rewrite args_item by (done || (destruct t; [by right|by left])).
    rewrite Hx in Hn. destruct t; cbn in Hn; rewrite ?length_app in Hn; cbn in Hn; (destruct n as [|n]; [lia|]).
    + rewrite args_comma. destruct n as [|n]; [lia|]. done.
    + done.
  - change (join_toks item_toks comma (it :: b :: its)) with (item_toks it ++ comma :: join_toks item_toks comma (b :: its)) in *.
    rewrite <- (assoc_L (++)) in *. rewrite length_app, Hx in Hn. cbn [app length] in Hn.
    cbn [app]. rewrite args_item by (done || by right). destruct n as [|n]; [lia|]. rewrite args_comma, <- (Happ (b :: its)).
    apply IH; rewrite <- ?(assoc_L (++)); [done..|by intros|lia].
Qed.

(** The arguments of the attribute may stand in any order, but a target after [parent] and
    [follows_from]; each sets its own part, and nothing else does. *)
Lemma instrument_args_read (P : Punctuated Item) :
  Forall item_ok (items P) -> NoDup (item_key <$> items P) -> target_last (items P) -> punctuated_ok P ->
  instrument_args (punctuated_toks item_toks P) = Ok (args_of (items P)).
Proof.
  destruct P as [its t]. intros Hok Hnd Hlast Ht. unfold instrument_args, parse_all.
  pose proof (args_read [] its t (1 + length (punctuated_toks item_toks (Build_Punctuated its t))) false) as H.
  cbn [app items] in *. change (args_of []) with args_default in H. rewrite H by (done || lia). done.
Qed.

(** A second one of these keys is refused. *)
Definition key_word (k : Key) : option string :=
  match k with
  | KName => Some "name" | KTarget => Some "target" | KLevel => Some "level" | KFields => Some "fields"
  | _ => None
  end.
Lemma args_prefix pre its r m u :
  Forall item_ok its -> NoDup (item_key <$> pre ++ its) -> target_last (pre ++ its) ->
  parse_args (2 * length its + m) (args_of pre) (inp (concat ((fun it => item_toks it ++ [comma]) <$> its) ++ r) u) =
  parse_args m (args_of (pre ++ its)) (inp r u).
Proof.
  revert pre. induction its as [|it its IH]; intros pre Hok Hnd Hlast; [by rewrite app_nil_r|].
  apply Forall_cons in Hok as [Hit Hok].
  assert (item_key it ∉ item_key <$> pre) as Hk.
  { rewrite fmap_app in Hnd. apply NoDup_app in Hnd as (_ & Hd & _). intros H. apply (Hd _ H). cbn. set_solver. }
  assert (fresh it (args_of pre)) as Hf by (eapply fresh_next; eassumption).
  replace (2 * length (it :: its) + m)%nat with (S (S (2 * length its + m))) by (cbn; lia).
  cbn [fmap list_fmap concat]. rewrite <- !(assoc_L (++)). cbn [app]. rewrite args_item by (done || by right).
  rewrite args_comma, IH; rewrite <- ?(assoc_L (++)); done.
Qed.
Lemma second_refused it its r m u kw : key_word (item_key it) = Some kw -> item_key it ∈ item_key <$> its -> item_ok it ->
  parse_args (S m) (args_of its) (inp (item_toks it ++ r) u) = Err (Message ("expected only a single `" ++ kw ++ "` argument")%string).
Proof.
  intros Hkw Hin Hok.
  assert (forall A (f : Item -> option A), (forall x, item_key x = item_key it -> f x <> None) -> exists a, the f its = Some a) as Hthe.
  { intros A f Hf. apply list_elem_of_fmap in Hin as (x & Hx & Hin). clear - Hf Hx Hin. unfold the.
    induction its as [|y its IH]; [set_solver|]. cbn. destruct (f y) eqn:Hy; [eauto|].
    apply elem_of_cons in Hin as [->|Hin]; [|by apply IH]. by destruct (Hf y). }
  destruct it; try discriminate Hkw; injection Hkw as <-; cbn [item_toks app item_ok] in *;
    cbn [parse_args rest]; unfold mbind, Parser_bind, parse_one; cbn [is_word is_str]; eqbs;
    rewrite ?bool_decide_true by done; cbn [args_of span_name target level fields];
    (match goal with |- context [the ?f its] => destruct (Hthe _ f) as [a ->]; [intros []; cbn; done|] end); done.
Qed.
Lemma instrument_args_refuse its it kw :
  Forall item_ok its -> NoDup (item_key <$> its) -> target_last its -> item_ok it ->
  key_word (item_key it) = Some kw -> item_key it ∈ item_key <$> its ->
  instrument_args (concat ((fun it => item_toks it ++ [comma]) <$> its) ++ item_toks it) =
  Err (Message ("expected only a single `" ++ kw ++ "` argument")%string).
Proof.
  intros Hok Hnd Hlast Hit Hkw Hin. unfold instrument_args, parse_all.
  set (l := concat _ ++ item_toks it).
  assert (exists m, 1 + length l = 2 * length its + S m)%nat as [m ->].
  { exists (length l - 2 * length its)%nat. enough (2 * length its <= length l)%nat by lia. subst l. rewrite length_app.
    clear -Hok. induction its as [|x its IH]; [cbn; lia|]. apply Forall_cons in Hok as [Hx Hok]. specialize (IH Hok).
    cbn [fmap list_fmap concat length]. rewrite !length_app. cbn.
    enough (1 <= length (item_toks x))%nat by (cbn in IH; lia).
    destruct x as [| | | | |[] ?| | | | |]; cbn; lia. }
  subst l. pose proof (args_prefix [] its (item_toks it) (S m) false Hok Hnd Hlast) as H. change (args_of []) with args_default in H.
  rewrite H. cbn [app]. rewrite <- (app_nil_r (item_toks it)). by rewrite (second_refused it its [] m false kw).
Qed.

(** *** The order does not matter *)

Lemma the_once {A} (f : Item -> option A) k its :
  (forall it, f it <> None -> item_key it = k) -> NoDup (item_key <$> its) -> (length (omap f its) <= 1)%nat.
Proof.
  intros Hf. induction its as [|it its IH]; [cbn; lia|]. intros [Hk Hnd]%NoDup_cons. specialize (IH Hnd). cbn.
  destruct (f it) eqn:Hi; [|done]. cbn. assert (the f its = None) as H.
  { apply (the_none f k); [done|]. by rewrite <- (Hf it) by (by rewrite Hi). }
  unfold the in H. destruct (omap f its); [cbn; lia|done].
Qed.
Lemma the_perm {A} (f : Item -> option A) k its its' :
  (forall it, f it <> None -> item_key it = k) -> NoDup (item_key <$> its) -> its' ≡ₚ its -> the f its' = the f its.
Proof.
  intros Hf Hnd Hp. pose proof (the_once f k its Hf Hnd) as Hlen. unfold the.
  assert (omap f its' ≡ₚ omap f its) as H by by rewrite Hp.
  destruct (omap f its) as [|a [|b l]]; [by apply Permutation_nil_r in H as ->|symmetry in H; by apply Permutation_length_1_inv in H as ->|].
  cbn in Hlen. lia.
Qed.
Lemma args_of_perm its its' : NoDup (item_key <$> its) -> its' ≡ₚ its -> args_of its' = args_of its.
Proof.
  intros Hnd Hp. unfold args_of.
  assert (existsb (fun it => match it with ISkipAll => true | _ => false end) its' =
          existsb (fun it => match it with ISkipAll => true | _ => false end) its) as ->.
  { clear Hnd. induction Hp; cbn; [done|by f_equal| |by etrans].
    match goal with |- ?a || (?b || _) = _ => destruct a, b; done end. }
  repeat match goal with |- context [the ?f its'] =>
    first [ rewrite (the_perm f KName its its') by (done || (intros []; cbn; congruence))
          | rewrite (the_perm f KTarget its its') by (done || (intros []; cbn; congruence))
          | rewrite (the_perm f KParent its its') by (done || (intros []; cbn; congruence))
          | rewrite (the_perm f KFollows its its') by (done || (intros []; cbn; congruence))
          | rewrite (the_perm f KLevel its its') by (done || (intros []; cbn; congruence))
          | rewrite (the_perm f KSkip its its') by (done || (intros []; cbn; congruence))
          | rewrite (the_perm f KFields its its') by (done || (intros []; cbn; congruence))
          | rewrite (the_perm f KErr its its') by (done || (intros []; cbn; congruence))
          | rewrite (the_perm f KRet its its') by (done || (intros []; cbn; congruence)) ]
  end. done.
Qed.

(** C17: the arguments of the attribute are read in any order, with or without a comma at the
    end, but for a target before [parent] or [follows_from]: each sets its own part of the
    result and nothing else, and there are no warnings; a second name, target, level or list
    of fields is refused with its message; and whatever the tokens, the parse ends. *)
Theorem attribute_args_read (P : Punctuated Item)
    (Hok : Forall item_ok (items P)) (Hnd : NoDup (item_key <$> items P)) (Hlast : target_last (items P)) :
  (forall P', items P' ≡ₚ items P -> target_last (items P') -> punctuated_ok P' ->
     instrument_args (punctuated_toks item_toks P') = Ok (args_of (items P))) /\
  (forall it kw, item_ok it -> key_word (item_key it) = Some kw -> item_key it ∈ item_key <$> items P ->
     instrument_args (concat ((fun it => item_toks it ++ [comma]) <$> items P) ++ item_toks it) =
     Err (Message ("expected only a single `" ++ kw ++ "` argument")%string)) /\
  (forall l, instrument_args l <> Err Stuck).
Proof.
  split_and!.
  - intros P' Hp Hlast' HP'. rewrite <- (args_of_perm (items P) (items P')) by done.
    apply instrument_args_read; [by rewrite Hp|by rewrite Hp|done|done].
  - intros it kw Hit Hkw Hin. by apply instrument_args_refuse.
  - apply instrument_args_end.
Qed.
End all.

(** ** A concrete [syn]

    An expression and a path extend to the next comma; a literal that begins with a digit
    is an integer. *)
Definition first_digit (s : string) : bool :=
  match s with String c _ => (48 <=? Ascii.nat_of_ascii c)%nat && (Ascii.nat_of_ascii c <=? 57)%nat | EmptyString => false end.
Definition source_toks (e : Expr) : list Tok := match e with Source l => l | e => [Frag e] end.
#[export] Instance example_syn : Syn := {
  lit_str s := if first_digit s then None else Some s;
  lit_int s := if first_digit s then Some (parse_u64 s) else None;
  is_keyword s := existsb (String.eqb s) ["self"; "Self"; "crate"; "super"; "type"; "fn"; "ref"];
  syn_expr := parse_expr;
  syn_path l := match until_comma l with ([], _) => None | (u, r) => Some (u, r) end;
  unexpected_input l := "expected one of the arguments";
  expr_tokens := source_toks;
  str_lit s := s;
}.
#[export] Instance example_syn_laws : SynLaws example_syn.
Proof.
  split.
  - intros l e r. apply (parse_shorter (X := example_parser)).
  - intros l p r. cbn. pose proof (until_comma_length l) as Hl. destruct (until_comma l) as [[|t u] r']; [done|].
    intros [= _ <-]. cbn in Hl. lia.
  - done.
Defined.

Module AttrExample.
(** [level = "warn", name = "work", parent = p, skip(self), fields(%a.b, c = 1), err(Debug)] *)
Definition p : list Tok := [Ident "p"].
Definition attr : list Item :=
  [ILevel (ByStr "warn") AttrLevel.Warn; IName (LitStr "work"); IParent p (Source p);
   ISkip (Build_Punctuated ["self"] false);
   IFields (Build_Punctuated
     [{| fs_sigil := KDisplay; fs_name := FPunctuated ["a"; "b"]; fs_braced := []; fs_value := None |};
      {| fs_sigil := KValue; fs_name := FPunctuated ["c"]; fs_braced := []; fs_value := Some (KValue, [Lit "1"], Source [Lit "1"]) |}] false);
   IErr (Some [EMode Debug])].
Lemma ends_until r : ends r -> until_comma r = ([], r).
Proof. intros [->|Hr]; [done|]. destruct r as [|t r]; [done|]. by injection Hr as ->. Qed.
Lemma reads_one t : match t with Ident _ | Lit _ => True | _ => False end -> reads [t] (Source [t]).
Proof.
  intros Ht. split; [by destruct t|]. intros r Hr. cbn. destruct t; try done; cbn; by rewrite ends_until.
Qed.
Lemma attr_ok : Forall item_ok attr.
Proof.
  repeat apply Forall_cons_2; cbn; try done.
  - by exists "warn".
  - by apply reads_one.
  - split; [done|]. apply NoDup_singleton.
  - split; [done|]. repeat apply Forall_cons_2; [done| |done]. split; [done|]. by apply reads_one.
  - split; [|done]. intros f v H. set_solver.
Qed.
Lemma attribute_args_read_witness :
  instrument_args (punctuated_toks item_toks (Build_Punctuated (rev attr) true)) = Ok (args_of attr) /\
  instrument_args (concat ((fun it => item_toks it ++ [comma]) <$> attr) ++ [Lit "again"]) =
    Err (Message "expected only a single `name` argument").
Proof.
  destruct (attribute_args_read (Build_Punctuated attr false) attr_ok ltac:(cbn; repeat (apply NoDup_cons; split; [set_solver|]); apply NoDup_nil; done)
    ltac:(cbn; repeat split; done)) as (H1 & H2 & _).
  split.
  - apply H1; [by rewrite Permutation_rev|cbn; repeat split; done|done].
  - apply (H2 (INameLit "again") "name"); [cbn; eauto|done|cbn; set_solver].
Defined.

(** A target before [parent] is reported as a second [parent], which is allowed after it; a
    second [parent] is not noticed. *)
Example parent_after_target :
  instrument_args ([Ident "target"; Punct "="; Lit "t"; comma; Ident "parent"; Punct "="; Ident "p"]) =
    Err (Message "expected only a single `parent` argument") /\
  (exists a, instrument_args ([Ident "parent"; Punct "="; Ident "p"; comma; Ident "parent"; Punct "="; Ident "q"]) = Ok a /\
     parent a = Some (Source [Ident "q"])).
Proof. split; [vm_compute; done|]. eexists. split; [vm_compute; reflexivity|done]. Qed.
(** A comma after the format of [err] is refused, after its level it is not. *)
Example comma_after_mode :
  instrument_args [Ident "err"; Group Paren [Ident "Debug"; comma]] = Err (Message "expected only a single format argument") /\
  exists a, instrument_args [Ident "err"; Group Paren [Ident "level"; Punct "="; Lit "info"; comma]] = Ok a.
Proof. split; [vm_compute; done|]. eexists. vm_compute. reflexivity. Qed.
(** What is not known is skipped with a warning. *)
Example unknown_argument :
  exists a, instrument_args [Ident "nmae"; Punct "="; Lit "work"] = Ok a /\ length (parse_warnings a) = 2%nat /\
    span_name a = Some (LitStr "work").
Proof. eexists. split; [vm_compute; reflexivity|]. done. Qed.
End AttrExample.
