(* ===== verification/AttrExpand.v ===== *)
(** * AttrExpand: the expansion of [#[instrument]], [tracing-attributes/src/expand.rs], [lib.rs]

    What the attribute makes of a function: the span with its fields, the events for the
    result, and the body around them.  The parsers, printers and visitors of [syn] are a
    parameter; its syntax trees are modelled as far as the code looks into them. *)

From S2P Require Import Prelude.
From S2P Require Import Str.
From S2P Require Import Levels.
From S2P Require Import Meta.
From S2P Require Import MacroFields.
From S2P Require Import Macros.
From S2P Require Import SpanMacros.
From S2P Require Import AttrArgs.
From Stdlib Require Import Ascii.

Local Open Scope string_scope.
Local Open Scope list_scope.

(** ** The syntax trees *)

(** Types: a path whose segments have arguments, a reference, [impl Trait], [_], or another
    type with the types in it. *)
#[warnings="-register-all"]
Inductive Ty :=
  | TPath (segments : list (string * list Ty))
  | TReference (elem : Ty)
  | TImplTrait
  | TInfer
  | TOther (name : string) (inner : list Ty).

#[warnings="-register-all"]
Inductive ArgPat :=
  | PIdent (ident : string)
  | PReference (pat : ArgPat)
  | PStruct (fields : list ArgPat)
  | PTuple (elems : list ArgPat)
  | PTupleStruct (elems : list ArgPat)
  | POther.
Inductive FnArg := Typed (pat : ArgPat) (ty : Ty) | Receiver.

Record Signature := {
  constness : bool; asyncness : bool; unsafety : list Tok; abi : list Tok; sig_ident : string;
  generics : list Tok; inputs : list FnArg; variadic : list Tok; output : option Ty; where_clause : list Tok;
}.

(** Expressions, as far as [AsyncInfo] looks into them; the block of [async] as its tokens. *)
#[warnings="-register-all"]
Inductive Ex :=
  | EAsync (attrs : list Tok) (block : list Tok)
  | ECall (func : Ex) (args : list Ex)
  | EPath (segments : list string)
  | EOther (l : list Tok).
#[warnings="-register-all"]
Inductive Stmt :=
  | SFn (f : ItemFn)
  | SExpr (e : Ex) (semi : bool)
  | SOther (l : list Tok)
with ItemFn :=
  | MkItemFn (attrs : list (bool * list Tok)) (vis : list Tok) (sig : Signature) (block : list Stmt).
Definition attrs (f : ItemFn) := let '(MkItemFn a _ _ _) := f in a.
Definition vis (f : ItemFn) := let '(MkItemFn _ v _ _) := f in v.
Definition sig (f : ItemFn) := let '(MkItemFn _ _ s _) := f in s.
Definition block (f : ItemFn) := let '(MkItemFn _ _ _ b) := f in b.

(** Printers; equality of statements; [visit_expr_mut] with the visits of identifiers and of
    types; and the parsers of an item, of attributes, of a visibility and of a signature. *)
Class SynTrees := {
  ty_toks : Ty -> list Tok;
  args_toks : list FnArg -> list Tok;
  stmt_toks : Stmt -> list Tok;
  stmt_eq : Stmt -> Stmt -> bool;
  visit_expr_mut : (string -> string) -> (Ty -> Ty) -> Expr -> Expr;
  parse_item_fn : list Tok -> option ItemFn;
  parse_outer : list Tok -> option (list (list Tok) * list Tok);
  parse_vis : list Tok -> option (list Tok * list Tok);
  parse_sig : list Tok -> option (Signature * list Tok);
  parse_inner : list Tok -> option (list (list Tok) * list Tok);
}.

(** ** [RecordType], [param_names] *)

Inductive RecordType := RValue | RDebug.
Definition TYPES_FOR_VALUE : list string :=
  ["bool"; "str"; "u8"; "i8"; "u16"; "i16"; "u32"; "i32"; "u64"; "i64"; "u128"; "i128"; "f32"; "f64"; "usize"; "isize";
   "String"; "NonZeroU8"; "NonZeroI8"; "NonZeroU16"; "NonZeroI16"; "NonZeroU32"; "NonZeroI32"; "NonZeroU64"; "NonZeroI64";
   "NonZeroU128"; "NonZeroI128"; "NonZeroUsize"; "NonZeroIsize"; "Wrapping"].
Fixpoint parse_from_ty (ty : Ty) : RecordType :=
  match ty with
  | TPath segments =>
      match list_basics.list.last segments with
      | Some (ident, _) => if existsb (String.eqb ident) TYPES_FOR_VALUE then RValue else RDebug
      | None => RDebug
      end
  | TReference elem => parse_from_ty elem
  | _ => RDebug
  end.

Fixpoint param_names (pat : ArgPat) (record_type : RecordType) : list (string * RecordType) :=
  match pat with
  | PIdent ident => [(ident, record_type)]
  | PReference pat => param_names pat record_type
  | PStruct fields => concat (map (fun p => param_names p RDebug) fields)
  | PTuple elems | PTupleStruct elems => concat (map (fun p => param_names p RDebug) elems)
  | POther => []
  end.

(** ** [path_to_string], [IdentAndTypesRenamer], [erase_impl_trait] *)

Definition path_to_string (segments : list string) : string := String.concat "::" segments.
Definition visit_ident (idents : list (string * string)) (id : string) : string :=
  fold_left (fun id '(old, new) => if String.eqb id old then new else id) idents id.
Definition visit_type (types : list (string * Ty)) (ty : Ty) : Ty :=
  fold_left (fun ty '(name, new) =>
    match ty with
    | TPath segments => if String.eqb (path_to_string (fst <$> segments)) name then new else ty
    | _ => ty
    end) types ty.
(** [impl Trait] anywhere in the type becomes [_]. *)
Fixpoint erase_impl_trait (t : Ty) : Ty :=
  match t with
  | TImplTrait => TInfer
  | TPath segments => TPath (map (fun '(s, args) => (s, map erase_impl_trait args)) segments)
  | TReference elem => TReference (erase_impl_trait elem)
  | TInfer => TInfer
  | TOther name inner => TOther name (map erase_impl_trait inner)
  end.

(** ** [quote!]

    The tokens of a template: words with spaces between them. *)
Definition is_name_char (s : string) : bool :=
  match s with
  | String c _ => let n := Ascii.nat_of_ascii c in
      ((65 <=? n) && (n <=? 90))%nat || ((97 <=? n) && (n <=? 122))%nat || (n =? 95)%nat
  | EmptyString => false
  end.
Definition word_tok (s : string) : Tok := if is_name_char s then Ident s else Punct s.
Definition q (s : string) : list Tok := word_tok <$> split_char " "%char s.
Definition attribute (l : list Tok) : list Tok := [Punct "#"; Group Bracket l].
Definition allow (lint : string) : list Tok := attribute [Ident "allow"; Group Paren (q lint)].

(** A macro call, or the error that stands in its place. *)
Inductive SpanCode := CompileError (message : string) | SpanCall (args : list Tok).

(** ** [gen_block] *)

(** The parts of the body that is generated. *)
Record Body := {
  b_async : bool;
  b_level : AttrLevel.t;
  b_span : SpanCode;
  b_follows : option Expr;
  b_err : option (list Tok);
  b_ret : option (list Tok);
  b_block : list Tok;
}.

Section expand.
Context {Y : Syn} {T : SynTrees}.

(** The names that the user sees, with the names of the parameters. *)
Definition all_params (params : list FnArg) (self_type : option Ty) : list (string * (string * RecordType)) :=
  (fun '(x, record_type) =>
     if match self_type with Some _ => String.eqb x "_self" | None => false end
     then ("self", (x, record_type)) else (x, (x, record_type))) <$>
  concat (map (fun param => match param with
                            | Typed pat ty => param_names pat (parse_from_ty ty)
                            | Receiver => [("self", RDebug)]
                            end) params).
(** The parameter is recorded: it is not skipped, and no custom field has its name. *)
Definition custom_named (param : string) (f : Field) : bool :=
  match name f with
  | FExpr _ => false
  | FPunctuated k => bool_decide (head k = list_basics.list.last k) && bool_decide (head k = Some param)
  end.
Definition recorded (args : InstrumentArgs) (p : string * (string * RecordType)) : bool :=
  if skip_all args || bool_decide (fst p ∈ skips args) then false
  else match fields args with
       | Some fs => forallb (fun f => negb (custom_named (fst p) f)) (items fs)
       | None => true
       end.
Definition debug_call (real_name : string) : list Tok :=
  global_path ["tracing"; "field"; "debug"] ++ [Group Paren [Punct "&"; Ident real_name]].
Definition quoted_field (p : string * (string * RecordType)) : list Tok :=
  let '(user_name, (real_name, record_type)) := p in
  [Ident user_name; Punct "="] ++ match record_type with RValue => [Ident real_name] | RDebug => debug_call real_name end.

Definition renamed_fields (params : list (string * (string * RecordType))) (self_type : option Ty) (fs : Fields) : Fields :=
  let idents := (fun '(a, (b, _)) => (a, b)) <$> params in
  let types := match self_type with Some t => [("Self", t)] | None => [] end in
  Build_Punctuated
    ((fun f => {| name := name f; value := visit_expr_mut (visit_ident idents) (visit_type types) <$> value f; kind := kind f |})
       <$> items fs) (trailing fs).

Definition span_name_toks (args : InstrumentArgs) (instrumented_function_name : string) : list Tok :=
  match span_name args with Some n => LitStrOrIdent_toks n | None => [Lit (str_lit instrumented_function_name)] end.
Definition gen_span (params : list FnArg) (args : InstrumentArgs) (instrumented_function_name : string)
    (self_type : option Ty) : SpanCode :=
  let param_names := all_params params self_type in
  if negb (forallb (fun skip => existsb (String.eqb skip) (fst <$> param_names)) (elements (skips args)))
  then CompileError "attempting to skip non-existent parameter"
  else
    let quoted_fields := quoted_field <$> List.filter (recorded args) param_names in
    SpanCall
      ([Ident "target"; Punct ":"] ++ args_target args ++ [comma] ++
       match parent args with Some e => [Ident "parent"; Punct ":"] ++ expr_tokens e ++ [comma] | None => [] end ++
       level_toks (args_level args) ++ [comma] ++
       span_name_toks args instrumented_function_name ++ [comma] ++
       concat ((fun f => f ++ [comma]) <$> quoted_fields) ++
       match fields args with Some fs => fields_toks (renamed_fields param_names self_type fs) | None => [] end).

Definition result_event (args : InstrumentArgs) (level : AttrLevel.t) (field : list Tok) : list Tok :=
  [Ident "target"; Punct ":"] ++ args_target args ++ [comma] ++ level_toks level ++ [comma] ++ field.
Definition gen_err_event (args : InstrumentArgs) : option (list Tok) :=
  match err_args args with
  | Some event_args =>
      let level := event_level AttrLevel.Error event_args in
      Some (result_event args level (match mode event_args with
                                     | Default | Display => q "error = % e"
                                     | Debug => q "error = ? e"
                                     end))
  | None => None
  end.
Definition gen_ret_event (args : InstrumentArgs) : option (list Tok) :=
  match ret_args args with
  | Some event_args =>
      let level := event_level (args_level args) event_args in
      Some (result_event args level (match mode event_args with
                                     | Display => q "return = % x"
                                     | Default | Debug => q "return = ? x"
                                     end))
  | None => None
  end.
Definition gen_block (block : list Tok) (params : list FnArg) (async_context : bool) (args : InstrumentArgs)
    (instrumented_function_name : string) (self_type : option Ty) : Body := {|
  b_async := async_context;
  b_level := args_level args;
  b_span := gen_span params args instrumented_function_name self_type;
  b_follows := follows_from args;
  b_err := gen_err_event args;
  b_ret := gen_ret_event args;
  b_block := block;
|}.

(** *** The tokens of the body *)

Definition span_toks (s : SpanCode) : list Tok :=
  match s with
  | CompileError m => q "compile_error !" ++ [Group Paren [Lit (str_lit m)]]
  | SpanCall args => global_path ["tracing"; "span"] ++ [Punct "!"; Group Paren args]
  end.
Definition event_call (args : list Tok) : list Tok := global_path ["tracing"; "event"] ++ [Punct "!"; Group Paren args].
Definition follows_toks (e : option Expr) : list Tok :=
  match e with
  | Some e => q "for cause in" ++ expr_tokens e ++
      [Group Brace (q "__tracing_attr_span . follows_from" ++ [Group Paren [Ident "cause"]; Punct ";"])]
  | None => []
  end.
(** [match scrutinee { Ok(x) => .., Err(e) => .. }] *)
Definition match_result (scrutinee : list Tok) (ret err : list Tok) : list Tok :=
  Ident "match" :: scrutinee ++
  [Group Brace
     (allow "clippy :: unit_arg" ++ [Ident "Ok"; Group Paren [Ident "x"]; Punct "=>"] ++
      (match ret with
       | [] => [Ident "Ok"; Group Paren [Ident "x"]]
       | ret => [Group Brace (event_call ret ++ [Punct ";"; Ident "Ok"; Group Paren [Ident "x"]])]
       end) ++ [comma] ++
      [Ident "Err"; Group Paren [Ident "e"]; Punct "=>";
       Group Brace (event_call err ++ [Punct ";"; Ident "Err"; Group Paren [Ident "e"]])])].
Definition mk_fut (b : Body) : list Tok :=
  let awaited := q "async move" ++ b_block b ++ q ". await" in
  q "async move" ++
  match b_err b, b_ret b with
  | Some err, Some ret =>
      [Group Brace (q "let __match_scrutinee =" ++ awaited ++ [Punct ";"] ++ match_result [Ident "__match_scrutinee"] ret err)]
  | Some err, None => [Group Brace (match_result awaited [] err)]
  | None, Some ret => [Group Brace (q "let x =" ++ awaited ++ [Punct ";"] ++ event_call ret ++ q "; x")]
  | None, None => b_block b
  end.
Definition sync_span (b : Body) : list Tok :=
  q "let __tracing_attr_span ; let __tracing_attr_guard ; if" ++
  global_path ["tracing"; "level_enabled"] ++ [Punct "!"; Group Paren (level_toks (b_level b))] ++ [Punct "||"] ++
  global_path ["tracing"; "if_log_enabled"] ++
  [Punct "!"; Group Paren (level_toks (b_level b) ++ [comma; Group Brace [Ident "true"]; Ident "else"; Group Brace [Ident "false"]]);
   Group Brace (q "__tracing_attr_span =" ++ span_toks (b_span b) ++ [Punct ";"] ++ follows_toks (b_follows b) ++
     q "__tracing_attr_guard = __tracing_attr_span . enter" ++ [Group Paren []; Punct ";"])].
Definition closure_call (b : Body) : list Tok :=
  [Group Paren (q "move ||" ++ b_block b); Group Paren []].
Definition body_toks (b : Body) : list Tok :=
  if b_async b then
    q "let __tracing_attr_span =" ++ span_toks (b_span b) ++ [Punct ";"] ++
    q "let __tracing_instrument_future =" ++ mk_fut b ++ [Punct ";"] ++
    allow "clippy :: implicit_return" ++
    q "if ! __tracing_attr_span . is_disabled" ++
    [Group Paren [];
     Group Brace (follows_toks (b_follows b) ++ global_path ["tracing"; "Instrument"; "instrument"] ++
       [Group Paren (q "__tracing_instrument_future , __tracing_attr_span")] ++ q ". await");
     Ident "else"; Group Brace (q "__tracing_instrument_future . await")]
  else
    match b_err b, b_ret b with
    | Some err, Some ret => sync_span b ++ allow "clippy :: redundant_closure_call" ++ match_result (closure_call b) ret err
    | Some err, None => sync_span b ++ allow "clippy :: redundant_closure_call" ++ match_result (closure_call b) [] err
    | None, Some ret =>
        sync_span b ++ allow "clippy :: redundant_closure_call" ++ q "let x =" ++ closure_call b ++ [Punct ";"] ++
        event_call ret ++ q "; x"
    | None, None =>
        allow "clippy :: suspicious_else_formatting" ++
        [Group Brace (sync_span b ++ attribute [Ident "warn"; Group Paren (q "clippy :: suspicious_else_formatting")] ++ b_block b)]
    end.

(** ** [MaybeItemFn] and [gen_function] *)

Record MaybeItemFn := {
  outer_attrs : list (list Tok); inner_attrs : list (list Tok); m_vis : list Tok; m_sig : Signature; m_block : list Tok;
}.
Definition maybe_item_fn (f : ItemFn) : MaybeItemFn := {|
  outer_attrs := snd <$> List.filter fst (attrs f);
  inner_attrs := snd <$> List.filter (fun a => negb (fst a)) (attrs f);
  m_vis := vis f; m_sig := sig f; m_block := concat (stmt_toks <$> block f);
|}.
(** [Parse for MaybeItemFn]: the block is not parsed. *)
Definition parse_maybe (l : list Tok) : option MaybeItemFn :=
  '(outer, l) ← parse_outer l;
  '(v, l) ← parse_vis l;
  '(s, l) ← parse_sig l;
  '(inner, l) ← parse_inner l;
  match l with
  | [Group Brace block] => Some {| outer_attrs := outer; inner_attrs := inner; m_vis := v; m_sig := s; m_block := block |}
  | _ => None
  end.

Definition fake_return_edge (return_type : list Tok) : list Tok :=
  attribute [Ident "allow"; Group Paren
    (q "unknown_lints , unreachable_code , clippy :: diverging_sub_expression , clippy :: empty_loop , clippy :: let_unit_value , clippy :: let_with_type_underscore , clippy :: needless_return , clippy :: unreachable")] ++
  q "if false" ++
  [Group Brace (q "let __tracing_attr_fake_return :" ++ return_type ++ q "= loop" ++ [Group Brace []; Punct ";"] ++
     q "return __tracing_attr_fake_return ;")].
Definition function_body (m : MaybeItemFn) (args : InstrumentArgs) (instrumented_function_name : string)
    (self_type : option Ty) : Body :=
  let return_type := match output (m_sig m) with Some t => ty_toks (erase_impl_trait t) | None => [Group Paren []] end in
  gen_block [Group Brace (fake_return_edge return_type ++ [Group Brace (m_block m)])]
    (inputs (m_sig m)) (asyncness (m_sig m)) args instrumented_function_name self_type.
(** The signature, with [fn] before the name. *)
Definition keyword (b : bool) (s : string) : list Tok := if b then [Ident s] else [].
Definition sig_toks (s : Signature) : list Tok :=
  keyword (constness s) "const" ++ keyword (asyncness s) "async" ++ unsafety s ++ abi s ++ [Ident "fn"; Ident (sig_ident s)] ++
  generics s ++ [Group Paren (args_toks (inputs s) ++ variadic s)] ++
  match output s with Some t => Punct "->" :: ty_toks t | None => [] end ++ where_clause s.
Definition gen_function (m : MaybeItemFn) (args : InstrumentArgs) (instrumented_function_name : string)
    (self_type : option Ty) : list Tok :=
  concat (outer_attrs m) ++ m_vis m ++ sig_toks (m_sig m) ++
  [Group Brace (concat (inner_attrs m) ++ args_warnings args ++
     body_toks (function_body m args instrumented_function_name self_type))].

(** ** [AsyncInfo] *)

Inductive AsyncKind :=
  | AFunction (f : ItemFn)
  | AAsync (async_attrs async_block : list Tok) (pinned_box : bool).
Record AsyncInfo := { source_stmt : Stmt; a_kind : AsyncKind; self_type : option Ty; a_input : ItemFn }.

(** The last statement that is an expression. *)
Definition last_expr (stmts : list Stmt) : option (Stmt * Ex) :=
  head (omap (fun stmt => match stmt with SExpr e _ => Some (stmt, e) | _ => None end) (rev stmts)).
Definition inside_funs (stmts : list Stmt) : list (Stmt * ItemFn) :=
  omap (fun stmt => match stmt with SFn f => if asyncness (sig f) then Some (stmt, f) else None | _ => None end) stmts.
(** The type of [_self], behind a reference or not. *)
Definition self_type_of (args : list FnArg) : option Ty :=
  head (omap (fun arg =>
    match arg with
    | Typed (PIdent ident) ty =>
        if String.eqb ident "_self" then
          match (match ty with TReference elem => elem | ty => ty end) with TPath p => Some (TPath p) | _ => None end
        else None
    | _ => None
    end) args).
Definition ends_with_box_pin (segments : list string) : bool := ends_with (path_to_string segments) "Box::pin".

Definition from_fn (input : ItemFn) : option AsyncInfo :=
  if asyncness (sig input) then None
  else
    '(stmt, last) ← last_expr (block input);
    match last with
    | EAsync a b => Some {| source_stmt := stmt; a_kind := AAsync a b false; self_type := None; a_input := input |}
    | ECall (EPath path) outside_args =>
        if negb (ends_with_box_pin path) then None
        else
          match outside_args with
          | EAsync a b :: _ => Some {| source_stmt := stmt; a_kind := AAsync a b true; self_type := None; a_input := input |}
          | ECall (EPath func) _ :: _ =>
              '(decl, fun_) ← List.find (fun '(_, f) => String.eqb (sig_ident (sig f)) (path_to_string func)) (inside_funs (block input));
              Some {| source_stmt := decl; a_kind := AFunction fun_; self_type := self_type_of (inputs (sig fun_)); a_input := input |}
          | _ => None
          end
    | _ => None
    end.

(** The statement that takes the place of [source_stmt]. *)
Definition async_stmt (self : AsyncInfo) (args : InstrumentArgs) (instrumented_function_name : string) : list Tok :=
  match a_kind self with
  | AFunction f => gen_function (maybe_item_fn f) args instrumented_function_name (self_type self)
  | AAsync async_attrs async_block pinned_box =>
      let code := async_attrs ++ q "async move" ++
        [Group Brace (body_toks (gen_block async_block (inputs (sig (a_input self))) true args instrumented_function_name None))] in
      if pinned_box then global_path ["std"; "boxed"; "Box"; "pin"] ++ [Group Paren code] else code
  end.
(** The first statement that is equal to it is replaced. *)
Fixpoint replace_stmt (source : Stmt) (new : list Tok) (stmts : list Stmt) : list (list Tok) :=
  match stmts with
  | [] => []
  | s :: stmts => if stmt_eq s source then new :: (stmt_toks <$> stmts) else stmt_toks s :: replace_stmt source new stmts
  end.
Definition gen_async (self : AsyncInfo) (args : InstrumentArgs) (instrumented_function_name : string) : list Tok :=
  let input := a_input self in
  concat (snd <$> attrs input) ++ vis input ++ sig_toks (sig input) ++
  [Group Brace (concat (replace_stmt (source_stmt self) (async_stmt self args instrumented_function_name) (block input)))].

(** ** [instrument], of [lib.rs] *)

Definition instrument_speculative (args : InstrumentArgs) (item : list Tok) : result (list Tok) AttrError :=
  match parse_maybe item with
  | Some m => Ok (gen_function m args (sig_ident (m_sig m)) None)
  | None => Err SynError
  end.
Definition instrument_precise (args : InstrumentArgs) (item : list Tok) : result (list Tok) AttrError :=
  match parse_item_fn item with
  | None => Err SynError
  | Some input =>
      let name := sig_ident (sig input) in
      if constness (sig input) then
        Ok (q "compile_error !" ++ [Group Paren [Lit (str_lit "the `#[instrument]` attribute may not be used with `const fn`s")]])
      else match from_fn input with
           | Some async_like => Ok (gen_async async_like args name)
           | None => Ok (gen_function (maybe_item_fn input) args name None)
           end
  end.
(** An error is the error of the compilation. *)
Definition instrument (args item : list Tok) : result (list Tok) AttrError :=
  match instrument_args args with
  | Ok args =>
      match instrument_precise args item with
      | Ok l => Ok l
      | Err _ => instrument_speculative args item
      end
  | Err e => Err e
  end.
End expand.

(** ** The span *)

(** What [quote!] writes for an expression is read as one expression by the macros. *)
Class QuoteLaws (Y : Syn) (X : ExprParser) := {
  quoted : list Tok -> Expr;
  quoted_lit s : spells [Lit s] (quoted [Lit s]);
  quoted_ident s : spells [Ident s] (quoted [Ident s]);
  quoted_module_path : spells [Ident "module_path"; Punct "!"; Group Paren []] (quoted [Ident "module_path"; Punct "!"; Group Paren []]);
  quoted_path k : spells (global_path ("tracing" :: k)) (quoted (global_path ("tracing" :: k)));
  quoted_debug s : spells (debug_call s) (quoted (debug_call s));
}.

Section span.
Context {Y : Syn} {T : SynTrees} {X : ExprParser} {XL : ExprLaws} {QL : QuoteLaws Y X}.

(** The fields as the macros see them. *)
Definition param_field (p : string * (string * RecordType)) : FName * VForm :=
  let '(user_name, (real_name, record_type)) := p in
  (NPath [user_name], VValue (quoted (match record_type with RValue => [Ident real_name] | RDebug => debug_call real_name end))).
Definition form (k : FieldKind) (e : Expr) : VForm :=
  match k with KDebug => VDebug e | KDisplay => VDisplay e | KValue => VValue e end.
Definition fname (n : FieldName) : FName := match n with FExpr e => NConst e | FPunctuated k => NPath k end.
Definition custom_field (f : Field) : FName * VForm :=
  (fname (name f),
   match value f, kind f, name f with
   | Some v, k, _ => form k v
   | None, KValue, _ => VValue (quoted (global_path ["tracing"; "field"; "Empty"]))
   | None, k, FPunctuated p => form k (Path p)
   | None, k, FExpr e => form k e
   end).
(** The expressions are read as they are written; a sigil without a value stands before a
    dotted name. *)
Definition field_ok (f : Field) : Prop :=
  match name f with FPunctuated k => k <> [] | FExpr e => spells (expr_tokens e) e end /\
  match value f, name f with
  | Some v, _ => spells (expr_tokens v) v
  | None, FExpr _ => kind f = KValue
  | None, FPunctuated _ => True
  end.

Lemma spells_ends u e r : spells u e -> ends r -> expr (u ++ r) = Matched (e, r).
Proof.
  intros H [->|Hr]; [rewrite app_nil_r; by apply spells_end|]. destruct r as [|t r]; [done|]. injection Hr as ->. apply H.
Qed.
Lemma spells_head u e : spells u e -> match u with Punct c :: _ => c <> "?" /\ c <> "%" /\ c <> "," /\ c <> "=" | [] => False | _ => True end.
Proof.
  intros H. specialize (H []). destruct u as [|t u]; [cbn [app] in H; by rewrite expr_punct in H by tauto|].
  destruct t; try done. cbn [app] in H. split_and!; intros ->; by rewrite expr_punct in H by tauto.
Qed.
Lemma value_read k u e r : spells u e -> ends r -> value_of (kind_toks k ++ u ++ r) = Matched (form k e, r).
Proof.
  intros Hu Hr. pose proof (spells_ends u e r Hu Hr) as H. destruct k; cbn [kind_toks app value_of form].
  - cbv beta iota zeta delta [mbind Pat_bind mret Pat_ret]. change (("?" =? "?")%string) with true. cbv iota. by rewrite H.
  - cbv beta iota zeta delta [mbind Pat_bind mret Pat_ret]. change (("%" =? "?")%string) with false.
    change (("%" =? "%")%string) with true. cbv iota. by rewrite H.
  - pose proof (spells_head u e Hu) as Hh. destruct u as [|t u]; [done|].
    assert (value_of ((t :: u) ++ r) = (e ← expr; mret (VValue e)) ((t :: u) ++ r)) as ->.
    { destruct t; try done. destruct Hh as (H1 & H2 & _). cbn [app value_of].
      by rewrite (proj2 (String.eqb_neq s "?")), (proj2 (String.eqb_neq s "%")). }
    cbv beta iota zeta delta [mbind Pat_bind mret Pat_ret]. by rewrite H.
Qed.
Lemma with_value_read n k u e r : spells u e -> ends r ->
  with_value n (Punct "=" :: kind_toks k ++ u ++ r) = Matched ((n, form k e), r).
Proof.
  intros Hu Hr. unfold with_value. cbv beta iota zeta delta [mbind Pat_bind mret Pat_ret].
  rewrite punct_same. by rewrite value_read with (e := e).
Qed.
Lemma named_value_read n k u e r : match n with FPunctuated p => p <> [] | FExpr e => spells (expr_tokens e) e end ->
  spells u e -> ends r ->
  MacroFields.field (name_toks n ++ Punct "=" :: kind_toks k ++ u ++ r) = Matched ((fname n, form k e), r).
Proof.
  intros Hn Hu Hr. destruct n as [c|p]; cbn [name_toks fname app].
  - unfold MacroFields.field. cbv beta iota zeta delta [mbind Pat_bind mret Pat_ret braces].
    rewrite (spells_end _ c Hn). by apply with_value_read.
  - assert (path (dotted_toks p ++ Punct "=" :: kind_toks k ++ u ++ r) = Matched (p, Punct "=" :: kind_toks k ++ u ++ r)) as Hp
      by (by apply path_dotted).
    destruct p as [|s p]; [done|].
    assert (exists l, dotted_toks (s :: p) ++ Punct "=" :: kind_toks k ++ u ++ r = Ident s :: l) as [l Hl] by (destruct p; eexists; reflexivity).
    rewrite Hl in *. unfold MacroFields.field. rewrite Hp, punct_same. by apply with_value_read.
Qed.
Lemma custom_read f r : field_ok f -> ends r -> MacroFields.field (field_toks f ++ r) = Matched (custom_field f, r).
Proof.
  intros [Hn Hv] Hr. unfold field_toks, custom_field. destruct (value f) as [v|].
  - rewrite <- !(assoc_L (++)). cbn [app]. by apply named_value_read.
  - destruct (kind f) eqn:Hk.
    + destruct (name f) as [e|p]; [done|]. cbn [kind_toks name_toks app]. unfold MacroFields.field, sigil_path.
      change (("?" =? "?")%string) with true. cbv beta iota zeta delta [mbind Pat_bind mret Pat_ret].
      rewrite path_dotted; [done|done|]. destruct Hr as [->|Hr]; [done|]. destruct r; [done|]. by injection Hr as ->.
    + destruct (name f) as [e|p]; [done|]. cbn [kind_toks name_toks app]. unfold MacroFields.field, sigil_path.
      change (("%" =? "?")%string) with false. change (("%" =? "%")%string) with true.
      cbv beta iota zeta delta [mbind Pat_bind mret Pat_ret].
      rewrite path_dotted; [done|done|]. destruct Hr as [->|Hr]; [done|]. destruct r; [done|]. by injection Hr as ->.
    + rewrite <- !(assoc_L (++)). cbn [app]. apply (named_value_read (name f) KValue); [done| |done]. apply (quoted_path ["field"; "Empty"]).
Qed.
Lemma param_read p r : ends r -> MacroFields.field (quoted_field p ++ r) = Matched (param_field p, r).
Proof.
  intros Hr. destruct p as [u [n t]]. unfold quoted_field, param_field.
  rewrite <- (assoc_L (++)). apply (named_value_read (FPunctuated [u]) KValue); [done| |done].
  destruct t; [apply quoted_ident|apply quoted_debug].
Qed.

(** *** The list of fields *)

Lemma field_not_commas l f r : MacroFields.field l = Matched (f, r) -> all_commas l = false.
Proof.
  unfold all_commas. destruct l as [|t l]; [done|]. destruct t as [s|c|s|d g|e]; try done.
  intros H. cbn [commas]. destruct (String.eqb_spec c ",") as [->|]; [done|]. done.
Qed.
Lemma field_list_next u f r n : MacroFields.field (u ++ comma :: r) = Matched (f, comma :: r) ->
  field_list (S n) (u ++ comma :: r) =
  match field_list n r with Matched (m, fs) => Matched (m, f :: fs) | NoMatch => NoMatch | Fatal => Fatal end.
Proof. intros H. cbn [field_list]. rewrite (field_not_commas _ _ _ H), H. done. Qed.
Lemma param_fields_read ps t n m fs : field_list n t = Matched (m, fs) ->
  field_list (length ps + n) (concat ((fun f => f ++ [comma]) <$> (quoted_field <$> ps)) ++ t) = Matched (m, (param_field <$> ps) ++ fs).
Proof.
  intros H. induction ps as [|p ps IH]; [done|]. cbn [fmap list_fmap concat length app plus]. rewrite <- !(assoc_L (++)). cbn [app].
  rewrite (field_list_next _ (param_field p)) by (apply param_read; by right). by rewrite IH.
Qed.
Lemma custom_fields_read (fs : Fields) n : Forall field_ok (items fs) -> (length (fields_toks fs) < n)%nat ->
  field_list n (fields_toks fs) = Matched (None, custom_field <$> items fs) \/ (items fs = [] /\ trailing fs = true).
Proof.
  destruct fs as [l t]. cbn [items trailing]. intros Hl Hn.
  destruct l as [|f l]; [destruct t; [by right|left]; destruct n; [lia|done]|left].
  unfold fields_toks, punctuated_toks in *. cbn [items trailing] in *. revert f n Hl Hn.
  induction l as [|g l IH]; intros f n [Hf Hl]%Forall_cons Hn.
  - cbn [join_toks] in *. destruct t.
    + destruct n as [|n]; [lia|]. rewrite (field_list_next _ (custom_field f)) by (apply custom_read; [done|by right]).
      rewrite length_app in Hn. cbn in Hn. destruct n as [|n]; [|done].
      pose proof (custom_read f [] Hf (or_introl eq_refl)) as Hc. rewrite app_nil_r in Hc. destruct (field_toks f); [done|cbn in Hn; lia].
    + destruct n as [|n]; [lia|]. cbn [field_list]. pose proof (custom_read f [] Hf (or_introl eq_refl)) as Hc.
      by rewrite (field_not_commas _ _ _ Hc), Hc.
  - change (join_toks field_toks (Punct ",") (f :: g :: l)) with (field_toks f ++ comma :: join_toks field_toks (Punct ",") (g :: l)) in *.
    rewrite <- (assoc_L (++)) in *. cbn [app] in *. destruct n as [|n]; [lia|].
    rewrite (field_list_next _ (custom_field f)) by (apply custom_read; [done|by right]).
    rewrite IH; [done|done|]. rewrite length_app in Hn. cbn [app length] in Hn. lia.
Qed.
Lemma fields_of_read ps (fs : option Fields) :
  (forall fs', fs = Some fs' -> Forall field_ok (items fs') /\ punctuated_ok fs') ->
  let l := concat ((fun f => f ++ [comma]) <$> (quoted_field <$> ps)) ++ match fs with Some fs => fields_toks fs | None => [] end in
  field_list (1 + length l) l = Matched (None, (param_field <$> ps) ++ match fs with Some fs => custom_field <$> items fs | None => [] end).
Proof.
  intros Hfs l. set (t := match fs with Some fs => fields_toks fs | None => [] end) in *.
  assert (field_list (1 + length t) t = Matched (None, match fs with Some fs => custom_field <$> items fs | None => [] end)) as Ht.
  { subst t. destruct fs as [fs|]; [|done]. destruct (Hfs fs eq_refl) as [Hok Hp].
    destruct (custom_fields_read fs (1 + length (fields_toks fs)) Hok) as [H|[H1 H2]]; [lia|done|]. by destruct (Hp H2). }
  rewrite (field_list_fuel _ (length ps + (1 + length l))) by lia. apply param_fields_read.
  rewrite (field_list_fuel _ (1 + length t)); [done| |lia]. subst l. rewrite length_app. lia.
Qed.

Lemma missing_skip (skips : gset string) (names : list string) :
  forallb (fun skip => existsb (String.eqb skip) names) (elements skips) = true <-> forall s, s ∈ skips -> s ∈ names.
Proof.
  rewrite forallb_forall. split; intros H s Hs.
  - assert (In s (elements skips)) as Hin by (apply list_elem_of_In; set_solver).
    apply H, existsb_exists in Hin as (x & Hx & ->%String.eqb_eq). by apply list_elem_of_In.
  - apply list_elem_of_In, elem_of_elements, H in Hs. apply existsb_exists. exists s. split; [by apply list_elem_of_In|].
    apply String.eqb_refl.
Qed.

(** A custom field whose first and last part are the name of a parameter hides it; the
    parameters that are recorded are neither skipped nor hidden. *)
Definition hides (param : string) (f : Field) : Prop :=
  match name f with FExpr _ => False | FPunctuated k => head k = Some param /\ list_basics.list.last k = Some param end.
#[export] Instance hides_dec param f : Decision (hides param f).
Proof. unfold hides. destruct (name f); apply _. Defined.
Definition is_recorded (args : InstrumentArgs) (p : string * (string * RecordType)) : Prop :=
  (skip_all args = false) /\ (fst p ∉ skips args) /\ ~ Exists (hides (fst p)) (from_option items [] (fields args)).
#[export] Instance is_recorded_dec args p : Decision (is_recorded args p).
Proof. unfold is_recorded. apply _. Defined.

Lemma custom_named_hides param f : custom_named param f = true <-> hides param f.
Proof.
  unfold custom_named, hides. destruct (name f) as [e|k]; [done|]. rewrite andb_true_iff, !bool_decide_eq_true.
  split; intros [H1 H2]; split; congruence.
Qed.
Lemma recorded_is args p : recorded args p = true <-> is_recorded args p.
Proof.
  unfold recorded, is_recorded. destruct (skip_all args); cbn [orb]; [naive_solver|].
  case_bool_decide; [naive_solver|]. split; intros H'; [split_and!; [done..|]|destruct H' as (_ & _ & H')].
  - intros Hex. destruct (fields args) as [fs|]; [|by inversion Hex]. rewrite forallb_forall in H'.
    apply Exists_exists in Hex as (f & Hf & Hh%custom_named_hides). apply list_elem_of_In, H' in Hf. by rewrite Hh in Hf.
  - destruct (fields args) as [fs|]; [|done]. apply forallb_forall. intros f Hf%list_elem_of_In.
    apply negb_true_iff, not_true_iff_false. intros Hh%custom_named_hides. apply H', Exists_exists. eauto.
Qed.
Lemma recorded_filter args ps : List.filter (recorded args) ps = filter (is_recorded args) ps.
Proof.
  induction ps as [|p ps IH]; [done|]. rewrite filter_cons. cbn [List.filter]. rewrite IH.
  destruct (recorded args p) eqn:H; case_decide as Hd; try done.
  - exfalso. by apply Hd, recorded_is.
  - exfalso. apply recorded_is in Hd. congruence.
Qed.

(** The expressions of the attribute, as the macros read them. *)
Definition level_quoted (l : AttrLevel.t) : Prop :=
  match l with AttrLevel.Path p => plain_expr p (quoted p) | _ => True end.
Definition parent_quoted (e : option Expr) : Prop := match e with Some e => spells (expr_tokens e) e | None => True end.

Lemma level_plain l : level_quoted l -> plain_expr (level_toks l) (quoted (level_toks l)).
Proof. destruct l; cbn [level_quoted level_toks]; try done; intros _; (split; [apply quoted_path|done]). Qed.
Lemma name_plain args f : plain_expr (span_name_toks args f) (quoted (span_name_toks args f)).
Proof.
  unfold span_name_toks. destruct (span_name args) as [[s|s]|]; (split; [|done]); [apply quoted_lit|apply quoted_ident|apply quoted_lit].
Qed.
Lemma target_spells args : spells (args_target args) (quoted (args_target args)).
Proof. unfold args_target. destruct (target args) as [[s|s]|]; [apply quoted_lit|apply quoted_ident|apply quoted_module_path]. Qed.

Lemma span_call_read args function_name (F : list Tok) : parent_quoted (parent args) -> level_quoted (args_level args) ->
  span ([Ident "target"; Punct ":"] ++ args_target args ++ [comma] ++
        match parent args with Some e => [Ident "parent"; Punct ":"] ++ expr_tokens e ++ [comma] | None => [] end ++
        level_toks (args_level args) ++ [comma] ++ span_name_toks args function_name ++ [comma] ++ F) =
  Matched {| sp_target := quoted (args_target args); sp_parent := parent args;
             sp_level := quoted (level_toks (args_level args)); sp_name := quoted (span_name_toks args function_name); sp_fields := F |}.
Proof.
  intros Hp Hl.
  set (g := Build_Given None (Some (args_target args, quoted (args_target args))) ((fun e => (expr_tokens e, e)) <$> parent args)).
  assert (span_given g) as Hg.
  { split; [done|]. split; [done|]. split; [apply target_spells|]. cbn. destruct (parent args); [exact Hp|done]. }
  pose proof (span_expands g _ _ _ _ (Some F) Hg (level_plain _ Hl) (name_plain args function_name)) as H.
  unfold given_all, SpanMacros.name_toks, g in H. cbn [g_name g_target g_parent] in H. cbn [given_toks app] in H.
  rewrite <- !(assoc_L (++)) in H. cbn [app] in *.
  destruct (parent args) as [e|]; cbn [fmap option_fmap option_map given_toks app] in *; rewrite <- ?(assoc_L (++)) in *; cbn [app] in *; exact H.
Qed.

(** C16: the span that the attribute puts into a function: when a parameter to skip does not
    exist the compilation fails with an error that says so; otherwise the call of [span!]
    expands to a span with the target, the parent, the level and the name of the arguments
    or their defaults, whose fields are the parameters that are neither skipped nor hidden by
    a custom field, recorded by value or with [Debug] after their types, followed by the
    custom fields in their order; the names of the callsite and the values agree. *)
Theorem attribute_span (params : list FnArg) (args : InstrumentArgs) (function_name : string) (self_type : option Ty)
    (fs := renamed_fields (all_params params self_type) self_type <$> fields args)
    (Hparent : parent_quoted (parent args)) (Hlevel : level_quoted (args_level args))
    (Hfields : forall fs', fs = Some fs' -> Forall field_ok (items fs') /\ punctuated_ok fs') :
  let ps := all_params params self_type in
  ((exists s, s ∈ skips args /\ s ∉ fst <$> ps) ->
   gen_span params args function_name self_type = CompileError "attempting to skip non-existent parameter") /\
  ((forall s, s ∈ skips args -> s ∈ fst <$> ps) ->
   exists call sp, gen_span params args function_name self_type = SpanCall call /\ span call = Matched sp /\
     sp_target sp = quoted (args_target args) /\ sp_parent sp = parent args /\
     sp_level sp = quoted (level_toks (args_level args)) /\ sp_name sp = quoted (span_name_toks args function_name) /\
     (exists cs, span_callsite sp = Matched cs /\ cs_kind cs = KindOf Kind.SPAN /\ cs_fields cs = sp_fields sp) /\
     let l := (param_field <$> filter (is_recorded args) ps) ++
              match fs with Some fs => custom_field <$> items fs | None => [] end in
     fieldset (sp_fields sp) = Matched (fst <$> l) /\ valueset_all (sp_fields sp) = Matched (snd <$> l)).
Proof.
  intros ps. unfold gen_span. fold ps.
  destruct (forallb _ (elements (skips args))) eqn:Hskip; cbn [negb].
  - pose proof (proj1 (missing_skip _ _) Hskip) as Hin. split; [intros (s & H1 & H2); by destruct H2; apply Hin|]. intros _.
    eexists _, _. split; [reflexivity|]. split; [by apply span_call_read|]. cbn [sp_target sp_parent sp_level sp_name sp_fields].
    do 4 (split; [done|]). split; [eexists; split; [apply callsite2_parts|done]|]. cbv zeta.
    rewrite recorded_filter. pose proof (fields_of_read (filter (is_recorded args) ps) fs Hfields) as Hl. cbv zeta in Hl.
    assert (forall F, match fields args with Some fs => fields_toks (renamed_fields ps self_type fs) | None => F end =
      match fs with Some fs => fields_toks fs | None => F end) as -> by (intros F; subst fs; by destruct (fields args)).
    rewrite fieldset_follows, valueset_all_follows. unfold fields_of. rewrite Hl. done.
  - split.
    + done.
    + intros H. exfalso. apply not_true_iff_false in Hskip. apply Hskip, missing_skip, H.
Qed.
End span.

(** ** Functions that return a future *)

Section async.
Context {Y : Syn} {T : SynTrees}.
Hypothesis stmt_eq_refl : forall s, stmt_eq s s = true.

Lemma last_expr_in stmts s e : last_expr stmts = Some (s, e) -> s ∈ stmts.
Proof.
  unfold last_expr. intros H.
  assert ((s, e) ∈ omap (fun stmt => match stmt with SExpr e _ => Some (stmt, e) | _ => None end) (rev stmts)) as Hin
    by (destruct (omap _ _); [done|]; injection H as ->; by left).
  apply list_elem_of_omap in Hin as (x & Hx & Heq). destruct x; try done. injection Heq as <- <-.
  apply list_elem_of_In, in_rev. by apply list_elem_of_In.
Qed.
Lemma source_in_block input a : from_fn input = Some a -> source_stmt a ∈ block input /\ a_input a = input.
Proof.
  unfold from_fn. destruct (asyncness (sig input)); [done|]. destruct (last_expr (block input)) as [[s e]|] eqn:Hl; [|done].
  apply last_expr_in in Hl. intros H. cbn [mbind option_bind] in H. repeat case_match; simplify_eq; try (by split); try done.
  destruct (List.find _ _) as [[decl g]|] eqn:Hfind; [|done]. injection H as <-. split; [|done].
  apply find_some in Hfind as [Hin%list_elem_of_In _]. unfold inside_funs in Hin.
  apply list_elem_of_omap in Hin as (x & Hx & Heq).
  destruct x as [f| |]; try done. destruct (asyncness _); [|done]. by injection Heq as <- <-.
Qed.
(** Only one statement changes, one that is equal to the one that was found. *)
Lemma one_stmt_replaced input a new : from_fn input = Some a ->
  exists pre s post, block input = pre ++ s :: post /\ stmt_eq s (source_stmt a) = true /\
    replace_stmt (source_stmt a) new (block input) = (stmt_toks <$> pre) ++ new :: (stmt_toks <$> post).
Proof using stmt_eq_refl.
  intros [Hin _]%source_in_block. induction (block input) as [|s l IH]; [set_solver|]. cbn [replace_stmt].
  destruct (stmt_eq s (source_stmt a)) eqn:Hs.
  - by exists [], s, l.
  - apply elem_of_cons in Hin as [Heq|Hin]; [by rewrite <- Heq, stmt_eq_refl in Hs|].
    destruct (IH Hin) as (pre & s' & post & -> & Hs' & ->). by exists (s :: pre), s', post.
Qed.
(** A function that returns an async block is expanded without the warnings of its
    arguments. *)
Lemma async_block_no_warnings a b pinned self input source (args : InstrumentArgs) (w : string) f :
  let info := {| source_stmt := source; a_kind := AAsync a b pinned; self_type := self; a_input := input |} in
  gen_async info (add_warning w args) f = gen_async info args f.
Proof. done. Qed.
End async.

(** ** A concrete [syn] *)

Fixpoint rename_toks (f : string -> string) (l : list Tok) : list Tok :=
  match l with
  | [] => []
  | Ident s :: l => Ident (f s) :: rename_toks f l
  | t :: l => t :: rename_toks f l
  end.
(** Every item is the function [item]. *)
Definition example_trees (item : ItemFn) : SynTrees := {|
  ty_toks t := match t with TPath ((s, _) :: _) => [Ident s] | _ => [Ident "_"] end;
  args_toks params := [];
  stmt_toks s := match s with SExpr (EOther l) _ | SOther l => l | _ => [] end;
  stmt_eq s s' := match s, s' with SOther _, SOther _ | SExpr _ _, SExpr _ _ | SFn _, SFn _ => true | _, _ => false end;
  visit_expr_mut f _ e := match e with Source l => Source (rename_toks f l) | e => e end;
  parse_item_fn _ := Some item;
  parse_outer l := Some ([], l);
  parse_vis l := Some ([], l);
  parse_sig l := match l with t :: l => Some (sig item, l) | [] => None end;
  parse_inner l := Some ([], l);
|}.

Lemma until_comma_spells t u : until_comma (t :: u) = (t :: u, []) ->
  can_begin_expr t = true -> (forall e, t <> Frag e) -> spells (t :: u) (Source (t :: u)).
Proof.
  intros Hu Ht Hf r. unfold expr. cbn [app]. rewrite Ht. cbn [parse_expr example_parser].
  assert (forall u r, until_comma u = (u, []) -> until_comma (u ++ comma :: r) = (u, comma :: r)) as H.
  { clear. intros u. induction u as [|t u IH]; intros r Hu; [done|]. cbn [app].
    destruct t as [s|c|s|d g|e]; cbn [until_comma] in *; try (injection Hu as H1 H2; by rewrite IH by (by apply injective_projections)).
    destruct (String.eqb c ","); [done|]. injection Hu as H1 H2. by rewrite IH by (by apply injective_projections). }
  change (t :: u ++ comma :: r) with ((t :: u) ++ comma :: r). rewrite (H _ r Hu).
  destruct t; try done. by destruct (Hf e).
Qed.
#[export] Instance example_quotes : QuoteLaws example_syn example_parser.
Proof.
  refine {| quoted := Source |}.
  - intros s. by apply until_comma_spells.
  - intros s. by apply until_comma_spells.
  - by apply until_comma_spells.
  - intros k. cbn [fmap list_fmap concat global_path]. apply until_comma_spells; [|done|done].
    assert (forall k, until_comma (global_path k) = (global_path k, [])) as H.
    { clear. induction k as [|s k IH]; [done|]. unfold global_path in *. cbn. by rewrite IH. }
    apply (H ("tracing" :: k)).
  - intros s. by apply until_comma_spells.
Defined.

Module ExpandExample.
(** [fn work(&self, Point { x, y }: &Point, count: u32)] *)
Definition params : list FnArg :=
  [Receiver; Typed (PStruct [PIdent "x"; PIdent "y"]) (TReference (TPath [("Point", [])])); Typed (PIdent "count") (TPath [("u32", [])])].
Definition work : Signature := {|
  constness := false; asyncness := false; unsafety := []; abi := []; sig_ident := "work"; generics := [];
  inputs := params; variadic := []; output := None; where_clause := [];
|}.
#[local] Instance trees : SynTrees := example_trees (MkItemFn [] [] work []).
(** [skip(self), fields(y = 1, %who)] *)
Definition args : InstrumentArgs :=
  set_skips {[ "self" ]} (set_fields (Some (Build_Punctuated
    [{| name := FPunctuated ["y"]; value := Some (Source [Lit "1"]); kind := KValue |};
     {| name := FPunctuated ["who"]; value := None; kind := KDisplay |}] false)) args_default).
Lemma attribute_span_witness :
  exists call sp, gen_span params args "work" None = SpanCall call /\ span call = Matched sp /\
    fieldset (sp_fields sp) = Matched [NPath ["x"]; NPath ["count"]; NPath ["y"]; NPath ["who"]] /\
    valueset_all (sp_fields sp) =
      Matched [VValue (Source (debug_call "x")); VValue (Source [Ident "count"]); VValue (Source [Lit "1"]); VDisplay (Path ["who"])].
Proof.
  destruct (attribute_span params args "work" None I I) as [_ H].
  { intros fs' [= <-]. split; [|done]. repeat apply Forall_cons_2; [..|done]; (split; [done|]); [|done]. by apply until_comma_spells. }
  destruct H as (call & sp & Hc & Hs & _ & _ & _ & _ & _ & Hn & Hv).
  { intros s Hs. change (s ∈ ({[ "self" ]} : gset string)) in Hs. apply elem_of_singleton in Hs as ->. cbn. set_solver. }
  exists call, sp. split; [exact Hc|]. split; [exact Hs|]. split; [exact Hn|exact Hv].
Defined.

(** A field [count.count] hides the parameter [count]: the first and the last part of the
    name are compared, not their number. *)
Example dotted_field_hides_param :
  recorded (set_fields (Some (Build_Punctuated [{| name := FPunctuated ["count"; "count"]; value := Some (Source [Lit "1"]); kind := KValue |}] false))
    args_default) ("count", ("count", RValue)) = false.
Proof. reflexivity. Qed.
(** An async block that is dropped is instrumented as if it were the result. *)
Example dropped_async_block :
  let dropped := SExpr (EAsync [] [Group Brace []]) true in
  exists a, from_fn (MkItemFn [] [] work [dropped; SOther (q "let y = 1 ;")]) = Some a /\ source_stmt a = dropped.
Proof. eexists. split; reflexivity. Qed.
(** The whole attribute. *)
Example whole_attribute :
  (exists l, instrument [Lit "name"; comma; Ident "err"] [Ident "item"] = Ok l) /\
  instrument [Ident "level"; Punct "="; Lit "loud"] [Ident "item"] = Err level_error.
Proof. split; [eexists|]; vm_compute; reflexivity. Qed.
End ExpandExample.
