(* ===== verification/AttrRun.v ===== *)
(** * AttrRun: what [#[instrument]] makes a function do, [tracing-attributes/src/expand.rs]

    The bodies that [AttrExpand] writes, as programs on the spans of a subscriber: the span
    of a call, the block and the events for its result inside it, for functions and for
    [async] functions.  The block and the events are parameters, with laws. *)

From S2P Require Import Prelude.
From S2P Require Import Str.
From S2P Require Import Levels.
From S2P Require Import Fields.
From S2P Require Import Meta.
From S2P Require Import Interests.
From S2P Require Import FilterIds.
From S2P Require Import SpanStack.
From S2P Require Import Registry.
From S2P Require Import Pools.
From S2P Require Import Contexts.
From S2P Require Import Layers.
From S2P Require Import Stacks.
From S2P Require Import SpanLife.
From S2P Require Import SpanHandles.
From S2P Require Import Instrument.
From S2P Require Import Futures.
From S2P Require Import Tower.

Local Open Scope Z_scope.

Section code.
Context `{E : Env} {P : PoolOps DataInner}.

(** ** The events for the result

    [err_event] and [ret_event]: with the first the function returns a [Result], and the
    second is then for [Ok] only.  The code of a value that is formatted may unwind. *)
Inductive ResultEvents : Type -> Type :=
  | NoEvent {R} : ResultEvents R
  | RetEvent {R} (ret : R -> M (ran unit)) : ResultEvents R
  | ErrEvent {T Er} (err : Er -> M (ran unit)) : ResultEvents (result T Er)
  | ErrRetEvent {T Er} (err : Er -> M (ran unit)) (ret : T -> M (ran unit)) : ResultEvents (result T Er).
Definition emit {R} (ev : ResultEvents R) : R -> M (ran unit) :=
  match ev in ResultEvents R return R -> M (ran unit) with
  | NoEvent => fun _ => mret (Some tt)
  | RetEvent ret => ret
  | ErrEvent err => fun r => match r with Ok _ => mret (Some tt) | Err e => err e end
  | ErrRetEvent err ret => fun r => match r with Ok x => ret x | Err e => err e end
  end.
(** The result, after its events. *)
Definition with_events {R} (ev : ResultEvents R) (r : ran R) : M (ran R) :=
  match r with
  | Some x => e ← emit ev x; mret (match e with Some _ => Some x | None => None end)
  | None => mret None
  end.
(** [for cause in .. { span.follows_from(cause) }] *)
Fixpoint follow (span : Span) (causes : list (option Id)) : M unit :=
  match causes with
  | [] => mret tt
  | cause :: causes => _ ← follows_from span cause; follow span causes
  end.

(** ** Functions

    What [level_enabled!] and [if_log_enabled!] read, the [span!] call, what it follows from,
    the block, which may unwind, and the events. *)
Record FnCode (G T R : Type) := {
  fn_cached : Cached;
  fn_level : Level.t;
  log_enabled : bool;
  site : G;
  causes : list (option Id);
  fn_block : T -> M (ran R);
  events : ResultEvents R;
}.
Arguments fn_cached {G T R}. Arguments fn_level {G T R}. Arguments log_enabled {G T R}. Arguments site {G T R}.
Arguments causes {G T R}. Arguments fn_block {G T R}. Arguments events {G T R}.

Definition level_on {G T R} (f : FnCode G T R) : bool := level_enabled (fn_cached f) (fn_level f) || log_enabled f.
(** The span and the guard, which are left uninitialized when the level is off. *)
Definition open_span {G T R} `{!GetSpan G T} (f : FnCode G T R) (args : T) : M (option Span) :=
  if level_on f then
    span ← span_for (site f) args;
    _ ← follow span (causes f);
    _ ← do_enter span;
    mret (Some span)
  else mret None.
(** The end of the function, and its unwinding: the guard is dropped, and then the span. *)
Definition close_span_of (guard : option Span) : M unit :=
  match guard with Some span => _ ← do_exit span; drop span | None => mret tt end.
Definition run_fn {G T R} `{!GetSpan G T} (f : FnCode G T R) (args : T) : M (ran R) :=
  guard ← open_span f args;
  r ← fn_block f args;
  r ← with_events (events f) r;
  _ ← close_span_of guard;
  mret r.

(** ** [async] functions *)

(** [fut.await]: the future is dropped when it is ready and when it unwinds. *)
Definition await {T A} `{!Future T A} (t : T) : M (option T * Polled A) :=
  '(t, r) ← poll t;
  match r with
  | Pending => mret (Some t, Pending)
  | Ready x => unwinds ← drop_future (A := A) t; mret (None, if (unwinds : bool) then Unwinding else Ready x)
  | Unwinding => _ ← drop_future (A := A) t; mret (None, Unwinding)
  end.

(** [mk_fut]: the future of the block itself, or one that awaits it and records the events.
    A future that is polled again after it was ready unwinds. *)
Inductive BlockFuture (T A : Type) :=
  | JustBlock (t : T)
  | Awaiting (ev : ResultEvents A) (t : T)
  | Awaited.
Arguments JustBlock {T A}. Arguments Awaiting {T A}. Arguments Awaited {T A}.
Definition block_future {T A} (ev : ResultEvents A) (t : T) : BlockFuture T A :=
  match ev with NoEvent => JustBlock t | _ => Awaiting ev t end.
Definition block_poll {T A} `{!Future T A} (self : BlockFuture T A) : M (BlockFuture T A * Polled A) :=
  match self with
  | JustBlock t => '(t, r) ← poll t; mret (JustBlock t, r)
  | Awaiting ev t =>
      '(t, r) ← await t;
      match t, r with
      | Some t, r => mret (Awaiting ev t, r)
      | None, Ready x => e ← emit ev x; mret (Awaited, match e with Some _ => Ready x | None => Unwinding end)
      | None, r => mret (Awaited, r)
      end
  | Awaited => mret (Awaited, Unwinding)
  end.
Definition block_drop {T A} `{!Future T A} (self : BlockFuture T A) : M bool :=
  match self with
  | JustBlock t | Awaiting _ t => drop_future (A := A) t
  | Awaited => mret false
  end.
#[global] Instance block_future_future {T A} `{!Future T A} : Future (BlockFuture T A) A :=
  {| poll := block_poll; drop_future := block_drop |}.

(** The future of the function: before the first poll it has its arguments, in the future of
    the block; then it awaits that future in its span, or without when the span is
    disabled, which it keeps. *)
Inductive AsyncState (T A : Type) :=
  | NotStarted (t : T)
  | InSpan (f : Instrumented (BlockFuture T A))
  | WithoutSpan (f : BlockFuture T A) (span : Span)
  | Returned.
Arguments NotStarted {T A}. Arguments InSpan {T A}. Arguments WithoutSpan {T A}. Arguments Returned {T A}.
Record AsyncFn (G T A : Type) := {
  a_site : G;
  a_causes : list (option Id);
  a_events : ResultEvents A;
  a_state : AsyncState T A;
}.
Arguments a_site {G T A}. Arguments a_causes {G T A}. Arguments a_events {G T A}. Arguments a_state {G T A}.
Definition in_state {G T A} (s : AsyncState T A) (self : AsyncFn G T A) : AsyncFn G T A :=
  {| a_site := a_site self; a_causes := a_causes self; a_events := a_events self; a_state := s |}.

Definition await_in_span {T A} `{!Future T A} (f : Instrumented (BlockFuture T A)) : M (AsyncState T A * Polled A) :=
  '(f, r) ← await f; mret (match f with Some f => InSpan f | None => Returned end, r).
Definition await_without {T A} `{!Future T A} (f : BlockFuture T A) (span : Span) : M (AsyncState T A * Polled A) :=
  '(f, r) ← await f;
  match f with
  | Some f => mret (WithoutSpan f span, r)
  | None => _ ← drop span; mret (Returned, r)
  end.
Definition async_poll {G T A} `{!GetSpan G T} `{!Future T A} (self : AsyncFn G T A) : M (AsyncFn G T A * Polled A) :=
  '(s, r) ←
    match a_state self with
    | NotStarted t =>
        span ← span_for (a_site self) t;
        let fut := block_future (a_events self) t in
        if negb (is_disabled span) then
          _ ← follow span (a_causes self); await_in_span (instrument fut span)
        else await_without fut span
    | InSpan f => await_in_span f
    | WithoutSpan f span => await_without f span
    | Returned => mret (Returned, Unwinding)
    end;
  mret (in_state s self, r).
Definition async_drop {G T A} `{!Future T A} (self : AsyncFn G T A) : M bool :=
  match a_state self with
  | NotStarted t => drop_future (A := A) t
  | InSpan f => drop_future (A := A) f
  | WithoutSpan f span => unwinds ← drop_future (A := A) f; _ ← drop span; mret unwinds
  | Returned => mret false
  end.
#[global] Instance async_fn_future {G T A} `{!GetSpan G T} `{!Future T A} : Future (AsyncFn G T A) A :=
  {| poll := async_poll; drop_future := async_drop |}.

(** ** The [span!] call

    A callsite with the attributes of the span for the arguments, in a dispatcher, and the
    span that its [parent] is, or [none]. *)
Record SpanSite (T : Type) := {
  sp_dispatch : DynSubscriber; sp_cached : Cached; sp_attrs : T -> Attributes; sp_parent : Span;
}.
Arguments sp_dispatch {T}. Arguments sp_cached {T}. Arguments sp_attrs {T}. Arguments sp_parent {T}.
Definition site_span {T} (self : SpanSite T) (args : T) : M Span :=
  let attrs := sp_attrs self args in
  span_macro (sp_dispatch self) (sp_cached self) (Attributes.metadata attrs)
    (make_with (Attributes.metadata attrs) attrs (sp_dispatch self)).
#[global] Instance site_get_span {T} : GetSpan (SpanSite T) T :=
  {| span_for := site_span; clone_get := fun self => mret self |}.
End code.
Arguments fn_cached {_ _ G T R}. Arguments fn_level {_ _ G T R}. Arguments log_enabled {_ _ G T R}.
Arguments site {_ _ G T R}. Arguments causes {_ _ G T R}. Arguments fn_block {_ _ G T R}. Arguments events {_ _ G T R}.
Arguments JustBlock {_ _ T A}. Arguments Awaiting {_ _ T A}. Arguments Awaited {_ _ T A}.
Arguments NotStarted {_ _ T A}. Arguments InSpan {_ _ T A}. Arguments WithoutSpan {_ _ T A}. Arguments Returned {_ _ T A}.
Arguments a_site {_ _ G T A}. Arguments a_causes {_ _ G T A}. Arguments a_events {_ _ G T A}. Arguments a_state {_ _ G T A}.
Arguments sp_dispatch {_ _ T}. Arguments sp_cached {_ _ T}. Arguments sp_attrs {_ _ T}. Arguments sp_parent {_ _ T}.

(** ** Following from other spans

    The callbacks of the layers change the user's state only. *)
Section follows.
Context `{E : Env} {P : PoolOps DataInner} `{!PoolLaws default_data P}.

Definition quiet_follows (e : entry) : Prop :=
  match e with
  | Plain x | WithFilter x _ =>
      forall id from cx w, exists u, l_on_follows_from (leaf_layer x) id from cx w = Done (tt, with_user u w)
  | NoneEntry => True
  end.

Lemma is_enabled_for_reads dtc es id f w : exists b, Context_.is_enabled_for id f (Context_.new (stack dtc es)) w = Done (b, w).
Proof.
  unfold Context_.is_enabled_for, Context_.is_enabled_inner, Context_.span. mred. cbn [Context_.new subscriber filter]. mred.
  rewrite lookup_span_get by apply stack_looks_up. mred. by eexists.
Qed.
Lemma stack_follows_from dtc es id from w :
  Forall quiet_follows es -> (filters es <= 64)%nat ->
  exists u, s_record_follows_from (stack dtc es) id from w = Done (tt, with_user u w).
Proof.
  induction 1 as [|e es He Hes IH]; intros H64.
  - exists (user w). cbn. unfold Registry.record_follows_from. mred. by destruct w.
  - destruct IH as [u1 IH]; [destruct e; cbn [filters] in *; lia|].
    cbn [stack layered_subscriber s_record_follows_from]. mred. rewrite IH.
    destruct e as [x| |x f]; cbn [layer_of filters quiet_follows] in *.
    + destruct (He id from (Context_.new (stack dtc es)) (with_user u1 w)) as [u ->]. by exists u.
    + by exists u1.
    + cbn [filtered_layer l_on_follows_from]. mred. rewrite filtered_id_fid by lia.
      destruct (is_enabled_for_reads dtc es id (fid (Z.of_nat (filters es))) (with_user u1 w)) as [[] ->]; [|by exists u1].
      destruct (is_enabled_for_reads dtc es from (fid (Z.of_nat (filters es))) (with_user u1 w)) as [[] ->]; [|by exists u1].
      destruct (He id from (Context_.with_filter (fid (Z.of_nat (filters es))) (Context_.new (stack dtc es))) (with_user u1 w))
        as [u ->]. by exists u.
Qed.

(** The subscriber of the span is told of each of the causes, in order; a cause without an
    identifier and a disabled span are passed over. *)
Inductive followed (span : Span) : list (option Id) -> World -> World -> Prop :=
  | followed_end w : followed span [] w w
  | followed_disabled cause causes w w' :
      inner span = None -> followed span causes w w' -> followed span (cause :: causes) w w'
  | followed_no_id causes w w' : followed span causes w w' -> followed span (None :: causes) w w'
  | followed_id i from causes w w1 w' :
      inner span = Some i -> s_record_follows_from (subscriber_ i) (inner_id i) from w = Done (tt, w1) ->
      followed span causes w1 w' -> followed span (Some from :: causes) w w'.

Lemma followed_none span causes w : is_disabled span = true -> followed span causes w w.
Proof.
  destruct span as [[] m]; [done|]. intros _. induction causes; [constructor|by apply followed_disabled].
Qed.
Lemma follow_ok es fuel span causes w :
  Forall quiet_follows es -> (filters es <= 64)%nat -> of_dispatch es fuel span ->
  exists u, follow span causes w = Done (tt, with_user u w) /\ followed span causes w (with_user u w).
Proof.
  intros Hq H64 Hd. revert w.
  induction causes as [|cause causes IH]; intros w.
  { assert (with_user (user w) w = w) as Hw by by destruct w. exists (user w). rewrite Hw. split; [done|constructor]. }
  cbn [follow]. mred. unfold follows_from, inner_follows_from. destruct span as [[[i sub]|] m]; cbn [inner].
  - specialize (Hd _ eq_refl). cbn in Hd. subst sub. destruct cause as [from|].
    + destruct (stack_follows_from (close_span fuel es) es i from w Hq H64) as [u1 H1].
      cbn [subscriber_ inner_id]. unfold dispatch. rewrite H1. destruct (IH (with_user u1 w)) as (u & Hu & Hf).
      exists u. split; [exact Hu|]. by eapply followed_id.
    + mred. destruct (IH w) as (u & Hu & Hf). exists u. split; [exact Hu|by apply followed_no_id].
  - mred. destruct (IH w) as (u & Hu & Hf). exists u. split; [exact Hu|by apply followed_disabled].
Qed.
End follows.

(** ** The events of a result

    What runs for a result: nothing, the event for returned values, or that of the side of
    the [Result] that it is. *)
Inductive emitted `{E : Env} {P : PoolOps DataInner} : forall {R}, ResultEvents R -> R -> World -> ran unit -> World -> Prop :=
  | emitted_nothing {R} (x : R) w : emitted NoEvent x w (Some tt) w
  | emitted_return {R} ret (x : R) w e w' : ret x w = Done (e, w') -> emitted (RetEvent ret) x w e w'
  | emitted_ok {T Er} err (x : T) w : emitted (ErrEvent err) (Ok x : result T Er) w (Some tt) w
  | emitted_error {T Er} err (x : Er) w e w' :
      err x w = Done (e, w') -> emitted (ErrEvent err) (Err x : result T Er) w e w'
  | emitted_ok_of_both {T Er} err ret (x : T) w e w' :
      ret x w = Done (e, w') -> emitted (ErrRetEvent err ret) (Ok x : result T Er) w e w'
  | emitted_error_of_both {T Er} err ret (x : Er) w e w' :
      err x w = Done (e, w') -> emitted (ErrRetEvent err ret) (Err x : result T Er) w e w'.
Lemma emit_emitted `{E : Env} {P : PoolOps DataInner} {R} (ev : ResultEvents R) x w e w' :
  emit ev x w = Done (e, w') -> emitted ev x w e w'.
Proof.
  destruct ev as [|R ret|T Er err|T Er err ret]; cbn [emit].
  - intros [= <- <-]. constructor.
  - by constructor.
  - destruct x; [intros [= <- <-]; constructor|by constructor].
  - by destruct x; constructor.
Qed.

(** A poll of the future of the block: of the block itself, and when there are events, which
    come once it is ready, it is dropped before them. *)
Inductive block_polled `{E : Env} {P : PoolOps DataInner} {T A} `{!Future T A} :
    BlockFuture T A -> World -> BlockFuture T A -> Polled A -> World -> Prop :=
  | just_polled t t' r w w' : poll t w = Done ((t', r), w') -> block_polled (JustBlock t) w (JustBlock t') r w'
  | awaited_pending ev t t' w w' :
      poll t w = Done ((t', Pending), w') -> block_polled (Awaiting ev t) w (Awaiting ev t') Pending w'
  | awaited_ready ev t t' x w w1 w2 e w' :
      poll t w = Done ((t', Ready x), w1) -> drop_future (A := A) t' w1 = Done (false, w2) -> emitted ev x w2 e w' ->
      block_polled (Awaiting ev t) w Awaited (match e with Some _ => Ready x | None => Unwinding end) w'
  | awaited_ready_drop ev t t' x w w1 w' :
      poll t w = Done ((t', Ready x), w1) -> drop_future (A := A) t' w1 = Done (true, w') ->
      block_polled (Awaiting ev t) w Awaited Unwinding w'
  | awaited_unwinds ev t t' b w w1 w' :
      poll t w = Done ((t', Unwinding), w1) -> drop_future (A := A) t' w1 = Done (b, w') ->
      block_polled (Awaiting ev t) w Awaited Unwinding w'
  | awaited_again w : block_polled Awaited w Awaited Unwinding w.
Lemma block_poll_polled `{E : Env} {P : PoolOps DataInner} {T A} `{!Future T A} (f f' : BlockFuture T A) r w w' :
  poll f w = Done ((f', r), w') -> block_polled f w f' r w'.
Proof.
  cbn [poll block_future_future]. destruct f as [t|ev t|]; cbn [block_poll].
  - mred. destruct (poll t w) as [[[t' r'] w1]|] eqn:Hp; [|done]. intros [= <- <- <-]. by constructor.
  - unfold await. mred. destruct (poll t w) as [[[t' [x| |]] w1]|] eqn:Hp; [..|done].
    + destruct (drop_future t' w1) as [[[] w2]|] eqn:Hd; [..|done].
      * intros [= <- <- <-]. by eapply awaited_ready_drop.
      * destruct (emit ev x w2) as [[e w3]|] eqn:He; [|done]. intros [= <- <- <-].
        eapply awaited_ready; [done..|by apply emit_emitted].
    + intros [= <- <- <-]. by constructor.
    + destruct (drop_future t' w1) as [[b w2]|] eqn:Hd; [|done]. intros [= <- <- <-]. by eapply awaited_unwinds.
  - intros [= <- <- <-]. constructor.
Qed.

(** ** Code that keeps to the rules *)

Definition no_handles : handles := fun _ => 0%nat.

Section laws.
Context `{E : Env} {P : PoolOps DataInner} `{!PoolLaws default_data P}.
Variables (es : list entry) (fuel : nat).

(** Code that owns the handles [mine] and uses them up: it makes at most [c] references,
    leaves the entered spans as they were, and does not panic. *)
Definition code_ok {R} (c : nat) (mine : handles) (f : M R) : Prop :=
  forall h n l w, settled es (add mine h) n w -> entered_are l w -> room fuel c n w ->
    exists r w', f w = Done (r, w') /\ after es c h n l w w'.
Definition events_ok {R} (c : nat) (ev : ResultEvents R) : Prop := forall x, code_ok c no_handles (emit ev x).

Hypotheses (Hok : Forall entry_ok es) (H64 : (filters es < 64)%nat) (Hne : es <> []) (Hq : Forall quiet_follows es).

Ltac rearrange :=
  eapply settled_ext; [|eassumption]; intros ?; unfold add, no_handles; cbn [from_option i_span i_inner instrument]; lia.

Lemma settled_user h n w u : settled es h n w -> settled es h n (with_user u w).
Proof using Type. clear Hok H64 Hne Hq. by intros []. Qed.

(** The [span!] of the attribute. *)
#[export] Instance site_laws {T} : unlimited -> GetSpanLaws es fuel (SpanSite T) T.
Proof using Hok H64.
  clear Hne Hq. intros Hpool.
  refine {| get_ok (g : SpanSite T) := sp_dispatch g = dispatch es fuel /\
              (forall args up, Attributes.parent (sp_attrs g args) = Some up -> SpanHandles.id (sp_parent g) = Some up);
            get_own g := span_own (sp_parent g); get_cost := 2 |}.
  intros g args h n l w [Hg Hp] Hs Hl [Hn Hf]. cbn [span_for site_get_span]. unfold site_span. rewrite Hg.
  set (attrs := sp_attrs g args) in *.
  destruct (new_span_settled es (add (span_own (sp_parent g)) h) n w attrs (interest (sp_cached g)) (close_span fuel es))
    as (r & w' & Hrun & Hs' & Hcs & Hz); [done..|lia| |].
  { intros up Hup. exists (id_to_idx up). rewrite id_of_idx. split; [done|]. unfold add, span_own.
    rewrite (Hp args up Hup), decide_True by done. lia. }
  unfold span_macro. destruct (level_enabled (sp_cached g) _); mred.
  - exists (to_span es fuel (Attributes.metadata attrs) r), w'. split_and!.
    + revert Hrun. unfold dispatch. mred. destruct (callsite_enabled _ _ _ w) as [[[] w1]|]; cbn; [|by intros [= <- <-]|done].
      unfold make_with. mred. destruct (s_new_span _ attrs w1) as [[i w2]|]; cbn; [|done]. by intros [= <- <-].
    + intros i. apply to_span_id.
    + split; [|unfold entered_are; by rewrite Hcs|lia]. apply (settled_more es _ (S (S n))); [|lia].
      eapply settled_ext; [|exact Hs']. intros k. unfold span_own at 1, add. rewrite (proj1 (to_span_id es fuel _ r)).
      destruct r as [i|]; [|done]. unfold upd. destruct (decide (id_to_idx i = k)) as [<-|]; [by rewrite decide_True|].
      by rewrite decide_False by congruence.
  - exists none, w. split_and!; [done|done|]. split; [|done|lia]. apply (settled_more es _ n); [|lia]. by eapply settled_ext; [|exact Hs].
Defined.

(** ** A call of a function *)

Lemma with_events_ok {R} c (ev : ResultEvents R) r : events_ok c ev -> code_ok c no_handles (with_events ev r).
Proof using Type.
  clear Hok H64 Hne Hq. intros Hev h n l w Hs Hl Hr. destruct r as [x|].
  - destruct (Hev x h n l w Hs Hl Hr) as (e & w' & H & Ha). cbn [with_events]. mred. rewrite H. by eexists _, w'.
  - exists None, w. split; [done|]. split; [|done|lia]. apply (settled_more es _ n); [|lia]. by eapply settled_ext; [|exact Hs].
Qed.

(** The guard after the span was made and told what it follows from. *)
Definition opened {G T R} `{!GetSpan G T} (f : FnCode G T R) (args : T) (w : World) (o : option Span) (w' : World) : Prop :=
  if level_on f then
    exists span w1 w2, o = Some span /\ span_for (site f) args w = Done (span, w1) /\
      followed span (causes f) w1 w2 /\ do_enter span w2 = Done (tt, w')
  else o = None /\ w' = w.
(** It is left, and then the handle of the span is dropped. *)
Definition closed (o : option Span) (w w' : World) : Prop :=
  match o with
  | Some span => exists w1, do_exit span w = Done (tt, w1) /\ drop span w1 = Done (tt, w')
  | None => w' = w
  end.
(** The result is that of the block, after its events, and is lost when one of them unwinds. *)
Definition with_emitted {R} (ev : ResultEvents R) (rb : ran R) (w : World) (r : ran R) (w' : World) : Prop :=
  match rb with
  | Some x => exists e, emitted ev x w e w' /\ r = match e with Some _ => Some x | None => None end
  | None => r = None /\ w' = w
  end.

Lemma open_span_ok {G T R} `{!GetSpan G T} `{!GetSpanLaws es fuel G T} (f : FnCode G T R) args h n l w :
  get_ok es fuel (site f) -> settled es (add (get_own es fuel (site f)) h) n w -> entered_are l w ->
  room fuel (get_cost es fuel) n w ->
  exists o w', open_span f args w = Done (o, w') /\ opened f args w o w' /\
    (forall span, o = Some span -> of_dispatch es fuel span) /\
    after es (get_cost es fuel) (add (from_option span_own no_handles o) (add (get_own es fuel (site f)) h)) n
      (from_option (fun span => enter_on span l) l o) w w'.
Proof using Hok H64 Hq.
  clear Hne. intros Hg Hs Hl Hr. unfold open_span, opened. destruct (level_on f).
  2:{ exists None, w. split_and!; [done..|]. split; [|done|lia]. apply (settled_more es _ n); [|lia].
      by eapply settled_ext; [|exact Hs]. }
  destruct (span_for_ok es fuel (site f) args h n l w Hg Hs Hl Hr) as (span & w1 & H1 & Hd & [Hs1 Hl1 Hz1]).
  destruct (follow_ok es fuel span (causes f) w1 Hq ltac:(lia) Hd) as (u & H2 & Hu).
  destruct (enter_exit_ok es fuel Hok H64 span (add (get_own es fuel (site f)) h) (n + get_cost es fuel) l (with_user u w1) Hd)
    as [(w3 & H3 & Hs3 & Hsp3 & Hl3) _]; [by apply settled_user|done|].
  exists (Some span), w3. mred. rewrite H1, H2, H3. split_and!; [done|by eauto 10|by intros ? [= <-]|].
  split; [done|done|]. by rewrite Hsp3.
Qed.

(** The end of it. *)
Lemma close_span_ok (o : option Span) h n l w :
  (forall span, o = Some span -> of_dispatch es fuel span) -> settled es (add (from_option span_own no_handles o) h) n w ->
  entered_are (from_option (fun span => enter_on span l) l o) w -> room fuel 0 n w ->
  exists w', close_span_of o w = Done (tt, w') /\ closed o w w' /\ after es 0 h n l w w'.
Proof using Hok H64 Hne.
  clear Hq. intros Hd Hs Hl [Hn Hf]. destruct o as [span|]; cbn in *.
  2:{ exists w. split; [done|]. split; [done|]. split; [|done|lia]. rewrite Nat.add_0_r. by eapply settled_ext; [|exact Hs]. }
  specialize (Hd span eq_refl).
  destruct (enter_exit_ok es fuel Hok H64 span h n _ w Hd Hs Hl) as [_ Hexit].
  destruct (Hexit l eq_refl) as (w1 & H1 & Hs1 & Hsp1 & Hl1).
  destruct (drop_span_ok es fuel Hok H64 Hne span h n w1 Hd Hs1) as (w2 & H2 & Hs2 & Hc2 & Hz2); [lia|rewrite Hsp1; lia|].
  exists w2. mred. rewrite H1, H2. split; [done|]. split; [by exists w1|]. split; [by rewrite Nat.add_0_r|unfold entered_are; by rewrite Hc2|].
  rewrite Hsp1 in Hz2. lia.
Qed.

Lemma with_events_emitted {R} (ev : ResultEvents R) rb w r w' :
  with_events ev rb w = Done (r, w') -> with_emitted ev rb w r w'.
Proof using Type.
  clear Hok H64 Hne Hq. destruct rb as [x|]; cbn [with_events with_emitted]; mred; [|by intros [= <- <-]].
  destruct (emit ev x w) as [[e w1]|] eqn:He; [|done]. intros [= <- <-]. exists e. split; [by apply emit_emitted|done].
Qed.

Lemma run_fn_ok {G T R} `{!GetSpan G T} `{!GetSpanLaws es fuel G T} (f : FnCode G T R) args mine cb ce h n l w :
  get_ok es fuel (site f) -> code_ok cb mine (fn_block f args) -> events_ok ce (events f) ->
  settled es (add (get_own es fuel (site f)) (add mine h)) n w -> entered_are l w ->
  room fuel (get_cost es fuel + cb + ce) n w ->
  exists o w1 rb w2 r w3 w', opened f args w o w1 /\
    entered_are (from_option (fun span => enter_on span l) l o) w1 /\
    fn_block f args w1 = Done (rb, w2) /\ entered_are (from_option (fun span => enter_on span l) l o) w2 /\
    with_emitted (events f) rb w2 r w3 /\ entered_are (from_option (fun span => enter_on span l) l o) w3 /\
    closed o w3 w' /\ run_fn f args w = Done (r, w') /\
    after es (get_cost es fuel + cb + ce) (add (get_own es fuel (site f)) h) n l w w'.
Proof using Hok H64 Hne Hq.
  intros Hg Hblock Hev Hs Hl [Hn Hf].
  destruct (open_span_ok f args (add mine h) n l w Hg) as (o & w1 & H1 & Ho & Hd & [Hs1 Hl1 Hz1]); [done|done|split; lia|].
  set (spans_ := from_option (fun span => enter_on span l) l o) in *.
  set (own_o := from_option span_own no_handles o) in *.
  destruct (Hblock (add own_o (add (get_own es fuel (site f)) h)) (n + get_cost es fuel)%nat spans_ w1)
    as (rb & w2 & H2 & [Hs2 Hl2 Hz2]); [rearrange|done|split; lia|].
  destruct (with_events_ok ce (events f) rb Hev (add own_o (add (get_own es fuel (site f)) h)) (n + get_cost es fuel + cb)%nat spans_ w2)
    as (r & w3 & H3 & [Hs3 Hl3 Hz3]); [by eapply settled_ext; [|exact Hs2]|done|split; lia|].
  destruct (close_span_ok o (add (get_own es fuel (site f)) h) (n + get_cost es fuel + cb + ce)%nat l w3 Hd Hs3 Hl3)
    as (w4 & H4 & Hc & [Hs4 Hl4 Hz4]); [split; lia|].
  exists o, w1, rb, w2, r, w3, w4. split_and!; try done.
  - by apply with_events_emitted.
  - unfold run_fn. mred. by rewrite H1, H2, H3, H4.
  - split; [|done|lia]. apply (settled_more es _ (n + get_cost es fuel + cb + ce + 0)); [done|lia].
Qed.

(** ** [async] functions *)

Lemma after_trans c1 c2 h1 h2 n l1 l2 w1 w2 w3 :
  after es c1 h1 n l1 w1 w2 -> after es c2 h2 (n + c1) l2 w2 w3 -> after es (c1 + c2) h2 n l2 w1 w3.
Proof using Type.
  clear Hok H64 Hne Hq. intros [_ _ Hz1] [Hs Hl Hz2]. split; [by rewrite Nat.add_assoc|done|lia].
Qed.

(** What [.await] makes of the poll [r] that left [t]: the future is kept while it is pending
    and else dropped, and a drop that unwinds takes the place of the result. *)
Definition awaited {T A} `{!Future T A} (t : T) (r : Polled A) (w : World) (o : option T) (r' : Polled A) (w' : World) : Prop :=
  match r with
  | Pending => o = Some t /\ r' = Pending /\ w' = w
  | Ready x => o = None /\ exists b, drop_future (A := A) t w = Done (b, w') /\ r' = if b then Unwinding else Ready x
  | Unwinding => o = None /\ r' = Unwinding /\ exists b, drop_future (A := A) t w = Done (b, w')
  end.
Lemma await_ok {T A} `{!Future T A} `{!FutureLaws es fuel T A} (t : T) h n l w :
  fut_ok t -> settled es (add (own t) h) n w -> entered_are l w ->
  room fuel (cost es fuel + cost es fuel) n w ->
  exists o r w', await t w = Done ((o, r), w') /\
    match o with Some t' => fut_ok t' /\ r = Pending | None => r <> Pending end /\
    (exists t' r' w1, poll t w = Done ((t', r'), w1) /\ awaited t' r' w1 o r w') /\
    after es (cost es fuel + cost es fuel) (add (from_option own no_handles o) h) n l w w'.
Proof using Type.
  clear Hok H64 Hne Hq. intros Ht Hs Hl [Hn Hf].
  destruct (poll_ok es fuel t h n l w Ht Hs Hl) as (t' & r & w1 & H1 & Ht' & Ha1); [split; lia|].
  pose proof Ha1 as [Hs1 Hl1 Hz1]. unfold await. mred. rewrite H1.
  destruct r as [x| |].
  2:{ exists (Some t'), Pending, w1. split_and!; [done|done|done|by exists t', Pending, w1|].
      split; [|done|lia]. apply (settled_more es _ (n + cost es fuel)); [done|lia]. }
  all: destruct (drop_ok es fuel t' h (n + cost es fuel)%nat l w1 Ht' Hs1 Hl1) as (b & w2 & H2 & Ha2); [split; lia|]; rewrite H2.
  - exists None, (if b then Unwinding else Ready x), w2.
    split_and!; [done|by destruct b|exists t', (Ready x), w1; split; [done|split; [done|by exists b]]|].
    eapply after_weaken; [by eapply after_trans|done|done].
  - exists None, Unwinding, w2. split_and!; [done|done|exists t', Unwinding, w1; split; [done|split_and!; [done|done|by exists b]]|].
    eapply after_weaken; [by eapply after_trans|done|done].
Qed.

Definition block_ok {T A} `{!Future T A} `{!FutureLaws es fuel T A} (ce : nat) (f : BlockFuture T A) : Prop :=
  match f with JustBlock t => fut_ok t | Awaiting ev t => fut_ok t /\ events_ok ce ev | Awaited => True end.
Definition block_own {T A} `{!Future T A} `{!FutureLaws es fuel T A} (f : BlockFuture T A) : handles :=
  match f with JustBlock t | Awaiting _ t => own t | Awaited => no_handles end.
Definition block_cost {T A} `{!Future T A} `{!FutureLaws es fuel T A} (ce : nat) : nat := cost es fuel + cost es fuel + ce.

Lemma after_nothing c h h' n l w : settled es h n w -> entered_are l w -> (forall k, h' k = h k) -> after es c h' n l w w.
Proof using Type.
  clear Hok H64 Hne Hq. intros Hs Hl Hh. split; [|done|lia]. apply (settled_more es _ n); [|lia]. by eapply settled_ext.
Qed.

(** The future of the block with its events. *)
Lemma block_poll_ok {T A} `{!Future T A} `{!FutureLaws es fuel T A} ce (f : BlockFuture T A) h n l w :
  block_ok ce f -> settled es (add (block_own f) h) n w -> entered_are l w -> room fuel (block_cost ce) n w ->
  exists f' r w', poll f w = Done ((f', r), w') /\ block_ok ce f' /\ after es (block_cost ce) (add (block_own f') h) n l w w'.
Proof using Type.
  clear Hok H64 Hne Hq. unfold block_cost. intros Hb Hs Hl [Hn Hf]. destruct f as [t|ev t|]; cbn [block_ok block_own] in *.
  - destruct (poll_ok es fuel t h n l w Hb Hs Hl) as (t' & r & w' & H & Ht' & Ha); [split; lia|].
    exists (JustBlock t'), r, w'. split_and!; [|done|eapply after_weaken; [done|lia|done]].
    cbn [poll block_future_future block_poll]. mred. by rewrite H.
  - destruct Hb as [Ht Hev].
    destruct (await_ok t h n l w Ht Hs Hl) as (o & r & w1 & H1 & Ho & _ & Ha); [split; lia|].
    cbn [poll block_future_future block_poll]. mred. rewrite H1. destruct o as [t'|].
    + destruct Ho as [Ht' ->]. exists (Awaiting ev t'), Pending, w1. split_and!; [done..|]. eapply after_weaken; [done|lia|done].
    + destruct r as [x| |]; [|done|].
      * pose proof Ha as [Hs1 Hl1 Hz1]. destruct (Hev x h _ l w1 Hs1 Hl1) as (e & w2 & H2 & Ha2); [split; lia|].
        rewrite H2. exists Awaited, (match e with Some _ => Ready x | None => Unwinding end), w2. split_and!; [done..|].
        eapply after_weaken; [by eapply after_trans|lia|done].
      * exists Awaited, Unwinding, w1. split_and!; [done..|]. eapply after_weaken; [done|lia|done].
  - exists Awaited, Unwinding, w. split_and!; [done..|]. by eapply after_nothing.
Qed.
#[export] Instance block_future_laws {T A} `{!Future T A} `{!FutureLaws es fuel T A} (ce : nat) :
  FutureLaws es fuel (BlockFuture T A) A.
Proof using Type.
  clear Hok H64 Hne Hq. refine {| fut_ok := block_ok ce; own := block_own; cost := block_cost ce |}.
  - intros f h n l w. apply block_poll_ok.
  - unfold block_cost. intros f h n l w Hb Hs Hl [Hn Hf]. destruct f as [t|ev t|]; cbn [block_ok block_own] in *.
    1,2: destruct (drop_ok es fuel t h n l w ltac:(naive_solver) Hs Hl) as (b & w' & H & Ha); [split; lia|];
      exists b, w'; split; [exact H|eapply after_weaken; [done|lia|done]].
    exists false, w. split; [done|]. by eapply after_nothing.
Defined.

Definition async_ok {G T A} `{!GetSpan G T} `{!GetSpanLaws es fuel G T} `{!Future T A} `{!FutureLaws es fuel T A} (ce : nat)
    (self : AsyncFn G T A) : Prop :=
  get_ok es fuel (a_site self) /\ (forall k, get_own es fuel (a_site self) k = 0%nat) /\ events_ok ce (a_events self) /\
  match a_state self with
  | NotStarted t => fut_ok t
  | InSpan f => block_ok ce (i_inner f) /\ of_dispatch es fuel (i_span f) /\ is_disabled (i_span f) = false
  | WithoutSpan f span => block_ok ce f /\ is_disabled span = true
  | Returned => True
  end.
Definition async_own {G T A} `{!Future T A} `{!FutureLaws es fuel T A} (self : AsyncFn G T A) : handles :=
  match a_state self with
  | NotStarted t => own t
  | InSpan f => add (span_own (i_span f)) (block_own (i_inner f))
  | WithoutSpan f span => block_own f
  | Returned => no_handles
  end.
(** The state that keeps a future and the span that it is polled in. *)
Definition kept {T A} (f : BlockFuture T A) (span : Span) : AsyncState T A :=
  if is_disabled span then WithoutSpan f span else InSpan (instrument f span).
(** [f] is polled once, with the span entered and left again; it is kept with the same span
    while it is pending, and else dropped with it. *)
Definition polled_in {T A} `{!Future T A} (f : BlockFuture T A) (span : Span) (l : list Id) (w : World)
    (s : AsyncState T A) (r : Polled A) (w' : World) : Prop :=
  exists w1 f1 r1 w2 w3, do_enter span w = Done (tt, w1) /\ entered_are (enter_on span l) w1 /\
    block_polled f w1 f1 r1 w2 /\ do_exit span w2 = Done (tt, w3) /\
    exists o, awaited (instrument f1 span) r1 w3 o r w' /\
      s = match o with Some _ => kept f1 span | None => Returned end.

Section async.
Context {G T A : Type} `{!GetSpan G T} `{GL : !GetSpanLaws es fuel G T} `{!Future T A} `{FL : !FutureLaws es fuel T A} (ce : nat).
Let in_span_laws : FutureLaws es fuel (Instrumented (BlockFuture T A)) A :=
  instrumented_laws es fuel Hok H64 Hne (FutureLaws0 := block_future_laws ce).

Lemma block_future_ok (ev : ResultEvents A) (t : T) :
  fut_ok t -> events_ok ce ev -> block_ok ce (block_future ev t) /\ forall k, block_own (block_future ev t) k = own t k.
Proof using Type. clear Hok H64 Hne Hq in_span_laws. by destruct ev. Qed.

Lemma await_in_span_ok (f : BlockFuture T A) span h n l w :
  block_ok ce f -> of_dispatch es fuel span -> settled es (add (add (span_own span) (block_own f)) h) n w -> entered_are l w ->
  room fuel (block_cost ce + block_cost ce) n w ->
  is_disabled span = false ->
  exists s r w', await_in_span (instrument f span) w = Done ((s, r), w') /\
    match s with
    | InSpan f' => block_ok ce (i_inner f') /\ of_dispatch es fuel (i_span f') /\ is_disabled (i_span f') = false /\ r = Pending
    | Returned => r <> Pending
    | _ => False
    end /\
    polled_in f span l w s r w' /\
    after es (block_cost ce + block_cost ce)
      (add (match s with InSpan f' => add (span_own (i_span f')) (block_own (i_inner f')) | _ => no_handles end) h) n l w w'.
Proof using Hok H64 Hne.
  clear Hq. intros Hf Hd Hs Hl Hr Hen.
  destruct (instrumented_spec es fuel Hok H64 Hne (FutureLaws0 := block_future_laws ce) f span h n l w Hf Hd Hs Hl)
    as [(w1 & f' & r' & w2 & w3 & H1 & Hl1 & Hpoll & Hi & _) _]; [change (room fuel (block_cost ce) n w); destruct Hr; split; lia|].
  destruct (await_ok (FutureLaws0 := in_span_laws) (instrument f span) h n l w (conj Hf Hd) Hs Hl Hr)
    as (o & r & w' & Hrun & Ho & (t1 & r1 & w4 & Hp & Haw) & Ha).
  rewrite Hi in Hp. injection Hp as <- <- <-.
  assert (forall f1, o = Some f1 -> f1 = instrument f' span) as Hkept.
  { intros f1 ->. destruct r'; [by destruct Haw|by destruct Haw as ([= ->] & _)|by destruct Haw]. }
  exists (match o with Some f => InSpan f | None => Returned end), r, w'. split_and!.
  - unfold await_in_span. mred. by rewrite Hrun.
  - destruct o as [f1|]; [|done]. destruct Ho as [[Hf1 Hd1] ->]. by rewrite (Hkept f1 eq_refl) in Hf1 |- *.
  - exists w1, f', r', w2, w3. split; [done|]. split; [done|]. split; [by apply block_poll_polled|].
    assert (do_exit span w2 = Done (tt, w3)) as Hx.
    { cbn [poll instrumented_future] in Hi. unfold instrumented_poll in Hi. revert Hi. mred. cbn [i_span i_inner instrument].
      rewrite H1, Hpoll. destruct (do_exit span w2) as [[[] w5]|]; [|done]. by intros [= <-]. }
    split; [done|]. exists o. split; [done|]. unfold kept. rewrite Hen. destruct o as [f1|]; [|done].
    by rewrite (Hkept f1 eq_refl).
  - by destruct o.
Qed.

Lemma await_without_ok (f : BlockFuture T A) span h n l w :
  block_ok ce f -> is_disabled span = true -> settled es (add (block_own f) h) n w -> entered_are l w ->
  room fuel (block_cost ce + block_cost ce) n w ->
  exists s r w', await_without f span w = Done ((s, r), w') /\
    match s with
    | WithoutSpan f' span' => block_ok ce f' /\ is_disabled span' = true /\ r = Pending
    | Returned => r <> Pending
    | _ => False
    end /\
    polled_in f span l w s r w' /\
    after es (block_cost ce + block_cost ce)
      (add (match s with WithoutSpan f' _ => block_own f' | _ => no_handles end) h) n l w w'.
Proof using Type.
  clear Hok H64 Hne Hq in_span_laws. intros Hf Hd Hs Hl Hr. destruct span as [[i|] m]; [done|].
  destruct (await_ok (FutureLaws0 := block_future_laws ce) f h n l w Hf Hs Hl Hr)
    as (o & r & w' & Hrun & Ho & (f1 & r1 & w1 & Hpoll & Haw) & Ha).
  set (span := {| inner := None; meta := m |}).
  assert (polled_in f span l w match o with Some f' => WithoutSpan f' span | None => Returned end r w') as Hin.
  { exists w, f1, r1, w1, w1. split; [done|]. split; [done|]. split; [by apply block_poll_polled|]. split; [done|].
    assert (forall b v v', drop_future (A := A) f1 v = Done (b, v') -> drop_future (A := A) (instrument f1 span) v = Done (b, v')) as Hdrop.
    { intros b v v' Hv. change (instrumented_drop (instrument f1 span) v = Done (b, v')). unfold instrumented_drop, do_enter, do_exit, drop.
      mred. cbn [i_span i_inner instrument span inner]. mred. by rewrite Hv. }
    destruct r1 as [x| |]; cbn [awaited] in *.
    - destruct Haw as (-> & b & Hv & ->). exists None. split; [|done]. split; [done|]. exists b. by eauto.
    - destruct Haw as (-> & -> & ->). by exists (Some (instrument f1 span)).
    - destruct Haw as (-> & -> & b & Hv). exists None. split; [|done]. split_and!; [done..|]. exists b. by eauto. }
  unfold await_without. mred. rewrite Hrun. destruct o as [f'|].
  - destruct Ho as [Hf' ->]. by exists (WithoutSpan f' span), Pending, w'.
  - by exists Returned, r, w'.
Qed.

Definition async_cost : nat := get_cost es fuel + (block_cost ce + block_cost ce).
(** A poll of the future of the function: the first one makes the span. *)
Definition polled_as (self : AsyncFn G T A) (l : list Id) (w : World) (s : AsyncState T A) (r : Polled A) (w' : World) : Prop :=
  match a_state self with
  | NotStarted t =>
      exists span w1 w2, span_for (a_site self) t w = Done (span, w1) /\ followed span (a_causes self) w1 w2 /\
        polled_in (block_future (a_events self) t) span l w2 s r w'
  | InSpan f => polled_in (i_inner f) (i_span f) l w s r w'
  | WithoutSpan f span => polled_in f span l w s r w'
  | Returned => s = Returned /\ r = Unwinding /\ w' = w
  end.
Definition state_after (self self' : AsyncFn G T A) (s : AsyncState T A) (r : Polled A) : Prop :=
  self' = in_state s self /\ match s with NotStarted _ => False | Returned => r <> Pending | _ => r = Pending end.

Ltac step_done := split; [reflexivity|]; split; [naive_solver|]; split; [naive_solver|]; split; [by eauto 10 using followed_none|].

Lemma async_poll_ok (self : AsyncFn G T A) h n l w :
  async_ok ce self -> settled es (add (async_own self) h) n w -> entered_are l w -> room fuel async_cost n w ->
  exists s r w', poll self w = Done ((in_state s self, r), w') /\ async_ok ce (in_state s self) /\
    state_after self (in_state s self) s r /\ polled_as self l w s r w' /\
    after es async_cost (add (async_own (in_state s self)) h) n l w w'.
Proof using Hok H64 Hne Hq.
  unfold async_cost, polled_as, async_ok, async_own, state_after. intros (Hg & Hg0 & Hev & Hst) Hs Hl [Hn Hf].
  cbn [poll async_fn_future]. unfold async_poll. cbn [a_site a_events a_causes a_state in_state].
  destruct (a_state self) as [t|[f span]|f span|]; cbn [i_inner i_span] in *.
  - destruct (span_for_ok es fuel (a_site self) t (add (own t) h) n l w Hg) as (span & w1 & H1 & Hd & [Hs1 Hl1 Hz1]);
      [eapply settled_ext; [|exact Hs]; intros k; unfold add; by rewrite Hg0|done|split; lia|].
    destruct (block_future_ok (a_events self) t Hst Hev) as [Hb Hbo]. mred. rewrite H1.
    destruct (is_disabled span) eqn:Hdis; cbn [negb].
    + destruct (await_without_ok (block_future (a_events self) t) span h (n + get_cost es fuel)%nat l w1 Hb Hdis)
        as (s & r & w' & Hrun & Hs' & Hin & Ha); [|done|split; lia|].
      { eapply settled_ext; [|exact Hs1]. intros k. unfold add. rewrite Hg0, Hbo. destruct span as [[]]; done. }
      rewrite Hrun. exists s, r, w'. destruct s; try done; step_done; (eapply after_trans; [by split|exact Ha]).
    + destruct (follow_ok es fuel span (a_causes self) w1 Hq ltac:(lia) Hd) as (u & H2 & Hu). mred. rewrite H2.
      apply (settled_user _ _ _ u) in Hs1.
      destruct (await_in_span_ok (block_future (a_events self) t) span h (n + get_cost es fuel)%nat l (with_user u w1) Hb Hd)
        as (s & r & w' & Hrun & Hs' & Hin & Ha); [|done|split; [lia|cbn; lia]|done|].
      { eapply settled_ext; [|exact Hs1]. intros k. unfold add. rewrite Hg0, Hbo. lia. }
      rewrite Hrun. exists s, r, w'. destruct s; try done; step_done; (eapply after_trans; [by split|exact Ha]).
  - destruct Hst as (Hb & Hd & Hen).
    destruct (await_in_span_ok f span h n l w Hb Hd Hs Hl) as (s & r & w' & Hrun & Hs' & Hin & Ha); [split; lia|done|].
    mred. change {| i_inner := f; i_span := span |} with (instrument f span). rewrite Hrun.
    exists s, r, w'. destruct s; try done; step_done; (eapply after_weaken; [exact Ha|lia|done]).
  - destruct Hst as [Hb Hd]. destruct (await_without_ok f span h n l w Hb Hd Hs Hl) as (s & r & w' & Hrun & Hs' & Hin & Ha); [split; lia|].
    mred. rewrite Hrun.
    exists s, r, w'. destruct s; try done; step_done; (eapply after_weaken; [exact Ha|lia|done]).
  - exists Returned, Unwinding, w. step_done. by eapply after_nothing.
Qed.

Lemma async_drop_ok (self : AsyncFn G T A) h n l w :
  async_ok ce self -> settled es (add (async_own self) h) n w -> entered_are l w -> room fuel async_cost n w ->
  exists b w', drop_future self w = Done (b, w') /\ after es async_cost h n l w w'.
Proof using Hok H64 Hne.
  clear Hq. unfold async_cost, async_ok, async_own. intros (_ & _ & _ & Hst) Hs Hl [Hn Hf].
  cbn [drop_future async_fn_future]. unfold async_drop. unfold block_cost in *.
  destruct (a_state self) as [t|[f span]|f span|]; cbn [i_inner i_span] in *.
  - destruct (drop_ok es fuel t h n l w Hst Hs Hl) as (b & w' & H & Ha); [split; lia|].
    exists b, w'. split; [exact H|]. eapply after_weaken; [done|lia|done].
  - destruct Hst as (Hb & Hd & _).
    destruct (drop_ok es fuel (FutureLaws := in_span_laws) (instrument f span) h n l w (conj Hb Hd) Hs Hl) as (b & w' & H & Ha).
    { change (room fuel (block_cost ce) n w). unfold block_cost. split; lia. }
    exists b, w'. split; [exact H|]. change (after es (block_cost ce) h n l w w') in Ha. eapply after_weaken; [exact Ha|unfold block_cost; lia|done].
  - destruct Hst as [Hb Hd]. destruct span as [[]]; [done|].
    destruct (drop_ok es fuel (FutureLaws := block_future_laws ce) f h n l w Hb Hs Hl) as (b & w' & H & Ha).
    { change (room fuel (block_cost ce) n w). unfold block_cost. split; lia. }
    exists b, w'. mred. rewrite H. split; [done|].
    change (after es (block_cost ce) h n l w w') in Ha. eapply after_weaken; [exact Ha|unfold block_cost; lia|done].
  - exists false, w. split; [done|]. by eapply after_nothing.
Qed.

(** So [async] functions with the attribute are futures that keep to the rules: they may be
    tasks of an executor and the blocks of other [async] functions. *)
#[export] Instance async_fn_laws : FutureLaws es fuel (AsyncFn G T A) A.
Proof using Hok H64 Hne Hq GL FL ce.
  refine {| fut_ok := async_ok ce; own := async_own; cost := async_cost |}.
  - intros self h n l w Hst Hs Hl Hr. destruct (async_poll_ok self h n l w Hst Hs Hl Hr) as (s & r & w' & H & Hst' & _ & _ & Ha).
    by exists (in_state s self), r, w'.
  - intros self h n l w. apply async_drop_ok.
Defined.
End async.
End laws.

(** C14: a call of a function with the attribute: when its level is on, the span is made, the
    subscriber is told that it follows from each span of [follows_from], in order, and it is
    entered; the block and then the event for its result run with exactly this span entered on
    top of what the thread has entered, and in no span of the attribute when the level is off;
    of the events only the one for the side of the result runs, none when the block unwinds,
    and the result is that of the block unless the code of the event unwinds; at the end, and
    when something unwinds, the span is left and its handle dropped: the thread has entered
    what it had before, and the registry has the spans that the rest of the program holds,
    each with the count of its handles and children. *)
Theorem instrumented_fn_runs `{E : Env} {P : PoolOps DataInner} `{!PoolLaws default_data P}
    (es : list entry) (fuel : nat) {G T R : Type} `{!GetSpan G T} `{GL : !GetSpanLaws es fuel G T}
    (f : FnCode G T R) (args : T) (mine : handles) (cb ce : nat) (h : handles) (n : nat) (l : list Id) (w : World)
    (Hok : Forall entry_ok es) (H64 : (filters es < 64)%nat) (Hne : es <> []) (Hq : Forall quiet_follows es)
    (Hg : get_ok es fuel (site f)) (Hblock : code_ok es fuel cb mine (fn_block f args)) (Hev : events_ok es fuel ce (events f))
    (Hset : settled es (add (get_own es fuel (site f)) (add mine h)) n w) (Hl : entered_are l w)
    (Hroom : room fuel (get_cost es fuel + cb + ce) n w) :
  exists r w', run_fn f args w = Done (r, w') /\ entered_are l w' /\
    (exists o w1 rb w2 w3, opened f args w o w1 /\
       let entered := from_option (fun span => enter_on span l) l o in
       entered_are entered w1 /\ fn_block f args w1 = Done (rb, w2) /\
       entered_are entered w2 /\ with_emitted (events f) rb w2 r w3 /\
       entered_are entered w3 /\ closed o w3 w') /\
    accounted (add (get_own es fuel (site f)) h) w'.
Proof.
  destruct (run_fn_ok es fuel Hok H64 Hne Hq f args mine cb ce h n l w Hg Hblock Hev Hset Hl Hroom)
    as (o & w1 & rb & w2 & r & w3 & w' & Ho & Hl1 & Hb & Hl2 & He & Hl3 & Hclose & Hrun & [Hs' Hl' _]).
  exists r, w'. split_and!; [done..| |by eapply settled_accounted].
  by exists o, w1, rb, w2, w3.
Qed.

(** C15: the future of an [async] function with the attribute makes its span at the first
    poll, where the subscriber is told what it follows from, and never again: every poll is
    one poll of the future of the block, with exactly this span entered on top of what the
    thread has entered, and left again, and while that is pending the same span is kept; a
    future of the block that is ready records the event for its result; once it is ready or
    unwinds it is dropped in the span and the span with it, and a poll after the end unwinds.
    After a poll the thread has entered what it had before and the registry has the spans
    that the rest of the program, the block and, while it is pending, one handle of the
    future hold, and after a drop of the future, at whatever point, those that the rest of
    the program holds. *)
Theorem instrumented_async_runs `{E : Env} {P : PoolOps DataInner} `{!PoolLaws default_data P}
    (es : list entry) (fuel : nat) {G T A : Type} `{!GetSpan G T} `{GL : !GetSpanLaws es fuel G T}
    `{!Future T A} `{FL : !FutureLaws es fuel T A}
    (self : AsyncFn G T A) (ce : nat) (h : handles) (n : nat) (l : list Id) (w : World)
    (Hok : Forall entry_ok es) (H64 : (filters es < 64)%nat) (Hne : es <> []) (Hq : Forall quiet_follows es)
    (Hself : async_ok es fuel ce self) (Hset : settled es (add (async_own es fuel self) h) n w) (Hl : entered_are l w)
    (Hroom : room fuel (async_cost es fuel (GL := GL) (FL := FL) ce) n w) :
  (exists s r w', poll self w = Done ((in_state s self, r), w') /\ entered_are l w' /\
     polled_as self l w s r w' /\
     match s with NotStarted _ => False | Returned => r <> Pending | _ => r = Pending end /\
     async_ok es fuel ce (in_state s self) /\
     accounted (add (match s with
                     | InSpan f => add (span_own (i_span f)) (block_own es fuel (i_inner f))
                     | WithoutSpan f _ => block_own es fuel f
                     | _ => no_handles
                     end) h) w') /\
  (exists b w', drop_future self w = Done (b, w') /\ entered_are l w' /\ accounted h w').
Proof.
  split.
  - destruct (async_poll_ok es fuel Hok H64 Hne Hq ce self h n l w Hself Hset Hl Hroom)
      as (s & r & w' & Hrun & Hst & [_ Hs] & Hin & [Hs' Hl' _]).
    exists s, r, w'. split_and!; [done..|]. apply settled_accounted in Hs'. by destruct s.
  - destruct (async_drop_ok es fuel Hok H64 Hne ce self h n l w Hself Hset Hl Hroom) as (b & w' & Hrun & [Hs' Hl' _]).
    exists b, w'. split_and!; [done..|by eapply settled_accounted].
Qed.

(** ** A function that fails, and an [async] function that counts *)

Module AttrRunExample.

Abbreviation start := (with_filters 2).
Definition call_site : SpanSite unit :=
  {| sp_dispatch := dispatch example_stack 10; sp_cached := always_on; sp_attrs _ := root_span; sp_parent := none |}.
(** Its error is the current span; it follows from a span that does not exist. *)
Definition work : FnCode (SpanSite unit) unit (result unit (option Id)) := {|
  fn_cached := always_on; fn_level := Level.INFO; log_enabled := false; site := call_site; causes := [Some (idx_to_id 7)];
  fn_block _ := c ← s_current_span (dispatch example_stack 10); mret (Some (Err (CurrentSpans.id c)));
  events := ErrEvent (fun _ => mret (Some tt));
|}.
#[local] Instance call_site_laws : GetSpanLaws example_stack 10 (SpanSite unit) unit :=
  site_laws example_stack 10 example_stack_ok ltac:(cbn; lia) example_unlimited.
Lemma example_stack_quiet : Forall quiet_follows example_stack.
Proof. repeat constructor; intros ? ? ? w; exists (user w); by destruct w. Qed.
Lemma start_settled : settled example_stack no_handles 0 start.
Proof.
  apply (program_ok example_stack 10 example_unlimited example_stack_ok ltac:(cbn; lia) ltac:(discriminate) [] 0 start).
  by apply program_start.
Qed.
(** A pool in which nothing is held is empty. *)
Lemma nothing_held p k : ~ held no_handles p k.
Proof. induction 1 as [k Hk|]; [unfold no_handles in Hk; lia|done]. Qed.
Lemma none_live p k h : (forall k, h k = no_handles k) -> (is_Some (pool_get k p) <-> held h p k) -> pool_get k p = None.
Proof.
  intros Hh [H _]. destruct (pool_get k p) eqn:Hk; [|done]. exfalso. specialize (H (mk_is_Some _ _ eq_refl)).
  clear Hk. apply (nothing_held p k). induction H as [k' Hk'|]; [apply held_handle; by rewrite <- Hh|by eapply held_child].
Qed.

Lemma instrumented_fn_runs_witness :
  exists w', run_fn work tt start = Done (Some (Err (Some (idx_to_id 0))), w') /\ entered_are [] w' /\
    forall k, pool_get k (spans w') = None.
Proof.
  assert (exists w', run_fn work tt start = Done (Some (Err (Some (idx_to_id 0))), w')) as [v Hv] by (eexists; vm_compute; reflexivity).
  destruct (instrumented_fn_runs example_stack 10 work tt no_handles 0 0 no_handles 0 [] start
    example_stack_ok ltac:(cbn; lia) ltac:(discriminate) example_stack_quiet) as (r & w' & Hrun & Hl & _ & [Hlive _]).
  - by split.
  - intros h n l w Hs Hl _. cbn [fn_block work]. mred. unfold dispatch. rewrite stack_current_span. eexists _, w. split; [reflexivity|].
    by eapply after_nothing.
  - intros x h n l w Hs Hl _. exists (Some tt), w. split; [by destruct x|]. by eapply after_nothing.
  - eapply settled_ext; [|exact start_settled]. done.
  - done.
  - split; [unfold U64.MAX; cbn; lia|vm_compute; lia].
  - rewrite Hv in Hrun. injection Hrun as <- <-. exists v. split_and!; [done|exact Hl|]. intros k.
    by apply (none_live _ _ _ (fun _ => eq_refl) (Hlive k)).
Defined.

#[local] Instance counting_future : Future Countdown (list (option Id)) := countdown_future example_stack 10.
(** It is ready at the second poll, and records its result. *)
Definition counting : AsyncFn (SpanSite Countdown) Countdown (list (option Id)) := {|
  a_site := {| sp_dispatch := dispatch example_stack 10; sp_cached := always_on; sp_attrs _ := root_span; sp_parent := none |};
  a_causes := []; a_events := RetEvent (fun _ => mret (Some tt));
  a_state := NotStarted {| left_ := 1; bomb := false; seen := [] |};
|}.
Lemma instrumented_async_runs_witness :
  exists f w', poll counting start = Done ((in_state (InSpan f) counting, Pending), w') /\ entered_are [] w' /\
    SpanHandles.id (i_span f) = Some (idx_to_id 0) /\ is_Some (pool_get 0 (spans w')).
Proof.
  assert (match poll counting start with
          | Done ((self, r), w) =>
              match a_state self with InSpan f => bool_decide (SpanHandles.id (i_span f) = Some (idx_to_id 0)) | _ => false end
          | Panic => false
          end = true) as Hev by (vm_compute; reflexivity).
  destruct (instrumented_async_runs example_stack 10 counting 0 no_handles 0 [] start
    (GL := site_laws example_stack 10 example_stack_ok ltac:(cbn; lia) example_unlimited) (FL := countdown_laws example_stack 10)
    example_stack_ok ltac:(cbn; lia) ltac:(discriminate) example_stack_quiet)
    as [(s & r & w' & Hrun & Hl & _ & Hs & _ & Hlive & _) _].
  - split_and!; [by split|done| |done]. intros x h n l w Hs Hl _. exists (Some tt), w. split; [done|]. by eapply after_nothing.
  - eapply settled_ext; [|exact start_settled]. done.
  - done.
  - split; [unfold U64.MAX; cbn; lia|vm_compute; lia].
  - change (poll counting start = Done ((in_state s counting, r), w')) in Hrun. rewrite Hrun in Hev. cbn [a_state in_state] in Hev. destruct s as [|f| |]; try done. apply bool_decide_eq_true in Hev.
    exists f, w'. subst r. split_and!; [done|exact Hl|done|]. apply Hlive, held_handle.
    unfold add at 1, add at 1, span_own. rewrite Hev. rewrite decide_True by reflexivity. lia.
Defined.
End AttrRunExample.
