(* ===== verification/LogOutput.v ===== *)
(** * LogOutput: the feature [log] of [tracing], [tracing/src/lib.rs], [span.rs], [macros.rs]

    The records for the [log] crate that events and the life of spans write when no
    subscriber was ever set, or always with the feature [log-always]. *)

From stdpp Require Import pretty.
From S2P Require Import Prelude.
From S2P Require Import Str.
From S2P Require Import Levels.
From S2P Require Import Fields.
From S2P Require Import Meta.
From S2P Require Import LogBridge.
From S2P Require Import Format.

Local Open Scope string_scope.
Local Open Scope list_scope.

(** ** [level_to_log!], [if_log_enabled!] *)

Definition level_to_log (l : Level.t) : Log.Level :=
  match Level.inner l with
  | Level.Error => Log.Error
  | Level.Warn => Log.Warn
  | Level.Info => Log.Info
  | Level.Debug => Log.Debug
  | _ => Log.Trace
  end.
(** A level of [log] is compared with a filter as numbers. *)
Definition log_le (l : Log.Level) (f : Log.LevelFilter) : bool := (Log.as_usize l <=? Log.filter_usize f)%Z.

Inductive LogFeature := NoLog | WithLog | LogAlways.
(** What the [log] crate and the dispatcher answer: the static and the global maximum, the
    logger's [enabled], and whether a dispatcher was ever set. *)
Record LogState := {
  feature : LogFeature;
  static_max_level : Log.LevelFilter;
  log_max_level : Log.LevelFilter;
  logger_enabled : Log.Metadata -> bool;
  has_been_set : bool;
}.
Definition if_log_enabled {A} (st : LogState) (lvl : Level.t) (if_log else_ : A) : A :=
  match feature st with
  | NoLog => else_
  | WithLog =>
      if log_le (level_to_log lvl) (static_max_level st) then if negb (has_been_set st) then if_log else else_ else else_
  | LogAlways => if log_le (level_to_log lvl) (static_max_level st) then if_log else else_
  end.

Section output.
Context {C : FmtCrates}.

(** ** [LogValueSet]

    Its [Display] on a formatter whose writes may fail. *)
Section visitor.
Context {F : Type} (put : string -> F -> F * result unit unit).

(** The pieces of a [write!], up to the first that fails. *)
Fixpoint write_pieces (l : list string) (f : F) : F * result unit unit :=
  match l with
  | [] => (f, Ok tt)
  | s :: l => match put s f with (f, Ok _) => write_pieces l f | (f, Err e) => (f, Err e) end
  end.

Record LogVisitor_ := { lv_f : F; is_first : bool; lv_result : result unit unit }.
Definition log_pieces (first : bool) (name : string) (value : DebugValue) : list string :=
  if first then
    if (name =? "message")%string then debug_fmt value else name :: "=" :: debug_fmt value
  else " " :: name :: "=" :: debug_fmt value.
(** [Field::name] may panic; the first error is kept. *)
Definition log_record_debug (field : Field) (value : DebugValue) (st : outcome LogVisitor_) : outcome LogVisitor_ :=
  self ← st;
  name ← Field.name field;
  let '(f, res) := write_pieces (log_pieces (is_first self) name value) (lv_f self) in
  Done {| lv_f := f; is_first := false;
          lv_result := match res with
                       | Err err => match lv_result self with Ok _ => Err err | Err e => Err e end
                       | Ok _ => lv_result self
                       end |}.
Definition log_record_str (field : Field) (value : string) (st : outcome LogVisitor_) : outcome LogVisitor_ :=
  self ← st;
  name ← Field.name field;
  if (name =? "message")%string then log_record_debug field (DisplayValue [value]) (Done self)
  else log_record_debug field (DebugStr value) (Done self).
Definition log_visit : Visit (outcome LogVisitor_) :=
  let default := default_visit log_record_debug in {|
  Fields.record_f64 := Fields.record_f64 default; Fields.record_i64 := Fields.record_i64 default;
  Fields.record_u64 := Fields.record_u64 default; Fields.record_i128 := Fields.record_i128 default;
  Fields.record_u128 := Fields.record_u128 default; Fields.record_bool := Fields.record_bool default;
  Fields.record_str := log_record_str; Fields.record_bytes := Fields.record_bytes default;
  Fields.record_error := Fields.record_error default; Fields.record_debug := Fields.record_debug default;
|}.
Definition log_value_set (values : ValueSet) (first : bool) (f : F) : outcome (F * result unit unit) :=
  visit ← ValueSet.record values log_visit (Done {| lv_f := f; is_first := first; lv_result := Ok tt |});
  Done (lv_f visit, lv_result visit).
End visitor.

(** The strings that it writes when no write fails. *)
Definition collect (s : string) (l : list string) : list string * result unit unit := (l ++ [s], Ok tt).
Definition log_values (values : ValueSet) (first : bool) : outcome (list string) :=
  fst <$> log_value_set collect values first [].

(** ** Events: [__tracing_log!] and the function of that name *)

Definition log_record (m : Metadata) (log_meta : Log.Metadata) (args : list string) : Log.Record_ := {|
  Log.metadata := log_meta; Log.args := args; Log.module_path := Metadata.module_path m; Log.file := Metadata.file m;
  Log.line := Metadata.line m;
|}.
Definition tracing_log_event (st : LogState) (m : Metadata) (values : ValueSet) : outcome (list Log.Record_) :=
  if_log_enabled st (Metadata.level m)
    (let level := level_to_log (Metadata.level m) in
     if log_le level (log_max_level st) then
       let log_meta := {| Log.level := level; Log.target := Metadata.target m |} in
       if logger_enabled st log_meta then args ← log_values values true; Done [log_record m log_meta args] else Done []
     else Done [])
    (Done []).

(** ** Spans

    [Span::log]: a span that is not disabled shows its identifier. *)
Definition LIFECYCLE_LOG_TARGET : string := "tracing::span".
Definition ACTIVITY_LOG_TARGET : string := "tracing::span::active".

Definition span_log (st : LogState) (meta : option Metadata) (id : option Id) (target : string) (level : Log.Level)
    (message : list string) : list Log.Record_ :=
  match meta with
  | Some m =>
      if log_le (level_to_log (Metadata.level m)) (log_max_level st) then
        let log_meta := {| Log.level := level; Log.target := target |} in
        if logger_enabled st log_meta then
          [log_record m log_meta
             match id with Some id => message ++ [" span="; pretty (Id.into_u64 id)] | None => message end]
        else []
      else []
  | None => []
  end.
(** [make_with] *)
Definition log_new_span (st : LogState) (attrs : Attributes) (id : Id) : outcome (list Log.Record_) :=
  let meta := Attributes.metadata attrs in
  if_log_enabled st (Metadata.level meta)
    (let target := if Attributes.is_empty attrs then LIFECYCLE_LOG_TARGET else Metadata.target meta in
     values ← log_values (Attributes.values attrs) false;
     Done (span_log st (Some meta) (Some id) target (level_to_log (Metadata.level meta))
             (["++ "; Metadata.name meta; ";"] ++ values)))
    (Done []).
(** [record_all] *)
Definition log_span_record (st : LogState) (meta : option Metadata) (id : option Id) (values : ValueSet) : outcome (list Log.Record_) :=
  match meta with
  | Some m =>
      if_log_enabled st (Metadata.level m)
        (let target := if Record_.is_empty values then LIFECYCLE_LOG_TARGET else Metadata.target m in
         shown ← log_values values false;
         Done (span_log st meta id target (level_to_log (Metadata.level m)) ([Metadata.name m; ";"] ++ shown)))
        (Done [])
  | None => Done []
  end.
(** [do_enter], [do_exit] and [drop] *)
Definition log_activity (arrow target : string) (st : LogState) (meta : option Metadata) (id : option Id) : list Log.Record_ :=
  if_log_enabled st Level.TRACE
    match meta with
    | Some m => span_log st meta id target Log.Trace [arrow; Metadata.name m; ";"]
    | None => []
    end [].
Definition log_enter := log_activity "-> " ACTIVITY_LOG_TARGET.
Definition log_exit := log_activity "<- " ACTIVITY_LOG_TARGET.
Definition log_drop := log_activity "-- " LIFECYCLE_LOG_TARGET.
End output.

(** ** What is written *)

Section theorems.
Context {C : FmtCrates}.

(** The [Debug] that a value is shown with; those that are empty are not shown. *)
Fixpoint shown_as (name : string) (v : Value) : option DebugValue :=
  match v with
  | VF64 v => Some (DebugF64 v)
  | VI64 v | VU64 v | VI128 v | VU128 v => Some (DebugInt v)
  | VBool b => Some (DebugBool b)
  | VStr s => Some (if (name =? "message")%string then DisplayValue [s] else DebugStr s)
  | VBytes l => Some (HexBytes l)
  | VError e => Some (DisplayValue (error_display e))
  | VDebug d => Some d
  | VEmpty | VNone => None
  | VSome v => shown_as name v
  end.
(** The fields in their order, with spaces between them; a message that is the first of an
    event is shown without its name. *)
Fixpoint shown_fields (first : bool) (l : list (string * Value)) : list string :=
  match l with
  | [] => []
  | (name, v) :: l =>
      match shown_as name v with
      | Some d => log_pieces first name d ++ shown_fields false l
      | None => shown_fields first l
      end
  end.

Lemma write_collect l f : write_pieces collect l f = (f ++ l, Ok tt).
Proof.
  revert f. induction l as [|s l IH]; intros f; cbn; [by rewrite app_nil_r|]. by rewrite IH, <- app_assoc.
Qed.
Lemma log_value_one f name v out first : Field.name f = Done name ->
  value_record v f (log_visit collect) (Done {| lv_f := out; is_first := first; lv_result := Ok tt |}) =
  Done {| lv_f := out ++ match shown_as name v with Some d => log_pieces first name d | None => [] end;
          is_first := match shown_as name v with Some _ => false | None => first end; lv_result := Ok tt |}.
Proof.
  intros Hf.
  assert (forall d, log_record_debug collect f d (Done {| lv_f := out; is_first := first; lv_result := Ok tt |}) =
    Done {| lv_f := out ++ log_pieces first name d; is_first := false; lv_result := Ok tt |}) as Hd.
  { intros d. unfold log_record_debug. rewrite Hf. cbn -[log_pieces]. by rewrite write_collect. }
  induction v; cbn -[log_pieces log_record_debug]; try apply Hd; try by rewrite app_nil_r.
  - unfold log_record_str. rewrite Hf. cbn -[log_pieces log_record_debug]. destruct (name =? "message")%string; apply Hd.
  - done.
Qed.

(** The values of an event or a span are written as the fields that have one. *)
Theorem log_values_shown (vs : ValueSet) (names : list string) (first : bool)
    (Hnames : Forall2 (fun p name => Field.name p.1 = Done name) (recorded vs) names) :
  log_values vs first = Done (shown_fields first (zip names (snd <$> recorded vs))).
Proof.
  unfold log_values, log_value_set. rewrite record_recorded. revert Hnames. generalize (recorded vs). intros l Hl.
  assert (forall out, fst <$> (visit ← fold_left (fun st '(f, v) => value_record v f (log_visit collect) st) l
      (Done {| lv_f := out; is_first := first; lv_result := Ok tt |}); Done (lv_f visit, lv_result visit)) =
    Done (out ++ shown_fields first (zip names (snd <$> l)))) as H; [|apply (H [])].
  revert first. induction Hl as [|[f v] name l names Hn Hl IH]; intros first out; cbn [fold_left].
  - cbn. by rewrite app_nil_r.
  - rewrite (log_value_one f name v out first Hn). cbn [snd fmap list_fmap zip zip_with shown_fields].
    destruct (shown_as name v) as [d|]; rewrite IH; [by rewrite <- app_assoc|by rewrite app_nil_r].
Qed.

(** Nothing is written without the feature, nor with it once a dispatcher was set. *)
Theorem log_output_off (st : LogState) :
  feature st = NoLog \/ feature st = WithLog /\ has_been_set st = true ->
  (forall m values, tracing_log_event st m values = Done []) /\
  (forall attrs id, log_new_span st attrs id = Done []) /\
  (forall meta id values, log_span_record st meta id values = Done []) /\
  (forall meta id, log_enter st meta id = [] /\ log_exit st meta id = [] /\ log_drop st meta id = []).
Proof.
  intros Hoff. assert (forall A lvl (a b : A), if_log_enabled st lvl a b = b) as Hb.
  { intros A lvl a b. unfold if_log_enabled. destruct Hoff as [->|[-> ->]]; [done|]. by destruct (log_le _ _). }
  split_and!; intros; [unfold tracing_log_event|unfold log_new_span|unfold log_span_record; destruct meta|
    unfold log_enter, log_exit, log_drop, log_activity; rewrite !Hb]; try rewrite Hb; done.
Qed.
End theorems.

Module LogOutputExample.
#[local] Instance crates : FmtCrates := {|
  style_prefix _ := ""; style_suffix _ := ""; f64_debug _ := []; str_debug s := [s]; tracing_log := false; log_callsite _ := 0%N;
|}.
Definition info_log : LogState := {|
  feature := WithLog; static_max_level := Log.TraceF; log_max_level := Log.InfoF; logger_enabled _ := true; has_been_set := false;
|}.
Definition names : FieldSet := FieldSet.new ["message"; "n"] 3%N.
Definition greeting : ValueSet := {| values := All [Some (VStr "hello"); Some (VI64 7)]; vs_fields := names |}.
Definition span_meta : Metadata := Metadata.new "work" "app" Level.INFO None None None names Kind.SPAN.

Example event_is_logged :
  tracing_log_event info_log span_meta greeting =
  Done [log_record span_meta {| Log.level := Log.Info; Log.target := "app" |} ["hello"; " "; "n"; "="; "7"]].
Proof. reflexivity. Qed.
(** The maximum of the logger is compared with the level of the span, not with that of the
    record: a record at the level [Trace] is written although the maximum is [Info]. *)
Example trace_record_above_max_level :
  log_le Log.Trace (log_max_level info_log) = false /\
  Log.level ∘ Log.metadata <$> log_enter info_log (Some span_meta) None = [Log.Trace].
Proof. done. Qed.
End LogOutputExample.
