(* ===== verification/Subscribers.v ===== *)
(** * Subscribers: the implementations of [Subscriber] in [tracing-core/src/subscriber.rs]

    The methods that a subscriber need not define, [NoSubscriber], and the subscribers
    behind a [Box] or an [Arc]. *)

From S2P Require Import Prelude.
From S2P Require Import Levels.
From S2P Require Import Fields.
From S2P Require Import Meta.
From S2P Require Import Interests.
From S2P Require Import FilterIds.
From S2P Require Import Registry.
From S2P Require Import Contexts.
From S2P Require Import Layers.
From S2P Require Import Stacks.

Section subscribers.
Context `{E : Env} {P : PoolOps DataInner}.

(** ** The default methods

    A subscriber that defines what the trait requires; [drop_span] is the deprecated method
    that the default [try_close] calls.  Without [LookupSpan] there are no spans to look
    up. *)
Record Required := {
  req_enabled : Metadata -> M bool;
  req_new_span : Attributes -> M Id;
  req_record : Id -> ValueSet -> M unit;
  req_record_follows_from : Id -> Id -> M unit;
  req_event : Event -> M unit;
  req_enter : Id -> M unit;
  req_exit : Id -> M unit;
}.
Definition by_default (self : Required) : DynSubscriber := {|
  s_on_register_dispatch := mret tt;
  s_register_callsite metadata :=
    enabled ← req_enabled self metadata; mret (if (enabled : bool) then Interest.always else Interest.never);
  s_enabled := req_enabled self;
  s_max_level_hint := None;
  s_new_span := req_new_span self;
  s_record := req_record self;
  s_record_follows_from := req_record_follows_from self;
  s_event_enabled _ := mret true;
  s_event := req_event self;
  s_enter := req_enter self;
  s_exit := req_exit self;
  s_clone_span id := mret id;
  s_try_close _ := mret false;
  s_current_span := mret CurrentSpans.unknown;
  s_span_data _ := mret None;
  s_register_filter := lift Panic;
  s_is_registry := false;
  s_downcast_registry := false;
  s_has_plf := false;
  s_is_none := false;
|}.
(** What is not in the list of an [impl] is the method of the trait. *)
Definition with_register_callsite (f : Metadata -> M Interest) (self : DynSubscriber) : DynSubscriber := {|
  s_on_register_dispatch := s_on_register_dispatch self; s_register_callsite := f; s_enabled := s_enabled self;
  s_max_level_hint := s_max_level_hint self; s_new_span := s_new_span self; s_record := s_record self;
  s_record_follows_from := s_record_follows_from self; s_event_enabled := s_event_enabled self; s_event := s_event self;
  s_enter := s_enter self; s_exit := s_exit self; s_clone_span := s_clone_span self; s_try_close := s_try_close self;
  s_current_span := s_current_span self; s_span_data := s_span_data self; s_register_filter := s_register_filter self;
  s_is_registry := s_is_registry self; s_downcast_registry := s_downcast_registry self; s_has_plf := s_has_plf self;
  s_is_none := s_is_none self;
|}.

(** ** [NoSubscriber] *)

Definition no_subscriber : DynSubscriber :=
  with_register_callsite (fun _ => mret Interest.never)
    (by_default {|
       req_enabled _ := mret false;
       req_new_span _ := lift (Id.from_u64 57005);
       req_record _ _ := mret tt;
       req_record_follows_from _ _ := mret tt;
       req_event _ := mret tt;
       req_enter _ := mret tt;
       req_exit _ := mret tt;
     |}).

(** ** [impl Subscriber for Box<S>], [for Arc<S>]

    They have the same methods: [on_register_dispatch] is not one of them.  [downcast_raw]
    asks the subscriber inside; the type is that of the pointer, for which [LookupSpan] is
    not implemented. *)
Definition boxed (self : DynSubscriber) : DynSubscriber := {|
  s_on_register_dispatch := mret tt;
  s_register_callsite metadata := s_register_callsite self metadata;
  s_enabled metadata := s_enabled self metadata;
  s_max_level_hint := s_max_level_hint self;
  s_new_span span := s_new_span self span;
  s_record span values := s_record self span values;
  s_record_follows_from span follows := s_record_follows_from self span follows;
  s_event_enabled event := s_event_enabled self event;
  s_event event := s_event self event;
  s_enter span := s_enter self span;
  s_exit span := s_exit self span;
  s_clone_span id := s_clone_span self id;
  s_try_close id := s_try_close self id;
  s_current_span := s_current_span self;
  s_span_data _ := mret None;
  s_register_filter := lift Panic;
  s_is_registry := false;
  s_downcast_registry := s_downcast_registry self;
  s_has_plf := s_has_plf self;
  s_is_none := s_is_none self;
|}.
Definition arced : DynSubscriber -> DynSubscriber := boxed.

(** What a program does with a dispatcher goes through a pointer unchanged. *)
Theorem boxed_is_transparent (s : DynSubscriber) :
  (forall m i, callsite_enabled (boxed s) m i = callsite_enabled s m i) /\
  (forall i ev, record_event (boxed s) i ev = record_event s i ev) /\
  (forall attrs, s_new_span (boxed s) attrs = s_new_span s attrs) /\
  (forall id, s_enter (boxed s) id = s_enter s id /\ s_exit (boxed s) id = s_exit s id /\
     s_clone_span (boxed s) id = s_clone_span s id /\ s_try_close (boxed s) id = s_try_close s id) /\
  s_max_level_hint (boxed s) = s_max_level_hint s.
Proof. done. Qed.

(** But the layers of a stack behind one are not told of their dispatcher. *)
Theorem boxed_registers_nothing (s : DynSubscriber) w : s_on_register_dispatch (boxed s) w = Done (tt, w).
Proof. done. Qed.

(** With [NoSubscriber] no span is made and no event is recorded. *)
Theorem no_subscriber_sees_nothing m (i : Interest) ev w :
  callsite_enabled no_subscriber m i w = Done (Interest.is_always i, w) /\
  s_register_callsite no_subscriber m w = Done (Interest.never, w) /\
  record_event no_subscriber i ev w = Done (tt, w).
Proof. by destruct i. Qed.
End subscribers.
