(* ===== verification/Install.v ===== *)
(** * Install: setting the defaults of a program, [tracing-subscriber/src/util.rs]

    [SubscriberInitExt], and the [LogTracer] that it makes the logger of the [log] crate
    ([tracing-log/src/log_tracer.rs]), with the interest cache that the tracer configures.
    The [log] crate is a parameter with laws. *)

From S2P Require Import Prelude.
From S2P Require Import Levels.
From S2P Require Import LogBridge.
From S2P Require Import InterestCache.
From S2P Require Import Dispatchers.

Local Open Scope Z_scope.

(** ** The crate [log]

    The logger may be set once; one that is not a [LogTracer] is a name.  The maximum level
    is a number that loggers are expected to read. *)
Inductive Logger := Tracer (t : LogTracer) | OtherLogger (name : string).
Class LogCrate (L : Type) := {
  set_boxed_logger : Logger -> L -> L * result unit unit;
  set_max_level : Log.LevelFilter -> L -> L;
  logger_of : L -> option Logger;
  max_level_of : L -> Log.LevelFilter;
}.
Class LogCrateLaws (L : Type) `{!LogCrate L} := {
  set_logger_ok l (s : L) : logger_of s = None ->
    exists s', set_boxed_logger l s = (s', Ok tt) /\ logger_of s' = Some l /\ max_level_of s' = max_level_of s;
  set_logger_err l (s : L) : logger_of s <> None -> set_boxed_logger l s = (s, Err tt);
  set_max_ok f (s : L) : max_level_of (set_max_level f s) = f /\ logger_of (set_max_level f s) = logger_of s;
}.

Section install.
Context {L : Type} `{!LogCrate L} `{!Lru}.

(** The statics of the program. *)
Record Program := { dispatchers : Dispatchers.World; log_crate : L; cache_of : Sys }.
Definition in_dispatchers {A} (f : Dispatchers.M A) (p : Program) : outcome A * Program :=
  let '(r, w) := f (dispatchers p) in (r, {| dispatchers := w; log_crate := log_crate p; cache_of := cache_of p |}).

(** ** [LogTracer] and its [Builder] *)

Record TracerBuilder := {
  b_ignore_crates : list string;
  b_filter : Log.LevelFilter;
  b_interest_cache_config : option InterestCacheConfig;
}.
Definition builder_default : TracerBuilder :=
  {| b_ignore_crates := []; b_filter := Log.TraceF; b_interest_cache_config := None |}.
Definition with_max_level (filter : Log.LevelFilter) (self : TracerBuilder) : TracerBuilder :=
  {| b_ignore_crates := b_ignore_crates self; b_filter := filter; b_interest_cache_config := b_interest_cache_config self |}.
Definition ignore_crate (self : TracerBuilder) (name : string) : TracerBuilder :=
  {| b_ignore_crates := b_ignore_crates self ++ [name]; b_filter := b_filter self;
     b_interest_cache_config := b_interest_cache_config self |}.
Definition ignore_all (crates : list string) (self : TracerBuilder) : TracerBuilder := fold_left ignore_crate crates self.
Definition with_interest_cache (config : InterestCacheConfig) (self : TracerBuilder) : TracerBuilder :=
  {| b_ignore_crates := b_ignore_crates self; b_filter := b_filter self; b_interest_cache_config := Some config |}.

(** [Builder::init]: the cache is configured first. *)
Definition builder_init (self : TracerBuilder) (p : Program) : result unit unit * Program :=
  let cache := configure (b_interest_cache_config self) (cache_of p) in
  let logger := Tracer {| ignore_crates := b_ignore_crates self |} in
  let '(log, r) := set_boxed_logger logger (log_crate p) in
  match r with
  | Err e => (Err e, {| dispatchers := dispatchers p; log_crate := log; cache_of := cache |})
  | Ok _ =>
      (Ok tt, {| dispatchers := dispatchers p; log_crate := set_max_level (b_filter self) log; cache_of := cache |})
  end.
Definition tracer_new : LogTracer := {| ignore_crates := [] |}.
Definition init_with_filter (level : Log.LevelFilter) : Program -> result unit unit * Program :=
  builder_init (with_max_level level builder_default).
Definition tracer_init : Program -> result unit unit * Program := builder_init builder_default.

(** ** [SubscriberInitExt] *)

(** [TryInitError]: the error of either. *)
Inductive TryInitError := SetGlobalDefaultError | SetLoggerError.

(** The result of [LogTracer::init] is dropped. *)
Definition init_set_default (t : nat) (d : Dispatch) (p : Program) : outcome (option Dispatch) * Program :=
  let '(_, p) := tracer_init p in in_dispatchers (set_default t d) p.
(** [current] is [LevelFilter::current()] once the dispatcher was made. *)
Definition try_init (current : LevelFilter.t) (d : Dispatch) (p : Program) : outcome (result unit TryInitError) * Program :=
  let '(r, p) := in_dispatchers (set_global_default d) p in
  match r with
  | Panic => (Panic, p)
  | Done (Err _) => (Done (Err SetGlobalDefaultError), p)
  | Done (Ok _) =>
      let '(r, p) := builder_init (with_max_level (filter_as_log current) builder_default) p in
      (Done match r with Ok _ => Ok tt | Err _ => Err SetLoggerError end, p)
  end.
(** [expect] *)
Definition init_subscriber (current : LevelFilter.t) (d : Dispatch) (p : Program) : outcome unit * Program :=
  let '(r, p) := try_init current d p in
  (match r with Done (Ok _) => Done tt | _ => Panic end, p).

(** [fmt::SubscriberBuilder::try_init] and [init]: the dispatcher is that of the finished
    subscriber. *)
Definition builder_try_init {B S} (finish : B -> S) (into : S -> Dispatch) (current : LevelFilter.t) (self : B) :
  Program -> outcome (result unit TryInitError) * Program := try_init current (into (finish self)).
Definition builder_init_subscriber {B S} (finish : B -> S) (into : S -> Dispatch) (current : LevelFilter.t) (self : B) (p : Program) :
    outcome unit * Program :=
  let '(r, p) := builder_try_init finish into current self p in
  (match r with Done (Ok _) => Done tt | _ => Panic end, p).
End install.
Arguments Program L {_}.

(** ** What is installed *)

Section theorems.
Context {L : Type} `{!LogCrate L} `{!LogCrateLaws L} `{!Lru}.

(** The logger after an initialization: the tracer, if there was none. *)
Lemma builder_init_spec (b : TracerBuilder) (p : Program L) :
  exists r p', builder_init b p = (r, p') /\ dispatchers p' = dispatchers p /\
    cache_of p' = configure (b_interest_cache_config b) (cache_of p) /\
    match logger_of (log_crate p) with
    | None => r = Ok tt /\ logger_of (log_crate p') = Some (Tracer {| ignore_crates := b_ignore_crates b |}) /\
        max_level_of (log_crate p') = b_filter b
    | Some _ => r = Err tt /\ log_crate p' = log_crate p
    end.
Proof.
  unfold builder_init. destruct (logger_of (log_crate p)) as [l|] eqn:Hl.
  - rewrite set_logger_err by by rewrite Hl. eexists _, _. do 3 (split; [done|]). done.
  - destruct (set_logger_ok (Tracer {| ignore_crates := b_ignore_crates b |}) (log_crate p) Hl) as (s & -> & Hs & _).
    eexists _, _. do 3 (split; [done|]). cbn. destruct (set_max_ok (b_filter b) s) as [-> ->]. done.
Qed.

(** [try_init] on every branch: when a global default was set before, nothing changes; else
    the subscriber is the global default and stays so, and when the program has no logger
    the records of [log] up to the maximum level become its events; when it has one, that
    one is kept and the error says so. *)
Theorem try_init_branches (current : LevelFilter.t) (d : Dispatch) (p : Program L) :
  exists r p', try_init current d p = (Done r, p') /\
    if GLOBAL_INIT (dispatchers p) =? UNINITIALIZED then
      get_global (dispatchers p') = leak d /\ has_been_set (dispatchers p') = true /\
      match logger_of (log_crate p) with
      | None => r = Ok tt /\ logger_of (log_crate p') = Some (Tracer tracer_new) /\
          max_level_of (log_crate p') = filter_as_log current
      | Some _ => r = Err SetLoggerError /\ log_crate p' = log_crate p
      end
    else r = Err SetGlobalDefaultError /\ p' = p.
Proof.
  unfold try_init, in_dispatchers, set_global_default, global_step.
  destruct (GLOBAL_INIT (dispatchers p) =? UNINITIALIZED) eqn:Hinit.
  2:{ eexists _, _. split; [done|]. split; [done|]. by destruct p. }
  set (p1 := {| dispatchers := with_exists _; log_crate := log_crate p; cache_of := cache_of p |}).
  destruct (builder_init_spec (with_max_level (filter_as_log current) builder_default) p1)
    as (r & p' & -> & Hd & _ & Hl). cbn [log_crate p1] in Hl.
  eexists _, p'. split; [done|]. rewrite Hd. split; [done|]. split; [done|].
  destruct (logger_of (log_crate p)); destruct Hl as [-> Hl]; done.
Qed.

(** The interest cache is configured even when the logger cannot be set: the second
    initialization, of a scoped default, turns off the cache that the first one asked for. *)
Theorem second_init_disables_cache (config : InterestCacheConfig) (t : nat) (d : Dispatch) (p p1 p2 : Program L) r g :
  logger_of (log_crate p) = None ->
  builder_init (with_interest_cache config builder_default) p = (r, p1) -> init_set_default t d p1 = (g, p2) ->
  r = Ok tt /\ InterestCache.config (cache_of p1) = Some config /\
  logger_of (log_crate p2) = logger_of (log_crate p1) /\ InterestCache.config (cache_of p2) = Some disabled_config.
Proof.
  intros Hl H1 H2.
  destruct (builder_init_spec (with_interest_cache config builder_default) p) as (r' & p' & Hr & _ & Hc & Hs).
  rewrite H1 in Hr. injection Hr as <- <-. rewrite Hl in Hs. destruct Hs as (-> & Hs & _).
  split; [done|]. split; [by rewrite Hc|].
  unfold init_set_default in H2. destruct (builder_init_spec builder_default p1) as (r2 & p3 & Hr2 & _ & Hc2 & Hs2).
  unfold tracer_init in H2. rewrite Hr2 in H2. rewrite Hs in Hs2. destruct Hs2 as [_ Hs2].
  unfold in_dispatchers in H2. destruct (set_default t d _) as [g' w']. injection H2 as <- <-. cbn.
  split; [by rewrite Hs2|]. by rewrite Hc2.
Qed.
End theorems.

(** ** A concrete crate *)

Module InstallExample.
Record Log_ := { the_logger : option Logger; the_max : Log.LevelFilter }.
#[export] Instance log_ : LogCrate Log_ := {|
  set_boxed_logger l s :=
    match the_logger s with None => ({| the_logger := Some l; the_max := the_max s |}, Ok tt) | Some _ => (s, Err tt) end;
  set_max_level f s := {| the_logger := the_logger s; the_max := f |};
  logger_of := the_logger;
  max_level_of := the_max;
|}.
#[export] Instance log_laws : LogCrateLaws Log_.
Proof.
  split; cbn.
  - intros l s ->. by eexists.
  - intros l s H. by destruct (the_logger s).
  - done.
Qed.
#[local] Existing Instance MapLru.impl.

Definition fresh_program : Program Log_ := {|
  dispatchers := (start {[ 0%nat ]}).1; log_crate := {| the_logger := None; the_max := Log.OffF |}; cache_of := InterestCache.init;
|}.
(** A subscriber for warnings: the logger is a tracer with that maximum, and the next one
    is refused. *)
Example two_subscribers :
  match try_init LevelFilter.WARN (app_dispatch 1%N) fresh_program with
  | (Done (Ok _), p) =>
      the_max (log_crate p) = Log.WarnF /\ (try_init LevelFilter.INFO (app_dispatch 2%N) p).1 = Done (Err SetGlobalDefaultError)
  | _ => False
  end.
Proof. vm_compute. done. Qed.
End InstallExample.
