(* ===== verification/TestFutures.v ===== *)
(** * TestFutures: [tracing-test/src/lib.rs]

    The future of the tests, which is ready at a given poll, and the loop that polls a
    future until it is ready. *)

From S2P Require Import Prelude.
From S2P Require Import Registry.
From S2P Require Import Pools.
From S2P Require Import Layers.
From S2P Require Import Stacks.
From S2P Require Import SpanLife.
From S2P Require Import SpanHandles.
From S2P Require Import Instrument.

Local Open Scope Z_scope.

(** ** [PollN]

    The counter is a [usize]: at its end the addition panics in builds with the checks of
    overflow, and wraps in others. *)
Record PollN (T Er : Type) := { and_return : option (result T Er); finish_at : Z; polls : Z }.
Arguments and_return {T Er}. Arguments finish_at {T Er}. Arguments polls {T Er}.

Definition count_poll {T Er} (this : PollN T Er) : PollN T Er :=
  {| and_return := and_return this; finish_at := finish_at this; polls := U64.wrap (polls this + 1) |}.
Definition take_return {T Er} (this : PollN T Er) : PollN T Er :=
  {| and_return := None; finish_at := finish_at this; polls := polls this |}.
(** [poll]; a return value that was taken before is a panic, and so is the overflow. *)
Definition poll_n {T Er} (overflow_checks : bool) (this : PollN T Er) : PollN T Er * Polled (result T Er) :=
  if overflow_checks && (polls this =? U64.MAX) then (this, Unwinding)
  else
    let this := count_poll this in
    if polls this =? finish_at this then
      match and_return this with
      | Some value => (take_return this, Ready value)
      | None => (this, Unwinding)
      end
    else (this, Pending).

Definition new_ok (finish_at : Z) : PollN unit unit := {| and_return := Some (Ok tt); finish_at := finish_at; polls := 0 |}.
Definition new_err (finish_at : Z) : PollN unit unit := {| and_return := Some (Err tt); finish_at := finish_at; polls := 0 |}.

Section futures.
Context `{E : Env} {P : PoolOps DataInner}.

#[export] Instance poll_n_future {T Er} : Future (PollN T Er) (result T Er) := {
  poll this := mret (poll_n debug_assertions this);
  drop_future _ := mret false;
}.

(** ** [block_on_future]

    [None] when [fuel] polls were not enough.  The future is dropped when the loop is left
    and when a poll unwinds, where a second panic aborts the program. *)
Inductive Blocked (A : Type) := Returned (v : A) | Panicked | Aborted.
Arguments Returned {A}. Arguments Panicked {A}. Arguments Aborted {A}.

Fixpoint block_on_future {T A} `{!Future T A} (fuel : nat) (future : T) : M (option (Blocked A)) :=
  match fuel with
  | O => mret None
  | S fuel =>
      '(future, r) ← poll future;
      match r with
      | Ready v => unwinds ← drop_future future; mret (Some (if (unwinds : bool) then Panicked else Returned v))
      | Pending => block_on_future fuel future
      | Unwinding => unwinds ← drop_future future; mret (Some (if (unwinds : bool) then Aborted else Panicked))
      end
  end.

(** ** The polls of a [PollN] *)

Context `{!PoolLaws default_data P} (es : list entry) (fuel : nat).

(** It holds no span and makes none. *)
#[export] Instance poll_n_laws {T Er} : FutureLaws es fuel (PollN T Er) (result T Er).
Proof.
  refine {| fut_ok _ := True; own _ _ := 0%nat; cost := 0%nat |}.
  - intros t h n l w _ Hs Hl _. destruct (poll_n debug_assertions t) as [t' r] eqn:Hp.
    exists t', r, w. cbn. rewrite Hp. split; [done|]. split; [done|]. split; [by rewrite Nat.add_0_r|done|lia].
  - intros t h n l w _ Hs Hl _. exists false, w. split; [done|].
    split; [by rewrite Nat.add_0_r|done|lia].
Defined.

(** A poll before the one that is ready, and that one. *)
Lemma poll_n_pending {T Er} b (t : PollN T Er) :
  0 <= polls t -> polls t + 1 < finish_at t <= U64.MAX ->
  poll_n b t = ({| and_return := and_return t; finish_at := finish_at t; polls := polls t + 1 |}, Pending).
Proof.
  intros H0 H. unfold poll_n, count_poll, U64.wrap, U64.MAX in *.
  replace (polls t =? _) with false by lia. rewrite andb_false_r. cbn.
  rewrite Z.mod_small by lia. by replace (polls t + 1 =? finish_at t) with false by lia.
Qed.
Lemma poll_n_ready {T Er} b (t : PollN T Er) v :
  0 <= polls t -> polls t + 1 = finish_at t -> finish_at t <= U64.MAX -> and_return t = Some v ->
  poll_n b t = ({| and_return := None; finish_at := finish_at t; polls := finish_at t |}, Ready v).
Proof.
  intros H0 He H Hv. unfold poll_n, count_poll, take_return, U64.wrap, U64.MAX in *.
  replace (polls t =? _) with false by lia. rewrite andb_false_r. cbn.
  rewrite Z.mod_small by lia. rewrite He, Z.eqb_refl, Hv. done.
Qed.

(** After the poll that was ready, or when it is to be ready at poll 0, it is pending for
    the rest of the count: the panic for a second value is not reached before that. *)
Lemma poll_n_late {T Er} b (t : PollN T Er) :
  0 <= finish_at t <= polls t -> polls t < U64.MAX ->
  poll_n b t = ({| and_return := and_return t; finish_at := finish_at t; polls := polls t + 1 |}, Pending).
Proof.
  intros H0 H. unfold poll_n, count_poll, U64.wrap, U64.MAX in *.
  replace (polls t =? _) with false by lia. rewrite andb_false_r. cbn.
  rewrite Z.mod_small by lia. by replace (polls t + 1 =? finish_at t) with false by lia.
Qed.
Theorem poll_at_zero_never_ends {T Er} (t : PollN T Er) k w :
  finish_at t = 0 -> 0 <= polls t -> polls t + Z.of_nat k <= U64.MAX -> block_on_future k t w = Done (None, w).
Proof.
  revert t. induction k as [|k IH]; intros t Hf H0 Hk; [done|]. cbn [block_on_future poll poll_n_future]. mred.
  rewrite poll_n_late by lia. apply IH; cbn; lia.
Qed.

Hypotheses (Hok : Forall entry_ok es) (H64 : (filters es < 64)%nat) (Hne : es <> []).

(** A test future in a span: as many polls as it asks for are enough, each of them in the
    span, and in the end the span is left and its handle given back. *)
Theorem block_on_instrumented {T Er} (t : PollN T Er) v (span : Span) h n l w k :
  0 <= polls t -> polls t < finish_at t <= U64.MAX -> and_return t = Some v ->
  of_dispatch es fuel span -> settled es (add (span_own span) h) n w -> entered_are l w -> room fuel 0 n w ->
  finish_at t - polls t <= Z.of_nat k ->
  exists w', block_on_future k (instrument t span) w = Done (Some (Returned v), w') /\ after es 0 h n l w w'.
Proof using All.
  revert t w. induction k as [|k IH]; intros t w H0 Hp Hv Hd Hs Hl Hr Hk; [lia|].
  assert (settled es (add (add (span_own span) (fun _ => 0%nat)) h) n w) as Hs'.
  { eapply settled_ext; [|exact Hs]. intros j. unfold add. cbn. lia. }
  destruct (instrumented_spec (FutureLaws0 := poll_n_laws) es fuel Hok H64 Hne t span h n l w I Hd Hs' Hl Hr)
    as [(w1 & t' & r & w2 & w3 & _ & _ & Hpoll & Hi & _ & [Ha1 Ha2 Ha3]) _].
  cbn [poll poll_n_future mret] in Hpoll. injection Hpoll as Hpoll _.
  change (cost es fuel) with 0%nat in *. rewrite Nat.add_0_r in Ha1. rewrite Nat.add_0_r in Ha3.
  assert (room fuel 0 n w3) as Hr3 by (destruct Hr; split; [done|lia]).
  cbn [block_on_future]. mred. rewrite Hi.
  destruct (Z.eq_dec (polls t + 1) (finish_at t)) as [He|He].
  - rewrite (poll_n_ready debug_assertions t v) in Hpoll by lia || done. injection Hpoll as <- <-.
    destruct (instrumented_spec (FutureLaws0 := poll_n_laws) es fuel Hok H64 Hne _ span h n l w3 I Hd Ha1 Ha2 Hr3)
      as [_ (w1' & b & w2' & w4 & _ & _ & Hdrop & Hid & [Hb1 Hb2 Hb3])].
    cbn in Hdrop. injection Hdrop as <- _. rewrite Hid. exists w4. split; [done|].
    split; [done..|]. change (cost es fuel) with 0%nat in Hb3. lia.
  - rewrite (poll_n_pending debug_assertions t) in Hpoll by lia. injection Hpoll as <- <-.
    destruct (IH {| and_return := and_return t; finish_at := finish_at t; polls := polls t + 1 |} w3)
      as (w4 & H4 & [Hb1 Hb2 Hb3]); cbn; try lia; try done.
    { eapply settled_ext; [|exact Ha1]. intros j. unfold add. cbn. lia. }
    exists w4. split; [exact H4|]. split; [done..|lia].
Qed.

Example third_poll w :
  block_on_future 2 (new_ok 3) w = Done (None, w) /\ block_on_future 3 (new_err 3) w = Done (Some (Returned (Err tt)), w).
Proof. cbn. by destruct debug_assertions. Qed.
End futures.

(** At the end of the count a future that is to be ready at poll 0 is, without the checks. *)
Example poll_n_wraps :
  let t := {| and_return := Some (Ok tt : result unit unit); finish_at := 0; polls := U64.MAX |} in
  (poll_n false t).2 = Ready (Ok tt) /\ (poll_n true t).2 = Unwinding.
Proof. done. Qed.
